(* ===== verification/_CoqProject ===== *)
-Q . S2P
Prelude.v
Utf8.v
Text.v
Dates.v
Format.v
Errors.v
Price.v
Prefs.v
Updates.v
UpdateChecks.v
Network.v
Xpub.v
Connect.v
Lock.v
Store.v
AppLock.v
News.v
Notice.v
PolicyModel.v
PolicyEval.v
PolicyText.v
PolicyBranches.v
Paths.v
Descriptors.v
Targets.v
Confirm.v
Status.v
Cipher.v
VaultFile.v
Socks.v
Lines.v
F64.v
TxExtras.v
Signing.v
Endpoints.v
Faults.v
Dial.v
Addresses.v
Exports.v
Decode.v
Preview.v
Certs.v
Attempts.v
Routes.v
ManagerSettings.v
Lookups.v
Sockets.v
Rpc.v
WatchList.v
Syncs.v
Bursts.v
AddressSyncs.v
Engines.v
CryptoOutput.v
Qr.v
Bsms.v
Import.v
Wallets.v
Backup.v
Restores.v
Sending.v
Polls.v
