(* ===== verification/Prelude.v ===== *)
(** * gerfaut-core, verified parts

    gerfaut-core is the Rust library behind the apps of Gerfaut, a Bitcoin
    watch-only wallet. Everything goes through [WalletManager]
    (src/src/manager), which owns an encrypted vault (src/src/store),
    reads the chain (src/src/chain, src/src/watch), keeps what a sync found
    worth saying until an app says it (src/src/live), shows a wallet's
    spending policy (src/src/wallet/policy.rs), and holds the settings, the
    preferences, the app lock and the update check. This library models the
    parts of it that decide something, from the source, as functions on
    explicit states, and proves what those parts promise.

    ** How the code is modelled

    A function of the source is a definition of the same name, over the
    same data: a struct is a [Record] with the source's fields (a prefix
    where two structs share a field's name), an enum an [Inductive] with
    the source's variants, [Result] the type [result] with [let?] for the
    question mark, a [HashMap] or [BTreeMap] a [gmap], a [Vec] a [list]. A
    function that changes its argument in place returns it. Integers are
    [Z], with saturation, wrap-around and widths written out where the
    source relies on them ([sat_add_u64], [wrap_u32], [in_u64]); lengths
    and counts of things in memory are [nat]. Texts are byte strings in
    UTF-8 ([Utf8]); [chars] gives their characters. A clock, a random
    salt, an answer of the network or of the disk is an argument. A loop
    is a fold or a structural [Fixpoint], so every definition terminates; only
    [Socks.duplex], [Lines.read_lines], [Rpc.rounds] (as many turns as
    requests, [Rpc.turns_enough]) and [Import.classify], which a theorem
    runs to their end, count their steps: the texts inside texts of
    [Import.classify] are one deep ([Import.DEEPEST]), and
    [Import.classify_settles] shows that more changes nothing.

    Code that is not the repository's own is a parameter: Argon2id in
    [Lock] and [AppLock], Argon2id and XChaCha20-Poly1305 in [Cipher] (the
    class [Aead]), JSON in [Store] and [VaultFile] (the class [Json]), the
    transaction decoder in [Store], the wallet engine's change sets (the
    type [W] of the vault payload), miniscript's keys in [PolicyModel] (the
    class [DescriptorKey]), the hashes, targets and decoder of the bitcoin
    crate in [Confirm] (the class [Bitcoin]), SHA-256 in [Status], base 58,
    the BIP 32 payload and the descriptor checksum in [Xpub] (the class
    [Keys]), the URL parser in [Connect] (the class [Urls]), the script of
    a text and its script hash in [WatchList], what the bitcoin crate and
    miniscript compute of transactions, scripts and PSBTs in [TxExtras],
    [Signing] and [Decode] (the classes [Transactions], [Scripts],
    [Psbts]); in [Faults], [Lookups], [Syncs], [AddressSyncs] and [Sending]
    the scripts of an address, the text of a txid and the words of a JSON
    error, the answers of each server asked, the state of Tor, whether the
    vault could be saved, and the wallet engine, a record of what it
    answers ([Sending.Engine]); miniscript's descriptors in [Descriptors]
    (the class [Miniscript]), BDK's wallet and the addresses of the bitcoin
    crate in [Engines] (the class [Bdk]), the points of the curve in
    [CryptoOutput] (the class [Points]), the decoders of CBOR, base 32,
    base 64 and deflate and the fountain of a UR in [Qr] (the class
    [Envelopes]), the parser of serde_json in [Import] (the class
    [SerdeJson]), rustls, webpki and the reader of certificates in [Certs]
    (the class [Tls]), when an attempt to connect ends and how in
    [Attempts], the probe and the embedded client in [Routes], what a
    socket's steps come to in [Sockets], the JSON of a request and of an
    answer in [Rpc] (the class [RpcJson]), and the
    JSON, the compression, the base 64 and the frames of a backup in
    [Backup] (the class [Packing]). What a theorem relies on is
    a named hypothesis or a class of laws ([Argon2id_output], [AeadLaws],
    [JsonLaws], [BitcoinLaws], [KeysLaws], [UrlLaws], [PsbtLaws],
    [EngineLaws], [MiniscriptLaws], [EnvelopesLaws], [TlsLaws],
    [PackingLaws], [collision_free], [genuine]), with a witness at a concrete instance. A random draw of
    a floating-point number is an integer of 2^53 parts ([Bursts.drawn]),
    and a duration a number of nanoseconds.
    What the system does (files, power losses) is a model of its own, the
    [Disk] of [VaultFile], with what each call answers as an argument.

    ** The files

    - [Prelude]: results, widths, vectors ([retain], [sort_by],
      [dedup_by_key], [keep_last]), total orders, the tactics and the hint
      database [gerfaut].
    - [Utf8], [Text]: characters and bytes; decimal numerals, splitting,
      joining, case.
    - [Dates], [Format]: src/src/format.rs.
    - [Errors]: src/src/error.rs.
    - [Price]: src/src/price.rs, the table, the cache and the charts.
    - [Prefs]: src/src/prefs.rs.
    - [Updates], [UpdateChecks]: src/src/updates.rs and
      src/src/manager/updates.rs; every hold of the manager's lock is a
      step, and runs interleave any of them.
    - [Network]: src/src/network.rs.
    - [Lock], [AppLock]: src/src/lock.rs and src/src/manager/app_lock.rs;
      each hold of the vault's or the attempts' lock is a function.
    - [Store]: src/src/store/mod.rs, the payload and the reading of a
      vault; the manager's [commit].
    - [Cipher]: src/src/store/cipher.rs, the envelope and its profiles.
    - [VaultFile]: src/src/store/mod.rs, [save] and [open_or_create] on a
      disk: each call leaves the states it goes through, where a power
      loss may cut it.
    - [News]: src/src/live/news.rs, on the payload of [Store].
    - [Notice]: src/src/live/notice.rs, on what [News] hands over.
    - [PolicyModel], [PolicyEval], [PolicyText], [PolicyBranches]:
      src/src/wallet/policy.rs: the reading of a policy, its locks against
      the chain, its words, its branches and snapshot.

    - [Targets], [Confirm]: src/src/chain/proof/targets.rs, whole, and
      src/src/chain/proof.rs; what the process keeps for a session is an
      argument and a result.
    - [Status]: src/src/chain/electrum/status.rs.
    - [Socks]: src/src/chain/tor/socks.rs, the proxy of the embedded Tor,
      and its client in src/src/chain/net.rs; each a program that reads,
      writes and connects, run against any bytes, or against the other
      ([duplex], whose fuel the theorem gives).
    - [Lines]: the line reader of src/src/chain/net.rs.
    - [Xpub]: src/src/input/xpub.rs, and the refusal of private material
      of src/src/input/mod.rs.
    - [Connect]: src/src/chain/connect.rs, the hosts of
      src/src/chain/mod.rs, and the address an Electrum connection opens
      (src/src/chain/electrum.rs).
    - [Endpoints]: src/src/chain/public.rs, the endpoints of a backend and
      the amounts a server may claim (src/src/chain/mod.rs), the servers
      of a watch (src/src/watch/mod.rs).
    - [F64]: the floating-point numbers of the language, on the Standard
      Library's [SpecFloat]: what the source computes with them, rounding
      included.
    - [TxExtras]: src/src/wallet/tx_extras.rs, and a transaction.
    - [Signing]: src/src/broadcast/signing.rs, the weight the missing
      signatures of a transaction will add.
    - [Decode], [Preview]: src/src/broadcast.rs, the reading of a
      transaction and the preview of what it does.
    - [Faults]: src/src/chain/fault.rs, and what src/src/chain/mod.rs makes
      of a server's words: a refusal of the node told from a failure of the
      line, the text a screen may show.
    - [Lookups]: src/src/chain/mod.rs, electrum.rs and esplora.rs, what one
      server is asked about a transaction to send: its coins, what spends
      them, the tip, the broadcast, the standing over Electrum.
    - [Addresses]: src/src/wallet/mod.rs, snapshot.rs and views.rs, the
      state of a watched address, what a sync of it moved, the older
      rounds kept.
    - [Syncs]: src/src/wallet/meta.rs and src/src/manager/sync.rs, how far
      a sync reads, the turns callers share, the servers asked and in which
      order, what a sync fails with. [AddressSyncs]: the sync of one
      watched address, and src/src/manager/sync/foretold.rs, over the
      payload of [Store].
    - [Sending]: src/src/manager/broadcast.rs, every call: it asks [Lookups]
      of the servers of [Endpoints], and gives [Preview] the facts.
    - [WatchList], [Bursts]: src/src/watch/mod.rs, the list a watch makes
      of the wallets and what of it is heard; the bursts and the queue of
      the events, as steps of a watch in time.
    - [Polls]: src/src/watch/poll.rs, the pace and the scripts of the
      rounds.
    - [Paths], [Descriptors], [Import]: src/src/input/mod.rs: the paths of
      a lone key, the descriptors and the pairs they make, the classifier
      of whatever text is handed in. [Bsms]: src/src/input/bsms.rs.
    - [CryptoOutput], [Qr]: src/src/input/qr.rs, the script in the CBOR of
      a UR; the frames, the scans, and the scans an app holds.
    - [Engines]: the helpers of src/src/manager/mod.rs, what a stored
      wallet is made of and the engines in memory. [Wallets]:
      src/src/manager/wallets.rs, the wallets added, named, ordered and
      removed, on the payload of [Store].
    - [Certs]: src/src/chain/tls.rs, the verifier of a server's certificate
      and what a refusal says. [Routes], [Attempts]: src/src/chain/tor.rs
      and src/src/chain/tor/attempts.rs, the Tor an onion is reached
      through, and the two attempts of a connection to it. [Dial]:
      src/src/chain/dial.rs, the race between the addresses of a host, turn
      by turn, on what its attempts answer and when. [Sockets]: the opening
      of a socket in src/src/chain/net.rs, over [Certs] and [Routes], on
      what the proxy, the race and the handshake come to. [Rpc]:
      src/src/chain/electrum/rpc.rs, the requests of a batch and the lines
      heard in answer, on what the connection reads and takes.
    - [Exports]: src/src/export.rs, the table of a wallet's transactions.
    - [ManagerSettings]: src/src/manager/settings.rs, on the settings of
      [Store], with the certificates of [Certs] and the routes of [Routes].
    - [Backup], [Restores]: src/src/backup.rs, the sealed backup and its
      text, over [Cipher]; src/src/manager/backup.rs, what is put in one,
      the plan of a restore, the preview that shows it and the restore that
      carries it out, over [Wallets] and [ManagerSettings].

    ** What the theorems show

    - News: a run of syncs and claims says each arrival, confirmation and
      drop of a payment once, in order; a drop is said only of a payment
      announced, kept aside since it was first missed, and looked for again
      ten minutes or more after, or replaced by one that pays much less. Lemmas: a claim hands over what waits and loses nothing, a
      fee bump is not said, the lists stay bounded.
    - Notifications: a title never carries an invisible or control
      character; masked balances and hidden details leave no trace in the
      text; what a batch holds is said or counted; a budget caps what is
      posted, a kind never silences the other.
    - Policy: the branches spend as the policy does, in the order of their
      roles, under labels of their own; the estimate of a branch is the
      policy's own threshold logic at every deadline; the state of a
      branch is the one its keys, locks and coins give; a lock is marked
      as holding a branch back exactly when the branch can turn on it.
    - App lock: only the secret changes a lock, a wrong one is slowed down
      whatever the restarts, a stored secret verifies exactly as the hash
      says.
    - Updates: versions are read exactly as Semantic Versioning writes
      them and totally ordered; one request a day however things
      interleave, none while the check is off; a closed notice stays
      closed.
    - Vault: a vault of any earlier build comes out current, one of a
      later build is refused, and what was retired is gone after one
      write.
    - Vault file: whatever fails and whenever power is lost, the vault is
      there and opens whole, as the last payload saved or the one being
      saved; nothing opens under a key but a file sealed with it, byte for
      byte; what is sealed opens.
    - Sending: where a preview marks no amount as declared and no coin as
      unknown, what it shows of an input is an output of a transaction of
      its id that the PSBT carries, that a wallet of the network holds, or
      that a server it may ask handed over; it is held back on a spend only
      when one of them shows it in a block; a transaction
      is said sent when a server took it, is given to no other after, and
      is then the first of the recent ones; the standing told over Electrum
      is proven to its height.
    - Syncs: a wallet is synced on servers its backend names, one after the
      other, those that failed lately last; a server is put last for its
      outages only; a confirmation foretold is written on the proof of it
      only, and confirms what waited and changes nothing else; the state of every watched address stays sound whatever syncs,
      older rounds and foretold blocks it goes through; the older rounds
      kept lose nothing loaded.
    - Confirmations: a proof that holds means the transaction is in the
      block of that header, or a hash collides; an honest server's branch
      holds; a block chained to its checkpoint is the real one; a
      reorganisation is taken on work alone; a history is set aside only
      when no order of it gives the status its own server announced.
    - Connections: the proxy on loopback connects nobody without its
      credentials and tells them nothing but that; our client and it agree
      on the host, the port and the outcome; the line reader gives the
      lines sent, whatever chunks they came in, within its bound; a race
      between addresses ends, tries each once at most, in the order of the
      two families in turn, and never has more attempts under way than its
      bounds. Lemmas: the name of an onion goes to the proxy alone, and a
      socket is handed out under the TLS asked for; a batch of requests is
      handed each its own answer, once, whatever the order, and asks, hears
      and reads within its bounds.
    - Keys and addresses: an extended private key is refused in every
      encoding and wherever it stands, a key in another spelling is the
      same key, a descriptor brought to the standard spelling stays as it
      is; an address stored is read back as itself, and names one host to
      the check for onions, to the connection and to the certificates, but
      of a name typed with two dots or more after it
      ([Connect.dots_read_apart]);
      words of a seed in the field of an address go nowhere.
    - Servers: a watch talks to no server the backend does not name; what
      is sent goes to each server once, the watch's own first; an update
      is taken exactly when its amounts can be real.
    - Transactions to send: what is read of any bytes spends something,
      no coin twice; a PSBT is refused exactly when it contradicts itself
      on a coin; the value shown of an input is that of the coin it really
      spends, whatever else is said; it is held back exactly when the
      network is sure to refuse it; the fee and the cautions on it are
      exact, to the rounding of a double.
    - Watch: the list is the first occurrences of the scripts in the
      order of the wallets' ranks, fair between wallets; what is said of a
      wallet's coverage is so; no mark is lost, each is said in time, two
      reports of a wallet are apart, and a flush leaves nothing due; every
      script has its turn, whatever the sessions; the pace stays within
      its bounds.
    - Import: whatever text is read, nothing it goes through carries
      private material, and the wallet it makes can be watched on the
      networks offered; a pair of descriptors is one wallet, spent under
      the same conditions; a record is offered on the networks of its first
      address alone; a branch is read exactly as the numbers it spells; a
      text inside a text is as deep as they go.
    - QR codes: the frames of a code are put together in any order, with
      others among them; a scan holds no more than its bounds whatever is
      shown to it; the script written out of a code is its tags around its
      public keys, with the branches each key names, and those assumed are
      said.
    - Wallets: whatever is asked of them, no two wallets of the vault are
      one, each can be watched, and no engine outlives its wallet; an order
      asked for moves only the wallets it names; a wallet removed leaves
      nothing.
    - Settings: whatever is asked of them, they stay in the form a scan
      reads and within their bounds; a backend is kept with the certificate
      of its own server or not at all; what names an onion goes through Tor
      or fails. A certificate carries a connection exactly when an
      authority vouches for it or its fingerprint was accepted, and the
      handshake is signed with its key.
    - Backups: what is sealed comes back, under the password and whatever
      blanks surround it; what a preview promises is what a restore does; a
      restore is whole or nothing, and leaves the vault sound, the pins it
      had and the lock untouched; it pins a host exactly when the settings
      reach it, the backup agrees with itself, and the vault says nothing.
    - Exports: a table is read back as the transactions it was made of,
      those the options keep, the oldest first.
    - Preferences, prices, errors, amounts, dates: the pair of currency
      and source always exists; a chart is well formed; codes are
      distinct; amounts are exact; the calendar is the Gregorian one.

    These state where the code departs from a comment of its own:
    [Lock.unhex_takes_plus], [Lock.stored_may_round_down],
    [AppLock.late_set_replaces], [Notice.many_drops_silenced],
    [Status.one_waiting_first], [VaultFile.tmp_vault_stale],
    [Addresses.missed_rounds], [Syncs.checked_taken_for_moved],
    [Connect.dots_read_apart].

    ** What is not modelled

    The bytes of a connection, the configuration of TLS, the embedded Tor
    and HTTP (the rest of src/src/chain), the sessions
    of the live watch (src/src/watch), the modes and rights of files, the
    file beside the vault that mirrors the attempts, and what BDK and
    miniscript do; a scan whose decoder panicked. Not modelled: the
    pages an Electrum or Esplora client reads in a sync and the standing of
    a transaction over Esplora (a parameter of [Sending]), the sync of a
    wallet with an engine, and the views of its descriptors, from which the
    hypothesis of [News.announced_once] that no sync lists as new a
    transaction whose news still waits would follow. *)
From Stdlib Require Export ZArith Lia Bool ZifyBool ZifyN Sorted.
From stdpp Require Export base list strings gmap sets option numbers.

Declare Scope gerfaut_scope.
Delimit Scope gerfaut_scope with gerfaut.
#[global] Open Scope string_scope.
#[global] Open Scope list_scope.
#[global] Open Scope Z_scope.
#[global] Open Scope gerfaut_scope.

(** ** Results *)

(** Rust's [Result]: the value, or the error. *)
Inductive result (A E : Type) :=
| Ok (a : A)
| Err (e : E).
Arguments Ok {A E} a.
Arguments Err {A E} e.

Definition result_bind {A B E} (r : result A E) (k : A -> result B E) : result B E :=
  match r with Ok a => k a | Err e => Err e end.

(** The question mark of the source: [let? x := r in k]. *)
Notation "'let?' x := r 'in' k" := (result_bind r (fun x => k))
  (at level 10, x pattern, r at level 100, k at level 200) : gerfaut_scope.

Definition is_ok {A E} (r : result A E) : bool :=
  match r with Ok _ => true | Err _ => false end.

(** [collect] over an iterator of results: the first error ends it. *)
Fixpoint collect {A E} (l : list (result A E)) : result (list A) E :=
  match l with
  | [] => Ok []
  | r :: l => let? a := r in let? rest := collect l in Ok (a :: rest)
  end.

(** [collect] over an iterator of options. *)
Fixpoint collect_opt {A} (l : list (option A)) : option (list A) :=
  match l with
  | [] => Some []
  | None :: _ => None
  | Some a :: l => match collect_opt l with Some rest => Some (a :: rest) | None => None end
  end.

(** ** Options *)

Definition unwrap_or {A} (o : option A) (d : A) : A :=
  match o with Some a => a | None => d end.
#[global] Arguments unwrap_or {A} !_ _ /.
Definition is_some {A} (o : option A) : bool := match o with Some _ => true | None => false end.
Definition and_then {A B} (o : option A) (f : A -> option B) : option B :=
  match o with Some a => f a | None => None end.

(** ** Machine integers

    An integer of the source is a [Z] in the range of its type. The
    saturating operations are written out; a plain [+] that could leave
    the range is written with its wrap-around at the place it is used. *)

Definition u8_max : Z := 255.
Definition u32_max : Z := 4294967295.
Definition u64_max : Z := 18446744073709551615.
Definition i64_min : Z := -9223372036854775808.
Definition i64_max : Z := 9223372036854775807.

Definition in_u8 (n : Z) : Prop := 0 <= n <= u8_max.
Definition in_u32 (n : Z) : Prop := 0 <= n <= u32_max.
Definition in_u64 (n : Z) : Prop := 0 <= n <= u64_max.
Definition in_i64 (n : Z) : Prop := i64_min <= n <= i64_max.

Definition sat_add_u32 (a b : Z) : Z := Z.min (a + b) u32_max.
Definition sat_add_u64 (a b : Z) : Z := Z.min (a + b) u64_max.
Definition sat_sub (a b : Z) : Z := Z.max (a - b) 0.
Definition wrap_u64 (a : Z) : Z := a mod 18446744073709551616.
Definition wrap_u32 (a : Z) : Z := a mod 4294967296.

(** Unfolds the ranges and the saturating operations, then decides. *)
Ltac ints :=
  unfold in_u8, in_u32, in_u64, in_i64, sat_add_u32, sat_add_u64, sat_sub,
    u8_max, u32_max, u64_max, i64_min, i64_max in *;
  lia.

(** ** Vectors

    [Vec::retain], [Iterator::any], [all], [find] and [position] take a
    closure: here a boolean function. *)

Definition retain {A} (f : A -> bool) (l : list A) : list A := List.filter f l.
Definition any {A} (f : A -> bool) (l : list A) : bool := existsb f l.
Definition all {A} (f : A -> bool) (l : list A) : bool := forallb f l.

Fixpoint position {A} (f : A -> bool) (l : list A) : option nat :=
  match l with
  | [] => None
  | x :: l => if f x then Some 0%nat else S <$> position f l
  end.

(** [Iterator::find_map]. *)
Fixpoint find_map {A B} (f : A -> option B) (l : list A) : option B :=
  match l with
  | [] => None
  | a :: l => match f a with Some b => Some b | None => find_map f l end
  end.

(** [v.drain(..excess)] after [excess = v.len().saturating_sub(max)]: the
    oldest entries go, the [max] newest stay. *)
Definition keep_last {A} (max : nat) (l : list A) : list A :=
  drop (length l - max) l.

(** [Vec::dedup_by_key]: of consecutive entries of one key, the first
    stays. [prev] is the key last kept. *)
Fixpoint dedup_after {A} (key : A -> Z) (prev : Z) (l : list A) : list A :=
  match l with
  | [] => []
  | y :: l => if key y =? prev then dedup_after key prev l else y :: dedup_after key (key y) l
  end.

Definition dedup_by_key {A} (key : A -> Z) (l : list A) : list A :=
  match l with [] => [] | x :: l => x :: dedup_after key (key x) l end.

(** [sort_by], [sort_by_key]: stable, so an insertion that places an
    entry before the ones of its own rank already placed, the entries
    taken from the last to the first. *)
Fixpoint insert_by {A} (leb : A -> A -> bool) (x : A) (l : list A) : list A :=
  match l with
  | [] => [x]
  | y :: l' => if leb x y then x :: l else y :: insert_by leb x l'
  end.

Definition sort_by {A} (leb : A -> A -> bool) (l : list A) : list A :=
  foldr (insert_by leb) [] l.

Lemma retain_In {A} (f : A -> bool) l x : In x (retain f l) <-> In x l /\ f x = true.
Proof. apply List.filter_In. Qed.

Lemma retain_app {A} (f : A -> bool) l1 l2 : retain f (l1 ++ l2) = retain f l1 ++ retain f l2.
Proof. apply List.filter_app. Qed.

Lemma retain_either {A} (f : A -> bool) l : l ≡ₚ retain f l ++ retain (fun x => negb (f x)) l.
Proof.
  induction l as [|x l IH]; [done|]. unfold retain in *. cbn [List.filter]. destruct (f x); cbn [negb app]; [by rewrite <- IH|].
  rewrite <- Permutation_middle. by rewrite <- IH.
Qed.

Lemma retain_sublist {A} (f : A -> bool) l : sublist (retain f l) l.
Proof. induction l as [|x l IH]; simpl; [done|]. destruct (f x); by constructor. Qed.

Lemma retain_length {A} (f : A -> bool) l : (length (retain f l) <= length l)%nat.
Proof. apply sublist_length, retain_sublist. Qed.

Lemma retain_all {A} (f : A -> bool) l : (forall x, In x l -> f x = true) -> retain f l = l.
Proof.
  induction l as [|x l IH]; simpl; [done|]. intros H.
  rewrite (H x) by auto. f_equal. apply IH. auto.
Qed.

Lemma retain_retain {A} (f g : A -> bool) l : retain f (retain g l) = retain (fun x => g x && f x) l.
Proof.
  induction l as [|x l IH]; [done|]. unfold retain in *; simpl.
  destruct (g x); simpl; [destruct (f x)|]; by rewrite ?IH.
Qed.

Lemma any_true {A} (f : A -> bool) l : any f l = true <-> exists x, In x l /\ f x = true.
Proof. apply existsb_exists. Qed.

Lemma any_false {A} (f : A -> bool) l : any f l = false <-> forall x, In x l -> f x = false.
Proof.
  rewrite <- not_true_iff_false, any_true. split.
  - intros H x Hx. apply not_true_iff_false. intros Hf. apply H. by exists x.
  - intros H (x & Hx & Hf). by rewrite (H x Hx) in Hf.
Qed.

Lemma all_true {A} (f : A -> bool) l : all f l = true <-> forall x, In x l -> f x = true.
Proof. apply forallb_forall. Qed.

Lemma any_app {A} (f : A -> bool) l1 l2 : any f (l1 ++ l2) = any f l1 || any f l2.
Proof. apply existsb_app. Qed.

Lemma any_concat {A} (f : A -> bool) ls : any f (List.concat ls) = any (any f) ls.
Proof. induction ls as [|l ls IH]; [done|]. cbn [List.concat]. rewrite any_app, IH. done. Qed.

Lemma any_map {A B} (f : B -> bool) (g : A -> B) l : any f (List.map g l) = any (fun x => f (g x)) l.
Proof. unfold any. induction l as [|x l IH]; [done|]. simpl. by rewrite IH. Qed.

Lemma any_ext_in {A} (f g : A -> bool) l : (forall x, In x l -> f x = g x) -> any f l = any g l.
Proof.
  unfold any. intros H. induction l as [|x l IH]; [done|]. simpl. rewrite (H x), IH; [done|..]; simpl; auto.
  intros y Hy. apply H. by right.
Qed.

Lemma all_map {A B} (f : B -> bool) (g : A -> B) l : all f (List.map g l) = all (fun x => f (g x)) l.
Proof. induction l as [|x l IH]; simpl; [done|]. by rewrite IH. Qed.

Lemma all_app {A} (f : A -> bool) l k : all f (l ++ k) = all f l && all f k.
Proof. induction l as [|x l IH]; simpl; [done|]. by rewrite IH, andb_assoc. Qed.

Lemma find_None {A} (f : A -> bool) l : List.find f l = None <-> any f l = false.
Proof.
  rewrite any_false. split; [apply List.find_none|].
  induction l as [|x l IH]; simpl; [done|]. intros H. rewrite (H x) by auto. auto.
Qed.

Lemma keep_last_length {A} max (l : list A) : (length (keep_last max l) <= max)%nat.
Proof. unfold keep_last. rewrite length_drop. lia. Qed.

Lemma keep_last_small {A} max (l : list A) : (length l <= max)%nat -> keep_last max l = l.
Proof. intros H. unfold keep_last. replace (length l - max)%nat with 0%nat by lia. done. Qed.

Lemma keep_last_suffix {A} max (l : list A) : keep_last max l `suffix_of` l.
Proof. exists (take (length l - max) l). unfold keep_last. by rewrite take_drop. Qed.

Lemma keep_last_In {A} max (l : list A) x : In x (keep_last max l) -> In x l.
Proof.
  destruct (keep_last_suffix max l) as [k Hk]. intros H. rewrite Hk.
  apply in_or_app. by right.
Qed.

Lemma keep_last_sublist {A} max (l : list A) : sublist (keep_last max l) l.
Proof. unfold keep_last. apply sublist_drop. Qed.

(** ** Sorting *)

Section Sorting.
Context {A : Type} (leb : A -> A -> bool).

Lemma insert_by_perm x l : insert_by leb x l ≡ₚ x :: l.
Proof.
  induction l as [|y l IH]; simpl; [done|].
  destruct (leb x y); [done|]. rewrite IH. apply Permutation_swap.
Qed.

Lemma sort_by_perm l : sort_by leb l ≡ₚ l.
Proof. induction l as [|x l IH]; simpl; [done|]. by rewrite insert_by_perm, IH. Qed.

Lemma sort_by_length l : length (sort_by leb l) = length l.
Proof. by rewrite sort_by_perm. Qed.

Lemma sort_by_In x l : In x (sort_by leb l) <-> In x l.
Proof. rewrite <- !list_elem_of_In. by rewrite sort_by_perm. Qed.

Context (total : forall x y, leb x y = true \/ leb y x = true).
Context (trans : forall x y z, leb x y = true -> leb y z = true -> leb x z = true).

Lemma insert_by_sorted x l :
  StronglySorted (fun a b => leb a b = true) l ->
  StronglySorted (fun a b => leb a b = true) (insert_by leb x l).
Proof.
  induction 1 as [|y l Hs IH Hy]; simpl; [by repeat constructor|].
  destruct (leb x y) eqn:E.
  - constructor; [by constructor|]. constructor; [done|].
    eapply Forall_impl; [|exact Hy]. simpl. eauto.
  - constructor; [done|]. rewrite insert_by_perm. constructor; [|done].
    destruct (total x y); congruence.
Qed.

Lemma sort_by_sorted l : StronglySorted (fun a b => leb a b = true) (sort_by leb l).
Proof. induction l; simpl; [constructor | by apply insert_by_sorted]. Qed.

(** Stability: entries that tie stay in the order they came in. *)
Lemma insert_by_tie (p : A -> bool) x l :
  (forall y, p x = true -> p y = true -> leb x y = true) ->
  retain p (insert_by leb x l) = retain p (x :: l).
Proof.
  intros Htie. induction l as [|y l IH]; simpl; [done|].
  destruct (leb x y) eqn:E; [done|]. unfold retain in *. simpl in *. rewrite IH.
  destruct (p x) eqn:Hx, (p y) eqn:Hy; try done.
  rewrite (Htie y) in E; done.
Qed.

Lemma sort_by_stable (p : A -> bool) l :
  (forall x y, p x = true -> p y = true -> leb x y = true) ->
  retain p (sort_by leb l) = retain p l.
Proof.
  intros Htie. induction l as [|x l IH]; simpl; [done|].
  rewrite insert_by_tie by eauto. unfold retain in *. simpl. by rewrite IH.
Qed.
End Sorting.

(** ** Total orders

    What an [Ord] of Rust promises of its [cmp]: the classes and the
    instances by which the orders of the components are built. *)

Class CmpOrder {A} (cmp : A -> A -> comparison) := {
  cmp_eq : forall a b, cmp a b = Eq <-> a = b;
  cmp_opp : forall a b, cmp b a = CompOpp (cmp a b);
  cmp_trans : forall a b c, cmp a b = Lt -> cmp b c = Lt -> cmp a c = Lt;
}.

Lemma cmp_refl {A} (cmp : A -> A -> comparison) `{!CmpOrder cmp} a : cmp a a = Eq.
Proof. by apply cmp_eq. Qed.

#[export] Instance Z_compare_order : CmpOrder Z.compare.
Proof.
  split.
  - apply Z.compare_eq_iff.
  - intros a b. apply Z.compare_antisym.
  - intros a b c. rewrite !Z.compare_lt_iff. lia.
Qed.

#[export] Instance N_compare_order : CmpOrder N.compare.
Proof.
  split.
  - apply N.compare_eq_iff.
  - intros a b. apply N.compare_antisym.
  - intros a b c. rewrite !N.compare_lt_iff. lia.
Qed.

(** The order of a sequence: entry by entry, a prefix first. *)
Fixpoint list_cmp {A} (cmp : A -> A -> comparison) (a b : list A) : comparison :=
  match a, b with
  | [], [] => Eq
  | [], _ => Lt
  | _, [] => Gt
  | x :: a, y :: b => match cmp x y with Eq => list_cmp cmp a b | c => c end
  end.

#[export] Instance list_cmp_order {A} (cmp : A -> A -> comparison) `{!CmpOrder cmp} :
  CmpOrder (list_cmp cmp).
Proof.
  split.
  - induction a as [|x a IH]; intros [|y b]; simpl; try done.
    destruct (cmp x y) eqn:E; [apply cmp_eq in E as ->; rewrite IH; split; congruence|..];
      (split; [done|]); intros [= -> ->]; rewrite cmp_refl in E by done; done.
  - induction a as [|x a IH]; intros [|y b]; simpl; try done.
    rewrite (cmp_opp (cmp := cmp) x y). destruct (cmp x y); simpl; auto.
  - induction a as [|x a IH]; intros [|y b] [|z c]; simpl; try done.
    destruct (cmp x y) eqn:E1; [apply cmp_eq in E1 as ->| |done].
    + destruct (cmp y z); eauto.
    + destruct (cmp y z) eqn:E2; [apply cmp_eq in E2 as <-; by rewrite E1| |done].
      by rewrite (cmp_trans x y z E1 E2).
Qed.

Definition then_with (c d : comparison) : comparison := match c with Eq => d | c => c end.

(** [cmp_by f then cmp_by g], the two fields naming the value. *)
Definition pair_cmp {A B} (cmpA : A -> A -> comparison) (cmpB : B -> B -> comparison)
  (p q : A * B) : comparison := then_with (cmpA p.1 q.1) (cmpB p.2 q.2).

#[export] Instance pair_cmp_order {A B} (cmpA : A -> A -> comparison) (cmpB : B -> B -> comparison)
  `{!CmpOrder cmpA, !CmpOrder cmpB} : CmpOrder (pair_cmp cmpA cmpB).
Proof.
  unfold pair_cmp, then_with. split.
  - intros [a b] [a' b']; simpl. destruct (cmpA a a') eqn:E;
      [apply cmp_eq in E as ->; rewrite (cmp_eq (cmp := cmpB)); split; congruence|..];
      (split; [done|]); intros [= -> ->]; rewrite cmp_refl in E by done; done.
  - intros [a b] [a' b']; simpl. rewrite (cmp_opp (cmp := cmpA) a a'), (cmp_opp (cmp := cmpB) b b'). by destruct (cmpA a a').
  - intros [a b] [a' b'] [a'' b'']; simpl.
    destruct (cmpA a a') eqn:E1; [apply cmp_eq in E1 as ->| |done].
    + destruct (cmpA a' a''); eauto using cmp_trans.
    + destruct (cmpA a' a'') eqn:E2; [apply cmp_eq in E2 as <-; by rewrite E1| |done].
      by rewrite (cmp_trans a a' a'' E1 E2).
Qed.

(** An order seen through an injection. *)
Lemma cmp_order_via {A B} (f : A -> B) (cmp : B -> B -> comparison) `{!CmpOrder cmp}
  (cmpA : A -> A -> comparison) :
  (forall a b, cmpA a b = cmp (f a) (f b)) -> (forall a b, f a = f b -> a = b) -> CmpOrder cmpA.
Proof.
  intros Hcmp Hinj. split; intros; rewrite ?Hcmp in *.
  - rewrite cmp_eq. split; [apply Hinj|congruence].
  - apply cmp_opp.
  - by eapply cmp_trans.
Qed.

(** ** The development's hints and tactics *)

Create HintDb gerfaut.
#[export] Hint Resolve keep_last_length retain_length sort_by_perm sort_by_length : gerfaut.
#[export] Hint Rewrite @retain_In @any_true @all_true @sort_by_In : gerfaut.

(** Case analysis on every boolean test of the goal, closed where [lia]
    or congruence can. *)
Ltac split_ifs :=
  repeat match goal with
  | |- context [if ?b then _ else _] => let E := fresh "E" in destruct b eqn:E
  end.

Ltac inj H := injection H as H; subst.

(** ** Lists side by side *)

Lemma list_map_lookup {A B} (f : A -> B) l i : List.map f l !! i = option_map f (l !! i).
Proof. revert i. induction l as [|x l IH]; intros [|i]; simpl; auto. Qed.

Lemma combine_lookup {A B} (l : list A) : forall (k : list B) i x y,
  List.combine l k !! i = Some (x, y) <-> l !! i = Some x /\ k !! i = Some y.
Proof.
  induction l as [|a l IH]; intros [|b k] [|i] x y; cbn; try naive_solver.
Qed.

(** ** Sorted lists *)

Lemma sublist_In {A} (l1 l2 : list A) x : sublist l1 l2 -> In x l1 -> In x l2.
Proof.
  induction 1 as [|y l1 l2 Hs IH|y l1 l2 Hs IH]; simpl; [done|intros [->|Hx]; auto|auto].
Qed.

Lemma mono_seq_sorted (f : nat -> nat) start n :
  (forall i, (f i < f (S i))%nat) -> StronglySorted lt (List.map f (seq start n)).
Proof.
  intros Hf. assert (Hlt : forall i j, (i < j)%nat -> (f i < f j)%nat).
  { intros i j Hij. induction Hij as [|j Hij IH]; [auto|]. specialize (Hf j). lia. }
  revert start. induction n as [|n IH]; intros start; simpl; constructor; [done|].
  apply List.Forall_forall. intros y (j & <- & Hj)%in_map_iff. apply in_seq in Hj.
  apply Hlt. lia.
Qed.

Lemma StronglySorted_snoc {A} (R : A -> A -> Prop) l x :
  StronglySorted R l -> (forall y, In y l -> R y x) -> StronglySorted R (l ++ [x]).
Proof.
  induction 1 as [|y l Hl IH Hy]; simpl; intros Hx; [by repeat constructor|].
  constructor; [auto|]. apply List.Forall_forall. intros z [Hz|[<-|[]]]%in_app_or.
  - rewrite List.Forall_forall in Hy. auto.
  - auto.
Qed.

Lemma StronglySorted_sublist {A} (R : A -> A -> Prop) l1 l2 :
  sublist l1 l2 -> StronglySorted R l2 -> StronglySorted R l1.
Proof.
  induction 1 as [|x l1 l2 Hs IH|x l1 l2 Hs IH]; intros Hl; [done|..];
    apply StronglySorted_inv in Hl as [Hl Hx]; [|by apply IH].
  constructor; [by apply IH|]. apply List.Forall_forall. intros y Hy.
  rewrite List.Forall_forall in Hx. apply Hx. by eapply sublist_In.
Qed.

(** The entries at increasing positions, in order, are a sublist. *)
Lemma nth_sublist {A} (d : A) l (idx : list nat) :
  StronglySorted lt idx -> (forall i, In i idx -> (i < length l)%nat) ->
  sublist (List.map (fun i => nth i l d) idx) l.
Proof.
  revert idx. induction l as [|x l IH]; intros idx Hs Hb.
  { destruct idx as [|i idx]; [done|]. specialize (Hb i (or_introl eq_refl)). simpl in Hb. lia. }
  assert (Hshift : forall js, StronglySorted lt js -> (forall j, In j js -> (0 < j < S (length l))%nat) ->
    sublist (List.map (fun i => nth i (x :: l) d) js) l).
  { intros js Hj Hjb. specialize (IH (List.map Nat.pred js)).
    rewrite List.map_map in IH.
    erewrite List.map_ext_in; [apply IH|].
    - clear - Hj Hjb. induction Hj as [|j js Hj IHj Hall]; simpl; constructor.
      + apply IHj. intros k Hk. apply Hjb. by right.
      + apply List.Forall_forall. intros k Hk. apply in_map_iff in Hk as (m & <- & Hm).
        rewrite List.Forall_forall in Hall. specialize (Hall m Hm).
        pose proof (Hjb j (or_introl eq_refl)). lia.
    - intros i Hi. apply in_map_iff in Hi as (m & <- & Hm). specialize (Hjb m Hm). lia.
    - intros j Hj'. specialize (Hjb j Hj'). destruct j; [lia|done]. }
  destruct Hs as [|i idx Hs Hall]; [apply sublist_nil_l|].
  rewrite List.Forall_forall in Hall. destruct i as [|i]; simpl.
  - constructor. apply Hshift; [done|]. intros j Hj. specialize (Hall j Hj).
    specialize (Hb j (or_intror Hj)). simpl in Hb. lia.
  - constructor. apply (Hshift (S i :: idx)).
    + constructor; [done|]. by apply List.Forall_forall.
    + intros j Hj. specialize (Hb j Hj). simpl in Hb. split; [|done].
      destruct Hj as [<-|Hj]; [lia|]. specialize (Hall j Hj). lia.
Qed.

(** Sorted with one entry per key is strictly sorted. *)
Lemma dedup_after_sorted {A} (key : A -> Z) prev l :
  StronglySorted (fun a b => key a <= key b) l -> (forall x, In x l -> prev <= key x) ->
  StronglySorted (fun a b => key a < key b) (dedup_after key prev l)
  /\ forall x, In x (dedup_after key prev l) -> In x l /\ prev < key x.
Proof.
  revert prev. induction l as [|y l IH]; intros prev Hs Hp; simpl; [split; [constructor|done]|].
  apply StronglySorted_inv in Hs as [Hs Hy]. rewrite List.Forall_forall in Hy.
  destruct (Z.eqb_spec (key y) prev) as [E|E].
  - destruct (IH prev Hs) as [H1 H2]; [intros x Hx; apply Hp; by right|].
    split; [done|]. intros x Hx. destruct (H2 x Hx). auto.
  - assert (prev < key y) by (specialize (Hp y (or_introl eq_refl)); lia).
    destruct (IH (key y) Hs Hy) as [H1 H2]. split.
    + constructor; [done|]. apply List.Forall_forall. intros x Hx. by apply H2.
    + intros x [<-|Hx]; [auto|]. destruct (H2 x Hx) as [? ?]. split; [by right|lia].
Qed.

Lemma dedup_by_key_sorted {A} (key : A -> Z) l :
  StronglySorted (fun a b => key a <= key b) l ->
  StronglySorted (fun a b => key a < key b) (dedup_by_key key l)
  /\ forall x, In x (dedup_by_key key l) -> In x l.
Proof.
  destruct l as [|x l]; simpl; [split; [constructor|done]|]. intros Hs.
  apply StronglySorted_inv in Hs as [Hs Hx]. rewrite List.Forall_forall in Hx.
  destruct (dedup_after_sorted key (key x) l Hs Hx) as [H1 H2]. split.
  - constructor; [done|]. apply List.Forall_forall. intros y Hy. by apply H2.
  - intros y [<-|Hy]; [by left|right]. by apply H2.
Qed.
