(* ===== verification/Utf8.v ===== *)
(** UTF-8: the bytes a Rust [String] holds and the characters
    [str::chars] reads from them. *)
From S2P Require Import Prelude.
From Stdlib Require Import Ascii.
#[global] Arguments String.append !_ _ / : simpl nomatch.

Abbreviation code_point := N.

Definition byte_of (a : ascii) : N := N_of_ascii a.

(** A Unicode scalar value: what a [char] of Rust can be. *)
Definition is_char (c : code_point) : bool :=
  ((c <? 55296) || ((57344 <=? c) && (c <? 1114112)))%N.

Definition cont (n : N) : ascii := ascii_of_N (128 + n mod 64).

Definition encode_char (c : code_point) (rest : string) : string :=
  (if c <? 128 then String (ascii_of_N c) rest
   else if c <? 2048 then String (ascii_of_N (192 + c / 64)) (String (cont c) rest)
   else if c <? 65536 then
     String (ascii_of_N (224 + c / 4096)) (String (cont (c / 64)) (String (cont c) rest))
   else
     String (ascii_of_N (240 + c / 262144))
       (String (cont (c / 4096)) (String (cont (c / 64)) (String (cont c) rest))))%N.

Definition of_chars (l : list code_point) : string := foldr encode_char "" l.

(** [str::chars]: the leading byte gives the length, the following ones
    six bits each. A [str] is valid UTF-8, so a sequence cut short never
    happens; the replacement character stands there. *)
Fixpoint chars (s : string) : list code_point :=
  match s with
  | "" => []
  | String a s1 =>
    let b := byte_of a in
    (if b <? 128 then b :: chars s1
     else if b <? 224 then
       match s1 with
       | String a1 s2 => ((b mod 32) * 64 + byte_of a1 mod 64) :: chars s2
       | _ => [65533]
       end
     else if b <? 240 then
       match s1 with
       | String a1 (String a2 s3) =>
         ((b mod 16) * 4096 + (byte_of a1 mod 64) * 64 + byte_of a2 mod 64) :: chars s3
       | _ => [65533]
       end
     else
       match s1 with
       | String a1 (String a2 (String a3 s4)) =>
         ((b mod 8) * 262144 + (byte_of a1 mod 64) * 4096 + (byte_of a2 mod 64) * 64
            + byte_of a3 mod 64) :: chars s4
       | _ => [65533]
       end)%N
  end.

(** A text a [String] can hold. *)
Definition valid_utf8 (s : string) : Prop :=
  exists l, Forall (fun c => is_char c = true) l /\ s = of_chars l.

Lemma byte_of_ascii_of_N n : (n < 256)%N -> byte_of (ascii_of_N n) = n.
Proof. apply N_ascii_embedding. Qed.

Lemma byte_of_cont n : byte_of (cont n) = (128 + n mod 64)%N.
Proof. apply byte_of_ascii_of_N. pose proof (N.mod_lt n 64). lia. Qed.

Lemma cont_low n : ((128 + n mod 64) mod 64 = n mod 64)%N.
Proof. Z.div_mod_to_equations. lia. Qed.

Lemma chars_encode_char c rest :
  is_char c = true -> chars (encode_char c rest) = c :: chars rest.
Proof.
  unfold is_char. intros Hc. unfold encode_char.
  repeat case_match; cbn [chars]; rewrite ?byte_of_cont, ?cont_low, ?byte_of_ascii_of_N;
    try (Z.div_mod_to_equations; lia);
    repeat case_match; try (exfalso; Z.div_mod_to_equations; lia);
    f_equal; Z.div_mod_to_equations; lia.
Qed.

(** Writing characters and reading them back gives the same ones. *)
Lemma chars_of_chars l :
  Forall (fun c => is_char c = true) l -> chars (of_chars l) = l.
Proof.
  induction 1 as [|c l Hc Hl IH]; [done|]. cbn [of_chars foldr].
  change (foldr encode_char "" l) with (of_chars l).
  by rewrite chars_encode_char, IH.
Qed.


Lemma encode_char_app c s t : encode_char c (s +:+ t) = encode_char c s +:+ t.
Proof. unfold encode_char. by repeat case_match. Qed.

Lemma of_chars_app l1 l2 : of_chars (l1 ++ l2) = of_chars l1 +:+ of_chars l2.
Proof.
  induction l1 as [|c l1 IH]; [done|]. cbn [of_chars foldr app].
  change (foldr encode_char "" (l1 ++ l2)) with (of_chars (l1 ++ l2)).
  by rewrite IH, encode_char_app.
Qed.

(** ** Classes of characters *)

Definition between (a b c : N) : bool := ((a <=? c) && (c <=? b))%N.

(** [char::is_whitespace] and [char::is_control]: the White_Space property
    and the category Cc of Unicode. *)
Definition is_whitespace (c : code_point) : bool :=
  (between 9 13 c || between 32 32 c || between 0x85 0x85 c || between 0xA0 0xA0 c
   || between 0x1680 0x1680 c || between 0x2000 0x200A c || between 0x2028 0x2029 c
   || between 0x202F 0x202F c || between 0x205F 0x205F c || between 0x3000 0x3000 c)%N.
Definition is_control (c : code_point) : bool := (between 0 31 c || between 127 159 c)%N.

Fixpoint drop_blank (l : list code_point) : list code_point :=
  match l with c :: l' => if is_whitespace c then drop_blank l' else l | [] => [] end.

(** [str::trim]. *)
Definition trim (s : string) : string := of_chars (rev (drop_blank (rev (drop_blank (chars s))))).

(** [String::from_utf8_lossy]: each sequence that is no character, as far
    as it could begin one, read as the replacement character. *)
Definition replaced (rest : string) : string := encode_char 65533 rest.
Definition is_cont (b : ascii) : bool := between 128 191 (byte_of b).
Definition second_of_three (n : N) (b : ascii) : bool :=
  if (n =? 224)%N then between 160 191 (byte_of b) else if (n =? 237)%N then between 128 159 (byte_of b) else is_cont b.
Definition second_of_four (n : N) (b : ascii) : bool :=
  if (n =? 240)%N then between 144 191 (byte_of b) else if (n =? 244)%N then between 128 143 (byte_of b) else is_cont b.

Fixpoint lossy (s : string) : string :=
  match s with
  | "" => ""
  | String a s1 =>
    let n := byte_of a in
    if (n <? 128)%N then String a (lossy s1)
    else if between 194 223 n then
      match s1 with
      | String b s2 => if is_cont b then String a (String b (lossy s2)) else replaced (lossy s1)
      | "" => replaced ""
      end
    else if between 224 239 n then
      match s1 with
      | String b s2 =>
        if second_of_three n b then
          match s2 with
          | String c s3 => if is_cont c then String a (String b (String c (lossy s3))) else replaced (lossy s2)
          | "" => replaced ""
          end
        else replaced (lossy s1)
      | "" => replaced ""
      end
    else if between 240 244 n then
      match s1 with
      | String b s2 =>
        if second_of_four n b then
          match s2 with
          | String c s3 =>
            if is_cont c then
              match s3 with
              | String d s4 => if is_cont d then String a (String b (String c (String d (lossy s4)))) else replaced (lossy s3)
              | "" => replaced ""
              end
            else replaced (lossy s2)
          | "" => replaced ""
          end
        else replaced (lossy s1)
      | "" => replaced ""
      end
    else replaced (lossy s1)
  end.

(** ** Bytes *)

Definition to_bytes (s : string) : list Z := List.map (fun a => Z.of_N (byte_of a)) (Stdlib.Strings.String.list_ascii_of_string s).
Definition of_bytes (l : list Z) : string := Stdlib.Strings.String.string_of_list_ascii (List.map (fun b => ascii_of_N (Z.to_N b)) l).

Definition is_utf8 (s : string) : bool := bool_decide (of_chars (chars s) = s) && all is_char (chars s).

(** [String::from_utf8]. *)
Definition from_utf8 (bytes : list Z) : option string :=
  let s := of_bytes bytes in if is_utf8 s then Some s else None.

Lemma of_to_bytes s : of_bytes (to_bytes s) = s.
Proof.
  unfold of_bytes, to_bytes. rewrite List.map_map. rewrite <- (Stdlib.Strings.String.string_of_list_ascii_of_string s) at 2. f_equal.
  induction (Stdlib.Strings.String.list_ascii_of_string s) as [|a l IH]; [done|]. simpl. rewrite IH, N2Z.id. unfold byte_of.
  by rewrite ascii_N_embedding.
Qed.

Lemma to_bytes_inj s t : to_bytes s = to_bytes t -> s = t.
Proof. intros E. by rewrite <- (of_to_bytes s), <- (of_to_bytes t), E. Qed.

Lemma to_bytes_length s : length (to_bytes s) = String.length s.
Proof. unfold to_bytes. rewrite List.length_map. induction s as [|a s IH]; simpl; congruence. Qed.

Lemma is_utf8_right s : is_utf8 s = true <-> valid_utf8 s.
Proof.
  unfold is_utf8. rewrite andb_true_iff, bool_decide_eq_true, all_true. split.
  - intros [E Hall]. exists (chars s). split; [by apply List.Forall_forall|done].
  - intros (l & Hl & ->). rewrite chars_of_chars by done. split; [done|]. by apply List.Forall_forall.
Qed.

Lemma from_utf8_to_bytes s : valid_utf8 s -> from_utf8 (to_bytes s) = Some s.
Proof. intros Hs. unfold from_utf8. rewrite of_to_bytes. by apply is_utf8_right in Hs as ->. Qed.
