(* ===== verification/Text.v ===== *)
(** Text as Rust holds it: what [str] and [String] offer to the
    components, on the UTF-8 bytes of [Utf8], and the decimal form of an
    integer ([dec]). *)
From S2P Require Import Prelude.
From S2P Require Export Utf8.
From Stdlib Require Import Ascii.

(** On ASCII text a character is a byte. *)
Definition is_ascii_byte (a : ascii) : bool := (byte_of a <? 128)%N.

Fixpoint str_all (f : ascii -> bool) (s : string) : bool :=
  match s with "" => true | String a s => f a && str_all f s end.

Fixpoint bytes (s : string) : list code_point :=
  match s with "" => [] | String a s => byte_of a :: bytes s end.

Lemma chars_ascii s : str_all is_ascii_byte s = true -> chars s = bytes s.
Proof.
  induction s as [|a s IH]; simpl; [done|]. unfold is_ascii_byte at 1.
  intros [-> H]%andb_true_iff. by rewrite IH.
Qed.

Lemma bytes_length s : length (bytes s) = String.length s.
Proof. induction s; simpl; congruence. Qed.

Lemma str_all_app f s1 s2 : str_all f (s1 +:+ s2) = str_all f s1 && str_all f s2.
Proof. induction s1 as [|a s1 IH]; simpl; [done|]. by rewrite IH, andb_assoc. Qed.

Lemma str_all_impl (f g : ascii -> bool) s :
  (forall a, f a = true -> g a = true) -> str_all f s = true -> str_all g s = true.
Proof.
  intros H. induction s as [|a s IH]; simpl; [done|].
  intros [Ha Hs]%andb_true_iff. rewrite (H a Ha), IH; done.
Qed.

Lemma str_length_app s1 s2 :
  String.length (s1 +:+ s2) = (String.length s1 + String.length s2)%nat.
Proof. induction s1; simpl; congruence. Qed.

Lemma substring_head (p r : string) : String.substring 0 (String.length p) (p +:+ r) = p.
Proof. induction p as [|a p IH]; simpl; [by destruct r|]. by f_equal. Qed.

Lemma substring_whole (s : string) : String.substring 0 (String.length s) s = s.
Proof. induction s as [|a s IH]; [done|]. simpl. by f_equal. Qed.

Lemma str_app_assoc (s1 s2 s3 : string) : (s1 +:+ s2) +:+ s3 = s1 +:+ (s2 +:+ s3).
Proof. induction s1; simpl; congruence. Qed.

Lemma str_app_nil_r (s : string) : s +:+ "" = s.
Proof. induction s; simpl; congruence. Qed.

Lemma str_app_inj_r (s1 s2 t : string) : s1 +:+ t = s2 +:+ t -> s1 = s2.
Proof.
  revert s2. induction s1 as [|a s1 IH]; intros [|b s2] H; simpl in *; try done.
  - exfalso. apply (f_equal String.length) in H. simpl in H. rewrite str_length_app in H. lia.
  - exfalso. apply (f_equal String.length) in H. simpl in H. rewrite str_length_app in H. lia.
  - injection H as -> H. f_equal. by apply IH.
Qed.

(** ** Decimal *)

Definition is_digit (a : ascii) : bool := ((48 <=? byte_of a) && (byte_of a <=? 57))%N.
Definition digit (d : Z) : ascii := ascii_of_N (48 + Z.to_N d).
Definition digit_value (a : ascii) : Z := Z.of_N (byte_of a) - 48.

Fixpoint dec_go (fuel : nat) (n : Z) (acc : string) : string :=
  match fuel with
  | 0%nat => acc
  | S fuel =>
    let acc := String (digit (n mod 10)) acc in
    if n <? 10 then acc else dec_go fuel (n / 10) acc
  end.

(** The [Display] of an unsigned integer. A decimal digit takes more than
    a bit, so one step per bit is enough. *)
Definition dec (n : Z) : string := dec_go (S (Z.to_nat (Z.log2 n))) n "".

(** The [Display] of a signed one. *)
Definition dec_signed (n : Z) : string :=
  if n <? 0 then "-" +:+ dec (- n) else dec n.

(** The value a text of digits spells, read after [acc]. *)
Fixpoint dec_value (acc : Z) (s : string) : Z :=
  match s with "" => acc | String a s => dec_value (acc * 10 + digit_value a) s end.

Fixpoint zeros (n : nat) : string :=
  match n with 0%nat => "" | S n => String "0" (zeros n) end.

(** The width of [{:0w}]: zeros on the left, never a cut. *)
Definition pad_zero (width : nat) (s : string) : string :=
  zeros (width - String.length s) +:+ s.

Lemma byte_of_digit d : 0 <= d < 10 -> byte_of (digit d) = (48 + Z.to_N d)%N.
Proof. intros H. apply byte_of_ascii_of_N. lia. Qed.

Lemma digit_value_digit d : 0 <= d < 10 -> digit_value (digit d) = d.
Proof. intros H. unfold digit_value. rewrite byte_of_digit by done. lia. Qed.

Lemma is_digit_digit d : 0 <= d < 10 -> is_digit (digit d) = true.
Proof. intros H. unfold is_digit. rewrite byte_of_digit by done. lia. Qed.

Lemma is_digit_value a : is_digit a = true -> 0 <= digit_value a < 10.
Proof. unfold is_digit, digit_value. lia. Qed.

Lemma is_digit_ascii a : is_digit a = true -> is_ascii_byte a = true.
Proof. unfold is_digit, is_ascii_byte. lia. Qed.

Lemma dec_value_app acc s1 s2 : dec_value acc (s1 +:+ s2) = dec_value (dec_value acc s1) s2.
Proof. revert acc. induction s1 as [|a s1 IH]; intros acc; simpl; [done|]. apply IH. Qed.

Lemma dec_value_shift acc s :
  dec_value acc s = acc * 10 ^ Z.of_nat (String.length s) + dec_value 0 s.
Proof.
  revert acc. induction s as [|a s IH]; intros acc; [simpl; lia|].
  cbn [dec_value String.length]. rewrite IH, (IH (0 * 10 + _)), Nat2Z.inj_succ, Z.pow_succ_r by lia. nia.
Qed.

Lemma dec_value_bound s :
  str_all is_digit s = true -> 0 <= dec_value 0 s < 10 ^ Z.of_nat (String.length s).
Proof.
  induction s as [|a s IH]; [simpl; lia|]. cbn [str_all dec_value String.length].
  intros [Ha Hs]%andb_true_iff. specialize (IH Hs). apply is_digit_value in Ha.
  rewrite dec_value_shift, Nat2Z.inj_succ, Z.pow_succ_r by lia. nia.
Qed.

(** What one run of [dec_go] adds before [acc]. *)
Lemma dec_go_spec fuel n acc :
  0 <= n < 2 ^ Z.of_nat fuel ->
  exists s, dec_go fuel n acc = s +:+ acc /\ dec_value 0 s = n /\
    str_all is_digit s = true /\
    (0 < fuel -> match s with "" => False | String a t => a = "0"%char -> t = "" end)%nat.
Proof.
  revert n acc. induction fuel as [|fuel IH]; intros n acc Hn.
  { exists "". change (2 ^ Z.of_nat 0) with 1 in Hn. cbn. split_and!; try done; lia. }
  cbn [dec_go]. destruct (Z.ltb_spec n 10) as [Hlt|Hge].
  - exists (String (digit (n mod 10)) ""). rewrite Z.mod_small by lia.
    cbn [dec_value str_all]. rewrite digit_value_digit, is_digit_digit by lia. cbn [andb].
    split_and!; try done; lia.
  - assert (H2 : 0 <= n / 10 < 2 ^ Z.of_nat fuel).
    { rewrite Nat2Z.inj_succ, Z.pow_succ_r in Hn by lia. Z.div_mod_to_equations. lia. }
    destruct (IH (n / 10) (String (digit (n mod 10)) acc) H2) as (s & Hs & Hv & Hd & Hz).
    pose proof (Z.mod_pos_bound n 10).
    exists (s +:+ String (digit (n mod 10)) ""). rewrite Hs. split; [|split; [|split]].
    + by rewrite str_app_assoc.
    + rewrite dec_value_app, Hv. cbn [dec_value].
      rewrite digit_value_digit by lia. Z.div_mod_to_equations. lia.
    + rewrite str_all_app, Hd. cbn [str_all]. by rewrite is_digit_digit by lia.
    + intros _. destruct fuel as [|fuel]; [simpl in H2; Z.div_mod_to_equations; lia|].
      specialize (Hz ltac:(lia)). destruct s as [|a t]; [done|]. simpl.
      intros ->. rewrite Hz in Hv by done. change (0 = n / 10) in Hv. Z.div_mod_to_equations. lia.
Qed.

Lemma dec_spec n : 0 <= n ->
  dec_value 0 (dec n) = n /\ str_all is_digit (dec n) = true /\
  match dec n with "" => False | String a t => a = "0"%char -> t = "" end.
Proof.
  intros Hn. unfold dec.
  destruct (dec_go_spec (S (Z.to_nat (Z.log2 n))) n "") as (s & -> & Hv & Hd & Hz).
  { split; [done|]. rewrite Nat2Z.inj_succ, Z2Nat.id by apply Z.log2_nonneg.
    destruct (Z.eq_dec n 0) as [->|]; [done|]. apply Z.log2_spec. lia. }
  rewrite str_app_nil_r. split; [done|]. split; [done|]. apply Hz. lia.
Qed.

Lemma dec_read n : 0 <= n -> dec_value 0 (dec n) = n.
Proof. intros Hn. apply dec_spec, Hn. Qed.

Lemma dec_digits n : 0 <= n -> str_all is_digit (dec n) = true.
Proof. intros Hn. apply dec_spec, Hn. Qed.

Lemma dec_nonempty n : 0 <= n -> dec n <> "".
Proof. intros Hn. destruct (dec_spec n Hn) as (_ & _ & H). by destruct (dec n). Qed.

Lemma dec_inj n m : 0 <= n -> 0 <= m -> dec n = dec m -> n = m.
Proof. intros Hn Hm H. rewrite <- (dec_read n), <- (dec_read m) by done. by rewrite H. Qed.

Lemma zeros_digits n : str_all is_digit (zeros n) = true.
Proof. induction n; simpl; done. Qed.

Lemma zeros_length n : String.length (zeros n) = n.
Proof. induction n; simpl; congruence. Qed.

Lemma dec_value_zeros n acc s : acc = 0 -> dec_value acc (zeros n +:+ s) = dec_value 0 s.
Proof. intros ->. induction n; simpl; done. Qed.

Lemma pad_zero_read width n : 0 <= n -> dec_value 0 (pad_zero width (dec n)) = n.
Proof. intros Hn. unfold pad_zero. by rewrite dec_value_zeros, dec_read. Qed.

Lemma pad_zero_digits width n : 0 <= n -> str_all is_digit (pad_zero width (dec n)) = true.
Proof. intros Hn. unfold pad_zero. by rewrite str_all_app, zeros_digits, dec_digits. Qed.

(** A number below [10^(k+1)] is at most [k+1] digits. *)
Lemma dec_length_le n k : 0 <= n < 10 ^ Z.of_nat (S k) -> (String.length (dec n) <= S k)%nat.
Proof.
  intros [Hn Hlt]. destruct (dec_spec n Hn) as (Hv & Hd & Hz).
  destruct (dec n) as [|a s] eqn:E; [done|]. cbn [String.length].
  cbn [str_all] in Hd. apply andb_true_iff in Hd as [Ha Hs].
  destruct (decide (String.length s <= k)%nat) as [|Hgt]; [lia|exfalso].
  assert (a <> "0"%char) as Hne.
  { intros ->. rewrite Hz in Hgt by done. simpl in Hgt. lia. }
  assert (1 <= digit_value a).
  { pose proof (is_digit_value a Ha). destruct (decide (digit_value a = 0)); [|lia].
    exfalso. apply Hne. unfold digit_value in *.
    rewrite <- (ascii_N_embedding a). change (N_of_ascii a) with (byte_of a).
    by replace (byte_of a) with 48%N by lia. }
  cbn [dec_value] in Hv. rewrite dec_value_shift in Hv.
  pose proof (dec_value_bound s Hs).
  assert (10 ^ Z.of_nat (S k) <= 10 ^ Z.of_nat (String.length s)).
  { apply Z.pow_le_mono_r; lia. }
  nia.
Qed.

Lemma pad_zero_length k n : 0 <= n < 10 ^ Z.of_nat (S k) ->
  String.length (pad_zero (S k) (dec n)) = S k.
Proof.
  intros Hn. pose proof (dec_length_le n k Hn). unfold pad_zero.
  rewrite str_length_app, zeros_length. lia.
Qed.

(** ** Searching and cutting

    The separators of the source are ASCII characters, which a byte of a
    multi-byte character never equals: cutting bytes cuts characters. *)

Fixpoint strip_prefix (p s : string) : option string :=
  match p, s with
  | "", _ => Some s
  | String a p, String b s => if (a =? b)%char then strip_prefix p s else None
  | _, "" => None
  end.

(** [s.find(c)] then [s.split_at(pos)]: what precedes the first [c], and
    the rest with it. *)
Fixpoint split_at_char (c : ascii) (s : string) : option (string * string) :=
  match s with
  | "" => None
  | String a s' =>
    if (a =? c)%char then Some ("", s)
    else match split_at_char c s' with
         | Some (l, r) => Some (String a l, r)
         | None => None
         end
  end.

(** [s.split_once(c)]: around the first [c], which is in neither part. *)
Fixpoint split_once (c : ascii) (s : string) : option (string * string) :=
  match s with
  | "" => None
  | String a s' =>
    if (a =? c)%char then Some ("", s')
    else match split_once c s' with
         | Some (l, r) => Some (String a l, r)
         | None => None
         end
  end.

(** [rsplit_once]: around the last [c]. *)
Fixpoint rsplit_once (c : ascii) (s : string) : option (string * string) :=
  match s with
  | EmptyString => None
  | String a s =>
    match rsplit_once c s with
    | Some (l, r) => Some (String a l, r)
    | None => if (a =? c)%char then Some ("", s) else None
    end
  end.

(** [s.split_once(pat)], around the first [pat], a text. *)
Fixpoint split_once_str (pat s : string) : option (string * string) :=
  match strip_prefix pat s, s with
  | Some r, _ => Some ("", r)
  | None, "" => None
  | None, String a s =>
    match split_once_str pat s with Some (l, r) => Some (String a l, r) | None => None end
  end.

(** [s.contains(pat)], a text. *)
Definition contains (pat s : string) : bool := match split_once_str pat s with Some _ => true | None => false end.

(** [s.split(c)]: one piece more than there are separators. *)
Fixpoint split (c : ascii) (s : string) : list string :=
  match s with
  | "" => [""]
  | String a s' =>
    if (a =? c)%char then "" :: split c s'
    else match split c s' with
         | [] => [String a ""]
         | p :: ps => String a p :: ps
         end
  end.

(** [pieces.join(sep)]. *)
Fixpoint join (sep : string) (l : list string) : string :=
  match l with
  | [] => ""
  | [s] => s
  | s :: l => s +:+ sep +:+ join sep l
  end.

Definition starts_with (prefix s : string) : bool :=
  match strip_prefix prefix s with Some _ => true | None => false end.

Fixpoint ends_with (suffix s : string) : bool :=
  bool_decide (s = suffix) || match s with EmptyString => false | String _ s => ends_with suffix s end.

Definition lacks (c : ascii) (s : string) : bool := str_all (fun a => negb (a =? c)%char) s.

Lemma lacks_app c s t : lacks c (s +:+ t) = lacks c s && lacks c t.
Proof. apply str_all_app. Qed.

Lemma split_nonempty c s : split c s <> [].
Proof. destruct s; simpl; [done|]. by repeat case_match. Qed.

Lemma join_cons sep s l : l <> [] -> join sep (s :: l) = s +:+ sep +:+ join sep l.
Proof. by destruct l. Qed.

(** Cutting at a character and joining with it is the identity. *)
Lemma join_split c s : join (String c "") (split c s) = s.
Proof.
  induction s as [|a s IH]; [done|]. cbn [split].
  destruct (Ascii.eqb_spec a c) as [->|Hne].
  - by rewrite join_cons, IH by apply split_nonempty.
  - destruct (split c s) as [|p ps] eqn:E; [by apply split_nonempty in E|].
    destruct ps as [|q ps]; simpl in *; by rewrite <- IH.
Qed.

Lemma split_lacks c s : lacks c s = true -> split c s = [s].
Proof.
  induction s as [|a s IH]; [done|]. cbn [lacks str_all split].
  intros [Ha Hs]%andb_true_iff. apply negb_true_iff in Ha. rewrite Ha.
  by rewrite IH.
Qed.

Lemma split_app c p s : lacks c p = true -> split c (p +:+ String c s) = p :: split c s.
Proof.
  induction p as [|a p IH]; simpl.
  - intros _. by rewrite Ascii.eqb_refl.
  - unfold lacks. simpl. intros [Ha Hs]%andb_true_iff. apply negb_true_iff in Ha.
    by rewrite Ha, IH.
Qed.

(** Joining pieces free of the separator and cutting gives them back. *)
Lemma split_join c l :
  l <> [] -> Forall (fun s => lacks c s = true) l -> split c (join (String c "") l) = l.
Proof.
  intros Hne Hl. induction Hl as [|s l Hs Hl IH]; [done|].
  destruct (decide (l = [])) as [->|Hl'].
  - by apply split_lacks.
  - rewrite join_cons by done. cbn. rewrite split_app by done. by rewrite IH.
Qed.

Lemma split_each_lacks c s : Forall (fun p => lacks c p = true) (split c s).
Proof.
  induction s as [|a s IH]; cbn [split]; [by repeat constructor|].
  destruct (a =? c)%char eqn:E; [by constructor|].
  destruct IH as [|p ps Hp Hps]; constructor; try done; unfold lacks in *; simpl.
  - by rewrite E.
  - by rewrite E.
Qed.

Lemma split_once_lacks c s : lacks c s = true -> split_once c s = None.
Proof.
  unfold lacks. induction s as [|a s IH]; simpl; [done|].
  intros [Ha Hs]%andb_true_iff. apply negb_true_iff in Ha. by rewrite Ha, IH.
Qed.

Lemma split_once_app c p s : lacks c p = true -> split_once c (p +:+ String c s) = Some (p, s).
Proof.
  unfold lacks. induction p as [|a p IH]; simpl.
  - intros _. by rewrite Ascii.eqb_refl.
  - intros [Ha Hs]%andb_true_iff. apply negb_true_iff in Ha. by rewrite Ha, IH.
Qed.

Lemma split_once_inv c s l r :
  split_once c s = Some (l, r) -> s = l +:+ String c r /\ lacks c l = true.
Proof.
  revert l. induction s as [|a s IH]; simpl; [done|]. intros l.
  destruct (Ascii.eqb_spec a c) as [->|Hne]; [by intros [= <- <-]|].
  destruct (split_once c s) as [[l' r']|] eqn:E; [|done]. intros [= <- <-].
  destruct (IH l' eq_refl) as [-> Hl]. split; [done|]. unfold lacks in *. simpl.
  rewrite Hl. by apply Ascii.eqb_neq in Hne as ->.
Qed.

Lemma split_at_char_app c p s :
  lacks c p = true -> split_at_char c (p +:+ String c s) = Some (p, String c s).
Proof.
  unfold lacks. induction p as [|a p IH]; simpl.
  - intros _. by rewrite Ascii.eqb_refl.
  - intros [Ha Hs]%andb_true_iff. apply negb_true_iff in Ha. by rewrite Ha, IH.
Qed.

Lemma split_at_char_lacks c s : lacks c s = true -> split_at_char c s = None.
Proof.
  unfold lacks. induction s as [|a s IH]; simpl; [done|].
  intros [Ha Hs]%andb_true_iff. apply negb_true_iff in Ha. by rewrite Ha, IH.
Qed.

Lemma strip_prefix_app p s : strip_prefix p (p +:+ s) = Some s.
Proof. induction p as [|a p IH]; simpl; [by destruct s|]. by rewrite Ascii.eqb_refl. Qed.

Lemma digits_lack c s : is_digit c = false -> str_all is_digit s = true -> lacks c s = true.
Proof.
  intros Hc. apply str_all_impl. intros a Ha. apply negb_true_iff, Ascii.eqb_neq.
  congruence.
Qed.

(** [to_lowercase] of an ASCII text. *)
Definition lower_byte (a : ascii) : ascii :=
  if (65 <=? byte_of a)%N && (byte_of a <=? 90)%N then ascii_of_N (byte_of a + 32) else a.

Fixpoint lower (s : string) : string :=
  match s with "" => "" | String a s => String (lower_byte a) (lower s) end.

(** Two canonical texts of digits of one value are one text. *)
Lemma digits_same_length s1 s2 : String.length s1 = String.length s2 ->
  str_all is_digit s1 = true -> str_all is_digit s2 = true ->
  dec_value 0 s1 = dec_value 0 s2 -> s1 = s2.
Proof.
  revert s2. induction s1 as [|a s1 IH]; intros [|b s2]; simpl; try done.
  intros [= Hl] [Ha H1]%andb_true_iff [Hb H2]%andb_true_iff Hv.
  rewrite (dec_value_shift (digit_value a)), (dec_value_shift (digit_value b)), Hl in Hv.
  pose proof (dec_value_bound _ H1) as B1. pose proof (dec_value_bound _ H2) as B2.
  rewrite Hl in B1. set (P := 10 ^ Z.of_nat (String.length s2)) in *.
  assert (digit_value a = digit_value b) as Hab by nia.
  f_equal.
  - unfold digit_value in Hab. rewrite <- (ascii_N_embedding a), <- (ascii_N_embedding b).
    f_equal. unfold byte_of in Hab. lia.
  - apply IH; [done..|]. rewrite Hab in Hv. lia.
Qed.

Lemma digits_lead s : str_all is_digit s = true -> s <> "" ->
  (forall t, s = String "0" t -> t = "") -> (1 < String.length s)%nat ->
  10 ^ (Z.of_nat (String.length s) - 1) <= dec_value 0 s.
Proof.
  destruct s as [|a s]; [done|]. cbn [str_all]. intros [Ha Hs]%andb_true_iff _ Hz Hl.
  cbn [String.length dec_value] in *. rewrite dec_value_shift.
  pose proof (dec_value_bound _ Hs) as B. pose proof (is_digit_value _ Ha).
  replace (Z.of_nat (S (String.length s)) - 1) with (Z.of_nat (String.length s)) by lia.
  destruct (decide (digit_value a = 0)) as [E|]; [|nia]. exfalso.
  assert (a = "0"%char) as ->.
  { unfold digit_value, byte_of in E. rewrite <- (ascii_N_embedding a).
    by replace (N_of_ascii a) with 48%N by lia. }
  rewrite (Hz s eq_refl) in Hl. simpl in Hl. lia.
Qed.

Lemma digits_inj s1 s2 :
  str_all is_digit s1 = true -> str_all is_digit s2 = true -> s1 <> "" -> s2 <> "" ->
  (forall t, s1 = String "0" t -> t = "") -> (forall t, s2 = String "0" t -> t = "") ->
  dec_value 0 s1 = dec_value 0 s2 -> s1 = s2.
Proof.
  intros H1 H2 N1 N2 Z1 Z2 Hv. apply digits_same_length; [|done..].
  pose proof (dec_value_bound _ H1) as B1. pose proof (dec_value_bound _ H2) as B2.
  assert (forall m n : nat, (m < n)%nat -> (0 < m)%nat ->
    10 ^ Z.of_nat m <= 10 ^ (Z.of_nat n - 1)) as Hpow.
  { intros m n Hmn Hm. apply Z.pow_le_mono_r; lia. }
  assert (0 < String.length s1)%nat by (destruct s1; simpl; [done|lia]).
  assert (0 < String.length s2)%nat by (destruct s2; simpl; [done|lia]).
  destruct (Nat.lt_trichotomy (String.length s1) (String.length s2)) as [L|[L|L]]; [|done|]; exfalso.
  - pose proof (digits_lead s2 H2 N2 Z2 ltac:(lia)). specialize (Hpow _ _ L). lia.
  - pose proof (digits_lead s1 H1 N1 Z1 ltac:(lia)). specialize (Hpow _ _ L). lia.
Qed.

Lemma rsplit_once_lacks c s : lacks c s = true -> rsplit_once c s = None.
Proof.
  unfold lacks. induction s as [|a s IH]; [done|]. cbn [str_all rsplit_once]. rewrite andb_true_iff. intros [Ha Hs].
  rewrite IH by done. by destruct (a =? c)%char.
Qed.

Lemma rsplit_once_app c p s : lacks c s = true -> rsplit_once c (p +:+ String c s) = Some (p, s).
Proof.
  intros Hs. induction p as [|a p IH]; cbn [String.append rsplit_once].
  - rewrite rsplit_once_lacks by done. by rewrite Ascii.eqb_refl.
  - by rewrite IH.
Qed.

(** ** Ordered collections *)

(** The elements of a [BTreeSet<String>], and the entries of a
    [BTreeMap], in their order. *)
Definition in_order (s : gset string) : list string := sort_by String.leb (elements s).
Definition entries_in_order {A} (m : gmap string A) : list (string * A) :=
  sort_by (fun a b => String.leb a.1 b.1) (map_to_list m).

Lemma entries_in_order_In {A} (m : gmap string A) id x : In (id, x) (entries_in_order m) <-> m !! id = Some x.
Proof. unfold entries_in_order. rewrite sort_by_In, <- elem_of_map_to_list. symmetry. apply list_elem_of_In. Qed.

Lemma entries_in_order_NoDup {A} (m : gmap string A) : NoDup (List.map fst (entries_in_order m)).
Proof.
  eapply NoDup_Permutation_proper; [|apply (NoDup_fst_map_to_list m)]. apply Permutation_map. apply sort_by_perm.
Qed.

Lemma in_order_In (s : gset string) x : In x (in_order s) <-> x ∈ s.
Proof. unfold in_order. rewrite sort_by_In, <- elem_of_elements. symmetry. apply list_elem_of_In. Qed.
