(* ===== verification/Dates.v ===== *)
(** [format.rs], the calendar: a unix time as its civil date in UTC, and
    the day a civil date is. *)
From S2P Require Import Prelude.

(** Rust divides an [i64] towards zero ([÷]); [div_euclid] and
    [rem_euclid] by a positive number are [/] and [mod]. *)
Definition civil_date (unix : Z) : Z * Z * Z :=
  let days := if unix / 86400 <=? i64_max then unix / 86400 else i64_max ÷ 2 in
  let z := days + 719468 in
  let era := z / 146097 in
  let day_of_era := z mod 146097 in
  let year_of_era :=
    (day_of_era - day_of_era ÷ 1460 + day_of_era ÷ 36524 - day_of_era ÷ 146096) ÷ 365 in
  let day_of_year := day_of_era - (365 * year_of_era + year_of_era ÷ 4 - year_of_era ÷ 100) in
  let month_index := (5 * day_of_year + 2) ÷ 153 in
  let day := day_of_year - (153 * month_index + 2) ÷ 5 + 1 in
  let month := if month_index <? 10 then month_index + 3 else month_index - 9 in
  let year := year_of_era + era * 400 + (if month <=? 2 then 1 else 0) in
  (year, wrap_u32 month, wrap_u32 day).

Definition days_from_civil (year month day : Z) : Z :=
  let year := year - (if month <=? 2 then 1 else 0) in
  let era := year / 400 in
  let year_of_era := year mod 400 in
  let day_of_year :=
    (153 * (if month >? 2 then month - 3 else month + 9) + 2) ÷ 5 + day - 1 in
  let day_of_era := year_of_era * 365 + year_of_era ÷ 4 - year_of_era ÷ 100 + day_of_year in
  era * 146097 + day_of_era - 719468.

(** ** Dates *)

Definition is_leap (y : Z) : bool :=
  ((y mod 4 =? 0) && negb (y mod 100 =? 0)) || (y mod 400 =? 0).

#[global] Arguments is_leap : simpl never.

Definition days_in_month (y m : Z) : Z :=
  if m =? 2 then (if is_leap y then 29 else 28)
  else if (m =? 4) || (m =? 6) || (m =? 9) || (m =? 11) then 30 else 31.

Definition valid_date (y m d : Z) : Prop := 1 <= m <= 12 /\ 1 <= d <= days_in_month y m.

(** The quotients of non-negative numbers, as [lia] reads them best. *)
Lemma year_of_era_range doe : 0 <= doe < 146097 ->
  let y := (doe - doe ÷ 1460 + doe ÷ 36524 - doe ÷ 146096) ÷ 365 in
  0 <= y < 400 /\ 365 * y + y / 4 - y / 100 <= doe
  /\ doe < 365 * (y + 1) + (y + 1) / 4 - (y + 1) / 100 + (if y =? 399 then 1 else 0).
Proof.
  intros H. cbv zeta. rewrite !(Z.quot_div_nonneg doe), (Z.quot_div_nonneg (_ - _)) by
    (Z.div_mod_to_equations; lia).
  destruct (Z.eqb_spec ((doe - doe / 1460 + doe / 36524 - doe / 146096) / 365) 399);
    Z.div_mod_to_equations; lia.
Qed.

(** A day of the year, counted from 1 March, lies in the month its index
    names and at the day it names. *)
Lemma month_day doy : 0 <= doy <= 365 ->
  let mi := (5 * doy + 2) ÷ 153 in
  0 <= mi <= 11 /\ (153 * mi + 2) ÷ 5 <= doy < (153 * (mi + 1) + 2) ÷ 5.
Proof. cbv zeta. Z.quot_rem_to_equations. lia. Qed.

Lemma month_of_day mi d : 0 <= mi <= 11 ->
  (153 * mi + 2) ÷ 5 <= d < (153 * (mi + 1) + 2) ÷ 5 -> (5 * d + 2) ÷ 153 = mi.
Proof. Z.quot_rem_to_equations. lia. Qed.

(** The date of a day, in the era, the year and the day of the year
    [civil_date] goes through. *)
Lemma civil_date_parts unix : in_u64 unix ->
  exists era yoe doy mi,
    0 <= yoe < 400 /\ 0 <= doy <= 365 /\ 0 <= mi <= 11 /\
    (153 * mi + 2) ÷ 5 <= doy < (153 * (mi + 1) + 2) ÷ 5 /\
    doy < 365 + (yoe + 1) / 4 - yoe / 4 - (yoe + 1) / 100 + yoe / 100
          + (if yoe =? 399 then 1 else 0) /\
    unix / 86400 + 719468 = era * 146097 + (365 * yoe + yoe / 4 - yoe / 100 + doy) /\
    civil_date unix =
      (yoe + era * 400 + (if mi <? 10 then 0 else 1),
       if mi <? 10 then mi + 3 else mi - 9,
       doy - (153 * mi + 2) ÷ 5 + 1).
Proof.
  intros Hu. unfold civil_date.
  replace (unix / 86400 <=? i64_max) with true
    by (symmetry; apply Z.leb_le; unfold in_u64, u64_max, i64_max in *; Z.div_mod_to_equations; lia).
  set (z := unix / 86400 + 719468). cbv zeta.
  assert (Hdoe : 0 <= z mod 146097 < 146097) by (Z.div_mod_to_equations; lia).
  pose proof (year_of_era_range _ Hdoe) as Hy. cbv zeta in Hy.
  set (doe := z mod 146097) in *.
  set (yoe := (doe - doe ÷ 1460 + doe ÷ 36524 - doe ÷ 146096) ÷ 365) in *.
  assert (Hz : z = z / 146097 * 146097 + doe) by (unfold doe; Z.div_mod_to_equations; lia).
  rewrite !(Z.quot_div_nonneg yoe) by lia.
  set (doy := doe - (365 * yoe + yoe / 4 - yoe / 100)) in *.
  assert (Hdoy : 0 <= doy <= 365).
  { unfold doy. clear Hz. clearbody yoe doe. destruct (Z.eqb_spec yoe 399);
      Z.div_mod_to_equations; lia. }
  pose proof (month_day doy Hdoy) as Hmi. cbv zeta in Hmi.
  set (mi := (5 * doy + 2) ÷ 153) in *. clearbody yoe doe mi.
  exists (z / 146097), yoe, doy, mi. unfold wrap_u32.
  split_and!; try (unfold doy; lia).
  destruct (Z.ltb_spec mi 10); rewrite !Z.mod_small by
    (clearbody doy; Z.quot_rem_to_equations; lia); f_equal; f_equal; destruct (_ <=? 2) eqn:?; lia.
Qed.

Lemma year_length y : (y + 1) / 4 - y / 4 - (y + 1) / 100 + y / 100 + (y + 1) / 400 - y / 400
  = if is_leap (y + 1) then 1 else 0.
Proof.
  unfold is_leap.
  destruct (Z.eqb_spec ((y + 1) mod 4) 0), (Z.eqb_spec ((y + 1) mod 100) 0),
    (Z.eqb_spec ((y + 1) mod 400) 0); simpl; Z.div_mod_to_equations; lia.
Qed.

Lemma is_leap_era era yoe : is_leap (yoe + era * 400) = is_leap yoe.
Proof.
  unfold is_leap.
  replace ((yoe + era * 400) mod 4) with (yoe mod 4) by (Z.div_mod_to_equations; lia).
  replace ((yoe + era * 400) mod 100) with (yoe mod 100) by (Z.div_mod_to_equations; lia).
  by rewrite Z.mod_add.
Qed.

(** [civil_date] gives a date of the Gregorian calendar, and
    [days_from_civil] takes it back to the day it came from: no day of a
    [u64] clock is read as another one. *)
Lemma civil_date_sound unix : in_u64 unix ->
  let '(year, month, day) := civil_date unix in
  valid_date year month day /\ days_from_civil year month day = unix / 86400.
Proof.
  intros Hu.
  destruct (civil_date_parts unix Hu) as (era & yoe & doy & mi & Hy & Hd & Hm & Hmd & Hlen & Hz & ->).
  assert (Hleap : doy = 365 -> is_leap (yoe + 1) = true).
  { intros ->. pose proof (year_length yoe) as HL. destruct (is_leap (yoe + 1)); [done|].
    clear Hz Hmd Hm. revert Hlen. destruct (Z.eqb_spec yoe 399); intros; Z.div_mod_to_equations; lia. }
  replace (yoe + era * 400 + (if mi <? 10 then 0 else 1))
    with ((yoe + (if mi <? 10 then 0 else 1)) + era * 400) by lia.
  split.
  - unfold valid_date, days_in_month. rewrite is_leap_era.
    clear Hz Hlen. destruct (mi <? 10) eqn:Hmi.
    + replace (yoe + 0) with yoe by lia. Z.quot_rem_to_equations. repeat case_match; lia.
    + destruct (is_leap (yoe + 1)) eqn:E; [|assert (doy <> 365) by (intros Hx; specialize (Hleap Hx); congruence)];
        Z.quot_rem_to_equations; repeat case_match; lia.
  - unfold days_from_civil.
    replace (_ - (if _ <=? 2 then 1 else 0)) with (yoe + era * 400)
      by (destruct (mi <? 10) eqn:?; destruct (_ <=? 2) eqn:?; lia).
    replace (if _ >? 2 then _ else _) with mi
      by (destruct (mi <? 10) eqn:?; destruct (_ >? 2) eqn:?; lia).
    replace ((yoe + era * 400) / 400) with era by (Z.div_mod_to_equations; lia).
    replace ((yoe + era * 400) mod 400) with yoe by (Z.div_mod_to_equations; lia).
    rewrite !(Z.quot_div_nonneg yoe) by lia. lia.
Qed.

(** [days_from_civil] in closed form, over the years that start in March. *)
Lemma days_from_civil_closed y m d : valid_date y m d ->
  exists yr doy, days_from_civil y m d = 365 * yr + yr / 4 - yr / 100 + yr / 400 + doy - 719468
    /\ 0 <= doy <= 365 /\ (doy = 365 -> is_leap (yr + 1) = true)
    /\ let mi := if m >? 2 then m - 3 else m + 9 in
       0 <= mi <= 11 /\ m = (if mi <? 10 then mi + 3 else mi - 9)
       /\ yr = y - (if mi <? 10 then 0 else 1) /\ d = doy - (153 * mi + 2) ÷ 5 + 1
       /\ (153 * mi + 2) ÷ 5 <= doy < (153 * (mi + 1) + 2) ÷ 5.
Proof.
  intros [Hm Hd]. unfold days_from_civil. cbv zeta.
  set (mi := if m >? 2 then m - 3 else m + 9).
  set (yr := y - (if m <=? 2 then 1 else 0)).
  set (doy := (153 * mi + 2) ÷ 5 + d - 1).
  assert (Hmi : 0 <= mi <= 11 /\ m = (if mi <? 10 then mi + 3 else mi - 9)
    /\ yr = y - (if mi <? 10 then 0 else 1)).
  { unfold mi, yr. destruct (m >? 2) eqn:?, (m <=? 2) eqn:?; repeat case_match; lia. }
  destruct Hmi as (H1 & H2 & H3). clearbody yr mi.
  assert (Hyr : 1 <= d <= days_in_month (yr + (if mi <? 10 then 0 else 1)) m).
  { replace (yr + _) with y by (rewrite H3; lia). done. }
  exists yr, doy. rewrite !(Z.quot_div_nonneg (yr mod 400)) by (try lia; apply Z.mod_pos_bound; lia).
  split; [Z.div_mod_to_equations; lia|]. unfold days_in_month in Hyr.
  assert (HF : m = 2 -> mi = 11) by (destruct (mi <? 10) eqn:?; lia).
  replace (yr + (if mi <? 10 then 0 else 1)) with (if mi <? 10 then yr else yr + 1) in Hyr
    by (destruct (mi <? 10); lia).
  unfold doy. clear Hd doy.
  destruct (is_leap (yr + 1)) eqn:EL; destruct (mi <? 10) eqn:E; subst m;
    Z.quot_rem_to_equations; split_and!; intros; repeat case_match; try lia; congruence.
Qed.

(** The day a year starts on grows with the year. *)
Definition year_start (y : Z) : Z := 365 * y + y / 4 - y / 100 + y / 400.

Lemma year_start_mono a b : a <= b -> year_start a <= year_start b.
Proof.
  intros H. unfold year_start.
  assert (a / 4 - a / 100 <= b / 4 - b / 100).
  { replace 100 with (4 * 25) by lia. rewrite <- !Z.div_div by lia.
    assert (a / 4 <= b / 4) by (apply Z.div_le_mono; lia). Z.div_mod_to_equations. lia. }
  assert (a / 400 <= b / 400) by (apply Z.div_le_mono; lia). lia.
Qed.

Lemma year_of_day a doa b dob :
  0 <= doa < 365 + (if is_leap (a + 1) then 1 else 0) ->
  0 <= dob < 365 + (if is_leap (b + 1) then 1 else 0) ->
  year_start a + doa = year_start b + dob -> a = b.
Proof.
  intros Ha Hb H. pose proof (year_length a). pose proof (year_length b).
  destruct (Z.lt_trichotomy a b) as [Hlt|[->|Hlt]]; [|done|]; exfalso.
  - pose proof (year_start_mono (a + 1) b ltac:(lia)). unfold year_start in *. lia.
  - pose proof (year_start_mono (b + 1) a ltac:(lia)). unfold year_start in *. lia.
Qed.

Lemma days_from_civil_inj y m d y' m' d' : valid_date y m d -> valid_date y' m' d' ->
  days_from_civil y m d = days_from_civil y' m' d' -> (y, m, d) = (y', m', d').
Proof.
  intros Hv Hv' Heq.
  destruct (days_from_civil_closed _ _ _ Hv) as (yr & doy & E & Hd & Hl & H1 & Hm & Hyr & Hday & Hr).
  destruct (days_from_civil_closed _ _ _ Hv') as (yr' & doy' & E' & Hd' & Hl' & H1' & Hm' & Hyr' & Hday' & Hr').
  cbv zeta in *. set (mi := if m >? 2 then _ else _) in *. set (mi' := if m' >? 2 then _ else _) in *.
  rewrite E, E' in Heq. clear E E' Hv Hv'. clearbody mi mi'.
  assert (Hlast : forall r o, 0 <= o <= 365 -> (o = 365 -> is_leap (r + 1) = true) ->
    0 <= o < 365 + (if is_leap (r + 1) then 1 else 0)).
  { clear. intros r o Ho HL. destruct (is_leap (r + 1)); [lia|].
    destruct (decide (o = 365)) as [E|]; [by specialize (HL E)|lia]. }
  assert (yr = yr') as <-.
  { apply (year_of_day yr doy yr' doy'); [by apply Hlast..|].
    clear - Heq. unfold year_start. lia. }
  assert (doy = doy') as <- by (clear - Heq; lia).
  assert (mi = mi') as <-.
  { rewrite <- (month_of_day mi doy), <- (month_of_day mi' doy); done. }
  clear - Hm Hm' Hyr Hyr' Hday Hday'.
  assert (y = y') as <- by lia. by subst.
Qed.

(** [civil_date] and [days_from_civil] are inverse of each other on the
    Gregorian calendar. At every second of a [u64] clock [civil_date]
    gives a date of the calendar, the one [days_from_civil] takes back to
    that day; and every date of the calendar is the one it gives at any
    second of its day. *)
Theorem civil_date_inverse unix year month day second :
  in_u64 unix -> valid_date year month day -> 0 <= second < 86400 ->
  in_u64 (days_from_civil year month day * 86400 + second) ->
  (let '(y, m, d) := civil_date unix in valid_date y m d /\ days_from_civil y m d = unix / 86400)
  /\ civil_date (days_from_civil year month day * 86400 + second) = (year, month, day).
Proof.
  intros Hx Hv Hs Hu. split; [by apply civil_date_sound|]. pose proof (civil_date_sound _ Hu) as H.
  destruct (civil_date _) as [[y m] d]. destruct H as [Hv' H].
  apply days_from_civil_inj; [done..|]. rewrite H. Z.div_mod_to_equations. lia.
Qed.

Lemma civil_date_inverse_witness :
  days_from_civil 2026 10 16 = 1792108800 / 86400
  /\ civil_date (days_from_civil 2024 2 29 * 86400 + 86399) = (2024, 2, 29).
Proof.
  destruct (civil_date_inverse 1792108800 2024 2 29 86399) as [[_ H1] H2];
    [repeat split; vm_compute; congruence..|]. exact (conj H1 H2).
Defined.

Example civil_date_example : civil_date 1792108800 = (2026, 10, 16).
Proof. reflexivity. Qed.
