(* ===== verification/Format.v ===== *)
(** [format.rs], the amounts: bitcoins with their eight decimals, and
    digits grouped by thousands. *)
From S2P Require Import Prelude Text.
From Stdlib Require Import Ascii.

Definition SATS_PER_BTC : Z := 100000000.

Definition format_btc (sats : Z) : string :=
  dec (sats / SATS_PER_BTC) +:+ "." +:+ pad_zero 8 (dec (sats mod SATS_PER_BTC)).

(** The narrow no-break space, U+202F. *)
Definition SEPARATOR : code_point := 8239.

(** The loop over the digits: a separator before each group of three
    counted from the right. *)
Fixpoint group_loop (offset i : nat) (digits : list code_point) : string :=
  match digits with
  | [] => ""
  | c :: digits =>
    let grouped := encode_char c (group_loop offset (S i) digits) in
    if negb (i =? 0)%nat && ((i + 3 - offset) mod 3 =? 0)%nat
    then encode_char SEPARATOR grouped
    else grouped
  end.

Definition strip_sign (int_part : string) : string * string :=
  match int_part with
  | String "-" digits => ("-", digits)
  | String "+" digits => ("+", digits)
  | _ => ("", int_part)
  end.

Definition group_thousands (value : string) : string :=
  let '(int_part, rest) :=
    match split_at_char "." value with Some (l, r) => (l, r) | None => (value, "") end in
  let '(sign, digits) := strip_sign int_part in
  let offset := (String.length digits mod 3)%nat in
  sign +:+ group_loop offset 0 (chars digits) +:+ rest.

(** ** Amounts *)

(** An amount is never rounded: the whole part and exactly eight
    decimals of [format_btc] spell the amount to the satoshi, with no
    leading zero, so two amounts never read the same. *)
Lemma format_btc_exact sats : in_u64 sats ->
  exists whole decimals,
    format_btc sats = whole +:+ "." +:+ decimals
    /\ str_all is_digit whole = true /\ str_all is_digit decimals = true
    /\ String.length decimals = 8%nat
    /\ dec_value 0 whole * SATS_PER_BTC + dec_value 0 decimals = sats
    /\ (strip_prefix "0" whole = None \/ whole = "0").
Proof.
  intros [H0 _]. unfold format_btc.
  pose proof (Z.mod_pos_bound sats SATS_PER_BTC eq_refl) as Hm.
  assert (Hq : 0 <= sats / SATS_PER_BTC) by (apply Z.div_pos; done).
  exists (dec (sats / SATS_PER_BTC)), (pad_zero 8 (dec (sats mod SATS_PER_BTC))).
  split_and!.
  - done.
  - by apply dec_digits.
  - apply pad_zero_digits. lia.
  - apply (pad_zero_length 7). exact Hm.
  - rewrite dec_read, pad_zero_read by lia. pose proof (Z.div_mod sats SATS_PER_BTC). lia.
  - destruct (dec_spec _ Hq) as (_ & _ & Hz). destruct (dec _) as [|a s]; [done|].
    cbn [strip_prefix]. destruct (Ascii.eqb_spec "0" a) as [<-|]; [|by left].
    right. by rewrite Hz.
Qed.

(** ** Grouping *)

Lemma encode_digit a rest : is_digit a = true -> encode_char (byte_of a) rest = String a rest.
Proof.
  intros H. unfold encode_char. replace (byte_of a <? 128)%N with true by (unfold is_digit in H; lia).
  unfold byte_of. by rewrite ascii_N_embedding.
Qed.

(** The digits of a number cut by thousands: a first group of one to
    three, then groups of three. *)
Inductive thousands : list string -> Prop :=
| thousands_one g : (1 <= String.length g <= 3)%nat -> thousands [g]
| thousands_more gs g : thousands gs -> String.length g = 3%nat -> thousands (gs ++ [g]).

Definition concat_str (l : list string) : string := join "" l.

(** The separator, as the text of a group is joined with it. *)
Definition sep_str : string := encode_char SEPARATOR "".

Lemma group_loop_app offset i l1 l2 :
  group_loop offset i (l1 ++ l2) =
  group_loop offset i l1 +:+ group_loop offset (i + length l1) l2.
Proof.
  revert i. induction l1 as [|c l1 IH]; intros i; simpl.
  - by rewrite Nat.add_0_r.
  - replace (i + S (length l1))%nat with (S i + length l1)%nat by lia.
    rewrite IH. case_match; by rewrite !encode_char_app.
Qed.

(** Three digits at a group boundary: the separator, then the digits. *)
Lemma group_loop_three offset i a b c :
  (0 < i)%nat -> (offset <= 2)%nat -> (i mod 3 = offset)%nat ->
  str_all is_digit (String a (String b (String c ""))) = true ->
  group_loop offset i (bytes (String a (String b (String c ""))))
  = sep_str +:+ String a (String b (String c "")).
Proof.
  intros Hi Ho Hm Hd. cbn [bytes group_loop].
  replace ((i + 3 - offset) mod 3 =? 0)%nat with true
    by (symmetry; apply Nat.eqb_eq; pose proof (Nat.div_mod_eq i 3);
        replace (i + 3 - offset)%nat with ((i / 3 + 1) * 3)%nat by lia; apply Nat.Div0.mod_mul).
  replace ((S i + 3 - offset) mod 3 =? 0)%nat with false
    by (symmetry; apply Nat.eqb_neq; pose proof (Nat.div_mod_eq i 3);
        replace (S i + 3 - offset)%nat with (1 + (i / 3 + 1) * 3)%nat by lia;
        rewrite Nat.Div0.mod_add; done).
  replace ((S (S i) + 3 - offset) mod 3 =? 0)%nat with false
    by (symmetry; apply Nat.eqb_neq; pose proof (Nat.div_mod_eq i 3);
        replace (S (S i) + 3 - offset)%nat with (2 + (i / 3 + 1) * 3)%nat by lia;
        rewrite Nat.Div0.mod_add; done).
  replace (i =? 0)%nat with false by (symmetry; apply Nat.eqb_neq; lia). cbn [andb negb Nat.eqb].
  cbn [str_all] in Hd. rewrite !andb_true_iff in Hd. destruct Hd as (Ha & Hb & Hc & _).
  rewrite !encode_digit by done. done.
Qed.
Lemma split_last_three s n : String.length s = (n + 3)%nat ->
  exists s' a b c, s = s' +:+ String a (String b (String c "")) /\ String.length s' = n.
Proof.
  revert s. induction n as [|n IH]; intros s Hs.
  - destruct s as [|a [|b [|c [|d s]]]]; try discriminate. by exists "", a, b, c.
  - destruct s as [|x s]; [discriminate|]. simpl in Hs.
    destruct (IH s) as (s' & a & b & c & -> & Hl); [congruence|].
    exists (String x s'), a, b, c. split; [done|]. simpl. by rewrite Hl.
Qed.

Lemma bytes_app s1 s2 : bytes (s1 +:+ s2) = (bytes s1 ++ bytes s2)%list.
Proof. induction s1 as [|a s1 IH]; simpl; [done|]. by rewrite IH. Qed.

Lemma join_snoc sep l s : l <> [] -> join sep (l ++ [s]) = join sep l +:+ sep +:+ s.
Proof.
  intros Hne. induction l as [|t l IH]; [done|]. destruct l as [|u l]; [done|].
  change ((t :: u :: l) ++ [s])%list with (t :: (u :: l) ++ [s])%list.
  rewrite !join_cons by (try apply app_cons_not_nil; done). rewrite IH by done.
  by rewrite !str_app_assoc.
Qed.

Lemma thousands_nonempty gs : thousands gs -> gs <> [].
Proof. intros [g Hg|gs' g Hgs Hl]; [done|]. by destruct gs'. Qed.

Lemma group_loop_groups n s :
  (String.length s <= n)%nat -> s <> "" -> str_all is_digit s = true ->
  exists gs, thousands gs /\ concat_str gs = s
    /\ group_loop (String.length s mod 3) 0 (bytes s) = join sep_str gs.
Proof.
  revert s. induction n as [|n IH]; intros s Hn Hne Hd.
  { destruct s; simpl in *; [done|lia]. }
  destruct (decide (String.length s <= 3)%nat) as [Hs|Hs].
  - exists [s]. split; [constructor; destruct s; simpl in *; [done|lia]|]. split; [done|].
    cbn [str_all] in Hd. destruct s as [|a [|b [|c [|d s]]]]; try done; [..|simpl in Hs; lia];
      cbn [str_all] in Hd; rewrite !andb_true_iff in Hd; simpl;
      rewrite !encode_digit by naive_solver; done.
  - destruct (split_last_three s (String.length s - 3)) as (s' & a & b & c & E & Hl); [lia|].
    rewrite E, str_all_app in Hd. apply andb_true_iff in Hd as [Hd' Hd3].
    assert (Hmod : (String.length s mod 3 = String.length s' mod 3)%nat).
    { rewrite Hl. replace (String.length s) with (String.length s - 3 + 1 * 3)%nat at 1 by lia.
      by rewrite Nat.Div0.mod_add. }
    destruct (IH s') as (gs & Hgs & Hc & Hg); [lia| |done|].
    { intros ->. simpl in Hl. lia. }
    pose proof (thousands_nonempty _ Hgs).
    exists (gs ++ [String a (String b (String c ""))])%list. split; [by constructor|].
    unfold concat_str in *. rewrite !join_snoc, Hc by done. split; [done|].
    rewrite Hmod, E, bytes_app, group_loop_app, Hg. cbn [Nat.add].
    rewrite bytes_length, group_loop_three; [done|lia| |done|done].
    pose proof (Nat.mod_upper_bound (String.length s') 3). lia.
Qed.

(** A number: an optional sign, digits, and what follows a point. *)
Definition numeral (sign digits rest : string) : Prop :=
  (sign = "" \/ sign = "-" \/ sign = "+") /\ digits <> "" /\ str_all is_digit digits = true
  /\ (rest = "" \/ exists frac, rest = String "." frac).

(** [group_thousands] changes no digit: the sign and the decimals stay,
    and the whole part is its own digits cut by thousands from the right,
    a narrow no-break space between two groups and nowhere else. *)
Lemma group_thousands_groups sign digits rest : numeral sign digits rest ->
  exists groups, thousands groups /\ concat_str groups = digits
    /\ group_thousands (sign +:+ digits +:+ rest) = sign +:+ join sep_str groups +:+ rest.
Proof.
  intros (Hsign & Hne & Hd & Hrest).
  assert (Hlack : lacks "." (sign +:+ digits) = true).
  { unfold lacks. rewrite str_all_app. apply andb_true_iff.
    split; [by destruct Hsign as [->|[->| ->]]|by apply digits_lack]. }
  destruct (group_loop_groups (String.length digits) digits) as (gs & Hgs & Hc & Hg); [done..|].
  exists gs. split; [done|]. split; [done|]. unfold group_thousands.
  assert (match split_at_char "." (sign +:+ digits +:+ rest) with
          | Some (l, r) => (l, r) | None => (sign +:+ digits +:+ rest, "") end
          = (sign +:+ digits, rest)) as ->.
  { rewrite <- str_app_assoc. destruct Hrest as [->|[frac ->]].
    - by rewrite str_app_nil_r, split_at_char_lacks.
    - by rewrite split_at_char_app. }
  assert (strip_sign (sign +:+ digits) = (sign, digits)) as ->.
  { destruct Hsign as [->|[->| ->]]; [|done..]. destruct digits as [|d digits]; [done|].
    cbn [str_all] in Hd. apply andb_true_iff in Hd as [Hd _]. simpl.
    destruct d as [[] [] [] [] [] [] [] []]; done. }
  rewrite chars_ascii by (eapply str_all_impl; [apply is_digit_ascii|done]).
  by rewrite Hg.
Qed.

Example format_btc_ex : format_btc 123456 = "0.00123456".
Proof. reflexivity. Qed.
Example group_ex : group_thousands "1234567.00123456" = join sep_str ["1"; "234"; "567.00123456"].
Proof. reflexivity. Qed.
