(* ===== verification/Errors.v ===== *)
(** [error.rs]: the errors of the core, their words and the stable codes
    the apps decide on. *)
From S2P Require Import Prelude Text.

Inductive ErrorCode :=
| EC_UnrecognizedInput
| EC_PrivateMaterial
| EC_InvalidInput
| EC_TooManyParts
| EC_NetworkMismatch
| EC_WalletNotFound
| EC_DuplicateWallet
| EC_WrongKey
| EC_VaultInUse
| EC_Vault
| EC_UnreadableBackup
| EC_NewerFormat
| EC_Sync
| EC_FalseProof
| EC_Broadcast
| EC_BackendUnavailable
| EC_Tor
| EC_Descriptor
| EC_Internal.

#[export] Instance ErrorCode_eq_dec : EqDecision ErrorCode.
Proof. solve_decision. Defined.

Module ErrorCode.
Definition ALL : list ErrorCode :=
  [EC_UnrecognizedInput; EC_PrivateMaterial; EC_InvalidInput; EC_TooManyParts; EC_NetworkMismatch; EC_WalletNotFound; EC_DuplicateWallet; EC_WrongKey; EC_VaultInUse; EC_Vault; EC_UnreadableBackup; EC_NewerFormat; EC_Sync; EC_FalseProof; EC_Broadcast; EC_BackendUnavailable; EC_Tor; EC_Descriptor; EC_Internal].

Definition as_str (c : ErrorCode) : string :=
  match c with
  | EC_UnrecognizedInput => "unrecognized_input"
  | EC_PrivateMaterial => "private_material"
  | EC_InvalidInput => "invalid_input"
  | EC_TooManyParts => "too_many_parts"
  | EC_NetworkMismatch => "network_mismatch"
  | EC_WalletNotFound => "wallet_not_found"
  | EC_DuplicateWallet => "duplicate_wallet"
  | EC_WrongKey => "wrong_key"
  | EC_VaultInUse => "vault_in_use"
  | EC_Vault => "vault"
  | EC_UnreadableBackup => "unreadable_backup"
  | EC_NewerFormat => "newer_format"
  | EC_Sync => "sync"
  | EC_FalseProof => "false_proof"
  | EC_Broadcast => "broadcast"
  | EC_BackendUnavailable => "backend_unavailable"
  | EC_Tor => "tor"
  | EC_Descriptor => "descriptor"
  | EC_Internal => "internal"
  end.
End ErrorCode.

(** Errors of the encrypted vault store. An [Io] error carries the words
    of the system. *)
Inductive VaultError :=
| Io (words : string)
| AlreadyOpen
| NotAVault
| UnsupportedVersion (version : Z)
| UnsupportedKdf (kdf : Z)
| WrongKeyOrCorrupted
| CorruptedPayload (detail : string)
| Kdf (detail : string).

Inductive CoreError :=
| UnrecognizedInput (detail : string)
| PrivateMaterialRejected
| InvalidInput (kind detail : string)
| TooManyParts (count : Z)
| TooManyFrames (count : Z)
| NetworkMismatch (expected found : string)
| WalletNotFound (id : string)
| DuplicateWallet (name : string)
| Vault (error : VaultError)
| UnreadableBackup (detail : string)
| NewerBackup (detail : string)
| Sync (backend detail : string)
| FalseProof (backend detail : string)
| Broadcast (backend detail : string)
| BackendUnavailable (detail : string)
| Tor (detail : string)
| Descriptor (detail : string)
| Internal (detail : string).

Abbreviation CoreResult A := (result A CoreError).

Definition vault_code (e : VaultError) : ErrorCode :=
  match e with
  | WrongKeyOrCorrupted => EC_WrongKey
  | AlreadyOpen => EC_VaultInUse
  | UnsupportedVersion _ | UnsupportedKdf _ => EC_NewerFormat
  | Io _ | NotAVault | CorruptedPayload _ | Kdf _ => EC_Vault
  end.

Definition code (e : CoreError) : ErrorCode :=
  match e with
  | UnrecognizedInput _ => EC_UnrecognizedInput
  | PrivateMaterialRejected => EC_PrivateMaterial
  | InvalidInput _ _ => EC_InvalidInput
  | TooManyParts _ | TooManyFrames _ => EC_TooManyParts
  | NetworkMismatch _ _ => EC_NetworkMismatch
  | WalletNotFound _ => EC_WalletNotFound
  | DuplicateWallet _ => EC_DuplicateWallet
  | Vault error => vault_code error
  | UnreadableBackup _ => EC_UnreadableBackup
  | NewerBackup _ => EC_NewerFormat
  | Sync _ _ => EC_Sync
  | FalseProof _ _ => EC_FalseProof
  | Broadcast _ _ => EC_Broadcast
  | BackendUnavailable _ => EC_BackendUnavailable
  | Tor _ => EC_Tor
  | Descriptor _ => EC_Descriptor
  | Internal _ => EC_Internal
  end.

(** [input::qr::DAMAGED_KIND]. *)
Definition DAMAGED_KIND : string := "qr frame".

Definition invalid_input (kind detail : string) : string :=
  if bool_decide (kind = "qr") || bool_decide (kind = DAMAGED_KIND) then detail
  else "invalid " +:+ kind +:+ ": " +:+ detail.

(** The words of each error, as its [Display] writes them. *)
Definition vault_words (e : VaultError) : string :=
  match e with
  | Io words => "vault i/o error: " +:+ words
  | AlreadyOpen => "the vault is already open in another Gerfaut process"
  | NotAVault => "not a vault file"
  | UnsupportedVersion v => "vault version " +:+ dec v +:+ " is not supported by this build"
  | UnsupportedKdf k => "vault key profile " +:+ dec k +:+ " is not supported by this build"
  | WrongKeyOrCorrupted => "vault decryption failed: wrong key or corrupted file"
  | CorruptedPayload d => "vault payload is corrupted: " +:+ d
  | Kdf d => "key derivation failed: " +:+ d
  end.

Definition words (e : CoreError) : string :=
  match e with
  | UnrecognizedInput d => "unrecognized input: " +:+ d
  | PrivateMaterialRejected => "input contains private key material and was rejected"
  | InvalidInput kind detail => invalid_input kind detail
  | TooManyParts n => "This QR code announces " +:+ dec n +:+ " parts, more than Gerfaut reads."
  | TooManyFrames n =>
    dec n +:+ " frames were scanned without the code coming together, more than Gerfaut reads."
  | NetworkMismatch expected found =>
    "network mismatch: input is for " +:+ found +:+ ", expected " +:+ expected
  | WalletNotFound id => "wallet not found: " +:+ id
  | DuplicateWallet name => "wallet already exists: " +:+ name
  | Vault error => vault_words error
  | UnreadableBackup d | NewerBackup d => "invalid backup: " +:+ d
  | Sync backend d | FalseProof backend d => "sync failed via " +:+ backend +:+ ": " +:+ d
  | Broadcast backend d => backend +:+ " refused the transaction: " +:+ d
  | BackendUnavailable d => "backend unavailable: " +:+ d
  | Tor d => "tor: " +:+ d
  | Descriptor d => "descriptor error: " +:+ d
  | Internal d => "internal error: " +:+ d
  end.

(** Every code has a name of its own, and the list the bridges are
    tested against holds each code once and all of them: two failures the
    apps tell apart never cross as the same [kind]. *)
Lemma error_codes_distinct :
  NoDup (List.map ErrorCode.as_str ErrorCode.ALL) /\ (forall c, In c ErrorCode.ALL)
  /\ (forall c d, ErrorCode.as_str c = ErrorCode.as_str d -> c = d).
Proof.
  split_and!.
  - refine (bool_decide_unpack _ _). vm_compute. exact I.
  - intros []; vm_compute; tauto.
  - intros [] []; vm_compute; congruence.
Qed.

(** A wrong key is what a screen asks a password again for: no other
    failure carries that code, and the codes of a file written by a newer
    Gerfaut name nothing else. *)
Lemma wrong_key_only e :
  (code e = EC_WrongKey <-> e = Vault WrongKeyOrCorrupted)
  /\ (code e = EC_NewerFormat <->
      (exists d, e = NewerBackup d) \/ (exists v, e = Vault (UnsupportedVersion v))
      \/ (exists k, e = Vault (UnsupportedKdf k))).
Proof.
  split; split.
  - destruct e as [| | | | | | | |[]| | | | | | | | |]; simpl; congruence.
  - by intros ->.
  - destruct e as [| | | | | | | |[]| | | | | | | | |]; simpl; intros [=]; eauto.
  - intros [[d ->]|[[v ->]|[k ->]]]; done.
Qed.
