(* ===== verification/Price.v ===== *)
(** [price.rs]: the price sources, the table the settings show, and the
    series behind a price chart. The requests themselves are the network's
    and are not modelled: what they bring is an argument. A rate is an
    [f64], held as the [spec_float] of the standard library. *)
From S2P Require Import Prelude Text Errors.
From Stdlib Require Import SpecFloat.

Inductive PriceSource := Coingecko | MempoolSpace.
Inductive PriceRange := Day | Week | Month | Year | Max.
Inductive CurrencyReach := Every | CoingeckoOnly.
Inductive FiatCurrency :=
| Eur
| Usd
| Gbp
| Chf
| Jpy
| Cad
| Aud
| Inr
| Cny
| Brl
| Ngn
| Idr
| Pkr
| Bdt
| Rub
| Mxn
| Php
| Vnd
| Try
| Ars
| Krw
| Zar
| Thb
| Uah
| Pln
| Sek
| Sgd
| Hkd
| Aed
| Nzd.

#[export] Instance PriceSource_eq_dec : EqDecision PriceSource.
Proof. solve_decision. Defined.
#[export] Instance PriceRange_eq_dec : EqDecision PriceRange.
Proof. solve_decision. Defined.
#[export] Instance CurrencyReach_eq_dec : EqDecision CurrencyReach.
Proof. solve_decision. Defined.

Module FiatCurrency.
Definition ALL : list FiatCurrency :=
  [Eur; Usd; Gbp; Chf; Jpy; Cad; Aud; Inr; Cny; Brl; Ngn; Idr; Pkr; Bdt; Rub; Mxn; Php; Vnd; Try; Ars; Krw; Zar; Thb; Uah; Pln; Sek; Sgd; Hkd; Aed; Nzd].

Definition code (c : FiatCurrency) : string :=
  match c with
  | Eur => "EUR"
  | Usd => "USD"
  | Gbp => "GBP"
  | Chf => "CHF"
  | Jpy => "JPY"
  | Cad => "CAD"
  | Aud => "AUD"
  | Inr => "INR"
  | Cny => "CNY"
  | Brl => "BRL"
  | Ngn => "NGN"
  | Idr => "IDR"
  | Pkr => "PKR"
  | Bdt => "BDT"
  | Rub => "RUB"
  | Mxn => "MXN"
  | Php => "PHP"
  | Vnd => "VND"
  | Try => "TRY"
  | Ars => "ARS"
  | Krw => "KRW"
  | Zar => "ZAR"
  | Thb => "THB"
  | Uah => "UAH"
  | Pln => "PLN"
  | Sek => "SEK"
  | Sgd => "SGD"
  | Hkd => "HKD"
  | Aed => "AED"
  | Nzd => "NZD"
  end.

Definition name (c : FiatCurrency) : string :=
  match c with
  | Eur => "Euro"
  | Usd => "US dollar"
  | Gbp => "Pound sterling"
  | Chf => "Swiss franc"
  | Jpy => "Japanese yen"
  | Cad => "Canadian dollar"
  | Aud => "Australian dollar"
  | Inr => "Indian rupee"
  | Cny => "Chinese yuan"
  | Brl => "Brazilian real"
  | Ngn => "Nigerian naira"
  | Idr => "Indonesian rupiah"
  | Pkr => "Pakistani rupee"
  | Bdt => "Bangladeshi taka"
  | Rub => "Russian ruble"
  | Mxn => "Mexican peso"
  | Php => "Philippine peso"
  | Vnd => "Vietnamese dong"
  | Try => "Turkish lira"
  | Ars => "Argentine peso"
  | Krw => "South Korean won"
  | Zar => "South African rand"
  | Thb => "Thai baht"
  | Uah => "Ukrainian hryvnia"
  | Pln => "Polish zloty"
  | Sek => "Swedish krona"
  | Sgd => "Singapore dollar"
  | Hkd => "Hong Kong dollar"
  | Aed => "UAE dirham"
  | Nzd => "New Zealand dollar"
  end.

Definition reach (c : FiatCurrency) : CurrencyReach :=
  match c with
  | Eur => Every
  | Usd => Every
  | Gbp => Every
  | Chf => Every
  | Jpy => Every
  | Cad => Every
  | Aud => Every
  | Inr => CoingeckoOnly
  | Cny => CoingeckoOnly
  | Brl => CoingeckoOnly
  | Ngn => CoingeckoOnly
  | Idr => CoingeckoOnly
  | Pkr => CoingeckoOnly
  | Bdt => CoingeckoOnly
  | Rub => CoingeckoOnly
  | Mxn => CoingeckoOnly
  | Php => CoingeckoOnly
  | Vnd => CoingeckoOnly
  | Try => CoingeckoOnly
  | Ars => CoingeckoOnly
  | Krw => CoingeckoOnly
  | Zar => CoingeckoOnly
  | Thb => CoingeckoOnly
  | Uah => CoingeckoOnly
  | Pln => CoingeckoOnly
  | Sek => CoingeckoOnly
  | Sgd => CoingeckoOnly
  | Hkd => CoingeckoOnly
  | Aed => CoingeckoOnly
  | Nzd => CoingeckoOnly
  end.

(** A currency is its code: the codes differ. *)
Lemma code_inj c d : code c = code d -> c = d.
Proof. destruct c; destruct d; vm_compute; congruence. Qed.
End FiatCurrency.

#[export] Instance FiatCurrency_eq_dec : EqDecision FiatCurrency.
Proof. solve_decision. Defined.

Record Credit := { credit_text : string; credit_url : string }.

Module PriceSource.
Definition ALL : list PriceSource := [MempoolSpace; Coingecko].

Definition label (s : PriceSource) : string :=
  match s with Coingecko => "CoinGecko" | MempoolSpace => "mempool.space" end.

Definition credit (s : PriceSource) : option Credit :=
  match s with
  | Coingecko =>
    Some {| credit_text := "Powered by CoinGecko"; credit_url := "https://www.coingecko.com" |}
  | MempoolSpace => None
  end.

Definition supports_currency (s : PriceSource) (currency : FiatCurrency) : bool :=
  match s with
  | Coingecko => true
  | MempoolSpace => bool_decide (FiatCurrency.reach currency = Every)
  end.

Definition supports (s : PriceSource) (range : PriceRange) : bool :=
  match s with
  | Coingecko => negb (bool_decide (range = Max))
  | MempoolSpace => true
  end.
End PriceSource.

Module PriceRange.
Definition ALL : list PriceRange := [Day; Week; Month; Year; Max].

Definition cutoff_secs (r : PriceRange) : option Z :=
  match r with
  | Day => Some 86400
  | Week => Some (7 * 86400)
  | Month => Some (30 * 86400)
  | Year => Some (365 * 86400)
  | Max => None
  end.
End PriceRange.

(** ** The table of the settings *)

Definition REFRESH_SECS : Z := 60.

Record CurrencyEntry := {
  ce_currency : FiatCurrency;
  ce_code : string;
  ce_name : string;
  ce_reach : CurrencyReach;
  ce_sources : list PriceSource;
}.

Record SourceEntry := {
  se_source : PriceSource;
  se_label : string;
  se_ranges : list PriceRange;
  se_credit : option Credit;
}.

Record PriceTable := {
  currencies : list CurrencyEntry;
  sources : list SourceEntry;
  refresh_secs : Z;
}.

Definition price_table : PriceTable := {|
  currencies := List.map (fun currency => {|
      ce_currency := currency;
      ce_code := FiatCurrency.code currency;
      ce_name := FiatCurrency.name currency;
      ce_reach := FiatCurrency.reach currency;
      ce_sources :=
        List.filter (fun source => PriceSource.supports_currency source currency) PriceSource.ALL;
    |}) FiatCurrency.ALL;
  sources := List.map (fun source => {|
      se_source := source;
      se_label := PriceSource.label source;
      se_ranges := List.filter (fun range => PriceSource.supports source range) PriceRange.ALL;
      se_credit := PriceSource.credit source;
    |}) PriceSource.ALL;
  refresh_secs := REFRESH_SECS;
|}.

(** ** Refusals, before anything is sent *)

Definition price_error (detail : string) : CoreError := Sync "price" detail.

Definition check_quote (source : PriceSource) (currency : FiatCurrency) : CoreResult unit :=
  if negb (PriceSource.supports_currency source currency)
  then Err (price_error (PriceSource.label source +:+ " does not quote " +:+ FiatCurrency.code currency))
  else Ok tt.

Definition check_history (source : PriceSource) (currency : FiatCurrency) (range : PriceRange)
  : CoreResult unit :=
  if negb (PriceSource.supports source range)
  then Err (price_error (PriceSource.label source +:+ " cannot serve this range"))
  else check_quote source currency.

(** ** The series *)

Record PriceQuote := {
  pq_rate : spec_float;
  pq_currency : FiatCurrency;
  pq_source : PriceSource;
  pq_at : Z;
}.

Record PricePoint := { t : Z; rate : spec_float }.

Record PriceHistory := {
  points : list PricePoint;
  ph_currency : FiatCurrency;
  ph_source : PriceSource;
  ph_range : PriceRange;
  ph_at : Z;
}.

Definition MAX_POINTS : nat := 480.

(** [rate.is_finite() && rate > 0.0]. *)
Definition plausible (rate : spec_float) : bool :=
  match rate with S754_finite false _ _ => true | _ => false end.

(** The end of [fetch_price]: the rate an answer named, held to what a
    rate can be. *)
Definition quote_of (source : PriceSource) (currency : FiatCurrency) (rate : spec_float) (now : Z)
  (rate_words : string) : CoreResult PriceQuote :=
  if negb (plausible rate) then Err (price_error ("implausible rate " +:+ rate_words))
  else Ok {| pq_rate := rate; pq_currency := currency; pq_source := source; pq_at := now |}.

Definition closed_by (series : list PricePoint) (now : option PriceQuote) : list PricePoint :=
  match now with
  | Some now => series ++ [{| t := pq_at now; rate := pq_rate now |}]
  | None => series
  end.

(** [points[i * last / (max - 1)]] for the first [max - 1], then the last
    one: the index stays within the series, so the lookup never fails. *)
Definition thin_series {A} (points : list A) (max : nat) : list A :=
  match points with
  | [] => points
  | p0 :: _ =>
    if (length points <=? max)%nat || (max <? 2)%nat then points
    else
      let last := (length points - 1)%nat in
      List.map (fun i => nth (i * last / (max - 1)) points p0) (seq 0 (max - 1))
        ++ [nth last points p0]
  end.

Definition leb_t (a b : PricePoint) : bool := t a <=? t b.

(** [fetch_price_history] from the points the source gave to the chart. *)
Definition chart_points (range : PriceRange) (now : Z) (fetched : list PricePoint)
  : list PricePoint :=
  let points := retain (fun p => plausible (rate p)) fetched in
  let points := sort_by leb_t points in
  let points := dedup_by_key t points in
  let points :=
    match PriceRange.cutoff_secs range with
    | Some cutoff => let oldest := sat_sub now cutoff in retain (fun p => oldest <=? t p) points
    | None => points
    end in
  thin_series points MAX_POINTS.

(** ** The cache of mempool.space's series *)

Definition MEMPOOL_SERIES_SECS : Z := 3600.

Abbreviation SeriesCache := (list (FiatCurrency * Z * list PricePoint)).

Definition fresh (held : SeriesCache) (currency : FiatCurrency) (now : Z)
  : option (list PricePoint) :=
  match List.find (fun '(kept, at_, _) =>
      bool_decide (kept = currency) && (sat_sub now at_ <? MEMPOOL_SERIES_SECS)) held with
  | Some (_, _, series) => Some series
  | None => None
  end.

Definition keep (held : SeriesCache) (currency : FiatCurrency) (now : Z) (series : list PricePoint)
  : SeriesCache :=
  retain (fun '(kept, _, _) => negb (bool_decide (kept = currency))) held
    ++ [(currency, now, series)].

(** [mempool_series]: the cache while it holds, else [asked], kept. *)
Definition mempool_series (held : SeriesCache) (currency : FiatCurrency) (now : Z)
  (asked : CoreResult (list PricePoint)) : CoreResult (list PricePoint) * SeriesCache :=
  match fresh held currency now with
  | Some series => (Ok series, held)
  | None =>
    match asked with
    | Err e => (Err e, held)
    | Ok series => (Ok series, keep held currency now series)
    end
  end.

(** The points a source gives. CoinGecko's come with its answer; those of
    mempool.space are its series, closed by the price now when it came. *)
Definition source_points (held : SeriesCache) (source : PriceSource) (currency : FiatCurrency) (asked_at : Z)
  (answer : CoreResult (list PricePoint)) (price_now : CoreResult PriceQuote)
  : CoreResult (list PricePoint) * SeriesCache :=
  match source with
  | Coingecko => (answer, held)
  | MempoolSpace =>
    let '(series, held) := mempool_series held currency asked_at answer in
    (let? series := series in
     Ok (closed_by series (match price_now with Ok quote => Some quote | Err _ => None end)), held)
  end.

(** [fetch_price_history]: [answer] is what the source answers for its
    series once parsed, [price_now] what [fetch_price] returns,
    [asked_at] and [now] the clock when the series is asked for and when
    it is cut. *)
Definition fetch_price_history (held : SeriesCache) (source : PriceSource) (currency : FiatCurrency) (range : PriceRange)
  (asked_at now : Z) (answer : CoreResult (list PricePoint)) (price_now : CoreResult PriceQuote)
  : CoreResult PriceHistory * SeriesCache :=
  match check_history source currency range with
  | Err e => (Err e, held)
  | Ok _ =>
    let '(fetched, held) := source_points held source currency asked_at answer price_now in
    (let? raw := fetched in
     let points := chart_points range now raw in
     if (length points <? 2)%nat then Err (price_error "not enough points for a chart")
     else Ok {| points := points; ph_currency := currency; ph_source := source;
                ph_range := range; ph_at := now |}, held)
  end.

(** ** Properties *)

Section Thinning.
Context {A : Type}.

Lemma thin_index_lt last max i :
  (max <= last)%nat -> (2 <= max)%nat -> (i < max - 1)%nat ->
  (i * last / (max - 1) < last)%nat.
Proof. intros H1 H2 H3. apply Nat.Div0.div_lt_upper_bound. nia. Qed.

Lemma thin_index_mono last max i :
  (max <= last)%nat -> (2 <= max)%nat ->
  (i * last / (max - 1) < S i * last / (max - 1))%nat.
Proof.
  intros H1 H2. replace (S i * last)%nat with (i * last + last)%nat by lia.
  assert (i * last / (max - 1) + 1 <= (i * last + last) / (max - 1))%nat; [|lia].
  rewrite <- Nat.div_add by lia. apply Nat.Div0.div_le_mono. lia.
Qed.

(** A series is thinned to at most [max] points, each one a point of
    the series in its place, the first and the last kept; one already
    small enough is left as it is. *)
Lemma thin_series_spec (points : list A) (max : nat) : (2 <= max)%nat ->
  (length (thin_series points max) <= max)%nat
  /\ sublist (thin_series points max) points
  /\ list.head (thin_series points max) = list.head points
  /\ list.last (thin_series points max) = list.last points
  /\ ((length points <= max)%nat -> thin_series points max = points).
Proof.
  intros Hmax. unfold thin_series. destruct points as [|p0 ps] eqn:Ep; [by split_and!; auto; simpl; lia|].
  rewrite <- Ep. replace (max <? 2)%nat with false by lia. rewrite orb_false_r.
  destruct (Nat.leb_spec (length points) max) as [Hs|Hl]; [by split_and!|].
  set (n := (length points - 1)%nat).
  assert (Hidx : (List.map (fun i => nth (i * n / (max - 1)) points p0) (seq 0 (max - 1))
      ++ [nth n points p0])%list
    = List.map (fun i => nth i points p0)
        (List.map (fun i => (i * n / (max - 1))%nat) (seq 0 (max - 1)) ++ [n])).
  { by rewrite List.map_app, List.map_map. }
  assert (Hlt : forall i, (i < max - 1)%nat -> (i * n / (max - 1) < n)%nat).
  { intros i Hi. apply thin_index_lt; lia. }
  split_and!.
  - rewrite length_app, length_map, length_seq. simpl. lia.
  - rewrite Hidx. apply nth_sublist.
    + apply StronglySorted_snoc.
      * apply mono_seq_sorted. intros i. apply thin_index_mono; lia.
      * intros y (i & <- & Hi)%in_map_iff. apply in_seq in Hi. apply Hlt. lia.
    + intros i [(j & <- & Hj)%in_map_iff|[<-|[]]]%in_app_or; [|lia].
      apply in_seq in Hj. specialize (Hlt j). lia.
  - replace (max - 1)%nat with (S (max - 2)) by lia. cbn [seq List.map app list.head].
    by rewrite Nat.Div0.div_0_l, Ep.
  - rewrite last_snoc, last_lookup. unfold n.
    replace (length points - 1)%nat with (Nat.pred (length points)) by lia.
    rewrite nth_lookup. destruct (lookup_lt_is_Some_2 points (Nat.pred (length points))) as [x ->];
      [rewrite Ep; simpl; lia|done].
  - lia.
Qed.
End Thinning.

Example thin_series_ex : thin_series [1; 2; 3; 4; 5; 6; 7] 3 = [1; 4; 7].
Proof. reflexivity. Qed.

Lemma leb_t_total a b : leb_t a b = true \/ leb_t b a = true.
Proof. unfold leb_t. lia. Qed.

Lemma leb_t_trans a b c : leb_t a b = true -> leb_t b c = true -> leb_t a c = true.
Proof. unfold leb_t. lia. Qed.

(** What stands before the thinning: sorted, one point per second. *)
Lemma chart_prepared range now fetched :
  let kept := dedup_by_key t (sort_by leb_t (retain (fun p => plausible (rate p)) fetched)) in
  let points := match PriceRange.cutoff_secs range with
    | Some cutoff => retain (fun p => sat_sub now cutoff <=? t p) kept | None => kept end in
  StronglySorted (fun a b => t a < t b) points
  /\ forall p, In p points -> In p fetched /\ plausible (rate p) = true
     /\ forall cutoff, PriceRange.cutoff_secs range = Some cutoff -> sat_sub now cutoff <= t p.
Proof.
  set (sorted := sort_by leb_t _). cbv zeta.
  assert (Hs : StronglySorted (fun a b => t a <= t b) sorted).
  { pose proof (sort_by_sorted leb_t leb_t_total leb_t_trans
      (retain (fun p => plausible (rate p)) fetched)) as H. fold sorted in H.
    induction H as [|x l Hl IH Hx]; constructor; [done|].
    eapply List.Forall_impl; [|exact Hx]. unfold leb_t. simpl. lia. }
  destruct (dedup_by_key_sorted t sorted Hs) as [H1 H2].
  assert (H3 : forall p, In p (dedup_by_key t sorted) -> In p fetched /\ plausible (rate p) = true).
  { intros p Hp. specialize (H2 p Hp). by apply sort_by_In, retain_In in H2. }
  destruct (PriceRange.cutoff_secs range) as [cutoff|].
  - split.
    + eapply StronglySorted_sublist; [apply retain_sublist|done].
    + intros p [Hp Hc]%retain_In. destruct (H3 p Hp). split_and!; try done.
      intros ? [= <-]. lia.
  - split; [done|]. intros p Hp. destruct (H3 p Hp). by split_and!.
Qed.

Lemma chart_points_right range now raw :
  (length (chart_points range now raw) <= MAX_POINTS)%nat
  /\ StronglySorted (fun a b => t a < t b) (chart_points range now raw)
  /\ forall p, In p (chart_points range now raw) -> In p raw /\ plausible (rate p) = true
     /\ forall cutoff, PriceRange.cutoff_secs range = Some cutoff -> sat_sub now cutoff <= t p.
Proof.
  destruct (chart_prepared range now raw) as [Hsorted Hin].
  unfold chart_points in *. cbv zeta in *. set (prep := match PriceRange.cutoff_secs range with
    | Some _ => _ | None => _ end) in *.
  destruct (thin_series_spec prep MAX_POINTS ltac:(unfold MAX_POINTS; lia)) as (Hmax & Hsub & _).
  split; [done|]. split; [by eapply StronglySorted_sublist|].
  intros p Hp. apply Hin. by eapply sublist_In.
Qed.

(** A chart that is shown has at least two and at most 480 points, in
    strictly increasing time, each one a point the source sent (or its
    series kept from before, or the price now) with a finite positive
    rate, and none older than the range asked; a source is never asked
    for a range or a currency it does not serve. *)
Theorem chart_well_formed held source currency range asked_at now answer price_now history held' :
  fetch_price_history held source currency range asked_at now answer price_now = (Ok history, held') ->
  PriceSource.supports source range = true
  /\ PriceSource.supports_currency source currency = true
  /\ (2 <= length (points history) <= MAX_POINTS)%nat
  /\ StronglySorted (fun a b => t a < t b) (points history)
  /\ exists raw, source_points held source currency asked_at answer price_now = (Ok raw, held')
     /\ forall p, In p (points history) -> In p raw /\ plausible (rate p) = true
        /\ forall cutoff, PriceRange.cutoff_secs range = Some cutoff -> sat_sub now cutoff <= t p.
Proof.
  unfold fetch_price_history, check_history, check_quote.
  destruct (PriceSource.supports source range); simpl; [|done].
  destruct (PriceSource.supports_currency source currency); simpl; [|done].
  destruct (source_points _ _ _ _ _ _) as [[raw|] held'']; simpl; [|done].
  destruct (Nat.ltb_spec (length (chart_points range now raw)) 2) as [|Hlen]; [done|].
  intros [= <- <-]. simpl. destruct (chart_points_right range now raw) as (Hmax & Hsorted & Hin).
  split_and!; try done. exists raw. by split.
Qed.

Definition sample_rate : spec_float := S754_finite false 4503599627370496 0.
Definition sample_series : list PricePoint :=
  [{| t := 2000; rate := sample_rate |}; {| t := 1000; rate := sample_rate |};
   {| t := 1500; rate := S754_nan |}; {| t := 2000; rate := sample_rate |}].

Lemma chart_well_formed_witness : exists history held,
  fetch_price_history [] MempoolSpace Eur Day 3000 3000 (Ok sample_series)
    (Ok {| pq_rate := sample_rate; pq_currency := Eur; pq_source := MempoolSpace; pq_at := 3000 |}) = (Ok history, held)
  /\ (2 <= length (points history) <= MAX_POINTS)%nat.
Proof.
  eexists _, _. split; [vm_compute; reflexivity|].
  refine (proj1 (proj2 (proj2 (chart_well_formed [] MempoolSpace Eur Day 3000 3000 (Ok sample_series)
    (Ok {| pq_rate := sample_rate; pq_currency := Eur; pq_source := MempoolSpace; pq_at := 3000 |}) _ _ _)))).
  vm_compute. reflexivity.
Defined.

(** ** The cache *)

Definition cached (held : SeriesCache) : list FiatCurrency := List.map (fun '(c, _, _) => c) held.

Lemma find_fresh_other held currency other now series at_ :
  other <> currency ->
  fresh (keep held currency at_ series) other now = fresh held other now.
Proof.
  intros Hne. unfold fresh, keep.
  assert (List.find (fun '(kept, a, _) => bool_decide (kept = other) && (sat_sub now a <? MEMPOOL_SERIES_SECS))
    (retain (fun '(kept, _, _) => negb (bool_decide (kept = currency))) held ++ [(currency, at_, series)])
    = List.find (fun '(kept, a, _) => bool_decide (kept = other) && (sat_sub now a <? MEMPOOL_SERIES_SECS)) held)
    as ->; [|done].
  induction held as [|[[c a] s] held IH]; simpl.
  - by rewrite bool_decide_false by congruence.
  - destruct (decide (c = currency)) as [->|Hc].
    + rewrite bool_decide_true by done. simpl. by rewrite (bool_decide_false (currency = other)) by congruence.
    + rewrite (bool_decide_false (c = currency)) by done. simpl. by rewrite IH.
Qed.

(** The cache of whole series holds one series per currency, a series
    just kept is the one read for less than an hour, and keeping one
    currency changes nothing of what the others read. *)
Lemma series_cache_correct held currency now later series :
  NoDup (cached held) -> now <= later ->
  NoDup (cached (keep held currency now series))
  /\ fresh (keep held currency now series) currency later
     = (if later - now <? MEMPOOL_SERIES_SECS then Some series else None)
  /\ (forall other, other <> currency ->
      fresh (keep held currency now series) other later = fresh held other later).
Proof.
  intros Hnd Hle. split_and!.
  - unfold keep, cached. rewrite List.map_app. simpl.
    induction held as [|[[c a] s] held IH]; simpl in *; [apply list.NoDup_singleton|].
    apply list.NoDup_cons in Hnd as [Hc Hnd]. case_bool_decide as E; simpl; [auto|].
    apply list.NoDup_cons. split; [|auto]. rewrite elem_of_app, list_elem_of_singleton. intros [Hin|Hin]; [|done].
    apply Hc. apply list_elem_of_In in Hin. apply list_elem_of_In.
    apply in_map_iff in Hin as (x & <- & Hx). apply in_map_iff. exists x. split; [done|].
    by apply retain_In in Hx as [? _].
  - unfold fresh, keep.
    replace (sat_sub later now) with (later - now) by (unfold sat_sub; lia).
    induction held as [|[[c a] s] held IH]; simpl.
    + rewrite bool_decide_true by done. replace (sat_sub later now) with (later - now) by (unfold sat_sub; lia).
      by destruct (later - now <? MEMPOOL_SERIES_SECS).
    + apply list.NoDup_cons in Hnd as [_ Hnd]. case_bool_decide as E; simpl; [by apply IH|].
      rewrite bool_decide_false by done. by apply IH.
  - intros other Hne. by apply find_fresh_other.
Qed.

