(* ===== verification/Prefs.v ===== *)
(** [prefs.rs]: the preferences both apps keep, the rule that holds the
    currency and the price source together, and what is taken over from
    the app preferences of earlier builds. *)
From S2P Require Import Prelude Text Price.

Inductive Unit := Btc | Sats.

#[export] Instance Unit_eq_dec : EqDecision Unit.
Proof. solve_decision. Defined.

Record Preferences := {
  unit_ : Unit;
  masked : bool;
  fiat : bool;
  fiat_currency : FiatCurrency;
  price_source : PriceSource;
  notify_new_tx : bool;
  explorer_ack : bool;
}.

Definition default_preferences : Preferences := {|
  unit_ := Btc;
  masked := false;
  fiat := false;
  fiat_currency := Eur;
  price_source := MempoolSpace;
  notify_new_tx := false;
  explorer_ack := false;
|}.

(** The preferences as a record holds them: the same fields, the pair of
    currency and source not yet made one that exists. *)
Record Stored := {
  s_unit : Unit;
  s_masked : bool;
  s_fiat : bool;
  s_fiat_currency : FiatCurrency;
  s_price_source : PriceSource;
  s_notify_new_tx : bool;
  s_explorer_ack : bool;
}.

#[export] Instance Preferences_eq_dec : EqDecision Preferences.
Proof. solve_decision. Defined.

Record PreferencesChange := {
  c_unit : option Unit;
  c_masked : option bool;
  c_fiat : option bool;
  c_fiat_currency : option FiatCurrency;
  c_price_source : option PriceSource;
  c_notify_new_tx : option bool;
  c_explorer_ack : option bool;
}.

Definition QUOTES_EVERY_CURRENCY : PriceSource := Coingecko.

Definition quotable (p : Preferences) : Preferences :=
  if negb (PriceSource.supports_currency (price_source p) (fiat_currency p)) then
    {| unit_ := unit_ p; masked := masked p; fiat := fiat p; fiat_currency := fiat_currency p;
       price_source := QUOTES_EVERY_CURRENCY; notify_new_tx := notify_new_tx p;
       explorer_ack := explorer_ack p |}
  else p.

Definition change (p : Preferences) (c : PreferencesChange) : Preferences :=
  quotable {|
    unit_ := unwrap_or (c_unit c) (unit_ p);
    masked := unwrap_or (c_masked c) (masked p);
    fiat := unwrap_or (c_fiat c) (fiat p);
    fiat_currency := unwrap_or (c_fiat_currency c) (fiat_currency p);
    price_source := unwrap_or (c_price_source c) (price_source p);
    notify_new_tx := unwrap_or (c_notify_new_tx c) (notify_new_tx p);
    explorer_ack := unwrap_or (c_explorer_ack c) (explorer_ack p);
  |}.

Definition from_stored (s : Stored) : Preferences :=
  quotable {|
    unit_ := s_unit s; masked := s_masked s; fiat := s_fiat s;
    fiat_currency := s_fiat_currency s; price_source := s_price_source s;
    notify_new_tx := s_notify_new_tx s; explorer_ack := s_explorer_ack s |}.

(** ** What earlier builds kept *)

Definition LEGACY_UNIT := "display.unit".
Definition LEGACY_FIAT := "display.fiat".
Definition LEGACY_FIAT_CURRENCY := "display.fiat_currency".
Definition LEGACY_PRICE_SOURCE := "display.fiat_source".
Definition LEGACY_NOTIFY_NEW_TX := "notify.new_tx".
Definition LEGACY_EXPLORER_ACK := "privacy.explorer_ack".
Definition LEGACY_MASKED_DESKTOP := "desktop.masked".
Definition LEGACY_MASKED_MOBILE := "mobile.masked".

Definition LEGACY_KEYS : list string :=
  [LEGACY_UNIT; LEGACY_FIAT; LEGACY_FIAT_CURRENCY; LEGACY_PRICE_SOURCE;
   LEGACY_NOTIFY_NEW_TX; LEGACY_EXPLORER_ACK; LEGACY_MASKED_DESKTOP; LEGACY_MASKED_MOBILE].

Definition own_masked_first (android : bool) : list string :=
  if android then [LEGACY_MASKED_MOBILE; LEGACY_MASKED_DESKTOP]
  else [LEGACY_MASKED_DESKTOP; LEGACY_MASKED_MOBILE].

(** The names serde reads each enum under: snake case, and the alias a
    vault written before mempool.space may hold. *)
Definition unit_of_name (s : string) : option Unit :=
  if bool_decide (s = "btc") then Some Btc
  else if bool_decide (s = "sats") then Some Sats else None.

Definition source_of_name (s : string) : option PriceSource :=
  if bool_decide (s = "coingecko") then Some Coingecko
  else if bool_decide (s = "mempool_space") || bool_decide (s = "kraken") then Some MempoolSpace
  else None.

(** Every variant of [FiatCurrency] is its code in small letters. *)
Definition currency_of_name (s : string) : option FiatCurrency :=
  List.find (fun c => bool_decide (lower (FiatCurrency.code c) = s)) FiatCurrency.ALL.

Definition variant {A} (of_name : string -> option A) (app_prefs : gmap string string) (key : string)
  : option A :=
  match app_prefs !! key with Some value => of_name value | None => None end.

Definition switch (app_prefs : gmap string string) (key : string) : option bool :=
  (fun value => bool_decide (value = "1")) <$> app_prefs !! key.

Definition adopt_with (app_prefs : gmap string string) (masked_keys : list string)
  : Preferences * gmap string string :=
  let defaults := default_preferences in
  let adopted := quotable {|
      unit_ := unwrap_or (variant unit_of_name app_prefs LEGACY_UNIT) (unit_ defaults);
      masked := unwrap_or (find_map (switch app_prefs) masked_keys) (masked defaults);
      fiat := unwrap_or (switch app_prefs LEGACY_FIAT) (fiat defaults);
      fiat_currency :=
        unwrap_or (variant currency_of_name app_prefs LEGACY_FIAT_CURRENCY) (fiat_currency defaults);
      price_source :=
        unwrap_or (variant source_of_name app_prefs LEGACY_PRICE_SOURCE) (price_source defaults);
      notify_new_tx := unwrap_or (switch app_prefs LEGACY_NOTIFY_NEW_TX) (notify_new_tx defaults);
      explorer_ack := unwrap_or (switch app_prefs LEGACY_EXPLORER_ACK) (explorer_ack defaults);
    |} in
  (adopted, filter (fun kv => kv.1 ∉ LEGACY_KEYS) app_prefs).

Definition adopt (android : bool) (app_prefs : gmap string string)
  : Preferences * gmap string string :=
  adopt_with app_prefs (own_masked_first android).

(** ** Properties *)

(** A pair some source can quote. *)
Definition consistent (p : Preferences) : Prop :=
  PriceSource.supports_currency (price_source p) (fiat_currency p) = true.

Lemma quotable_consistent p : consistent (quotable p).
Proof. unfold quotable, consistent. by destruct (PriceSource.supports_currency (price_source p) _) eqn:E. Qed.

Lemma quotable_id p : consistent p -> quotable p = p.
Proof. unfold quotable, consistent. by intros ->. Qed.

Lemma unwrap_or_idem {A} (o : option A) d : unwrap_or o (unwrap_or o d) = unwrap_or o d.
Proof. by destruct o. Qed.

(** Applying the same change twice is applying it once: what it asks for
    is there already, and the source it gave way to quotes the currency. *)
Lemma change_idem p c : change (change p c) c = change p c.
Proof.
  unfold change at 1 3. set (q := Build_Preferences (unwrap_or (c_unit c) (unit_ p)) _ _ _ _ _ _).
  change (change p c) with (quotable q).
  destruct (PriceSource.supports_currency (price_source q) (fiat_currency q)) eqn:E.
  - rewrite (quotable_id q) by done. subst q. cbn. rewrite !unwrap_or_idem. by apply quotable_id.
  - unfold quotable at 2 3 4 5 6 7 8. rewrite E. cbn. subst q. cbn in *. rewrite !unwrap_or_idem.
    destruct (c_price_source c) as [s|]; cbn in *.
    + done.
    + unfold quotable. cbn. by rewrite E.
Qed.

(** Whatever a change asks, a stored record held or an earlier build
    kept, the preferences that come out pair the currency with a source
    that quotes it; the currency asked for wins, and the source is the one
    asked for whenever it quotes that currency. *)
Theorem preferences_quotable :
  (forall p c, consistent (change p c)
     /\ fiat_currency (change p c) = unwrap_or (c_fiat_currency c) (fiat_currency p)
     /\ (forall source, unwrap_or (c_price_source c) (price_source p) = source ->
          PriceSource.supports_currency source (fiat_currency (change p c)) = true ->
          price_source (change p c) = source)
     /\ change (change p c) c = change p c)
  /\ (forall s, consistent (from_stored s))
  /\ (forall android prefs, consistent (fst (adopt android prefs))).
Proof.
  split_and!; [|intros; apply quotable_consistent..].
  intros p c. assert (Hc : consistent (change p c)) by apply quotable_consistent.
  split; [done|]. unfold change, quotable. split; [by case_match|]. split.
  - intros source <- H. simpl in *.
    set (src := unwrap_or (c_price_source c) _) in *. set (cur := unwrap_or (c_fiat_currency c) _) in *.
    destruct (PriceSource.supports_currency src cur) eqn:E; simpl in *; congruence.
  - apply change_idem.
Qed.

Lemma quotable_switches p :
  fiat (quotable p) = fiat p /\ notify_new_tx (quotable p) = notify_new_tx p
  /\ explorer_ack (quotable p) = explorer_ack p /\ masked (quotable p) = masked p.
Proof. unfold quotable. by case_match. Qed.

Lemma switch_on prefs key : unwrap_or (switch prefs key) false = true <-> prefs !! key = Some "1".
Proof.
  unfold switch. destruct (prefs !! key) as [v|]; simpl; [|done].
  rewrite bool_decide_eq_true. split; congruence.
Qed.

(** The preferences taken over leave no key of theirs behind and touch
    no other one; a switch comes over on for an explicit 1 and for nothing
    else, and of the two keys of the masked amounts the app's own counts. *)
Lemma adopt_takes_legacy android prefs :
  let '(adopted, rest) := adopt android prefs in
  (forall key, rest !! key = if bool_decide (key ∈ LEGACY_KEYS) then None else prefs !! key)
  /\ (fiat adopted = true <-> prefs !! LEGACY_FIAT = Some "1")
  /\ (notify_new_tx adopted = true <-> prefs !! LEGACY_NOTIFY_NEW_TX = Some "1")
  /\ (explorer_ack adopted = true <-> prefs !! LEGACY_EXPLORER_ACK = Some "1")
  /\ (let own := if android then LEGACY_MASKED_MOBILE else LEGACY_MASKED_DESKTOP in
      let other := if android then LEGACY_MASKED_DESKTOP else LEGACY_MASKED_MOBILE in
      masked adopted = true <->
        prefs !! own = Some "1" \/ (prefs !! own = None /\ prefs !! other = Some "1")).
Proof.
  unfold adopt, adopt_with. cbv zeta.
  destruct (quotable_switches {|
    unit_ := unwrap_or (variant unit_of_name prefs LEGACY_UNIT) (unit_ default_preferences);
    masked := unwrap_or (find_map (switch prefs) (own_masked_first android)) (masked default_preferences);
    fiat := unwrap_or (switch prefs LEGACY_FIAT) (fiat default_preferences);
    fiat_currency := unwrap_or (variant currency_of_name prefs LEGACY_FIAT_CURRENCY)
      (fiat_currency default_preferences);
    price_source := unwrap_or (variant source_of_name prefs LEGACY_PRICE_SOURCE)
      (price_source default_preferences);
    notify_new_tx := unwrap_or (switch prefs LEGACY_NOTIFY_NEW_TX) (notify_new_tx default_preferences);
    explorer_ack := unwrap_or (switch prefs LEGACY_EXPLORER_ACK) (explorer_ack default_preferences) |})
    as (-> & -> & -> & ->).
  split_and!; [|apply switch_on..|].
  - intros key. case_bool_decide as Hk.
    + apply map_lookup_filter_None. right. intros v _ Hn. by apply Hn.
    + destruct (prefs !! key) as [v|] eqn:E.
      * by apply map_lookup_filter_Some.
      * apply map_lookup_filter_None. by left.
  - destruct android; cbn -[lookup]; unfold switch;
      destruct (prefs !! LEGACY_MASKED_MOBILE) as [m|] eqn:Em;
      destruct (prefs !! LEGACY_MASKED_DESKTOP) as [d|] eqn:Ed; cbn;
      rewrite ?bool_decide_eq_true; naive_solver.
Qed.
