(* ===== verification/Updates.v ===== *)
(** [updates.rs]: versions as Semantic Versioning reads and orders them,
    and the record that decides when a check is due and which release is
    announced. The request to GitHub is the network's; its tag is an
    argument. *)
From S2P Require Import Prelude Text.
From Stdlib Require Import Ascii.

(** One identifier of a pre-release. *)
Inductive Identifier :=
| Numeric (n : Z)
| Alphanumeric (w : string).

Record Version := { numbers : Z * Z * Z; pre : list Identifier }.

#[export] Instance Identifier_eq_dec : EqDecision Identifier.
Proof. solve_decision. Defined.
#[export] Instance Version_eq_dec : EqDecision Version.
Proof. solve_decision. Defined.

Definition TAG_MAX : nat := 32.

Definition is_alphanumeric (a : ascii) : bool :=
  (is_digit a || ((65 <=? byte_of a) && (byte_of a <=? 90))
   || ((97 <=? byte_of a) && (byte_of a <=? 122)))%N.

(** [text.parse::<u64>()] of a text of digits: refused past the type. *)
Definition parse_u64 (text : string) : option Z :=
  let n := dec_value 0 text in if n <=? u64_max then Some n else None.

Definition number (text : string) : option Z :=
  let digits := negb (bool_decide (text = "")) && str_all is_digit text in
  if negb digits || ((1 <? String.length text)%nat && match text with String "0" _ => true | _ => false end)
  then None
  else parse_u64 text.

Definition word (text : string) : option string :=
  if negb (bool_decide (text = "")) && str_all (fun b => is_alphanumeric b || (b =? "-")%char) text
  then Some text else None.

Definition identifier (text : string) : option Identifier :=
  match word text with
  | None => None
  | Some text => if str_all is_digit text then Numeric <$> number text else Some (Alphanumeric text)
  end.

(** [Version::parse]. *)
Definition parse (text : string) : option Version :=
  if (TAG_MAX <? String.length text)%nat then None else
  let text := unwrap_or (strip_prefix "v" text) text in
  let '(text, build) :=
    match split_once "+" text with Some (text, build) => (text, Some build) | None => (text, None) end in
  if match build with
     | Some build => negb (all (fun part => match word part with Some _ => true | None => false end) (split "." build))
     | None => false
     end then None else
  let '(core, pre) :=
    match split_once "-" text with Some (core, pre) => (core, Some pre) | None => (text, None) end in
  match split "." core with
  | [a; b; c] =>
    match number a, number b, number c with
    | Some major, Some minor, Some patch =>
      match pre with
      | None => Some {| numbers := (major, minor, patch); pre := [] |}
      | Some pre =>
        match collect_opt (List.map identifier (split "." pre)) with
        | Some ids => Some {| numbers := (major, minor, patch); pre := ids |}
        | None => None
        end
      end
    | _, _, _ => None
    end
  | _ => None
  end.

Definition is_release (v : Version) : bool := match pre v with [] => true | _ => false end.

(** [str]'s order: byte by byte, a prefix first. *)
Fixpoint str_cmp (s t : string) : comparison :=
  match s, t with
  | "", "" => Eq
  | "", _ => Lt
  | _, "" => Gt
  | String a s, String b t =>
    match (byte_of a ?= byte_of b)%N with Eq => str_cmp s t | c => c end
  end.

(** The order of the variants of [Identifier]. *)
Definition identifier_cmp (a b : Identifier) : comparison :=
  match a, b with
  | Numeric n, Numeric m => n ?= m
  | Numeric _, Alphanumeric _ => Lt
  | Alphanumeric _, Numeric _ => Gt
  | Alphanumeric v, Alphanumeric w => str_cmp v w
  end.

(** The order of a [Vec]: entry by entry, a prefix first. *)
Definition pre_cmp : list Identifier -> list Identifier -> comparison := list_cmp identifier_cmp.

Definition numbers_cmp (a b : Z * Z * Z) : comparison :=
  let '(a1, a2, a3) := a in let '(b1, b2, b3) := b in
  then_with (a1 ?= b1) (then_with (a2 ?= b2) (a3 ?= b3)).

Definition version_cmp (a b : Version) : comparison :=
  then_with (numbers_cmp (numbers a) (numbers b))
    match pre a, pre b with
    | [], [] => Eq
    | [], _ => Gt
    | _, [] => Lt
    | p, q => pre_cmp p q
    end.

Definition version_gt (a b : Version) : bool :=
  match version_cmp a b with Gt => true | _ => false end.

Definition show_identifier (i : Identifier) : string :=
  match i with Numeric n => dec n | Alphanumeric w => w end.

(** [Display]: [MAJOR.MINOR.PATCH], then the identifiers after a hyphen,
    a point between two. *)
Definition show (v : Version) : string :=
  let '(major, minor, patch) := numbers v in
  dec major +:+ "." +:+ dec minor +:+ "." +:+ dec patch +:+
  match pre v with
  | [] => ""
  | i :: ids =>
    "-" +:+ show_identifier i +:+
    foldr (fun i rest => "." +:+ show_identifier i +:+ rest) "" ids
  end.

(** ** The record *)

Definition CHECK_EVERY : Z := 24 * 60 * 60.
Definition NO_RIGHT_CLOCK_BEFORE : Z := 1792108800.

Record UpdateStatus := {
  us_automatic : bool;
  announce : option string;
  available : option string;
  us_tor_unavailable : bool;
}.

Record UpdateRecord := {
  automatic : bool;
  first_session_at : option Z;
  checked_at : option Z;
  latest : option string;
  dismissed : option string;
  tor_unavailable : bool;
}.

#[export] Instance UpdateRecord_eq_dec : EqDecision UpdateRecord.
Proof. solve_decision. Defined.

Definition default_record : UpdateRecord := {|
  automatic := true; first_session_at := None; checked_at := None;
  latest := None; dismissed := None; tor_unavailable := false |}.

Definition is_some_and {A} (f : A -> bool) (o : option A) : bool :=
  match o with Some a => f a | None => false end.
Definition is_none_or {A} (f : A -> bool) (o : option A) : bool :=
  match o with Some a => f a | None => true end.

Definition due (r : UpdateRecord) (now : Z) : bool :=
  let recent (o : option Z) := is_some_and (fun at_ => (at_ <=? now) && (now - at_ <? CHECK_EVERY)) o in
  let first_day :=
    is_none_or (fun at_ => (at_ >? now) || (now - at_ <? CHECK_EVERY)) (first_session_at r) in
  automatic r && negb first_day && negb (recent (checked_at r)).

Definition set_first_session (r : UpdateRecord) (at_ : option Z) : UpdateRecord :=
  {| automatic := automatic r; first_session_at := at_; checked_at := checked_at r;
     latest := latest r; dismissed := dismissed r; tor_unavailable := tor_unavailable r |}.

Definition session_at (r : UpdateRecord) (now : Z) : UpdateRecord :=
  if now <? NO_RIGHT_CLOCK_BEFORE then r
  else if is_none_or (fun at_ => at_ >? now) (first_session_at r)
  then set_first_session r (Some now) else r.

Definition filter_opt {A} (f : A -> bool) (o : option A) : option A :=
  match o with Some a => if f a then Some a else None | None => None end.

Definition available_version (r : UpdateRecord) (running : string) : option Version :=
  and_then (parse running) (fun running =>
    filter_opt (fun latest => is_release latest && version_gt latest running)
      (and_then (latest r) parse)).

Definition announced_version (r : UpdateRecord) (running : string) : option Version :=
  let closed := and_then (dismissed r) parse in
  filter_opt (fun latest => is_none_or (fun closed => version_gt latest closed) closed)
    (available_version r running).

Definition status (r : UpdateRecord) (running : string) : UpdateStatus := {|
  us_automatic := automatic r;
  announce := show <$> announced_version r running;
  available := show <$> available_version r running;
  us_tor_unavailable := tor_unavailable r |}.

Definition answered (r : UpdateRecord) (tag : string) : UpdateRecord :=
  {| automatic := automatic r; first_session_at := first_session_at r; checked_at := checked_at r;
     latest := show <$> filter_opt is_release (parse tag);
     dismissed := dismissed r; tor_unavailable := tor_unavailable r |}.

Definition dismiss (r : UpdateRecord) (version : Version) : UpdateRecord :=
  let closed := and_then (dismissed r) parse in
  if is_none_or (fun closed => version_gt version closed) closed then
    {| automatic := automatic r; first_session_at := first_session_at r; checked_at := checked_at r;
       latest := latest r; dismissed := Some (show version); tor_unavailable := tor_unavailable r |}
  else r.

Definition is_graphic (a : ascii) : bool := (33 <=? byte_of a)%N && (byte_of a <=? 126)%N.

(** [read_tag]: the tag an answer names, held to what a tag looks like. *)
Definition read_tag (tag_name : option string) : option string :=
  filter_opt (fun tag => negb (bool_decide (tag = "")) && (String.length tag <=? TAG_MAX)%nat
    && str_all is_graphic tag) tag_name.

Example parse_ex : show <$> parse "v1.2.3-rc.1+build.5" = Some "1.2.3-rc.1".
Proof. reflexivity. Qed.

(** ** The order *)

Lemma str_cmp_bytes s t : str_cmp s t = list_cmp N.compare (bytes s) (bytes t).
Proof.
  revert t. induction s as [|a s IH]; intros [|b t]; simpl; try done.
  by destruct (byte_of a ?= byte_of b)%N.
Qed.

Lemma bytes_inj s t : bytes s = bytes t -> s = t.
Proof.
  revert t. induction s as [|a s IH]; intros [|b t]; simpl; try done.
  intros [= H1 H2]. f_equal; [|by apply IH].
  unfold byte_of in H1. by rewrite <- (ascii_N_embedding a), H1, ascii_N_embedding.
Qed.

#[export] Instance str_cmp_order : CmpOrder str_cmp.
Proof. apply (cmp_order_via bytes (list_cmp N.compare)); [apply str_cmp_bytes|apply bytes_inj]. Qed.

#[export] Instance identifier_cmp_order : CmpOrder identifier_cmp.
Proof.
  split.
  - intros [n|v] [m|w]; simpl; try done.
    + rewrite Z.compare_eq_iff. split; congruence.
    + rewrite cmp_eq. split; congruence.
  - intros [n|v] [m|w]; simpl; try done; [apply cmp_opp|by rewrite (cmp_opp (cmp := str_cmp))].
  - intros [n|v] [m|w] [k|x]; simpl; try done; apply cmp_trans.
Qed.

(** The pre-release part, a release last. *)
Definition pre_part_cmp (p q : list Identifier) : comparison :=
  match p, q with [], [] => Eq | [], _ => Gt | _, [] => Lt | p, q => pre_cmp p q end.

#[export] Instance pre_part_cmp_order : CmpOrder pre_part_cmp.
Proof.
  pose proof (list_cmp_order identifier_cmp) as [He Ho Ht]. split.
  - intros [|i p] [|j q]; [done..|]. apply He.
  - intros [|i p] [|j q]; [done..|]. apply Ho.
  - intros [|i p] [|j q] [|k r]; try done. apply Ht.
Qed.

Lemma numbers_cmp_pair a b :
  numbers_cmp a b = pair_cmp (pair_cmp Z.compare Z.compare) Z.compare a b.
Proof.
  destruct a as [[a1 a2] a3], b as [[b1 b2] b3]. unfold pair_cmp; simpl.
  unfold then_with. by destruct (a1 ?= b1).
Qed.

#[export] Instance numbers_cmp_order : CmpOrder numbers_cmp.
Proof. eapply (cmp_order_via id _); [apply numbers_cmp_pair|done]. Qed.

#[export] Instance version_cmp_order : CmpOrder version_cmp.
Proof.
  apply (cmp_order_via (fun v => (numbers v, pre v)) (pair_cmp numbers_cmp pre_part_cmp)).
  - intros [a p] [b q]. unfold version_cmp, pair_cmp. simpl. by destruct p, q.
  - intros [a p] [b q]. simpl. congruence.
Qed.

Lemma version_gt_trans u v w : version_gt u v = true -> version_gt v w = true -> version_gt u w = true.
Proof.
  unfold version_gt. intros Huv Hvw.
  rewrite (cmp_opp (cmp := version_cmp) w u), (cmp_trans (cmp := version_cmp) w v u); [done|..].
  - rewrite (cmp_opp (cmp := version_cmp) v w). by destruct (version_cmp v w).
  - rewrite (cmp_opp (cmp := version_cmp) u v). by destruct (version_cmp u v).
Qed.

(** Not newer: the same, or older. *)
Lemma version_not_gt v w : version_gt v w = false -> v = w \/ version_gt w v = true.
Proof.
  unfold version_gt. rewrite (cmp_opp (cmp := version_cmp) v w).
  destruct (version_cmp v w) eqn:E; simpl; [|auto|done]. apply cmp_eq in E. auto.
Qed.

(** Versions are totally ordered, and equal only when they are one
    version: exactly one of older, same and newer holds between any two,
    newer than newer is newer, and a release comes after every pre-release
    of its numbers. *)
Lemma version_order :
  (forall v w, version_cmp v w = Eq <-> v = w)
  /\ (forall v w, version_cmp w v = CompOpp (version_cmp v w))
  /\ (forall u v w, version_gt u v = true -> version_gt v w = true -> version_gt u w = true)
  /\ (forall v w, numbers v = numbers w -> is_release v = true -> is_release w = false ->
      version_gt v w = true).
Proof.
  split_and!.
  - apply cmp_eq.
  - apply cmp_opp.
  - apply version_gt_trans.
  - intros [n p] [m q]. simpl. intros -> Hp Hq. unfold version_gt, version_cmp. simpl.
    rewrite cmp_refl by apply _. by destruct p, q.
Qed.

(** ** Reading and writing *)

(** A text of digits in canonical form is the decimal of its value. *)
Lemma dec_canonical s :
  s <> "" -> str_all is_digit s = true -> (forall t, s = String "0" t -> t = "") ->
  dec (dec_value 0 s) = s.
Proof.
  intros Hne Hd Hz.
  assert (Hv : 0 <= dec_value 0 s) by apply (dec_value_bound s Hd).
  apply digits_inj; [by apply dec_digits|done|by apply dec_nonempty|done| |done|by apply dec_read].
  intros t Ht. destruct (dec_spec _ Hv) as (_ & _ & H). rewrite Ht in H. by apply H.
Qed.

Lemma number_spec s n : number s = Some n <->
  0 <= n <= u64_max /\ s = dec n.
Proof.
  unfold number, parse_u64. split.
  - destruct (_ || _) eqn:E; [done|]. apply orb_false_iff in E as [E1 E2].
    apply negb_false_iff, andb_true_iff in E1 as [Hne Hd].
    rewrite negb_true_iff, bool_decide_eq_false in Hne.
    destruct (Z.leb_spec (dec_value 0 s) u64_max) as [Hle|]; [|done]. intros [= <-].
    pose proof (dec_value_bound s Hd). split; [lia|]. symmetry. apply dec_canonical; [done..|].
    intros t ->. destruct t as [|a t]; [done|]. exfalso. by simpl in E2.
  - intros [Hn ->]. rewrite dec_digits, dec_read by lia.
    rewrite bool_decide_eq_false_2 by (apply dec_nonempty; lia). simpl.
    destruct (dec_spec n) as (_ & _ & Hz); [lia|].
    replace ((1 <? String.length (dec n))%nat && _) with false.
    { destruct (Z.leb_spec n u64_max); [done|lia]. }
    symmetry. apply andb_false_iff. destruct (dec n) as [|a t] eqn:E; [by left|].
    destruct (decide (a = "0"%char)) as [->|Ha]; [left; by rewrite Hz|right].
    destruct a as [[] [] [] [] [] [] [] []]; done.
Qed.

Definition wf_identifier (i : Identifier) : Prop :=
  match i with
  | Numeric n => 0 <= n <= u64_max
  | Alphanumeric w => word w = Some w /\ str_all is_digit w = false
  end.

Definition wf_version (v : Version) : Prop :=
  let '(a, b, c) := numbers v in
  0 <= a <= u64_max /\ 0 <= b <= u64_max /\ 0 <= c <= u64_max /\ Forall wf_identifier (pre v).

Lemma word_Some s t : word s = Some t -> s = t.
Proof. unfold word. case_match; congruence. Qed.

Lemma word_digits s : s <> "" -> str_all is_digit s = true -> word s = Some s.
Proof.
  intros Hne Hd. unfold word. rewrite bool_decide_eq_false_2 by done. simpl.
  erewrite str_all_impl; [done| |exact Hd]. unfold is_alphanumeric. by intros a ->.
Qed.

Lemma identifier_spec s i : identifier s = Some i <-> wf_identifier i /\ s = show_identifier i.
Proof.
  unfold identifier. split.
  - destruct (word s) as [t|] eqn:Hw; [|done]. pose proof (word_Some _ _ Hw) as <-.
    destruct (str_all is_digit s) eqn:Hd.
    + destruct (number s) as [n|] eqn:Hn; [|done]. intros [= <-]. by apply number_spec in Hn.
    + by intros [= <-].
  - destruct i as [n|w]; simpl.
    + intros [Hn ->]. rewrite word_digits by (first [apply dec_nonempty|apply dec_digits]; lia). rewrite dec_digits by lia.
      by rewrite (proj2 (number_spec (dec n) n) (conj Hn eq_refl)).
    + intros [[Hw Hd] ->]. by rewrite Hw, Hd.
Qed.

Lemma word_lacks c s : is_alphanumeric c = false -> c <> "-"%char -> word s = Some s -> lacks c s = true.
Proof.
  unfold word. intros Hc Hm. case_match eqn:E; [|done]. intros _.
  apply andb_true_iff in E as [_ E]. revert E. apply str_all_impl.
  intros a Ha. apply negb_true_iff, Ascii.eqb_neq. intros ->.
  apply orb_true_iff in Ha as [Ha|Ha]; [congruence|]. by apply Ascii.eqb_eq in Ha.
Qed.

Lemma show_identifier_word i : wf_identifier i -> word (show_identifier i) = Some (show_identifier i).
Proof.
  destruct i as [n|w]; simpl; [|by intros [? _]].
  intros Hn. apply word_digits; [apply dec_nonempty|apply dec_digits]; lia.
Qed.

Lemma show_identifier_lacks c i :
  is_alphanumeric c = false -> c <> "-"%char -> wf_identifier i -> lacks c (show_identifier i) = true.
Proof. intros. apply word_lacks; [done..|]. by apply show_identifier_word. Qed.

Definition core_text (n : Z * Z * Z) : string :=
  let '(a, b, c) := n in join "." [dec a; dec b; dec c].

Definition pre_text (ids : list Identifier) : string :=
  match ids with [] => "" | _ => "-" +:+ join "." (List.map show_identifier ids) end.

Lemma show_ids_text i ids :
  show_identifier i +:+ foldr (fun i rest => "." +:+ show_identifier i +:+ rest) "" ids
  = join "." (List.map show_identifier (i :: ids)).
Proof.
  revert i. induction ids as [|j ids IH]; intros i; [apply str_app_nil_r|].
  cbn [foldr List.map]. rewrite IH, join_cons by done. done.
Qed.

Lemma show_text v : show v = core_text (numbers v) +:+ pre_text (pre v).
Proof.
  destruct v as [[[a b] c] p]. unfold show, core_text, pre_text. cbn [numbers pre join].
  rewrite !str_app_assoc. destruct p as [|i ids]; [done|]. by rewrite <- show_ids_text.
Qed.

Lemma lacks_join c l : lacks c "." = true -> Forall (fun s => lacks c s = true) l ->
  lacks c (join "." l) = true.
Proof.
  intros Hd. induction 1 as [|s l Hs Hl IH]; [done|]. destruct l as [|t l]; [done|].
  rewrite join_cons, !lacks_app, Hs, IH, Hd by done. done.
Qed.

Lemma dec_lacks c n : is_digit c = false -> 0 <= n -> lacks c (dec n) = true.
Proof. intros Hc Hn. apply digits_lack; [done|]. by apply dec_digits. Qed.

Lemma core_text_lacks c v : is_digit c = false -> lacks c "." = true -> wf_version v ->
  lacks c (core_text (numbers v)) = true.
Proof.
  unfold wf_version, core_text. destruct (numbers v) as [[x y] z]. intros Hc Hd (Hx & Hy & Hz & _).
  apply lacks_join; [done|]. repeat constructor; (apply dec_lacks; [done|lia]).
Qed.

Lemma collect_identifiers ids texts :
  collect_opt (List.map identifier texts) = Some ids <->
  Forall wf_identifier ids /\ texts = List.map show_identifier ids.
Proof.
  revert ids. induction texts as [|s texts IH]; intros ids; simpl.
  - split; [intros [= <-]; by split|]. intros [_ Hm]. by destruct ids.
  - destruct (identifier s) as [i|] eqn:Hi.
    + apply identifier_spec in Hi as [Hi ->].
      destruct (collect_opt (List.map identifier texts)) as [rest|].
      * destruct (proj1 (IH rest) eq_refl) as [Hr ->]. split.
        -- intros [= <-]. split; [by constructor|done].
        -- intros [Hids Hm]. destruct ids as [|j ids]; [done|]. simpl in Hm. injection Hm as Hs Hm.
           inversion Hids as [|?? Hj Hids']; subst.
           pose proof (proj2 (identifier_spec (show_identifier i) i) (conj Hi eq_refl)) as H1.
           rewrite Hs, (proj2 (identifier_spec _ j) (conj Hj eq_refl)) in H1. injection H1 as ->.
           pose proof (proj2 (IH ids) (conj Hids' Hm)) as H2. by injection H2 as ->.
      * split; [done|]. intros [Hids Hm]. destruct ids as [|j ids]; [done|].
        injection Hm as _ Hm. apply List.Forall_cons_iff in Hids as [_ Hids].
        pose proof (proj2 (IH ids) (conj Hids Hm)) as H. discriminate H.
    + split; [done|]. intros [Hids Hm]. destruct ids as [|j ids]; [done|].
      injection Hm as -> _. inversion Hids; subst.
      by rewrite (proj2 (identifier_spec (show_identifier j) j)) in Hi.
Qed.

Lemma pre_text_lacks c ids : is_alphanumeric c = false -> c <> "-"%char -> lacks c "." = true ->
  Forall wf_identifier ids -> lacks c (pre_text ids) = true.
Proof.
  intros Ha Hm Hd Hids. unfold pre_text. destruct ids as [|i ids]; [done|].
  rewrite lacks_app. apply andb_true_intro. split.
  - unfold lacks. cbn [str_all]. rewrite andb_true_r. apply negb_true_iff, Ascii.eqb_neq. congruence.
  - apply lacks_join; [done|]. apply Forall_map. eapply Forall_impl; [|exact Hids].
    intros j Hj. by apply show_identifier_lacks.
Qed.

Lemma split_dots l : l <> [] -> Forall (fun s => lacks "." s = true) l -> split "." (join "." l) = l.
Proof. intros. by apply split_join. Qed.

Lemma show_strip v : wf_version v -> strip_prefix "v" (show v) = None.
Proof.
  rewrite show_text. unfold wf_version, core_text. destruct (numbers v) as [[x y] z].
  intros (Hx & _). cbn [join]. destruct (dec_spec x) as (_ & Hd & _); [lia|].
  pose proof (dec_nonempty x ltac:(lia)). destruct (dec x) as [|a t]; [done|].
  cbn [str_all String.append strip_prefix] in Hd |- *.
  apply andb_true_iff in Hd as [Hd _]. destruct (Ascii.eqb_spec "v" a) as [<-|]; [discriminate Hd|done].
Qed.

(** The text of the build metadata [parse] reads and drops. *)
Definition is_build (b : string) : Prop :=
  b = "" \/ exists t, b = "+" +:+ t /\ Forall (fun part => word part = Some part) (split "." t).

Lemma build_words t :
  all (fun part => match word part with Some _ => true | None => false end) (split "." t) = true <->
  Forall (fun part => word part = Some part) (split "." t).
Proof.
  rewrite all_true, List.Forall_forall. split; intros H part Hp; specialize (H part Hp).
  - destruct (word part) eqn:E; [|done]. by rewrite <- (word_Some _ _ E).
  - by rewrite H.
Qed.

Lemma parse_core v : wf_version v ->
  split "." (core_text (numbers v)) = (let '(a, b, c) := numbers v in [dec a; dec b; dec c]).
Proof.
  unfold wf_version, core_text. destruct (numbers v) as [[x y] z]. intros (Hx & Hy & Hz & _).
  apply split_dots; [done|]. repeat constructor; (apply dec_lacks; [done|lia]).
Qed.

Lemma parse_pre ids : ids <> [] -> Forall wf_identifier ids ->
  collect_opt (List.map identifier (split "." (join "." (List.map show_identifier ids)))) = Some ids.
Proof.
  intros Hne Hids. apply collect_identifiers. split; [done|]. apply split_dots; [by destruct ids|].
  apply Forall_map. eapply Forall_impl; [|exact Hids]. intros i Hi. by apply show_identifier_lacks.
Qed.

Lemma parse_tail v : wf_version v ->
  (let '(core, pre) :=
     match split_once "-" (show v) with Some (core, pre) => (core, Some pre) | None => (show v, None) end in
   match split "." core with
   | [a; b; c] =>
     match number a, number b, number c with
     | Some major, Some minor, Some patch =>
       match pre with
       | None => Some {| numbers := (major, minor, patch); pre := [] |}
       | Some pre =>
         match collect_opt (List.map identifier (split "." pre)) with
         | Some ids => Some {| numbers := (major, minor, patch); pre := ids |}
         | None => None
         end
       end
     | _, _, _ => None
     end
   | _ => None
   end) = Some v.
Proof.
  intros Hv. pose proof (core_text_lacks "-" v eq_refl eq_refl Hv) as Hc.
  pose proof (parse_core v Hv) as Hs. rewrite show_text.
  destruct v as [[[a b] c] ids]. destruct Hv as (Ha & Hb & Hc' & Hids). cbn [numbers pre] in *.
  pose proof (proj2 (number_spec _ _) (conj Ha eq_refl)) as Na.
  pose proof (proj2 (number_spec _ _) (conj Hb eq_refl)) as Nb.
  pose proof (proj2 (number_spec _ _) (conj Hc' eq_refl)) as Nc.
  destruct ids as [|i ids].
  - rewrite str_app_nil_r, split_once_lacks by done. by rewrite Hs, Na, Nb, Nc.
  - unfold pre_text. cbn [String.append]. rewrite split_once_app by done.
    by rewrite Hs, Na, Nb, Nc, parse_pre.
Qed.

Lemma parse_reads p v b : wf_version v -> p = "" \/ p = "v" -> is_build b ->
  (String.length (p +:+ show v +:+ b) <= TAG_MAX)%nat -> parse (p +:+ show v +:+ b) = Some v.
Proof.
  intros Hv Hp Hb Hl. unfold parse. rewrite (proj2 (Nat.ltb_ge _ _) Hl).
  replace (unwrap_or _ _) with (show v +:+ b).
  2:{ destruct Hp as [-> | ->]; [|by rewrite strip_prefix_app].
      change ("" +:+ ?x) with x. pose proof (show_strip v Hv) as Hs.
      rewrite show_text in *. revert Hs. unfold core_text.
      destruct v as [[[x y] z] ids]. cbn [numbers pre join]. destruct Hv as (Hx & _).
      pose proof (dec_nonempty x ltac:(lia)). destruct (dec x) as [|a t]; [done|].
      cbn. by case_match. }
  assert (lacks "+" (show v) = true) as Hplus.
  { rewrite show_text, lacks_app, core_text_lacks, pre_text_lacks; try done.
    destruct v as [[[x y] z] ids]. apply Hv. }
  pose proof (parse_tail v Hv) as Ht.
  destruct Hb as [-> | (t & -> & Ht')].
  - rewrite str_app_nil_r, split_once_lacks by done. exact Ht.
  - cbn [String.append]. rewrite split_once_app by done.
    rewrite (proj2 (build_words t) Ht'). exact Ht.
Qed.

Lemma core_reads core a b c : split "." core = [dec a; dec b; dec c] -> core = core_text (a, b, c).
Proof. intros H. rewrite <- (join_split "." core), H. done. Qed.

Lemma pre_reads pre ids : collect_opt (List.map identifier (split "." pre)) = Some ids ->
  Forall wf_identifier ids /\ String "-" pre = pre_text ids.
Proof.
  intros H. apply collect_identifiers in H as [Hids H]. split; [done|].
  pose proof (join_split "." pre) as Hj. rewrite H in Hj.
  destruct ids as [|i ids]; [by apply split_nonempty in H|]. unfold pre_text. by rewrite Hj.
Qed.

Lemma build_reads text body build :
  match split_once "+" text with Some (t, b) => (t, Some b) | None => (text, None) end = (body, build) ->
  match build with
  | Some b => negb (all (fun part => match word part with Some _ => true | None => false end) (split "." b))
  | None => false
  end = false -> exists b, is_build b /\ text = body +:+ b.
Proof.
  destruct (split_once "+" text) as [[t b]|] eqn:E; intros [= <- <-].
  - intros Hb%negb_false_iff%build_words. exists ("+" +:+ b). split; [right; eauto|].
    by apply split_once_inv in E as [-> _].
  - intros _. exists "". split; [by left|]. by rewrite str_app_nil_r.
Qed.

Lemma body_reads body core pre v :
  match split_once "-" body with Some (core, pre) => (core, Some pre) | None => (body, None) end = (core, pre) ->
  match split "." core with
  | [a; b; c] =>
    match number a, number b, number c with
    | Some major, Some minor, Some patch =>
      match pre with
      | None => Some {| numbers := (major, minor, patch); pre := [] |}
      | Some pre =>
        match collect_opt (List.map identifier (split "." pre)) with
        | Some ids => Some {| numbers := (major, minor, patch); pre := ids |}
        | None => None
        end
      end
    | _, _, _ => None
    end
  | _ => None
  end = Some v -> wf_version v /\ body = show v.
Proof.
  intros Hs. destruct (split "." core) as [|x [|y [|z [|? ?]]]] eqn:Hcore; try done.
  destruct (number x) as [a|] eqn:Ha; [|done]. destruct (number y) as [b|] eqn:Hb; [|done].
  destruct (number z) as [c|] eqn:Hc; [|done].
  apply number_spec in Ha as [Ha ->]. apply number_spec in Hb as [Hb ->]. apply number_spec in Hc as [Hc ->].
  apply core_reads in Hcore as ->. rewrite show_text.
  destruct (split_once "-" body) as [[l r]|] eqn:E; injection Hs as -> <-.
  - apply split_once_inv in E as [-> _].
    destruct (collect_opt _) as [ids|] eqn:Hids; [|done]. intros [= <-].
    apply pre_reads in Hids as [Hids Hp]. split; [unfold wf_version; simpl; tauto|]. by rewrite Hp.
  - intros [= <-]. split; [unfold wf_version; simpl; intuition constructor|]. cbn [numbers Updates.pre pre_text].
    by rewrite str_app_nil_r.
Qed.

Lemma parse_form s v : parse s = Some v ->
  wf_version v /\ (String.length s <= TAG_MAX)%nat
  /\ exists p b, (p = "" \/ p = "v") /\ is_build b /\ s = p +:+ show v +:+ b.
Proof.
  unfold parse. destruct (Nat.ltb_spec TAG_MAX (String.length s)) as [|Hl]; [done|].
  destruct (match split_once "+" _ with Some _ => _ | None => _ end) as [body build] eqn:E1.
  destruct (match build with Some _ => _ | None => _ end) eqn:E2; [done|].
  destruct (match split_once "-" body with Some _ => _ | None => _ end) as [core pre] eqn:E3.
  intros H. destruct (body_reads _ _ _ _ E3 H) as [Hv ->]. destruct (build_reads _ _ _ E1 E2) as (b & Hb & Ht).
  split; [done|]. split; [done|]. destruct (strip_prefix "v" s) as [t|] eqn:Hp; simpl in Ht; subst.
  + exists "v", b. split; [by right|]. split; [done|]. destruct s as [|a s]; [done|]. cbn [strip_prefix] in Hp.
    destruct (Ascii.eqb_spec "v" a) as [<-|]; [|done]. destruct s; by injection Hp as <-.
  + exists "", b. by split; [left|].
Qed.

(** Reading a version and writing it agree. A text of at most
    [TAG_MAX] bytes reads as [v] exactly when it is the one form [v] is
    shown in, after at most one leading [v] and before build metadata of
    dotted words; every version read has its numbers in a [u64] and its
    identifiers well formed. So showing and reading again is the
    identity, and the tag a source sends is never kept as it came. *)
Theorem version_reads s v :
  parse s = Some v <->
  wf_version v /\ (String.length s <= TAG_MAX)%nat
  /\ exists p b, (p = "" \/ p = "v") /\ is_build b /\ s = p +:+ show v +:+ b.
Proof.
  split.
  - apply parse_form.
  - intros (Hv & Hl & p & b & Hp & Hb & ->). by apply parse_reads.
Qed.

Lemma version_reads_witness :
  wf_version {| numbers := (1, 2, 3); pre := [Alphanumeric "rc"; Numeric 1] |}
  /\ show {| numbers := (1, 2, 3); pre := [Alphanumeric "rc"; Numeric 1] |} = "1.2.3-rc.1".
Proof.
  split; [|reflexivity].
  exact (proj1 (proj1 (version_reads "v1.2.3-rc.1+b.5" {| numbers := (1, 2, 3); pre := [Alphanumeric "rc"; Numeric 1] |}) eq_refl)).
Defined.

(** A version kept as it is shown reads back, so that what the record
    keeps is always a version. *)
Lemma parse_shown s v : parse s = Some v -> parse (show v) = Some v.
Proof.
  intros H. destruct (parse_form s v H) as (Hv & Hl & p & b & Hp & Hb & ->).
  apply (parse_reads "" v "") in Hv; [|by left|by left|].
  - by rewrite str_app_nil_r in Hv.
  - change ("" +:+ ?x) with x. rewrite str_app_nil_r. rewrite !str_length_app in Hl. lia.
Qed.

(** ** The record over a session *)

(** The sessions opened on a vault, at the times their clocks read. *)
Definition sessions (r : UpdateRecord) (times : list Z) : UpdateRecord := foldl session_at r times.

Definition omin (o : option Z) (t : Z) : option Z :=
  if t <? NO_RIGHT_CLOCK_BEFORE then o else Some (match o with Some m => Z.min m t | None => t end).

Lemma session_at_omin r now : session_at r now = set_first_session r (omin (first_session_at r) now).
Proof.
  unfold session_at, omin. destruct r as [a f c l d t]. cbn.
  destruct (now <? _) eqn:?; [done|]. destruct f as [m|]; simpl; [|done].
  destruct (Z.gtb_spec m now); unfold set_first_session; simpl; repeat f_equal; lia.
Qed.

Lemma sessions_first r times :
  sessions r times = set_first_session r (foldl omin (first_session_at r) times).
Proof.
  revert r. induction times as [|t times IH]; intros r; simpl; [by destruct r|].
  by rewrite IH, session_at_omin.
Qed.

(** A first session at least a day before [now]. *)
Definition day_old (o : option Z) (now : Z) : Prop := exists at_, o = Some at_ /\ at_ + CHECK_EVERY <= now.

Lemma day_old_omin o t now :
  day_old (omin o t) now <-> day_old o now \/ (NO_RIGHT_CLOCK_BEFORE <= t /\ t + CHECK_EVERY <= now).
Proof.
  unfold day_old, omin. destruct (Z.ltb_spec t NO_RIGHT_CLOCK_BEFORE); [split; [by left|intros [|]; [done|lia]]|].
  split.
  - intros (at_ & [= <-] & Hat). destruct o as [m|]; [|by right].
    destruct (Z.min_spec m t) as [[_ E]|[_ E]]; rewrite E in Hat; [left; eauto|by right].
  - intros [(at_ & -> & Hat)|[_ Hat]]; eexists; (split; [done|]); [lia|]. destruct o; lia.
Qed.

Lemma day_old_fold times o now :
  day_old (foldl omin o times) now <->
  day_old o now \/ exists t, In t times /\ NO_RIGHT_CLOCK_BEFORE <= t /\ t + CHECK_EVERY <= now.
Proof.
  revert o. induction times as [|t times IH]; intros o; simpl.
  - split; [by left|]. by intros [|(? & [] & _)].
  - rewrite IH, day_old_omin. split.
    + intros [[?|?]|(u & ? & ?)]; [auto| |]; right; [exists t|exists u]; auto.
    + intros [?|(u & [->|?] & ?)]; [auto..|]. right. eauto.
Qed.

Lemma due_iff r now : due r now = true <->
  automatic r = true /\ day_old (first_session_at r) now
  /\ (forall c, checked_at r = Some c -> now < c \/ c + CHECK_EVERY <= now).
Proof.
  unfold due, day_old, CHECK_EVERY. rewrite !andb_true_iff, !negb_true_iff. split.
  - intros [[-> H1] H2]. split; [done|]. destruct (first_session_at r) as [f|]; simpl in H1; [|done].
    split; [exists f; split; [done|lia]|]. intros c Hc. rewrite Hc in H2. simpl in H2. lia.
  - intros (-> & (f & -> & Hf) & Hc). simpl. split; [split; [done|lia]|].
    destruct (checked_at r) as [c|]; [|done]. simpl. specialize (Hc c eq_refl). lia.
Qed.

(** Whatever sessions opened on a vault, at whatever times their
    clocks read, and in whatever order, the app checks on its own at
    [now] exactly when the setting is on, some session of a clock that
    could be right (or the record's own first one) lies a full day back,
    and the last check is either a day back or in the future. So no
    check goes out within a day of a new install, a clock reset to 1970
    starts no day, and a clock moved back blocks no check for good. *)
Theorem check_is_due r times now :
  due (sessions r times) now = true <->
  automatic r = true
  /\ ((exists at_, first_session_at r = Some at_ /\ at_ + CHECK_EVERY <= now)
      \/ exists t, In t times /\ NO_RIGHT_CLOCK_BEFORE <= t /\ t + CHECK_EVERY <= now)
  /\ (forall c, checked_at r = Some c -> now < c \/ c + CHECK_EVERY <= now).
Proof. rewrite sessions_first, due_iff. cbn. by rewrite day_old_fold. Qed.

(** ** What is announced *)

(** Later than what was closed, where something was. *)
Definition later_than (o : option string) (v : Version) : Prop :=
  forall c, and_then o parse = Some c -> version_gt v c = true.

Lemma filter_opt_Some {A} (f : A -> bool) o a : filter_opt f o = Some a <-> o = Some a /\ f a = true.
Proof.
  destruct o as [b|]; simpl; [|split; [done|by intros []]].
  destruct (f b) eqn:E; split; [intros [= ->]; done|by intros []|done|intros [[= ->] ?]; congruence].
Qed.

Lemma is_none_or_true {A} (f : A -> bool) o : is_none_or f o = true <-> forall a, o = Some a -> f a = true.
Proof.
  destruct o; simpl; [|by split]. split; [by intros ? ? [= <-]|auto].
Qed.

Lemma available_iff r running v : available_version r running = Some v <->
  exists run, parse running = Some run /\ and_then (latest r) parse = Some v
    /\ is_release v = true /\ version_gt v run = true.
Proof.
  unfold available_version. destruct (parse running) as [run|]; simpl.
  - rewrite filter_opt_Some, andb_true_iff. split; [intros (?&?&?); eauto|].
    intros (? & [= <-] & ?). tauto.
  - split; [done|]. by intros (? & ? & _).
Qed.

Lemma announced_iff r running v : announced_version r running = Some v <->
  available_version r running = Some v /\ later_than (dismissed r) v.
Proof. unfold announced_version. by rewrite filter_opt_Some, is_none_or_true. Qed.

Lemma later_than_dismiss r v w : parse (show v) = Some v ->
  later_than (dismissed (dismiss r v)) w <-> later_than (dismissed r) w /\ version_gt w v = true.
Proof.
  intros Hv. unfold dismiss, later_than.
  destruct (is_none_or _ _) eqn:E; cbn [dismissed and_then].
  - rewrite is_none_or_true in E. rewrite Hv. split.
    + intros H. specialize (H v eq_refl). split; [|done]. intros c Hc. eapply version_gt_trans; eauto.
    + by intros [_ H] c [= <-].
  - destruct (and_then (dismissed r) parse) as [c|]; [|done]. simpl in E.
    split; [|by intros [Hl _]]. intros Hl. split; [done|]. specialize (Hl c eq_refl).
    apply version_not_gt in E as [-> |E]; [done|]. by eapply version_gt_trans.
Qed.

Lemma dismiss_keeps r v running : available_version (dismiss r v) running = available_version r running.
Proof. unfold dismiss. by destruct (is_none_or _ _). Qed.

Lemma dismiss_all vs r running w : (forall v, In v vs -> parse (show v) = Some v) ->
  announced_version (foldl dismiss r vs) running = Some w <->
  announced_version r running = Some w /\ (forall v, In v vs -> version_gt w v = true).
Proof.
  revert r. induction vs as [|v vs IH]; intros r Hvs; simpl; [by intuition|].
  rewrite IH by (intros; apply Hvs; by right).
  rewrite !announced_iff, dismiss_keeps, later_than_dismiss by (apply Hvs; by left).
  split; [intros [[? [? ?]] Hall]; split; [done|]; intros u [<-|]; auto|].
  intros [[? ?] Hall]. split_and!; auto.
Qed.

Lemma answered_available r tag running w :
  available_version (answered r tag) running = Some w <->
  parse tag = Some w /\ is_release w = true
  /\ exists run, parse running = Some run /\ version_gt w run = true.
Proof.
  rewrite available_iff. cbn. destruct (parse tag) as [v|] eqn:Hv; simpl.
  - destruct (is_release v) eqn:Hr; simpl.
    + rewrite (parse_shown _ _ Hv). split; [intros (run & ? & [= ->] & ? & ?); eauto|].
      intros ([= ->] & ? & run & ? & ?). eauto 6.
    + split; [by intros (? & ? & ? & _)|]. intros ([= ->] & ? & _). congruence.
  - split; [by intros (? & ? & ? & _)|]. by intros (? & _).
Qed.

(** Once a check answered [tag], and the notice was closed on any
    versions in any order since, what is announced to someone running
    [running] is exactly the tag's version, when it is a release, newer
    than the one running, newer than what had been closed before, and
    newer than every version closed since. So a pre-release is announced
    to nobody, a closed notice never comes back for that version or an
    older one, closing an older version reopens nothing, and a tag that
    is no version, or a running version that is none, announces
    nothing. *)
Theorem announced_release r tag running vs w :
  (forall v, In v vs -> exists s, parse s = Some v) ->
  announced_version (foldl dismiss (answered r tag) vs) running = Some w <->
  parse tag = Some w /\ is_release w = true
  /\ (exists run, parse running = Some run /\ version_gt w run = true)
  /\ later_than (dismissed r) w /\ (forall v, In v vs -> version_gt w v = true).
Proof.
  intros Hvs. rewrite dismiss_all; [|intros v (s & Hs)%Hvs; by apply (parse_shown s)].
  rewrite announced_iff, answered_available. cbn. tauto.
Qed.

Lemma announced_release_witness :
  announced_version (foldl dismiss (answered default_record "v1.2.3") [{| numbers := (1, 2, 2); pre := [] |}]) "1.2.0"
    = Some ({| numbers := (1, 2, 3); pre := [] |})
  /\ announced_version (foldl dismiss (answered default_record "v1.2.3") [{| numbers := (1, 2, 3); pre := [] |}]) "1.2.0"
    = None.
Proof.
  split; [|reflexivity].
  apply announced_release.
  - intros v [<-|[]]. by exists "1.2.2".
  - split; [reflexivity|]. split; [reflexivity|]. split; [by exists ({| numbers := (1, 2, 0); pre := [] |})|].
    split; [by intros c|]. intros v [<-|[]]. reflexivity.
Defined.
