(* ===== verification/UpdateChecks.v ===== *)
(** [manager/updates.rs]: the update check as the apps drive it. Every
    hold of the manager's lock is one step, so the steps of two sessions,
    of the button and of the settings interleave as they may; what the
    network, Tor and the disk answer is in the step. *)
From S2P Require Import Prelude Text Updates.

(** What one hold of the lock does. [saved] is whether the vault could
    be written: a change that cannot be saved is not kept. *)
Inductive Step :=
| SessionOpens (now : Z) (saved : bool)              (* [update_session_at], up to the check *)
| NoTor (saved : bool)                               (* [check_on_its_own], no proxy *)
| Stamp (now : Z) (saved : bool)                     (* [check_on_its_own], the stamp, then the request *)
| AnswerComes (tag : string) (saved : bool)          (* [check_on_its_own], the answer *)
| ButtonNoTor (saved : bool)                         (* [check_update_at], no proxy *)
| ButtonAnswer (answer : option string) (saved : bool) (* [check_update_at], the request's end *)
| DismissUpdate (version : string) (saved : bool)    (* [dismiss_update] *)
| SetAutomatic (on : bool) (saved : bool).           (* [set_update_automatic] *)

Definition set_tor_unavailable (r : UpdateRecord) (b : bool) : UpdateRecord :=
  {| automatic := automatic r; first_session_at := first_session_at r; checked_at := checked_at r;
     latest := latest r; dismissed := dismissed r; tor_unavailable := b |}.

Definition set_automatic (r : UpdateRecord) (b : bool) : UpdateRecord :=
  {| automatic := b; first_session_at := first_session_at r; checked_at := checked_at r;
     latest := latest r; dismissed := dismissed r; tor_unavailable := tor_unavailable r |}.

Definition stamped (r : UpdateRecord) (now : Z) : UpdateRecord :=
  {| automatic := automatic r; first_session_at := first_session_at r; checked_at := Some now;
     latest := latest r; dismissed := dismissed r; tor_unavailable := false |}.

(** [note_update] and [commit]: kept when it could be saved. *)
Definition note_update (r : UpdateRecord) (saved : bool) (change : UpdateRecord -> UpdateRecord) : UpdateRecord :=
  if saved then change r else r.

(** What the button does of the answer. *)
Definition button_answer (r : UpdateRecord) (answer : option string) : UpdateRecord :=
  let r := set_tor_unavailable r false in
  match answer with
  | None => r
  | Some tag =>
    let r := answered r tag in
    match and_then (latest r) parse with Some latest => dismiss r latest | None => r end
  end.

(** One step, and the time of the request the check sent on its own in
    it, if it sent one. *)
Definition step (r : UpdateRecord) (s : Step) : UpdateRecord * option Z :=
  match s with
  | SessionOpens now saved => (note_update r saved (fun r => session_at r now), None)
  | NoTor saved => (note_update r saved (fun r => set_tor_unavailable r true), None)
  | Stamp now saved =>
    if negb (due r now) then (r, None)
    else if saved then (stamped r now, Some now) else (r, None)
  | AnswerComes tag saved => (note_update r saved (fun r => answered r tag), None)
  | ButtonNoTor saved => (note_update r saved (fun r => set_tor_unavailable r true), None)
  | ButtonAnswer answer saved => (note_update r saved (fun r => button_answer r answer), None)
  | DismissUpdate version saved =>
    (match parse version with
     | Some version => note_update r saved (fun r => dismiss r version)
     | None => r
     end, None)
  | SetAutomatic on saved => (note_update r saved (fun r => set_automatic r on), None)
  end.

Fixpoint run (r : UpdateRecord) (steps : list Step) : UpdateRecord * list Z :=
  match steps with
  | [] => (r, [])
  | s :: steps =>
    let '(r, sent) := step r s in
    let '(r, later) := run r steps in
    (r, match sent with Some t => t :: later | None => later end)
  end.

Example run_ex :
  (run default_record [SessionOpens 1800000000 true; Stamp 1800000000 true; Stamp 1800086400 true;
     Stamp 1800086401 true; AnswerComes "v9.0.0" true; Stamp 1800172800 false; Stamp 1800172801 true]).2
  = [1800086400; 1800172801].
Proof. reflexivity. Qed.

(** ** One request a day *)

(** From one request to the next: a day at least by the clock, or the
    clock moved back. *)
Definition spaced (a b : Z) : Prop := b < a \/ a + CHECK_EVERY <= b.

Inductive Spaced : option Z -> list Z -> Prop :=
| Spaced_nil o : Spaced o []
| Spaced_cons o b l : (forall a, o = Some a -> spaced a b) -> Spaced (Some b) l -> Spaced o (b :: l).

Lemma step_checked r s :
  match (step r s).2 with
  | Some t => due r t = true /\ checked_at (step r s).1 = Some t
  | None => checked_at (step r s).1 = checked_at r
  end.
Proof.
  destruct s as [now [] | [] | now [] | tag [] | [] | [tag|] [] | v [] | on []]; simpl; try done.
  - rewrite session_at_omin. done.
  - destruct (due r now) eqn:E; done.
  - by destruct (due r now).
  - unfold button_answer. destruct (and_then _ _); [|done]. unfold dismiss. by destruct (is_none_or _ _).
  - destruct (parse v); [|done]. unfold dismiss. by destruct (is_none_or _ _).
  - by destruct (parse v).
Qed.

(** However sessions, the button, the settings, Tor, the network and
    failing saves interleave, and however the clock is set, two requests
    the app sends on its own in a row are a day apart by the clock, or
    the clock was moved back between them; the first is a day after the
    last check the vault remembered. *)
Theorem one_request_a_day r steps : Spaced (checked_at r) (run r steps).2.
Proof.
  revert r. induction steps as [|s steps IH]; intros r; simpl; [constructor|].
  pose proof (step_checked r s) as Hs. destruct (step r s) as [r' sent]. simpl in Hs.
  specialize (IH r'). destruct (run r' steps) as [r'' later]. simpl in *.
  destruct sent as [t|].
  - destruct Hs as [Hd Hc]. rewrite Hc in IH. constructor; [|done].
    apply due_iff in Hd as (_ & _ & Hd). intros a Ha. apply Hd in Ha. unfold spaced. lia.
  - by rewrite Hs in IH.
Qed.

(** No request goes out on its own while the setting is off, whatever
    else happens: a check that was due when the setting was turned off
    and reaches the lock later sends nothing. *)
Theorem off_sends_nothing r steps :
  automatic r = false -> (forall b, ~ In (SetAutomatic true b) steps) -> (run r steps).2 = [].
Proof.
  revert r. induction steps as [|s steps IH]; intros r Hr Hs; simpl; [done|].
  assert (automatic (step r s).1 = false /\ (step r s).2 = None) as [H1 H2].
  { destruct s as [now [] | [] | now [] | tag [] | [] | [tag|] [] | v [] | [] []]; simpl; try done.
    - by rewrite session_at_omin.
    - unfold due. by rewrite Hr.
    - unfold due. by rewrite Hr.
    - unfold button_answer. destruct (and_then _ _); [|done]. unfold dismiss. by destruct (is_none_or _ _).
    - destruct (parse v); [|done]. unfold dismiss. by destruct (is_none_or _ _).
    - by destruct (parse v).
    - exfalso. apply (Hs true). by left. }
  destruct (step r s) as [r' sent]. simpl in *. subst.
  specialize (IH r' H1 ltac:(intros b Hb; apply (Hs b); by right)).
  by destruct (run r' steps).
Qed.

Lemma off_sends_nothing_witness :
  (run (set_automatic default_record false) [SessionOpens 1800000000 true; Stamp 1800086400 true]).2 = [].
Proof.
  apply off_sends_nothing; [reflexivity|]. intros b [H|[H|[]]]; discriminate H.
Defined.
