(* ===== verification/Network.v ===== *)
(** [network.rs]: the networks, their names and default endpoints; and
    the script kinds of [input/mod.rs], which the import and the policy
    share. *)
From S2P Require Import Prelude Text Errors.

Inductive ScriptKind := Legacy | NestedSegwit | Segwit | Taproot | WitnessScript | LegacyScript | Bare.

Inductive Network := Mainnet | Signet | Testnet4 | Regtest.

#[export] Instance Network_eq_dec : EqDecision Network.
Proof. solve_decision. Defined.

(** [bitcoin::Network], as far as the source maps it. *)
Inductive BitcoinNetwork := B_Bitcoin | B_Testnet | B_Testnet4 | B_Signet | B_Regtest.

Module Network.
Definition ALL : list Network := [Mainnet; Signet; Testnet4; Regtest].

Definition to_bitcoin (n : Network) : BitcoinNetwork :=
  match n with
  | Mainnet => B_Bitcoin | Signet => B_Signet | Testnet4 => B_Testnet4 | Regtest => B_Regtest
  end.

Definition from_bitcoin (n : BitcoinNetwork) : Network :=
  match n with
  | B_Bitcoin => Mainnet
  | B_Signet => Signet
  | B_Testnet | B_Testnet4 => Testnet4
  | B_Regtest => Regtest
  end.

Definition default_esplora_urls (n : Network) : list string :=
  match n with
  | Mainnet =>
    ["https://mempool.space/api"; "https://blockstream.info/api"; "https://mempool.emzy.de/api"]
  | Signet =>
    ["https://mempool.space/signet/api"; "https://blockstream.info/signet/api";
     "https://mempool.emzy.de/signet/api"]
  | Testnet4 => ["https://mempool.space/testnet4/api"; "https://mempool.emzy.de/testnet4/api"]
  | Regtest => []
  end.

Definition as_str (n : Network) : string :=
  match n with
  | Mainnet => "mainnet" | Signet => "signet" | Testnet4 => "testnet4" | Regtest => "regtest"
  end.

Definition from_str (s : string) : CoreResult Network :=
  if bool_decide (s = "mainnet" \/ s = "bitcoin") then Ok Mainnet
  else if bool_decide (s = "signet") then Ok Signet
  else if bool_decide (s = "testnet4" \/ s = "testnet") then Ok Testnet4
  else if bool_decide (s = "regtest") then Ok Regtest
  else Err (InvalidInput "network" ("unknown network `" +:+ s +:+ "`")).
End Network.

#[export] Instance Network_countable : Countable Network.
Proof. apply (inj_countable' Network.as_str (fun s => match Network.from_str s with Ok n => n | Err _ => Mainnet end)). by intros []. Defined.

Lemma from_str_as_str n : Network.from_str (Network.as_str n) = Ok n.
Proof. by destruct n. Qed.

Lemma from_to_bitcoin n : Network.from_bitcoin (Network.to_bitcoin n) = n.
Proof. by destruct n. Qed.
