(* ===== verification/Xpub.v ===== *)
(** [input/xpub.rs]: extended public keys in every spelling, brought back
    to the standard one, and private ones refused; and the refusal of
    private material of [input/mod.rs]. Base 58, the reading of a BIP 32
    payload and the checksum of a descriptor are other crates'. *)
From S2P Require Import Prelude Utf8 Text Errors Network.
From Stdlib Require Import Ascii.

Inductive NetworkKind := Main | Test.

(** ** Other crates *)

(** [base58::decode_check] and [encode_check], with its words of an
    error; [Xpub::decode] of a payload; [desc_checksum]. *)
Class Keys := {
  decode_check : string -> result (list Z) string;
  encode_check : list Z -> string;
  Xpub_decode : list Z -> result unit string;
  desc_checksum : string -> result string string;
}.

(** ** The encodings *)

Record Encoding := {
  public : string;
  public_version : list Z;
  private : string;
  private_version : list Z;
  mainnet : bool;
  e_script : option ScriptKind;
  e_multisig_only : bool;
}.

Definition encoding (public : string * list Z) (private : string * list Z) (mainnet : bool) (script : option ScriptKind)
  (multisig_only : bool) : Encoding :=
  {| public := public.1; public_version := public.2; private := private.1; private_version := private.2;
     mainnet := mainnet; e_script := script; e_multisig_only := multisig_only |}.

Definition ENCODINGS : list Encoding :=
  [encoding ("xpub", [0x04; 0x88; 0xB2; 0x1E]) ("xprv", [0x04; 0x88; 0xAD; 0xE4]) true None false;
   encoding ("tpub", [0x04; 0x35; 0x87; 0xCF]) ("tprv", [0x04; 0x35; 0x83; 0x94]) false None false;
   encoding ("ypub", [0x04; 0x9D; 0x7C; 0xB2]) ("yprv", [0x04; 0x9D; 0x78; 0x78]) true (Some NestedSegwit) false;
   encoding ("zpub", [0x04; 0xB2; 0x47; 0x46]) ("zprv", [0x04; 0xB2; 0x43; 0x0C]) true (Some Segwit) false;
   encoding ("upub", [0x04; 0x4A; 0x52; 0x62]) ("uprv", [0x04; 0x4A; 0x4E; 0x28]) false (Some NestedSegwit) false;
   encoding ("vpub", [0x04; 0x5F; 0x1C; 0xF6]) ("vprv", [0x04; 0x5F; 0x18; 0xBC]) false (Some Segwit) false;
   encoding ("Ypub", [0x02; 0x95; 0xB4; 0x3F]) ("Yprv", [0x02; 0x95; 0xB0; 0x05]) true (Some NestedSegwit) true;
   encoding ("Zpub", [0x02; 0xAA; 0x7E; 0xD3]) ("Zprv", [0x02; 0xAA; 0x7A; 0x99]) true (Some Segwit) true;
   encoding ("Upub", [0x02; 0x42; 0x89; 0xEF]) ("Uprv", [0x02; 0x42; 0x85; 0xB5]) false (Some NestedSegwit) true;
   encoding ("Vpub", [0x02; 0x57; 0x54; 0x83]) ("Vprv", [0x02; 0x57; 0x50; 0x48]) false (Some Segwit) true].

(** [standard(mainnet)], whose [expect] never fails: both standard
    encodings are in the table. *)
Definition standard (net : bool) : option Encoding :=
  List.find (fun e => Bool.eqb (mainnet e) net && match e_script e with None => true | Some _ => false end) ENCODINGS.

Definition has_private_prefix (token : string) : bool := any (fun e => starts_with (private e) token) ENCODINGS.

Definition slip132_public_prefix (token : string) : option string :=
  List.find (fun p => starts_with p token)
    (List.map public (retain (fun e => match e_script e with Some _ => true | None => false end) ENCODINGS)).

Definition looks_like_extended_key (token : string) : bool :=
  any (fun e => starts_with (public e) token || starts_with (private e) token) ENCODINGS.

(** [is_base58_char], on the ASCII characters, every one it takes. *)
Definition is_ascii_alphanumeric (a : ascii) : bool :=
  let n := byte_of a in between 48 57 n || between 65 90 n || between 97 122 n.
Definition is_base58_char (a : ascii) : bool :=
  is_ascii_alphanumeric a && negb ((a =? "0")%char || (a =? "O")%char || (a =? "I")%char || (a =? "l")%char).

(** The runs of a text: of characters [f] takes, and of one character it
    does not. *)
Inductive Piece := Token (t : string) | Delimiter (a : ascii).

Fixpoint pieces (f : ascii -> bool) (s : string) : list Piece :=
  match s with
  | "" => []
  | String a s =>
    if f a then
      match pieces f s with
      | Token t :: l => Token (String a t) :: l
      | l => Token (String a "") :: l
      end
    else Delimiter a :: pieces f s
  end.

Definition piece_text (p : Piece) : string := match p with Token t => t | Delimiter a => String a "" end.
Definition text_of (l : list Piece) : string := foldr (fun p s => piece_text p +:+ s) "" l.
Definition tokens (l : list Piece) : list string := omap (fun p => match p with Token t => Some t | Delimiter _ => None end) l.

(** ** Extended keys *)

Record DecodedXpub := {
  normalized : string;
  network_kind : NetworkKind;
  script_hint : option ScriptKind;
  converted : bool;
  multisig_only : bool;
}.

Record Slip132Hint := { prefix : string; h_script : option ScriptKind; h_multisig_only : bool }.

Section Read.
Context `{Keys}.

Definition decode_extended_key (token : string) : CoreResult DecodedXpub :=
  match decode_check token with
  | Err e => Err (InvalidInput "extended key" ("base58 decoding failed: " +:+ e))
  | Ok data =>
    if negb (length data =? 78)%nat then
      Err (InvalidInput "extended key" ("expected 78 bytes of payload, got " +:+ dec (Z.of_nat (length data))))
    else
      let version := take 4 data in
      if any (fun e => bool_decide (private_version e = version)) ENCODINGS then Err PrivateMaterialRejected
      else
        match List.find (fun e => bool_decide (public_version e = version)) ENCODINGS with
        | None => Err (InvalidInput "extended key" "unknown version bytes")
        | Some encoding =>
          match standard (mainnet encoding) with
          | None => Err (Internal "both standard encodings are in the table")
          | Some standard =>
            let standard := public_version standard in
            let normalized_bytes := standard ++ drop 4 data in
            match Xpub_decode normalized_bytes with
            | Err e => Err (InvalidInput "extended key" ("invalid BIP32 payload: " +:+ e))
            | Ok _ =>
              Ok {| normalized := encode_check normalized_bytes;
                    network_kind := if mainnet encoding then Main else Test;
                    script_hint := e_script encoding;
                    converted := negb (bool_decide (version = standard));
                    multisig_only := e_multisig_only encoding |}
            end
          end
        end
  end.

Definition standard_form (token : string) : CoreResult (option (string * Slip132Hint)) :=
  if has_private_prefix token then Err PrivateMaterialRejected
  else
    match slip132_public_prefix token with
    | None => Ok None
    | Some prefix =>
      match decode_extended_key token with
      | Ok decoded =>
        Ok (if converted decoded
            then Some (normalized decoded,
                       {| prefix := prefix; h_script := script_hint decoded; h_multisig_only := multisig_only decoded |})
            else None)
      | Err PrivateMaterialRejected => Err PrivateMaterialRejected
      | Err _ => Ok None
      end
    end.

(** The loop of [normalize_descriptor_keys]: the text rewritten, and the
    hints. *)
Fixpoint rewrite_pieces (l : list Piece) : CoreResult (string * list Slip132Hint) :=
  match l with
  | [] => Ok ("", [])
  | Delimiter a :: l => let? rest := rewrite_pieces l in Ok (String a rest.1, rest.2)
  | Token t :: l =>
    let? form := standard_form t in
    let? rest := rewrite_pieces l in
    Ok (match form with
        | Some (standard, hint) => (standard +:+ rest.1, hint :: rest.2)
        | None => (t +:+ rest.1, rest.2)
        end)
  end.

Definition normalize_descriptor_keys (descriptor : string) : CoreResult (string * list Slip132Hint) :=
  let '(body, checksum) := match split_once "#" descriptor with
                           | Some (body, checksum) => (body, Some checksum)
                           | None => (descriptor, None)
                           end in
  let? rewritten := rewrite_pieces (pieces is_base58_char body) in
  let '(rewritten, hints) := rewritten in
  match hints with
  | [] => Ok (descriptor, hints)
  | _ =>
    match checksum with
    | None => Ok (rewritten, hints)
    | Some given =>
      match desc_checksum body with
      | Ok sum =>
        if bool_decide (sum = given) then
          match desc_checksum rewritten with
          | Err e => Err (InvalidInput "descriptor" e)
          | Ok fresh => Ok (rewritten +:+ "#" +:+ fresh, hints)
          end
        else Ok (descriptor, [])
      | Err _ => Ok (descriptor, [])
      end
    end
  end.

(** ** Private material *)

(** [split_whitespace]: the words of a text. *)
Fixpoint words_from (l : list code_point) : list (list code_point) :=
  match l with
  | [] => []
  | c :: l =>
    if is_whitespace c then words_from l
    else match l with
         | d :: _ =>
           if is_whitespace d then [c] :: words_from l
           else match words_from l with w :: ws => (c :: w) :: ws | [] => [[c]] end
         | [] => [[c]]
         end
  end.

Definition seed_word (w : list code_point) : bool :=
  let len := String.length (of_chars w) in
  (3 <=? len)%nat && (len <=? 8)%nat && all (between 97 122) w.

(** A token that is a private key: an extended one by its spelling, or
    one in wallet import format by its bytes. *)
Definition private_token (token : string) : bool :=
  if (String.length token <? 20)%nat then false
  else
    has_private_prefix token
    || (((String.length token =? 51)%nat || (String.length token =? 52)%nat)
        && match decode_check token with
           | Ok ((first :: _) as decoded) =>
             ((length decoded =? 33)%nat || (length decoded =? 34)%nat) && ((first =? 0x80) || (first =? 0xEF))
           | _ => false
           end).

Definition seed_phrase (input : string) : bool :=
  let words := words_from (chars input) in
  bool_decide (length words ∈ [12; 15; 18; 21; 24]%nat) && all seed_word words.

Definition reject_private_material (input : string) : CoreResult unit :=
  if any private_token (tokens (pieces is_base58_char input)) then Err PrivateMaterialRejected
  else if seed_phrase input then Err PrivateMaterialRejected
  else Ok tt.
End Read.

(** ** What base 58 promises

    Encoding and decoding are inverse of each other, on bytes; a text of
    base 58 is written in its alphabet; and, what the tests of the source
    check of every encoding, a payload of 78 bytes under the version
    bytes of an encoding is spelled with its prefix. *)
Definition is_bytes (l : list Z) : Prop := List.Forall in_u8 l.

Class KeysLaws `{Keys} := {
  decode_encode : forall data, is_bytes data -> decode_check (encode_check data) = Ok data;
  encode_decode : forall token data, decode_check token = Ok data -> encode_check data = token;
  decoded_bytes : forall token data, decode_check token = Ok data -> is_bytes data;
  encoded_base58 : forall data, str_all is_base58_char (encode_check data) = true;
  spelled : forall e data, In e ENCODINGS -> length data = 78%nat ->
    (take 4 data = public_version e -> starts_with (public e) (encode_check data) = true)
    /\ (take 4 data = private_version e -> starts_with (private e) (encode_check data) = true);
}.

(** ** Pieces *)

Lemma starts_with_app p s : starts_with p s = true <-> exists r, s = p +:+ r.
Proof.
  unfold starts_with. split.
  - revert s. induction p as [|a p IH]; intros s; [by exists s|]. destruct s as [|b s]; simpl; [done|].
    destruct (Ascii.eqb_spec a b) as [->|]; [|done]. intros Hs. destruct (IH s Hs) as [r ->]. by exists r.
  - intros [r ->]. by rewrite strip_prefix_app.
Qed.

Section Pieces.
Variable f : ascii -> bool.

Lemma text_of_pieces s : text_of (pieces f s) = s.
Proof.
  induction s as [|a s IH]; [done|]. simpl. destruct (f a); simpl; [|by rewrite IH].
  destruct (pieces f s) as [|[t|b] l]; simpl in *; by rewrite IH.
Qed.

(** A list of pieces as [pieces] makes them: tokens of taken characters,
    none empty, none next to another. *)
Fixpoint well_cut (l : list Piece) : Prop :=
  match l with
  | [] => True
  | Delimiter a :: l => f a = false /\ well_cut l
  | Token t :: l => t <> "" /\ str_all f t = true /\ well_cut l /\ match l with Token _ :: _ => False | _ => True end
  end.

Lemma pieces_well_cut s : well_cut (pieces f s).
Proof.
  induction s as [|a s IH]; [done|]. simpl. destruct (f a) eqn:Ea; simpl; [|done].
  destruct (pieces f s) as [|[t|b] l]; simpl in *; rewrite ?Ea; try done.
  destruct IH as (? & ? & ? & ?). split; [done|]. by split.
Qed.

Lemma pieces_token t l : str_all f t = true -> t <> "" -> match l with Token _ :: _ => False | _ => True end ->
  well_cut l -> pieces f (t +:+ text_of l) = Token t :: pieces f (text_of l).
Proof.
  intros Ht Hne Hl Hw. assert (Hhead : match pieces f (text_of l) with Token _ :: _ => False | _ => True end).
  { destruct l as [|[u|a] l]; simpl; [done|done|]. destruct Hw as [-> _]. done. }
  induction t as [|a t IH]; [done|]. simpl in Ht. apply andb_true_iff in Ht as [Ha Ht]. simpl. rewrite Ha.
  destruct t as [|b t]; [simpl; destruct (pieces f (text_of l)) as [|[u|c] l']; done|].
  rewrite IH by done. done.
Qed.

Lemma pieces_text_of l : well_cut l -> pieces f (text_of l) = l.
Proof.
  induction l as [|[t|a] l IH]; [done| |]; simpl.
  - intros (Hne & Ht & Hw & Hn). rewrite pieces_token by done. by rewrite IH.
  - intros [Ha Hw]. by rewrite Ha, IH.
Qed.

Lemma pieces_delimiter p a q : f a = false -> pieces f (p +:+ String a q) = pieces f p ++ Delimiter a :: pieces f q.
Proof.
  intros Ha. induction p as [|b p IH]; simpl; [by rewrite Ha|]. rewrite IH. destruct (f b); [|done].
  by destruct (pieces f p) as [|[t|c] l].
Qed.

(** A token in a text, between characters that are none of its own. *)
Lemma token_in p t q : str_all f t = true -> t <> "" ->
  match q with String a _ => f a = false | "" => True end ->
  p = "" \/ (exists p' a, p = p' +:+ String a "" /\ f a = false) -> In t (tokens (pieces f (p +:+ t +:+ q))).
Proof.
  intros Ht Hne Hq Hp. assert (Hhere : pieces f (t +:+ q) = Token t :: pieces f q).
  { rewrite <- (text_of_pieces q) at 1. rewrite pieces_token; [by rewrite text_of_pieces|done|done| |apply pieces_well_cut].
    destruct q as [|a q]; simpl; [done|]. by rewrite Hq. }
  destruct Hp as [->|(p' & a & -> & Ha)]; [simpl; rewrite Hhere; by left|]. rewrite str_app_assoc. simpl.
  rewrite pieces_delimiter, Hhere by done. unfold tokens. rewrite omap_app. apply in_app_iff. right. by left.
Qed.
End Pieces.

(** ** Extended keys *)

Section Laws.
Context `{KeysLaws}.

Definition private_payload (data : list Z) : Prop :=
  length data = 78%nat /\ exists e, In e ENCODINGS /\ take 4 data = private_version e.

Lemma any_intro {A} (f : A -> bool) l y : In y l -> f y = true -> any f l = true.
Proof. intros. apply any_true. eauto. Qed.

Lemma private_spelled token data : decode_check token = Ok data -> private_payload data ->
  has_private_prefix token = true /\ str_all is_base58_char token = true /\ token <> "".
Proof.
  intros Hd [Hl (e & He & Hv)]. rewrite <- (encode_decode _ _ Hd).
  destruct (spelled e data He Hl) as [_ Hs]. specialize (Hs Hv).
  split; [by apply (any_intro _ _ e)|]. split; [apply encoded_base58|]. intros Hempty. rewrite Hempty in Hs.
  repeat (destruct He as [<-|He]; [done|]). done.
Qed.

Lemma standard_form_error token e : standard_form token = Err e -> e = PrivateMaterialRejected.
Proof.
  unfold standard_form. destruct (has_private_prefix token); [by intros [= <-]|].
  destruct (slip132_public_prefix token); [|done]. destruct (decode_extended_key token) as [d|[]]; try done. by intros [= <-].
Qed.

Lemma rewrite_pieces_error l t : In t (tokens l) -> standard_form t = Err PrivateMaterialRejected ->
  rewrite_pieces l = Err PrivateMaterialRejected.
Proof.
  intros Hin Ht. induction l as [|[u|a] l IH]; [done| |]; csimpl in Hin; cbn [rewrite_pieces].
  - destruct Hin as [->|Hin]; [by rewrite Ht|]. destruct (standard_form u) as [form|e] eqn:Eu.
    + cbn [result_bind]. by rewrite (IH Hin).
    + apply standard_form_error in Eu as ->. done.
  - by rewrite (IH Hin).
Qed.

Lemma str_all_lacks f c s : f c = false -> str_all f s = true -> lacks c s = true.
Proof.
  intros Hc Hs. eapply str_all_impl; [|exact Hs]. intros b Hb. apply negb_true_iff.
  destruct (Ascii.eqb_spec b c) as [->|]; congruence.
Qed.

Lemma split_once_none c s : split_once c s = None -> lacks c s = true.
Proof.
  induction s as [|a s IH]; [done|]. simpl. destruct (a =? c)%char eqn:E; [done|].
  destruct (split_once c s) as [[]|] eqn:Es; [done|]. intros _. unfold lacks in *. simpl. by rewrite E, IH.
Qed.

(** The body of a descriptor: what precedes its first [#]. *)
Lemma split_once_body p q : lacks "#" p = true ->
  split_once "#" (p +:+ q) = match split_once "#" q with Some (l, r) => Some (p +:+ l, r) | None => None end.
Proof.
  induction p as [|a p IH]; simpl; [by destruct (split_once "#" q) as [[l r]|]|].
  intros [Ha Hp]%andb_true_iff. apply negb_true_iff in Ha. rewrite Ha, (IH Hp). by destruct (split_once "#" q) as [[l r]|].
Qed.

(** An extended private key never comes in. Any text that decodes to
    the payload of one, under the version bytes of any encoding, is
    refused when decoded, is refused unread wherever it stands in the
    body of a descriptor, between characters that are not base 58, and
    is refused anywhere in a text of any kind. *)
Theorem private_keys_are_refused token data p q : decode_check token = Ok data -> private_payload data ->
  match q with String a _ => is_base58_char a = false | "" => True end ->
  p = "" \/ (exists p' a, p = p' +:+ String a "" /\ is_base58_char a = false) ->
  decode_extended_key token = Err PrivateMaterialRejected
  /\ (lacks "#" p = true -> normalize_descriptor_keys (p +:+ token +:+ q) = Err PrivateMaterialRejected)
  /\ ((20 <= String.length token)%nat -> reject_private_material (p +:+ token +:+ q) = Err PrivateMaterialRejected).
Proof.
  intros Hd Hpriv Hq Hp. destruct (private_spelled _ _ Hd Hpriv) as (Hprefix & Hb58 & Hne).
  assert (Hform : standard_form token = Err PrivateMaterialRejected) by (unfold standard_form; by rewrite Hprefix).
  split; [|split].
  - unfold decode_extended_key. destruct Hpriv as [Hl (e & He & Hv)]. rewrite Hd, Hl. cbn [negb Nat.eqb].
    by rewrite (any_intro _ _ e He) by (by apply bool_decide_eq_true).
  - intros Hlp. unfold normalize_descriptor_keys. assert (Hlt : lacks "#" (p +:+ token) = true).
    { rewrite lacks_app, Hlp. by apply (str_all_lacks is_base58_char). }
    rewrite <- str_app_assoc, split_once_body by done. assert (Hgen : forall r, match r with String a _ => is_base58_char a = false | "" => True end ->
      rewrite_pieces (pieces is_base58_char ((p +:+ token) +:+ r)) = Err PrivateMaterialRejected).
    { intros r Hr. rewrite str_app_assoc. eapply rewrite_pieces_error; [by apply token_in|done]. }
    destruct (split_once "#" q) as [[l r]|] eqn:Eq; [|by rewrite Hgen].
    rewrite Hgen; [done|]. destruct q as [|a q]; [done|]. simpl in Eq. destruct (a =? "#")%char; [by injection Eq as <-|].
    destruct (split_once "#" q) as [[l' r']|]; [by injection Eq as <-|done].
  - intros Hlen. unfold reject_private_material. rewrite (any_intro _ _ token); [done|by apply token_in|].
    unfold private_token. destruct (Nat.ltb_spec (String.length token) 20); [lia|]. by rewrite Hprefix.
Qed.

Lemma key_read token key : decode_extended_key token = Ok key ->
  exists data e s, decode_check token = Ok data /\ In e ENCODINGS /\ take 4 data = public_version e
    /\ standard (mainnet e) = Some s /\ decode_check (normalized key) = Ok (public_version s ++ drop 4 data)
    /\ starts_with (public s) (normalized key) = true
    /\ network_kind key = (if mainnet e then Main else Test) /\ script_hint key = e_script e
    /\ (converted key = false -> normalized key = token)
    /\ decode_extended_key (normalized key)
       = Ok {| normalized := normalized key; network_kind := network_kind key; script_hint := None; converted := false;
               multisig_only := false |}.
Proof.
  unfold decode_extended_key at 1. destruct (decode_check token) as [data|] eqn:Ed; [|done].
  destruct (Nat.eqb_spec (length data) 78) as [Hl|]; [|done]. cbn [negb].
  destruct (any _ ENCODINGS) eqn:Epriv; [done|]. destruct (List.find _ ENCODINGS) as [e|] eqn:Ee; [|done].
  apply List.find_some in Ee as [He Hv]. apply bool_decide_eq_true in Hv.
  assert (Hs : exists s, standard (mainnet e) = Some s /\ In s ENCODINGS /\ length (public_version s) = 4%nat /\ mainnet s = mainnet e
      /\ e_script s = None /\ e_multisig_only s = false /\ is_bytes (public_version s)
      /\ any (fun e' => bool_decide (private_version e' = public_version s)) ENCODINGS = false
      /\ List.find (fun e' => bool_decide (public_version e' = public_version s)) ENCODINGS = Some s).
  { destruct (mainnet e); (eexists; split; [reflexivity|]); (split; [vm_compute; tauto|]); repeat (split; [reflexivity|]);
      (split; [repeat constructor; vm_compute; done|]); by vm_compute. }
  destruct Hs as (s & Es & Hin & Hls & Hnet & Hscript & Hmulti & Hbytes & Hnp & Hfind). rewrite Es.
  set (bytes := public_version s ++ drop 4 data). destruct (Xpub_decode bytes) as [[]|] eqn:Ex; [|done]. intros [= <-].
  assert (Hb : is_bytes bytes).
  { apply List.Forall_app. split; [done|]. apply List.Forall_forall. intros x Hx. pose proof (decoded_bytes _ _ Ed) as Hall.
    rewrite <- (take_drop 4 data) in Hall. apply List.Forall_app in Hall as [_ Hall]. rewrite List.Forall_forall in Hall. by apply Hall. }
  assert (Hlb : length bytes = 78%nat) by (unfold bytes; rewrite length_app, length_drop, Hl, Hls; lia).
  assert (Htake : take 4 bytes = public_version s) by (unfold bytes; rewrite <- Hls; apply take_app_length).
  exists data, e, s. cbn [normalized network_kind script_hint converted]. split; [done|]. split; [done|]. split; [done|]. split; [done|].
  split; [by apply decode_encode|]. split; [by apply (spelled s bytes Hin Hlb)|]. split; [done|]. split; [done|]. split.
  - intros Hc. apply negb_false_iff, bool_decide_eq_true in Hc. rewrite <- (encode_decode _ _ Ed). f_equal. unfold bytes.
    rewrite <- Hc. apply take_drop.
  - unfold decode_extended_key. rewrite (decode_encode _ Hb), Hlb. cbn [negb Nat.eqb]. rewrite Htake, Hnp, Hfind, Hnet, Es.
    replace (public_version s ++ drop 4 bytes) with bytes by (unfold bytes; rewrite <- Hls at 2; by rewrite drop_app_length).
    rewrite Ex, Hscript, Hmulti. by rewrite bool_decide_true.
Qed.
(** An extended key read is the key it was: the standard spelling
    decodes to the same payload under the standard version bytes of the
    same network, and reads back as itself, standard already, of the same
    network, for no script in particular. *)
Theorem key_read_is_the_same token key : decode_extended_key token = Ok key ->
  exists data e s, decode_check token = Ok data /\ In e ENCODINGS /\ take 4 data = public_version e
    /\ standard (mainnet e) = Some s /\ decode_check (normalized key) = Ok (public_version s ++ drop 4 data)
    /\ starts_with (public s) (normalized key) = true
    /\ network_kind key = (if mainnet e then Main else Test) /\ script_hint key = e_script e
    /\ (converted key = false -> normalized key = token)
    /\ decode_extended_key (normalized key)
       = Ok {| normalized := normalized key; network_kind := network_kind key; script_hint := None; converted := false;
               multisig_only := false |}.
Proof. apply key_read. Qed.

Lemma standard_key_stays token key : decode_extended_key token = Ok key ->
  standard_form (normalized key) = Ok None /\ str_all is_base58_char (normalized key) = true /\ normalized key <> "".
Proof.
  intros Hk. destruct (key_read _ _ Hk) as (data & e & s & Hd & He & _ & Hs & Hdn & Hstart & _ & _ & _ & Hself).
  split; [|split].
  - unfold standard_form. replace (has_private_prefix (normalized key)) with false.
    + destruct (slip132_public_prefix (normalized key)); [|done]. by rewrite Hself.
    + apply starts_with_app in Hstart as [r ->]. destruct (mainnet e); injection Hs as <-; reflexivity.
  - rewrite <- (encode_decode _ _ Hdn). apply encoded_base58.
  - intros Hempty. rewrite Hempty in Hstart. destruct (mainnet e); injection Hs as <-; done.
Qed.

Lemma rewritten_stays l text hints : well_cut is_base58_char l -> rewrite_pieces l = Ok (text, hints) ->
  (hints = [] -> text = text_of l)
  /\ exists l', text = text_of l' /\ well_cut is_base58_char l' /\ rewrite_pieces l' = Ok (text, [])
    /\ length l' = length l /\ match l', l with Token _ :: _, Token _ :: _ | Delimiter _ :: _, Delimiter _ :: _ | [], [] => True | _, _ => False end
    /\ (lacks "#" (text_of l) = true -> lacks "#" text = true).
Proof.
  revert text hints. induction l as [|[t|a] l IH]; intros text hints Hw; cbn [rewrite_pieces].
  - intros [= <- <-]. split; [done|]. exists []. done.
  - destruct Hw as (Hne & Hb & Hw & Hn). destruct (standard_form t) as [form|] eqn:Ef; [|done]. cbn [result_bind].
    destruct (rewrite_pieces l) as [[rest hs]|] eqn:Er; [|done]. cbn [result_bind fst snd].
    destruct (IH _ _ Hw eq_refl) as (Hsame & l' & -> & Hw' & Hr' & Hlen & Hhd & Hlacks).
    assert (Hn' : match l' with Token _ :: _ => False | _ => True end) by (destruct l' as [|[]], l as [|[]]; done).
    destruct form as [[key hint]|].
    + intros [= <- <-]. split; [done|]. exists (Token key :: l').
      assert (Hk : exists k, decode_extended_key t = Ok k /\ key = normalized k).
      { revert Ef. unfold standard_form. destruct (has_private_prefix t); [done|]. destruct (slip132_public_prefix t); [|done].
        destruct (decode_extended_key t) as [k|[]]; try done. destruct (converted k); [|done]. intros [= <- _]. by exists k. }
      destruct Hk as (k & Hk & ->). destruct (standard_key_stays _ _ Hk) as (Hform & Hkb & Hkne).
      split; [done|]. split; [done|]. split; [cbn [rewrite_pieces]; by rewrite Hform; cbn [result_bind]; rewrite Hr'|].
      split; [simpl; by rewrite Hlen|]. split; [done|]. cbn [text_of foldr piece_text]. rewrite !lacks_app.
      rewrite (str_all_lacks is_base58_char "#" (normalized k)) by done. intros [_ Hx]%andb_true_iff. by apply Hlacks.
    + intros [= <- <-]. split; [intros ->; by rewrite Hsame|]. exists (Token t :: l'). split; [done|]. split; [done|].
      split; [cbn [rewrite_pieces]; by rewrite Ef; cbn [result_bind]; rewrite Hr'|]. split; [simpl; by rewrite Hlen|]. split; [done|].
      cbn [text_of foldr piece_text]. rewrite !lacks_app. intros [-> Hx]%andb_true_iff. by apply Hlacks.
  - destruct Hw as (Ha & Hw). destruct (rewrite_pieces l) as [[rest hs]|] eqn:Er; [|done]. cbn [result_bind fst snd].
    destruct (IH _ _ Hw eq_refl) as (Hsame & l' & -> & Hw' & Hr' & Hlen & Hhd & Hlacks). intros [= <- <-].
    split; [intros ->; cbn [text_of foldr piece_text]; simpl; f_equal; by apply Hsame|]. exists (Delimiter a :: l').
    split; [done|]. split; [done|]. split; [cbn [rewrite_pieces]; by rewrite Hr'|]. split; [simpl; by rewrite Hlen|]. split; [done|].
    change (lacks "#" (String a "" +:+ text_of l) = true -> lacks "#" (String a "" +:+ text_of l') = true).
    rewrite !lacks_app. intros [Hc Hx]%andb_true_iff. rewrite Hc. by apply Hlacks.
Qed.

(** A descriptor normalised stays as it is: normalised again, it comes
    back whole, checksum included, with no key to rewrite; and one that
    comes back with nothing rewritten is the descriptor given. *)
Theorem normalized_stays descriptor normalized hints : normalize_descriptor_keys descriptor = Ok (normalized, hints) ->
  normalize_descriptor_keys normalized = Ok (normalized, []) /\ (hints = [] -> normalized = descriptor).
Proof.
  unfold normalize_descriptor_keys at 1. destruct (split_once "#" descriptor) as [[body given]|] eqn:Es.
  - destruct (rewrite_pieces (pieces is_base58_char body)) as [[text hs]|] eqn:Er; [|done]. cbn [result_bind].
    destruct (rewritten_stays _ _ _ (pieces_well_cut _ body) Er) as (_ & l' & -> & Hw' & Hr' & _ & _ & Hlacks).
    rewrite text_of_pieces in Hlacks. apply split_once_inv in Es as [-> Hb]. specialize (Hlacks Hb).
    assert (Hsame : forall hs', rewrite_pieces (pieces is_base58_char body) = Ok (text_of l', hs') -> hs' = hs) by congruence.
    destruct hs as [|h hs].
    + intros [= <- <-]. split; [|done]. unfold normalize_descriptor_keys. rewrite split_once_app by done. by rewrite Er.
    + destruct (desc_checksum body) as [sum|] eqn:Ec.
      * case_bool_decide as Hsum.
        -- destruct (desc_checksum (text_of l')) as [fresh|] eqn:Ef; [|done]. intros [= <- <-]. split; [|done].
           unfold normalize_descriptor_keys. change ("#" +:+ fresh) with (String "#" fresh). rewrite split_once_app by done.
           rewrite pieces_text_of by done. by rewrite Hr'.
        -- intros [= <- <-]. split; [|done]. unfold normalize_descriptor_keys. rewrite split_once_app by done. rewrite Er. cbn [result_bind].
           rewrite Ec. by rewrite bool_decide_false.
      * intros [= <- <-]. split; [|done]. unfold normalize_descriptor_keys. rewrite split_once_app by done. rewrite Er. cbn [result_bind].
        by rewrite Ec.
  - destruct (rewrite_pieces (pieces is_base58_char descriptor)) as [[text hs]|] eqn:Er; [|done]. cbn [result_bind].
    destruct (rewritten_stays _ _ _ (pieces_well_cut _ descriptor) Er) as (_ & l' & -> & Hw' & Hr' & _ & _ & Hlacks).
    rewrite text_of_pieces in Hlacks. destruct hs as [|h hs].
    + intros [= <- <-]. split; [|done]. unfold normalize_descriptor_keys. by rewrite Es, Er.
    + intros [= <- <-]. split; [|done]. unfold normalize_descriptor_keys.
      assert (Hb : lacks "#" descriptor = true) by by apply split_once_none.
      rewrite split_once_lacks by auto. rewrite pieces_text_of by done. by rewrite Hr'.
Qed.
End Laws.

(** ** A base 58 that keeps the promises

    Each byte on two letters, after the prefix of its version bytes. *)
Module Demo.
Definition letter (n : Z) : ascii := ascii_of_N (Z.to_N (if n <? 11 then 97 + n else 98 + n)).
Definition value (a : ascii) : option Z :=
  let n := Z.of_N (byte_of a) in
  if (97 <=? n) && (n <? 108) then Some (n - 97) else if (109 <=? n) && (n <? 114) then Some (n - 98) else None.

Fixpoint letters (data : list Z) : string :=
  match data with [] => "" | b :: data => String (letter (b / 16 mod 16)) (String (letter (b mod 16)) (letters data)) end.

Fixpoint values (s : string) : option (list Z) :=
  match s with
  | "" => Some []
  | String a (String b s) =>
    match value a, value b, values s with Some x, Some y, Some l => Some (16 * x + y :: l) | _, _, _ => None end
  | _ => None
  end.

Definition spellings : list (list Z * string) :=
  List.map (fun e => (public_version e, public e)) ENCODINGS ++ List.map (fun e => (private_version e, private e)) ENCODINGS.

Definition prefix_of (data : list Z) : string :=
  if (length data =? 78)%nat then
    match List.find (fun p => bool_decide (p.1 = take 4 data)) spellings with Some p => p.2 | None => "" end
  else "".

Definition encode (data : list Z) : string := prefix_of data +:+ String "1" (letters data).
Definition decode (token : string) : result (list Z) string :=
  match split_once "1" token with
  | Some (p, s) =>
    match values s with
    | Some data => if bool_decide (p = prefix_of data) then Ok data else Err "another prefix"
    | None => Err "not a letter"
    end
  | None => Err "no mark"
  end.

#[export] Instance demo_keys : Keys :=
  {| decode_check := decode; encode_check := encode; Xpub_decode := fun _ => Ok tt;
     desc_checksum := fun s => Ok (dec (Z.of_nat (String.length s))) |}.

Definition all_digits : list Z := List.map Z.of_nat (seq 0 16).

Lemma letter_right n : 0 <= n < 16 -> value (letter n) = Some n /\ is_base58_char (letter n) = true /\ letter n <> "1"%char.
Proof.
  intros Hn. assert (Hall : forallb (fun n => bool_decide (value (letter n) = Some n) && is_base58_char (letter n)
    && negb (letter n =? "1")%char) all_digits = true) by (vm_compute; done).
  rewrite forallb_forall in Hall. specialize (Hall n). rewrite !andb_true_iff, bool_decide_eq_true, negb_true_iff, Ascii.eqb_neq in Hall.
  destruct Hall as [[? ?] ?]; [|done]. unfold all_digits. apply in_map_iff. exists (Z.to_nat n). split; [lia|]. apply in_seq. lia.
Qed.

Lemma value_letter a n : value a = Some n -> 0 <= n < 16 /\ letter n = a.
Proof.
  unfold value, letter. cbv zeta. set (m := Z.of_N (byte_of a)) in *.
  destruct ((97 <=? m) && (m <? 108)) eqn:E1; [|destruct ((109 <=? m) && (m <? 114)) eqn:E2; [|discriminate]]; intros [= <-]; subst m;
    rewrite ?andb_true_iff, ?Z.leb_le, ?Z.ltb_lt in *.
  - split; [lia|]. destruct (Z.ltb_spec (Z.of_N (byte_of a) - 97) 11); [|lia].
    replace (97 + _) with (Z.of_N (byte_of a)) by lia. rewrite N2Z.id. apply ascii_N_embedding.
  - split; [lia|]. destruct (Z.ltb_spec (Z.of_N (byte_of a) - 98) 11); [lia|].
    replace (98 + _) with (Z.of_N (byte_of a)) by lia. rewrite N2Z.id. apply ascii_N_embedding.
Qed.

Lemma values_letters data : is_bytes data -> values (letters data) = Some data.
Proof.
  induction 1 as [|b data Hb _ IH]; [done|]. simpl. unfold in_u8, u8_max in Hb.
  assert (0 <= b / 16 < 16) by (split; [apply Z.div_pos; lia|apply Z.div_lt_upper_bound; lia]).
  pose proof (Z.mod_pos_bound b 16 ltac:(lia)). rewrite (Z.mod_small (b / 16)) by lia.
  destruct (letter_right (b / 16)) as (-> & _); [lia|]. destruct (letter_right (b mod 16)) as (-> & _); [lia|]. rewrite IH.
  do 2 f_equal. pose proof (Z.div_mod b 16 ltac:(lia)). lia.
Qed.

Lemma letters_values fuel : forall s data, (String.length s <= fuel)%nat -> values s = Some data -> letters data = s /\ is_bytes data.
Proof.
  induction fuel as [|fuel IH]; intros [|a [|b s]] data Hlen; simpl in *; try done; try lia;
    try (intros [= <-]; split; [done|constructor]).
  destruct (value a) as [x|] eqn:Ea; [|done]. destruct (value b) as [y|] eqn:Eb; [|done].
  destruct (values s) as [l|] eqn:Es; [|done]. intros [= <-]. destruct (IH s l ltac:(lia) Es) as [Hs Hl].
  apply value_letter in Ea as [Hx Hla], Eb as [Hy Hlb]. split.
  - simpl. rewrite (Z.add_comm (16 * x)), (Z.mul_comm 16 x), Z.div_add, (Z.div_small y 16), Z.add_0_l, (Z.mod_small x 16) by lia.
    rewrite Z.mod_add, (Z.mod_small y 16) by lia. by rewrite Hla, Hlb, Hs.
  - constructor; [unfold in_u8, u8_max; lia|done].
Qed.

Lemma letters_base58 data : str_all is_base58_char (letters data) = true.
Proof.
  induction data as [|b data IH]; [done|]. simpl.
  destruct (letter_right (b / 16 mod 16)) as (_ & -> & _); [by apply Z.mod_pos_bound|].
  destruct (letter_right (b mod 16)) as (_ & -> & _); [by apply Z.mod_pos_bound|]. done.
Qed.

Lemma prefix_right data : str_all is_base58_char (prefix_of data) = true /\ lacks "1" (prefix_of data) = true.
Proof.
  unfold prefix_of. destruct (_ =? _)%nat; [|done]. destruct (List.find _ spellings) as [p|] eqn:E; [|done].
  apply List.find_some in E as [Hin _].
  assert (Hall : forallb (fun p => str_all is_base58_char p.2 && lacks "1" p.2) spellings = true) by (vm_compute; done).
  rewrite forallb_forall in Hall. by apply andb_true_iff, Hall.
Qed.

Lemma prefix_known data v spelling : length data = 78%nat -> take 4 data = v ->
  List.find (fun p => bool_decide (p.1 = v)) spellings = Some (v, spelling) -> starts_with spelling (encode data) = true.
Proof. intros Hl <- Hf. apply starts_with_app. unfold encode, prefix_of. rewrite Hl. cbn [Nat.eqb]. rewrite Hf. by eexists. Qed.

#[export] Instance demo_laws : KeysLaws.
Proof.
  split; cbn [decode_check encode_check demo_keys].
  - intros data Hd. unfold decode, encode. destruct (prefix_right data) as [_ Hp]. rewrite split_once_app by done.
    rewrite values_letters by done. by rewrite bool_decide_true.
  - intros token data. unfold decode. destruct (split_once "1" token) as [[p s]|] eqn:E; [|done].
    destruct (values s) as [d|] eqn:Es; [|done]. case_bool_decide as Hp; [|done]. intros [= <-].
    apply split_once_inv in E as [-> _]. destruct (letters_values _ _ _ (le_n _) Es) as [Hs _]. unfold encode. by rewrite Hs, Hp.
  - intros token data. unfold decode. destruct (split_once "1" token) as [[p s]|] eqn:E; [|done].
    destruct (values s) as [d|] eqn:Es; [|done]. case_bool_decide; [|done]. intros [= <-]. by apply (letters_values _ _ _ (le_n _) Es).
  - intros data. unfold encode. rewrite str_all_app. destruct (prefix_right data) as [-> _]. simpl. by rewrite letters_base58.
  - intros e data He Hl. assert (Hall : forallb (fun e =>
      bool_decide (List.find (fun p => bool_decide (p.1 = public_version e)) spellings = Some (public_version e, public e))
      && bool_decide (List.find (fun p => bool_decide (p.1 = private_version e)) spellings = Some (private_version e, private e)))
      ENCODINGS = true) by (vm_compute; done).
    rewrite forallb_forall in Hall. specialize (Hall e He). rewrite andb_true_iff, !bool_decide_eq_true in Hall.
    destruct Hall. split; intros Hv; by eapply prefix_known.
Qed.

Definition payload (version : list Z) : list Z := version ++ repeat 7 74.
Definition zpub : string := encode (payload [0x04; 0xB2; 0x47; 0x46]).
Definition xpub : string := encode (payload [0x04; 0x88; 0xB2; 0x1E]).
Definition zprv : string := encode (payload [0x04; 0xB2; 0x43; 0x0C]).

Example demo_rewritten : normalize_descriptor_keys ("wpkh([deadbeef/84h]" +:+ zpub +:+ "/0/*)")
  = Ok ("wpkh([deadbeef/84h]" +:+ xpub +:+ "/0/*)", [{| prefix := "zpub"; h_script := Some Segwit; h_multisig_only := false |}]).
Proof. vm_compute. reflexivity. Qed.
End Demo.
#[local] Existing Instances Demo.demo_keys Demo.demo_laws.

Lemma private_keys_are_refused_witness : normalize_descriptor_keys ("wpkh(" +:+ Demo.zprv +:+ "/0/*)") = Err PrivateMaterialRejected.
Proof.
  refine (proj1 (proj2 (private_keys_are_refused Demo.zprv (Demo.payload [0x04; 0xB2; 0x43; 0x0C]) "wpkh(" "/0/*)" _ _ _ _)) _).
  - vm_compute. reflexivity.
  - split; [reflexivity|]. exists (encoding ("zpub", [0x04; 0xB2; 0x47; 0x46]) ("zprv", [0x04; 0xB2; 0x43; 0x0C]) true (Some Segwit) false).
    split; [vm_compute; tauto|vm_compute; reflexivity].
  - reflexivity.
  - right. by exists "wpkh", "("%char.
  - reflexivity.
Defined.

Definition zpub_key : DecodedXpub :=
  {| normalized := Demo.xpub; network_kind := Main; script_hint := Some Segwit; converted := true; multisig_only := false |}.

Lemma key_read_is_the_same_witness : exists data, decode_check Demo.zpub = Ok data
  /\ decode_check Demo.xpub = Ok ([0x04; 0x88; 0xB2; 0x1E] ++ drop 4 data).
Proof.
  destruct (key_read_is_the_same Demo.zpub zpub_key) as (data & e & s & Hd & He & Hv & Hs & Hn & _); [vm_compute; reflexivity|].
  exists data. split; [exact Hd|]. assert (E : data = Demo.payload [0x04; 0xB2; 0x47; 0x46]).
  { vm_compute in Hd. injection Hd as <-. reflexivity. }
  subst data. vm_compute. reflexivity.
Defined.

Lemma normalized_stays_witness : normalize_descriptor_keys ("wpkh(" +:+ Demo.xpub +:+ ")#167")
  = Ok ("wpkh(" +:+ Demo.xpub +:+ ")#167", []).
Proof.
  refine (proj1 (normalized_stays ("wpkh(" +:+ Demo.zpub +:+ ")#167") ("wpkh(" +:+ Demo.xpub +:+ ")#167")
    [{| prefix := "zpub"; h_script := Some Segwit; h_multisig_only := false |}] _)).
  vm_compute. reflexivity.
Defined.
