(* ===== verification/Connect.v ===== *)
(** [chain/connect.rs]: a server address, read the way a node hands it out
    and brought to the one form the settings store; and the reading of a
    host of [chain/mod.rs]. The URL parser, Bitcoin addresses and base 58
    are other crates'. *)
From S2P Require Import Prelude Utf8 Text Errors Xpub.
From Stdlib Require Import Ascii.

(** ** Other crates *)

(** [url::Host]; an address of either family as [to_string] writes it. *)
Inductive Host := Domain (domain : string) | Ipv4 (address : string) | Ipv6 (address : string).

(** [url::Url], the parts the source reads; [port()] is none for the
    default port of a scheme. *)
Record Url := {
  scheme : string;
  username : string;
  password : option string;
  u_host : option Host;
  u_port : option Z;
  path : string;
  query : option string;
  fragment : option string;
}.

(** [Url::parse], [Host::parse], with the words of a [ParseError], and
    whether a text is a Bitcoin address of any network. *)
Class Urls := {
  Url_parse : string -> result Url string;
  Host_parse : string -> result Host string;
  is_address : string -> bool;
}.

(** ** Texts *)

(** [s.trim_end_matches(c)], [s.trim_start_matches(c)], one
    [strip_suffix(c)]. *)
Fixpoint trim_end_matches (c : ascii) (s : string) : string :=
  match s with
  | "" => ""
  | String a s =>
    match trim_end_matches c s with
    | "" => if (a =? c)%char then "" else String a ""
    | s => String a s
    end
  end.

Fixpoint trim_start_matches (c : ascii) (s : string) : string :=
  match s with
  | "" => ""
  | String a s' => if (a =? c)%char then trim_start_matches c s' else s
  end.

Fixpoint strip_suffix (c : ascii) (s : string) : option string :=
  match s with
  | "" => None
  | String a "" => if (a =? c)%char then Some "" else None
  | String a s => option_map (String a) (strip_suffix c s)
  end.

(** [s.split(set).next()]: what precedes the first character of a set. *)
Fixpoint cut_at (f : ascii -> bool) (s : string) : string :=
  match s with
  | "" => ""
  | String a s => if f a then "" else String a (cut_at f s)
  end.

Definition one_of (set : string) (a : ascii) : bool := negb (lacks a set).

Fixpoint count_char (c : ascii) (s : string) : nat :=
  match s with "" => 0 | String a s => (if (a =? c)%char then 1 else 0) + count_char c s end.

Definition has_whitespace (s : string) : bool := any is_whitespace (chars s).

(** [parse::<u16>]: a plus sign may lead. *)
Definition without_plus (s : string) : string := unwrap_or (strip_prefix "+" s) s.
Definition parse_u16 (s : string) : option Z :=
  let digits := without_plus s in
  if negb (bool_decide (digits = "")) && str_all is_digit digits && (dec_value 0 digits <=? 65535)
  then Some (dec_value 0 digits) else None.

(** [parse::<u32>()]. *)
Definition parse_u32 (s : string) : option Z :=
  let digits := without_plus s in
  if negb (bool_decide (digits = "")) && str_all is_digit digits && (dec_value 0 digits <=? u32_max)
  then Some (dec_value 0 digits) else None.

Definition is_ascii_hexdigit (a : ascii) : bool :=
  let n := byte_of a in between 48 57 n || between 97 102 n || between 65 70 n.

Definition is_ascii_alphabetic (a : ascii) : bool := let n := byte_of a in between 65 90 n || between 97 122 n.

Definition hexdigit_value (a : ascii) : N :=
  let n := byte_of a in if between 48 57 n then n - 48 else if between 97 102 n then n - 87 else n - 55.

(** ** Hosts *)

Section Hosts.
Context `{Urls}.

Definition canonical_host (host : string) : result string string :=
  let literal := if negb (lacks ":" host) && negb (starts_with "[" host) then "[" +:+ host +:+ "]" else host in
  let? parsed := Host_parse literal in
  let host := match parsed with
              | Domain domain => unwrap_or (strip_suffix "." domain) domain
              | Ipv4 address | Ipv6 address => address
              end in
  if bool_decide (host = "") then Err "empty host" else Ok host.

Definition host_of_parsed (parsed : Url) : option string :=
  match u_host parsed with
  | None => None
  | Some host =>
    let host := match host with
                | Domain domain => match canonical_host domain with Ok host => Some host | Err _ => None end
                | Ipv4 address | Ipv6 address => Some address
                end in
    match host with Some "" | None => None | Some host => Some host end
  end.

Definition host_and_port (url : string) : option (string * option Z) :=
  let text := if contains "://" url then url else "ssl://" +:+ url in
  match Url_parse text with
  | Err _ => None
  | Ok parsed => match host_of_parsed parsed with Some host => Some (host, u_port parsed) | None => None end
  end.

Definition host_of (url : string) : option string := option_map fst (host_and_port url).

Definition is_onion_host (host : string) : bool :=
  ends_with ".onion" (lower (unwrap_or (strip_suffix "." host) host)).

Definition is_onion (url : string) : bool := match host_of url with Some host => is_onion_host host | None => false end.
End Hosts.

(** ** Reading an address *)

Inductive ScannedBackendKind := Electrum | Esplora.

#[export] Instance ScannedBackendKind_eq_dec : EqDecision ScannedBackendKind.
Proof. solve_decision. Defined.

Record ScannedBackend := {
  kind : ScannedBackendKind;
  url : string;
  host : string;
  port : option Z;
  tls : bool;
  onion : bool;
}.

Definition PLAIN_PORTS : list Z := [50001; 60001; 20001; 50003].
Definition TLS_PORTS : list Z := [50002; 60002; 20002; 50004].
Definition ELECTRUM_TLS_PORT : Z := 50002.
Definition ELECTRUM_TCP_PORT : Z := 50001.

Definition reject (detail : string) : CoreError := InvalidInput "server" detail.

Definition is_bare_ipv6 (text : string) : bool :=
  (1 <? count_char ":" text)%nat && str_all (fun c => is_ascii_hexdigit c || (c =? ":")%char || (c =? ".")%char) text.

Definition split_flag (text : string) : option (string * string) :=
  if is_bare_ipv6 text then None
  else
    match rsplit_once ":" text with
    | None => None
    | Some (head, flag) =>
      if (String.length flag =? 1)%nat && str_all is_ascii_alphabetic flag then Some (head, flag) else None
    end.

Definition strip_path (rest : string) : string := cut_at (one_of "/?#") rest.

Definition port_of (port : string) : CoreResult Z :=
  match parse_u16 port with
  | Some p => if 0 <? p then Ok p else Err (reject (port +:+ " is not a port number"))
  | None => Err (reject (port +:+ " is not a port number"))
  end.

Section Read.
Context `{Keys} `{Urls}.

(** The host and the port, as text. *)
Definition host_port_text (rest : string) : CoreResult (string * option Z) :=
  match strip_prefix "[" rest with
  | Some bracketed =>
    match split_once "]" bracketed with
    | None => Err (reject "the address opens a bracket it never closes")
    | Some (host, tail) =>
      match strip_prefix ":" tail with
      | Some port => let? port := port_of port in Ok (host, Some port)
      | None => Ok (host, None)
      end
    end
  | None =>
    match rsplit_once ":" rest with
    | Some (host, port) =>
      if negb (lacks ":" host) then
        if negb (is_bare_ipv6 rest) then
          Err (reject (rest +:+ " has more than one colon and is not an IPv6 address; bracket it as [address]:port if it is"))
        else Ok (rest, None)
      else let? port := port_of port in Ok (host, Some port)
    | None => Ok (rest, None)
    end
  end.

Definition split_host_port (rest : string) : CoreResult (string * option Z) :=
  let? split := host_port_text rest in
  let '(host, port) := split in
  if bool_decide (host = "") then Err (reject "the address has no host")
  else if has_whitespace host then Err (reject "the address has a space in it")
  else
    match canonical_host host with
    | Err e => Err (reject (host +:+ " is not a host name: " +:+ e))
    | Ok host => Ok (host, port)
    end.

(** An IPv6 literal goes back into its brackets. *)
Definition shown (host : string) : string := if negb (lacks ":" host) then "[" +:+ host +:+ "]" else host.

Definition electrum (host : string) (port : option Z) (tls : bool) : ScannedBackend :=
  let port := unwrap_or port (if tls then ELECTRUM_TLS_PORT else ELECTRUM_TCP_PORT) in
  let scheme := if tls then "ssl" else "tcp" in
  {| kind := Electrum;
     url := scheme +:+ "://" +:+ shown host +:+ ":" +:+ dec port;
     host := host; port := Some port; tls := tls; onion := is_onion_host host |}.

(** ** What is no address *)

(** [percent_decoded]: the bytes, then [String::from_utf8_lossy]. *)
Fixpoint percent_bytes (s : string) : string :=
  match s with
  | "" => ""
  | String a s' =>
    match s' with
    | String b (String c rest) =>
      if (a =? "%")%char && is_ascii_hexdigit b && is_ascii_hexdigit c
      then String (ascii_of_N (16 * hexdigit_value b + hexdigit_value c)) (percent_bytes rest)
      else String a (percent_bytes s')
    | _ => String a (percent_bytes s')
    end
  end.

Definition percent_decoded (text : string) : string := lossy (percent_bytes text).

Definition typed_host (text : string) : string :=
  let text := trim text in
  let rest := match split_once_str "://" text with Some (_, rest) => rest | None => text end in
  let authority := cut_at (one_of "/?#\") rest in
  let host := match rsplit_once "@" authority with Some (_, host) => host | None => authority end in
  cut_at (fun a => a =? ":")%char host.

Definition scheme_char (c : ascii) : bool :=
  is_ascii_alphanumeric c || (c =? "+")%char || (c =? "-")%char || (c =? ".")%char.
Definition is_scheme (s : string) : bool := negb (bool_decide (s = "")) && str_all scheme_char s.

(** The brackets and schemes in front, peeled off: each turn shortens the
    text, or is the last. *)
Definition peeled (rest : string) : string :=
  let unbracketed := trim_start_matches "[" rest in
  match split_once_str "://" unbracketed with
  | Some (scheme, after) => if is_scheme scheme then after else unbracketed
  | None => unbracketed
  end.

Fixpoint peel (fuel : nat) (rest : string) : string :=
  match fuel with
  | O => rest
  | S fuel => let next := peeled rest in if bool_decide (next = rest) then rest else peel fuel next
  end.

Definition typed_words (text : string) : string :=
  let text := trim text in trim_end_matches "]" (typed_host (peel (S (String.length text)) text)).

Definition wallet_material (host : string) : option string :=
  let host := unwrap_or (strip_suffix "." host) host in
  if is_address host then Some "a Bitcoin address"
  else match decode_check host with
       | Ok data => if (length data =? 78)%nat then Some "an extended public key" else None
       | Err _ => None
       end.

Definition refuse_typed_secret (text kind : string) : CoreResult unit :=
  let decoded := percent_decoded text in
  let? _ := reject_private_material text in
  let? _ := reject_private_material (typed_words text) in
  let? _ := reject_private_material decoded in
  let? _ := reject_private_material (typed_words decoded) in
  if has_whitespace (trim text) || has_whitespace (typed_words decoded)
  then Err (InvalidInput kind "the address has a space in it") else Ok tt.

Fixpoint refuse_hosts (hosts : list string) : CoreResult unit :=
  match hosts with
  | [] => Ok tt
  | host :: hosts =>
    match wallet_material host with
    | Some what => Err (reject ("the host is " +:+ what +:+ ", not the name of a server"))
    | None => refuse_hosts hosts
    end
  end.

Definition refuse_wallet_material (text : string) : CoreResult unit :=
  let? _ := refuse_typed_secret text "server" in
  refuse_hosts (typed_host text :: match host_of text with Some canonical => [canonical] | None => [] end).

(** ** The address *)

Definition esplora (text : string) : CoreResult ScannedBackend :=
  match Url_parse text with
  | Err e => Err (reject (text +:+ " is not a server address: " +:+ e))
  | Ok parsed =>
    match host_of_parsed parsed with
    | None => Err (reject "the address has no host")
    | Some host =>
      let userinfo :=
        if negb (bool_decide (username parsed = "")) || match password parsed with Some _ => true | None => false end
        then username parsed +:+ match password parsed with Some password => ":" +:+ password | None => "" end +:+ "@"
        else "" in
      Ok {| kind := Esplora;
            url := scheme parsed +:+ "://" +:+ userinfo +:+ shown host
                   +:+ match u_port parsed with Some port => ":" +:+ dec port | None => "" end
                   +:+ trim_end_matches "/" (path parsed)
                   +:+ match query parsed with Some query => "?" +:+ query | None => "" end
                   +:+ match fragment parsed with Some fragment => "#" +:+ fragment | None => "" end;
            host := host; port := u_port parsed;
            tls := bool_decide (scheme parsed = "https"); onion := is_onion_host host |}
    end
  end.

(** What an address of the wallet's own starts with. *)
Definition WALLET_PREFIXES : list (string * string) :=
  [("ur:", "a UR QR code"); ("b$", "a BBQr code"); ("xpub", "an extended public key"); ("ypub", "an extended public key");
   ("zpub", "an extended public key"); ("tpub", "an extended public key"); ("vpub", "an extended public key");
   ("upub", "an extended public key"); ("wpkh(", "a descriptor"); ("wsh(", "a descriptor"); ("sh(", "a descriptor");
   ("tr(", "a descriptor"); ("pkh(", "a descriptor"); ("bitcoin:", "a payment request"); ("bc1", "a Bitcoin address");
   ("tb1", "a Bitcoin address"); ("bcrt1", "a Bitcoin address")].

Definition by_scheme (text scheme rest : string) : CoreResult ScannedBackend :=
  let rest := trim_end_matches "/" rest in
  let scheme := lower scheme in
  if bool_decide (scheme ∈ ["http"; "https"]) then esplora text
  else if bool_decide (scheme ∈ ["ssl"; "tls"; "electrums"]) then
    let? split := split_host_port (strip_path rest) in Ok (electrum split.1 split.2 true)
  else if bool_decide (scheme ∈ ["tcp"; "electrum"]) then
    let? split := split_host_port (strip_path rest) in Ok (electrum split.1 split.2 false)
  else Err (reject (scheme +:+ ":// is not an address Gerfaut can connect to")).

Definition by_flag (head flag : string) : CoreResult ScannedBackend :=
  let flag := lower flag in
  let? tls := if bool_decide (flag = "s") then Ok true else if bool_decide (flag = "t") then Ok false
              else Err (reject (flag +:+ " is not an Electrum connection type: s for TLS, t for plain TCP")) in
  let? split := split_host_port head in Ok (electrum split.1 split.2 tls).

Definition bare (text : string) : CoreResult ScannedBackend :=
  let? split := split_host_port text in
  let '(host, port) := split in
  if lacks "." host && lacks ":" host && negb (bool_decide (host = "localhost"))
  then Err (reject (host +:+ " does not look like a server address"))
  else
    let tls := match port with
               | Some p => if bool_decide (p ∈ PLAIN_PORTS) then false
                           else if bool_decide (p ∈ TLS_PORTS) then true else negb (is_onion_host host)
               | None => negb (is_onion_host host)
               end in
    Ok (electrum host port tls).

Definition parse_backend (text : string) : CoreResult ScannedBackend :=
  let text := trim text in
  if bool_decide (text = "") then Err (reject "nothing to read")
  else
    match List.find (fun p => starts_with p.1 (lower text)) WALLET_PREFIXES with
    | Some (_, what) => Err (reject ("this is " +:+ what +:+ ", not the address of a server"))
    | None =>
      let? _ := refuse_wallet_material text in
      match split_once_str "://" text with
      | Some (scheme, rest) => by_scheme text scheme rest
      | None =>
        match split_flag text with
        | Some (head, flag) => by_flag head flag
        | None => bare text
        end
      end
    end.

Definition expected (kind : ScannedBackendKind) : string :=
  match kind with
  | Esplora => "an Esplora address starts with http:// or https://"
  | Electrum => "an Electrum address starts with ssl:// or tcp://"
  end.

Definition stored_form (k : ScannedBackendKind) (url_ : string) : CoreResult string :=
  let text := trim url_ in
  let? scanned :=
    match k with
    | Esplora => if negb (contains "://" text) then Err (reject (expected Esplora)) else parse_backend text
    | Electrum =>
      if contains "://" text || match split_flag text with Some _ => true | None => false end then parse_backend text
      else if is_bare_ipv6 text then parse_backend ("ssl://[" +:+ text +:+ "]")
      else parse_backend ("ssl://" +:+ text)
    end in
  if negb (bool_decide (kind scanned = k)) then Err (reject (expected k)) else Ok (url scanned).
End Read.

(** ** The address of a connection

    [electrum::parse], what an Electrum connection opens. *)
Definition SSL_PORT : Z := 50002.
Definition TCP_PORT : Z := 50001.

Section Connection.
Context `{Urls}.

Definition number_of (port : string) : result Z string :=
  match parse_u16 port with Some p => Ok p | None => Err (port +:+ " is not a port number") end.

Definition parse (url : string) : result (bool * string * Z) string :=
  let '(scheme, rest) := match split_once_str "://" url with
                         | Some (scheme, rest) => (lower scheme, rest)
                         | None => ("ssl", url)
                         end in
  let? tls := if bool_decide (scheme ∈ ["ssl"; "tls"]) then Ok true
              else if bool_decide (scheme = "tcp") then Ok false
              else Err (scheme +:+ ":// is not an Electrum address") in
  let rest := cut_at (one_of "/?") rest in
  let default_port := if tls : bool then SSL_PORT else TCP_PORT in
  let? split :=
    match strip_prefix "[" rest with
    | Some bracketed =>
      match split_once "]" bracketed with
      | None => Err "the address opens a bracket it never closes"
      | Some (host, tail) =>
        match strip_prefix ":" tail with
        | Some port => let? port := number_of port in Ok (host, port)
        | None => Ok (host, default_port)
        end
      end
    | None =>
      match rsplit_once ":" rest with
      | Some (host, port) =>
        if lacks ":" host then let? port := number_of port in Ok (host, port) else Ok (rest, default_port)
      | None => Ok (rest, default_port)
      end
    end in
  let '(host, port) := split in
  if bool_decide (host = "") then Err "the address has no host"
  else
    match canonical_host host with
    | Err _ => Err (host +:+ " is not a server name")
    | Ok host => Ok (tls, host, port)
    end.

Definition certificate_key (url : string) : string :=
  match parse url with
  | Ok (_, host, port) =>
    let host := match canonical_host host with Ok host => host | Err _ => host end in
    host +:+ ":" +:+ dec port
  | Err _ => url
  end.
End Connection.

(** ** What the URL parser promises

    A host it read is spelled one way: read again, it is itself, an
    address always, and a name that ends in no dot (of several dots the
    code drops one at each reading, [dots_read_apart]); a name
    holds no character a host cannot (those the URL standard forbids, and
    capitals), and an IPv6 address is written in hexadecimal. Under a
    scheme the standard does not know, a host in that spelling and a port
    are read as they are. *)
Definition name_char (a : ascii) : bool :=
  let n := byte_of a in
  between 33 126 n && negb (between 65 90 n) && negb (one_of "#%/:<>?@[\]^|" a).

Definition canonical_name (host : string) : Prop := host <> "" /\ str_all name_char host = true.

(** A host another reading leaves alone. *)
Definition settled_host (host : string) : Prop := lacks ":" host = true -> strip_suffix "." host = None.

Class UrlLaws `{Urls} := {
  canonical_again : forall x host, canonical_host x = Ok host -> settled_host host -> canonical_host host = Ok host;
  canonical_spelling : forall x host, canonical_host x = Ok host -> canonical_name host \/ is_bare_ipv6 host = true;
  authority_read : forall scheme x host port, In scheme ["ssl"; "tcp"] -> canonical_host x = Ok host -> 0 < port <= 65535 ->
    exists u, Url_parse (scheme +:+ "://" +:+ shown host +:+ ":" +:+ dec port) = Ok u
      /\ u_host u = Some (if lacks ":" host then Domain host else Ipv6 host) /\ u_port u = Some port;
}.

(** ** Texts read *)

Lemma cut_at_all f s : str_all (fun a => negb (f a)) s = true -> cut_at f s = s.
Proof. induction s as [|a s IH]; [done|]. simpl. intros [Ha Hs]%andb_true_iff. apply negb_true_iff in Ha. by rewrite Ha, IH. Qed.

Lemma of_chars_bytes s : str_all is_ascii_byte s = true -> of_chars (bytes s) = s.
Proof.
  induction s as [|a s IH]; [done|]. simpl. intros [Ha Hs]%andb_true_iff. change (encode_char (byte_of a) (of_chars (bytes s)) = String a s).
  rewrite IH by done. unfold encode_char. unfold is_ascii_byte in Ha. rewrite Ha. unfold byte_of. by rewrite ascii_N_embedding.
Qed.

Definition graph (a : ascii) : bool := between 33 126 (byte_of a).

Lemma graph_ascii a : graph a = true -> is_ascii_byte a = true.
Proof. unfold graph, between, is_ascii_byte. rewrite andb_true_iff, N.leb_le, N.leb_le, N.ltb_lt. lia. Qed.

Lemma graph_not_blank a : graph a = true -> is_whitespace (byte_of a) = false.
Proof.
  assert (Hall : forallb (fun n => negb (is_whitespace n)) (List.map N.of_nat (seq 33 94)) = true) by (vm_compute; done).
  unfold graph, between. rewrite andb_true_iff, !N.leb_le. intros [Hl Hh]. rewrite forallb_forall in Hall.
  apply negb_true_iff, Hall. apply in_map_iff. exists (N.to_nat (byte_of a)). split; [lia|]. apply in_seq. lia.
Qed.

Lemma drop_blank_graph s : str_all graph s = true -> drop_blank (bytes s) = bytes s.
Proof. destruct s as [|a s]; [done|]. simpl. intros [Ha _]%andb_true_iff. by rewrite graph_not_blank. Qed.

Lemma rev_bytes s : rev (bytes s) = bytes (Stdlib.Strings.String.string_of_list_ascii (rev (Stdlib.Strings.String.list_ascii_of_string s))).
Proof.
  induction s as [|a s IH]; [done|]. simpl. rewrite IH. clear IH. induction (rev _) as [|b l IH]; [done|]. simpl. by f_equal.
Qed.

Lemma trim_graph s : str_all graph s = true -> trim s = s.
Proof.
  intros Hs. assert (Ha : str_all is_ascii_byte s = true) by (eapply str_all_impl; [apply graph_ascii|done]).
  unfold trim. rewrite chars_ascii, drop_blank_graph by done. rewrite rev_bytes, drop_blank_graph.
  - rewrite <- rev_bytes, rev_involutive. by apply of_chars_bytes.
  - clear Ha. induction s as [|a s IH]; [done|]. simpl in *. apply andb_true_iff in Hs as [Ha Hs]. specialize (IH Hs).
    revert IH. generalize (rev (Stdlib.Strings.String.list_ascii_of_string s)) as l. clear Hs. induction l as [|b l IH]; simpl; [by rewrite Ha|].
    intros [-> Hl]%andb_true_iff. by apply IH.
Qed.

Lemma graph_no_whitespace s : str_all graph s = true -> has_whitespace s = false.
Proof.
  intros Hs. unfold has_whitespace. rewrite chars_ascii by (eapply str_all_impl; [apply graph_ascii|done]).
  induction s as [|a s IH]; [done|]. simpl in *. apply andb_true_iff in Hs as [Ha Hs]. by rewrite graph_not_blank, IH.
Qed.

Lemma strip_suffix_Some c s r : strip_suffix c s = Some r -> s = r +:+ String c "".
Proof.
  revert r. induction s as [|a s IH]; intros r; [done|]. cbn [strip_suffix]. destruct s as [|b s].
  - destruct (Ascii.eqb_spec a c) as [->|]; [|done]. by intros [= <-].
  - destruct (strip_suffix c (String b s)) as [r'|]; [|done]. intros [= <-]. simpl. f_equal. by apply IH.
Qed.

Lemma trim_end_last c s a : (a =? c)%char = false -> trim_end_matches c (s +:+ String a "") = s +:+ String a "".
Proof.
  intros Ha. induction s as [|b s IH]; simpl; [by rewrite Ha|]. rewrite IH. by destruct s.
Qed.

Lemma digit_graph a : is_digit a = true -> graph a = true.
Proof. unfold is_digit, graph, between. rewrite !andb_true_iff, !N.leb_le. lia. Qed.

Lemma digits_graph s : str_all is_digit s = true -> str_all graph s = true.
Proof. apply str_all_impl, digit_graph. Qed.

Lemma str_last s : s <> "" -> exists r a, s = r +:+ String a "".
Proof.
  induction s as [|a s IH]; [done|]. intros _. destruct s as [|b s]; [by exists "", a|].
  destruct (IH ltac:(done)) as (r & c & ->). by exists (String a r), c.
Qed.

Lemma dec_ends n : 0 <= n -> exists r a, dec n = r +:+ String a "" /\ is_digit a = true.
Proof.
  intros Hn. destruct (str_last (dec n) (dec_nonempty n Hn)) as (r & a & E). exists r, a. split; [done|].
  pose proof (dec_digits n Hn) as Hd. rewrite E, str_all_app in Hd. simpl in Hd. apply andb_true_iff in Hd as [_ Hd].
  by rewrite andb_true_r in Hd.
Qed.

Lemma parse_u16_dec n : 0 <= n <= 65535 -> parse_u16 (dec n) = Some n.
Proof.
  intros Hn. unfold parse_u16. pose proof (dec_digits n ltac:(lia)) as Hd. pose proof (dec_nonempty n ltac:(lia)) as Hne.
  replace (without_plus (dec n)) with (dec n).
  - rewrite Hd, (dec_read n) by lia. rewrite bool_decide_false by done. simpl. by destruct (Z.leb_spec n 65535); [|lia].
  - unfold without_plus. destruct (dec n) as [|a s]; [done|]. cbn [strip_prefix].
    destruct (Ascii.eqb_spec "+" a) as [<-|]; [|done]. by simpl in Hd.
Qed.

Lemma parse_u16_range s n : parse_u16 s = Some n -> 0 <= n <= 65535.
Proof.
  unfold parse_u16. set (digits := without_plus s). destruct (_ && _) eqn:E; [|done]. intros [= <-].
  apply andb_true_iff in E as [E Hle]. apply andb_true_iff in E as [_ Hd]. pose proof (dec_value_bound digits Hd). lia.
Qed.

Lemma port_of_range s p : port_of s = Ok p -> 0 < p <= 65535.
Proof.
  unfold port_of. destruct (parse_u16 s) as [q|] eqn:E; [|done]. apply parse_u16_range in E.
  destruct (Z.ltb_spec 0 q); [|done]. intros [= <-]. lia.
Qed.

Lemma count_lacks c s : lacks c s = true -> count_char c s = 0%nat.
Proof.
  unfold lacks. induction s as [|a s IH]; [done|]. simpl. intros [Ha Hs]%andb_true_iff. apply negb_true_iff in Ha. rewrite Ha, IH; done.
Qed.

Lemma name_char_graph a : name_char a = true -> graph a = true.
Proof. unfold name_char, graph. rewrite !andb_true_iff. tauto. Qed.

Lemma name_lacks c s : one_of "#%/:<>?@[\]^|" c = true -> str_all name_char s = true -> lacks c s = true.
Proof.
  intros Hc. unfold lacks. apply str_all_impl. intros a Ha. apply negb_true_iff, Ascii.eqb_neq. intros ->.
  unfold name_char in Ha. rewrite Hc in Ha. by rewrite andb_false_r in Ha.
Qed.

Definition ipv6_char (c : ascii) : bool := is_ascii_hexdigit c || (c =? ":")%char || (c =? ".")%char.

(** A claim about bytes, by their enumeration. *)
Lemma every_byte (f : ascii -> bool) : forallb (fun n => f (ascii_of_N (N.of_nat n))) (seq 0 256) = true -> forall a, f a = true.
Proof.
  intros Hall a. rewrite forallb_forall in Hall. specialize (Hall (N.to_nat (byte_of a))). rewrite N2Nat.id in Hall. unfold byte_of in Hall.
  rewrite ascii_N_embedding in Hall. apply Hall, in_seq. pose proof (N_ascii_bounded a). lia.
Qed.

Lemma byte_implies (f g : ascii -> bool) : forallb (fun n => implb (f (ascii_of_N (N.of_nat n))) (g (ascii_of_N (N.of_nat n)))) (seq 0 256) = true ->
  forall a, f a = true -> g a = true.
Proof. intros Hall a Ha. pose proof (every_byte (fun a => implb (f a) (g a)) Hall a) as Hi. cbn beta in Hi. by rewrite Ha in Hi. Qed.

Lemma ipv6_char_graph a : ipv6_char a = true -> graph a = true.
Proof. apply byte_implies. vm_compute. done. Qed.

(** A character an authority is made of. *)
Definition plain (a : ascii) : bool := graph a && negb (one_of "/?#\@%" a).

Lemma plain_graph a : plain a = true -> graph a = true.
Proof. unfold plain. by intros [? _]%andb_true_iff. Qed.

Lemma ipv6_lacks c s : ipv6_char c = false -> str_all ipv6_char s = true -> lacks c s = true.
Proof. intros Hc. apply str_all_lacks. done. Qed.

Lemma port_of_dec p : 0 < p <= 65535 -> port_of (dec p) = Ok p.
Proof. intros Hp. unfold port_of. rewrite parse_u16_dec by lia. by destruct (Z.ltb_spec 0 p); [|lia]. Qed.

(** A host as a name, or as an IPv6 address. *)
Definition spelled_host (host : string) : Prop :=
  (lacks ":" host = true /\ host <> "" /\ str_all name_char host = true)
  \/ (lacks ":" host = false /\ host <> "" /\ str_all ipv6_char host = true).

Lemma host_port_shown host p : spelled_host host -> 0 < p <= 65535 ->
  host_port_text (shown host +:+ ":" +:+ dec p) = Ok (host, Some p).
Proof.
  intros Hx Hp. unfold host_port_text, shown. destruct Hx as [(Hl & Hne & Hs)|(Hl & Hne & Hs)]; rewrite Hl; cbn [negb].
  - replace (strip_prefix "[" (host +:+ ":" +:+ dec p)) with (@None string).
    + change (":" +:+ dec p) with (String ":" (dec p)). rewrite rsplit_once_app.
      * rewrite Hl. cbn [negb]. by rewrite port_of_dec.
      * apply (digits_lack ":"); [done|]. apply dec_digits. lia.
    + destruct host as [|a host]; [done|]. pose proof (name_lacks "[" (String a host) eq_refl Hs) as Hb. unfold lacks in Hb. cbn [str_all] in Hb.
      apply andb_true_iff in Hb as [Hb _]. apply negb_true_iff in Hb. cbn [String.append strip_prefix].
      rewrite Ascii.eqb_sym. by rewrite Hb.
  - rewrite !str_app_assoc. cbn [String.append strip_prefix]. rewrite Ascii.eqb_refl. destruct host as [|a h] eqn:Eh; [done|]. rewrite <- Eh in *.
    change (strip_prefix "" (host +:+ String "]" (String ":" (dec p)))) with (Some (host +:+ String "]" (String ":" (dec p)))).
    cbn iota. rewrite split_once_app by by apply (ipv6_lacks "]"). simpl. by rewrite port_of_dec.
Qed.

Lemma host_spelled host : canonical_name host \/ is_bare_ipv6 host = true -> spelled_host host.
Proof.
  intros [[Hne Hn]|Hv6].
  - left. split; [|done]. by apply (name_lacks ":").
  - right. unfold is_bare_ipv6 in Hv6. apply andb_true_iff in Hv6 as [Hc Hs]. apply Nat.ltb_lt in Hc. split; [|split; [|exact Hs]].
    + apply not_true_is_false. intros Hl. apply count_lacks in Hl. lia.
    + intros ->. simpl in Hc. lia.
Qed.

Section Laws.
Context `{Keys} `{UrlLaws}.

Lemma host_spelling x host : canonical_host x = Ok host -> spelled_host host.
Proof. intros Hx. by apply host_spelled, (canonical_spelling _ _ Hx). Qed.


Lemma shown_graph x host : canonical_host x = Ok host -> str_all graph (shown host) = true.
Proof.
  intros Hx. unfold shown. destruct (host_spelling _ _ Hx) as [(-> & _ & Hs)|(-> & _ & Hs)]; cbn [negb].
  - eapply str_all_impl; [apply name_char_graph|done].
  - rewrite !str_all_app. rewrite (str_all_impl ipv6_char graph host ipv6_char_graph Hs). done.
Qed.

Lemma canonical_graph x host : canonical_host x = Ok host -> str_all graph host = true.
Proof.
  intros Hx. destruct (host_spelling _ _ Hx) as [(_ & _ & Hs)|(_ & _ & Hs)];
    (eapply str_all_impl; [|exact Hs]); [apply name_char_graph|apply ipv6_char_graph].
Qed.

Lemma split_shown x host p : canonical_host x = Ok host -> settled_host host -> 0 < p <= 65535 ->
  split_host_port (shown host +:+ ":" +:+ dec p) = Ok (host, Some p).
Proof.
  intros Hx Hset Hp. unfold split_host_port. rewrite host_port_shown by (done || by eapply host_spelling).
  cbn [result_bind]. destruct (host_spelling _ _ Hx) as [(_ & Hne & _)|(_ & Hne & _)];
    (rewrite bool_decide_false by done); rewrite (graph_no_whitespace host (canonical_graph _ _ Hx)), (canonical_again _ _ Hx Hset); done.
Qed.

(** The address an Electrum server is stored under. *)
Definition address (host : string) (p : Z) (tls : bool) : string := url (electrum host (Some p) tls).

Lemma address_graph x host p tls : canonical_host x = Ok host -> 0 < p <= 65535 -> str_all graph (address host p tls) = true.
Proof.
  intros Hx Hp. unfold address, electrum. cbn [url unwrap_or].
  rewrite !str_all_app, (shown_graph _ _ Hx), (digits_graph (dec p)) by (apply dec_digits; lia). by destruct tls.
Qed.

Lemma split_address host p tls : split_once_str "://" (address host p tls)
  = Some (if tls then "ssl" else "tcp", shown host +:+ ":" +:+ dec p).
Proof. by destruct tls. Qed.

Lemma shown_plain x host : canonical_host x = Ok host -> str_all plain (shown host) = true.
Proof.
  intros Hx. unfold shown. destruct (host_spelling _ _ Hx) as [(-> & _ & Hs)|(-> & _ & Hs)]; cbn [negb].
  - eapply str_all_impl; [|exact Hs]. apply byte_implies. vm_compute. done.
  - rewrite !str_all_app. rewrite (str_all_impl ipv6_char plain host); [done| |done]. apply byte_implies. vm_compute. done.
Qed.

Lemma digits_plain s : str_all is_digit s = true -> str_all plain s = true.
Proof. apply str_all_impl, byte_implies. vm_compute. done. Qed.

Lemma authority_plain x host p : canonical_host x = Ok host -> 0 <= p -> str_all plain (shown host +:+ ":" +:+ dec p) = true.
Proof.
  intros Hx Hp. rewrite !str_all_app, (shown_plain _ _ Hx), (digits_plain (dec p)) by by apply dec_digits. done.
Qed.

Lemma strip_authority x host p : canonical_host x = Ok host -> 0 < p <= 65535 ->
  strip_path (trim_end_matches "/" (shown host +:+ ":" +:+ dec p)) = shown host +:+ ":" +:+ dec p.
Proof.
  intros Hx Hp. destruct (dec_ends p ltac:(lia)) as (r & a & E & Ha).
  assert (Ht : trim_end_matches "/" (shown host +:+ ":" +:+ dec p) = shown host +:+ ":" +:+ dec p).
  { rewrite E, <- !str_app_assoc. apply trim_end_last. destruct (Ascii.eqb_spec a "/") as [->|]; done. }
  rewrite Ht. apply cut_at_all. eapply str_all_impl; [|apply (authority_plain x host p Hx); lia]. apply byte_implies. vm_compute. done.
Qed.

(** What was read of an Electrum address. *)
Lemma electrum_read text b : parse_backend text = Ok b -> kind b = Electrum ->
  exists x p, canonical_host x = Ok (host b) /\ 0 < p <= 65535 /\ b = electrum (host b) (Some p) (tls b).
Proof.
  assert (Hsplit : forall rest h p0 tls, split_host_port rest = Ok (h, p0) ->
    exists x p, canonical_host x = Ok h /\ 0 < p <= 65535 /\ electrum h p0 tls = electrum h (Some p) tls).
  { intros rest h p0 t. unfold split_host_port. destruct (host_port_text rest) as [[host0 port0]|] eqn:E; [|done]. cbn [result_bind].
    destruct (bool_decide (host0 = "")); [done|]. destruct (has_whitespace host0); [done|].
    destruct (canonical_host host0) as [c|] eqn:Ec; [|done]. intros [= <- <-]. exists host0.
    destruct port0 as [q|]; [|destruct t; [exists ELECTRUM_TLS_PORT|exists ELECTRUM_TCP_PORT]; vm_compute; done].
    exists q. split; [done|]. split; [|done]. revert E. unfold host_port_text.
    destruct (strip_prefix "[" rest) as [bracketed|].
    - destruct (split_once "]" bracketed) as [[h' tail]|]; [|done]. destruct (strip_prefix ":" tail) as [port|]; [|done].
      destruct (port_of port) as [p|] eqn:Ep; [|done]. intros [= _ <-]. by eapply port_of_range.
    - destruct (rsplit_once ":" rest) as [[h' port]|]; [|done]. destruct (negb (lacks ":" h')).
      + by destruct (negb (is_bare_ipv6 rest)).
      + destruct (port_of port) as [p|] eqn:Ep; [|done]. intros [= _ <-]. by eapply port_of_range. }
  assert (Hby : forall rest t r, (let? split := split_host_port rest in Ok (electrum split.1 split.2 t)) = Ok r ->
    exists x p, canonical_host x = Ok (host r) /\ 0 < p <= 65535 /\ r = electrum (host r) (Some p) (tls r)).
  { intros rest t r. destruct (split_host_port rest) as [[h p0]|] eqn:E; [|done]. cbn [result_bind fst snd]. intros [= <-].
    destruct (Hsplit _ _ _ t E) as (x & p & Hx & Hp & ->). exists x, p. done. }
  unfold parse_backend. destruct (bool_decide _); [done|]. destruct (List.find _ _) as [[]|]; [done|].
  destruct (refuse_wallet_material (trim text)) as [[]|]; [|done]. cbn [result_bind].
  destruct (split_once_str "://" (trim text)) as [[s rest]|].
  - unfold by_scheme. case_bool_decide.
    + unfold esplora. destruct (Url_parse (trim text)) as [u|]; [|done]. destruct (host_of_parsed u); [|done]. by intros [= <-].
    + case_bool_decide; [intros Hb _; by eapply Hby|]. case_bool_decide; [intros Hb _; by eapply Hby|done].
  - destruct (split_flag (trim text)) as [[head flag]|].
    + unfold by_flag. destruct (if bool_decide (lower flag = "s") then _ else _) as [t|]; [|done]. cbn [result_bind].
      intros Hb _. by eapply Hby.
    + unfold bare. destruct (split_host_port (trim text)) as [[h p0]|] eqn:E; [|done]. cbn [result_bind].
      destruct (_ && _); [done|]. match goal with |- Ok (electrum h p0 ?t) = _ -> _ => set (tl := t) end. intros [= <-] _.
      destruct (Hsplit _ _ _ tl E) as (x & p & Hx & Hp & Ee). exists x, p. by rewrite Ee.
Qed.

Lemma find_none_prefix (s : string) (t : bool) r : s = (if t then "ssl://" else "tcp://") +:+ r ->
  List.find (fun p => starts_with p.1 (lower s)) WALLET_PREFIXES = None.
Proof. intros ->. by destruct t. Qed.

(** An address read is read again as itself. *)
Lemma address_read x host p t : canonical_host x = Ok host -> settled_host host -> 0 < p <= 65535 ->
  refuse_wallet_material (address host p t) = Ok tt -> parse_backend (address host p t) = Ok (electrum host (Some p) t).
Proof.
  intros Hx Hset Hp Hr. unfold parse_backend. rewrite (trim_graph _ (address_graph x host p t Hx Hp)).
  assert (E : address host p t = (if t then "ssl://" else "tcp://") +:+ (shown host +:+ ":" +:+ dec p)) by by destruct t.
  rewrite bool_decide_false by (rewrite E; by destruct t). rewrite (find_none_prefix _ t _ E), Hr. cbn [result_bind].
  rewrite split_address. unfold by_scheme. rewrite (strip_authority x) by done. rewrite (split_shown x) by done. by destruct t.
Qed.

(** An address whose host ends in a dot has a dot before its port. *)
Lemma contains_inside pat a b : contains pat (a +:+ pat +:+ b) = true.
Proof.
  unfold contains. induction a as [|c a IH].
  - change ("" +:+ pat +:+ b) with (pat +:+ b). assert (Hs : strip_prefix pat (pat +:+ b) = Some b).
    { clear. induction pat as [|d pat IH]; [done|]. cbn [String.append strip_prefix]. by rewrite Ascii.eqb_refl. }
    destruct (pat +:+ b) eqn:E; cbn [split_once_str]; by rewrite Hs.
  - cbn [String.append split_once_str]. destruct (strip_prefix pat _); [done|]. revert IH. by destruct (split_once_str pat _) as [[]|].
Qed.

Lemma address_settled host p t : contains ".:" (address host p t) = false -> settled_host host.
Proof.
  intros Hno Hl. destruct (strip_suffix "." host) as [r|] eqn:Er; [|done]. apply strip_suffix_Some in Er. exfalso.
  assert (E : address host p t = ((if t then "ssl" else "tcp") +:+ "://" +:+ r) +:+ ".:" +:+ dec p).
  { unfold address, electrum, shown. cbn [url unwrap_or]. rewrite Hl. cbn [negb]. rewrite Er, !str_app_assoc. by destruct t. }
  by rewrite E, contains_inside in Hno.
Qed.

(** An address stored for an Electrum server is a host and a port. *)
Lemma stored_address typed stored : stored_form Electrum typed = Ok stored ->
  exists x host p t, canonical_host x = Ok host /\ 0 < p <= 65535 /\ stored = address host p t.
Proof.
  intros Hs. assert (Hb : exists text b, parse_backend text = Ok b /\ kind b = Electrum /\ url b = stored).
  { revert Hs. unfold stored_form. match goal with |- (let? _ := ?e in _) = _ -> _ => destruct e as [b|] eqn:E end; [|done].
    cbn [result_bind]. destruct (bool_decide (kind b = Electrum)) eqn:Ek; [|done]. apply bool_decide_eq_true in Ek. intros [= <-].
    destruct (_ || _) in E; [by exists (trim typed), b|]. destruct (is_bare_ipv6 (trim typed)); by eexists _, b. }
  destruct Hb as (text & b & Hb & Hk & <-). destruct (electrum_read _ _ Hb Hk) as (x & p & Hx & Hp & E).
  exists x, (host b), p, (tls b). split; [done|]. split; [done|]. unfold address. by rewrite <- E.
Qed.

(** The address an Electrum server is stored under stays as it is: it
    is read again byte for byte, whatever form it was typed or scanned
    in, so the certificate accepted for it stays keyed to it; unless the
    address itself reads as wallet material, which is refused, or ends
    its host in a dot more. *)
Theorem stored_form_stays typed stored : stored_form Electrum typed = Ok stored ->
  (contains ".:" stored = false -> refuse_wallet_material stored = Ok tt -> stored_form Electrum stored = Ok stored)
  /\ starts_with "ssl://" stored || starts_with "tcp://" stored = true.
Proof.
  intros Hs. destruct (stored_address _ _ Hs) as (x & host & p & t & Hx & Hp & ->). clear Hs.
  split; [|by destruct t]. intros Hset%address_settled Hr. unfold stored_form. cbv zeta. rewrite (trim_graph _ (address_graph x _ p _ Hx Hp)).
  unfold contains at 1. rewrite split_address. cbn [orb]. by rewrite (address_read x) by done.
Qed.

(** A stored address, as a connection reads it. *)
Lemma parse_address x host p t : canonical_host x = Ok host -> settled_host host -> 0 < p <= 65535 -> parse (address host p t) = Ok (t, host, p).
Proof.
  intros Hx Hset Hp. unfold parse. rewrite split_address.
  assert (Hcut : cut_at (one_of "/?") (shown host +:+ ":" +:+ dec p) = shown host +:+ ":" +:+ dec p).
  { apply cut_at_all. eapply str_all_impl; [|apply (authority_plain x host p Hx); lia]. apply byte_implies. vm_compute. done. }
  assert (Hnum : number_of (dec p) = Ok p) by (unfold number_of; by rewrite parse_u16_dec by lia).
  replace (if bool_decide ((lower (if t then "ssl" else "tcp")) ∈ ["ssl"; "tls"]) then Ok true else
    if bool_decide (lower (if t then "ssl" else "tcp") = "tcp") then Ok false else Err (lower (if t then "ssl" else "tcp") +:+ ":// is not an Electrum address"))
    with (@Ok bool string t) by by destruct t.
  cbn [result_bind]. rewrite Hcut. pose proof (host_port_shown host p (host_spelling _ _ Hx) Hp) as Ht. revert Ht. unfold host_port_text.
  assert (Hne : host <> "") by by destruct (host_spelling _ _ Hx) as [(_ & ? & _)|(_ & ? & _)].
  assert (Hport : forall s q, port_of s = Ok q -> number_of s = Ok q).
  { intros s q. unfold port_of, number_of. destruct (parse_u16 s) as [r|]; [|done]. destruct (0 <? r); [|done]. by intros [= <-]. }
  destruct (strip_prefix "[" _) as [bracketed|].
  - destruct (split_once "]" bracketed) as [[h tail]|]; [|done]. destruct (strip_prefix ":" tail) as [s|]; [|done].
    destruct (port_of s) as [q|] eqn:Eq; [|done]. cbn [result_bind]. intros [= -> ->]. rewrite (Hport _ _ Eq). cbn [result_bind].
    rewrite bool_decide_false by done. by rewrite (canonical_again _ _ Hx Hset).
  - destruct (rsplit_once ":" _) as [[h s]|]; [|done]. destruct (lacks ":" h); cbn [negb].
    + destruct (port_of s) as [q|] eqn:Eq; [|done]. cbn [result_bind]. intros [= -> ->]. rewrite (Hport _ _ Eq). cbn [result_bind].
      rewrite bool_decide_false by done. by rewrite (canonical_again _ _ Hx Hset).
    + by destruct (negb (is_bare_ipv6 _)).
Qed.

(** C28: what is stored of an Electrum server is what was read, whoever
    reads it: the URL parser the Tor check asks and the connection find
    in it the same host and port, those that were read, so that an onion
    is known for one and goes through Tor; and the certificate accepted
    for it is kept under them. So of every address and of every name that,
    read once, ends in no dot: one read with two dots or more after it is
    not settled yet. *)
Theorem stored_address_names_its_host text b : parse_backend text = Ok b -> kind b = Electrum -> settled_host (host b) ->
  host_and_port (url b) = Some (host b, port b) /\ is_onion (url b) = onion b /\ onion b = is_onion_host (host b)
  /\ exists p, port b = Some p /\ parse (url b) = Ok (tls b, host b, p) /\ certificate_key (url b) = host b +:+ ":" +:+ dec p.
Proof.
  intros Hb Hk Hset. destruct (electrum_read _ _ Hb Hk) as (x & p & Hx & Hp & E).
  assert (Hparse : parse (url b) = Ok (tls b, host b, p)).
  { replace (url b) with (address (host b) p (tls b)) by (unfold address; by rewrite <- E). by apply (parse_address x). }
  assert (Hhp : host_and_port (url b) = Some (host b, Some p)).
  { assert (Hu' : url b = address (host b) p (tls b)) by (unfold address; by rewrite <- E). rewrite Hu'. clear Hu'.
    unfold host_and_port. cbv zeta. unfold contains. rewrite split_address. destruct (authority_read (if tls b then "ssl" else "tcp") x (host b) p) as (u & Hu & Hh & Hport).
    { destruct (tls b); simpl; tauto. } { done. } { done. }
    replace (address (host b) p (tls b)) with ((if tls b then "ssl" else "tcp") +:+ "://" +:+ shown (host b) +:+ ":" +:+ dec p) by by destruct (tls b).
    rewrite Hu. unfold host_of_parsed. rewrite Hh, Hport. destruct (host_spelling _ _ Hx) as [(-> & Hne & _)|(-> & Hne & _)].
    - rewrite (canonical_again _ _ Hx Hset). by destruct (host b).
    - by destruct (host b). }
  assert (Hport : port b = Some p) by by rewrite E. assert (Ho : onion b = is_onion_host (host b)) by by rewrite E.
  split; [by rewrite Hport|]. split; [unfold is_onion, host_of; by rewrite Hhp, Ho|]. split; [done|]. exists p.
  split; [done|]. split; [done|]. unfold certificate_key. by rewrite Hparse, (canonical_again _ _ Hx Hset).
Qed.
End Laws.

(** ** A seed phrase typed as a host *)

Lemma words_cover l c : In c l -> is_whitespace c = true \/ exists w, In w (words_from l) /\ In c w.
Proof.
  induction l as [|d l IH]; [done|]. cbn [words_from]. destruct (is_whitespace d) eqn:Ed.
  - intros [->|Hc]; [by left|]. by apply IH.
  - intros Hc. assert (Hl : In c l -> l <> []) by by destruct l. destruct l as [|e l].
    + destruct Hc as [->|[]]. right. exists [c]. split; by left.
    + destruct (is_whitespace e) eqn:Ee.
      * destruct Hc as [->|Hc]; [right; exists [c]; split; by left|].
        destruct (IH Hc) as [|(w & Hw & Hcw)]; [by left|]. right. exists w. split; [by right|done].
      * destruct (words_from (e :: l)) as [|w ws] eqn:Ew.
        -- destruct Hc as [->|Hc]; [right; exists [c]; split; by left|]. destruct (IH Hc) as [|(w & [] & _)]. by left.
        -- destruct Hc as [->|Hc]; [right; exists (c :: w); split; by left|].
           destruct (IH Hc) as [|(w' & [<-|Hw] & Hcw)]; [by left|right; exists (d :: w); split; [by left|by right]|].
           right. exists w'. split; [by right|done].
Qed.

Definition seed_char (a : ascii) : bool := is_ascii_byte a && (is_whitespace (byte_of a) || between 97 122 (byte_of a)).

Lemma seed_chars w : str_all is_ascii_byte w = true -> seed_phrase w = true -> str_all seed_char w = true.
Proof.
  intros Ha Hs. unfold seed_phrase in Hs. apply andb_true_iff in Hs as [_ Hs]. rewrite all_true in Hs. rewrite chars_ascii in Hs by done.
  assert (Hc : forall c, In c (bytes w) -> is_whitespace c || between 97 122 c = true).
  { intros c Hc. destruct (words_cover _ _ Hc) as [->|(word & Hw & Hcw)]; [done|]. specialize (Hs _ Hw). unfold seed_word in Hs.
    rewrite !andb_true_iff in Hs. destruct Hs as [_ Hs]. rewrite all_true in Hs. rewrite (Hs _ Hcw). apply orb_true_r. }
  clear Hs. induction w as [|a w IH]; [done|]. simpl in *. apply andb_true_iff in Ha as [Ha Hw]. unfold seed_char at 1.
  rewrite Ha, Hc by by left. apply IH; [done|]. intros c Hx. apply Hc. by right.
Qed.

Lemma split_once_str_none s : lacks "/" s = true -> split_once_str "://" s = None.
Proof.
  unfold lacks. induction s as [|a s IH]; [done|]. cbn [str_all split_once_str]. intros [_ Hs]%andb_true_iff.
  destruct (strip_prefix "://" (String a s)) as [r|] eqn:E; [|by rewrite IH]. exfalso. cbn [strip_prefix] in E.
  destruct (Ascii.eqb ":" a); [|done]. destruct s as [|b s]; [done|]. cbn [str_all] in Hs. apply andb_true_iff in Hs as [Hb _].
  apply negb_true_iff in Hb. cbn [strip_prefix] in E. by rewrite Ascii.eqb_sym, Hb in E.
Qed.

Lemma split_once_str_scheme s t : lacks ":" s = true -> split_once_str "://" (s +:+ "://" +:+ t) = Some (s, t).
Proof.
  unfold lacks. induction s as [|a s IH]; [done|]. cbn [str_all]. intros [Ha Hs]%andb_true_iff. apply negb_true_iff in Ha.
  specialize (IH Hs). cbn [String.append] in *. cbn [split_once_str strip_prefix]. rewrite Ascii.eqb_sym, Ha. by rewrite IH.
Qed.

(** What was typed, in the brackets and schemes a form puts in front. *)
Inductive wrapped (core : string) : string -> Prop :=
| wrapped_core : wrapped core core
| wrapped_bracket t : wrapped core t -> wrapped core ("[" +:+ t)
| wrapped_scheme s t : is_scheme s = true -> wrapped core t -> wrapped core (s +:+ "://" +:+ t).

Lemma scheme_chars s : is_scheme s = true -> lacks ":" s = true /\ exists a r, s = String a r /\ (a =? "[")%char = false /\ graph a = true.
Proof.
  unfold is_scheme. intros [Hne Hs]%andb_true_iff. apply negb_true_iff, bool_decide_eq_false in Hne. split.
  - eapply str_all_lacks; [|exact Hs]. done.
  - destruct s as [|a r]; [done|]. exists a, r. split; [done|]. cbn [str_all] in Hs. apply andb_true_iff in Hs as [Ha _].
    split; [|revert Ha; apply (byte_implies scheme_char); vm_compute; done].
    apply Ascii.eqb_neq. intros ->. by vm_compute in Ha.
Qed.

Section Wrapped.
Variable core : string.
Hypothesis core_head : exists a r, core = String a r /\ (a =? "[")%char = false.
Hypothesis core_bare : split_once_str "://" core = None.

Lemma unbracketed t : wrapped core t -> let t' := trim_start_matches "[" t in
  (String.length t' <= String.length t)%nat
  /\ (t' = core \/ exists s t'', t' = s +:+ "://" +:+ t'' /\ is_scheme s = true /\ wrapped core t'').
Proof.
  induction 1 as [|t _ [Hl IH]|s t Hs Ht _].
  - destruct core_head as (a & r & E & Ha). rewrite E. cbn [trim_start_matches]. rewrite Ha. split; [lia|by left].
  - cbn. split; [simpl in Hl; lia|exact IH].
  - destruct (scheme_chars _ Hs) as (_ & a & r & -> & Ha & _). cbn [String.append trim_start_matches]. rewrite Ha. split; [lia|].
    right. by exists (String a r), t.
Qed.

Lemma peel_core t fuel : wrapped core t -> (String.length t < fuel)%nat -> peel fuel t = core.
Proof.
  revert t. induction fuel as [|fuel IH]; intros t Ht Hlen; [lia|]. cbn [peel].
  destruct (unbracketed t Ht) as [Hl Hcase]. unfold peeled. set (t' := trim_start_matches "[" t) in *. destruct Hcase as [E|(s & t'' & E & Hs & Hw)].
  - rewrite E, core_bare. case_bool_decide as Ec; [done|]. rewrite E in Hl.
    assert (Hlt : (String.length core < String.length t)%nat).
    { destruct Ht as [|u Hu|s u Hs Hu]; [done| |].
      - destruct (unbracketed u Hu) as [Hlu _]. unfold t' in E. cbn in E. rewrite E in Hlu. simpl. lia.
      - exfalso. destruct (scheme_chars _ Hs) as (Hcolon & a & r & -> & Ha & _). unfold t' in E. cbn [String.append trim_start_matches] in E.
        rewrite Ha in E. pose proof (split_once_str_scheme (String a r) u Hcolon) as Hx. cbn [String.append] in Hx. congruence. }
    apply IH; [apply wrapped_core|lia].
  - rewrite E. destruct (scheme_chars _ Hs) as (Hcolon & _). rewrite split_once_str_scheme, Hs by done.
    rewrite E, !str_length_app in Hl. simpl in Hl. rewrite bool_decide_false by (intros ->; lia). apply IH; [done|lia].
Qed.

Lemma wrapped_all f t : wrapped core t -> str_all f core = true -> f "["%char = true -> (forall s, is_scheme s = true -> str_all f s = true) ->
  str_all f "://" = true -> str_all f t = true.
Proof.
  intros Ht Hc Hb Hs Hsep. induction Ht as [|t _ IH|s t Hscheme _ IH]; [done|by simpl; rewrite Hb|].
  rewrite !str_all_app, (Hs _ Hscheme), Hsep. done.
Qed.

Lemma wrapped_ends t : wrapped core t -> exists pre, t = pre +:+ core.
Proof.
  induction 1 as [|t _ [pre ->]|s t _ _ [pre ->]]; [by exists ""|by exists ("[" +:+ pre)|].
  exists (s +:+ "://" +:+ pre). by rewrite !str_app_assoc.
Qed.

Lemma wrapped_head t : wrapped core t -> exists a r, t = String a r /\ (graph a = true \/ exists r', core = String a r').
Proof.
  destruct 1 as [|t|s t Hs].
  - destruct core_head as (a & r & E & _). exists a, r. split; [done|]. right. by exists r.
  - exists "["%char, t. split; [done|]. by left.
  - destruct (scheme_chars _ Hs) as (_ & a & r & -> & _ & Ha). exists a, (r +:+ "://" +:+ t). split; [done|]. by left.
Qed.
End Wrapped.

Lemma trim_ends s a r p b : str_all is_ascii_byte s = true -> s = String a r -> is_whitespace (byte_of a) = false ->
  s = p +:+ String b "" -> is_whitespace (byte_of b) = false -> trim s = s.
Proof.
  intros Hs Ea Ha Eb Hb. unfold trim. rewrite chars_ascii by done.
  assert (H1 : drop_blank (bytes s) = bytes s) by (rewrite Ea; simpl; by rewrite Ha). rewrite H1.
  assert (H2 : drop_blank (rev (bytes s)) = rev (bytes s)).
  { rewrite Eb. replace (bytes (p +:+ String b "")) with (bytes p ++ [byte_of b]); [|clear; induction p as [|c p IH]; simpl; congruence].
    rewrite rev_app_distr. simpl. by rewrite Hb. }
  rewrite H2, rev_involutive. by apply of_chars_bytes.
Qed.

Lemma trim_end_lacks c s : lacks c s = true -> trim_end_matches c s = s.
Proof.
  unfold lacks. induction s as [|a s IH]; [done|]. simpl. intros [Ha Hs]%andb_true_iff. apply negb_true_iff in Ha. rewrite IH by done.
  rewrite Ha. by destruct s.
Qed.

Lemma cut_at_char c s t : lacks c s = true -> cut_at (fun a => a =? c)%char (s +:+ String c t) = s.
Proof.
  unfold lacks. induction s as [|a s IH]; simpl; [by rewrite Ascii.eqb_refl|]. intros [Ha Hs]%andb_true_iff. apply negb_true_iff in Ha.
  by rewrite Ha, IH.
Qed.

Section Seed.
Context `{Keys} `{Urls}.

Lemma typed_words_core words tail text : str_all is_ascii_byte words = true -> seed_phrase words = true ->
  (exists a r, words = String a r /\ is_whitespace (byte_of a) = false) -> str_all plain tail = true ->
  wrapped (words +:+ ":" +:+ tail) text -> trim text = text /\ typed_words text = words.
Proof.
  intros Ha Hseed (a & r & Ew & Hfirst) Htail Ht. set (core := words +:+ ":" +:+ tail) in *. pose proof (seed_chars _ Ha Hseed) as Hc.
  assert (Hlack : forall c, seed_char c = false -> (":" =? c)%char = false -> plain c = false -> lacks c core = true).
  { intros c H1 H2 H3. unfold core. rewrite !lacks_app. rewrite (str_all_lacks seed_char c words), (str_all_lacks plain c tail) by done.
    unfold lacks. cbn [str_all]. by rewrite H2. }
  assert (Hascii : str_all is_ascii_byte core = true).
  { unfold core. rewrite !str_all_app, Ha. simpl. eapply str_all_impl; [|exact Htail]. intros b Hb. by apply graph_ascii, plain_graph. }
  assert (Hlast : exists p b, core = p +:+ String b "" /\ is_whitespace (byte_of b) = false).
  { destruct (str_last (":" +:+ tail) ltac:(done)) as (q & b & E). exists (words +:+ q), b. split; [unfold core; by rewrite E, str_app_assoc|].
    assert (Hg : str_all graph (":" +:+ tail) = true).
    { rewrite str_all_app. rewrite (str_all_impl plain graph tail plain_graph Htail). done. }
    rewrite E, str_all_app in Hg. apply andb_true_iff in Hg as [_ Hg]. simpl in Hg. rewrite andb_true_r in Hg. by apply graph_not_blank. }
  assert (Hhead : exists b s, core = String b s /\ (b =? "[")%char = false).
  { exists a, (r +:+ ":" +:+ tail). unfold core. rewrite Ew. split; [done|]. rewrite Ew in Hc. cbn [str_all] in Hc.
    apply andb_true_iff in Hc as [Hc _]. apply Ascii.eqb_neq. intros ->. by vm_compute in Hc. }
  assert (Hbare : split_once_str "://" core = None) by by apply split_once_str_none, Hlack.
  assert (Hfc : forall b s, core = String b s -> is_whitespace (byte_of b) = false).
  { intros b s E. unfold core in E. rewrite Ew in E. by injection E as <-. }
  assert (Htrim : trim text = text).
  { destruct (wrapped_head core Hhead text Ht) as (b & s & Eb & Hb). destruct (wrapped_ends core text Ht) as [pre Epre].
    destruct Hlast as (p & l & Ep & Hl). apply (trim_ends text b s (pre +:+ p) l); [|done| | |done].
    - apply (wrapped_all core is_ascii_byte text Ht); [done..| |done]. intros sc Hsc. unfold is_scheme in Hsc. apply andb_true_iff in Hsc as [_ Hsc].
      eapply str_all_impl; [|exact Hsc]. apply byte_implies. vm_compute. done.
    - destruct Hb as [Hg|(r' & E)]; [by apply graph_not_blank|by eapply Hfc].
    - by rewrite Epre, Ep, str_app_assoc. }
  split; [done|]. unfold typed_words. rewrite Htrim. rewrite (peel_core core Hhead Hbare) by (done || lia).
  unfold typed_host. assert (Htc : trim core = core).
  { destruct Hhead as (b & s & Eb & _). destruct Hlast as (p & l & Ep & Hl). eapply trim_ends; [done|exact Eb|by eapply Hfc|exact Ep|done]. }
  rewrite Htc, Hbare. rewrite (cut_at_all (one_of "/?#\") core).
  - rewrite rsplit_once_lacks by by apply Hlack. unfold core. change (":" +:+ tail) with (String ":" tail).
    rewrite cut_at_char by by apply (str_all_lacks seed_char).
    apply trim_end_lacks. by apply (str_all_lacks seed_char).
  - unfold core. rewrite !str_all_app. rewrite (str_all_impl seed_char (fun a => negb (one_of "/?#\" a)) words) by (done || (apply byte_implies; vm_compute; done)).
    rewrite (str_all_impl plain (fun a => negb (one_of "/?#\" a)) tail) by (done || (apply byte_implies; vm_compute; done)). done.
Qed.

(** A seed phrase typed where a host goes never leaves the form. In
    whatever brackets and schemes, its own or the form's, and with a port
    after it, a text whose host is the words of a seed phrase is refused
    as private material, unquoted, before anything reads it as an
    address; unless it starts like something of a wallet's, which is
    refused as that. *)
Theorem typed_seed_is_refused words tail text : str_all is_ascii_byte words = true -> seed_phrase words = true ->
  (exists a r, words = String a r /\ is_whitespace (byte_of a) = false) -> str_all plain tail = true ->
  wrapped (words +:+ ":" +:+ tail) text ->
  refuse_wallet_material text = Err PrivateMaterialRejected
  /\ (parse_backend text = Err PrivateMaterialRejected
      \/ exists what, parse_backend text = Err (reject ("this is " +:+ what +:+ ", not the address of a server"))).
Proof.
  intros Ha Hseed Hfirst Htail Ht. destruct (typed_words_core words tail text Ha Hseed Hfirst Htail Ht) as [Htrim Hwords].
  assert (Hr : refuse_wallet_material text = Err PrivateMaterialRejected).
  { unfold refuse_wallet_material, refuse_typed_secret. rewrite Hwords.
    assert (Herr : reject_private_material words = Err PrivateMaterialRejected).
    { unfold reject_private_material. rewrite Hseed. by destruct (any _ _). }
    destruct (reject_private_material text) as [[]|e] eqn:E; cbn [result_bind]; [by rewrite Herr|].
    revert E. unfold reject_private_material. destruct (any _ _); [by intros [= <-]|]. destruct (seed_phrase text); by intros [= <-]. }
  split; [done|]. unfold parse_backend. rewrite Htrim. rewrite bool_decide_false.
  - destruct (List.find _ _) as [[p what]|]; [right; by exists what|left; by rewrite Hr].
  - intros ->. destruct (wrapped_ends _ _ Ht) as [pre E]. apply (f_equal String.length) in E. rewrite !str_length_app in E. simpl in E. lia.
Qed.
End Seed.

(** ** A parser that keeps the promises

    It takes names in the canonical spelling, capitals lowered and final
    dots allowed, as the URL standard does, and IPv6 addresses as written. *)
Module DemoUrls.
Definition read_host (literal : string) : result Host string :=
  match strip_prefix "[" literal with
  | Some bracketed =>
    match strip_suffix "]" bracketed with
    | Some inner => if is_bare_ipv6 inner then Ok (Ipv6 inner) else Err "invalid IPv6 address"
    | None => Err "invalid IPv6 address"
    end
  | None =>
    let name := lower literal in
    if str_all name_char name then Ok (Domain name) else Err "invalid domain character"
  end.

Definition read_url (text : string) : result Url string :=
  match split_once_str "://" text with
  | Some (scheme, rest) =>
    match host_port_text rest with
    | Ok (host, port) =>
      Ok {| scheme := scheme; username := ""; password := None;
            u_host := Some (if lacks ":" host then Domain host else Ipv6 host);
            u_port := port; path := ""; query := None; fragment := None |}
    | Err _ => Err "invalid port number"
    end
  | None => Err "relative URL without a base"
  end.

#[export] Instance demo_urls : Urls := {| Url_parse := read_url; Host_parse := read_host; is_address := fun _ => false |}.

Lemma lower_name s : str_all name_char s = true -> lower s = s.
Proof.
  induction s as [|a s IH]; [done|]. simpl. intros [Ha Hs]%andb_true_iff. rewrite IH by done. f_equal.
  apply Ascii.eqb_eq. revert Ha. apply (byte_implies name_char (fun a => (lower_byte a =? a)%char)). vm_compute. done.
Qed.

Lemma read_again x host : canonical_host x = Ok host ->
  (settled_host host -> canonical_host host = Ok host) /\ (canonical_name host \/ is_bare_ipv6 host = true).
Proof.
  unfold canonical_host at 1. cbn [Host_parse demo_urls]. unfold read_host. match goal with |- context [strip_prefix "[" ?l] => set (literal := l) end.
  destruct (strip_prefix "[" literal) as [bracketed|].
  - destruct (strip_suffix "]" bracketed) as [inner|]; [|done]. destruct (is_bare_ipv6 inner) eqn:Ei; [|done]. cbn [result_bind].
    destruct (bool_decide (inner = "")) eqn:Ene; [done|]. intros [= <-]. split; [intros _|by right].
    pose proof (host_spelled inner (or_intror Ei)) as [(Hl & _)|(Hl & Hne & Hs)].
    { unfold is_bare_ipv6 in Ei. apply andb_true_iff in Ei as [Hc _]. rewrite (count_lacks _ _ Hl) in Hc. done. }
    unfold canonical_host. rewrite Hl. cbn [negb andb]. replace (starts_with "[" inner) with false.
    + cbn [negb]. cbn [Host_parse demo_urls]. unfold read_host. change ("[" +:+ inner +:+ "]") with (String "[" (inner +:+ "]")).
      replace (strip_prefix "[" (String "[" (inner +:+ "]"))) with (Some (inner +:+ "]")) by done.
      replace (strip_suffix "]" (inner +:+ "]")) with (Some inner).
      * rewrite Ei. cbn [result_bind]. by rewrite Ene.
      * clear. induction inner as [|a s IH]; [done|]. cbn [String.append strip_suffix]. destruct (s +:+ "]") eqn:E; [by destruct s|].
        by rewrite <- IH.
    + destruct inner as [|a s]; [done|]. cbn [str_all] in Hs. apply andb_true_iff in Hs as [Ha _]. unfold starts_with. cbn [strip_prefix].
      destruct (Ascii.eqb_spec "[" a) as [<-|]; [by vm_compute in Ha|done].
  - set (name := lower literal). destruct (str_all name_char name) eqn:En; [|done].
    cbn [result_bind]. set (h := unwrap_or (strip_suffix "." name) name). destruct (bool_decide (h = "")) eqn:Ene; [done|].
    intros [= <-]. apply bool_decide_eq_false in Ene.
    assert (Hn : str_all name_char h = true).
    { unfold h. destruct (strip_suffix "." name) as [r|] eqn:Es; cbn [unwrap_or]; [|done]. apply strip_suffix_Some in Es.
      rewrite Es, str_all_app in En. by apply andb_true_iff in En as [Hr _]. }
    split; [|left; done]. pose proof (name_lacks ":" h eq_refl Hn) as Hl. intros Hs%(fun f => f Hl). unfold canonical_host.
    rewrite Hl. cbn [negb andb Host_parse demo_urls]. unfold read_host. replace (strip_prefix "[" h) with (@None string).
    + rewrite (lower_name h Hn), Hn. cbn [result_bind]. rewrite Hs. cbn [unwrap_or]. by rewrite bool_decide_false.
    + destruct h as [|a h']; [done|]. cbn [str_all] in Hn. apply andb_true_iff in Hn as [Ha _]. cbn [strip_prefix].
      destruct (Ascii.eqb_spec "[" a) as [<-|]; [by vm_compute in Ha|done].
Qed.

#[export] Instance demo_url_laws : UrlLaws.
Proof.
  split.
  - intros x host Hx Hset. by apply (read_again x).
  - intros x host Hx. by apply (read_again x).
  - intros s x host p Hs Hx Hp. cbn [Url_parse demo_urls]. unfold read_url.
    rewrite split_once_str_scheme by by repeat destruct Hs as [<-|Hs].
    rewrite host_port_shown by (done || by apply host_spelled, (read_again x)). eexists. split; [reflexivity|]. done.
Qed.

Definition saved : ScannedBackend :=
  {| kind := Electrum; url := "tcp://node.onion:50001"; host := "node.onion"; port := Some 50001; tls := false; onion := true |}.

Definition words : string := "abandon abandon abandon abandon abandon abandon abandon abandon abandon abandon abandon about".
End DemoUrls.
#[local] Existing Instances DemoUrls.demo_urls DemoUrls.demo_url_laws Xpub.Demo.demo_keys.

Example demo_spellings : List.map (fun text => stored_form Electrum text)
  ["NODE.onion.:50001:t"; "tcp://node.ONION"; "electrum://node.onion/"; "node.example"; "2001:db8::1"; "ssl://h:50001:extra"]
  = [Ok "tcp://node.onion:50001"; Ok "tcp://node.onion:50001"; Ok "tcp://node.onion:50001"; Ok "ssl://node.example:50002";
     Ok "ssl://[2001:db8::1]:50002";
     Err (reject "h:50001:extra has more than one colon and is not an IPv6 address; bracket it as [address]:port if it is")].
Proof. vm_compute. reflexivity. Qed.

(** A name typed with three dots after it is stored with two: no onion to
    the scan that read it, an onion to whoever reads the address again; and
    read again, the address is stored under yet another spelling. *)
Example dots_read_apart : parse_backend "ssl://node.onion...:50002"
    = Ok {| kind := Electrum; url := "ssl://node.onion..:50002"; host := "node.onion.."; port := Some 50002; tls := true; onion := false |}
  /\ is_onion "ssl://node.onion..:50002" = true
  /\ stored_form Electrum "ssl://node.onion...:50002" = Ok "ssl://node.onion..:50002"
  /\ stored_form Electrum "ssl://node.onion..:50002" = Ok "ssl://node.onion.:50002".
Proof. vm_compute. by repeat split. Qed.

Lemma stored_form_stays_witness : stored_form Electrum "tcp://node.onion:50001" = Ok "tcp://node.onion:50001".
Proof.
  refine (proj1 (stored_form_stays "NODE.onion.:50001:t" "tcp://node.onion:50001" _) _ _); vm_compute; reflexivity.
Defined.

Lemma stored_address_names_its_host_witness : is_onion "tcp://node.onion:50001" = true.
Proof.
  refine (proj1 (proj2 (stored_address_names_its_host "NODE.onion.:50001:t" DemoUrls.saved _ _ _))); vm_compute; reflexivity.
Defined.

Lemma typed_seed_is_refused_witness :
  parse_backend ("ssl://[ssl://" +:+ DemoUrls.words +:+ ":50002]:50002") = Err PrivateMaterialRejected.
Proof.
  destruct (typed_seed_is_refused DemoUrls.words "50002]:50002" ("ssl://[ssl://" +:+ DemoUrls.words +:+ ":50002]:50002")) as [Hr [H|[what H]]].
  - vm_compute. reflexivity.
  - vm_compute. reflexivity.
  - by eexists _, _.
  - vm_compute. reflexivity.
  - apply (wrapped_scheme _ "ssl"); [vm_compute; reflexivity|]. apply wrapped_bracket.
    apply (wrapped_scheme _ "ssl"); [vm_compute; reflexivity|]. apply wrapped_core.
  - exact H.
  - exfalso. vm_compute in H. discriminate.
Defined.
