(* ===== verification/Lock.v ===== *)
(** [lock.rs]: the delays between guesses and their record, in memory and
    in the file beside the vault; the rules a secret must meet; the stored
    form of a secret. An [Instant] is a count of nanoseconds on a clock
    that never goes back; the wall clock is a count of seconds that can
    read anything. *)
From S2P Require Import Prelude Utf8 Text Errors.
From Stdlib Require Import Ascii.

Inductive LockKind := Pin | Password.

Record LockSecret := { salt : string; hash : string }.

Record AppLock := { al_kind : LockKind; biometric : bool; secret : option LockSecret }.

Record LockVerdict := { unlocked : bool; v_failures : Z; retry_after_secs : Z }.

#[export] Instance LockKind_eq_dec : EqDecision LockKind.
Proof. solve_decision. Defined.
#[export] Instance LockSecret_eq_dec : EqDecision LockSecret.
Proof. solve_decision. Defined.
#[export] Instance AppLock_eq_dec : EqDecision AppLock.
Proof. solve_decision. Defined.

(** ** Delays *)

Definition FREE_ATTEMPTS : Z := 3.
Definition FIRST_DELAY_SECS : Z := 5.
Definition MAX_DELAY_SECS : Z := 300.

(** A [Duration] of whole seconds, in nanoseconds. *)
Definition NANOS : Z := 1000000000.
Definition from_secs (secs : Z) : Z := secs * NANOS.
Definition as_secs (duration : Z) : Z := duration / NANOS.
Definition as_millis (duration : Z) : Z := duration / 1000000.
Definition div_ceil (a b : Z) : Z := (a + b - 1) / b.

Definition delay_after (failures : Z) : Z :=
  if failures <? FREE_ATTEMPTS then 0
  else let doublings := Z.min (failures - FREE_ATTEMPTS) 16 in
       from_secs (Z.min (Z.shiftl FIRST_DELAY_SECS doublings) MAX_DELAY_SECS).

(** The record in memory. Whether it has a file to be mirrored in is the
    operations' business: see [Disk]. *)
Record LockAttempts := { failures : Z; blocked_until : option Z }.

Record StoredAttempts := { s_failures : Z; s_blocked_until_unix : option Z }.

Definition default_stored : StoredAttempts := {| s_failures := 0; s_blocked_until_unix := None |}.

Definition restore (stored : StoredAttempts) (now_unix now : Z) : LockAttempts := {|
  failures := s_failures stored;
  blocked_until :=
    match s_blocked_until_unix stored with
    | None => None
    | Some until =>
      let remaining := Z.min (sat_sub until now_unix) MAX_DELAY_SECS in
      let remaining := if s_failures stored >=? FREE_ATTEMPTS
                       then Z.max remaining FIRST_DELAY_SECS else remaining in
      if remaining >? 0 then Some (now + from_secs remaining) else None
    end |}.

(** [now_unix + ...] is a plain addition of two [u64]. *)
Definition stored (a : LockAttempts) (now_unix now : Z) : StoredAttempts := {|
  s_failures := failures a;
  s_blocked_until_unix :=
    match blocked_until a with
    | Some until =>
      if until >? now
      then Some (wrap_u64 (now_unix + div_ceil (as_millis (until - now)) 1000))
      else None
    | None => None
    end |}.

Definition retry_after (a : LockAttempts) (now : Z) : Z :=
  match blocked_until a with
  | Some until => if until >? now then Z.max (as_secs (until - now)) 1 else 0
  | None => 0
  end.

(** The file beside the vault: absent, or what it holds as read back. A
    file that does not read is one that is absent. *)
Definition Disk : Type := option StoredAttempts.

(** [load]. *)
Definition load (file : Disk) (now_unix now : Z) : LockAttempts :=
  restore (unwrap_or file default_stored) now_unix now.

(** [mirror], its write going through or not, at [now] and [now_unix]. *)
Definition mirror (a : LockAttempts) (file : Disk) (written : bool) (now_unix now : Z) : Disk :=
  if written then Some (stored a now_unix now) else file.

(** [fail] at [now]; the mirror reads both clocks again. *)
Definition fail (a : LockAttempts) (file : Disk) (now : Z) (written : bool) (mirror_unix mirror_now : Z)
  : LockAttempts * Disk * LockVerdict :=
  let failures := sat_add_u32 (failures a) 1 in
  let delay := delay_after failures in
  let a := {| failures := failures; blocked_until := if delay >? 0 then Some (now + delay) else None |} in
  (a, mirror a file written mirror_unix mirror_now,
   {| unlocked := false; v_failures := failures; retry_after_secs := as_secs delay |}).

(** [succeed]; [removed] is whether the file could be. *)
Definition succeed (file : Disk) (removed : bool) : LockAttempts * Disk * LockVerdict :=
  ({| failures := 0; blocked_until := None |}, if removed then None else file,
   {| unlocked := true; v_failures := 0; retry_after_secs := 0 |}).

Example delays_ex : List.map (fun n => as_secs (delay_after n)) [0; 2; 3; 4; 5; 8; 9; 10; 20; 4294967295]
  = [0; 0; 5; 10; 20; 160; 300; 300; 300; 300].
Proof. reflexivity. Qed.

(** ** Secrets *)

Definition is_ascii_digit (c : code_point) : bool := ((48 <=? c) && (c <=? 57))%N.

Definition validate_secret (kind : LockKind) (secret : string) : CoreResult unit :=
  match kind with
  | Pin =>
    let digits := length (chars secret) in
    if negb ((4 <=? digits)%nat && (digits <=? 12)%nat) || negb (all is_ascii_digit (chars secret))
    then Err (InvalidInput "pin" "a PIN is 4 to 12 digits") else Ok tt
  | Password =>
    let length := length (chars secret) in
    if (length <? 8)%nat then Err (InvalidInput "password" "a password is at least 8 characters")
    else if (256 <? length)%nat then Err (InvalidInput "password" "a password is at most 256 characters")
    else Ok tt
  end.

Definition hex_digit (n : Z) : ascii :=
  ascii_of_N (Z.to_N (if n <? 10 then 48 + n else 87 + n)).

(** [format!("{b:02x}")]: two digits, the letters small. *)
Definition hex_byte (b : Z) (rest : string) : string :=
  String (hex_digit (b / 16)) (String (hex_digit (b mod 16)) rest).

Definition hex (bytes : list Z) : string := foldr hex_byte "" bytes.

(** [char::to_digit(16)]. *)
Definition hex_value (a : ascii) : option Z :=
  let n := Z.of_N (byte_of a) in
  if (48 <=? n) && (n <=? 57) then Some (n - 48)
  else if (97 <=? n) && (n <=? 102) then Some (n - 87)
  else if (65 <=? n) && (n <=? 70) then Some (n - 55)
  else None.

(** [u8::from_str_radix] of two characters, base 16: the standard library
    takes one leading plus sign, then digits. *)
Definition from_str_radix_16 (a b : ascii) : option Z :=
  if (a =? "+")%char then hex_value b
  else match hex_value a, hex_value b with
       | Some h, Some l => Some (h * 16 + l)
       | _, _ => None
       end.

Fixpoint unhex_pairs (text : string) : option (list Z) :=
  match text with
  | String a (String b rest) =>
    match from_str_radix_16 a b with
    | Some byte => match unhex_pairs rest with Some bytes => Some (byte :: bytes) | None => None end
    | None => None
    end
  | _ => Some []
  end.

Definition unhex (text : string) : option (list Z) :=
  if negb (Nat.even (String.length text)) || negb (str_all is_ascii_byte text) then None
  else unhex_pairs text.

(** Argon2id, from its crate: the hash of a secret under a salt, at the
    cost the vault pins, or the words of its error. *)
Section Secrets.
Context (argon2id : string -> list Z -> result (list Z) string).

Definition derive (secret : string) (salt : list Z) : CoreResult (list Z) :=
  match argon2id secret salt with
  | Ok out => Ok out
  | Err e => Err (Internal ("argon2: " +:+ e))
  end.

Definition hash_secret (fresh_salt : list Z) (secret : string) : CoreResult LockSecret :=
  let? h := derive secret fresh_salt in
  Ok {| salt := hex fresh_salt; hash := hex h |}.

Definition verify_secret (secret : string) (stored : LockSecret) : bool :=
  match unhex (salt stored), unhex (hash stored) with
  | Some salt, Some expected =>
    match derive secret salt with
    | Ok derived => (length derived =? length expected)%nat && bool_decide (derived = expected)
    | Err _ => false
    end
  | _, _ => false
  end.
End Secrets.

(** ** Delays: properties *)

Lemma delay_after_cases f :
  (f < 3 /\ delay_after f = 0)
  \/ (3 <= f /\ delay_after f = from_secs (Z.min (5 * 2 ^ Z.min (f - 3) 16) 300)).
Proof.
  unfold delay_after, FREE_ATTEMPTS, FIRST_DELAY_SECS, MAX_DELAY_SECS.
  destruct (Z.ltb_spec f 3); [by left|right; split; [done|]].
  rewrite Z.shiftl_mul_pow2 by lia. done.
Qed.

Lemma delay_after_bounds f : 3 <= f ->
  from_secs FIRST_DELAY_SECS <= delay_after f <= from_secs MAX_DELAY_SECS.
Proof.
  intros Hf. destruct (delay_after_cases f) as [[? _]|[_ ->]]; [lia|].
  pose proof (Z.pow_le_mono_r 2 0 (Z.min (f - 3) 16)). unfold from_secs, NANOS, FIRST_DELAY_SECS, MAX_DELAY_SECS. lia.
Qed.

(** The delays after failures. The first two failures cost nothing;
    from the third on every delay is between five seconds and five
    minutes, one more failure never shortens it and doubles it until the
    longest is reached, and the longest holds from the ninth on, however
    many follow. *)
Lemma delays_double f :
  0 <= f ->
  (delay_after f = 0 <-> f < 3)
  /\ (3 <= f -> from_secs FIRST_DELAY_SECS <= delay_after f <= from_secs MAX_DELAY_SECS
       /\ delay_after (f + 1) = Z.min (2 * delay_after f) (from_secs MAX_DELAY_SECS))
  /\ (9 <= f -> delay_after f = from_secs MAX_DELAY_SECS)
  /\ delay_after f <= delay_after (f + 1).
Proof.
  intros Hf.
  assert (Hstep : 3 <= f -> delay_after (f + 1) = Z.min (2 * delay_after f) (from_secs MAX_DELAY_SECS)).
  { intros H3. destruct (delay_after_cases f) as [[? _]|[_ ->]]; [lia|].
    destruct (delay_after_cases (f + 1)) as [[? _]|[_ ->]]; [lia|]. unfold from_secs, NANOS, MAX_DELAY_SECS.
    destruct (Z.le_gt_cases 19 f).
    - replace (Z.min (f - 3) 16) with 16 by lia. replace (Z.min (f + 1 - 3) 16) with 16 by lia. reflexivity.
    - replace (Z.min (f - 3) 16) with (f - 3) by lia. replace (Z.min (f + 1 - 3) 16) with (Z.succ (f - 3)) by lia.
      rewrite Z.pow_succ_r by lia. lia. }
  pose proof (delay_after_bounds f) as Hb. unfold from_secs, NANOS, FIRST_DELAY_SECS, MAX_DELAY_SECS in *.
  split_and!.
  - split; [|by destruct (delay_after_cases f) as [[_ ->]|[? _]]; [|lia]]. intros H.
    destruct (Z.le_gt_cases 3 f); lia.
  - intros H3. split; [lia|]. by apply Hstep.
  - intros H9. destruct (delay_after_cases f) as [[? _]|[_ ->]]; [lia|].
    pose proof (Z.pow_le_mono_r 2 6 (Z.min (f - 3) 16) ltac:(lia) ltac:(lia)). unfold from_secs, NANOS. lia.
  - destruct (Z.le_gt_cases 3 f); [lia|]. destruct (delay_after_cases f) as [[_ ->]|[? _]]; [|lia].
    destruct (delay_after_cases (f + 1)) as [[_ ->]|[? _]]; [lia|].
    pose proof (delay_after_bounds (f + 1)). unfold from_secs, NANOS, FIRST_DELAY_SECS in *. lia.
Qed.

(** ** Hex *)

Lemma hex_value_digit n : 0 <= n < 16 -> hex_value (hex_digit n) = Some n.
Proof.
  intros Hn. unfold hex_value, hex_digit, byte_of. rewrite N_ascii_embedding by (destruct (n <? 10) eqn:?; lia).
  rewrite Z2N.id by (destruct (n <? 10) eqn:?; lia).
  destruct (n <? 10) eqn:E; split_ifs; try (f_equal; lia); lia.
Qed.

Lemma hex_digit_plus n : 0 <= n < 16 -> (hex_digit n =? "+")%char = false.
Proof.
  intros Hn. apply Ascii.eqb_neq. intros H. pose proof (hex_value_digit n Hn) as Hv. by rewrite H in Hv.
Qed.

Lemma hex_digit_ascii n : 0 <= n < 16 -> is_ascii_byte (hex_digit n) = true.
Proof.
  intros Hn. unfold is_ascii_byte, hex_digit, byte_of.
  rewrite N_ascii_embedding by (destruct (n <? 10) eqn:?; lia). destruct (n <? 10) eqn:?; lia.
Qed.

Lemma hex_shape l : Forall (fun b => 0 <= b <= 255) l ->
  str_all is_ascii_byte (hex l) = true /\ String.length (hex l) = (2 * length l)%nat.
Proof.
  induction 1 as [|b l Hb _ [IH1 IH2]]; [done|]. cbn [hex foldr hex_byte str_all String.length length].
  fold (hex l). rewrite IH1, !hex_digit_ascii by (Z.div_mod_to_equations; lia). split; [done|]. lia.
Qed.

Lemma unhex_hex l : Forall (fun b => 0 <= b <= 255) l -> unhex (hex l) = Some l.
Proof.
  intros Hl. destruct (hex_shape l Hl) as [Ha Hlen]. unfold unhex.
  rewrite Ha, Hlen, Nat.even_mul. simpl. clear Ha Hlen.
  induction Hl as [|b l Hb _ IH]; [done|]. cbn [hex foldr hex_byte unhex_pairs]. fold (hex l).
  unfold from_str_radix_16. rewrite hex_digit_plus, !hex_value_digit, IH by (Z.div_mod_to_equations; lia).
  repeat f_equal. Z.div_mod_to_equations; lia.
Qed.

(** What is documented of Argon2id and its output buffer: 32 bytes. *)
Definition Argon2id_output (argon2id : string -> list Z -> result (list Z) string) : Prop :=
  forall s salt out, argon2id s salt = Ok out -> length out = 32%nat /\ Forall (fun b => 0 <= b <= 255) out.

(** A secret verifies against what was stored for one exactly when
    Argon2id gives both the same output under the stored salt: the right
    secret always opens the lock, and a wrong one only through a
    collision of the hash; the fresh salt, the text form and its reading
    back change nothing of it. *)
Theorem stored_secret_verifies argon2id fresh_salt s stored t :
  Argon2id_output argon2id -> Forall (fun b => 0 <= b <= 255) fresh_salt ->
  hash_secret argon2id fresh_salt s = Ok stored ->
  verify_secret argon2id t stored = true <-> argon2id t fresh_salt = argon2id s fresh_salt.
Proof.
  intros Hout Hsalt. unfold hash_secret, verify_secret, derive.
  destruct (argon2id s fresh_salt) as [h|e] eqn:Hs; [|done]. simpl. intros [= <-]. simpl.
  destruct (Hout _ _ _ Hs) as [Hlen Hh]. rewrite !unhex_hex by done.
  destruct (argon2id t fresh_salt) as [d|e] eqn:Ht; [|done].
  rewrite andb_true_iff, bool_decide_eq_true, Nat.eqb_eq. split; [by intros [_ ->]|].
  intros [= ->]. done.
Qed.

(** A stand-in for the hash: 32 bytes drawn from the secret. *)
Definition toy_output (s : string) : list Z :=
  List.map (fun i => (Z.of_nat i + dec_value 7 s) mod 256) (seq 0 32).

Definition toy_argon2id (s : string) (salt : list Z) : result (list Z) string :=
  if (length salt <? 8)%nat then Err "salt too short" else Ok (toy_output s).

Lemma toy_argon2id_output : Argon2id_output toy_argon2id.
Proof.
  intros s salt out. unfold toy_argon2id. destruct (_ <? 8)%nat; [done|].
  generalize (eq_refl (toy_output s)). generalize (toy_output s) at 2 3. intros o Ho [= <-]. rewrite <- Ho.
  unfold toy_output. split; [by rewrite List.length_map, length_seq|].
  apply List.Forall_forall. intros b Hb. apply in_map_iff in Hb as (i & <- & _).
  pose proof (Z.mod_pos_bound (Z.of_nat i + dec_value 7 s) 256 ltac:(lia)). lia.
Qed.

Lemma stored_secret_verifies_witness :
  verify_secret toy_argon2id "1234" {| salt := hex (List.repeat 9 16); hash := hex (toy_output "1234") |} = true.
Proof.
  apply (stored_secret_verifies toy_argon2id (List.repeat 9 16) "1234" _ "1234" toy_argon2id_output);
    [|reflexivity|reflexivity].
  repeat constructor; lia.
Defined.

(** The text the core writes is the one the reading is meant for; a plus
    sign in place of a first digit reads as well, so that material the
    core never wrote, malformed, can still match. *)
Theorem unhex_takes_plus : unhex "+f" = Some [15] /\ unhex "0f" = Some [15] /\ hex [15] = "0f".
Proof. done. Qed.

(** The time still to wait, counted in whole milliseconds before it is
    rounded up to seconds, loses what is left of a millisecond: a wait of
    nine seconds and half a microsecond comes back as nine. *)
Theorem stored_may_round_down :
  let a := {| failures := 4; blocked_until := Some (9 * NANOS + 500) |} in
  exists until, blocked_until (restore (stored a 1000 0) 1000 0) = Some until /\ until < 9 * NANOS + 500.
Proof. eexists. split; [vm_compute; reflexivity|]. unfold NANOS. lia. Qed.
