(* ===== verification/Store.v ===== *)
(** [store/mod.rs]: what the vault persists, and how a vault of an
    earlier build is read. The wallets themselves hold the change sets of
    the wallet engine, a library: their type is a parameter [W]. What the
    file unseals to ([Cipher], [VaultFile]) and what the JSON reader
    answers are arguments of [read]. *)
From S2P Require Import Prelude Text Errors Network Prefs Updates Lock.

Inductive BackendConfig :=
| Public (server : option string)
| CustomEsplora (url : string) (own_node : bool)
| CustomElectrum (url : string) (own_node : bool).

Inductive TorMode := Auto | System | Embedded.
Record TorSettings := { mode : TorMode; socks_proxy : option string }.

Definition PAYLOAD_VERSION : Z := 3.
Definition DEFAULT_GAP_LIMIT : Z := 20.

Record Settings := {
  active_network : Network;
  backends : list (Network * BackendConfig);
  gap_limit : Z;
  app_prefs : gmap string string;
  electrum_certs : gmap string string;
  app_lock : option AppLock;
  tor : TorSettings;
  preferences : Preferences;
}.

Definition default_settings : Settings := {|
  active_network := Mainnet; backends := []; gap_limit := DEFAULT_GAP_LIMIT;
  app_prefs := ∅; electrum_certs := ∅; app_lock := None;
  tor := {| mode := Auto; socks_proxy := None |};
  preferences := default_preferences |}.

(** [backend_for]: of an ordered map, one entry a network. *)
Definition backend_for (s : Settings) (n : Network) : BackendConfig :=
  match List.find (fun e => bool_decide (e.1 = n)) (backends s) with
  | Some e => e.2
  | None => Public None
  end.

Inductive TxStage := Mempool | Confirmed | Dropped.

#[export] Instance TxStage_eq_dec : EqDecision TxStage.
Proof. solve_decision. Defined.

Record Announced := {
  an_wallet_id : string;
  an_txid : string;
  an_stage : TxStage;
  an_replaces : option string;
}.

Definition covers (a : Announced) (wallet_id : string) : bool :=
  bool_decide (an_wallet_id a = "") || bool_decide (an_wallet_id a = wallet_id).

Record Unclaimed := {
  un_wallet_id : string;
  un_txid : string;
  un_net_sats : Z;
  un_stage : TxStage;
  found_at : Z;
  un_replaces : option string;
}.

(** An output a transaction spends: txid and index. *)
Abbreviation OutPoint := (string * Z)%type.

Record Vanishing := {
  va_wallet_id : string;
  va_txid : string;
  told_as : string;
  va_net_sats : Z;
  va_spends : list OutPoint;
  missed_at : Z;
}.

(** [broadcast.rs]: a transaction this app handed to the network. *)
Record RecentBroadcast := {
  rb_txid : string;
  rb_network : Network;
  rb_hex : string;
  rb_backend : string;
  rb_at : Z;
}.

Definition RECENT_BROADCASTS : nat := 10.

Record VaultPayload {W : Type} := {
  version : Z;
  settings : Settings;
  wallets : list W;
  announced : list Announced;
  unclaimed : list Unclaimed;
  vanishing : list Vanishing;
  updates : UpdateRecord;
  broadcasts : list RecentBroadcast;
}.
Arguments VaultPayload : clear implicits.

#[export] Instance BackendConfig_eq_dec : EqDecision BackendConfig.
Proof. solve_decision. Defined.
#[export] Instance TorMode_eq_dec : EqDecision TorMode.
Proof. solve_decision. Defined.
#[export] Instance TorSettings_eq_dec : EqDecision TorSettings.
Proof. solve_decision. Defined.
#[export] Instance Settings_eq_dec : EqDecision Settings.
Proof. solve_decision. Defined.
#[export] Instance Announced_eq_dec : EqDecision Announced.
Proof. solve_decision. Defined.
#[export] Instance Unclaimed_eq_dec : EqDecision Unclaimed.
Proof. solve_decision. Defined.
#[export] Instance Vanishing_eq_dec : EqDecision Vanishing.
Proof. solve_decision. Defined.
#[export] Instance RecentBroadcast_eq_dec : EqDecision RecentBroadcast.
Proof. solve_decision. Defined.
#[export] Instance VaultPayload_eq_dec {W} `{EqDecision W} : EqDecision (VaultPayload W).
Proof. solve_decision. Defined.

Definition default_payload {W} : VaultPayload W := {|
  version := PAYLOAD_VERSION; settings := default_settings; wallets := []; announced := [];
  unclaimed := []; vanishing := []; updates := default_record; broadcasts := [] |}.

(** Assignment to one field of the payload. *)
Section Fields.
Context {W : Type}.
Implicit Types p : VaultPayload W.

Definition set_version p (v : Z) : VaultPayload W := {|
  version := v; settings := settings p; wallets := wallets p; announced := announced p;
  unclaimed := unclaimed p; vanishing := vanishing p; updates := updates p; broadcasts := broadcasts p |}.
Definition set_settings p (s : Settings) : VaultPayload W := {|
  version := version p; settings := s; wallets := wallets p; announced := announced p;
  unclaimed := unclaimed p; vanishing := vanishing p; updates := updates p; broadcasts := broadcasts p |}.
Definition set_announced p (l : list Announced) : VaultPayload W := {|
  version := version p; settings := settings p; wallets := wallets p; announced := l;
  unclaimed := unclaimed p; vanishing := vanishing p; updates := updates p; broadcasts := broadcasts p |}.
Definition set_unclaimed p (l : list Unclaimed) : VaultPayload W := {|
  version := version p; settings := settings p; wallets := wallets p; announced := announced p;
  unclaimed := l; vanishing := vanishing p; updates := updates p; broadcasts := broadcasts p |}.
Definition set_vanishing p (l : list Vanishing) : VaultPayload W := {|
  version := version p; settings := settings p; wallets := wallets p; announced := announced p;
  unclaimed := unclaimed p; vanishing := l; updates := updates p; broadcasts := broadcasts p |}.
Definition set_broadcasts p (l : list RecentBroadcast) : VaultPayload W := {|
  version := version p; settings := settings p; wallets := wallets p; announced := announced p;
  unclaimed := unclaimed p; vanishing := vanishing p; updates := updates p; broadcasts := l |}.
End Fields.

Definition set_app_prefs (s : Settings) (m : gmap string string) : Settings := {|
  active_network := active_network s; backends := backends s; gap_limit := gap_limit s;
  app_prefs := m; electrum_certs := electrum_certs s; app_lock := app_lock s;
  tor := tor s; preferences := preferences s |}.
Definition set_lock (s : Settings) (l : option AppLock) : Settings := {|
  active_network := active_network s; backends := backends s; gap_limit := gap_limit s;
  app_prefs := app_prefs s; electrum_certs := electrum_certs s; app_lock := l;
  tor := tor s; preferences := preferences s |}.
Definition set_preferences (s : Settings) (p : Preferences) : Settings := {|
  active_network := active_network s; backends := backends s; gap_limit := gap_limit s;
  app_prefs := app_prefs s; electrum_certs := electrum_certs s; app_lock := app_lock s;
  tor := tor s; preferences := p |}.

(** ** The recent broadcasts *)

Definition remember_broadcast {W} (p : VaultPayload W) (sent : RecentBroadcast) : VaultPayload W :=
  let kept := retain (fun kept => negb (bool_decide (rb_txid kept = rb_txid sent))) (broadcasts p) in
  set_broadcasts p (take RECENT_BROADCASTS (sent :: kept)).

Definition RETIRED_PREFS : list string := ["premium."; "update."; "updates."].
Definition APP_BROADCASTS : string := "broadcast.recent".

(** [prefs.retain(...)]: the preferences no retired feature kept. *)
Definition retain_prefs (prefs : gmap string string) : gmap string string :=
  filter (fun kv => any (fun retired => starts_with retired kv.1) RETIRED_PREFS = false) prefs.

Section Reading.
Context {W : Type}.
(** The JSON reader on the preference of an earlier build: its entries,
    each one read or not ([[]] where the list itself does not read);
    and the transaction decoder: whether the bytes are the transaction
    the txid names. *)
Context (read_entries : string -> list (option RecentBroadcast)).
Context (holds_together : RecentBroadcast -> bool).

Fixpoint adopt_entries (kept : list RecentBroadcast) (entries : list (option RecentBroadcast))
  : list RecentBroadcast :=
  match entries with
  | [] => kept
  | entry :: entries =>
    if (RECENT_BROADCASTS <=? length kept)%nat then kept
    else match entry with
         | None => adopt_entries kept entries
         | Some entry =>
           if holds_together entry
              && negb (any (fun k => bool_decide (rb_txid k = rb_txid entry)) kept)
           then adopt_entries (kept ++ [entry]) entries
           else adopt_entries kept entries
         end
  end.

Definition adopt_app_broadcasts (p : VaultPayload W) : VaultPayload W * bool :=
  match app_prefs (settings p) !! APP_BROADCASTS with
  | None => (p, false)
  | Some raw =>
    let p := set_settings p (set_app_prefs (settings p) (delete APP_BROADCASTS (app_prefs (settings p)))) in
    (set_broadcasts p (adopt_entries (broadcasts p) (read_entries raw)), true)
  end.

(** The head of the payload as the reader gives it: the version, and of
    the settings, when there are any, whether they hold the retired
    account and whether they hold the record of the preferences. *)
Record Head := { h_version : Z; h_premium : bool; h_unrecorded : bool }.

(** [read], from what the file unsealed to. *)
Definition read (android : bool)
  (plaintext : result (result Head string * result (VaultPayload W) string) VaultError)
  : result (VaultPayload W * bool) VaultError :=
  let? (head, body) := plaintext in
  match head with
  | Err e => Err (CorruptedPayload e)
  | Ok head =>
    if h_version head >? PAYLOAD_VERSION then Err (UnsupportedVersion (Z.min (h_version head) 255))
    else match body with
    | Err e => Err (CorruptedPayload e)
    | Ok payload =>
      let payload := set_version payload PAYLOAD_VERSION in
      let payload :=
        if h_unrecorded head then
          let '(adopted, rest) := adopt android (app_prefs (settings payload)) in
          set_settings payload (set_preferences (set_app_prefs (settings payload) rest) adopted)
        else payload in
      let prefs := app_prefs (settings payload) in
      let before := size prefs in
      let prefs := retain_prefs prefs in
      let payload := set_settings payload (set_app_prefs (settings payload) prefs) in
      let retired := h_premium head || (size prefs <? before)%nat in
      let '(payload, taken) := adopt_app_broadcasts payload in
      Ok (payload, taken || retired)
    end
  end.
End Reading.

(** ** The manager's commit

    A change is made on a copy, saved, and only then the state. [save] is
    what the write of the vault answers. *)
Definition commit {W T} (p : VaultPayload W) (save : result unit VaultError)
  (change : VaultPayload W -> CoreResult (T * VaultPayload W)) : VaultPayload W * CoreResult T :=
  match change p with
  | Err e => (p, Err e)
  | Ok (value, next) =>
    match save with
    | Err e => (p, Err (Vault e))
    | Ok _ => (next, Ok value)
    end
  end.

(** ** Properties *)

(** One record a transaction, ten at most. *)
Definition wf_broadcasts (l : list RecentBroadcast) : Prop :=
  NoDup (List.map rb_txid l) /\ (length l <= RECENT_BROADCASTS)%nat.

Lemma NoDup_sublist {A} (l1 l2 : list A) : sublist l1 l2 -> NoDup l2 -> NoDup l1.
Proof. intros Hs Hn. by eapply sublist_NoDup. Qed.

Lemma sublist_map {A B} (f : A -> B) l1 l2 : sublist l1 l2 -> sublist (List.map f l1) (List.map f l2).
Proof. induction 1; simpl; by constructor. Qed.

Lemma take_sublist {A} n (l : list A) : sublist (take n l) l.
Proof. apply sublist_take. Qed.

Lemma remember_broadcasts_wf {W} (p : VaultPayload W) sent :
  wf_broadcasts (broadcasts p) -> wf_broadcasts (broadcasts (remember_broadcast p sent)).
Proof.
  intros [Hn Hl]. unfold remember_broadcast. set (kept := retain _ _). cbn [broadcasts set_broadcasts].
  split; [|rewrite length_take; lia].
  eapply NoDup_sublist; [apply sublist_map, (take_sublist RECENT_BROADCASTS)|].
  cbn [List.map]. apply list.NoDup_cons. split.
  - intros H. apply list_elem_of_In, in_map_iff in H as (k & Hk & [_ Hin]%retain_In).
    apply negb_true_iff, bool_decide_eq_false in Hin. done.
  - eapply NoDup_sublist; [apply sublist_map, retain_sublist|done].
Qed.

Lemma adopt_entries_wf holds kept entries : wf_broadcasts kept ->
  wf_broadcasts (adopt_entries holds kept entries)
  /\ exists more, adopt_entries holds kept entries = kept ++ more
      /\ Forall (fun e => holds e = true /\ In (Some e) entries) more.
Proof.
  revert kept. induction entries as [|e entries IH]; intros kept Hk; cbn [adopt_entries].
  { split; [done|]. exists []. by rewrite app_nil_r. }
  destruct (Nat.leb_spec RECENT_BROADCASTS (length kept)) as [|Hlt].
  { split; [done|]. exists []. by rewrite app_nil_r. }
  assert (Hskip : forall kept', wf_broadcasts kept' ->
    wf_broadcasts (adopt_entries holds kept' entries)
    /\ exists more, adopt_entries holds kept' entries = kept' ++ more
      /\ Forall (fun x => holds x = true /\ In (Some x) (e :: entries)) more).
  { intros kept' H'. destruct (IH kept' H') as (Hw & more & He & Hm). split; [done|].
    exists more. split; [done|]. eapply List.Forall_impl; [|exact Hm]. intros x [? ?]. split; [done|by right]. }
  destruct e as [b|]; [|by apply Hskip].
  destruct (holds b && _) eqn:E; [|by apply Hskip]. apply andb_true_iff in E as [Hb Hn].
  apply negb_true_iff in Hn. rewrite any_false in Hn.
  assert (Hw : wf_broadcasts (kept ++ [b])).
  { destruct Hk as [Hnd Hl]. split; [|rewrite length_app; simpl; lia].
    rewrite List.map_app. apply list.NoDup_app. split; [done|]. split; [|by apply NoDup_singleton].
    intros x Hx Hx'. apply list_elem_of_singleton in Hx' as ->.
    apply list_elem_of_In, in_map_iff in Hx as (k & Hk & Hin).
    specialize (Hn k Hin). by apply bool_decide_eq_false in Hn. }
  destruct (Hskip _ Hw) as (Hw' & more & He & Hm). split; [done|].
  exists (b :: more). rewrite He, <- app_assoc. split; [done|]. constructor; [|done]. split; [done|by left].
Qed.

Definition retired_key (key : string) : bool := any (fun r => starts_with r key) RETIRED_PREFS.

(** What no payload read from the file holds any more. *)
Definition clean {W} (p : VaultPayload W) : Prop :=
  version p = PAYLOAD_VERSION
  /\ (forall key, retired_key key = true -> app_prefs (settings p) !! key = None)
  /\ app_prefs (settings p) !! APP_BROADCASTS = None.

Lemma filter_retired_lookup (m : gmap string string) key :
  retain_prefs m !! key = if retired_key key then None else m !! key.
Proof.
  unfold retain_prefs. destruct (retired_key key) eqn:E.
  - apply map_lookup_filter_None. right. intros v _ H. unfold retired_key in E. cbn [fst] in H. congruence.
  - destruct (m !! key) as [v|] eqn:Hv.
    + by apply map_lookup_filter_Some.
    + apply map_lookup_filter_None. by left.
Qed.

Lemma adopt_app_broadcasts_spec {W} read_entries holds (p : VaultPayload W) q taken :
  adopt_app_broadcasts read_entries holds p = (q, taken) ->
  version q = version p /\ wallets q = wallets p /\ announced q = announced p
  /\ unclaimed q = unclaimed p /\ vanishing q = vanishing p /\ updates q = updates p
  /\ preferences (settings q) = preferences (settings p)
  /\ app_prefs (settings q) = delete APP_BROADCASTS (app_prefs (settings p))
  /\ (wf_broadcasts (broadcasts p) -> wf_broadcasts (broadcasts q)
      /\ broadcasts p `prefix_of` broadcasts q)
  /\ (taken = false -> q = p).
Proof.
  unfold adopt_app_broadcasts. destruct (app_prefs (settings p) !! APP_BROADCASTS) as [raw|] eqn:E; intros [= <- <-].
  - cbn. split_and!; try done. intros Hw. destruct (adopt_entries_wf holds _ (read_entries raw) Hw) as (H & more & He & _).
    split; [done|]. by exists more.
  - rewrite delete_id by done. by split_and!.
Qed.

Lemma read_Ok {W} read_entries holds android h (body : VaultPayload W) q r :
  read read_entries holds android (Ok (Ok h, Ok body)) = Ok (q, r) ->
  h_version h <= PAYLOAD_VERSION /\ clean q
  /\ wallets q = wallets body /\ announced q = announced body /\ unclaimed q = unclaimed body
  /\ vanishing q = vanishing body /\ updates q = updates body
  /\ (h_unrecorded h = true -> consistent (preferences (settings q)))
  /\ (wf_broadcasts (broadcasts body) ->
      wf_broadcasts (broadcasts q) /\ broadcasts body `prefix_of` broadcasts q).
Proof.
  unfold read. simpl. destruct (Z.gtb_spec (h_version h) PAYLOAD_VERSION) as [|Hv]; [done|].
  set (p1 := if h_unrecorded h then _ else _).
  assert (H1 : version p1 = PAYLOAD_VERSION /\ wallets p1 = wallets body /\ announced p1 = announced body
    /\ unclaimed p1 = unclaimed body /\ vanishing p1 = vanishing body /\ updates p1 = updates body
    /\ broadcasts p1 = broadcasts body
    /\ (h_unrecorded h = true -> consistent (preferences (settings p1)))).
  { subst p1. destruct (h_unrecorded h); [|done].
    pose proof (quotable_consistent) as Hq. unfold adopt, adopt_with. cbn. split_and!; try done; intros _; apply Hq. }
  clearbody p1. destruct H1 as (V & A1 & A2 & A3 & A4 & A5 & A6 & A7).
  destruct (adopt_app_broadcasts _ _ _) as [q' taken] eqn:E. intros [= <- <-].
  apply adopt_app_broadcasts_spec in E as (B0 & B1 & B2 & B3 & B4 & B5 & B6 & B7 & B8 & _). cbn in *.
  unfold clean. rewrite B0, B1, B2, B3, B4, B5, B6, B7. rewrite A6 in B8. split_and!; try done; try congruence.
  - intros key Hk. rewrite lookup_delete_None. right. by rewrite filter_retired_lookup, Hk.
  - by rewrite lookup_delete_None; left.
Qed.

(** A vault that opens is one of this version or an earlier one, and
    the payload comes out current: of this version, without a preference
    of a retired feature, without the list of broadcasts the app kept,
    its broadcasts one a transaction and ten at most with those it held
    first, everything else as written, and the preferences taken over a
    pair some source quotes. A vault of a later version is refused as
    one, whatever the rest of it holds. *)
Theorem vault_read_current {W} read_entries holds android h (body : result (VaultPayload W) string) :
  (h_version h > PAYLOAD_VERSION ->
    exists v, read read_entries holds android (Ok (Ok h, body)) = Err (UnsupportedVersion v) /\ v <= 255)
  /\ (h_version h <= PAYLOAD_VERSION -> forall b, body = Ok b ->
    exists q r, read read_entries holds android (Ok (Ok h, body)) = Ok (q, r) /\ clean q
      /\ wallets q = wallets b /\ announced q = announced b /\ unclaimed q = unclaimed b
      /\ vanishing q = vanishing b /\ updates q = updates b
      /\ (h_unrecorded h = true -> consistent (preferences (settings q)))
      /\ (wf_broadcasts (broadcasts b) ->
          wf_broadcasts (broadcasts q) /\ broadcasts b `prefix_of` broadcasts q)).
Proof.
  split.
  - intros Hv. unfold read. simpl. destruct (Z.gtb_spec (h_version h) PAYLOAD_VERSION); [|lia].
    eexists. split; [done|]. lia.
  - intros Hv b ->. destruct (read read_entries holds android (Ok (Ok h, Ok b))) as [[q r]|e] eqn:E.
    + exists q, r. split; [done|]. apply read_Ok in E. tauto.
    + exfalso. revert E. unfold read. simpl. destruct (Z.gtb_spec (h_version h) PAYLOAD_VERSION); [lia|].
      by destruct (adopt_app_broadcasts _ _ _).
Qed.

Lemma read_fixpoint {W} read_entries holds android (p : VaultPayload W) :
  clean p -> read read_entries holds android
    (Ok (Ok {| h_version := PAYLOAD_VERSION; h_premium := false; h_unrecorded := false |}, Ok p)) = Ok (p, false).
Proof.
  intros (Hv & Hr & Hb). unfold read. simpl.
  assert (retain_prefs (app_prefs (settings p)) = app_prefs (settings p)) as Hf.
  { apply map_eq. intros key. rewrite filter_retired_lookup. destruct (retired_key key) eqn:E; [|done].
    by rewrite Hr. }
  rewrite Hf, Nat.ltb_irrefl. unfold adopt_app_broadcasts. cbn. rewrite Hb.
  destruct p as [v s]; simpl in *. subst v. by destruct s.
Qed.

(** What a read took out is gone for good: the payload read, written
    back and read again comes out the same, with nothing left to write
    back, so a vault that opens is rewritten at most once. *)
Theorem vault_read_settles {W} read_entries holds android h (body : VaultPayload W) q r :
  read read_entries holds android (Ok (Ok h, Ok body)) = Ok (q, r) ->
  read read_entries holds android
    (Ok (Ok {| h_version := version q; h_premium := false; h_unrecorded := false |}, Ok q)) = Ok (q, false).
Proof.
  intros H. apply read_Ok in H as (_ & Hc & _). destruct Hc as (Hv & Hr & Hb). rewrite Hv.
  by apply read_fixpoint.
Qed.

Lemma vault_read_settles_witness :
  exists q : VaultPayload unit,
  read (fun _ => []) (fun _ => true) true (Ok (Ok {| h_version := 1; h_premium := true; h_unrecorded := true |},
    Ok (set_settings default_payload (set_app_prefs default_settings
          {[ "premium.key" := "k"; "theme" := "dark"; "broadcast.recent" := "[]" ]})))) = Ok (q, true)
  /\ read (fun _ => []) (fun _ => true) true
      (Ok (Ok {| h_version := version q; h_premium := false; h_unrecorded := false |}, Ok q)) = Ok (q, false).
Proof.
  eexists. split; [vm_compute; reflexivity|].
  eapply (vault_read_settles (fun _ => []) (fun _ => true) true
    {| h_version := 1; h_premium := true; h_unrecorded := true |}
    (set_settings default_payload (set_app_prefs default_settings
          {[ "premium.key" := "k"; "theme" := "dark"; "broadcast.recent" := "[]" ]}))).
  vm_compute. reflexivity.
Defined.
