(* ===== verification/AppLock.v ===== *)
(** [manager/app_lock.rs]: the lock as the apps set, remove and try it.
    A call holds the vault to read the lock, the record of the attempts to
    judge a secret, and the vault again to write: three holds, between
    which other calls may come. Each hold is a function here, and a call
    made alone is their composition. *)
From S2P Require Import Prelude Text Errors Prefs Updates Network Lock Store.

(** The clocks and the disk, as one call meets them. *)
Record Moment := {
  checked_at : Z;       (* the instant the wait is read at *)
  failed_at : Z;        (* the instant after the comparison *)
  mirror_unix : Z;      (* the wall clock and the instant of the mirror *)
  mirror_now : Z;
  written : bool;       (* the mirror could be written *)
  removed : bool;       (* the mirror could be removed *)
}.

(** The attempts and their file: what the attempts' lock guards. *)
Record Guard := { attempts : LockAttempts; file : Disk }.

Record Manager {W : Type} := { payload : VaultPayload W; guard : Guard }.
Arguments Manager : clear implicits.

Definition fresh_guard : Guard := {| attempts := {| failures := 0; blocked_until := None |}; file := None |}.

(** [LockAttempts::load] at an open. *)
Definition reopen (g : Guard) (now_unix now : Z) : Guard :=
  {| attempts := load (file g) now_unix now; file := file g |}.

Definition no_lock : CoreError := InvalidInput "lock" "no lock is set".
Definition wrong_words (retry : Z) : string :=
  if retry >? 0 then "too many attempts: try again in " +:+ dec retry +:+ " s"
  else "wrong PIN or password".

Section Calls.
Context {W : Type} (argon2id : string -> list Z -> result (list Z) string).
Implicit Types m : Manager W.

Definition lock_of m : option AppLock := Store.app_lock (settings (payload m)).

Definition with_lock (p : VaultPayload W) (l : option AppLock) : VaultPayload W :=
  set_settings p (set_lock (settings p) l).

(** [app_lock]. *)
Definition app_lock m : option AppLock :=
  (fun l => {| al_kind := al_kind l; biometric := biometric l; secret := None |}) <$> lock_of m.

Definition existing_lock m : CoreResult AppLock :=
  match lock_of m with Some l => Ok l | None => Err no_lock end.

Definition matches (existing : AppLock) (guess : string) : bool :=
  match secret existing with Some st => verify_secret argon2id guess st | None => false end.

Definition check_secret (g : Guard) (existing : AppLock) (guess : string) (t : Moment)
  : Guard * LockVerdict :=
  let wait := retry_after (attempts g) (checked_at t) in
  if wait >? 0 then
    (g, {| unlocked := false; v_failures := failures (attempts g); retry_after_secs := wait |})
  else if matches existing guess then
    let '(a, f, v) := succeed (file g) (removed t) in ({| attempts := a; file := f |}, v)
  else
    let '(a, f, v) := fail (attempts g) (file g) (failed_at t) (written t) (mirror_unix t) (mirror_now t) in
    ({| attempts := a; file := f |}, v).

Definition require_current (g : Guard) (existing : AppLock) (current : option string) (t : Moment)
  : Guard * CoreResult unit :=
  match current with
  | None => (g, Err (InvalidInput "lock" "the current PIN or password is required"))
  | Some current =>
    let '(g, verdict) := check_secret g existing current t in
    (g, if unlocked verdict then Ok tt
        else Err (InvalidInput "lock" (wrong_words (retry_after_secs verdict))))
  end.

Definition with_guard m (g : Guard) : Manager W := {| payload := payload m; guard := g |}.

(** The last hold of each call: the change of the vault, and its save. *)
Definition commit_lock m (saved : result unit VaultError) (change : option AppLock -> option AppLock)
  : Manager W * CoreResult unit :=
  let '(p, r) := commit (payload m) saved
    (fun p => Ok (tt, with_lock p (change (Store.app_lock (settings p))))) in
  ({| payload := p; guard := guard m |}, r).

Definition new_lock (kind : LockKind) (st : LockSecret) (previous : option AppLock) : option AppLock :=
  Some {| al_kind := kind;
          biometric := match previous with Some p => biometric p | None => false end;
          secret := Some st |}.

(** [set_app_lock], given the lock its first hold read. *)
Definition set_app_lock_from m (existing : option AppLock) (kind : LockKind) (new : string)
  (current : option string) (fresh_salt : list Z) (t : Moment) (saved : result unit VaultError)
  : Manager W * CoreResult unit :=
  let '(g, allowed) :=
    match existing with
    | Some existing => require_current (guard m) existing current t
    | None => (guard m, Ok tt)
    end in
  let m := with_guard m g in
  match allowed with
  | Err e => (m, Err e)
  | Ok _ =>
    match hash_secret argon2id fresh_salt new with
    | Err e => (m, Err e)
    | Ok st => commit_lock m saved (new_lock kind st)
    end
  end.

Definition set_app_lock m (kind : LockKind) (new : string) (current : option string)
  (fresh_salt : list Z) (t : Moment) (saved : result unit VaultError) : Manager W * CoreResult unit :=
  match validate_secret kind new with
  | Err e => (m, Err e)
  | Ok _ => set_app_lock_from m (lock_of m) kind new current fresh_salt t saved
  end.

(** The calls that change a lock in place: its secret, then the change. *)
Definition guarded m (current : string) (t : Moment) (saved : result unit VaultError)
  (change : option AppLock -> option AppLock) : Manager W * CoreResult unit :=
  match existing_lock m with
  | Err e => (m, Err e)
  | Ok existing =>
    let '(g, allowed) := require_current (guard m) existing (Some current) t in
    let m := with_guard m g in
    match allowed with
    | Err e => (m, Err e)
    | Ok _ => commit_lock m saved change
    end
  end.

Definition clear_app_lock m (current : string) (t : Moment) (saved : result unit VaultError) :=
  guarded m current t saved (fun _ => None).

Definition set_biometric_unlock m (enabled : bool) (current : string) (t : Moment)
  (saved : result unit VaultError) :=
  guarded m current t saved
    (fun l => (fun l => {| al_kind := al_kind l; biometric := enabled; secret := secret l |}) <$> l).

Definition verify_app_lock m (guess : string) (t : Moment) : Manager W * CoreResult LockVerdict :=
  match existing_lock m with
  | Err e => (m, Err e)
  | Ok existing =>
    let '(g, verdict) := check_secret (guard m) existing guess t in (with_guard m g, Ok verdict)
  end.

(** ** The secret guards the lock *)

(** A secret the lock in place would open for now: right, and not made
    to wait. *)
Definition opens m (guess : string) (t : Moment) : Prop :=
  exists l, lock_of m = Some l /\ matches l guess = true
    /\ retry_after (attempts (guard m)) (checked_at t) = 0.

Lemma retry_after_nonneg a now : 0 <= retry_after a now.
Proof. unfold retry_after. repeat case_match; lia. Qed.

Lemma check_secret_unlocked g l guess t :
  unlocked (check_secret g l guess t).2 = true <->
  matches l guess = true /\ retry_after (attempts g) (checked_at t) = 0.
Proof.
  unfold check_secret. pose proof (retry_after_nonneg (attempts g) (checked_at t)).
  destruct (Z.gtb_spec (retry_after (attempts g) (checked_at t)) 0).
  - split; [done|]. intros [_ ?]. lia.
  - destruct (matches l guess); simpl; (split; [|intros [? _]]; [try done|done]); split; [done|lia].
Qed.

Lemma require_current_Ok g l current t :
  (require_current g l current t).2 = Ok tt <->
  exists c, current = Some c /\ matches l c = true /\ retry_after (attempts g) (checked_at t) = 0.
Proof.
  unfold require_current. destruct current as [c|]; [|split; [done|by intros (? & ? & _)]].
  pose proof (check_secret_unlocked g l c t) as H. destruct (check_secret g l c t) as [g' v]. simpl in *.
  split.
  - intros Hv. exists c. split; [done|]. apply H. by destruct (unlocked v).
  - intros (? & [= <-] & Hc). apply H in Hc. by rewrite Hc.
Qed.

Lemma commit_lock_payload m saved change :
  payload (commit_lock m saved change).1
  = (if is_ok saved then with_lock (payload m) (change (lock_of m)) else payload m)
  /\ is_ok (commit_lock m saved change).2 = is_ok saved
  /\ guard (commit_lock m saved change).1 = guard m.
Proof. unfold commit_lock, commit. simpl. by destruct saved. Qed.

(** What an attempt leaves on record: nothing while a wait runs; no
    failure and no wait after the right secret, the file removed; after a
    wrong one, one failure more, the wait it earns from the verdict on, and
    both in the file. *)
Definition judged m (guess : string) (t : Moment) : Guard :=
  let failures := sat_add_u32 (failures (attempts (guard m))) 1 in
  let counted := {| Lock.failures := failures;
                    blocked_until := if delay_after failures >? 0 then Some (failed_at t + delay_after failures) else None |} in
  if retry_after (attempts (guard m)) (checked_at t) >? 0 then guard m
  else if match lock_of m with Some l => matches l guess | None => false end
  then {| attempts := {| Lock.failures := 0; blocked_until := None |}; file := if removed t then None else file (guard m) |}
  else {| attempts := counted; file := mirror counted (file (guard m)) (written t) (mirror_unix t) (mirror_now t) |}.

Lemma check_secret_judged m l guess t : lock_of m = Some l -> (check_secret (guard m) l guess t).1 = judged m guess t.
Proof. intros Hl. unfold check_secret, judged. rewrite Hl. destruct (_ >? 0); [done|]. by destruct (matches l guess). Qed.

(** What a call guarded by the secret promises: it goes through exactly
    when the secret opens the lock and the vault could be saved, it then
    does [change] and nothing else to the vault, a call that fails
    leaves the vault as it was, and either way a secret given is an attempt
    on record, when the call comes to look at it. *)
Definition guarded_by_secret m (current : option string) (t : Moment) (looked : bool) (extra : Prop)
  (change : option AppLock -> option AppLock) (outcome : Manager W * CoreResult unit) : Prop :=
  (is_ok outcome.2 = true <-> extra /\ exists c, current = Some c /\ opens m c t)
  /\ (is_ok outcome.2 = true -> payload outcome.1 = with_lock (payload m) (change (lock_of m)))
  /\ (is_ok outcome.2 = false -> payload outcome.1 = payload m)
  /\ guard outcome.1 = match current with Some c => if looked then judged m c t else guard m | None => guard m end.

Lemma guarded_spec m l current t saved change :
  lock_of m = Some l ->
  guarded_by_secret m (Some current) t true (is_ok saved = true) change (guarded m current t saved change).
Proof.
  intros Hl. unfold guarded_by_secret, guarded, existing_lock, verify_app_lock, opens. rewrite Hl.
  pose proof (require_current_Ok (guard m) l (Some current) t) as Hr.
  unfold require_current in *. pose proof (check_secret_judged m l current t Hl) as Hj. destruct (check_secret (guard m) l current t) as [g v] eqn:Ec. simpl in *.
  pose proof (commit_lock_payload (with_guard m g) saved change) as (Hp & Ho & Hg).
  change (lock_of (with_guard m g)) with (lock_of m) in Hp. cbn [payload with_guard] in Hp.
  destruct (unlocked v); cbn [fst snd].
  - rewrite Ho, Hp, Hg, Hl. destruct (proj1 Hr eq_refl) as (c & [= <-] & Hc).
    split_and!; [split; [intros H; eauto 8|by intros [? _]]|by intros ->|by intros ->|done].
  - split_and!; [split; [done|]|done|done|done].
    intros (_ & c & [= <-] & l' & [= <-] & Hc).
    pose proof (proj2 Hr (ex_intro _ current (conj eq_refl Hc))) as H. discriminate H.
Qed.

Lemma set_app_lock_spec m l kind new current salt t saved :
  lock_of m = Some l ->
  guarded_by_secret m current t (is_ok (validate_secret kind new))
    (is_ok (validate_secret kind new) = true /\ is_ok (hash_secret argon2id salt new) = true /\ is_ok saved = true)
    (fun previous => match hash_secret argon2id salt new with Ok st => new_lock kind st previous | Err _ => None end)
    (set_app_lock m kind new current salt t saved).
Proof.
  intros Hl. unfold guarded_by_secret, set_app_lock, set_app_lock_from, verify_app_lock, existing_lock, opens.
  rewrite Hl. destruct (validate_secret kind new) as [[]|e]; cbn [fst snd is_ok].
  2:{ split_and!; [split; [done|by intros [[? _] _]]|done|done|by destruct current]. }
  pose proof (require_current_Ok (guard m) l current t) as Hr. unfold require_current in *.
  destruct current as [c|]; cbn [fst snd].
  2:{ split_and!; [split; [done|by intros (_ & ? & ? & _)]|done|done|done]. }
  pose proof (check_secret_judged m l c t Hl) as Hj. destruct (check_secret (guard m) l c t) as [g v] eqn:Ec. simpl in Hr, Hj.
  destruct (unlocked v); cbn [fst snd is_ok].
  2:{ split_and!; [split; [done|]|done|done|done].
      intros (_ & c' & [= <-] & l' & [= <-] & Hc).
      pose proof (proj2 Hr (ex_intro _ c (conj eq_refl Hc))) as H. discriminate H. }
  destruct (proj1 Hr eq_refl) as (c' & [= <-] & Hc).
  destruct (hash_secret argon2id salt new) as [st|e]; cbn [fst snd is_ok].
  2:{ split_and!; [split; [done|by intros [(_ & ? & _) _]]|done|done|done]. }
  pose proof (commit_lock_payload (with_guard m g) saved (new_lock kind st)) as (Hp & Ho & Hg).
  change (lock_of (with_guard m g)) with (lock_of m) in Hp. cbn [payload with_guard] in Hp.
  rewrite Ho, Hp, Hg, Hl.
  split_and!; [split; [intros H; eauto 8|by intros [(_ & _ & ?) _]]|by intros ->|by intros ->|done].
Qed.

(** C3: with a lock in place, its secret is what changes it. Setting a
    new secret, removing the lock and turning the biometric prompt on or
    off go through exactly when the current secret was given, is right,
    is not being made to wait, and the vault could be saved (and, for a
    new secret, when it is acceptable and could be hashed); the vault
    then differs in the lock alone, a new secret keeping the biometric
    setting; a call that fails changes nothing of the vault; and a secret
    given is an attempt on record like one to unlock: nothing while a wait
    runs, a clean record after the right one, one failure more after a
    wrong one and the wait it earns, in memory and in the file. A call
    without it, or for a new secret that is not acceptable, leaves the
    record alone. Trying a secret answers whether it opens, never changes
    the vault, and the apps never see a hash. *)
Theorem lock_guarded m l :
  lock_of m = Some l ->
  (forall kind new current salt t saved,
    guarded_by_secret m current t (is_ok (validate_secret kind new))
      (is_ok (validate_secret kind new) = true /\ is_ok (hash_secret argon2id salt new) = true /\ is_ok saved = true)
      (fun previous => match hash_secret argon2id salt new with Ok st => new_lock kind st previous | Err _ => None end)
      (set_app_lock m kind new current salt t saved))
  /\ (forall current t saved,
    guarded_by_secret m (Some current) t true (is_ok saved = true) (fun _ => None) (clear_app_lock m current t saved))
  /\ (forall enabled current t saved,
    guarded_by_secret m (Some current) t true (is_ok saved = true)
      (fmap (fun l => {| al_kind := al_kind l; biometric := enabled; secret := secret l |}))
      (set_biometric_unlock m enabled current t saved))
  /\ (forall guess t, payload (verify_app_lock m guess t).1 = payload m /\ guard (verify_app_lock m guess t).1 = judged m guess t
      /\ exists verdict, (verify_app_lock m guess t).2 = Ok verdict /\ (unlocked verdict = true <-> opens m guess t))
  /\ (forall shown, app_lock m = Some shown -> secret shown = None /\ al_kind shown = al_kind l
      /\ biometric shown = biometric l).
Proof.
  intros Hl. split_and!.
  - intros. by eapply set_app_lock_spec.
  - intros. by eapply guarded_spec.
  - intros. by eapply guarded_spec.
  - intros guess t. unfold verify_app_lock, existing_lock. rewrite Hl. pose proof (check_secret_judged m l guess t Hl) as Hj. pose proof (check_secret_unlocked (guard m) l guess t) as Hu.
    destruct (check_secret _ _ _ _) as [g v]. split; [done|]. split; [done|]. exists v. split; [done|]. etrans; [exact Hu|]. unfold opens. rewrite Hl. split; [by exists l|]. by intros (? & [= <-] & ?).
  - intros shown. unfold app_lock. rewrite Hl. by intros [= <-].
Qed.

(** Two calls that set a first lock at the same time. The one that
    read that there is none asks for no secret at its end, whatever the
    other set in between: that lock is replaced without its secret, and
    both calls report success. *)
Theorem late_set_replaces m0 m1 first first_secret first_salt first_t kind new salt t st :
  lock_of m0 = None ->
  set_app_lock m0 first first_secret None first_salt first_t (Ok tt) = (m1, Ok tt) ->
  hash_secret argon2id salt new = Ok st ->
  let '(m2, answer) := set_app_lock_from m1 (lock_of m0) kind new None salt t (Ok tt) in
  lock_of m1 <> None /\ answer = Ok tt
  /\ lock_of m2 = Some {| al_kind := kind; biometric := false; secret := Some st |}.
Proof.
  intros H0 H1 Hst.
  assert (Hl : exists st', lock_of m1 = Some {| al_kind := first; biometric := false; secret := Some st' |}).
  { unfold set_app_lock in H1. destruct (validate_secret first first_secret); [|done].
    rewrite H0 in H1. unfold set_app_lock_from in H1.
    destruct (hash_secret argon2id first_salt first_secret) as [st'|]; [|done]. exists st'.
    pose proof (commit_lock_payload (with_guard m0 (guard m0)) (Ok tt) (new_lock first st')) as (Hp & _).
    rewrite H1 in Hp. cbn [fst] in Hp. unfold lock_of. rewrite Hp. simpl. unfold new_lock.
    change (lock_of (with_guard m0 (guard m0))) with (lock_of m0). by rewrite H0. }
  destruct Hl as [st' Hl]. unfold set_app_lock_from. rewrite H0, Hst. simpl. rewrite Hl.
  split; [done|]. split; [done|]. unfold lock_of in *. simpl. by rewrite Hl.
Qed.
End Calls.

(** The lock of a vault protected by the PIN 1234. *)
Definition demo_lock : AppLock :=
  {| al_kind := Pin; biometric := true;
     secret := Some {| salt := hex (List.repeat 9 16); hash := hex (toy_output "1234") |} |}.
Definition demo_manager : Manager unit :=
  {| payload := with_lock default_payload (Some demo_lock); guard := fresh_guard |}.
Definition demo_moment : Moment :=
  {| checked_at := 0; failed_at := 0; mirror_unix := 0; mirror_now := 0; written := true; removed := true |}.

Lemma lock_guarded_witness :
  lock_of demo_manager = Some demo_lock
  /\ is_ok (clear_app_lock toy_argon2id demo_manager "1234" demo_moment (Ok tt)).2 = true
  /\ payload (clear_app_lock toy_argon2id demo_manager "9999" demo_moment (Ok tt)).1 = payload demo_manager.
Proof.
  pose proof (lock_guarded toy_argon2id demo_manager demo_lock eq_refl) as H. split; [reflexivity|]. split.
  - apply (proj1 (proj2 H) "1234" demo_moment (Ok tt)). split; [reflexivity|].
    exists "1234". split; [reflexivity|]. exists demo_lock. split_and!; [reflexivity|vm_compute; reflexivity|reflexivity].
  - apply (proj1 (proj2 H) "9999" demo_moment (Ok tt)). vm_compute. reflexivity.
Defined.

Lemma late_set_replaces_witness :
  let m0 : Manager unit := {| payload := default_payload; guard := fresh_guard |} in
  let m1 := (set_app_lock toy_argon2id m0 Pin "1234" None (List.repeat 9 16) demo_moment (Ok tt)).1 in
  let '(m2, answer) := set_app_lock_from toy_argon2id m1 (lock_of m0) Pin "9999" None (List.repeat 8 16) demo_moment (Ok tt) in
  lock_of m1 <> None /\ answer = Ok tt
  /\ lock_of m2 = Some {| al_kind := Pin; biometric := false;
       secret := Some {| salt := hex (List.repeat 8 16); hash := hex (toy_output "9999") |} |}.
Proof.
  intros m0 m1. apply (late_set_replaces toy_argon2id m0 m1 Pin "1234" (List.repeat 9 16) demo_moment);
    vm_compute; reflexivity.
Defined.

(** ** Guesses are slow

    What reaches the record of the attempts: a secret tried against a
    lock, by whatever call, and the app closed and opened again. *)

Inductive Try :=
| Guess (existing : AppLock) (guess : string) (t : Moment)
| Reopen (now_unix now : Z).

Section Tries.
Context (argon2id : string -> list Z -> result (list Z) string).

(** Whether the guess is looked at, rather than told to wait. *)
Definition looked_at (g : Guard) (t : Moment) : bool :=
  negb (retry_after (attempts g) (checked_at t) >? 0).

(** The state after, and how many guesses were looked at. *)
Fixpoint try_all (g : Guard) (tries : list Try) : Guard * nat :=
  match tries with
  | [] => (g, 0%nat)
  | Guess existing guess t :: tries =>
    let '(g', n) := try_all (check_secret argon2id g existing guess t).1 tries in
    (g', if looked_at g t then S n else n)
  | Reopen now_unix now :: tries => try_all (reopen g now_unix now) tries
  end.

(** Time passes from one try to the next, and within each; what the
    wall clock reads does not matter. *)
Fixpoint in_time (start : Z) (tries : list Try) (stop : Z) : Prop :=
  match tries with
  | [] => start <= stop
  | Guess _ _ t :: tries =>
    start <= checked_at t /\ checked_at t <= failed_at t /\ failed_at t <= mirror_now t
    /\ in_time (mirror_now t) tries stop
  | Reopen _ now :: tries => start <= now /\ in_time now tries stop
  end.

(** Every guess is wrong, and the record of it could be written. *)
Definition wrong (a : Try) : Prop :=
  match a with
  | Guess existing guess t => matches argon2id existing guess = false /\ written t = true
  | Reopen _ _ => True
  end.

(** After [n] wrong guesses looked at since [start]: the count is the
    same in memory and on disk, the last one was late enough, and five
    seconds are still owed in both, or already gone by. *)
Record Slowed (start now : Z) (n : nat) (g : Guard) : Prop := {
  sl_count : failures (attempts g) = Z.min (Z.of_nat n) u32_max;
  sl_file : s_failures (unwrap_or (file g) default_stored) = failures (attempts g);
  sl_now : start <= now;
  sl_owed : (3 <= n)%nat -> exists last,
    start + from_secs FIRST_DELAY_SECS * Z.of_nat (n - 3) <= last <= now
    /\ (forall until, blocked_until (attempts g) = Some until -> last + from_secs FIRST_DELAY_SECS <= until)
    /\ (blocked_until (attempts g) = None -> last + from_secs FIRST_DELAY_SECS <= now)
    /\ (s_blocked_until_unix (unwrap_or (file g) default_stored) = None ->
        last + from_secs FIRST_DELAY_SECS <= now);
}.

Lemma looked_at_true g t : looked_at g t = true ->
  forall until, blocked_until (attempts g) = Some until -> until <= checked_at t.
Proof.
  unfold looked_at, retry_after. intros H until Hu. rewrite Hu in H.
  destruct (Z.gtb_spec until (checked_at t)); lia.
Qed.

Lemma slowed_later start now now' n g : Slowed start now n g -> now <= now' -> Slowed start now' n g.
Proof.
  intros [H1 H2 H3 H4] Hle. split; [done|done|lia|]. intros Hn. destruct (H4 Hn) as (last & Ha & Hb & Hc & Hd).
  exists last. split_and!; [lia|lia|done|..]; intros; [specialize (Hc H)|specialize (Hd H)]; lia.
Qed.

Lemma slowed_wrong start now n g l guess t :
  Slowed start now n g -> matches argon2id l guess = false -> written t = true ->
  now <= checked_at t -> checked_at t <= failed_at t -> failed_at t <= mirror_now t ->
  Slowed start (mirror_now t) (if looked_at g t then S n else n) (check_secret argon2id g l guess t).1.
Proof.
  intros Hs Hm Hw H1 H2 H3. pose proof (looked_at_true g t) as Hlook.
  unfold check_secret, looked_at in *. destruct (_ >? 0); simpl; [apply (slowed_later _ now); [done|lia]|].
  specialize (Hlook eq_refl). rewrite Hm. destruct Hs as [S1 S2 S3 S4]. unfold fail, mirror. rewrite Hw. simpl.
  set (f := sat_add_u32 (failures (attempts g)) 1).
  assert (Hf : f = Z.min (Z.of_nat (S n)) u32_max) by (subst f; rewrite S1; unfold sat_add_u32, u32_max; lia).
  split; [done|done|lia|]. intros Hn. exists (failed_at t).
  assert (3 <= f) by (rewrite Hf; unfold u32_max; lia).
  pose proof (delay_after_bounds f ltac:(done)) as [Hd _].
  assert (Hpos : (delay_after f >? 0) = true) by (unfold from_secs, FIRST_DELAY_SECS, NANOS in Hd; lia).
  assert (Hlast : start + from_secs FIRST_DELAY_SECS * Z.of_nat (S n - 3) <= failed_at t).
  { destruct (Nat.eq_dec n 2%nat) as [->|]; [change (Z.of_nat (3 - 3)) with 0; lia|].
    destruct (S4 ltac:(lia)) as (last & Ha & Hb & Hc & _).
    replace (Z.of_nat (S n - 3)) with (Z.of_nat (n - 3) + 1) by lia.
    destruct (blocked_until (attempts g)) as [until|]; [specialize (Hb _ eq_refl); specialize (Hlook _ eq_refl); lia|].
    specialize (Hc eq_refl). lia. }
  cbn [attempts file blocked_until unwrap_or stored s_blocked_until_unix]. rewrite Hpos. split_and!; [done|done|..].
  - intros u [= <-]. lia.
  - done.
  - destruct (Z.gtb_spec (failed_at t + delay_after f) (mirror_now t)); [done|]. lia.
Qed.

Lemma slowed_reopen start now n g u now' :
  Slowed start now n g -> now <= now' -> Slowed start now' n (reopen g u now').
Proof.
  intros Hs Hle. apply (slowed_later _ _ now') in Hs; [|done]. destruct Hs as [S1 S2 S3 S4].
  unfold reopen, load, restore. split; simpl; [lia|done|done|].
  intros Hn. destruct (S4 Hn) as (last & Ha & Hb & Hc & Hd). exists last.
  destruct (s_blocked_until_unix _) as [until|]; [|split_and!; [lia|lia|done|auto|auto]].
  assert (3 <= failures (attempts g)) by (rewrite S1; unfold u32_max; lia).
  rewrite S2. destruct (Z.geb_spec (failures (attempts g)) FREE_ATTEMPTS) as [_|]; [|unfold FREE_ATTEMPTS in *; lia].
  set (r := Z.max _ _). assert (5 <= r) by (subst r; unfold FIRST_DELAY_SECS; lia).
  destruct (Z.gtb_spec r 0); [|lia]. unfold from_secs, NANOS, FIRST_DELAY_SECS in *.
  split_and!; [lia|lia|intros ? [= <-]; lia|done|done].
Qed.

Lemma try_all_slowed start now n g tries stop :
  Slowed start now n g -> in_time now tries stop -> Forall wrong tries ->
  Slowed start stop (n + (try_all g tries).2) (try_all g tries).1.
Proof.
  revert now n g. induction tries as [|[l guess t|u now'] tries IH]; intros now n g Hs Ht Hw; simpl in *.
  - rewrite Nat.add_0_r. by eapply slowed_later.
  - apply List.Forall_cons_iff in Hw as [[Hm Hwr] Hw]. destruct Ht as (T1 & T2 & T3 & T4).
    pose proof (slowed_wrong _ _ _ _ l guess t Hs Hm Hwr T1 T2 T3) as Hs'.
    specialize (IH _ _ _ Hs' T4 Hw). destruct (try_all _ tries) as [g' k]. simpl in *.
    destruct (looked_at g t); [|done]. by rewrite Nat.add_succ_r.
  - apply List.Forall_cons_iff in Hw as [_ Hw]. destruct Ht as [T1 T2].
    eapply IH; [by eapply slowed_reopen|done|done].
Qed.

(** C2: a secret cannot be tried fast. Starting with no failure on
    record, over any span of time, of all the wrong guesses made, by
    any of the calls that take a secret, with the app closed and opened
    again at will between them and the wall clock set to anything at
    each, three are looked at for free and after that one every five
    seconds at most, so long as the file beside the vault is left alone
    and could be written. *)
Theorem guesses_are_slow start tries stop :
  in_time start tries stop -> Forall wrong tries ->
  Z.of_nat (try_all fresh_guard tries).2 <= 3 + (stop - start) / from_secs FIRST_DELAY_SECS.
Proof.
  intros Ht Hw. assert (Hs : Slowed start start 0 fresh_guard) by (split; simpl; [done|done|lia|lia]).
  pose proof (try_all_slowed _ _ _ _ _ _ Hs Ht Hw) as [_ _ Hnow Howed]. simpl in *.
  set (n := (try_all fresh_guard tries).2) in *. clearbody n.
  assert (0 <= (stop - start) / from_secs FIRST_DELAY_SECS)
    by (apply Z.div_pos; unfold from_secs, FIRST_DELAY_SECS, NANOS; lia).
  destruct (Nat.le_gt_cases 3 n) as [Hn|]; [|lia]. destruct (Howed Hn) as (last & Hl & _).
  pose proof (Z.div_le_lower_bound (stop - start) (from_secs FIRST_DELAY_SECS) (Z.of_nat (n - 3))
    ltac:(done) ltac:(lia)). lia.
Qed.
End Tries.

Definition demo_tries : list Try :=
  let at_ t := {| checked_at := t; failed_at := t; mirror_unix := 50; mirror_now := t; written := true; removed := true |} in
  [Guess demo_lock "0000" (at_ 1); Guess demo_lock "0001" (at_ 2); Guess demo_lock "0002" (at_ 3);
   Guess demo_lock "0003" (at_ 4); Reopen 99999999 5; Guess demo_lock "0003" (at_ 6);
   Guess demo_lock "0003" (at_ 5000000005); Reopen 0 5000000006].

Lemma guesses_are_slow_witness :
  (try_all toy_argon2id fresh_guard demo_tries).2 = 4%nat
  /\ Z.of_nat (try_all toy_argon2id fresh_guard demo_tries).2 <= 3 + (5000000007 - 0) / from_secs FIRST_DELAY_SECS.
Proof.
  split; [vm_compute; reflexivity|].
  apply (guesses_are_slow toy_argon2id 0 demo_tries 5000000007).
  - cbn. lia.
  - repeat constructor; vm_compute; reflexivity.
Defined.
