(* ===== verification/News.v ===== *)
(** [live/news.rs]: what a sync found worth announcing, kept in the vault
    until a caller claims it. Every function works on the payload alone,
    under the lock of its caller. *)
From S2P Require Import Prelude Text Updates Store.

(** [live.rs] and [wallet/snapshot.rs]: what a claim hands over, and a line
    of a sync report. *)
Record LiveTx := {
  lt_wallet_id : string;
  lt_txid : string;
  lt_net_sats : Z;
  lt_stage : TxStage;
  lt_replaces : option string;
}.

Record NewTx := { nt_txid : string; nt_net_sats : Z; nt_confirmed : bool }.

Record Seen := {
  txid : string;
  net_sats : Z;
  confirmed : bool;
  spends : list OutPoint;
}.

Definition line (s : Seen) : NewTx :=
  {| nt_txid := txid s; nt_net_sats := net_sats s; nt_confirmed := confirmed s |}.

Definition BUMP_ALLOWANCE_SATS : Z := 10000.

Definition bumps (tx old : Seen) : bool :=
  let allowance := Z.min (Z.abs (net_sats old) / 10) BUMP_ALLOWANCE_SATS in
  (Z.sgn (net_sats tx) =? Z.sgn (net_sats old)) && (net_sats old - allowance <=? net_sats tx).

Record Moves := {
  new : list Seen;
  m_confirmed : list Seen;
  pending_before : list Seen;
  gone : list Seen;
}.

Definition lines (m : Moves) : list NewTx * list NewTx :=
  (List.map line (new m), List.map line (m_confirmed m)).

(** Each output spent with its spender, in the order they were read. *)
Definition by_spent (txs : list Seen) : list (OutPoint * Seen) :=
  List.concat (List.map (fun tx => List.map (fun o => (o, tx)) (spends tx)) txs).

Definition spenders_of (spenders : list (OutPoint * Seen)) (o : OutPoint) : list Seen :=
  List.map snd (retain (fun e => bool_decide (e.1 = o)) spenders).

Definition conflicting (spenders : list (OutPoint * Seen)) (tx : Seen) : list Seen :=
  retain (fun other => negb (bool_decide (txid other = txid tx)))
    (List.concat (List.map (spenders_of spenders) (spends tx))).

Definition ANNOUNCED_MAX : nat := 2000.
Definition UNCLAIMED_MAX : nat := 500.
Definition DROPPED_AFTER : Z := 10 * 60.
Definition VANISHING_FOR : Z := 3 * 24 * 3600.
Definition UNCLAIMED_FOR : Z := 12 * 3600.
Definition SPENDS_KEPT : nat := 100.

(** The three lists the news lives in, of any payload. *)
Section News.
Context {W : Type}.
Implicit Types p : VaultPayload W.

Definition announced_as p (wallet_id tx : string) (stage : TxStage) : bool :=
  any (fun e => covers e wallet_id && bool_decide (an_txid e = tx) && bool_decide (an_stage e = stage))
    (announced p).

(** The entry of this wallet, transaction and stage still waiting. *)
Definition is_waiting (wallet_id tx : string) (stage : TxStage) (e : Unclaimed) : bool :=
  bool_decide (un_wallet_id e = wallet_id) && bool_decide (un_txid e = tx) && bool_decide (un_stage e = stage).

Definition pending_said p (wallet_id tx : string) : bool :=
  announced_as p wallet_id tx Mempool || any (is_waiting wallet_id tx Mempool) (unclaimed p).

Definition announced_under p (wallet_id tx : string) : option string :=
  (fun e => unwrap_or (an_replaces e) tx) <$>
  List.find (fun e => covers e wallet_id && bool_decide (an_txid e = tx)
    && match an_stage e with Mempool | Confirmed => true | Dropped => false end) (announced p).

Definition first_of p (wallet_id tx : string) : option string :=
  filter_opt (fun first => negb (bool_decide (first = tx))) (announced_under p wallet_id tx).

Definition unsay_arrival p (wallet_id tx : string) : VaultPayload W * bool :=
  let before := length (unclaimed p) in
  let kept := retain (fun e => negb (is_waiting wallet_id tx Mempool e)) (unclaimed p) in
  (set_unclaimed p kept, (length kept <? before)%nat).

Definition remember p (told : list Announced) : VaultPayload W :=
  set_announced p (keep_last ANNOUNCED_MAX (announced p ++ told)).

(** The first entry that fits takes another transaction's place. *)
Fixpoint rename_first (f : Unclaimed -> bool) (by_ : Seen) (l : list Unclaimed) : list Unclaimed :=
  match l with
  | [] => []
  | e :: l =>
    if f e then
      {| un_wallet_id := un_wallet_id e; un_txid := txid by_; un_net_sats := net_sats by_;
         un_stage := un_stage e; found_at := found_at e; un_replaces := un_replaces e |} :: l
    else e :: rename_first f by_ l
  end.

Definition replace p (wallet_id : string) (replaced by_ : Seen) : VaultPayload W :=
  if any (is_waiting wallet_id (txid replaced) Mempool) (unclaimed p)
  then set_unclaimed p (rename_first (is_waiting wallet_id (txid replaced) Mempool) by_ (unclaimed p))
  else remember p [{| an_wallet_id := wallet_id; an_txid := txid by_; an_stage := Mempool;
                      an_replaces := announced_under p wallet_id (txid replaced) |}].

(** What is said already covers this stage: the same one, or a
    confirmation for an arrival. *)
Definition covers_stage (said stage : TxStage) : bool :=
  bool_decide (said = stage) || (bool_decide (stage = Mempool) && bool_decide (said = Confirmed)).

Definition told p (wallet_id tx : string) (stage : TxStage) : bool :=
  any (fun e => covers e wallet_id && bool_decide (an_txid e = tx) && covers_stage (an_stage e) stage)
    (announced p).

Definition expire p (now : Z) : VaultPayload W :=
  set_unclaimed p (retain (fun e => sat_add_u64 (found_at e) UNCLAIMED_FOR >=? now) (unclaimed p)).

(** [push]. A confirmation takes the arrival of the same transaction out
    of what waits, and what that one replaces with it. *)
Definition push p (wallet_id tx : string) (net : Z) (stage : TxStage) (replaces : option string) (now : Z)
  : VaultPayload W :=
  if told p wallet_id tx stage then p
  else if any (fun e => bool_decide (un_wallet_id e = wallet_id) && bool_decide (un_txid e = tx)
                        && covers_stage (un_stage e) stage) (unclaimed p) then p
  else
    let arrival := is_waiting wallet_id tx Mempool in
    let '(kept, replaces) :=
      if bool_decide (stage = Confirmed) then
        (retain (fun e => negb (arrival e)) (unclaimed p),
         foldl (fun r e => match r with Some _ => r | None => un_replaces e end) replaces
           (retain arrival (unclaimed p)))
      else (unclaimed p, replaces) in
    set_unclaimed p (keep_last UNCLAIMED_MAX (kept ++
      [{| un_wallet_id := wallet_id; un_txid := tx; un_net_sats := net; un_stage := stage;
          found_at := now; un_replaces := replaces |}])).

Definition seen_of (e : Vanishing) : Seen :=
  {| txid := va_txid e; net_sats := va_net_sats e; confirmed := false; spends := va_spends e |}.

Definition vanish p (wallet_id : string) (old : Seen) (told_as : string) (now : Z) : VaultPayload W :=
  if any (fun e => bool_decide (va_wallet_id e = wallet_id) && bool_decide (va_txid e = txid old)) (vanishing p)
  then p
  else set_vanishing p (keep_last UNCLAIMED_MAX (vanishing p ++
    [{| va_wallet_id := wallet_id; va_txid := txid old; told_as := told_as; va_net_sats := net_sats old;
        va_spends := take SPENDS_KEPT (spends old); missed_at := now |}])).

(** The four loops of [record]. *)
Definition record_confirmed (wallet_id : string) (now : Z) p (tx : Seen) : VaultPayload W :=
  push p wallet_id (txid tx) (net_sats tx) Confirmed (first_of p wallet_id (txid tx)) now.

Definition record_new (wallet_id : string) (before : list (OutPoint * Seen)) (now : Z) p (tx : Seen)
  : VaultPayload W :=
  if confirmed tx then
    let first := and_then (List.find (bumps tx) (conflicting before tx))
                   (fun old => announced_under p wallet_id (txid old)) in
    push p wallet_id (txid tx) (net_sats tx) Confirmed first now
  else
    match List.find (fun old => bumps tx old && pending_said p wallet_id (txid old)) (conflicting before tx) with
    | Some old => replace p wallet_id old tx
    | None => push p wallet_id (txid tx) (net_sats tx) Mempool None now
    end.

Definition record_gone (wallet_id : string) (now : Z) p (old : Seen) : VaultPayload W :=
  let '(p, unsaid) := unsay_arrival p wallet_id (txid old) in
  if unsaid then p else
  let said_pending := announced_as p wallet_id (txid old) Mempool
                      && negb (announced_as p wallet_id (txid old) Confirmed) in
  if negb said_pending || (net_sats old <=? 0) then p
  else vanish p wallet_id old (unwrap_or (announced_under p wallet_id (txid old)) (txid old)) now.

Definition push_dropped (wallet_id : string) (now : Z) p (e : Vanishing) : VaultPayload W :=
  push p wallet_id (told_as e) (va_net_sats e) Dropped None now.

(** A payment kept aside that a transaction seen now replaces, and
    whether by one that pays much less. *)
Definition replaced_now (wallet_id : string) (arrived : list (OutPoint * Seen)) (e : Vanishing) : bool :=
  bool_decide (va_wallet_id e = wallet_id)
  && match conflicting arrived (seen_of e) with [] => false | _ => true end.
Definition cut_down (wallet_id : string) (arrived : list (OutPoint * Seen)) (e : Vanishing) : bool :=
  replaced_now wallet_id arrived e && negb (any (fun tx => bumps tx (seen_of e)) (conflicting arrived (seen_of e))).

Definition record p (wallet_id : string) (first_sync : bool) (moves : Moves) (now : Z) : VaultPayload W :=
  let p := expire p now in
  if first_sync then p else
  let p := foldl (record_confirmed wallet_id now) p (m_confirmed moves) in
  let vanished := List.map seen_of
    (retain (fun e => bool_decide (va_wallet_id e = wallet_id)) (vanishing p)) in
  let before := by_spent (pending_before moves ++ vanished) in
  let p := foldl (record_new wallet_id before now) p (new moves) in
  let p := foldl (record_gone wallet_id now) p (gone moves) in
  let arrived := by_spent (new moves) in
  let cut := retain (cut_down wallet_id arrived) (vanishing p) in
  let p := set_vanishing p (retain (fun e => negb (replaced_now wallet_id arrived e)) (vanishing p)) in
  foldl (push_dropped wallet_id now) p cut.

Definition vanishing_of p (wallet_id : string) : list string :=
  List.map va_txid (retain (fun e => bool_decide (va_wallet_id e = wallet_id)) (vanishing p)).

Definition vanishing_due p (wallet_id : string) (now : Z) : list string :=
  List.map va_txid (retain (fun e => now >=? sat_add_u64 (missed_at e) DROPPED_AFTER)
    (retain (fun e => bool_decide (va_wallet_id e = wallet_id)) (vanishing p))).

Record Recheck := { held : gset string; reread : gset string }.

(** What [settle] makes of one payment kept aside. *)
Inductive Fate := Kept | Forgotten | SaidDropped.

Definition fate (wallet_id : string) (recheck : Recheck) (now : Z) (e : Vanishing) : Fate :=
  if sat_add_u64 (missed_at e) VANISHING_FOR <? now then Forgotten
  else if negb (bool_decide (va_wallet_id e = wallet_id)) then Kept
  else if bool_decide (va_txid e ∈ held recheck) then Forgotten
  else if (now >=? sat_add_u64 (missed_at e) DROPPED_AFTER) && bool_decide (va_txid e ∈ reread recheck)
  then SaidDropped else Kept.

Definition settle p (wallet_id : string) (recheck : Recheck) (now : Z) : VaultPayload W :=
  let dropped := retain (fun e => match fate wallet_id recheck now e with SaidDropped => true | _ => false end)
                   (vanishing p) in
  let p := set_vanishing p
    (retain (fun e => match fate wallet_id recheck now e with Kept => true | _ => false end) (vanishing p)) in
  foldl (push_dropped wallet_id now) p dropped.

Definition waiting p (wallet_id : string) (now : Z) : nat :=
  length (retain (fun e => sat_add_u64 (found_at e) UNCLAIMED_FOR >=? now)
    (retain (fun e => bool_decide (un_wallet_id e = wallet_id)) (unclaimed p))).

Definition live_tx (e : Unclaimed) : LiveTx :=
  {| lt_wallet_id := un_wallet_id e; lt_txid := un_txid e; lt_net_sats := un_net_sats e;
     lt_stage := un_stage e; lt_replaces := un_replaces e |}.

(** The pass of [claim] over what waits: what stays, and what is taken,
    [claimed] so far. *)
Fixpoint claim_pass (already : Unclaimed -> bool) (wallet_id : string) (max : nat)
  (claimed : list LiveTx) (l : list Unclaimed) : list Unclaimed * list LiveTx :=
  match l with
  | [] => ([], claimed)
  | e :: l =>
    if negb (bool_decide (un_wallet_id e = wallet_id)) || (max <=? length claimed)%nat then
      let '(kept, claimed) := claim_pass already wallet_id max claimed l in (e :: kept, claimed)
    else claim_pass already wallet_id max (if already e then claimed else claimed ++ [live_tx e]) l
  end.

Definition announced_of (tx : LiveTx) : Announced :=
  {| an_wallet_id := lt_wallet_id tx; an_txid := lt_txid tx; an_stage := lt_stage tx;
     an_replaces := lt_replaces tx |}.

Definition claim p (wallet_id : string) (max : nat) (now : Z) : VaultPayload W * list LiveTx :=
  let p := expire p now in
  let already e := told p wallet_id (un_txid e) (un_stage e) in
  let '(kept, claimed) := claim_pass already wallet_id max [] (unclaimed p) in
  let p := remember (set_unclaimed p kept) (List.map announced_of claimed) in
  (p, claimed).
End News.

(** ** What the lists hold *)

(** One place a wallet and a transaction have among what waits: an arrival
    and a confirmation share it, a payment that dropped has its own. *)
Abbreviation Slot := (string * string * bool)%type.

Definition is_dropped (stage : TxStage) : bool := bool_decide (stage = Dropped).
Definition slot (e : Unclaimed) : Slot := (un_wallet_id e, un_txid e, is_dropped (un_stage e)).
Definition lt_slot (t : LiveTx) : Slot := (lt_wallet_id t, lt_txid t, is_dropped (lt_stage t)).
Definition va_key (e : Vanishing) : string * string := (va_wallet_id e, va_txid e).

Lemma keep_last_app_keep {A} m (a b : list A) : keep_last m (keep_last m a ++ b) = keep_last m (a ++ b).
Proof.
  unfold keep_last. rewrite !length_app, length_drop.
  destruct (Nat.le_gt_cases (length a) m) as [H|H].
  - replace (length a - m)%nat with 0%nat by lia. simpl. by rewrite Nat.sub_0_r.
  - replace (length a - (length a - m) + length b - m)%nat with (length b) by lia.
    replace (length a + length b - m)%nat with (length a - m + length b)%nat by lia.
    rewrite <- drop_drop. f_equal. symmetry. apply drop_app_le. lia.
Qed.

Lemma keep_last_NoDup {A} m (l : list A) : NoDup l -> NoDup (keep_last m l).
Proof. intros. eapply NoDup_sublist; [apply keep_last_sublist|done]. Qed.

Lemma map_keep_last {A B} (f : A -> B) m l : List.map f (keep_last m l) = keep_last m (List.map f l).
Proof.
  unfold keep_last. rewrite List.length_map. generalize (length l - m)%nat. intros n.
  revert l. induction n as [|n IH]; intros [|x l]; simpl; auto.
Qed.

Lemma NoDup_map_retain {A B} (f : A -> B) g l : NoDup (List.map f l) -> NoDup (List.map f (retain g l)).
Proof. intros. eapply NoDup_sublist; [apply sublist_map, retain_sublist|done]. Qed.

Lemma In_map_retain {A B} (f : A -> B) g l y : In y (List.map f (retain g l)) -> In y (List.map f l).
Proof. intros (x & <- & [Hx _]%retain_In)%in_map_iff. by apply in_map. Qed.

Lemma NoDup_snoc {A} (l : list A) x : NoDup l -> ~ In x l -> NoDup (l ++ [x]).
Proof.
  intros Hl Hx. apply list.NoDup_app. split; [done|]. split; [|apply NoDup_singleton].
  intros y Hy ->%list_elem_of_singleton. by apply Hx, list_elem_of_In.
Qed.

Lemma foldl_ind {A B} (P : A -> Prop) (f : A -> B -> A) (l : list B) (a : A) :
  P a -> (forall a b, In b l -> P a -> P (f a b)) -> P (foldl f a l).
Proof.
  revert a. induction l as [|b l IH]; intros a Ha Hf; simpl; [done|]. apply IH.
  - apply Hf; [by left|done].
  - intros a' b' Hb. apply Hf. by right.
Qed.

Lemma is_waiting_spec w tx stage e : is_waiting w tx stage e = true <->
  un_wallet_id e = w /\ un_txid e = tx /\ un_stage e = stage.
Proof. unfold is_waiting. rewrite !andb_true_iff, !bool_decide_eq_true. tauto. Qed.

Lemma covers_stage_spec said stage : covers_stage said stage = true <->
  said = stage \/ (stage = Mempool /\ said = Confirmed).
Proof. unfold covers_stage. rewrite orb_true_iff, andb_true_iff, !bool_decide_eq_true. tauto. Qed.

(** The bounds of the three lists, and one place each. *)
Record wf {W} (p : VaultPayload W) : Prop := {
  wf_announced : (length (announced p) <= ANNOUNCED_MAX)%nat;
  wf_unclaimed : (length (unclaimed p) <= UNCLAIMED_MAX)%nat;
  wf_vanishing : (length (vanishing p) <= UNCLAIMED_MAX)%nat;
  wf_spends : forall e, In e (vanishing p) -> (length (va_spends e) <= SPENDS_KEPT)%nat;
  wf_keys : NoDup (List.map va_key (vanishing p));
}.

(** What an operation on the news never does: lose the record of what was
    announced, otherwise than from its old end, or touch anything of the
    payload that is not news. *)
Record extends {W} (p q : VaultPayload W) : Prop := {
  ex_announced : exists more, announced q = keep_last ANNOUNCED_MAX (announced p ++ more);
  ex_version : version q = version p;
  ex_settings : settings q = settings p;
  ex_wallets : wallets q = wallets p;
  ex_updates : updates q = updates p;
  ex_broadcasts : broadcasts q = broadcasts p;
}.

Lemma extends_refl {W} (p q : VaultPayload W) : (length (announced p) <= ANNOUNCED_MAX)%nat ->
  announced q = announced p -> version q = version p -> settings q = settings p -> wallets q = wallets p ->
  updates q = updates p -> broadcasts q = broadcasts p -> extends p q.
Proof. intros Hl Ha. split; try done. exists []. rewrite app_nil_r, keep_last_small; done. Qed.

Lemma extends_trans {W} (p q r : VaultPayload W) : extends p q -> extends q r -> extends p r.
Proof.
  intros [(a & Ha) ? ? ? ? ?] [(b & Hb) ? ? ? ? ?]. split; try congruence.
  exists (a ++ b). by rewrite Hb, Ha, keep_last_app_keep, app_assoc.
Qed.

(** Both at once: what each step of this file keeps. *)
Definition keeps {W} (p q : VaultPayload W) : Prop := wf p -> wf q /\ extends p q.

Lemma keeps_trans {W} (p q r : VaultPayload W) : keeps p q -> keeps q r -> keeps p r.
Proof.
  intros H1 H2 Hp. destruct (H1 Hp) as [Hq E1]. destruct (H2 Hq) as [Hr E2].
  split; [done|]. by eapply extends_trans.
Qed.

Lemma keeps_fold {W B} (f : VaultPayload W -> B -> VaultPayload W) l p :
  (forall q b, In b l -> keeps q (f q b)) -> keeps p (foldl f p l).
Proof.
  intros Hf. apply (foldl_ind (keeps p)).
  - intros Hp. split; [done|]. apply extends_refl; try done. apply Hp.
  - intros q b Hb Hq. eapply keeps_trans; eauto.
Qed.

Lemma keeps_folded {W B} (f : VaultPayload W -> B -> VaultPayload W) l p q :
  keeps p q -> (forall q b, keeps q (f q b)) -> keeps p (foldl f q l).
Proof. intros Hq Hf. eapply keeps_trans; [exact Hq|]. apply keeps_fold. intros. apply Hf. Qed.

Lemma keeps_unclaimed {W} (p : VaultPayload W) l :
  (length l <= UNCLAIMED_MAX)%nat -> keeps p (set_unclaimed p l).
Proof. intros Hl Hp. split; [by destruct Hp; split|]. apply extends_refl; try done. apply Hp. Qed.

Lemma keeps_retain_unclaimed {W} (p : VaultPayload W) f : keeps p (set_unclaimed p (retain f (unclaimed p))).
Proof.
  intros Hp. apply keeps_unclaimed; [|done]. pose proof (retain_length f (unclaimed p)). destruct Hp. lia.
Qed.

Lemma keeps_refl {W} (p : VaultPayload W) : keeps p p.
Proof. intros Hp. split; [done|]. apply extends_refl; try done. apply Hp. Qed.

Lemma keeps_remember {W} (p : VaultPayload W) l : keeps p (remember p l).
Proof.
  intros Hp. split.
  - destruct Hp. split; simpl; try done. apply keep_last_length.
  - split; try done. by exists l.
Qed.

Lemma keeps_push {W} (p : VaultPayload W) w tx net stage r now : keeps p (push p w tx net stage r now).
Proof.
  unfold push. destruct (told _ _ _ _); [apply keeps_refl|]. destruct (any _ _); [apply keeps_refl|].
  case_match. apply keeps_unclaimed, keep_last_length.
Qed.

Lemma rename_first_length f b l : length (rename_first f b l) = length l.
Proof. induction l as [|e l IH]; simpl; [done|]. destruct (f e); simpl; by rewrite ?IH. Qed.

Lemma keeps_replace {W} (p : VaultPayload W) w old by_ : keeps p (replace p w old by_).
Proof.
  unfold replace. destruct (any _ _); [|apply keeps_remember].
  intros Hp. apply keeps_unclaimed; [|done]. rewrite rename_first_length. apply Hp.
Qed.

Lemma keeps_vanishing {W} (p : VaultPayload W) l :
  (length l <= UNCLAIMED_MAX)%nat -> (forall e, In e l -> (length (va_spends e) <= SPENDS_KEPT)%nat) ->
  NoDup (List.map va_key l) -> keeps p (set_vanishing p l).
Proof. intros H1 H2 H3 Hp. split; [by destruct Hp; split|]. apply extends_refl; try done. apply Hp. Qed.

Lemma keeps_retain_vanishing {W} (p : VaultPayload W) f : keeps p (set_vanishing p (retain f (vanishing p))).
Proof.
  intros Hp. apply keeps_vanishing; [..|done].
  - pose proof (retain_length f (vanishing p)). destruct Hp. lia.
  - intros e [He _]%retain_In. by apply Hp.
  - apply NoDup_map_retain, Hp.
Qed.

Lemma keeps_vanish {W} (p : VaultPayload W) w old as_ now : keeps p (vanish p w old as_ now).
Proof.
  unfold vanish. destruct (any _ _) eqn:E; [apply keeps_refl|]. rewrite any_false in E.
  intros Hp. apply keeps_vanishing; [apply keep_last_length|..|done].
  - intros e He%keep_last_In. apply in_app_or in He as [He|[<-|[]]]; [by apply Hp|].
    cbn [va_spends]. rewrite length_take. lia.
  - rewrite map_keep_last, List.map_app. apply keep_last_NoDup, NoDup_snoc; [apply Hp|].
    intros (e & He & Hin)%in_map_iff. specialize (E e Hin). cbn in He. injection He as H1 H2.
    rewrite H1, H2, !bool_decide_eq_true_2 in E by done. done.
Qed.

Lemma keeps_expire {W} (p : VaultPayload W) now : keeps p (expire p now).
Proof. apply keeps_retain_unclaimed. Qed.

Lemma keeps_record_new {W} (p : VaultPayload W) w before now tx : keeps p (record_new w before now p tx).
Proof. unfold record_new. repeat case_match; auto using keeps_push, keeps_replace. Qed.

Lemma keeps_record_gone {W} (p : VaultPayload W) w now old : keeps p (record_gone w now p old).
Proof.
  unfold record_gone, unsay_arrival. set (kept := retain _ _).
  assert (keeps p (set_unclaimed p kept)) by apply keeps_retain_unclaimed.
  destruct (_ <? _)%nat; [done|]. case_match; [done|]. eapply keeps_trans; [done|apply keeps_vanish].
Qed.

Lemma keeps_record {W} (p : VaultPayload W) w first moves now : keeps p (record p w first moves now).
Proof.
  unfold record. destruct first; [apply keeps_expire|].
  apply keeps_folded; [|intros; apply keeps_push].
  eapply keeps_trans; [|apply keeps_retain_vanishing].
  apply keeps_folded; [|intros; apply keeps_record_gone].
  apply keeps_folded; [|intros; apply keeps_record_new].
  apply keeps_folded; [|intros; apply keeps_push]. apply keeps_expire.
Qed.

Lemma keeps_settle {W} (p : VaultPayload W) w recheck now : keeps p (settle p w recheck now).
Proof.
  unfold settle. apply keeps_folded; [|intros; apply keeps_push]. apply keeps_retain_vanishing.
Qed.

Lemma claim_pass_kept already w max c l : sublist (claim_pass already w max c l).1 l.
Proof.
  revert c. induction l as [|e l IH]; intros c; simpl; [done|].
  destruct (_ || _).
  - specialize (IH c). destruct (claim_pass already w max c l). by constructor.
  - constructor. apply IH.
Qed.

Lemma keeps_claim {W} (p : VaultPayload W) w max now : keeps p (claim p w max now).1.
Proof.
  unfold claim. pose proof (claim_pass_kept (fun e => told (expire p now) w (un_txid e) (un_stage e)) w max []
    (unclaimed (expire p now))) as Hs.
  destruct (claim_pass _ _ _ _ _) as [kept claimed]. simpl in Hs |- *.
  eapply keeps_trans; [apply keeps_expire|]. eapply keeps_trans; [|apply keeps_remember].
  intros Hp. apply keeps_unclaimed; [|done]. apply sublist_length in Hs. destruct Hp as [_ Hu _ _ _]. simpl in Hu. lia.
Qed.

(** Every operation on the news keeps its lists in bounds: at most 2000
    announcements remembered, 500 pieces of news and 500 vanished payments
    waiting, 100 outputs kept of each, one entry for each vanished
    payment of a wallet; it forgets announcements from the oldest end
    alone, and touches nothing else of the vault. *)
Theorem news_bounded {W} (p : VaultPayload W) w first moves recheck max now :
  wf p ->
  (wf (record p w first moves now) /\ extends p (record p w first moves now))
  /\ (wf (settle p w recheck now) /\ extends p (settle p w recheck now))
  /\ (wf (claim p w max now).1 /\ extends p (claim p w max now).1).
Proof. intros Hp. split_and!; first [by apply keeps_record|by apply keeps_settle|by apply keeps_claim]. Qed.

Lemma news_bounded_witness :
  wf (W := unit) default_payload
  /\ wf (record (W := unit) default_payload "w" false {| new := []; m_confirmed := []; pending_before := []; gone := [] |} 0).
Proof.
  assert (H : wf (W := unit) default_payload) by (split; simpl; [lia..|done|constructor]).
  split; [exact H|].
  exact (proj1 (proj1 (news_bounded default_payload "w" false _ {| held := ∅; reread := ∅ |} 0 0 H))).
Defined.

(** ** One place each *)

Definition slots {W} (p : VaultPayload W) : list Slot := List.map slot (unclaimed p).

(** From [p] to [q], the places that wait stay apart, and the only one
    that may be new is [s]. *)
Definition places {W} (p q : VaultPayload W) (s : Slot) : Prop :=
  NoDup (slots q) /\ forall x, In x (slots q) -> In x (slots p) \/ x = s.

Lemma slot_dec (e : Unclaimed) w tx d : slot e = (w, tx, d) <->
  un_wallet_id e = w /\ un_txid e = tx /\ is_dropped (un_stage e) = d.
Proof. unfold slot. split; [by intros [= <- <- <-]|by intros (-> & -> & ->)]. Qed.

(** A place free of the stages that would refuse the news is free. *)
Lemma push_place_free w tx stage (l : list Unclaimed) :
  any (fun e => bool_decide (un_wallet_id e = w) && bool_decide (un_txid e = tx)
                && covers_stage (un_stage e) stage) l = false ->
  ~ In (w, tx, is_dropped stage)
      (List.map slot (if bool_decide (stage = Confirmed)
                      then retain (fun e => negb (is_waiting w tx Mempool e)) l else l)).
Proof.
  rewrite any_false. intros Hn (e & He & Hin)%in_map_iff. apply slot_dec in He as (H1 & H2 & H3).
  assert (Hin' : In e l) by (case_bool_decide; [by apply retain_In in Hin as [? _]|done]).
  specialize (Hn e Hin'). rewrite !bool_decide_eq_true_2 in Hn by done. simpl in Hn.
  apply not_true_iff_false in Hn. rewrite covers_stage_spec in Hn.
  destruct stage, (un_stage e) eqn:E; try done; try tauto.
  rewrite bool_decide_eq_true_2 in Hin by done. apply retain_In in Hin as [_ Hw].
  apply negb_true_iff, not_true_iff_false in Hw. by apply Hw, is_waiting_spec.
Qed.

Lemma push_places {W} (p : VaultPayload W) w tx net stage r now :
  NoDup (slots p) -> places p (push p w tx net stage r now) (w, tx, is_dropped stage).
Proof.
  intros Hn. unfold push, places. destruct (told _ _ _ _); [auto|].
  destruct (any _ (unclaimed p)) eqn:E; [auto|]. apply push_place_free in E.
  assert (Hsub : sublist (List.map slot (if bool_decide (stage = Confirmed)
    then retain (fun e => negb (is_waiting w tx Mempool e)) (unclaimed p) else unclaimed p)) (slots p)).
  { case_bool_decide; [apply sublist_map, retain_sublist|done]. }
  destruct (bool_decide (stage = Confirmed)); unfold slots; cbn [unclaimed set_unclaimed];
  rewrite map_keep_last, List.map_app; (split;
  [ apply keep_last_NoDup, NoDup_snoc; [by eapply NoDup_sublist|done]
  | intros x Hx%keep_last_In; apply in_app_or in Hx as [Hx|[<-|[]]]; [left; by eapply sublist_In|by right] ]).
Qed.

Lemma rename_slots w old by_ l : 
  any (is_waiting w (txid old) Mempool) l = true ->
  NoDup (List.map slot l) -> ~ In (w, txid by_, false) (List.map slot l) ->
  NoDup (List.map slot (rename_first (is_waiting w (txid old) Mempool) by_ l))
  /\ forall x, In x (List.map slot (rename_first (is_waiting w (txid old) Mempool) by_ l)) ->
      In x (List.map slot l) \/ x = (w, txid by_, false).
Proof.
  induction l as [|e l IH]; simpl; [done|]. intros Ha Hn Hf. apply list.NoDup_cons in Hn as [He Hn].
  destruct (is_waiting w (txid old) Mempool e) eqn:E.
  - apply is_waiting_spec in E as (<- & _ & Es). cbn [List.map]. unfold slot at 1 3 4 6. cbn. rewrite Es. split.
    + apply list.NoDup_cons. split; [|done]. rewrite list_elem_of_In. tauto.
    + intros x [<-|Hx]; auto.
  - cbn [List.map]. destruct IH as [IH1 IH2]; [done|done|tauto|]. split.
    + apply list.NoDup_cons. split; [|done]. rewrite list_elem_of_In. intros [Hx|Hx]%IH2.
      * by apply He, list_elem_of_In.
      * apply Hf. by left.
    + intros x [<-|Hx]; [auto|]. apply IH2 in Hx. tauto.
Qed.

Lemma replace_places {W} (p : VaultPayload W) w old by_ :
  NoDup (slots p) -> ~ In (w, txid by_, false) (slots p) ->
  places p (replace p w old by_) (w, txid by_, false).
Proof.
  intros Hn Hf. unfold replace, places. destruct (any _ _) eqn:E; [by apply rename_slots|]. auto.
Qed.

(** A sync lists as new, unconfirmed, no transaction whose arrival or
    confirmation still waits for the wallet, and no transaction twice. *)
Definition fresh {W} (p : VaultPayload W) (w : string) (moves : Moves) : Prop :=
  NoDup (List.map txid (m_confirmed moves ++ new moves))
  /\ forall tx, In tx (new moves) -> confirmed tx = false -> ~ In (w, txid tx, false) (slots p).

Lemma record_confirmed_places {W} w now l (p : VaultPayload W) :
  NoDup (slots p) ->
  NoDup (slots (foldl (record_confirmed w now) p l))
  /\ forall x, In x (slots (foldl (record_confirmed w now) p l)) ->
      In x (slots p) \/ exists tx, In tx l /\ x = (w, txid tx, false).
Proof.
  revert p. induction l as [|tx l IH]; intros p Hn; simpl; [auto|].
  destruct (push_places p w (txid tx) (net_sats tx) Confirmed (first_of p w (txid tx)) now Hn) as [Hn' Hp].
  destruct (IH _ Hn') as [H1 H2]. split; [done|]. intros x [Hx|(u & Hu & ->)]%H2.
  - apply Hp in Hx as [?|Hx]; [auto|]. right. exists tx. auto.
  - right. exists u. auto.
Qed.

Lemma record_new_places {W} w before now l (p : VaultPayload W) :
  NoDup (slots p) -> NoDup (List.map txid l) ->
  (forall tx, In tx l -> confirmed tx = false -> ~ In (w, txid tx, false) (slots p)) ->
  NoDup (slots (foldl (record_new w before now) p l)).
Proof.
  revert p. induction l as [|tx l IH]; intros p Hn Hl Hf; simpl; [done|].
  simpl in Hl. apply list.NoDup_cons in Hl as [Htx Hl].
  assert (places p (record_new w before now p tx) (w, txid tx, false)) as [Hn' Hp].
  { unfold record_new. destruct (confirmed tx) eqn:Hc; [by apply (push_places _ _ _ _ Confirmed)|].
    case_match; [|by apply (push_places _ _ _ _ Mempool)]. apply replace_places; [done|]. apply Hf; [by left|done]. }
  apply IH; [done|done|]. intros u Hu Hc [Hx|[= Hx]]%Hp.
  - by eapply Hf; [right|..].
  - apply Htx. rewrite <- Hx. apply list_elem_of_In. by apply in_map.
Qed.

Lemma push_dropped_places {W} w now l (p : VaultPayload W) :
  NoDup (slots p) -> NoDup (slots (foldl (push_dropped w now) p l)).
Proof.
  intros Hn. apply (foldl_ind (fun p => NoDup (slots p))); [done|].
  intros q e _ Hq. by apply push_places.
Qed.

Lemma record_gone_places {W} w now l (p : VaultPayload W) :
  NoDup (slots p) -> NoDup (slots (foldl (record_gone w now) p l)).
Proof.
  intros Hn. apply (foldl_ind (fun p => NoDup (slots p))); [done|]. intros q old _ Hq.
  unfold record_gone, unsay_arrival. set (kept := retain _ _).
  assert (NoDup (slots (set_unclaimed q kept))) by apply NoDup_map_retain, Hq.
  destruct (_ <? _)%nat; [done|]. case_match; [done|]. unfold vanish. by case_match.
Qed.

Lemma expire_places {W} (p : VaultPayload W) now x : In x (slots (expire p now)) -> In x (slots p).
Proof. apply In_map_retain. Qed.

Lemma record_places {W} (p : VaultPayload W) w first moves now :
  NoDup (slots p) -> fresh p w moves -> NoDup (slots (record p w first moves now)).
Proof.
  intros Hn [Hd Hf]. unfold record.
  assert (He : NoDup (slots (expire p now))) by apply NoDup_map_retain, Hn.
  destruct first; [done|]. apply push_dropped_places. 
  assert (Hv : forall (q : VaultPayload W) l, NoDup (slots q) -> NoDup (slots (set_vanishing q l))) by done.
  apply Hv, record_gone_places.
  destruct (record_confirmed_places w now (m_confirmed moves) _ He) as [H1 H2].
  rewrite List.map_app in Hd. apply list.NoDup_app in Hd as (_ & Hd & Hnew).
  apply record_new_places; [done|done|]. intros tx Htx Hc Hx.
  apply H2 in Hx as [Hx|(u & Hu & [= Hx])]; [by eapply Hf, expire_places|].
  apply (Hd (txid u)); apply list_elem_of_In; [by apply in_map|]. rewrite <- Hx. by apply in_map.
Qed.

Lemma settle_places {W} (p : VaultPayload W) w recheck now :
  NoDup (slots p) -> NoDup (slots (settle p w recheck now)).
Proof. intros Hn. unfold settle. by apply push_dropped_places. Qed.

(** ** Claims *)

Definition is_live (now : Z) (e : Unclaimed) : bool := sat_add_u64 (found_at e) UNCLAIMED_FOR >=? now.

(** What a pass takes and leaves, of the entries it goes over. *)
Lemma claim_pass_spec already w max c l :
  let '(kept, claimed) := claim_pass already w max c l in
  exists taken, claimed = c ++ List.map live_tx taken /\ sublist taken l
    /\ (forall e, In e taken -> un_wallet_id e = w /\ already e = false)
    /\ (length c <= max -> length claimed <= max)%nat
    /\ (forall e, In e l -> In e kept \/ In e taken \/ (un_wallet_id e = w /\ already e = true))
    /\ (forall e, In e kept -> un_wallet_id e <> w \/ (max <= length claimed)%nat)
    /\ (forall e, In e l -> un_wallet_id e <> w -> In e kept).
Proof.
  revert c. induction l as [|e l IH]; intros c; simpl.
  { exists []. rewrite app_nil_r. split_and!; try done; auto. }
  destruct (negb (bool_decide (un_wallet_id e = w)) || (max <=? length c)%nat) eqn:E.
  - specialize (IH c). destruct (claim_pass already w max c l) as [kept claimed].
    destruct IH as (taken & -> & H1 & H2 & H3 & H4 & H5 & H6). exists taken. split_and!; try done.
    + by constructor.
    + intros x [<-|Hx]; [left; by left|]. destruct (H4 x Hx) as [?|?]; [left; by right|by right].
    + intros x [<-|Hx]; [|by apply H5]. apply orb_true_iff in E as [E|E].
      * left. by apply negb_true_iff, bool_decide_eq_false in E.
      * right. apply Nat.leb_le in E. rewrite length_app in *. lia.
    + intros x [<-|Hx] Hw; [by left|]. right. auto.
  - apply orb_false_iff in E as [E1 E2]. apply negb_false_iff, bool_decide_eq_true in E1.
    apply Nat.leb_gt in E2. destruct (already e) eqn:Ea.
    + specialize (IH c). destruct (claim_pass already w max c l) as [kept claimed].
      destruct IH as (taken & -> & H1 & H2 & H3 & H4 & H5 & H6). exists taken. split_and!; try done.
      * by constructor.
      * intros x [<-|Hx]; [auto|]. auto.
      * intros x [<-|Hx] Hw; [done|auto].
    + specialize (IH (c ++ [live_tx e])). destruct (claim_pass already w max _ l) as [kept claimed].
      destruct IH as (taken & -> & H1 & H2 & H3 & H4 & H5 & H6). exists (e :: taken).
      rewrite <- app_assoc in *. split_and!; try done.
      * by constructor.
      * intros x [<-|Hx]; auto.
      * intros _. apply H3. rewrite length_app. simpl. lia.
      * intros x [<-|Hx]; [right; left; by left|]. destruct (H4 x Hx) as [?|[?|?]]; auto. right. left. by right.
      * intros x [<-|Hx] Hw; [done|auto].
Qed.

Lemma told_spec {W} (p : VaultPayload W) w tx stage : told p w tx stage = true <->
  exists e, In e (announced p) /\ covers e w = true /\ an_txid e = tx /\ covers_stage (an_stage e) stage = true.
Proof.
  unfold told. rewrite any_true. split.
  - intros (e & He & H). rewrite !andb_true_iff, bool_decide_eq_true in H. exists e. tauto.
  - intros (e & He & H1 & H2 & H3). exists e. rewrite !andb_true_iff, bool_decide_eq_true. tauto.
Qed.

Lemma keep_last_keeps {A} m (a b : list A) x : (length b <= m)%nat -> In x b -> In x (keep_last m (a ++ b)).
Proof.
  intros Hl Hx. unfold keep_last. rewrite length_app.
  replace (length a + length b - m)%nat with (length a - (m - length b))%nat by lia.
  rewrite drop_app_le by lia. apply in_or_app. by right.
Qed.

Lemma covers_own w tx stage r : covers {| an_wallet_id := w; an_txid := tx; an_stage := stage; an_replaces := r |} w = true.
Proof. unfold covers. cbn. rewrite (bool_decide_eq_true_2 (w = w)) by done. apply orb_true_r. Qed.

Lemma live_tx_slot e : lt_slot (live_tx e) = slot e.
Proof. done. Qed.

Lemma claim_spec {W} (p : VaultPayload W) w max now :
  wf p -> NoDup (slots p) ->
  let '(q, claimed) := claim p w max now in
  (length claimed <= max)%nat
  /\ NoDup (List.map lt_slot claimed)
  /\ sublist claimed (List.map live_tx (retain (is_live now) (unclaimed p)))
  /\ (forall t, In t claimed -> lt_wallet_id t = w /\ told p w (lt_txid t) (lt_stage t) = false
      /\ told q w (lt_txid t) (lt_stage t) = true)
  /\ (forall e, In e (unclaimed p) -> is_live now e = true ->
      In e (unclaimed q)
      \/ (un_wallet_id e = w /\ (In (live_tx e) claimed \/ told p w (un_txid e) (un_stage e) = true)))
  /\ (forall e, In e (unclaimed q) -> In e (unclaimed p) /\ is_live now e = true
      /\ (un_wallet_id e = w -> length claimed = max))
  /\ NoDup (slots q).
Proof.
  intros Hp Hn. unfold claim.
  pose proof (claim_pass_spec (fun e => told (expire p now) w (un_txid e) (un_stage e)) w max []
    (unclaimed (expire p now))) as H.
  pose proof (claim_pass_kept (fun e => told (expire p now) w (un_txid e) (un_stage e)) w max []
    (unclaimed (expire p now))) as Hk.
  destruct (claim_pass _ _ _ _ _) as [kept claimed]. destruct H as (taken & -> & H1 & H2 & H3 & H4 & H5 & _).
  change (told (expire p now)) with (told p) in *. cbn [fst] in Hk.
  change (unclaimed (expire p now)) with (retain (is_live now) (unclaimed p)) in *. simpl ([] ++ _) in *.
  assert (Hlen : (length taken <= UNCLAIMED_MAX)%nat).
  { apply sublist_length in H1. pose proof (retain_length (is_live now) (unclaimed p)). destruct Hp. lia. }
  cbv beta iota zeta. split_and!.
  - apply H3. simpl. lia.
  - rewrite List.map_map. erewrite List.map_ext; [|apply live_tx_slot].
    eapply NoDup_sublist; [apply sublist_map; exact H1|]. by apply NoDup_map_retain.
  - by apply sublist_map.
  - intros t (e & <- & He)%in_map_iff. destruct (H2 e He) as [Hw Ht]. split; [done|]. split; [done|].
    apply told_spec. exists (announced_of (live_tx e)). split_and!.
    + cbn. apply keep_last_keeps; [rewrite !List.length_map; unfold ANNOUNCED_MAX, UNCLAIMED_MAX in *; lia|].
      apply in_map, in_map, He.
    + unfold announced_of. cbn. rewrite Hw. apply covers_own.
    + done.
    + apply covers_stage_spec. by left.
  - intros e He Hl. cbn. destruct (H4 e) as [?|[?|[? ?]]]; [by apply retain_In|by left|right..].
    + split; [by apply H2|]. left. by apply in_map.
    + split; [done|]. by right.
  - intros e He. cbn in He. pose proof (sublist_In _ _ _ Hk He) as Hin. apply retain_In in Hin as [? ?].
    split_and!; [done|done|]. intros Hw. destruct (H5 e He) as [?|?]; [done|].
    assert (length (List.map live_tx taken) <= max)%nat by (apply H3; simpl; lia). lia.
  - eapply NoDup_sublist; [apply sublist_map; exact Hk|]. by apply NoDup_map_retain.
Qed.

(** A claim. It hands over at most [max] pieces of news, all of this
    wallet, still news at [now], none told before (a confirmation told
    covers the arrival), no two of one place, in the order they came; each
    is on record as told afterwards. Nothing is lost: a piece of news of
    the wallet still news at [now] is handed over, or was told already, or
    still waits, and waits only when the claim is full; what waits for
    other wallets still waits. *)
Theorem claim_hands_over {W} (p : VaultPayload W) w max now :
  wf p -> NoDup (slots p) ->
  let '(q, claimed) := claim p w max now in
  (length claimed <= max)%nat
  /\ NoDup (List.map lt_slot claimed)
  /\ sublist claimed (List.map live_tx (retain (is_live now) (unclaimed p)))
  /\ (forall t, In t claimed -> lt_wallet_id t = w /\ told p w (lt_txid t) (lt_stage t) = false
      /\ told q w (lt_txid t) (lt_stage t) = true)
  /\ (forall e, In e (unclaimed p) -> is_live now e = true ->
      In e (unclaimed q)
      \/ (un_wallet_id e = w /\ (In (live_tx e) claimed \/ told p w (un_txid e) (un_stage e) = true)))
  /\ (forall e, In e (unclaimed q) -> In e (unclaimed p) /\ is_live now e = true
      /\ (un_wallet_id e = w -> length claimed = max))
  /\ NoDup (slots q).
Proof. apply claim_spec. Qed.

Definition demo_news : VaultPayload unit :=
  push (push default_payload "w" "a" 700 Mempool None 10) "v" "a" (-700) Mempool None 10.

Lemma demo_news_wf : wf demo_news /\ NoDup (slots demo_news).
Proof.
  split.
  - apply keeps_push, keeps_push. split; simpl; [lia..|done|constructor].
  - apply push_places, push_places. constructor.
Qed.

Lemma claim_hands_over_witness :
  List.map lt_txid (claim demo_news "w" 5 20).2 = ["a"]
  /\ (length (claim demo_news "w" 5 20).2 <= 5)%nat.
Proof.
  split; [vm_compute; reflexivity|].
  pose proof (claim_hands_over demo_news "w" 5 20 (proj1 demo_news_wf) (proj2 demo_news_wf)) as H.
  destruct (claim demo_news "w" 5 20) as [q claimed]. exact (proj1 H).
Defined.

(** ** Said once *)

(** A run of syncs and claims, over any wallets, in any order and at any
    times, and all that was handed over in it. *)
Inductive Run {W} (p0 : VaultPayload W) : list LiveTx -> VaultPayload W -> Prop :=
| Run_start : Run p0 [] p0
| Run_sync said p w first moves recheck now :
    Run p0 said p -> fresh p w moves ->
    Run p0 said (settle (record p w first moves now) w recheck now)
| Run_claim said p w max now q claimed :
    Run p0 said p -> claim p w max now = (q, claimed) -> Run p0 (said ++ claimed) q.

(** Of two announcements in order: of one place, only the arrival then
    the confirmation. *)
Definition in_order (a b : LiveTx) : Prop :=
  lt_slot a = lt_slot b -> lt_stage a = Mempool /\ lt_stage b = Confirmed.

Lemma extends_length {W} (p q : VaultPayload W) : wf p -> extends p q ->
  (length (announced p) <= length (announced q))%nat.
Proof.
  intros Hp [(more & ->) _ _ _ _ _]. unfold keep_last. rewrite length_drop, length_app. destruct Hp. lia.
Qed.

Lemma extends_told {W} (p q : VaultPayload W) w tx stage : extends p q ->
  (length (announced q) < ANNOUNCED_MAX)%nat -> told p w tx stage = true -> told q w tx stage = true.
Proof.
  intros [(more & Ha) _ _ _ _ _] Hl Ht. apply told_spec in Ht as (e & He & H). apply told_spec. exists e.
  split; [|done]. rewrite Ha in *. unfold keep_last in *. rewrite length_drop in Hl.
  replace (length (announced p ++ more) - ANNOUNCED_MAX)%nat with 0%nat by lia. simpl.
  apply in_or_app. by left.
Qed.

Lemma ForallOrdPairs_app {A} (R : A -> A -> Prop) l1 l2 :
  ForallOrdPairs R l1 -> ForallOrdPairs R l2 -> (forall x y, In x l1 -> In y l2 -> R x y) ->
  ForallOrdPairs R (l1 ++ l2).
Proof.
  induction 1 as [|x l1 Hx H1 IH]; simpl; intros H2 H; [done|]. constructor.
  - apply List.Forall_forall. intros y [Hy|Hy]%in_app_or; [|by apply H; [left|]].
    rewrite List.Forall_forall in Hx. auto.
  - apply IH; [done|]. intros; apply H; [by right|done].
Qed.

Lemma NoDup_in_order (l : list LiveTx) : NoDup (List.map lt_slot l) -> ForallOrdPairs in_order l.
Proof.
  induction l as [|x l IH]; simpl; [constructor|]. intros [Hx Hl]%list.NoDup_cons. constructor; [|auto].
  apply List.Forall_forall. intros y Hy E. exfalso. apply Hx. rewrite E. by apply list_elem_of_In, in_map.
Qed.

(** What holds all along a run, as long as the record has room. *)
Record Said {W} (said : list LiveTx) (p : VaultPayload W) : Prop := {
  sd_wf : wf p;
  sd_slots : NoDup (slots p);
  sd_told : (length (announced p) < ANNOUNCED_MAX)%nat ->
    ForallOrdPairs in_order said
    /\ forall t, In t said -> told p (lt_wallet_id t) (lt_txid t) (lt_stage t) = true;
}.

Lemma run_said {W} (p0 p : VaultPayload W) said :
  wf p0 -> NoDup (slots p0) -> Run p0 said p -> Said said p.
Proof.
  intros Hw0 Hs0. induction 1 as [|said p w first moves recheck now Hr [H1 H2 H3] Hf
    |said p w max now q claimed Hr [H1 H2 H3] Hc].
  - split; [done|done|]. intros _. split; [constructor|done].
  - assert (keeps p (settle (record p w first moves now) w recheck now)) as Hk
      by (eapply keeps_trans; [apply keeps_record|apply keeps_settle]).
    destruct (Hk H1) as [Hw He]. split; [done|by apply settle_places, record_places|].
    intros Hl. pose proof (extends_length _ _ H1 He). destruct (H3 ltac:(lia)) as [Ho Ht].
    split; [done|]. intros t Hin. by eapply extends_told, Ht.
  - pose proof (claim_spec p w max now H1 H2) as Hs. pose proof (keeps_claim p w max now H1) as [Hw He].
    rewrite Hc in Hs, Hw, He. cbn [fst] in Hw, He.
    destruct Hs as (_ & Hn & _ & Hcl & _ & _ & Hs). split; [done|done|].
    intros Hl. pose proof (extends_length _ _ H1 He). destruct (H3 ltac:(lia)) as [Ho Ht]. split.
    + apply ForallOrdPairs_app; [done|by apply NoDup_in_order|].
      intros a b Ha Hb E. specialize (Ht a Ha). destruct (Hcl b Hb) as (Hbw & Hbt & _).
      unfold lt_slot in E. injection E as E1 E2 E3. rewrite E1, E2, Hbw in Ht.
      apply told_spec in Ht as (e & He1 & He2 & He3 & He4).
      assert (covers_stage (an_stage e) (lt_stage b) = false) as Hcov.
      { apply not_true_iff_false. intros Hcov. apply not_true_iff_false in Hbt. apply Hbt, told_spec. eauto 6. }
      destruct (lt_stage a), (lt_stage b), (an_stage e); done.
    + intros t [Hin|Hin]%in_app_or; [by eapply extends_told, Ht|].
      destruct (Hcl t Hin) as (-> & _ & Hq). done.
Qed.

(** C1: nothing is announced twice. Over any run of syncs and claims of any
    wallets, whoever makes them and with restarts between, what is handed
    over holds, for a wallet and a transaction, at most one arrival, at
    most one confirmation, never the arrival after the confirmation, and
    at most one drop; so long as the record of what was announced has not
    filled up, and no sync lists as new a transaction whose news still
    waits. *)
Theorem announced_once {W} (p0 p : VaultPayload W) said :
  wf p0 -> NoDup (slots p0) -> Run p0 said p -> (length (announced p) < ANNOUNCED_MAX)%nat ->
  ForallOrdPairs in_order said.
Proof. intros Hw Hs Hr Hl. by apply (run_said _ _ _ Hw Hs Hr). Qed.

Lemma announced_once_witness :
  ForallOrdPairs in_order ([] ++ (claim demo_news "w" 5 20).2).
Proof.
  apply (announced_once demo_news (claim demo_news "w" 5 20).1); [exact (proj1 demo_news_wf)|exact (proj2 demo_news_wf)|..].
  - eapply Run_claim; [apply Run_start|]. apply surjective_pairing.
  - vm_compute. lia.
Defined.

(** ** Said dropped *)

Definition has_room {W} (p : VaultPayload W) : Prop := (length (announced p) < ANNOUNCED_MAX)%nat.

(** A payment kept aside was coming in, and was announced as pending. *)
Lemma find_app_Some {A} (f : A -> bool) l1 l2 x : List.find f l1 = Some x -> List.find f (l1 ++ l2) = Some x.
Proof. induction l1 as [|y l1 IH]; simpl; [done|]. destruct (f y); auto. Qed.

Definition was_coming {W} (p : VaultPayload W) (v : Vanishing) : Prop :=
  0 < va_net_sats v /\ announced_as p (va_wallet_id v) (va_txid v) Mempool = true
  /\ announced_under p (va_wallet_id v) (va_txid v) = Some (told_as v).

Definition sound {W} (p : VaultPayload W) : Prop :=
  wf p /\ (has_room p -> forall v, In v (vanishing p) -> was_coming p v).

Lemma was_coming_extends {W} (p q : VaultPayload W) v :
  extends p q -> has_room q -> was_coming p v -> was_coming q v.
Proof.
  intros [(more & Ha) _ _ _ _ _] Hl (Hn & Hv & Hu). split; [done|]. unfold has_room in Hl.
  assert (Eq : announced q = announced p ++ more).
  { rewrite Ha in *. unfold keep_last in *. rewrite length_drop in Hl.
    by replace (length (announced p ++ more) - ANNOUNCED_MAX)%nat with 0%nat by lia. }
  unfold announced_as, announced_under in *. rewrite Eq. split.
  - apply any_true in Hv as (e & He & Hv). apply any_true. exists e. split; [apply in_or_app; by left|done].
  - destruct (List.find _ (announced p)) as [f|] eqn:Ef; [|done]. by rewrite (find_app_Some _ _ _ _ Ef).
Qed.

(** What was announced as pending was announced under some name. *)
Lemma announced_as_under {W} (p : VaultPayload W) w tx :
  announced_as p w tx Mempool = true -> is_Some (announced_under p w tx).
Proof.
  unfold announced_as, announced_under. intros (e & He & Hx)%any_true.
  destruct (List.find _ (announced p)) as [f|] eqn:Ef; [by eexists|].
  eapply List.find_none in Ef; [|exact He]. apply andb_true_iff in Hx as [Hx Hs].
  apply bool_decide_eq_true in Hs. rewrite Hs, Hx in Ef. done.
Qed.

Lemma sound_step {W} (p q : VaultPayload W) : keeps p q ->
  (forall v, In v (vanishing q) -> In v (vanishing p) \/ was_coming q v) -> sound p -> sound q.
Proof.
  intros Hk Hv [Hw Hs]. destruct (Hk Hw) as [Hw' He]. split; [done|]. intros Hr v [Hin|?]%Hv; [|done].
  eapply was_coming_extends; [done..|]. apply Hs; [|done].
  pose proof (extends_length _ _ Hw He). unfold has_room in *. lia.
Qed.

Lemma push_vanishing {W} (p : VaultPayload W) w tx net stage r now :
  vanishing (push p w tx net stage r now) = vanishing p.
Proof. unfold push. do 2 (case_match; [done|]). by case_match. Qed.

Lemma sound_push {W} (p : VaultPayload W) w tx net stage r now : sound p -> sound (push p w tx net stage r now).
Proof. apply sound_step; [apply keeps_push|]. rewrite push_vanishing. auto. Qed.

Lemma sound_expire {W} (p : VaultPayload W) now : sound p -> sound (expire p now).
Proof. apply sound_step; [apply keeps_expire|]. auto. Qed.

Lemma sound_record_new {W} (p : VaultPayload W) w before now tx : sound p -> sound (record_new w before now p tx).
Proof.
  apply sound_step; [apply keeps_record_new|]. unfold record_new, replace.
  repeat case_match; rewrite ?push_vanishing; auto.
Qed.

Lemma sound_record_gone {W} (p : VaultPayload W) w now old : sound p -> sound (record_gone w now p old).
Proof.
  apply sound_step; [apply keeps_record_gone|]. unfold record_gone, unsay_arrival.
  destruct (_ <? _)%nat; [auto|]. set (q := set_unclaimed p _).
  destruct (negb (announced_as q w (txid old) Mempool && _) || _) eqn:E; [auto|].
  apply orb_false_iff in E as [E1 E2]. apply negb_false_iff, andb_true_iff in E1 as [E1 _].
  unfold vanish. case_match; [auto|]. intros v Hv%keep_last_In. apply in_app_or in Hv as [Hv|[<-|[]]]; [auto|].
  right. split_and!; [cbn; lia|exact E1|]. destruct (announced_as_under _ _ _ E1) as [a Ea].
  cbn [va_wallet_id va_txid told_as]. change (announced_under q w (txid old) = Some (unwrap_or (announced_under q w (txid old)) (txid old))).
  by rewrite Ea.
Qed.

Lemma sound_set_vanishing {W} (p : VaultPayload W) f : sound p -> sound (set_vanishing p (retain f (vanishing p))).
Proof. apply sound_step; [apply keeps_retain_vanishing|]. intros v [? _]%retain_In. auto. Qed.

Lemma sound_fold {W B} (f : VaultPayload W -> B -> VaultPayload W) l p :
  (forall q b, sound q -> sound (f q b)) -> sound p -> sound (foldl f p l).
Proof. intros Hf Hp. apply (foldl_ind sound); auto. Qed.

(** A payment kept aside: since an earlier sync, with the time of that
    one, or by this one, which misses it now. *)
Definition kept_aside {W} (p : VaultPayload W) (w : string) (moves : Moves) (now : Z) (v : Vanishing) : Prop :=
  In v (vanishing p)
  \/ (va_wallet_id v = w /\ missed_at v = now
      /\ exists old, In old (gone moves) /\ txid old = va_txid v /\ net_sats old = va_net_sats v
           /\ take SPENDS_KEPT (spends old) = va_spends v).

Lemma record_gone_aside {W} w now (p : VaultPayload W) old v :
  In v (vanishing (record_gone w now p old)) ->
  In v (vanishing p)
  \/ (va_wallet_id v = w /\ missed_at v = now /\ txid old = va_txid v /\ net_sats old = va_net_sats v
      /\ take SPENDS_KEPT (spends old) = va_spends v).
Proof.
  unfold record_gone, unsay_arrival. destruct (_ <? _)%nat; [auto|]. destruct (negb _ || _); [auto|].
  unfold vanish. destruct (any _ _); [auto|]. intros [Hv|[<-|[]]]%keep_last_In%in_app_or; [auto|]. by right.
Qed.

Lemma fold_aside {W B} (f : VaultPayload W -> B -> VaultPayload W) l p :
  (forall q b, vanishing (f q b) = vanishing q) -> vanishing (foldl f p l) = vanishing p.
Proof. intros Hf. revert p. induction l as [|b l IH]; intros p; simpl; [done|]. by rewrite IH. Qed.

Lemma record_new_vanishing {W} (p : VaultPayload W) w before now tx :
  vanishing (record_new w before now p tx) = vanishing p.
Proof. unfold record_new, replace. repeat case_match; rewrite ?push_vanishing; done. Qed.

Lemma fold_gone_aside {W} w now l (p : VaultPayload W) v :
  In v (vanishing (foldl (record_gone w now) p l)) ->
  In v (vanishing p)
  \/ (va_wallet_id v = w /\ missed_at v = now
      /\ exists old, In old l /\ txid old = va_txid v /\ net_sats old = va_net_sats v
           /\ take SPENDS_KEPT (spends old) = va_spends v).
Proof.
  revert p. induction l as [|old l IH]; intros p; simpl; [auto|].
  intros [[Hv|(? & ? & Hx)]%record_gone_aside|(? & ? & o & ? & ?)]%IH; [by left|right..];
    (split_and!; [done|done|]); [exists old|exists o]; split; auto.
Qed.

(** Where the drops that wait come from. *)
Definition dropped_from (w : string) (e : Unclaimed) (v : Vanishing) : Prop :=
  un_wallet_id e = w /\ un_txid e = told_as v /\ un_net_sats e = va_net_sats v.

Lemma push_drops {W} (p : VaultPayload W) w tx net stage r now e :
  In e (unclaimed (push p w tx net stage r now)) -> un_stage e = Dropped ->
  In e (unclaimed p) \/ (stage = Dropped /\ un_wallet_id e = w /\ un_txid e = tx /\ un_net_sats e = net).
Proof.
  unfold push. do 2 (case_match; [auto|]). intros He Hs.
  destruct (bool_decide (stage = Confirmed)); cbn in He; apply keep_last_In, in_app_or in He as [He|[<-|[]]]; auto.
  left. by apply retain_In in He as [? _].
Qed.

Lemma rename_first_drops f b l e : In e (rename_first f b l) -> (forall x, f x = true -> un_stage x <> Dropped) ->
  un_stage e = Dropped -> In e l.
Proof.
  intros He Hf Hs. induction l as [|x l IH]; simpl in *; [done|]. destruct (f x) eqn:E.
  - destruct He as [<-|He]; [|by right]. exfalso. by apply (Hf x E).
  - destruct He as [<-|He]; auto.
Qed.

Lemma record_new_drops {W} (p : VaultPayload W) w before now tx e :
  In e (unclaimed (record_new w before now p tx)) -> un_stage e = Dropped -> In e (unclaimed p).
Proof.
  intros He Hs. unfold record_new, replace in He.
  destruct (confirmed tx); [by apply push_drops in He as [?|[? _]]|].
  destruct (List.find _ _); [|by apply push_drops in He as [?|[? _]]].
  destruct (any _ _); [|done]. eapply rename_first_drops; [exact He|..|done].
  intros x (_ & _ & Hx)%is_waiting_spec. by rewrite Hx.
Qed.

Lemma record_gone_drops {W} (p : VaultPayload W) w now old e :
  In e (unclaimed (record_gone w now p old)) -> In e (unclaimed p).
Proof.
  unfold record_gone, unsay_arrival. destruct (_ <? _)%nat; [by intros [? _]%retain_In|].
  case_match; [by intros [? _]%retain_In|]. unfold vanish. case_match; by intros [? _]%retain_In.
Qed.

Lemma fold_drops {W B} (f : VaultPayload W -> B -> VaultPayload W) l p e :
  (forall q b, In e (unclaimed (f q b)) -> In e (unclaimed q)) ->
  In e (unclaimed (foldl f p l)) -> In e (unclaimed p).
Proof. intros Hf. revert p. induction l as [|b l IH]; intros p; simpl; [done|]. intros ?%IH. eauto. Qed.

Lemma push_dropped_drops {W} w now l (p : VaultPayload W) e :
  In e (unclaimed (foldl (push_dropped w now) p l)) -> un_stage e = Dropped ->
  In e (unclaimed p) \/ exists v, In v l /\ dropped_from w e v.
Proof.
  intros He Hs. revert p He. induction l as [|v l IH]; intros p He; simpl in *; [auto|].
  apply IH in He as [He|(u & Hu & Hd)]; [|eauto]. apply push_drops in He as [?|(_ & Hd)]; [auto| |done].
  right. exists v. split; [by left|exact Hd].
Qed.

(** The payload [record] has once it went over what is gone, and what it
    then makes of the payments kept aside. *)
Lemma record_drops {W} (p : VaultPayload W) w first moves now e :
  sound p -> un_stage e = Dropped ->
  sound (record p w first moves now)
  /\ (forall v, In v (vanishing (record p w first moves now)) -> kept_aside p w moves now v)
  /\ (In e (unclaimed (record p w first moves now)) ->
      In e (unclaimed p)
      \/ exists v, dropped_from w e v /\ kept_aside p w moves now v /\ cut_down w (by_spent (new moves)) v = true
           /\ (has_room (record p w first moves now) -> was_coming (record p w first moves now) v)).
Proof.
  intros Hp Hs. unfold record. destruct first.
  { split_and!; [by apply sound_expire|by left|]. intros [? _]%retain_In. auto. }
  set (p1 := foldl (record_confirmed w now) (expire p now) _).
  set (p2 := foldl (record_new w _ now) p1 _). set (p3 := foldl (record_gone w now) p2 _).
  assert (H1 : sound p1) by (apply sound_fold; [intros; by apply sound_push|by apply sound_expire]).
  assert (H2 : sound p2) by (apply sound_fold; [intros; by apply sound_record_new|done]).
  assert (H3 : sound p3) by (apply sound_fold; [intros; by apply sound_record_gone|done]).
  set (p4 := set_vanishing p3 _). assert (H4 : sound p4) by by apply sound_set_vanishing.
  assert (H5 : forall l, sound (foldl (push_dropped w now) p4 l)) by (intros; apply sound_fold; [intros; by apply sound_push|done]).
  assert (H6 : forall v, In v (vanishing p3) -> kept_aside p w moves now v).
  { intros v Hv%fold_gone_aside. unfold p2, p1 in Hv. rewrite !fold_aside in Hv; [exact Hv|..];
      intros; [apply push_vanishing|apply record_new_vanishing]. }
  split_and!; [apply H5| |].
  { intros v. rewrite fold_aside by (intros; apply push_vanishing). intros [Hv _]%retain_In. auto. }
  intros He. apply push_dropped_drops in He as [He|(v & Hv & Hd)]; [left| |done].
  - change (unclaimed p4) with (unclaimed p3) in He.
    apply fold_drops in He; [|intros; by eapply record_gone_drops].
    apply fold_drops in He; [|intros ? ? Hx; by eapply record_new_drops in Hx].
    apply fold_drops in He; [by apply retain_In in He as [? _]|].
    intros q b Hx. by apply push_drops in Hx as [?|[? _]].
  - right. exists v. apply retain_In in Hv as [Hv Hc]. split_and!; [done|by apply H6|done|]. intros Hr.
    assert (keeps p3 (foldl (push_dropped w now) p4 (retain (cut_down w (by_spent (new moves))) (vanishing p3)))) as Hk.
    { apply keeps_folded; [apply keeps_retain_vanishing|intros; apply keeps_push]. }
    destruct (Hk (proj1 H3)) as [_ He'].
    eapply was_coming_extends; [done|done|]. apply H3; [|done].
    pose proof (extends_length _ _ (proj1 H3) He'). unfold has_room in *. lia.
Qed.

Lemma settle_drops {W} (p : VaultPayload W) w recheck now e :
  sound p -> un_stage e = Dropped ->
  sound (settle p w recheck now)
  /\ (forall v, In v (vanishing (settle p w recheck now)) -> In v (vanishing p))
  /\ (In e (unclaimed (settle p w recheck now)) ->
      In e (unclaimed p)
      \/ exists v, dropped_from w e v /\ In v (vanishing p) /\ fate w recheck now v = SaidDropped
           /\ (has_room (settle p w recheck now) -> was_coming (settle p w recheck now) v)).
Proof.
  intros Hp Hs. unfold settle. set (p1 := set_vanishing p _).
  assert (H1 : sound p1) by by apply sound_set_vanishing.
  split_and!; [apply sound_fold; [intros; by apply sound_push|done]|..].
  { intros v. rewrite fold_aside by (intros; apply push_vanishing). by intros [? _]%retain_In. }
  intros He. apply push_dropped_drops in He as [He|(v & Hv & Hd)]; [by left| |done].
  right. exists v. apply retain_In in Hv as [Hv Hc]. split_and!; [done|done|by destruct (fate w recheck now v)|]. intros Hr.
  destruct (keeps_settle p w recheck now (proj1 Hp)) as [_ He'].
  eapply was_coming_extends; [exact He'|done|]. apply Hp; [|done].
  change (has_room (settle p w recheck now)) in Hr.
  pose proof (extends_length _ _ (proj1 Hp) He'). unfold has_room in *. lia.
Qed.

(** C40: a payment is said dropped only when it is gone. What a sync keeps
    aside was kept aside before it, with the time it was first missed, or
    is a payment this very sync misses, with the time it is now. A drop
    that waits after a sync of a wallet, and did not before, is of a
    payment so kept aside, that was coming in and had been announced as
    pending, under the name it was announced under and for what it was
    worth; and either a transaction the sync saw for the first time spends
    one of its coins and no such one pays nearly as much, or it was kept
    aside by an earlier sync, ten minutes ago or more and three days at
    most, and this one read its scripts again and does not hold it
    either. *)
Theorem dropped_only_when_gone {W} (p : VaultPayload W) w first moves recheck now e :
  sound p ->
  let q := settle (record p w first moves now) w recheck now in
  has_room q -> un_stage e = Dropped -> In e (unclaimed q) -> ~ In e (unclaimed p) ->
  sound q
  /\ (forall v, In v (vanishing q) -> kept_aside p w moves now v)
  /\ exists v, kept_aside p w moves now v /\ va_wallet_id v = w /\ dropped_from w e v /\ was_coming q v
    /\ ((conflicting (by_spent (new moves)) (seen_of v) <> []
         /\ forall tx, In tx (conflicting (by_spent (new moves)) (seen_of v)) -> bumps tx (seen_of v) = false)
        \/ ((now < u64_max -> In v (vanishing p))
            /\ va_txid v ∈ reread recheck /\ va_txid v ∉ held recheck
            /\ sat_add_u64 (missed_at v) DROPPED_AFTER <= now <= sat_add_u64 (missed_at v) VANISHING_FOR)).
Proof.
  intros Hp q Hr Hs He Hn. destruct (record_drops p w first moves now e Hp Hs) as (H1 & Ha & Hrec).
  destruct (settle_drops _ w recheck now e H1 Hs) as (H2 & Hb & Hset). fold q in H2, Hb, Hset.
  split; [done|]. split; [auto|].
  destruct (Hset He) as [Hin|(v & Hd & Hv & Hf & Hc)].
  - destruct (Hrec Hin) as [?|(v & Hd & Hk & Hcut & Hc)]; [done|]. exists v.
    destruct (keeps_settle _ w recheck now (proj1 H1)) as [_ Hx]. fold q in Hx.
    assert (Hcq : was_coming q v).
    { eapply was_coming_extends; [done|done|]. apply Hc.
      pose proof (extends_length _ _ (proj1 H1) Hx). unfold has_room in *. lia. }
    unfold cut_down, replaced_now in Hcut. rewrite !andb_true_iff, bool_decide_eq_true, negb_true_iff in Hcut.
    destruct Hcut as [[Hw Hne] Hno]. split_and!; [done..|]. left. rewrite any_false in Hno.
    split; [|done]. by intros E; rewrite E in Hne.
  - exists v. pose proof (Ha _ Hv) as Hk. pose proof (Hc Hr) as Hcq. unfold fate in Hf.
    destruct (Z.ltb_spec (sat_add_u64 (missed_at v) VANISHING_FOR) now); [done|].
    case_bool_decide as Hw; [|done]. simpl in Hf. case_bool_decide as Hh; [done|].
    destruct (Z.geb_spec now (sat_add_u64 (missed_at v) DROPPED_AFTER)); [|done].
    case_bool_decide as Hre; [|done]. split_and!; [done..|]. right. split_and!; [|done|done|lia|lia].
    intros Hl. destruct Hk as [?|(_ & Hm & _)]; [done|]. unfold sat_add_u64, DROPPED_AFTER in *. lia.
Qed.

Lemma sound_claim {W} (p : VaultPayload W) w max now : sound p -> sound (claim p w max now).1.
Proof.
  apply sound_step; [apply keeps_claim|]. unfold claim. destruct (claim_pass _ _ _ _ _). auto.
Qed.

(** A payment announced, then missed by a sync at 100. *)
Definition demo_missed : VaultPayload unit :=
  record (claim demo_news "w" 5 20).1 "w" false
    {| new := []; m_confirmed := []; pending_before := [];
       gone := [{| txid := "a"; net_sats := 700; confirmed := false; spends := [("c", 0)] |}] |} 100.

Lemma demo_missed_sound : sound demo_missed.
Proof.
  apply (record_drops _ _ _ _ _ {| un_wallet_id := ""; un_txid := ""; un_net_sats := 0; un_stage := Dropped;
    found_at := 0; un_replaces := None |}); [|done].
  apply sound_claim. apply sound_push, sound_push. split; [|done].
  split; simpl; [lia..|done|constructor].
Qed.

Definition demo_nothing : Moves := {| new := []; m_confirmed := []; pending_before := []; gone := [] |}.
Definition demo_drop : Unclaimed :=
  {| un_wallet_id := "w"; un_txid := "a"; un_net_sats := 700; un_stage := Dropped; found_at := 700; un_replaces := None |}.

Lemma dropped_only_when_gone_witness :
  exists v, kept_aside demo_missed "w" demo_nothing 700 v /\ dropped_from "w" demo_drop v
    /\ was_coming (settle (record demo_missed "w" false demo_nothing 700) "w" {| held := ∅; reread := {["a"]} |} 700) v.
Proof.
  destruct (dropped_only_when_gone demo_missed "w" false demo_nothing {| held := ∅; reread := {["a"]} |} 700 demo_drop
    demo_missed_sound) as (_ & _ & v & H0 & _ & H1 & H2 & _).
  - unfold has_room. vm_compute. lia.
  - reflexivity.
  - assert (E : unclaimed (settle (record demo_missed "w" false demo_nothing 700) "w"
       {| held := ∅; reread := {["a"]} |} 700)
       = [{| un_wallet_id := "v"; un_txid := "a"; un_net_sats := -700; un_stage := Mempool; found_at := 10;
             un_replaces := None |}; demo_drop]) by (vm_compute; reflexivity).
    rewrite E. right. left. reflexivity.
  - assert (E : List.map un_stage (unclaimed demo_missed) = [Mempool]) by (vm_compute; reflexivity).
    intros H. apply (in_map un_stage) in H. rewrite E in H. destruct H as [H|[]]. discriminate H.
  - exists v. split; [assumption|split; assumption].
Defined.

(** ** Fee bumps *)

Lemma find_app_None {A} (f : A -> bool) l1 l2 : List.find f l1 = None -> List.find f (l1 ++ l2) = List.find f l2.
Proof. induction l1 as [|x l1 IH]; simpl; [done|]. destruct (f x); [done|auto]. Qed.

Lemma announced_under_app {W} (p : VaultPayload W) w tx first :
  has_room p -> announced_under p w tx = None ->
  announced_under (remember p [{| an_wallet_id := w; an_txid := tx; an_stage := Mempool; an_replaces := first |}]) w tx
  = Some (unwrap_or first tx).
Proof.
  unfold has_room, announced_under, remember. intros Hr Hn. cbn [announced set_announced].
  rewrite keep_last_small by (rewrite length_app; simpl; lia).
  destruct (List.find _ (announced p)) eqn:E; [done|]. rewrite find_app_None by done. cbn [List.find an_txid an_stage].
  by rewrite covers_own, bool_decide_eq_true_2.
Qed.

Lemma rename_first_waits w old by_ l : any (is_waiting w (txid old) Mempool) l = true ->
  any (is_waiting w (txid by_) Mempool) (rename_first (is_waiting w (txid old) Mempool) by_ l) = true.
Proof.
  induction l as [|e l IH]; simpl; [done|]. destruct (is_waiting w (txid old) Mempool e) eqn:E; simpl.
  - intros _. apply is_waiting_spec in E as (H1 & _ & H3). apply orb_true_iff. left. by apply is_waiting_spec.
  - intros H. apply orb_true_iff. right. by apply IH.
Qed.

(** A fee bump of a payment that was announced, or is about to be, is
    not said. The sync that sees it adds nothing to what waits: where the
    payment's arrival still waits the bump takes its place, and the
    arrival says the transaction that is there; where it was announced,
    what waits is left alone and the bump goes on record under the name
    the payment was first told by. Either way the bump counts as said, so
    a bump of the bump is not said either. *)
Theorem fee_bump_not_said {W} (p : VaultPayload W) w before now tx :
  has_room p -> confirmed tx = false ->
  (exists old, In old (conflicting before tx) /\ bumps tx old = true /\ pending_said p w (txid old) = true) ->
  let q := record_new w before now p tx in
  length (unclaimed q) = length (unclaimed p)
  /\ pending_said q w (txid tx) = true
  /\ exists old, In old (conflicting before tx) /\ bumps tx old = true
    /\ ((any (is_waiting w (txid old) Mempool) (unclaimed p) = true /\ announced q = announced p)
        \/ (unclaimed q = unclaimed p /\ announced_as p w (txid old) Mempool = true
            /\ (announced_under p w (txid tx) = None ->
                announced_under q w (txid tx) = announced_under p w (txid old)))).
Proof.
  intros Hr Hc (old0 & Hin0 & Hb0 & Hp0) q. subst q. unfold record_new. rewrite Hc.
  destruct (List.find _ (conflicting before tx)) as [old|] eqn:E.
  2:{ exfalso. pose proof (List.find_none _ _ E old0 Hin0) as Hf. simpl in Hf. by rewrite Hb0, Hp0 in Hf. }
  apply List.find_some in E as [Hin Hb]. apply andb_true_iff in Hb as [Hb Hp].
  unfold replace. destruct (any (is_waiting w (txid old) Mempool) (unclaimed p)) eqn:Ew.
  - split_and!; [apply rename_first_length| |].
    + unfold pending_said. cbn [unclaimed set_unclaimed]. rewrite rename_first_waits by done. apply orb_true_r.
    + exists old. auto 6.
  - assert (Hann : announced_as p w (txid old) Mempool = true)
      by (unfold pending_said in Hp; by rewrite Ew, orb_false_r in Hp).
    split_and!; [done| |].
    + unfold pending_said, announced_as, remember. cbn [announced set_announced].
      rewrite keep_last_small by (unfold has_room in Hr; rewrite length_app; simpl; lia).
      apply orb_true_iff. left. apply any_true. eexists. split; [apply in_or_app; right; by left|].
      cbn [an_txid an_stage]. by rewrite covers_own, !bool_decide_eq_true_2.
    + exists old. split_and!; [done|done|]. right. split_and!; [done|done|]. intros Hn.
      rewrite announced_under_app by done. unfold announced_as in Hann. apply any_true in Hann as (e & He & Hx).
      unfold announced_under. destruct (List.find _ (announced p)) as [f|] eqn:Ef; [done|].
      pose proof (List.find_none _ _ Ef e He) as Hf. rewrite !andb_true_iff, !bool_decide_eq_true in Hx.
      destruct Hx as [[Hx1 Hx2] Hx3]. simpl in Hf. by rewrite Hx1, Hx3, bool_decide_eq_true_2 in Hf.
Qed.

Definition demo_seen (id : string) (net : Z) : Seen :=
  {| txid := id; net_sats := net; confirmed := false; spends := [("c", 0)] |}.

Lemma fee_bump_not_said_witness :
  unclaimed (record_new "w" (by_spent [demo_seen "a" 700]) 50 demo_news (demo_seen "b" 650))
    <> unclaimed demo_news
  /\ length (unclaimed (record_new "w" (by_spent [demo_seen "a" 700]) 50 demo_news (demo_seen "b" 650)))
    = length (unclaimed demo_news).
Proof.
  split; [vm_compute; discriminate|].
  apply (fee_bump_not_said demo_news "w" (by_spent [demo_seen "a" 700]) 50 (demo_seen "b" 650)).
  - unfold has_room. vm_compute. lia.
  - reflexivity.
  - exists (demo_seen "a" 700). split; [left; reflexivity|]. split; vm_compute; reflexivity.
Defined.
