(* ===== verification/Notice.v ===== *)
(** [live/notice.rs]: what a notification of Live says, and the budget
    that caps how many go out. A [SystemTime] is a count of nanoseconds
    that can go back. *)
From S2P Require Import Prelude Utf8 Text Format Prefs Store News.

Definition NOTICES_PER_WALLET : nat := 3.
Definition MAX_TITLE_CHARS : nat := 64.
Definition APP_TITLE : string := "Gerfaut".
Definition MORE_TRANSACTIONS : string := "More transactions are coming in. Open Gerfaut to see them.".
Definition MORE_DROPPED : string :=
  "More pending payments are no longer coming. Open Gerfaut to see them.".
Definition MAX_DROPPED_HELD : nat := 64.
Definition BUDGET : Z := 20.
Definition BUDGET_WINDOW : Z := 60 * 1000000000.

Record Context := {
  names : gmap string string;
  ctx_unit : Unit;
  ctx_masked : bool;
  details : bool;
}.

Inductive NoticeKind := Transaction | NDropped.

#[export] Instance NoticeKind_eq_dec : EqDecision NoticeKind.
Proof. solve_decision. Defined.

Record NoticeId := { ni_wallet_id : string; ni_txid : string }.

(** The txid a transaction's payment was first announced under. *)
Definition payment (tx : LiveTx) : string := unwrap_or (lt_replaces tx) (lt_txid tx).

Definition notice_id (tx : LiveTx) : NoticeId :=
  {| ni_wallet_id := lt_wallet_id tx; ni_txid := payment tx |}.

Record Notice := {
  title : string;
  body : string;
  kind : NoticeKind;
  id : option NoticeId;
  n_wallet_id : option string;
}.

Record Held := {
  first : list LiveTx;
  more : Z;
  dropped : list LiveTx;
  dropped_more : Z;
}.

Definition default_held : Held := {| first := []; more := 0; dropped := []; dropped_more := 0 |}.

(** [v[at] = tx] and [v.remove(at)], the index in range. *)
Definition set_at {A} (at_ : nat) (x : A) (l : list A) : list A := take at_ l ++ x :: drop (S at_) l.
Definition remove_at {A} (at_ : nat) (l : list A) : list A := take at_ l ++ drop (S at_) l.

Definition same_pending (tx held : LiveTx) : bool :=
  bool_decide (lt_stage held = Mempool) && bool_decide (lt_wallet_id held = lt_wallet_id tx)
  && bool_decide (payment held = payment tx).

(** [Held::push]. *)
Definition held_push (h : Held) (tx : LiveTx) : Held :=
  match position (same_pending tx) (first h) with
  | Some at_ =>
    match lt_stage tx with
    | Mempool => h
    | Confirmed =>
      {| first := set_at at_ tx (first h); more := more h; dropped := dropped h; dropped_more := dropped_more h |}
    | Dropped =>
      {| first := remove_at at_ (first h); more := more h; dropped := dropped h; dropped_more := dropped_more h |}
    end
  | None =>
    if bool_decide (lt_stage tx = Dropped) then
      if (length (dropped h) <? MAX_DROPPED_HELD)%nat then
        {| first := first h; more := more h; dropped := dropped h ++ [tx]; dropped_more := dropped_more h |}
      else
        {| first := first h; more := more h; dropped := dropped h;
           dropped_more := sat_add_u32 (dropped_more h) 1 |}
    else if (length (first h) <? NOTICES_PER_WALLET)%nat then
      {| first := first h ++ [tx]; more := more h; dropped := dropped h; dropped_more := dropped_more h |}
    else
      {| first := first h; more := sat_add_u32 (more h) 1; dropped := dropped h; dropped_more := dropped_more h |}
  end.

Definition is_empty (h : Held) : bool :=
  bool_decide (length (first h) = 0%nat) && (more h =? 0) && bool_decide (length (dropped h) = 0%nat).

Definition from_iter (txs : list LiveTx) : Held := foldl held_push default_held txs.

Fixpoint push_wallet (tx : LiveTx) (wallets : list (string * Held)) : list (string * Held) :=
  match wallets with
  | [] => [(lt_wallet_id tx, from_iter [tx])]
  | (w, h) :: rest =>
    if bool_decide (w = lt_wallet_id tx) then (w, held_push h tx) :: rest else (w, h) :: push_wallet tx rest
  end.

Definition by_wallet (txs : list LiveTx) : list (string * Held) :=
  foldl (fun wallets tx => push_wallet tx wallets) [] txs.

(** ** The words *)

Definition amount (sats : Z) (u : Unit) : string :=
  match u with
  | Btc => group_thousands (format_btc sats) +:+ " BTC"
  | Sats => group_thousands (dec sats) +:+ " sats"
  end.

Definition describe (tx : LiveTx) (c : Context) : string :=
  let hidden := ctx_masked c || negb (details c) || (lt_net_sats tx =? 0) in
  let outgoing := lt_net_sats tx <? 0 in
  let sats := amount (Z.abs (lt_net_sats tx)) (ctx_unit c) in
  let moved := if outgoing then sats +:+ " left this wallet" else "Received " +:+ sats in
  match hidden, lt_stage tx with
  | true, Mempool => if outgoing then "New outgoing transaction · pending" else "New transaction · pending"
  | true, Confirmed => if outgoing then "Outgoing transaction confirmed" else "Transaction confirmed"
  | true, Dropped => "A pending payment is no longer coming"
  | false, Mempool => moved +:+ " · pending"
  | false, Confirmed => moved +:+ " · confirmed"
  | false, Dropped => "A pending payment of " +:+ sats +:+ " is no longer coming"
  end.

Definition invisible (c : code_point) : bool :=
  (between 0x061C 0x061C c || between 0x200B 0x200B c || between 0x200E 0x200F c
   || between 0x202A 0x202E c || between 0x2060 0x2060 c || between 0x2066 0x2069 c
   || between 0xFEFF 0xFEFF c)%N.

Definition SPACE : code_point := 32%N.
Definition ELLIPSIS : code_point := 0x2026%N.

(** [split(' ')] over characters. *)
Fixpoint words_of (l : list code_point) : list (list code_point) :=
  match l with
  | [] => [[]]
  | c :: l =>
    if (c =? SPACE)%N then [] :: words_of l
    else match words_of l with [] => [[c]] | w :: ws => (c :: w) :: ws end
  end.

Fixpoint join_words (ws : list (list code_point)) : list code_point :=
  match ws with
  | [] => []
  | [w] => w
  | w :: ws => w ++ SPACE :: join_words ws
  end.

(** [trim_end], from the last character back. *)
Definition trim_end (l : list code_point) : list code_point :=
  let fix drop_blank (r : list code_point) :=
    match r with [] => [] | c :: r' => if is_whitespace c then drop_blank r' else r end in
  rev (drop_blank (rev l)).

Definition spaced (name : list code_point) : list code_point :=
  List.map (fun c => if is_whitespace c || is_control c then SPACE else c)
    (retain (fun c => negb (invisible c)) name).

Definition joined (name : list code_point) : list code_point :=
  join_words (retain (fun w => match w with [] => false | _ => true end) (words_of (spaced name))).

Definition safe_title (name : string) : string :=
  let l := joined (chars name) in
  match l with
  | [] => APP_TITLE
  | _ =>
    if (length l <=? MAX_TITLE_CHARS)%nat then of_chars l
    else of_chars (trim_end (take (MAX_TITLE_CHARS - 1) l) ++ [ELLIPSIS])
  end.

Definition plural (count : Z) (noun : string) : string :=
  dec count +:+ " " +:+ noun +:+ (if count =? 1 then "" else "s").

Definition compose_title (wallet_id : string) (c : Context) : string :=
  if details c then match names c !! wallet_id with Some name => safe_title name | None => APP_TITLE end
  else APP_TITLE.

Definition compose (wallet_id : string) (h : Held) (c : Context) : list Notice :=
  let notice body kind id :=
    {| title := compose_title wallet_id c; body := body; kind := kind; id := id; n_wallet_id := Some wallet_id |} in
  List.map (fun tx => notice (describe tx c) Transaction (Some (notice_id tx))) (first h)
  ++ (if more h >? 0 then [notice (plural (more h) "more transaction") Transaction None] else [])
  ++ List.map (fun tx => notice (describe tx c) NDropped (Some (notice_id tx))) (dropped h)
  ++ (if dropped_more h >? 0 then
        [notice (dec (dropped_more h) +:+ " more pending payment"
                 +:+ (if dropped_more h =? 1 then " is" else "s are") +:+ " no longer coming") NDropped None]
      else []).

Definition test_notice : Notice := {|
  title := APP_TITLE; body := "This is a test. Alerts about your wallets appear like this one.";
  kind := Transaction; id := None; n_wallet_id := None |}.

(** ** The budget *)

Record Budget := { started : option Z; spent : Z }.
Inductive Allowance := Post | LastCall | Silent.

Definition new_budget : Budget := {| started := None; spent := 0 |}.

Definition allow (b : Budget) (now : Z) : Budget * Allowance :=
  let fresh := match started b with
               | None => true
               | Some s => (now <? s) || (now - s >=? BUDGET_WINDOW)
               end in
  let b := if fresh then {| started := Some now; spent := 0 |} else b in
  let spent := sat_add_u32 (spent b) 1 in
  ({| started := started b; spent := spent |},
   if spent <? BUDGET then Post else if spent =? BUDGET then LastCall else Silent).

Record Budgets := { transactions : Budget; b_dropped : Budget }.
Definition new_budgets : Budgets := {| transactions := new_budget; b_dropped := new_budget |}.

Definition last_call (k : NoticeKind) : string :=
  match k with Transaction => MORE_TRANSACTIONS | NDropped => MORE_DROPPED end.

Fixpoint within_budget (b : Budgets) (notices : list Notice) (now : Z) : Budgets * list Notice :=
  match notices with
  | [] => (b, [])
  | n :: rest =>
    let '(b, allowance) :=
      match kind n with
      | Transaction => let '(t, a) := allow (transactions b) now in ({| transactions := t; b_dropped := b_dropped b |}, a)
      | NDropped => let '(d, a) := allow (b_dropped b) now in ({| transactions := transactions b; b_dropped := d |}, a)
      end in
    let '(b, out) := within_budget b rest now in
    (b, match allowance with
        | Post => n :: out
        | LastCall =>
          {| title := APP_TITLE; body := last_call (kind n); kind := kind n; id := None; n_wallet_id := None |} :: out
        | Silent => out
        end)
  end.

(** ** Titles *)

(** A character that draws something of its own. *)
Definition solid (c : code_point) : bool :=
  negb (invisible c) && negb (is_whitespace c) && negb (is_control c).

(** Solid characters, a single space between two of them: neither first,
    nor last, nor twice. [after] says whether a space, or the start, comes
    just before; [closed] whether the text must not end there. *)
Fixpoint tidy_from (closed after : bool) (l : list code_point) : bool :=
  match l with
  | [] => negb (closed && after)
  | c :: l => if (c =? SPACE)%N then negb after && tidy_from closed true l else solid c && tidy_from closed false l
  end.

Definition tidy (l : list code_point) : bool := tidy_from true true l.

Lemma solid_not_space c : solid c = true -> (c =? SPACE)%N = false.
Proof. destruct (N.eqb_spec c SPACE) as [->|]; [by vm_compute|done]. Qed.

Lemma tidy_word after w rest : w <> [] -> Forall (fun c => solid c = true) w ->
  tidy_from true after (w ++ rest) = tidy_from true false rest.
Proof.
  intros Hne Hw. revert after Hne. induction Hw as [|c w Hc Hw IH]; intros after Hne; [done|]. simpl.
  rewrite (solid_not_space c Hc), Hc. simpl. destruct w as [|d w]; [done|]. by apply IH.
Qed.

Lemma tidy_words ws : ws <> [] -> Forall (fun w => w <> [] /\ Forall (fun c => solid c = true) w) ws ->
  tidy (join_words ws) = true.
Proof.
  unfold tidy. intros Hne Hws. induction Hws as [|w ws [Hw Hs] Hws IH]; [done|]. destruct ws as [|w' ws].
  - simpl. rewrite <- (app_nil_r w). by rewrite tidy_word.
  - change (join_words (w :: w' :: ws)) with (w ++ SPACE :: join_words (w' :: ws)).
    rewrite tidy_word by done. cbn [tidy_from]. rewrite N.eqb_refl. by apply IH.
Qed.

Lemma tidy_snoc after l c : tidy_from false after l = true -> solid c = true -> tidy_from true after (l ++ [c]) = true.
Proof.
  intros Hl Hc. revert after Hl. induction l as [|d l IH]; intros after Hl; cbn [app tidy_from] in *.
  - by rewrite solid_not_space, Hc.
  - destruct (d =? SPACE)%N; apply andb_true_iff in Hl as [-> Hl]; by apply IH.
Qed.

Lemma tidy_prefix closed after l k : tidy_from closed after (l ++ k) = true -> tidy_from false after l = true.
Proof.
  revert after. induction l as [|d l IH]; intros after Hl; cbn [app tidy_from] in *; [done|].
  destruct (d =? SPACE)%N; apply andb_true_iff in Hl as [-> Hl]; by apply IH in Hl.
Qed.

Lemma tidy_chars l closed after : tidy_from closed after l = true -> Forall (fun c => solid c = true \/ c = SPACE) l.
Proof.
  revert after. induction l as [|d l IH]; intros after Hl; cbn [tidy_from] in *; [constructor|].
  destruct (N.eqb_spec d SPACE); apply andb_true_iff in Hl as [? Hl]; constructor; eauto.
Qed.

Lemma words_of_nonempty l : words_of l <> [].
Proof. destruct l as [|c l]; simpl; [done|]. by repeat case_match. Qed.

Lemma join_words_of l : join_words (words_of l) = l.
Proof.
  induction l as [|c l IH]; [done|]. cbn [words_of].
  destruct (words_of l) as [|w ws] eqn:E; [by apply words_of_nonempty in E|].
  destruct (N.eqb_spec c SPACE) as [->|Hne].
  - change (join_words ([] :: w :: ws)) with (SPACE :: join_words (w :: ws)). by rewrite IH.
  - destruct ws; simpl in *; by rewrite <- IH.
Qed.

Lemma words_of_chars l : Forall (Forall (fun c => In c l /\ c <> SPACE)) (words_of l).
Proof.
  induction l as [|c l IH]; cbn [words_of]; [by repeat constructor|].
  assert (Hup : Forall (Forall (fun d => In d (c :: l) /\ d <> SPACE)) (words_of l)).
  { eapply List.Forall_impl; [|exact IH]. intros w Hw. eapply List.Forall_impl; [|exact Hw]. intros d [? ?]. split; [by right|done]. }
  destruct (N.eqb_spec c SPACE) as [->|Hne]; [by constructor|].
  destruct (words_of l) as [|w ws]; [constructor; [constructor; [split; [by left|done]|constructor]|constructor]|].
  apply List.Forall_cons_iff in Hup as [Hw Hws]. constructor; [|done]. constructor; [|done]. split; [by left|done].
Qed.

Lemma words_of_tidy l after : tidy_from true after l = true ->
  exists w ws, words_of l = w :: ws /\ (after = true -> w <> []) /\ Forall (fun w => w <> []) ws.
Proof.
  revert after. induction l as [|c l IH]; intros after Hl; cbn [tidy_from words_of] in *.
  - exists [], []. split; [done|]. split; [|constructor]. by destruct after.
  - destruct (N.eqb_spec c SPACE); apply andb_true_iff in Hl as [Ha Hl]; destruct (IH _ Hl) as (w & ws & -> & Hw & Hws).
    + exists [], (w :: ws). split; [done|]. split; [by destruct after|]. constructor; auto.
    + exists (c :: w), ws. by split_and!.
Qed.

Lemma spaced_chars l : Forall (fun c => solid c = true \/ c = SPACE) (spaced l).
Proof.
  unfold spaced. apply List.Forall_forall. intros c (d & <- & [Hd Hi]%retain_In)%in_map_iff.
  destruct (is_whitespace d || is_control d) eqn:E; [by right|left].
  apply orb_false_iff in E as [E1 E2]. unfold solid. by rewrite Hi, E1, E2.
Qed.

Definition nonblank (w : list code_point) : bool := match w with [] => false | _ => true end.

Lemma joined_tidy l : joined l = [] \/ tidy (joined l) = true.
Proof.
  unfold joined. set (ws := retain _ _). destruct (decide (ws = [])) as [->|Hne]; [by left|right].
  apply tidy_words; [done|]. apply List.Forall_forall. intros w [Hw Hb]%retain_In. split; [by destruct w|].
  pose proof (words_of_chars (spaced l)) as Hc. rewrite List.Forall_forall in Hc. specialize (Hc w Hw).
  eapply List.Forall_impl; [|exact Hc]. intros c [Hin Hs]. pose proof (spaced_chars l) as Hp.
  rewrite List.Forall_forall in Hp. destruct (Hp c Hin); done.
Qed.

Lemma spaced_id l : Forall (fun c => solid c = true \/ c = SPACE) l -> spaced l = l.
Proof.
  unfold spaced, retain. induction 1 as [|c l Hc Hl IH]; [done|]. cbn [List.filter].
  destruct Hc as [Hc| ->]; [|cbn; by rewrite IH].
  unfold solid in Hc. rewrite !andb_true_iff, !negb_true_iff in Hc. destruct Hc as [[H1 H2] H3].
  rewrite H1. cbn [negb List.map]. by rewrite H2, H3, IH.
Qed.

Lemma joined_id l : tidy l = true -> joined l = l.
Proof.
  intros Hl. unfold joined. rewrite spaced_id by (by eapply tidy_chars).
  destruct (words_of_tidy l true Hl) as (w & ws & E & Hw & Hws). rewrite retain_all; [apply join_words_of|].
  rewrite E. intros v [<-|Hv]; [by destruct w; [destruct Hw|]|].
  rewrite List.Forall_forall in Hws. specialize (Hws v Hv). by destruct v.
Qed.

Lemma trim_end_prefix l : exists k, l = trim_end l ++ k.
Proof.
  unfold trim_end. set (f := fix drop_blank (r : list code_point) := _).
  assert (H : forall r, exists k, r = k ++ f r).
  { induction r as [|c r [k IH]]; [by exists []|]. cbn. destruct (is_whitespace c); [|by exists []].
    exists (c :: k). simpl. by f_equal. }
  destruct (H (rev l)) as [k Hk]. exists (rev k). rewrite <- rev_app_distr, <- Hk. by rewrite rev_involutive.
Qed.

Lemma chars_valid name : valid_utf8 name -> Forall (fun c => is_char c = true) (chars name).
Proof. intros (l & Hl & ->). by rewrite chars_of_chars. Qed.

Lemma of_chars_chars name : valid_utf8 name -> of_chars (chars name) = name.
Proof. intros (l & Hl & ->). by rewrite chars_of_chars. Qed.

Lemma joined_valid l : Forall (fun c => is_char c = true) l -> Forall (fun c => is_char c = true) (joined l).
Proof.
  intros Hl. assert (Hs : forall c, In c (spaced l) -> is_char c = true).
  { intros c (d & <- & [Hd _]%retain_In)%in_map_iff. rewrite List.Forall_forall in Hl.
    destruct (_ || _); [done|auto]. }
  assert (Hj : forall ws, Forall (Forall (fun c => is_char c = true)) ws -> Forall (fun c => is_char c = true) (join_words ws)).
  { induction 1 as [|w ws Hw Hws IH]; [constructor|]. destruct ws; [done|].
    change (join_words (w :: l0 :: ws)) with (w ++ SPACE :: join_words (l0 :: ws)).
    apply List.Forall_app. split; [done|]. by constructor. }
  apply Hj. apply List.Forall_forall. intros w [Hw _]%retain_In.
  pose proof (words_of_chars (spaced l)) as Hc. rewrite List.Forall_forall in Hc. specialize (Hc w Hw).
  eapply List.Forall_impl; [|exact Hc]. intros c [? _]. auto.
Qed.

(** The characters of a title. *)
Definition title_chars (name : string) : list code_point :=
  match joined (chars name) with
  | [] => chars APP_TITLE
  | l => if (length l <=? MAX_TITLE_CHARS)%nat then l else trim_end (take (MAX_TITLE_CHARS - 1) l) ++ [ELLIPSIS]
  end.

Lemma safe_title_chars name : valid_utf8 name ->
  safe_title name = of_chars (title_chars name) /\ Forall (fun c => is_char c = true) (title_chars name).
Proof.
  intros Hv. pose proof (joined_valid _ (chars_valid _ Hv)) as Hj. unfold safe_title, title_chars.
  destruct (joined (chars name)) as [|c l] eqn:E; [split; [reflexivity|]; repeat constructor|].
  destruct (_ <=? _)%nat; [done|]. split; [done|]. apply List.Forall_app. split; [|by repeat constructor].
  destruct (trim_end_prefix (take (MAX_TITLE_CHARS - 1) (c :: l))) as [k Hk].
  rewrite <- (take_drop (MAX_TITLE_CHARS - 1) (c :: l)), Hk in Hj. by apply List.Forall_app in Hj as [[? _]%List.Forall_app _].
Qed.

Lemma title_chars_spec name : tidy (title_chars name) = true /\ (length (title_chars name) <= MAX_TITLE_CHARS)%nat.
Proof.
  unfold title_chars. pose proof (joined_tidy (chars name)) as Ht.
  destruct (joined (chars name)) as [|c l] eqn:E; [split; [reflexivity|vm_compute; lia]|].
  destruct Ht as [?|Ht]; [done|]. destruct (Nat.leb_spec (length (c :: l)) MAX_TITLE_CHARS); [done|].
  destruct (trim_end_prefix (take (MAX_TITLE_CHARS - 1) (c :: l))) as [k Hk]. split.
  - apply tidy_snoc; [|reflexivity]. rewrite <- (take_drop (MAX_TITLE_CHARS - 1) (c :: l)), Hk in Ht.
    unfold tidy in Ht. rewrite <- app_assoc in Ht. by eapply tidy_prefix.
  - apply (f_equal length) in Hk. rewrite length_app, length_take in Hk. rewrite length_app. simpl length at 2.
    unfold MAX_TITLE_CHARS in *. lia.
Qed.

Lemma safe_title_id name : valid_utf8 name -> tidy (chars name) = true ->
  (length (chars name) <= MAX_TITLE_CHARS)%nat -> safe_title name = name.
Proof.
  intros Hv Ht Hl. unfold safe_title. rewrite joined_id by done.
  destruct (chars name) as [|c l] eqn:E; [done|]. rewrite (proj2 (Nat.leb_le _ _) Hl).
  rewrite <- E. by apply of_chars_chars.
Qed.

(** The title made of any name is one a notification can carry: one to
    64 characters, none of them invisible or a control character, with no
    blank but single spaces between words, so that nothing of it turns or
    hides the text around it; a name that is already so is left as it is,
    and a title made of a title is the same title. *)
Theorem title_is_safe name :
  valid_utf8 name ->
  let t := safe_title name in
  tidy (chars t) = true /\ (1 <= length (chars t) <= MAX_TITLE_CHARS)%nat
  /\ safe_title t = t
  /\ (tidy (chars name) = true -> (length (chars name) <= MAX_TITLE_CHARS)%nat -> t = name).
Proof.
  intros Hv t. subst t. destruct (safe_title_chars name Hv) as [E Hc].
  destruct (title_chars_spec name) as [Ht Hl].
  assert (E' : chars (safe_title name) = title_chars name) by (rewrite E; by apply chars_of_chars).
  rewrite E'. split_and!; [done| |done| |].
  - destruct (title_chars name); [done|simpl; lia].
  - apply safe_title_id; rewrite ?E'; try done. rewrite E. by exists (title_chars name).
  - intros. by apply safe_title_id.
Qed.

Lemma cold_storage_valid : valid_utf8 "Cold  storage".
Proof. exists (bytes "Cold  storage"). split; [repeat constructor|vm_compute; reflexivity]. Qed.

Lemma title_is_safe_witness :
  tidy (chars (safe_title "Cold  storage")) = true /\ safe_title "Cold  storage" = "Cold storage".
Proof.
  pose proof (title_is_safe "Cold  storage" cold_storage_valid) as H. cbv zeta in H.
  split; [exact (proj1 H)|vm_compute; reflexivity].
Defined.

(** ** What is hidden *)

(** A transaction with its amount forgotten, its direction kept. *)
Definition hide (tx : LiveTx) : LiveTx :=
  {| lt_wallet_id := lt_wallet_id tx; lt_txid := lt_txid tx;
     lt_net_sats := if lt_net_sats tx <? 0 then -1 else 0;
     lt_stage := lt_stage tx; lt_replaces := lt_replaces tx |}.

Definition hide_held (h : Held) : Held :=
  {| first := List.map hide (first h); more := more h; dropped := List.map hide (dropped h);
     dropped_more := dropped_more h |}.

(** A context that knows no name, and hides all. *)
Definition blind : Context := {| names := ∅; ctx_unit := Btc; ctx_masked := true; details := false |}.

Lemma describe_hidden tx c c' : ctx_masked c || negb (details c) = true -> ctx_masked c' || negb (details c') = true ->
  describe tx c = describe (hide tx) c'.
Proof.
  intros Hc Hc'. unfold describe. rewrite Hc, Hc'. cbn [orb hide lt_net_sats lt_stage].
  destruct (lt_net_sats tx <? 0) eqn:E; done.
Qed.

Lemma compose_hidden w h c c' :
  ctx_masked c || negb (details c) = true -> ctx_masked c' || negb (details c') = true ->
  compose_title w c = compose_title w c' -> compose w h c = compose w (hide_held h) c'.
Proof.
  intros Hc Hc' Ht. unfold compose. rewrite Ht. cbn [hide_held first more dropped dropped_more].
  rewrite !List.map_map. f_equal; [|f_equal; f_equal]; apply List.map_ext; intros tx;
    by rewrite (describe_hidden tx c c').
Qed.

(** What must not be said is not said. While balances are masked, the
    notifications of a sync are the same whatever the amounts, the
    direction of each aside; without details they are, besides, the same
    whatever the wallets are named, whatever the unit and whatever the
    mask: nothing of an amount or a name can be read from them. *)
Theorem nothing_leaks w h c :
  (ctx_masked c = true -> compose w h c = compose w (hide_held h) c)
  /\ (details c = false -> compose w h c = compose w (hide_held h) blind).
Proof.
  split; intros Hc.
  - apply compose_hidden; [by rewrite Hc..|done].
  - apply compose_hidden; [by rewrite Hc, orb_true_r|done|]. unfold compose_title. by rewrite Hc.
Qed.

(** ** What is held *)

Definition wf_held (h : Held) : Prop :=
  (length (first h) <= NOTICES_PER_WALLET)%nat /\ (length (dropped h) <= MAX_DROPPED_HELD)%nat
  /\ (dropped_more h > 0 -> length (dropped h) = MAX_DROPPED_HELD)
  /\ in_u32 (more h) /\ in_u32 (dropped_more h)
  /\ (forall tx, In tx (dropped h) -> lt_stage tx = Dropped)
  /\ (forall tx, In tx (first h) -> lt_stage tx <> Dropped).

Lemma position_Some {A} (f : A -> bool) l i : position f l = Some i ->
  (i < length l)%nat /\ exists x, l = take i l ++ x :: drop (S i) l /\ f x = true.
Proof.
  revert i. induction l as [|x l IH]; intros i; simpl; [done|]. destruct (f x) eqn:E.
  - intros [= <-]. split; [lia|]. exists x. simpl. by rewrite drop_0.
  - destruct (position f l) as [j|]; [|done]. intros [= <-]. destruct (IH j eq_refl) as (Hj & y & Hy & Hf).
    split; [lia|]. exists y. simpl. split; [by f_equal|done].
Qed.

Lemma In_set_at {A} i (x : A) l y : In y (set_at i x l) -> y = x \/ In y l.
Proof.
  unfold set_at. intros [H|[H|H]]%in_app_or; [|by left|]; right.
  - rewrite <- (take_drop i l). apply in_or_app. by left.
  - rewrite <- (take_drop (S i) l). apply in_or_app. by right.
Qed.

Lemma In_remove_at {A} i (l : list A) y : In y (remove_at i l) -> In y l.
Proof.
  unfold remove_at. intros [H|H]%in_app_or.
  - rewrite <- (take_drop i l). apply in_or_app. by left.
  - rewrite <- (take_drop (S i) l). apply in_or_app. by right.
Qed.

Lemma set_at_length {A} i (x : A) l : (i < length l)%nat -> length (set_at i x l) = length l.
Proof. intros H. unfold set_at. rewrite length_app, length_take. simpl. rewrite length_drop. lia. Qed.

Lemma remove_at_length {A} i (l : list A) : (i < length l)%nat -> (length (remove_at i l) < length l)%nat.
Proof. intros H. unfold remove_at. rewrite length_app, length_take, length_drop. lia. Qed.

Lemma held_push_wf h tx : wf_held h -> wf_held (held_push h tx).
Proof.
  intros (H1 & H2 & H3 & H4 & H5 & H6 & H7). unfold held_push.
  destruct (position _ _) as [i|] eqn:E.
  - apply position_Some in E as [Hi _]. destruct (lt_stage tx) eqn:Es; [by split_and!|..]; split_and!; try done; cbn [first].
    + by rewrite set_at_length.
    + intros y [->|Hy]%In_set_at; [congruence|auto].
    + pose proof (remove_at_length i (first h) Hi). lia.
    + intros y Hy%In_remove_at. auto.
  - case_bool_decide as Hd.
    + destruct (Nat.ltb_spec (length (dropped h)) MAX_DROPPED_HELD).
      * split_and!; try done; cbn [dropped dropped_more].
        -- rewrite length_app. simpl. lia.
        -- intros Hm. specialize (H3 Hm). lia.
        -- intros y [Hy|[<-|[]]]%in_app_or; auto.
      * split_and!; try done; cbn [dropped dropped_more]; [intros _; lia|ints..].
    + destruct (Nat.ltb_spec (length (first h)) NOTICES_PER_WALLET).
      * split_and!; try done; cbn [first more].
        -- rewrite length_app. simpl. lia.
        -- intros y [Hy|[<-|[]]]%in_app_or; auto.
      * split_and!; try done; cbn [first more]; ints.
Qed.

Lemma from_iter_wf txs : wf_held (from_iter txs).
Proof.
  unfold from_iter. apply (foldl_ind wf_held); [|intros; by apply held_push_wf].
  split_and!; simpl; try done; unfold NOTICES_PER_WALLET, MAX_DROPPED_HELD; lia.
Qed.

(** What a push never undoes. *)
Record said_in (h h' : Held) : Prop := {
  si_confirmed : forall tx, In tx (first h) -> lt_stage tx = Confirmed -> In tx (first h');
  si_more : more h > 0 -> more h' > 0;
  si_dropped : forall tx, In tx (dropped h) -> In tx (dropped h');
  si_dropped_more : dropped_more h > 0 -> dropped_more h' > 0;
}.

Lemma keep_others {A} (f : A -> bool) l i y : position f l = Some i -> In y l -> f y = false ->
  In y (take i l) \/ In y (drop (S i) l).
Proof.
  intros E Hy Hf. apply position_Some in E as (_ & x & El & Hx). rewrite El in Hy.
  apply in_app_or in Hy as [?|[<-|?]]; [auto|congruence|auto].
Qed.

Lemma confirmed_not_pending tx y : lt_stage y = Confirmed -> same_pending tx y = false.
Proof. intros Hy. unfold same_pending. by rewrite Hy. Qed.

Lemma held_push_said h tx : said_in h (held_push h tx).
Proof.
  unfold held_push. destruct (position _ _) as [i|] eqn:E.
  - destruct (lt_stage tx); [by split|..]; (split; try done); cbn [first]; intros y Hy Hc;
      apply (keep_others _ _ _ y E) in Hy; try by apply confirmed_not_pending.
    + unfold set_at. apply in_or_app. destruct Hy; [by left|right; by right].
    + unfold remove_at. apply in_or_app. tauto.
  - case_bool_decide;
      [destruct (length (dropped h) <? MAX_DROPPED_HELD)%nat|destruct (length (first h) <? NOTICES_PER_WALLET)%nat];
      split; cbn [first more dropped dropped_more]; intros; try done; try (apply in_or_app; by left);
      unfold sat_add_u32, u32_max; lia.
Qed.

Lemma said_in_trans h1 h2 h3 : said_in h1 h2 -> said_in h2 h3 -> said_in h1 h3.
Proof. intros [A1 A2 A3 A4] [B1 B2 B3 B4]. split; eauto. Qed.

Lemma foldl_said l h : said_in h (foldl held_push h l).
Proof.
  apply (foldl_ind (said_in h)); [by split|]. intros h' tx _ H. eapply said_in_trans; [done|apply held_push_said].
Qed.

Lemma push_confirmed h tx : lt_stage tx = Confirmed ->
  more h >= 0 -> In tx (first (held_push h tx)) \/ more (held_push h tx) > 0.
Proof.
  intros Hs Hm. unfold held_push. rewrite Hs. destruct (position _ _) as [i|] eqn:E.
  - left. cbn [first]. unfold set_at. apply in_or_app. right. by left.
  - rewrite bool_decide_eq_false_2 by done. destruct (length (first h) <? NOTICES_PER_WALLET)%nat; cbn [first more].
    + left. apply in_or_app. right. by left.
    + right. unfold sat_add_u32, u32_max. lia.
Qed.

Lemma push_drop h tx : lt_stage tx = Dropped -> dropped_more h >= 0 ->
  In tx (dropped (held_push h tx)) \/ dropped_more (held_push h tx) > 0
  \/ exists at_, position (same_pending tx) (first h) = Some at_ /\ first (held_push h tx) = remove_at at_ (first h).
Proof.
  intros Hs Hm. unfold held_push. rewrite Hs. destruct (position _ _) as [i|] eqn:E; [eauto|].
  rewrite bool_decide_eq_true_2 by done.
  destruct (length (dropped h) <? MAX_DROPPED_HELD)%nat; cbn [dropped dropped_more].
  - left. apply in_or_app. right. by left.
  - right. left. unfold sat_add_u32, u32_max. lia.
Qed.

(** What a sync's batch comes to. Every confirmation in it is either
    held to be said or counted among the rest, and every payment no longer
    coming is held to be said one by one, or counted past 64, or takes
    back an arrival of the same batch that nobody was shown yet, and then
    neither is said; what comes later in the batch undoes none of it. At
    most three transactions and 64 drops are held, the lines that count
    included never more than 69 notifications, and there is none exactly
    when the batch comes to nothing. *)
Theorem batch_is_said l1 tx l2 w c :
  let h := from_iter (l1 ++ tx :: l2) in
  (lt_stage tx = Confirmed -> In tx (first h) \/ more h > 0)
  /\ (lt_stage tx = Dropped ->
      In tx (dropped h) \/ dropped_more h > 0
      \/ exists pending, In pending (first (from_iter l1)) /\ lt_stage pending = Mempool
           /\ notice_id pending = notice_id tx)
  /\ wf_held h
  /\ (length (compose w h c) <= 69)%nat
  /\ (is_empty h = true <-> compose w h c = []).
Proof.
  intros h. pose proof (from_iter_wf (l1 ++ tx :: l2)) as Hwf. fold h in Hwf.
  pose proof (from_iter_wf l1) as (_ & _ & _ & Hm1 & Hm2 & _).
  assert (Hh : h = foldl held_push (held_push (from_iter l1) tx) l2) by (subst h; unfold from_iter; by rewrite foldl_app).
  pose proof (foldl_said l2 (held_push (from_iter l1) tx)) as [S1 S2 S3 S4]. rewrite <- Hh in *.
  split_and!; [..|done|idtac|idtac].
  - intros Hs. destruct (push_confirmed (from_iter l1) tx Hs ltac:(ints)); auto.
  - intros Hs. destruct (push_drop (from_iter l1) tx Hs ltac:(ints)) as [?|[?|(i & Hi & _)]]; auto.
    right. right. apply position_Some in Hi as (_ & x & El & Hx). exists x.
    unfold same_pending in Hx. rewrite !andb_true_iff, !bool_decide_eq_true in Hx. destruct Hx as [[Hx1 Hx2] Hx3].
    split_and!; [rewrite El; apply in_or_app; right; by left|done|]. unfold notice_id. by rewrite Hx2, Hx3.
  - destruct Hwf as (H1 & H2 & _). unfold compose, NOTICES_PER_WALLET, MAX_DROPPED_HELD in *.
    rewrite !length_app, !List.length_map. repeat case_match; simpl; lia.
  - destruct Hwf as (_ & _ & H3 & H4 & H5 & _). clear Hh S1 S2 S3 S4. unfold is_empty, compose.
    rewrite !andb_true_iff, !bool_decide_eq_true, Z.eqb_eq. split.
    + intros [[E1 E2] E3]. apply nil_length_inv in E1, E3. rewrite E1, E2, E3 in *. simpl.
      destruct (Z.gtb_spec (dropped_more h) 0); [|done]. specialize (H3 ltac:(lia)). discriminate H3.
    + intros E. apply app_eq_nil in E as [E1 E]. apply app_eq_nil in E as [E2 E]. apply app_eq_nil in E as [E3 _].
      apply map_eq_nil in E1, E3. rewrite E1, E3. split; [split; [done|]|done].
      destruct (Z.gtb_spec (more h) 0); [done|]. ints.
Qed.

(** ** The budget holds *)

Definition posts (a : Allowance) : bool := match a with Silent => false | _ => true end.

(** Asked at each of these times, in order: how many go out. *)
Fixpoint posted (b : Budget) (times : list Z) : Budget * Z :=
  match times with
  | [] => (b, 0)
  | t :: times =>
    let '(b, a) := allow b t in
    let '(b, n) := posted b times in
    (b, (if posts a then 1 else 0) + n)
  end.

(** Times that never go back, from [start] to [stop]. *)
Fixpoint forward (start : Z) (times : list Z) (stop : Z) : Prop :=
  match times with [] => start <= stop | t :: times => start <= t /\ forward t times stop end.

(** After [n] went out since [start]: the window that runs started late
    enough for those before it. *)
Definition within (start now n : Z) (b : Budget) : Prop :=
  start <= now /\ in_u32 (spent b) /\
  match started b with
  | None => n = 0
  | Some s => start <= s <= now /\ 1 <= spent b
              /\ n <= BUDGET * ((s - start) / BUDGET_WINDOW) + Z.min (spent b) BUDGET
  end.

Lemma allow_within start now n b t : within start now n b -> now <= t ->
  within start t (n + (if posts (allow b t).2 then 1 else 0)) (allow b t).1.
Proof.
  unfold within, allow. intros (H1 & H2 & H3) Ht.
  destruct (started b) as [s|] eqn:Es; simpl.
  - destruct H3 as (Hs & Hsp & Hn). destruct ((t <? s) || (t - s >=? BUDGET_WINDOW)) eqn:E; simpl.
    + assert (t - s >= BUDGET_WINDOW) by lia. split; [lia|]. split; [ints|]. split; [lia|]. split; [ints|].
      assert ((s - start) / BUDGET_WINDOW + 1 <= (t - start) / BUDGET_WINDOW).
      { rewrite <- Z.div_add by done. apply Z.div_le_mono; [done|]. lia. }
      unfold BUDGET in *. unfold sat_add_u32, u32_max. simpl. lia.
    + rewrite Es. split; [lia|]. split; [ints|]. split; [lia|]. split; [ints|].
      unfold sat_add_u32, u32_max, BUDGET in *.
      destruct (Z.ltb_spec (Z.min (spent b + 1) 4294967295) 20);
        [|destruct (Z.eqb_spec (Z.min (spent b + 1) 4294967295) 20)]; simpl; unfold in_u32, u32_max in H2; lia.
  - subst n. split; [lia|]. split; [ints|]. split; [lia|]. split; [ints|].
    assert (0 <= (t - start) / BUDGET_WINDOW) by (apply Z.div_pos; [lia|done]).
    unfold BUDGET, sat_add_u32, u32_max. simpl. lia.
Qed.

Lemma posted_within times : forall start now n b stop, within start now n b -> forward now times stop ->
  within start stop (n + (posted b times).2) (posted b times).1.
Proof.
  induction times as [|t times IH]; intros start now n b stop Hw Hf; cbn [posted forward] in *.
  - cbn [fst snd]. rewrite Z.add_0_r. destruct Hw as (H1 & H2 & H3). split; [lia|]. split; [done|].
    destruct (started b); [|done]. destruct H3 as ([? ?] & ? & ?). split; [lia|done].
  - destruct Hf as [Ht Hf]. pose proof (allow_within _ _ _ _ t Hw Ht) as Hw'.
    destruct (allow b t) as [b' a]. cbn [fst snd] in *. specialize (IH _ _ _ _ _ Hw' Hf).
    destruct (posted b' times) as [b'' k]. cbn [fst snd] in *. by rewrite Z.add_assoc.
Qed.

(** A server cannot make the device ring without end. Whatever is
    asked of a budget over a span of time, and however often, no more than
    20 notifications go out for each minute begun. *)
Theorem budget_caps start times stop :
  forward start times stop ->
  (posted new_budget times).2 <= BUDGET * (1 + (stop - start) / BUDGET_WINDOW).
Proof.
  intros Hf.
  assert (start <= stop) by (revert start Hf; induction times; simpl; [done|]; intros s [? ?]; etransitivity; eauto).
  assert (Hw : within start start 0 new_budget) by (split; [lia|split; [unfold in_u32, u32_max; simpl; lia|done]]).
  pose proof (posted_within _ _ _ _ _ _ Hw Hf) as (_ & _ & H3). rewrite Z.add_0_l in H3.
  assert (0 <= (stop - start) / BUDGET_WINDOW) by (apply Z.div_pos; [lia|done]).
  destruct (started _) as [s|]; [|unfold BUDGET; lia]. destruct H3 as (Hs & _ & Hn).
  assert ((s - start) / BUDGET_WINDOW <= (stop - start) / BUDGET_WINDOW) by (apply Z.div_le_mono; [done|lia]).
  unfold BUDGET in *. lia.
Qed.

Lemma budget_caps_witness :
  (posted new_budget (List.repeat 5 50)).2 = 20
  /\ (posted new_budget (List.repeat 5 50)).2 <= BUDGET * (1 + (6 - 5) / BUDGET_WINDOW).
Proof.
  split; [vm_compute; reflexivity|]. apply budget_caps. simpl. lia.
Defined.

Definition of_kind (k : NoticeKind) (n : Notice) : bool := bool_decide (kind n = k).

(** The budget a kind draws on. *)
Definition budget_of (k : NoticeKind) (b : Budgets) : Budget :=
  match k with Transaction => transactions b | NDropped => b_dropped b end.

Definition with_budget (k : NoticeKind) (b : Budgets) (x : Budget) : Budgets :=
  match k with
  | Transaction => {| transactions := x; b_dropped := b_dropped b |}
  | NDropped => {| transactions := transactions b; b_dropped := x |}
  end.

Definition say (n : Notice) (a : Allowance) (out : list Notice) : list Notice :=
  match a with
  | Post => n :: out
  | LastCall =>
    {| title := APP_TITLE; body := last_call (kind n); kind := kind n; id := None; n_wallet_id := None |} :: out
  | Silent => out
  end.

Lemma within_budget_cons b n notices now :
  (within_budget b (n :: notices) now).2
  = say n (allow (budget_of (kind n) b) now).2
      (within_budget (with_budget (kind n) b (allow (budget_of (kind n) b) now).1) notices now).2.
Proof.
  cbn [within_budget]. destruct (kind n) eqn:Ek; cbn [budget_of with_budget];
    destruct (allow _ now) as [x a]; cbn [fst snd]; destruct (within_budget _ notices now); unfold say; rewrite Ek; done.
Qed.

Lemma retain_say k n a out :
  retain (of_kind k) (say n a out) = if of_kind k n then say n a (retain (of_kind k) out) else retain (of_kind k) out.
Proof.
  unfold retain, say, of_kind. destruct a; cbn [List.filter kind]; case_bool_decide; done.
Qed.

Lemma within_budget_kind k notices b b' now :
  budget_of k b = budget_of k b' ->
  retain (of_kind k) (within_budget b notices now).2 = (within_budget b' (retain (of_kind k) notices) now).2.
Proof.
  revert b b'. induction notices as [|n notices IH]; intros b b' Hb; [done|].
  rewrite within_budget_cons, retain_say.
  change (retain (of_kind k) (n :: notices))
    with (if of_kind k n then n :: retain (of_kind k) notices else retain (of_kind k) notices).
  destruct (of_kind k n) eqn:Ek.
  - apply bool_decide_eq_true in Ek as <-. rewrite within_budget_cons, Hb. f_equal. apply IH.
    by destruct (kind n).
  - apply bool_decide_eq_false in Ek. apply IH. rewrite <- Hb. by destruct (kind n), k.
Qed.

(** The two kinds of notification never silence each other: what goes
    out of one kind is what would go out if the other had not been there,
    so no burst of transactions hides a payment that is no longer coming.
    And a budget is never shut for longer than a minute of the clock:
    asked a minute or more after its window began, or by a clock set back
    before it, it lets through. *)
Lemma kinds_independent k notices b now :
  retain (of_kind k) (within_budget b notices now).2 = (within_budget b (retain (of_kind k) notices) now).2
  /\ (forall x s t, started x = Some s -> t < s \/ BUDGET_WINDOW <= t - s -> (allow x t).2 = Post).
Proof.
  split; [by apply within_budget_kind|]. intros x s t Hs Ht. unfold allow. rewrite Hs.
  replace ((t <? s) || (t - s >=? BUDGET_WINDOW)) with true by lia. done.
Qed.

(** Past the minute's twentieth, even a payment no longer coming is not
    said: of thirty at once the last ten are in no notification. *)
Lemma many_drops_silenced :
  let tx i := {| lt_wallet_id := "w"; lt_txid := dec (Z.of_nat i); lt_net_sats := 1; lt_stage := Dropped;
                 lt_replaces := None |} in
  let batch := compose "w" (from_iter (List.map tx (seq 0 30))) blind in
  length batch = 30%nat /\ length (within_budget new_budgets batch 0).2 = 20%nat.
Proof. vm_compute. split; reflexivity. Qed.
