(* ===== verification/PolicyModel.v ===== *)
(** [wallet/policy.rs], the reading: a descriptor's policy split into its
    alternatives, the book of its keys, its conditions. Parsing and
    lifting a descriptor are miniscript's; the analysis starts from the
    normalized semantic policy miniscript hands over, over a type of keys
    of which the source uses what [DescriptorKey] names. *)
From S2P Require Import Prelude Utf8 Text Errors Network.
From Stdlib Require Import Ascii.

Class DescriptorKey (K : Type) := {
  (** The key as written, without origin, path or wildcard. *)
  material : K -> string;
  master_fingerprint : K -> string;
  (** The path of its origin as text, when it carries one. *)
  origin : K -> option string;
}.

(** miniscript's [semantic::Policy]. A lock is its consensus value; a
    threshold has [1 <= k <= n]. *)
Inductive Policy (K : Type) :=
| Unsatisfiable
| Trivial
| Key (pk : K)
| After (lock : Z)
| Older (lock : Z)
| Sha256 (hash : string)
| Hash256 (hash : string)
| Ripemd160 (hash : string)
| Hash160 (hash : string)
| Thresh (k : nat) (subs : list (Policy K)).
Arguments Unsatisfiable {K}.
Arguments Trivial {K}.
Arguments Key {K} pk.
Arguments After {K} lock.
Arguments Older {K} lock.
Arguments Sha256 {K} hash.
Arguments Hash256 {K} hash.
Arguments Ripemd160 {K} hash.
Arguments Hash160 {K} hash.
Arguments Thresh {K} k subs.

Section PolicyInduction.
Context {K : Type} (P : Policy K -> Prop).
Context (leaf : forall p, (forall k subs, p <> Thresh k subs) -> P p).
Context (node : forall k subs, Forall P subs -> P (Thresh k subs)).

Fixpoint Policy_rect' (p : Policy K) : P p :=
  match p with
  | Thresh k subs =>
    node k subs ((fix all (l : list (Policy K)) : Forall P l :=
      match l with [] => Forall_nil_2 P | p :: l => Forall_cons_2 P p l (Policy_rect' p) (all l) end) subs)
  | p => leaf p ltac:(discriminate)
  end.
End PolicyInduction.

Record Coin := {
  outpoint : string;
  value_sats : Z;
  height : option Z;
  timestamp : option Z;
}.

Inductive PolicyKind := SingleKey | Multisig | Miniscript | PAddress.

Record PolicyKey := {
  pk_id : string;
  pk_label : string;
  pk_fingerprint : option string;
  pk_origin_path : option string;
  pk_key_short : string;
}.

Inductive BranchRole := Primary | Recovery | Emergency | Other.

#[export] Instance PolicyKind_eq_dec : EqDecision PolicyKind.
Proof. solve_decision. Defined.
#[export] Instance BranchRole_eq_dec : EqDecision BranchRole.
Proof. solve_decision. Defined.

Inductive AbsoluteLock := AHeight (height : Z) | ATime (unix : Z).
Inductive RelativeLock := RBlocks (blocks : Z) | RSeconds (seconds : Z).
Inductive Lock := Absolute (lock : AbsoluteLock) | Relative (lock : RelativeLock).

Inductive Condition :=
| CKey (key_id : string)
| CThresh (k n : nat) (items : list Condition)
| CAfter (lock : AbsoluteLock)
| COlder (lock : RelativeLock)
| CPreimage (hash : string).

Section ConditionInduction.
Context (P : Condition -> Prop).
Context (leaf : forall c, (forall k n items, c <> CThresh k n items) -> P c).
Context (node : forall k n items, Forall P items -> P (CThresh k n items)).

Fixpoint Condition_rect' (c : Condition) : P c :=
  match c with
  | CThresh k n items =>
    node k n items ((fix all (l : list Condition) : Forall P l :=
      match l with [] => Forall_nil_2 P | c :: l => Forall_cons_2 P c l (Condition_rect' c) (all l) end) items)
  | c => leaf c ltac:(discriminate)
  end.
End ConditionInduction.

(** ** Alternatives *)

Section Reading.
Context {K : Type} `{DescriptorKey K}.
Implicit Types p : Policy K.

Definition is_key p : bool := match p with Key _ => true | _ => false end.

Definition is_multisig p : bool :=
  match p with Thresh _ subs => all is_key subs | _ => false end.

Fixpoint flatten p : list (Policy K) :=
  match p with
  | Thresh k subs =>
    if (k =? 1)%nat && (1 <? length subs)%nat && negb (all is_key subs)
    then List.concat (List.map flatten subs) else [p]
  | _ => [p]
  end.

(** The first plain key becomes the group, the others go. *)
Fixpoint place_group (group : option (Policy K)) (alternatives : list (Policy K)) : list (Policy K) :=
  match alternatives with
  | [] => []
  | Key _ :: rest =>
    match group with Some g => g :: place_group None rest | None => place_group None rest end
  | other :: rest => other :: place_group group rest
  end.

Definition disjuncts p : list (Policy K) :=
  let alternatives := flatten p in
  let keys := retain is_key alternatives in
  if (length keys <? 2)%nat then alternatives
  else place_group (Some (Thresh 1 keys)) alternatives.

Fixpoint distinct_materials (seen : list string) (subs : list (Policy K)) : bool :=
  match subs with
  | [] => true
  | Key pk :: rest =>
    if bool_decide (material pk ∈ seen) then false else distinct_materials (seen ++ [material pk]) rest
  | _ :: rest => distinct_materials seen rest
  end.

Definition kind_of p : PolicyKind :=
  match p with
  | Key _ => SingleKey
  | Thresh _ subs =>
    if is_multisig p then if distinct_materials [] subs then Multisig else Miniscript else Miniscript
  | _ => Miniscript
  end.

(** The keys in the order of [walk]. *)
Fixpoint walk_keys p : list K :=
  match p with
  | Key pk => [pk]
  | Thresh _ subs => List.concat (List.map walk_keys subs)
  | _ => []
  end.

(** ** Keys *)

Record KeyBook := { keys : list PolicyKey; index : gmap string nat }.

Definition letter (i : nat) : string :=
  if (i <? 26)%nat then String (ascii_of_N (65 + N.of_nat i)) "" else dec (Z.of_nat i + 1).

Definition shorten (text : string) : string :=
  let cs := chars text in
  if (length cs <=? 14)%nat then text
  else of_chars (take 8 cs) +:+ of_chars [0x2026%N] +:+ of_chars (drop (length cs - 6) cs).

Definition describe_key (i : nat) (pk : K) (m : string) : PolicyKey := {|
  pk_id := "k" +:+ dec (Z.of_nat i);
  pk_label := "Key " +:+ letter i;
  pk_fingerprint := Some (master_fingerprint pk);
  pk_origin_path := (fun path => if bool_decide (path = "") then "m" else "m/" +:+ path) <$> origin pk;
  pk_key_short := shorten m |}.

Definition collect_key (book : KeyBook) (pk : K) : KeyBook :=
  let m := material pk in
  match index book !! m with
  | Some _ => book
  | None =>
    let i := length (keys book) in
    {| keys := keys book ++ [describe_key i pk m]; index := <[m := i]> (index book) |}
  end.

Definition collect_book p : KeyBook := foldl collect_key {| keys := []; index := ∅ |} (walk_keys p).

(** [keys[index[material]]]: [None] where the source would panic. *)
Definition key_of (book : KeyBook) (pk : K) : option PolicyKey :=
  match index book !! material pk with Some i => nth_error (keys book) i | None => None end.

Definition label_by_id (book : KeyBook) (id : string) : string :=
  match List.find (fun key => bool_decide (pk_id key = id)) (keys book) with
  | Some key => pk_label key
  | None => id
  end.

(** ** Conditions *)

Definition RELATIVE_TIME_UNIT : Z := 512.
Definition SEQUENCE_VALUE_MASK : Z := 0xFFFF.

(** A consensus value under this is a height; bit 22 of a relative one
    says it counts time. *)
Definition LOCK_TIME_THRESHOLD : Z := 500000000.
Definition is_block_height (lock : Z) : bool := lock <? LOCK_TIME_THRESHOLD.
Definition is_height_locked (lock : Z) : bool := negb (Z.testbit lock 22).

Definition absolute (lock : Z) : AbsoluteLock := if is_block_height lock then AHeight lock else ATime lock.

Definition relative (lock : Z) : RelativeLock :=
  let value := Z.land lock SEQUENCE_VALUE_MASK in
  if is_height_locked lock then RBlocks value else RSeconds (value * RELATIVE_TIME_UNIT).

Definition key_id (book : KeyBook) (pk : K) : string :=
  match key_of book pk with Some key => pk_id key | None => "" end.

Fixpoint condition (book : KeyBook) p : CoreResult Condition :=
  match p with
  | Key pk => Ok (CKey (key_id book pk))
  | After lock => Ok (CAfter (absolute lock))
  | Older lock => Ok (COlder (relative lock))
  | Sha256 _ => Ok (CPreimage "sha256")
  | Hash256 _ => Ok (CPreimage "hash256")
  | Ripemd160 _ => Ok (CPreimage "ripemd160")
  | Hash160 _ => Ok (CPreimage "hash160")
  | Thresh k subs =>
    let? items := collect (List.map (condition book) subs) in
    Ok (CThresh k (length subs) items)
  | Trivial | Unsatisfiable => Err (Internal "a normalized policy still holds a constant")
  end.

Definition key_label (book : KeyBook) (pk : K) : string :=
  match key_of book pk with Some key => pk_label key | None => "" end.

Fixpoint render (book : KeyBook) p : string :=
  match p with
  | Unsatisfiable => "UNSATISFIABLE"
  | Trivial => "TRIVIAL"
  | Key pk => "pk(" +:+ key_label book pk +:+ ")"
  | After lock => "after(" +:+ dec lock +:+ ")"
  | Older lock => "older(" +:+ dec lock +:+ ")"
  | Sha256 hash => "sha256(" +:+ hash +:+ ")"
  | Hash256 hash => "hash256(" +:+ hash +:+ ")"
  | Ripemd160 hash => "ripemd160(" +:+ hash +:+ ")"
  | Hash160 hash => "hash160(" +:+ hash +:+ ")"
  | Thresh k subs =>
    let items := join "," (List.map (render book) subs) in
    if (k =? length subs)%nat then "and(" +:+ items +:+ ")"
    else if (k =? 1)%nat then "or(" +:+ items +:+ ")"
    else "thresh(" +:+ dec (Z.of_nat k) +:+ "," +:+ items +:+ ")"
  end.
End Reading.
Arguments KeyBook : clear implicits.

(** ** What a policy means

    Who signs, which locks are behind, which preimages are known: a
    threshold holds when [k] of its items do. *)

Record Valuation (K : Type) := {
  signs : K -> bool;
  after_met : Z -> bool;
  older_met : Z -> bool;
  known : string -> string -> bool;   (* the hash function, the hash *)
}.
Arguments signs {K} _ _.
Arguments after_met {K} _ _.
Arguments older_met {K} _ _.
Arguments known {K} _ _ _.

Definition count {A} (f : A -> bool) (l : list A) : nat := length (retain f l).

Fixpoint sat {K} (v : Valuation K) (p : Policy K) : bool :=
  match p with
  | Unsatisfiable => false
  | Trivial => true
  | Key pk => signs v pk
  | After lock => after_met v lock
  | Older lock => older_met v lock
  | Sha256 hash => known v "sha256" hash
  | Hash256 hash => known v "hash256" hash
  | Ripemd160 hash => known v "ripemd160" hash
  | Hash160 hash => known v "hash160" hash
  | Thresh k subs => (k <=? length (retain id (List.map (sat v) subs)))%nat
  end.

Lemma count_map {A B} (f : B -> bool) (g : A -> B) l : count f (List.map g l) = count (fun x => f (g x)) l.
Proof.
  unfold count, retain. induction l as [|x l IH]; [done|]. simpl. destruct (f (g x)); simpl; by rewrite ?IH.
Qed.

Lemma count_pos {A} (f : A -> bool) l : (1 <=? count f l)%nat = any f l.
Proof.
  unfold count, retain, any. induction l as [|x l IH]; [done|]. simpl. by destruct (f x).
Qed.

Section Meaning.
Context {K : Type} `{DescriptorKey K} (v : Valuation K).

Lemma sat_thresh k subs : sat v (Thresh k subs) = (k <=? count (sat v) subs)%nat.
Proof. cbn [sat]. change (length (retain ?f ?l)) with (count f l). by rewrite count_map. Qed.

Lemma sat_or subs : sat v (Thresh 1 subs) = any (sat v) subs.
Proof. rewrite sat_thresh. apply count_pos. Qed.

Lemma flatten_sat p : any (sat v) (flatten p) = sat v p.
Proof.
  induction p as [p Hp|k subs IH] using Policy_rect'.
  - destruct p; try (unfold any; simpl; by rewrite ?orb_false_r). by edestruct Hp.
  - cbn [flatten]. destruct ((k =? 1)%nat && _ && _) eqn:E; [|unfold any; simpl; by rewrite orb_false_r].
    apply andb_true_iff in E as [E _]. apply andb_true_iff in E as [E%Nat.eqb_eq _]. subst k.
    rewrite sat_or, any_concat, any_map. apply any_ext_in. intros x Hx.
    rewrite List.Forall_forall in IH. by apply IH.
Qed.

(** Once the group is placed, no plain key is left. *)
Lemma place_group_None (l : list (Policy K)) : place_group None l = retain (fun p => negb (is_key p)) l.
Proof. induction l as [|p l IH]; [done|]. unfold retain in *. destruct p; simpl; by rewrite IH. Qed.

Lemma place_group_any (g : Policy K) l : any is_key l = true ->
  any (sat v) (place_group (Some g) l) = sat v g || any (sat v) (retain (fun p => negb (is_key p)) l).
Proof.
  induction l as [|p l IH]; [done|]. intros Hl.
  assert (Hk : (exists pk, p = Key pk) \/ is_key p = false) by (destruct p; eauto).
  destruct Hk as [[pk ->]|Hk].
  - cbn [place_group]. unfold any in *. cbn [existsb retain List.filter is_key negb]. by rewrite place_group_None.
  - assert (Hp : place_group (Some g) (p :: l) = p :: place_group (Some g) l) by by destruct p.
    rewrite Hp. unfold any, retain in *. cbn [existsb List.filter] in *. rewrite Hk in *.
    cbn [negb existsb]. rewrite IH by done. rewrite !orb_assoc. f_equal. apply orb_comm.
Qed.

Lemma retain_split (f g : Policy K -> bool) l :
  any g l = any g (retain f l) || any g (retain (fun p => negb (f p)) l).
Proof.
  unfold any, retain. induction l as [|p l IH]; [done|]. simpl. rewrite IH.
  destruct (f p); simpl; [by rewrite orb_assoc|]. by rewrite !orb_assoc, (orb_comm (g p)).
Qed.

(** The alternatives spend exactly as the policy does. *)
Lemma disjuncts_sat p : any (sat v) (disjuncts p) = sat v p.
Proof.
  unfold disjuncts. rewrite <- (flatten_sat p). set (l := flatten p). clearbody l.
  destruct (Nat.ltb_spec (length (retain is_key l)) 2) as [|Hl]; [done|].
  rewrite place_group_any.
  - rewrite sat_or. symmetry. apply retain_split.
  - rewrite <- count_pos. unfold count. apply Nat.leb_le. lia.
Qed.
End Meaning.

(** At most one alternative is a lone key, and then it is the only plain
    key of the outer "or": all the others are read together. *)
Lemma disjuncts_one_key {K} (p : Policy K) : (count is_key (disjuncts p) <= 1)%nat.
Proof.
  unfold disjuncts. set (l := flatten p). clearbody l.
  destruct (Nat.ltb_spec (length (retain is_key l)) 2) as [Hl|_]; [unfold count; lia|].
  generalize (retain is_key l). intros ks.
  assert (Hnone : forall l, count is_key (place_group (K := K) None l) = 0%nat).
  { clear. intros l. induction l as [|p l IH]; [done|]. destruct p; cbn [place_group]; unfold count, retain in *; simpl; done. }
  induction l as [|q l IH]; [unfold count; simpl; lia|].
  destruct q; cbn [place_group]; unfold count, retain in *; simpl; try done. specialize (Hnone l). lia.
Qed.

(** ** The book *)

Lemma letter_inj i j : letter i = letter j -> i = j.
Proof.
  unfold letter. destruct (Nat.ltb_spec i 26), (Nat.ltb_spec j 26).
  - intros [= E]. apply (f_equal N_of_ascii) in E. rewrite !N_ascii_embedding in E by lia. lia.
  - intros E. exfalso. pose proof (dec_digits (Z.of_nat j + 1) ltac:(lia)) as Hd. rewrite <- E in Hd.
    cbn [str_all] in Hd. unfold is_digit, byte_of in Hd. rewrite N_ascii_embedding in Hd by lia. lia.
  - intros E. exfalso. pose proof (dec_digits (Z.of_nat i + 1) ltac:(lia)) as Hd. rewrite E in Hd.
    cbn [str_all] in Hd. unfold is_digit, byte_of in Hd. rewrite N_ascii_embedding in Hd by lia. lia.
  - intros E. apply dec_inj in E; lia.
Qed.

Lemma append_inj (p s t : string) : p +:+ s = p +:+ t -> s = t.
Proof. induction p as [|a p IH]; simpl; [done|]. intros [= E]. auto. Qed.

Section Book.
Context {K : Type} `{DescriptorKey K}.

(** Each entry is named after its place; each material has one place. *)
Record wf_book (b : KeyBook) : Prop := {
  wb_entry : forall i key, nth_error (keys b) i = Some key ->
    pk_id key = "k" +:+ dec (Z.of_nat i) /\ pk_label key = "Key " +:+ letter i;
  wb_index : forall m i, index b !! m = Some i -> (i < length (keys b))%nat;
  wb_inj : forall m m' i, index b !! m = Some i -> index b !! m' = Some i -> m = m';
}.

Lemma collect_key_wf b pk : wf_book b -> wf_book (collect_key b pk)
  /\ is_Some (index (collect_key b pk) !! material pk)
  /\ (forall m i, index b !! m = Some i -> index (collect_key b pk) !! m = Some i).
Proof.
  intros [H1 H2 H3]. unfold collect_key. destruct (index b !! material pk) as [i|] eqn:E.
  { split; [done|]. split; [by rewrite E|done]. }
  split; [|split].
  - split; cbn [keys index].
    + intros i key Hi. destruct (Nat.lt_ge_cases i (length (keys b))).
      * rewrite nth_error_app1 in Hi by done. auto.
      * rewrite nth_error_app2 in Hi by done. destruct (i - length (keys b))%nat as [|n] eqn:En; [|by destruct n].
        injection Hi as <-. replace i with (length (keys b)) by lia. done.
    + intros m i. rewrite length_app. simpl. destruct (decide (m = material pk)) as [->|Hm].
      * rewrite lookup_insert_eq. intros [= <-]. lia.
      * rewrite lookup_insert_ne by done. intros Hi. apply H2 in Hi. lia.
    + intros m m' i. destruct (decide (m = material pk)) as [->|Hm], (decide (m' = material pk)) as [->|Hm'];
        rewrite ?lookup_insert_eq, ?lookup_insert_ne by done; [done|..|apply H3].
      * intros [= <-] Hi. apply H2 in Hi. lia.
      * intros Hi [= <-]. apply H2 in Hi. lia.
  - cbn [index]. rewrite lookup_insert_eq. eauto.
  - intros m i Hi. cbn [index]. rewrite lookup_insert_ne; [done|]. intros <-. congruence.
Qed.

Lemma collect_keys_wf pks : forall b, wf_book b ->
  wf_book (foldl collect_key b pks)
  /\ (forall pk, In pk pks -> is_Some (index (foldl collect_key b pks) !! material pk))
  /\ (forall m i, index b !! m = Some i -> index (foldl collect_key b pks) !! m = Some i).
Proof.
  induction pks as [|pk pks IH]; intros b Hb; simpl; [done|].
  destruct (collect_key_wf b pk Hb) as (Hb' & [i Hi] & Hk). destruct (IH _ Hb') as (H1 & H2 & H3).
  split; [done|]. split; [|auto]. intros x [<-|Hx]; eauto.
Qed.

Lemma collect_book_wf p : wf_book (collect_book p).
Proof. apply collect_keys_wf. split; [by intros []|done|done]. Qed.

Lemma key_of_place b pk i : wf_book b -> index b !! material pk = Some i ->
  key_id b pk = "k" +:+ dec (Z.of_nat i) /\ key_label b pk = "Key " +:+ letter i
  /\ is_Some (key_of b pk).
Proof.
  intros Hb Hi. unfold key_id, key_label, key_of. rewrite Hi. pose proof (wb_index b Hb _ _ Hi) as Hl.
  destruct (nth_error (keys b) i) as [key|] eqn:E; [|by apply nth_error_None in E; lia].
  destruct (wb_entry b Hb i key E) as [-> ->]. eauto.
Qed.

Lemma label_by_id_place b i : wf_book b -> (i < length (keys b))%nat ->
  label_by_id b ("k" +:+ dec (Z.of_nat i)) = "Key " +:+ letter i.
Proof.
  intros Hb Hi. unfold label_by_id. destruct (List.find _ (keys b)) as [key|] eqn:E.
  - apply List.find_some in E as [Hin E]. apply bool_decide_eq_true in E.
    apply In_nth_error in Hin as [j Hj]. destruct (wb_entry b Hb j key Hj) as [E1 ->].
    rewrite E1 in E. apply append_inj, dec_inj in E; [|lia..]. by replace j with i by lia.
  - exfalso. destruct (nth_error (keys b) i) as [key|] eqn:Ek; [|by apply nth_error_None in Ek; lia].
    pose proof (List.find_none _ _ E key (nth_error_In _ _ Ek)) as Hn.
    apply bool_decide_eq_false in Hn. destruct (wb_entry b Hb i key Ek) as [? _]. done.
Qed.

(** The book of a policy names its keys rightly. Every key of the
    policy has an entry (looking one up never fails), two keys share
    their id, and their label, exactly when they are the same material
    whatever their paths, and the label found back by the id is the
    key's own, past the twenty-sixth key too. *)
Theorem book_names_keys p a b :
  In a (walk_keys p) -> In b (walk_keys p) ->
  let book := collect_book p in
  is_Some (key_of book a)
  /\ (key_id book a = key_id book b <-> material a = material b)
  /\ (key_label book a = key_label book b <-> material a = material b)
  /\ label_by_id book (key_id book a) = key_label book a.
Proof.
  intros Ha Hb book. pose proof (collect_book_wf p) as Hw. fold book in Hw.
  destruct (collect_keys_wf (walk_keys p) {| keys := []; index := ∅ |}) as (_ & Hs & _).
  { split; [by intros []|done|done]. }
  destruct (Hs a Ha) as [i Hi], (Hs b Hb) as [j Hj].
  change (foldl collect_key {| keys := []; index := ∅ |} (walk_keys p)) with book in Hi, Hj.
  destruct (key_of_place book a i Hw Hi) as (Ei & Li & Hk). destruct (key_of_place book b j Hw Hj) as (Ej & Lj & _).
  assert (Hij : i = j <-> material a = material b).
  { split; [intros <-; by eapply wb_inj|intros E; congruence]. }
  split; [done|]. rewrite Ei, Ej, Li, Lj. split_and!.
  - rewrite <- Hij. split; [|by intros ->]. intros E. apply append_inj, dec_inj in E; lia.
  - rewrite <- Hij. split; [|by intros ->]. intros E. by apply append_inj, letter_inj in E.
  - apply label_by_id_place; [done|]. by eapply wb_index.
Qed.
End Book.

(** Keys of the examples: the material, then the path. *)
#[export] Instance demo_key : DescriptorKey (string * string) := {|
  material pk := pk.1; master_fingerprint pk := "00000000"; origin pk := Some pk.2 |}.

Lemma book_names_keys_witness :
  let p := Thresh 2 [Key ("xpubA", "0"); Key ("xpubB", "0"); Key ("xpubA", "1")] in
  key_label (collect_book p) ("xpubB", "0") = "Key B"
  /\ (key_id (collect_book p) ("xpubA", "0") = key_id (collect_book p) ("xpubA", "1") <->
      material ("xpubA", "0") = material ("xpubA", "1")).
Proof.
  intros p. split; [vm_compute; reflexivity|].
  apply (book_names_keys p ("xpubA", "0") ("xpubA", "1")); simpl; auto.
Defined.
