(* ===== verification/PolicyEval.v ===== *)
(** [wallet/policy.rs], the evaluation: where each lock stands against the
    chain and the coins, what a branch still needs, and which of its locks
    hold it back. *)
From S2P Require Import Prelude PolicyModel.

Definition BLOCK_SECONDS : Z := 600.
Definition CLOSE_SECONDS : Z := 30 * 86400.

(** The chain as the analysis sees it: the tip, [None] before the first
    sync, and the wall clock. *)
Record Clock := { tip : option Z; now : Z }.

Record Remaining := {
  remaining_blocks : option Z;
  remaining_seconds : option Z;
  unlocks_at_unix : option Z;
}.

Definition default_remaining : Remaining :=
  {| remaining_blocks := None; remaining_seconds := None; unlocks_at_unix := None |}.

Inductive LockState :=
| LUnlocked
| LLocked (until : Remaining)
| LPerCoin (unlocked waiting locked : Z) (next : option Remaining)
| LNoCoins (blocks seconds : option Z).

Record Timelock := { tl_lock : Lock; required : bool; tl_state : LockState }.

Inductive BranchState :=
| SpendableNow
| BLocked (until : Remaining)
| BPerCoin (unlocked waiting locked : Z) (next : option Remaining)
| BNoCoins
| NeedsPreimage.

Inductive BranchTone := ToneConfirmed | TonePending | ToneNeutral.

(** [Remaining::tone] and [BranchState::tone]. *)
Definition remaining_tone (r : Remaining) : BranchTone :=
  match remaining_seconds r with
  | Some seconds => if seconds <? CLOSE_SECONDS then TonePending else ToneNeutral
  | None => ToneNeutral
  end.

Definition tone (s : BranchState) : BranchTone :=
  match s with
  | SpendableNow => ToneConfirmed
  | BLocked until => remaining_tone until
  | BPerCoin unlocked waiting locked next =>
    if (locked =? 0) && (waiting =? 0) && (unlocked >? 0) then ToneConfirmed
    else match next with Some next => remaining_tone next | None => ToneNeutral end
  | BNoCoins | NeedsPreimage => ToneNeutral
  end.

(** [Lock::magnitude]. *)
Definition magnitude (clock : Clock) (lock : Lock) : Z :=
  match lock with
  | Absolute (AHeight height) => sat_sub height (unwrap_or (tip clock) 0) * BLOCK_SECONDS
  | Absolute (ATime unix) => sat_sub unix (now clock)
  | Relative (RBlocks blocks) => blocks * BLOCK_SECONDS
  | Relative (RSeconds seconds) => seconds
  end.

(** [Remaining::blocks] and [Remaining::seconds]. *)
Definition blocks_left (blocks now : Z) : Remaining :=
  let seconds := blocks * BLOCK_SECONDS in
  {| remaining_blocks := Some blocks; remaining_seconds := Some seconds;
     unlocks_at_unix := Some (sat_add_u64 now seconds) |}.

Definition seconds_left (seconds unlocks_at : Z) : Remaining :=
  {| remaining_blocks := None; remaining_seconds := Some seconds; unlocks_at_unix := Some unlocks_at |}.

(** A rank, compared as the pair it is. *)
Definition rank_le (a b : Z * Z) : bool := (a.1 <? b.1) || ((a.1 =? b.1) && (a.2 <=? b.2)).

Definition remaining_rank (r : Remaining) : Z * Z :=
  match remaining_seconds r with Some seconds => (0, seconds) | None => (1, 0) end.

Definition sooner (r other : Remaining) : Remaining :=
  if negb (rank_le (remaining_rank r) (remaining_rank other)) then other else r.

(** [AbsoluteLock::remaining]. *)
Definition remaining (clock : Clock) (lock : AbsoluteLock) : option Remaining :=
  match lock with
  | AHeight height =>
    match tip clock with
    | None => Some default_remaining
    | Some tip => if tip >=? height then None else Some (blocks_left (height - tip) (now clock))
    end
  | ATime unix => if now clock >=? unix then None else Some (seconds_left (unix - now clock) unix)
  end.

Inductive CoinLock := Unlocked | Waiting | Locked (r : Remaining).

(** [RelativeLock::on_coin]. *)
Definition on_coin (clock : Clock) (lock : RelativeLock) (coin : Coin) : CoinLock :=
  match height coin with
  | None => Waiting
  | Some height =>
    match lock with
    | RBlocks blocks =>
      match tip clock with
      | None => Locked default_remaining
      | Some tip =>
        let waited := sat_add_u32 (sat_sub tip height) 1 in
        if waited >=? blocks then Unlocked else Locked (blocks_left (blocks - waited) (now clock))
      end
    | RSeconds seconds =>
      match timestamp coin with
      | None => Waiting
      | Some since =>
        let waited := sat_sub (now clock) since in
        if waited >=? seconds then Unlocked
        else Locked (seconds_left (seconds - waited) (sat_add_u64 since seconds))
      end
    end
  end.

Record Tally := { t_unlocked : Z; t_waiting : Z; t_locked : Z; t_next : option Remaining }.

Definition default_tally : Tally := {| t_unlocked := 0; t_waiting := 0; t_locked := 0; t_next := None |}.

(** [Tally::add]; the counters are [u32], and a wallet holds fewer coins. *)
Definition add (t : Tally) (state : CoinLock) : Tally :=
  match state with
  | Unlocked => {| t_unlocked := t_unlocked t + 1; t_waiting := t_waiting t; t_locked := t_locked t; t_next := t_next t |}
  | Waiting => {| t_unlocked := t_unlocked t; t_waiting := t_waiting t + 1; t_locked := t_locked t; t_next := t_next t |}
  | Locked r =>
    {| t_unlocked := t_unlocked t; t_waiting := t_waiting t; t_locked := t_locked t + 1;
       t_next := Some (match t_next t with Some next => sooner next r | None => r end) |}
  end.

Definition tally (states : list CoinLock) : Tally := foldl add default_tally states.

Definition lock_state (coins : list Coin) (clock : Clock) (lock : Lock) : LockState :=
  match lock with
  | Absolute lock => match remaining clock lock with None => LUnlocked | Some until => LLocked until end
  | Relative lock =>
    match coins with
    | [] =>
      match lock with
      | RBlocks blocks => LNoCoins (Some blocks) None
      | RSeconds seconds => LNoCoins None (Some seconds)
      end
    | _ =>
      let t := tally (List.map (on_coin clock lock) coins) in
      LPerCoin (t_unlocked t) (t_waiting t) (t_locked t) (t_next t)
    end
  end.

(** ** Estimates *)

Inductive Estimate :=
| EOpen
| ELater (r : Remaining)
| EWaiting
| ENoCoins
| ENever.

Definition rank (e : Estimate) : Z * Z :=
  match e with
  | EOpen => (0, 0)
  | ELater r => let '(unknown, seconds) := remaining_rank r in (1 + unknown, seconds)
  | EWaiting => (3, 0)
  | ENoCoins => (4, 0)
  | ENever => (5, 0)
  end.

Definition est_le (a b : Estimate) : bool := rank_le (rank a) (rank b).
Definition est_eq (a b : Estimate) : bool := bool_decide (rank a = rank b).

(** [fold]: a threshold takes the k-th smallest of its items. *)
Fixpoint fold {T} (leb : T -> T -> bool) (leaf : Condition -> T) (c : Condition) : T :=
  match c with
  | CThresh k _ items =>
    let values := sort_by leb (List.map (fold leb leaf) items) in
    match nth_error values (Nat.min (k - 1) (length values - 1)) with
    | Some value => value
    | None => leaf c
    end
  | _ => leaf c
  end.

Inductive Lens := NoCoin (e : Estimate) | OnCoin (coin : Coin).

(** What a leaf answers through a lens. *)
Definition leaf_estimate (lens : Lens) (clock : Clock) (leaf : Condition) : Estimate :=
  match leaf with
  | CKey _ => EOpen
  | CPreimage _ => ENever
  | CThresh _ _ _ => EOpen
  | CAfter lock => match remaining clock lock with None => EOpen | Some r => ELater r end
  | COlder lock =>
    match lens with
    | NoCoin e => e
    | OnCoin coin =>
      match on_coin clock lock coin with
      | Unlocked => EOpen
      | Waiting => EWaiting
      | Locked r => ELater r
      end
    end
  end.

Definition estimate (c : Condition) (lens : Lens) (clock : Clock) : Estimate :=
  fold est_le (leaf_estimate lens clock) c.

Fixpoint collect_locks (c : Condition) : list Lock :=
  match c with
  | CAfter lock => [Absolute lock]
  | COlder lock => [Relative lock]
  | CThresh _ _ items => List.concat (List.map collect_locks items)
  | CKey _ | CPreimage _ => []
  end.

Inductive Shape := Met | Unmet | Turns.

#[export] Instance Shape_eq_dec : EqDecision Shape.
Proof. solve_decision. Defined.

Definition is_shape (s s' : Shape) : bool :=
  match s, s' with Met, Met | Unmet, Unmet | Turns, Turns => true | _, _ => false end.

Fixpoint shape (c : Condition) : Shape :=
  match c with
  | CKey _ => Met
  | CAfter _ | COlder _ | CPreimage _ => Turns
  | CThresh k _ items =>
    let shapes := List.map shape items in
    match shapes with
    | [] => Met
    | _ =>
      let met := count (is_shape Met) shapes in
      let turns := count (is_shape Turns) shapes in
      if (k <=? met)%nat then Met else if (met + turns <? k)%nat then Unmet else Turns
    end
  end.

(** The loop of [down] over the items of a threshold: it stops at the
    first that answers; [before] are the items gone by. *)
Definition items_down (down : Condition -> nat -> option bool * nat) (k : nat)
  : list Condition -> list Condition -> nat -> option bool * nat :=
  fix go before items seen :=
    match items with
    | [] => (None, seen)
    | item :: after =>
      match down item seen with
      | (None, seen) => go (before ++ [item]) after seen
      | (Some below, seen) =>
        let met := count (fun c => is_shape Met (shape c)) (before ++ after) in
        let turns := count (fun c => is_shape Turns (shape c)) (before ++ after) in
        let needed := (k - 1)%nat in
        (Some (below && (met <=? needed)%nat && (needed <=? met + turns)%nat), seen)
      end
    end.

(** [down]: the answer once the lock is found, and the locks seen so
    far. *)
Fixpoint down (position : nat) (c : Condition) (seen : nat) : option bool * nat :=
  match c with
  | CAfter _ | COlder _ => (if (seen =? position)%nat then Some true else None, S seen)
  | CKey _ | CPreimage _ => (None, seen)
  | CThresh k _ items => items_down (down position) k [] items seen
  end.

Definition holds_back (c : Condition) (position : nat) : bool := unwrap_or (down position c 0).1 false.

Fixpoint has_key (c : Condition) : bool :=
  match c with
  | CKey _ => true
  | CThresh _ _ items => any has_key items
  | CAfter _ | COlder _ | CPreimage _ => false
  end.

Definition leaf_distance (clock : Clock) (leaf : Condition) : Z :=
  match leaf with
  | CKey _ | CThresh _ _ _ => 0
  | CAfter lock => magnitude clock (Absolute lock)
  | COlder lock => magnitude clock (Relative lock)
  | CPreimage _ => u64_max
  end.

Definition distance (c : Condition) (clock : Clock) : Z := fold Z.leb (leaf_distance clock) c.

(** What one coin comes to for a branch. *)
Definition coin_state (c : Condition) (clock : Clock) (coin : Coin) : CoinLock :=
  match estimate c (OnCoin coin) clock with
  | EOpen => Unlocked
  | ELater r => Locked r
  | EWaiting | ENoCoins | ENever => Waiting
  end.

Definition branch_state (c : Condition) (coins : list Coin) (clock : Clock) : BranchState :=
  let worst := estimate c (NoCoin ENoCoins) clock in
  let best := estimate c (NoCoin EOpen) clock in
  let over_coins :=
    match coins with
    | [] => BNoCoins
    | _ => let t := tally (List.map (coin_state c clock) coins) in
           BPerCoin (t_unlocked t) (t_waiting t) (t_locked t) (t_next t)
    end in
  match worst with
  | ENever => NeedsPreimage
  | EOpen => SpendableNow
  | ELater until => if est_eq best worst then BLocked until else over_coins
  | _ => over_coins
  end.

Example branch_ex :
  branch_state (CThresh 2 2 [CKey "k0"; COlder (RBlocks 10)])
    [{| outpoint := "a:0"; value_sats := 1; height := Some 100; timestamp := None |};
     {| outpoint := "b:0"; value_sats := 1; height := Some 108; timestamp := None |};
     {| outpoint := "c:0"; value_sats := 1; height := None; timestamp := None |}]
    {| tip := Some 109; now := 0 |}
  = BPerCoin 1 1 1 (Some (blocks_left 8 0)).
Proof. reflexivity. Qed.

(** ** Thresholds *)

Definition yes (b : bool) : bool := b.

(** As miniscript writes them: as many items as said, at least one asked
    for, no more than there are. *)
Fixpoint wf_condition (c : Condition) : bool :=
  match c with
  | CThresh k n items =>
    (1 <=? k)%nat && (k <=? length items)%nat && (n =? length items)%nat && forallb wf_condition items
  | _ => true
  end.

(** What a condition comes to when each of its leaves holds or not. *)
Fixpoint csat (f : Condition -> bool) (c : Condition) : bool :=
  match c with
  | CThresh k _ items => (k <=? count yes (List.map (csat f) items))%nat
  | _ => f c
  end.

Lemma csat_thresh f k n items : csat f (CThresh k n items) = (k <=? count (csat f) items)%nat.
Proof. cbn [csat]. by rewrite count_map. Qed.

Lemma count_perm {A} (f : A -> bool) l l' : l ≡ₚ l' -> count f l = count f l'.
Proof.
  unfold count, retain. induction 1; simpl; [done|..].
  - destruct (f x); simpl; lia.
  - destruct (f x), (f y); simpl; lia.
  - lia.
Qed.

Lemma count_ext_in {A} (f g : A -> bool) l : (forall x, In x l -> f x = g x) -> count f l = count g l.
Proof.
  unfold count, retain. intros H. induction l as [|x l IH]; simpl; [done|].
  rewrite (H x) by (by left). specialize (IH ltac:(intros; apply H; by right)). destruct (g x); simpl; by rewrite ?IH.
Qed.

Lemma count_mono {A} (f g : A -> bool) l : (forall x, In x l -> f x = true -> g x = true) -> (count f l <= count g l)%nat.
Proof.
  unfold count, retain. intros H. induction l as [|x l IH]; simpl; [done|].
  specialize (IH ltac:(intros; apply H; [by right|done])).
  destruct (f x) eqn:E; [rewrite (H x (or_introl eq_refl) E); simpl; lia|]. destruct (g x); simpl; lia.
Qed.

Lemma count_app {A} (f : A -> bool) l1 l2 : count f (l1 ++ l2) = (count f l1 + count f l2)%nat.
Proof. unfold count. by rewrite retain_app, length_app. Qed.

Lemma count_le {A} (f : A -> bool) l : (count f l <= length l)%nat.
Proof. apply retain_length. Qed.

Lemma wf_thresh k n items : wf_condition (CThresh k n items) = true <->
  (1 <= k <= length items)%nat /\ n = length items /\ forall c, In c items -> wf_condition c = true.
Proof.
  cbn [wf_condition]. rewrite !andb_true_iff, !Nat.leb_le, Nat.eqb_eq, forallb_forall. tauto.
Qed.

(** Conditions that differ in no leaf's truth differ in nothing; more
    leaves met, more conditions met. *)
Lemma csat_mono f g c : (forall x, f x = true -> g x = true) -> csat f c = true -> csat g c = true.
Proof.
  intros Hfg. induction c as [c Hc|k n items IH] using Condition_rect'.
  - destruct c; try apply Hfg. by edestruct Hc.
  - rewrite !csat_thresh, !Nat.leb_le. rewrite List.Forall_forall in IH. intros H.
    etransitivity; [exact H|]. apply count_mono. intros x Hx. by apply IH.
Qed.

Lemma csat_ext f g c : (forall x, f x = g x) -> csat f c = csat g c.
Proof.
  intros Hfg. apply eq_true_iff_eq. split; apply csat_mono; intros x; by rewrite Hfg.
Qed.

Section KthSmallest.
Context {T : Type} (leb : T -> T -> bool).
Context (total : forall x y, leb x y = true \/ leb y x = true).
Context (trans : forall x y z, leb x y = true -> leb y z = true -> leb x z = true).

(** In a sorted list the values up to [t] come first, so the k-th is
    among them exactly when there are k of them. *)
Lemma kth_sorted l t i v : StronglySorted (fun a b => leb a b = true) l -> nth_error l i = Some v ->
  leb v t = true <-> (S i <= count (fun x => leb x t) l)%nat.
Proof.
  intros Hs. revert i. unfold count, retain. induction Hs as [|x l Hs IH Hx]; intros i Hi; [by destruct i|].
  rewrite List.Forall_forall in Hx. destruct i as [|i]; simpl in Hi.
  - injection Hi as <-. simpl. destruct (leb x t) eqn:E; simpl; [split; [lia|done]|].
    split; [done|]. intros Hc. destruct (List.filter _ l) as [|y r] eqn:Ef; [simpl in Hc; lia|].
    assert (In y (List.filter (fun x => leb x t) l)) as Hy by (rewrite Ef; by left).
    apply List.filter_In in Hy as [Hy Hyt]. assert (leb x t = true) by eauto. congruence.
  - rewrite (IH i Hi). simpl. destruct (leb x t) eqn:E; simpl; [lia|]. split; [|lia]. intros Hc.
    assert (v_in : In v l) by (by eapply nth_error_In).
    assert (leb v t = true) by (by apply IH in Hc).
    assert (leb x t = true) by eauto. congruence.
Qed.

(** The rule of [fold]: the value of a condition is at most [t] exactly
    when the condition holds of the leaves whose value is at most [t]. *)
Lemma fold_meets leaf c t : wf_condition c = true ->
  leb (fold leb leaf c) t = csat (fun x => leb (leaf x) t) c.
Proof.
  induction c as [c Hc|k n items IH] using Condition_rect'; intros Hw.
  - destruct c; try done. by edestruct Hc.
  - apply wf_thresh in Hw as (Hk & _ & Hw). rewrite csat_thresh. cbn [fold].
    set (values := sort_by leb _).
    assert (Hl : length values = length items) by (subst values; by rewrite sort_by_length, List.length_map).
    rewrite Hl. replace (Nat.min (k - 1) (length items - 1)) with (k - 1)%nat by lia.
    destruct (nth_error values (k - 1)) as [v|] eqn:E; [|apply nth_error_None in E; lia].
    apply eq_true_iff_eq. rewrite (kth_sorted values t (k - 1) v), Nat.leb_le; [|by apply sort_by_sorted|done].
    replace (S (k - 1)) with k by lia. subst values. rewrite (count_perm _ _ _ (sort_by_perm leb _)), count_map.
    erewrite count_ext_in; [done|]. intros x Hx. rewrite List.Forall_forall in IH. auto.
Qed.
End KthSmallest.

Lemma rank_le_total a b : rank_le a b = true \/ rank_le b a = true.
Proof. unfold rank_le. lia. Qed.

Lemma rank_le_trans a b c : rank_le a b = true -> rank_le b c = true -> rank_le a c = true.
Proof. unfold rank_le. lia. Qed.

Lemma rank_le_antisym a b : rank_le a b = true -> rank_le b a = true -> a = b.
Proof. destruct a, b. unfold rank_le. simpl. intros. f_equal; lia. Qed.

Lemma est_le_total a b : est_le a b = true \/ est_le b a = true.
Proof. apply rank_le_total. Qed.

Lemma est_le_trans a b c : est_le a b = true -> est_le b c = true -> est_le a c = true.
Proof. apply rank_le_trans. Qed.

Lemma est_le_refl a : est_le a a = true.
Proof. destruct (est_le_total a a); done. Qed.

Lemma estimate_meets c lens clock t : wf_condition c = true ->
  est_le (estimate c lens clock) t = csat (fun x => est_le (leaf_estimate lens clock x) t) c.
Proof. apply fold_meets; [apply est_le_total|apply est_le_trans]. Qed.

Lemma estimate_mono c lens lens' clock : wf_condition c = true ->
  (forall x, est_le (leaf_estimate lens clock x) (leaf_estimate lens' clock x) = true) ->
  est_le (estimate c lens clock) (estimate c lens' clock) = true.
Proof.
  intros Hw Hl. rewrite estimate_meets by done.
  apply (csat_mono (fun x => est_le (leaf_estimate lens' clock x) (estimate c lens' clock))).
  - intros x Hx. eapply est_le_trans; [apply Hl|done].
  - rewrite <- estimate_meets by done. apply est_le_refl.
Qed.

(** The reading of a branch. At every deadline, from now to never, the
    estimate of a condition is within it exactly when the condition holds
    of the leaves whose own estimate is: [k] items of every threshold,
    all the way down. So an "and" waits for its last lock, an "or" for its
    first, and a threshold for the k-th soonest; and the distance the
    roles are ranked by follows the same rule. *)
Theorem estimate_is_the_policy c lens clock :
  wf_condition c = true ->
  (forall t, est_le (estimate c lens clock) t = csat (fun leaf => est_le (leaf_estimate lens clock leaf) t) c)
  /\ (forall seconds, (distance c clock <=? seconds) = csat (fun leaf => leaf_distance clock leaf <=? seconds) c).
Proof.
  intros Hw. split; intros t; [by apply estimate_meets|].
  apply (fold_meets Z.leb); [lia|lia|done].
Qed.

Lemma estimate_is_the_policy_witness :
  let c := CThresh 3 4 [CKey "k0"; CKey "k1"; COlder (RBlocks 10); COlder (RBlocks 20)] in
  wf_condition c = true
  /\ (distance c {| tip := None; now := 0 |} <=? 6000)
     = csat (fun leaf => leaf_distance {| tip := None; now := 0 |} leaf <=? 6000) c.
Proof.
  intros c. split; [reflexivity|].
  exact (proj2 (estimate_is_the_policy c (NoCoin EOpen) {| tip := None; now := 0 |} eq_refl) 6000).
Defined.

(** ** Branch states *)

(** What holds now: the keys at hand, no preimage, an absolute lock the
    chain has passed, a relative one as [older] says. *)
Definition open_leaf (clock : Clock) (older : RelativeLock -> bool) (leaf : Condition) : bool :=
  match leaf with
  | CKey _ | CThresh _ _ _ => true
  | CPreimage _ => false
  | CAfter lock => match remaining clock lock with None => true | Some _ => false end
  | COlder lock => older lock
  end.

Definition unlocked_on (clock : Clock) (coin : Coin) (lock : RelativeLock) : bool :=
  match on_coin clock lock coin with Unlocked => true | _ => false end.

(** The branch can spend this coin now, with its keys alone. *)
Definition spends_now (c : Condition) (clock : Clock) (coin : Coin) : bool :=
  csat (open_leaf clock (unlocked_on clock coin)) c.

Definition is_preimage (leaf : Condition) : bool := match leaf with CPreimage _ => true | _ => false end.

Lemma est_le_open e : est_le e EOpen = match e with EOpen => true | _ => false end.
Proof.
  destruct e as [|r| | |]; try done. unfold est_le, rank_le, rank, remaining_rank.
  destruct (remaining_seconds r); simpl; lia.
Qed.

Lemma est_le_nocoins e : est_le e ENoCoins = match e with ENever => false | _ => true end.
Proof.
  destruct e as [|r| | |]; try done. unfold est_le, rank_le, rank, remaining_rank.
  destruct (remaining_seconds r); simpl; lia.
Qed.

Lemma est_le_waiting e : est_le e EWaiting = match e with ENever | ENoCoins => false | _ => true end.
Proof.
  destruct e as [|r| | |]; try done. unfold est_le, rank_le, rank, remaining_rank.
  destruct (remaining_seconds r); simpl; lia.
Qed.

Lemma estimate_open c lens clock older : wf_condition c = true ->
  (forall lock, match leaf_estimate lens clock (COlder lock) with EOpen => true | _ => false end = older lock) ->
  match estimate c lens clock with EOpen => true | _ => false end = csat (open_leaf clock older) c.
Proof.
  intros Hw Ho. rewrite <- est_le_open, estimate_meets by done. apply csat_ext. intros x. rewrite est_le_open.
  destruct x; try done; simpl. by destruct (remaining clock lock).
Qed.

(** Every coin reads between the two readings with no coin. *)
Lemma coin_between c coin clock : wf_condition c = true ->
  est_le (estimate c (NoCoin EOpen) clock) (estimate c (OnCoin coin) clock) = true
  /\ est_le (estimate c (OnCoin coin) clock) (estimate c (NoCoin ENoCoins) clock) = true.
Proof.
  intros Hw. split; apply estimate_mono; try done; intros x; destruct x; try apply est_le_refl; simpl.
  - destruct (on_coin clock lock coin); try done. unfold est_le, rank_le, rank, remaining_rank.
    destruct (remaining_seconds r); simpl; lia.
  - rewrite est_le_nocoins. by destruct (on_coin clock lock coin).
Qed.

Lemma worst_never c clock : wf_condition c = true ->
  match estimate c (NoCoin ENoCoins) clock with ENever => false | _ => true end = csat (fun x => negb (is_preimage x)) c.
Proof.
  intros Hw. rewrite <- est_le_nocoins, estimate_meets by done. apply csat_ext. intros x. rewrite est_le_nocoins.
  destruct x; try done. simpl. by destruct (remaining clock lock).
Qed.

(** Over a coin, the two estimates no coin can give do not come out. *)
Lemma coin_estimate_plain c coin clock : wf_condition c = true ->
  csat (fun x => negb (is_preimage x)) c = true ->
  estimate c (OnCoin coin) clock <> ENever /\ estimate c (OnCoin coin) clock <> ENoCoins.
Proof.
  intros Hw Hp. assert (est_le (estimate c (OnCoin coin) clock) EWaiting = true) as H.
  { rewrite estimate_meets by done. rewrite <- Hp. apply csat_ext. intros x. rewrite est_le_waiting.
    destruct x; try done; simpl; [by destruct (remaining clock lock)|by destruct (on_coin clock lock coin)]. }
  rewrite est_le_waiting in H. by destruct (estimate c (OnCoin coin) clock).
Qed.

(** ** Tallies *)

Definition is_unlocked (s : CoinLock) : bool := match s with Unlocked => true | _ => false end.
Definition is_waiting_coin (s : CoinLock) : bool := match s with Waiting => true | _ => false end.
Definition is_locked (s : CoinLock) : bool := match s with Locked _ => true | _ => false end.

(** The one that opens first, of those locked. *)
Definition first_of_locked (next : option Remaining) (states : list CoinLock) : Prop :=
  match next with
  | None => forall r, ~ In (Locked r) states
  | Some r => In (Locked r) states
      /\ forall r', In (Locked r') states -> rank_le (remaining_rank r) (remaining_rank r') = true
  end.

Lemma sooner_le r other : rank_le (remaining_rank (sooner r other)) (remaining_rank r) = true
  /\ rank_le (remaining_rank (sooner r other)) (remaining_rank other) = true
  /\ (sooner r other = r \/ sooner r other = other).
Proof.
  unfold sooner. destruct (rank_le (remaining_rank r) (remaining_rank other)) eqn:E; simpl.
  - split; [by destruct (rank_le_total (remaining_rank r) (remaining_rank r))|]. auto.
  - destruct (rank_le_total (remaining_rank r) (remaining_rank other)); [congruence|].
    split; [done|]. split; [by destruct (rank_le_total (remaining_rank other) (remaining_rank other))|auto].
Qed.

Lemma tally_spec states :
  t_unlocked (tally states) = Z.of_nat (count is_unlocked states)
  /\ t_waiting (tally states) = Z.of_nat (count is_waiting_coin states)
  /\ t_locked (tally states) = Z.of_nat (count is_locked states)
  /\ first_of_locked (t_next (tally states)) states.
Proof.
  unfold tally. induction states as [|s states IH] using rev_ind; [split_and!; [done|done|done|intros r []]|].
  rewrite foldl_app. cbn [foldl]. rewrite !count_app. destruct IH as (H1 & H2 & H3 & H4).
  unfold count at 2 4 6. destruct s; simpl; rewrite ?H1, ?H2, ?H3, ?Nat.add_0_r; split_and!; try done; try lia.
  - unfold first_of_locked in *. destruct (t_next _).
    + destruct H4 as [Ha Hb]. split; [apply in_or_app; by left|]. intros r' [Hr|[Hr|[]]]%in_app_or; [auto|done].
    + intros r [Hr|[Hr|[]]]%in_app_or; [by apply (H4 r)|done].
  - unfold first_of_locked in *. destruct (t_next _).
    + destruct H4 as [Ha Hb]. split; [apply in_or_app; by left|]. intros r' [Hr|[Hr|[]]]%in_app_or; [auto|done].
    + intros r [Hr|[Hr|[]]]%in_app_or; [by apply (H4 r)|done].
  - unfold first_of_locked in *. destruct (t_next (foldl add default_tally states)) as [next|]; apply in_or_app.
    + destruct H4 as [Ha Hb]. destruct (sooner_le next r) as (_ & _ & [-> | ->]); [by left|right; by left].
    + right. by left.
  - unfold first_of_locked in *. destruct (t_next (foldl add default_tally states)) as [next|].
    + destruct H4 as [Ha Hb]. destruct (sooner_le next r) as (S1 & S2 & _).
      intros r' [Hr|[[= <-]|[]]]%in_app_or; [eapply rank_le_trans; [exact S1|auto]|done].
    + intros r' [Hr|[[= <-]|[]]]%in_app_or; [by destruct (H4 r')|].
      by destruct (rank_le_total (remaining_rank r) (remaining_rank r)).
Qed.

Lemma count_parts states :
  (count is_unlocked states + count is_waiting_coin states + count is_locked states)%nat = length states.
Proof.
  unfold count, retain. induction states as [|s states IH]; [done|]. destruct s; simpl; lia.
Qed.

Lemma coin_state_unlocked c clock coin : wf_condition c = true ->
  is_unlocked (coin_state c clock coin) = spends_now c clock coin.
Proof.
  intros Hw. unfold coin_state, spends_now. rewrite <- (estimate_open c (OnCoin coin) clock) by
    (done || intros lock; unfold unlocked_on; simpl; by destruct (on_coin clock lock coin)).
  by destruct (estimate c (OnCoin coin) clock).
Qed.

(** C38: whether a branch can be spent from, read off its keys, its locks
    and the coins. It is spendable now exactly when its keys and the
    absolute locks behind the chain meet it, whatever the coin; it needs a
    preimage exactly when keys and locks together never meet it; it is
    locked only when no coin can be spent through it and every coin reads
    as far off as said; counted coin by coin, the unlocked ones are those
    it can spend now, the three counts make up all the coins, and [next]
    is the locked coin that opens first; and it has no coins to count only
    when there are none. *)
Theorem branch_state_right c coins clock :
  wf_condition c = true ->
  (branch_state c coins clock = SpendableNow <-> csat (open_leaf clock (fun _ => false)) c = true)
  /\ (branch_state c coins clock = NeedsPreimage <-> csat (fun x => negb (is_preimage x)) c = false)
  /\ (forall until, branch_state c coins clock = BLocked until ->
      forall coin, spends_now c clock coin = false
        /\ exists r, coin_state c clock coin = Locked r /\ remaining_rank r = remaining_rank until)
  /\ (forall u w l next, branch_state c coins clock = BPerCoin u w l next ->
      u = Z.of_nat (count (spends_now c clock) coins) /\ u + w + l = Z.of_nat (length coins)
      /\ first_of_locked next (List.map (coin_state c clock) coins))
  /\ (branch_state c coins clock = BNoCoins -> coins = []).
Proof.
  intros Hw.
  pose proof (estimate_open c (NoCoin ENoCoins) clock (fun _ => false) Hw ltac:(done)) as Ho.
  pose proof (worst_never c clock Hw) as Hn. unfold branch_state.
  set (worst := estimate c (NoCoin ENoCoins) clock) in *.
  set (over := match coins with [] => BNoCoins | _ => _ end).
  assert (Hover : over <> SpendableNow /\ over <> NeedsPreimage /\ (forall until, over <> BLocked until)
    /\ (forall u w l next, over = BPerCoin u w l next ->
        u = Z.of_nat (count (spends_now c clock) coins) /\ u + w + l = Z.of_nat (length coins)
        /\ first_of_locked next (List.map (coin_state c clock) coins))
    /\ (over = BNoCoins -> coins = [])).
  { subst over. destruct coins as [|coin coins]; [by split_and!|]. split_and!; try done.
    intros u w l next [= <- <- <- <-]. destruct (tally_spec (List.map (coin_state c clock) (coin :: coins)))
      as (H1 & H2 & H3 & H4). cbn [List.map] in *. rewrite H1, H2, H3. split; [|split; [|done]].
    - rewrite <- (List.map_cons (coin_state c clock)), count_map. f_equal. apply count_ext_in.
      intros x _. by apply coin_state_unlocked.
    - rewrite <- (List.length_map (coin_state c clock) (coin :: coins)), <- count_parts. simpl. lia. }
  destruct Hover as (O1 & O2 & O3 & O4 & O5). clearbody over.
  destruct worst as [|until| | |] eqn:Ew; rewrite <- ?Ho, <- ?Hn.
  - by split_and!.
  - destruct (est_eq _ _) eqn:Eb; [|by split_and!; try done; intros; exfalso; eapply O3].
    apply bool_decide_eq_true in Eb. split_and!; try done. intros u [= <-] coin.
    destruct (coin_between c coin clock Hw) as [B1 B2]. subst worst. rewrite Ew in B2.
    assert (Hr : rank (estimate c (OnCoin coin) clock) = rank (ELater until)).
    { apply rank_le_antisym; [exact B2|]. rewrite <- Eb. exact B1. }
    assert (exists r, coin_state c clock coin = Locked r /\ remaining_rank r = remaining_rank until) as (r & Hc & Hcr).
    { unfold coin_state. destruct (estimate c (OnCoin coin) clock) as [|r| | |]; unfold rank, remaining_rank in *;
        destruct (remaining_seconds until); simpl in Hr; try (injection Hr as Hr; lia);
        try discriminate Hr; exists r; (split; [done|]); destruct (remaining_seconds r); by simplify_eq. }
    split; [|eauto]. rewrite <- coin_state_unlocked, Hc by done. done.
  - by split_and!; try done; intros; exfalso; eapply O3.
  - by split_and!; try done; intros; exfalso; eapply O3.
  - by split_and!.
Qed.

Lemma branch_state_right_witness :
  let c := CThresh 2 2 [CKey "k0"; CAfter (AHeight 900)] in
  wf_condition c = true
  /\ (branch_state c [] {| tip := Some 900; now := 0 |} = SpendableNow <->
      csat (open_leaf {| tip := Some 900; now := 0 |} (fun _ => false)) c = true)
  /\ branch_state c [] {| tip := Some 900; now := 0 |} = SpendableNow.
Proof.
  intros c. split; [reflexivity|]. split; [|reflexivity].
  exact (proj1 (branch_state_right c [] {| tip := Some 900; now := 0 |} eq_refl)).
Defined.

(** ** Shapes

    What a condition can come to with every key at hand: each lock and
    each preimage on its own, met or not. *)

Inductive can : Condition -> bool -> Prop :=
| can_key id : can (CKey id) true
| can_after lock b : can (CAfter lock) b
| can_older lock b : can (COlder lock) b
| can_preimage hash b : can (CPreimage hash) b
| can_thresh k n items bs : can_all items bs -> can (CThresh k n items) (k <=? count yes bs)%nat
with can_all : list Condition -> list bool -> Prop :=
| can_all_nil : can_all [] []
| can_all_cons c items b bs : can c b -> can_all items bs -> can_all (c :: items) (b :: bs).

Lemma can_all_app l1 l2 b1 b2 : can_all l1 b1 -> can_all l2 b2 -> can_all (l1 ++ l2) (b1 ++ b2).
Proof. induction 1; simpl; [done|]. intros. constructor; auto. Qed.

Lemma can_all_Forall2 items bs : can_all items bs <-> Forall2 can items bs.
Proof.
  split.
  - induction 1; constructor; done.
  - induction 1; constructor; done.
Qed.

Lemma count_cons {A} (f : A -> bool) x l : count f (x :: l) = ((if f x then 1 else 0) + count f l)%nat.
Proof. unfold count, retain. simpl. by destruct (f x). Qed.

Definition mets (items : list Condition) : nat := count (fun c => is_shape Met (shape c)) items.
Definition turning (items : list Condition) : nat := count (fun c => is_shape Turns (shape c)) items.

(** What the shape of a condition says of what it can come to. *)
Definition shape_right (c : Condition) : Prop :=
  (can c true <-> shape c <> Unmet) /\ (can c false <-> shape c <> Met).

(** Together, items can come to any count from those met by the keys to
    those and the ones that turn, and to no other. *)
Lemma can_count items : Forall shape_right items ->
  forall m, (exists bs, can_all items bs /\ count yes bs = m) <-> (mets items <= m <= mets items + turning items)%nat.
Proof.
  unfold mets, turning. induction 1 as [|c items [Ht Hf] _ IH]; intros m.
  - unfold count. simpl. split.
    + intros (bs & Hbs & <-). inversion Hbs. simpl. lia.
    + intros Hm. exists []. split; [constructor|]. simpl. lia.
  - rewrite !count_cons. set (M := count (fun c => is_shape Met (shape c)) items) in *.
    set (T := count (fun c => is_shape Turns (shape c)) items) in *. clearbody M T. split.
    + intros (bs & Hbs & <-). inversion Hbs as [|? ? b bs' Hb Hbs']; subst. rewrite count_cons.
      assert (exists bs, can_all items bs /\ count yes bs = count yes bs') as Hc by eauto. apply IH in Hc.
      destruct b; simpl; [apply Ht in Hb|apply Hf in Hb]; destruct (shape c); simpl; try done; lia.
    + intros Hm.
      assert (Hcase : exists b, can c b /\ exists m', m = ((if b then 1 else 0) + m')%nat /\ (M <= m' <= M + T)%nat).
      { destruct (shape c) eqn:E; simpl in Hm.
        - exists true. split; [by apply Ht|]. exists (m - 1)%nat. simpl. lia.
        - exists false. split; [by apply Hf|]. exists m. simpl. lia.
        - destruct (Nat.eq_dec m M) as [->|].
          + exists false. split; [by apply Hf|]. exists M. simpl. lia.
          + exists true. split; [by apply Ht|]. exists (m - 1)%nat. simpl. lia. }
      destruct Hcase as (b & Hb & m' & -> & Hm'). apply IH in Hm' as (bs & Hbs & <-).
      exists (b :: bs). split; [by constructor|]. rewrite count_cons. by destruct b.
Qed.

Lemma shape_thresh k n items : items <> [] ->
  shape (CThresh k n items)
  = (if (k <=? mets items)%nat then Met else if (mets items + turning items <? k)%nat then Unmet else Turns).
Proof.
  intros Hne. cbn [shape]. unfold mets, turning. rewrite <- !(count_map (is_shape _) shape).
  destruct items as [|c items]; [done|]. done.
Qed.

Lemma shape_is_right c : wf_condition c = true -> shape_right c.
Proof.
  induction c as [c Hc|k n items IH] using Condition_rect'; intros Hw.
  - unfold shape_right. destruct c; try (by edestruct Hc); simpl;
      (split; (split; [try done; intros H; by inversion H|])); intros; try done; constructor.
  - apply wf_thresh in Hw as ([Hk1 Hk2] & _ & Hw).
    assert (Hi : Forall shape_right items).
    { rewrite List.Forall_forall in IH |- *. intros x Hx. auto. }
    pose proof (can_count items Hi) as Hcount.
    assert (Hle : (mets items + turning items <= length items)%nat).
    { destruct (proj2 (Hcount (mets items + turning items)%nat) ltac:(lia)) as (bs & Hbs & <-).
      apply can_all_Forall2, Forall2_length in Hbs. rewrite Hbs. apply count_le. }
    unfold shape_right. rewrite shape_thresh by (by destruct items; simpl in *; [lia|]).
    assert (Hcan : forall b, can (CThresh k n items) b <-> exists m, (mets items <= m <= mets items + turning items)%nat /\ b = (k <=? m)%nat).
    { intros b. split.
      - intros H. inversion H as [| | | |? ? ? bs Hbs]; subst. exists (count yes bs). split; [|done]. apply Hcount. eauto.
      - intros (m & Hm & ->). apply Hcount in Hm as (bs & Hbs & <-). by constructor. }
    assert (Ht : can (CThresh k n items) true <-> (k <= mets items + turning items)%nat).
    { rewrite Hcan. split; [intros (m & Hm & E); symmetry in E; apply Nat.leb_le in E; lia|].
      intros. exists (mets items + turning items)%nat. split; [lia|]. symmetry. by apply Nat.leb_le. }
    assert (Hf : can (CThresh k n items) false <-> (mets items < k)%nat).
    { rewrite Hcan. split; [intros (m & Hm & E); symmetry in E; apply Nat.leb_gt in E; lia|].
      intros. exists (mets items). split; [lia|]. symmetry. by apply Nat.leb_gt. }
    rewrite Ht, Hf.
    destruct (Nat.leb_spec k (mets items)); [|destruct (Nat.ltb_spec (mets items + turning items) k)];
      split; split; intros; try done; lia.
Qed.

(** ** Locks that hold a branch back *)

Definition nlocks (c : Condition) : nat := length (collect_locks c).
Definition nlocks_all (items : list Condition) : nat := length (List.concat (List.map collect_locks items)).

(** What a condition comes to with the lock at [position] not met, and
    with it met, all the rest the same: the keys at hand, every other lock
    and preimage as it may. [start] is the position of its first lock. *)
Inductive turn (position : nat) : nat -> Condition -> bool -> bool -> Prop :=
| turn_key start id : turn position start (CKey id) true true
| turn_preimage start hash b : turn position start (CPreimage hash) b b
| turn_here c : nlocks c = 1%nat -> (forall k n items, c <> CThresh k n items) ->
    turn position position c false true
| turn_other start c b : nlocks c = 1%nat -> (forall k n items, c <> CThresh k n items) ->
    start <> position -> turn position start c b b
| turn_thresh start k n items l0 l1 : turn_all position start items l0 l1 ->
    turn position start (CThresh k n items) (k <=? count yes l0)%nat (k <=? count yes l1)%nat
with turn_all (position : nat) : nat -> list Condition -> list bool -> list bool -> Prop :=
| turn_all_nil start : turn_all position start [] [] []
| turn_all_cons start c items b0 b1 l0 l1 :
    turn position start c b0 b1 -> turn_all position (start + nlocks c) items l0 l1 ->
    turn_all position start (c :: items) (b0 :: l0) (b1 :: l1).

Lemma nlocks_all_cons c items : nlocks_all (c :: items) = (nlocks c + nlocks_all items)%nat.
Proof. unfold nlocks_all, nlocks. cbn [List.map List.concat]. by rewrite length_app. Qed.

Lemma nlocks_all_app l1 l2 : nlocks_all (l1 ++ l2) = (nlocks_all l1 + nlocks_all l2)%nat.
Proof. induction l1 as [|c l1 IH]; [done|]. cbn [app]. rewrite !nlocks_all_cons, IH. lia. Qed.

Lemma nlocks_thresh k n items : nlocks (CThresh k n items) = nlocks_all items.
Proof. done. Qed.

Definition elsewhere (position start len : nat) : Prop := (position < start \/ start + len <= position)%nat.

Definition same_turn (position : nat) (c : Condition) : Prop :=
  forall start, elsewhere position start (nlocks c) ->
  forall b0 b1, turn position start c b0 b1 <-> b0 = b1 /\ can c b0.

Lemma turn_all_elsewhere position items : Forall (same_turn position) items ->
  forall start, elsewhere position start (nlocks_all items) ->
  forall l0 l1, turn_all position start items l0 l1 <-> l0 = l1 /\ can_all items l0.
Proof.
  induction 1 as [|c items Hc _ IH]; intros start He l0 l1.
  - split; [intros H; inversion H; by repeat constructor|]. intros [<- H]. inversion H. constructor.
  - rewrite nlocks_all_cons in He. unfold elsewhere in *. split.
    + intros H. inversion H as [|? ? ? b0 b1 m0 m1 Hb Hl]; subst. apply Hc in Hb as [<- Hb]; [|unfold elsewhere; lia].
      apply IH in Hl as [<- Hl]; [|lia]. split; [done|by constructor].
    + intros [<- H]. inversion H as [|? ? b bs Hb Hbs]; subst. constructor.
      * apply Hc; [unfold elsewhere; lia|done].
      * apply IH; [lia|done].
Qed.

Lemma turn_thresh_inv position start k n items b0 b1 : turn position start (CThresh k n items) b0 b1 ->
  exists l0 l1, turn_all position start items l0 l1 /\ b0 = (k <=? count yes l0)%nat /\ b1 = (k <=? count yes l1)%nat.
Proof.
  intros H. inversion H; subst; eauto;
    match goal with Hx : forall k n items, _ <> _ |- _ => by destruct (Hx k n items) end.
Qed.

Lemma turn_elsewhere position c : same_turn position c.
Proof.
  induction c as [c Hc|k n items IH] using Condition_rect'; intros start He b0 b1.
  - destruct c as [id|k n items|lock|lock|hash]; [| by edestruct Hc |..]; unfold elsewhere, nlocks in He; simpl in He; split.
    + intros H. inversion H; subst; try done; split; try constructor; by destruct Hc.
    + intros [<- H]. inversion H. constructor.
    + intros H. inversion H; subst; [lia|]. split; [done|constructor].
    + intros [<- H]. apply turn_other; [done|done|lia].
    + intros H. inversion H; subst; [lia|]. split; [done|constructor].
    + intros [<- H]. apply turn_other; [done|done|lia].
    + intros H. inversion H; subst; try done; split; try constructor; done.
    + intros [<- H]. constructor.
  - rewrite nlocks_thresh in He. pose proof (turn_all_elsewhere position items IH start He) as Ha. split.
    + intros (l0 & l1 & Hl & -> & ->)%turn_thresh_inv. apply Ha in Hl as [<- Hl]. split; [done|by constructor].
    + intros [<- H]. inversion H as [| | | |? ? ? bs Hbs]; subst. apply turn_thresh. by apply Ha.
Qed.

(** The items around one of them. *)
Lemma turn_all_split position start pre item post l0 l1 :
  (start + nlocks_all pre <= position < start + nlocks_all pre + nlocks item)%nat ->
  turn_all position start (pre ++ item :: post) l0 l1 <->
  exists bpre b0 b1 bpost, l0 = bpre ++ b0 :: bpost /\ l1 = bpre ++ b1 :: bpost
    /\ can_all pre bpre /\ can_all post bpost /\ turn position (start + nlocks_all pre) item b0 b1.
Proof.
  revert start l0 l1. induction pre as [|c pre IH]; intros start l0 l1 Hp; cbn [app].
  - assert (Hpost : forall m0 m1, turn_all position (start + nlocks item) post m0 m1 <-> m0 = m1 /\ can_all post m0).
    { intros. apply turn_all_elsewhere; [apply List.Forall_forall; intros; apply turn_elsewhere|].
      unfold elsewhere. unfold nlocks_all in Hp. simpl in Hp. lia. }
    unfold nlocks_all in *. simpl in *. rewrite Nat.add_0_r. split.
    + intros H. inversion H as [|? ? ? b0 b1 m0 m1 Hb Hl]; subst. apply Hpost in Hl as [<- Hl].
      exists [], b0, b1, m0. split_and!; try done. constructor.
    + intros (bpre & b0 & b1 & bpost & -> & -> & Hpre & Hpo & Ht). inversion Hpre; subst. simpl.
      constructor; [done|]. by apply Hpost.
  - rewrite nlocks_all_cons in Hp. rewrite nlocks_all_cons. split.
    + intros H. inversion H as [|? ? ? b0 b1 m0 m1 Hb Hl]; subst.
      apply turn_elsewhere in Hb as [<- Hb]; [|unfold elsewhere; lia].
      apply IH in Hl as (bpre & c0 & c1 & bpost & -> & -> & H1 & H2 & H3); [|lia].
      exists (b0 :: bpre), c0, c1, bpost. split_and!; try done; [by constructor|]. by rewrite Nat.add_assoc.
    + intros (bpre & b0 & b1 & bpost & -> & -> & Hpre & Hpo & Ht). inversion Hpre as [|? ? b bs Hb Hbs]; subst. simpl.
      constructor; [apply turn_elsewhere; [unfold elsewhere; lia|done]|].
      apply IH; [lia|]. exists bs, b0, b1, bpost. split_and!; try done. by rewrite <- Nat.add_assoc.
Qed.

(** What [down] answers of a condition. *)
Definition down_right (position : nat) (c : Condition) : Prop :=
  forall seen,
  (elsewhere position seen (nlocks c) -> down position c seen = (None, seen + nlocks c)%nat)
  /\ (~ elsewhere position seen (nlocks c) ->
      exists r s, down position c seen = (Some r, s) /\ (r = true <-> turn position seen c false true)).

Lemma items_down_right position k items : Forall (down_right position) items ->
  forall before seen,
  (elsewhere position seen (nlocks_all items) ->
    items_down (down position) k before items seen = (None, seen + nlocks_all items)%nat)
  /\ (~ elsewhere position seen (nlocks_all items) ->
      exists pre item post s below, items = pre ++ item :: post
        /\ (seen + nlocks_all pre <= position < seen + nlocks_all pre + nlocks item)%nat
        /\ (below = true <-> turn position (seen + nlocks_all pre) item false true)
        /\ items_down (down position) k before items seen
           = (Some (below && (mets (before ++ pre ++ post) <=? k - 1)%nat
                    && (k - 1 <=? mets (before ++ pre ++ post) + turning (before ++ pre ++ post))%nat), s)).
Proof.
  induction 1 as [|c items Hc _ IH]; intros before seen.
  - unfold elsewhere, nlocks_all. simpl. split; [by rewrite Nat.add_0_r|lia].
  - rewrite nlocks_all_cons. destruct (Hc seen) as [Hnone Hsome].
    destruct (decide (position < seen \/ seen + nlocks c <= position)%nat) as [He|He].
    + destruct (IH (before ++ [c]) (seen + nlocks c)%nat) as [IH1 IH2].
      cbn [items_down]. rewrite (Hnone He). fold (items_down (down position) k). unfold elsewhere in *. split.
      * intros Hx. rewrite IH1 by lia. f_equal. lia.
      * intros Hx. destruct IH2 as (pre & item & post & s & below & -> & Hp & Hb & Hi); [lia|].
        exists (c :: pre), item, post, s, below. rewrite nlocks_all_cons.
        rewrite <- !Nat.add_assoc in Hp, Hb. rewrite <- !Nat.add_assoc.
        split; [done|]. split; [lia|]. split; [done|]. rewrite Hi. by rewrite <- !app_assoc.
    + unfold elsewhere in *. split; [lia|]. intros _. destruct (Hsome He) as (r & s & Hd & Hr).
      exists [], c, items, s, r. unfold nlocks_all at 1 2 3. simpl. rewrite Nat.add_0_r.
      split; [done|]. split; [lia|]. split; [done|]. by rewrite Hd.
Qed.

Lemma count_middle bpre b bpost : count yes (bpre ++ b :: bpost) = ((if b then 1 else 0) + count yes (bpre ++ bpost))%nat.
Proof. rewrite !count_app, count_cons. unfold yes at 2. destruct b; lia. Qed.

Lemma down_is_right position c : wf_condition c = true -> down_right position c.
Proof.
  induction c as [c Hc|k n items IH] using Condition_rect'; intros Hw seen.
  - destruct c as [id|k n items|lock|lock|hash]; [| by edestruct Hc |..]; unfold elsewhere, nlocks; simpl;
      (split; [|intros He]); try (intros He); try lia; rewrite ?Nat.add_0_r, ?Nat.add_1_r; try done;
      destruct (Nat.eqb_spec seen position); try lia; try done; subst; exists true, (S position);
      (split; [done|]); (split; [intros _|done]); by apply turn_here.
  - apply wf_thresh in Hw as ([Hk1 Hk2] & _ & Hw).
    assert (Hi : Forall (down_right position) items) by (rewrite List.Forall_forall in IH |- *; auto).
    assert (Hsh : forall l, (forall x, In x l -> In x items) -> Forall shape_right l).
    { intros l Hl. apply List.Forall_forall. intros x Hx. apply shape_is_right. auto. }
    rewrite nlocks_thresh. cbn [down]. destruct (items_down_right position k items Hi [] seen) as [H1 H2].
    split; [exact H1|]. intros He. destruct (H2 He) as (pre & item & post & s & below & -> & Hp & Hb & Hd).
    cbn [app] in Hd. eexists _, s. split; [exact Hd|]. rewrite !andb_true_iff, !Nat.leb_le, Hb.
    pose proof (can_count (pre ++ post)) as Hcount.
    specialize (Hcount ltac:(apply Hsh; intros x Hx; apply in_app_or in Hx; apply in_or_app; simpl; tauto)).
    split.
    + intros [[Ht Hm1] Hm2]. destruct (proj2 (Hcount (k - 1)%nat) (conj Hm1 Hm2)) as (bs & Hbs & Hc).
      apply can_all_Forall2, Forall2_app_inv_l in Hbs as (bpre & bpost & Hpre & Hpost & ->).
      apply can_all_Forall2 in Hpre, Hpost.
      assert (Hall : turn_all position seen (pre ++ item :: post) (bpre ++ false :: bpost) (bpre ++ true :: bpost)).
      { apply turn_all_split; [done|]. eauto 10. }
      apply (turn_thresh _ _ k n) in Hall. rewrite !count_middle, Hc in Hall. simpl in Hall.
      replace (k <=? k - 1)%nat with false in Hall by (symmetry; apply Nat.leb_gt; lia).
      replace (k <=? S (k - 1))%nat with true in Hall by (symmetry; apply Nat.leb_le; lia). done.
    + intros (l0 & l1 & Hall & E0 & E1)%turn_thresh_inv. apply turn_all_split in Hall; [|done].
      destruct Hall as (bpre & b0 & b1 & bpost & -> & -> & Hpre & Hpost & Ht).
      symmetry in E0, E1. rewrite count_middle in E0, E1. apply Nat.leb_gt in E0. apply Nat.leb_le in E1.
      assert (b0 = false /\ b1 = true /\ count yes (bpre ++ bpost) = (k - 1)%nat) as (-> & -> & Hc)
        by (destruct b0, b1; split_and!; try done; lia).
      split_and!; [done|..]; apply (Hcount (k - 1)%nat); exists (bpre ++ bpost);
        (split; [by apply can_all_app|done]).
Qed.

(** A lock is said to hold a branch back exactly when some way of
    meeting the branch turns on it: with every key at hand, some choice of
    the other locks and preimages leaves the branch unmet without that
    lock and met with it. What the keys alone come to ([shape]) is read
    the same way: met whatever the rest, unmet whatever the rest, or
    either. *)
Theorem holds_back_right c position :
  wf_condition c = true -> (position < length (collect_locks c))%nat ->
  (holds_back c position = true <-> turn position 0 c false true)
  /\ (shape c = Met <-> ~ can c false) /\ (shape c = Unmet <-> ~ can c true).
Proof.
  intros Hw Hp. destruct (shape_is_right c Hw) as [Ht Hf]. split_and!.
  - destruct (down_is_right position c Hw 0%nat) as [_ H]. unfold elsewhere in H. unfold holds_back.
    destruct H as (r & s & -> & Hr); [unfold nlocks; lia|done].
  - rewrite Hf. destruct (shape c); intuition congruence.
  - rewrite Ht. destruct (shape c); intuition congruence.
Qed.

Lemma holds_back_right_witness :
  let c := CThresh 2 3 [CKey "k0"; CKey "k1"; COlder (RBlocks 10)] in
  wf_condition c = true /\ holds_back c 0 = false /\ ~ turn 0 0 c false true.
Proof.
  intros c. split; [reflexivity|]. split; [reflexivity|]. intros H.
  apply (holds_back_right c 0%nat eq_refl) in H; [discriminate H|]. vm_compute. lia.
Defined.
