(* ===== verification/PolicyText.v ===== *)
(** [wallet/policy.rs], the wording: one sentence for a branch. *)
From S2P Require Import Prelude Utf8 Text Dates PolicyModel.
From Stdlib Require Import Ascii.

Definition join_with (items : list string) (conjunction : string) : string :=
  match items with
  | [] => ""
  | [item] => item
  | _ =>
    let n := length items in
    join ", " (take (n - 1) items) +:+ " " +:+ conjunction +:+ " " +:+ List.nth (n - 1) items ""
  end.

Definition join_and (items : list string) : string := join_with items "and".
Definition join_or (items : list string) : string := join_with items "or".

(** [digits]: a comma before each digit that has a multiple of three
    after it, itself counted. *)
Fixpoint comma_digits (len index : nat) (raw : string) : string :=
  match raw with
  | "" => ""
  | String d rest =>
    (if (0 <? index)%nat && ((len - index) mod 3 =? 0)%nat then "," else "")
    +:+ String d (comma_digits len (S index) rest)
  end.

Definition digits (value : Z) : string := comma_digits (String.length (dec value)) 0 (dec value).

Definition date (unix : Z) : string :=
  let '(year, month, day) := civil_date unix in
  pad_zero 4 (dec_signed year) +:+ "-" +:+ pad_zero 2 (dec month) +:+ "-" +:+ pad_zero 2 (dec day).

Definition blocks_phrase (blocks : Z) : string :=
  if blocks =? 1 then "1 block" else digits blocks +:+ " blocks".

Definition HOUR : Z := 3600.
Definition DAY : Z := 24 * HOUR.

Definition unit_phrase (amount : Z) (name : string) (exact : bool) : string :=
  (if exact then "" else "about ") +:+ digits amount +:+ " " +:+ name +:+ (if amount =? 1 then "" else "s").

Definition seconds_phrase (seconds : Z) : string :=
  if seconds >=? DAY then unit_phrase ((seconds + DAY / 2) / DAY) "day" (seconds mod DAY =? 0)
  else if seconds >=? HOUR then unit_phrase ((seconds + HOUR / 2) / HOUR) "hour" (seconds mod HOUR =? 0)
  else unit_phrase seconds "second" true.

Definition preimage_phrase (hash : string) : string := "the preimage of a " +:+ hash +:+ " hash".

Definition after_clause (lock : AbsoluteLock) : string :=
  match lock with
  | AHeight height => "after block " +:+ digits height
  | ATime unix => "after " +:+ date unix
  end.

Definition older_clause (lock : RelativeLock) : string :=
  match lock with
  | RBlocks blocks => "once a coin has waited " +:+ blocks_phrase blocks
  | RSeconds seconds => "once a coin has waited " +:+ seconds_phrase seconds
  end.

Definition key_list (labels : list string) : string :=
  let letters := List.map (fun label => unwrap_or (strip_prefix "Key " label) label) labels in
  match letters with
  | [] => "No key"
  | [only] => "Key " +:+ only
  | _ => "Keys " +:+ join_and letters
  end.

Definition times (count : nat) : string :=
  if (count =? 2)%nat then "twice" else dec (Z.of_nat count) +:+ " times".

(** Each label with how often it comes, in the order they first come. *)
Fixpoint count_label (label : string) (counted : list (string * nat)) : list (string * nat) :=
  match counted with
  | [] => [(label, 1%nat)]
  | (seen, n) :: rest =>
    if bool_decide (seen = label) then (seen, S n) :: rest else (seen, n) :: count_label label rest
  end.

Definition counted (labels : list string) : list (string * nat) :=
  foldl (fun acc label => count_label label acc) [] labels.

Definition repeats (labels : list string) : option string :=
  let phrases := List.map (fun e => e.1 +:+ " counted " +:+ times e.2)
    (retain (fun e => (1 <? e.2)%nat) (counted labels)) in
  match phrases with [] => None | _ => Some (join_and phrases) end.

Definition distinct (labels : list string) : list string :=
  foldl (fun acc label => if bool_decide (label ∈ acc) then acc else acc ++ [label]) [] labels.

Definition counted_list (labels : list string) : string :=
  let d := distinct labels in
  let list := key_list d in
  match repeats labels with
  | Some r => if (length d =? 1)%nat then list +:+ ", counted " +:+ times (length labels)
              else list +:+ ", " +:+ r
  | None => list
  end.

(** [capitalize]: the phrases of the source begin with a letter of ASCII
    or a digit, on which [to_uppercase] is this. *)
Definition upper_byte (a : ascii) : ascii :=
  let b := N_of_ascii a in if ((97 <=? b) && (b <=? 122))%N then ascii_of_N (b - 32) else a.

Definition capitalize (text : string) : string :=
  match text with "" => "" | String a rest => String (upper_byte a) rest end.

Section Wording.
Context (label_by_id : string -> string).

Definition group_words (k n : nat) (items : list Condition) (nouns : list string) : string :=
  let labels := List.concat (List.map (fun c => match c with CKey key_id => [label_by_id key_id] | _ => [] end) items) in
  if all (fun c => match c with CKey _ => true | _ => false end) items then
    if (k =? n)%nat then counted_list labels
    else
      let group := if (k =? 1)%nat then "any of " +:+ dec (Z.of_nat n) +:+ " keys"
                   else "any " +:+ dec (Z.of_nat k) +:+ " of " +:+ dec (Z.of_nat n) +:+ " keys" in
      match repeats labels with Some r => group +:+ ", " +:+ r | None => group end
  else if (k =? n)%nat then join_and nouns
  else if (k =? 1)%nat then "either " +:+ join_or nouns
  else "any " +:+ dec (Z.of_nat k) +:+ " of: " +:+ join ", " nouns.

(** [noun], and [group_phrase] on a threshold. *)
Fixpoint noun (c : Condition) : string :=
  match c with
  | CKey key_id => label_by_id key_id
  | CThresh k n items => group_words k n items (List.map noun items)
  | CPreimage hash => preimage_phrase hash
  | CAfter (AHeight height) => "block " +:+ digits height +:+ " reached"
  | CAfter (ATime unix) => date unix +:+ " reached"
  | COlder (RBlocks blocks) => "a coin having waited " +:+ blocks_phrase blocks
  | COlder (RSeconds seconds) => "a coin having waited " +:+ seconds_phrase seconds
  end.

Definition group_phrase (c : Condition) : string := noun c.

Definition summary (c : Condition) : string :=
  let parts := match c with
               | CThresh k n items => if (k =? n)%nat then items else [c]
               | _ => [c]
               end in
  let pick {A} (f : Condition -> list A) : list A := List.concat (List.map f parts) in
  let keys := pick (fun c => match c with CKey key_id => [label_by_id key_id] | _ => [] end) in
  let groups := pick (fun c => match c with CThresh _ _ _ => [group_phrase c] | _ => [] end) in
  let preimages := pick (fun c => match c with CPreimage hash => [preimage_phrase hash] | _ => [] end) in
  let afters := pick (fun c => match c with CAfter lock => [after_clause lock] | _ => [] end) in
  let olders := pick (fun c => match c with COlder lock => [older_clause lock] | _ => [] end) in
  let subjects := match keys with [] => [] | _ => [counted_list keys] end ++ groups ++ preimages in
  let text := match subjects with [] => "No key" | _ => capitalize (join_and subjects) end in
  let text := match afters with [] => text | _ => text +:+ " " +:+ join_and afters end in
  match olders with [] => text | _ => text +:+ ", " +:+ join_and olders end.
End Wording.

Example summary_ex :
  summary (fun id => if bool_decide (id = "k0") then "Key A" else "Key B")
    (CThresh 3 3 [CKey "k0"; CThresh 1 2 [CKey "k0"; CKey "k1"]; COlder (RBlocks 52560)])
  = "Key A and any of 2 keys, once a coin has waited 52,560 blocks".
Proof. reflexivity. Qed.
