(* ===== verification/PolicyBranches.v ===== *)
(** [wallet/policy.rs], the branches: what each comes to, the roles they
    are given, and the order they are read in. *)
From S2P Require Import Prelude Utf8 Text Errors Network PolicyModel PolicyEval PolicyText.

Record Draft := {
  d_condition : Condition;
  d_timelocks : list Timelock;
  d_state : BranchState;
  d_has_key : bool;
  d_distance : option Z;
}.

Record PolicyBranch := {
  b_id : string;
  b_role : BranchRole;
  b_label : string;
  b_summary : string;
  b_condition : Condition;
  b_timelocks : list Timelock;
  b_state : BranchState;
  b_spendable_now : bool;
  b_tone : BranchTone;
}.

(** How a date is told from a height: by the wall clock. *)
Inductive TimeBasis := WallClock.

Record PolicySnapshot := {
  s_kind : PolicyKind;
  s_script : ScriptKind;
  s_descriptor : string;
  s_policy : string;
  s_keys : list PolicyKey;
  s_branches : list PolicyBranch;
  s_tip_height : option Z;
  s_computed_at : Z;
  s_time_basis : TimeBasis;
  s_coins : Z;
  s_has_timelocks : bool;
}.

Definition reading_rank (r : BranchRole) : Z :=
  match r with Primary => 0 | Recovery => 1 | Emergency => 2 | Other => 3 end.

Definition lettered (base : string) (index : nat) : string :=
  if (index =? 0)%nat then base else base +:+ " " +:+ letter index.

Definition numbered (base : string) (count : nat) : string :=
  if (count <=? 1)%nat then base else base +:+ " " +:+ dec (Z.of_nat count).

(** A draft set apart. *)
Definition is_other (d : Draft) : bool :=
  negb (d_has_key d) || match d_state d with NeedsPreimage => true | _ => false end.

(** The first loop of [assign_roles]: the role of each draft that is not
    ranked by its distance, and those that are, with their place. *)
Record Sorting := {
  so_roles : list (option (BranchRole * string));
  so_primaries : nat;
  so_others : nat;
  so_timed : list (nat * Z);
}.

Definition sort_draft (s : Sorting) (d : Draft) : Sorting :=
  if is_other d then
    {| so_roles := so_roles s ++ [Some (Other, numbered "Other" (S (so_others s)))];
       so_primaries := so_primaries s; so_others := S (so_others s); so_timed := so_timed s |}
  else match d_distance d with
  | Some distance =>
    {| so_roles := so_roles s ++ [None]; so_primaries := so_primaries s; so_others := so_others s;
       so_timed := so_timed s ++ [(length (so_roles s), distance)] |}
  | None =>
    {| so_roles := so_roles s ++ [Some (Primary, lettered "Primary" (so_primaries s))];
       so_primaries := S (so_primaries s); so_others := so_others s; so_timed := so_timed s |}
  end.

Definition sorted_drafts (drafts : list Draft) : Sorting :=
  foldl sort_draft {| so_roles := []; so_primaries := 0; so_others := 0; so_timed := [] |} drafts.

Definition set_role (roles : list (option (BranchRole * string))) (index : nat) (role : BranchRole * string) :=
  take index roles ++ Some role :: drop (S index) roles.

Definition ranked_role (rank : nat) : BranchRole * string :=
  match rank with
  | 0%nat => (Recovery, "Recovery")
  | 1%nat => (Emergency, "Emergency")
  | _ => (Other, numbered "Recovery" (rank + 1))
  end.

Fixpoint rank_roles (roles : list (option (BranchRole * string))) (rank : nat) (timed : list nat) :=
  match timed with
  | [] => roles
  | index :: timed => rank_roles (set_role roles index (ranked_role rank)) (S rank) timed
  end.

(** The roles, [None] where the source would panic. *)
Definition assign_roles (drafts : list Draft) : list (option (BranchRole * string)) :=
  let s := sorted_drafts drafts in
  let timed := List.map fst (sort_by (fun a b => a.2 <=? b.2) (so_timed s)) in
  match so_primaries s, timed with
  | 0%nat, index :: rest => rank_roles (set_role (so_roles s) index (Primary, "Primary")) 0 rest
  | _, _ => rank_roles (so_roles s) 0 timed
  end.

(** [sort_by_key] on the place. *)
Definition place_le (a b : (Z * Z) * PolicyBranch) : bool := rank_le a.1 b.1.

Section Analysis.
Context {K : Type} `{DescriptorKey K}.

Definition timelock (c : Condition) (coins : list Coin) (clock : Clock) (e : nat * Lock) : Timelock :=
  {| tl_lock := e.2; required := holds_back c e.1; tl_state := lock_state coins clock e.2 |}.

Definition draft (book : KeyBook) (coins : list Coin) (clock : Clock) (p : Policy K) : CoreResult Draft :=
  let? c := condition book p in
  let locks := collect_locks c in
  let timelocks := List.map (timelock c coins clock) (List.combine (seq 0 (length locks)) locks) in
  Ok {| d_condition := c; d_timelocks := timelocks; d_state := branch_state c coins clock;
        d_has_key := has_key c;
        d_distance := if any required timelocks then Some (distance c clock) else None |}.

Definition branch_of (book : KeyBook) (index : nat) (d : Draft) (role : BranchRole * string) : PolicyBranch := {|
  b_id := "b" +:+ dec (Z.of_nat index);
  b_role := role.1;
  b_label := role.2;
  b_summary := summary (label_by_id book) (d_condition d);
  b_condition := d_condition d;
  b_timelocks := d_timelocks d;
  b_state := d_state d;
  b_spendable_now := match d_state d with SpendableNow => true | _ => false end;
  b_tone := tone (d_state d) |}.

(** A draft with its place and its role, [Other] standing for the role a
    panic would not give. *)
Definition placed (book : KeyBook) (e : nat * (Draft * option (BranchRole * string))) : (Z * Z) * PolicyBranch :=
  let '(index, (d, role)) := e in
  let role := unwrap_or role (Other, "") in
  ((reading_rank role.1, unwrap_or (d_distance d) 0), branch_of book index d role).

(** [analyze], from the policy miniscript lifted and normalized. *)
Definition analyze (external_descriptor : string) (script : ScriptKind) (coins : list Coin)
  (tip_height : option Z) (now_unix : Z) (lifted : CoreResult (Policy K)) : CoreResult PolicySnapshot :=
  let? policy := lifted in
  match policy with
  | Trivial => Err (Descriptor "the policy lets anyone spend")
  | Unsatisfiable => Err (Descriptor "the policy lets no one spend")
  | _ =>
    let book := collect_book policy in
    let clock := {| tip := tip_height; now := now_unix |} in
    let? drafts := collect (List.map (draft book coins clock) (disjuncts policy)) in
    let roles := assign_roles drafts in
    let all_placed := List.map (placed book)
      (List.combine (seq 0 (length drafts)) (List.combine drafts roles)) in
    let branches := List.map snd (sort_by place_le all_placed) in
    Ok {| s_kind := kind_of policy; s_script := script; s_descriptor := external_descriptor;
          s_policy := render book policy; s_keys := keys book; s_branches := branches;
          s_tip_height := tip_height; s_computed_at := now_unix; s_time_basis := WallClock;
          s_coins := wrap_u32 (Z.of_nat (length coins));
          s_has_timelocks := any (fun b => match b_timelocks b with [] => false | _ => true end) branches |}
  end.
End Analysis.

Definition address_snapshot (address : string) (script : ScriptKind) (tip_height : option Z) (coins now_unix : Z)
  : PolicySnapshot := {|
  s_kind := PAddress; s_script := script; s_descriptor := address; s_policy := "address"; s_keys := [];
  s_branches := []; s_tip_height := tip_height; s_computed_at := now_unix; s_time_basis := WallClock; s_coins := coins;
  s_has_timelocks := false |}.

(** ** The roles *)

Definition untimed (d : Draft) : bool := negb (is_other d) && match d_distance d with None => true | _ => false end.

(** The role of a draft that is not ranked, from the drafts before it. *)
Definition fixed_role (before : list Draft) (d : Draft) : option (BranchRole * string) :=
  if is_other d then Some (Other, numbered "Other" (S (count is_other before)))
  else match d_distance d with
  | Some _ => None
  | None => Some (Primary, lettered "Primary" (count untimed before))
  end.

Lemma count_snoc {A} (f : A -> bool) l x : count f (l ++ [x]) = (count f l + if f x then 1 else 0)%nat.
Proof. rewrite count_app. f_equal. unfold count, retain. simpl. by destruct (f x). Qed.

Record sorted_right (l : list Draft) (s : Sorting) : Prop := {
  sr_length : length (so_roles s) = length l;
  sr_primaries : so_primaries s = count untimed l;
  sr_others : so_others s = count is_other l;
  sr_roles : forall i d, l !! i = Some d -> so_roles s !! i = Some (fixed_role (take i l) d);
  sr_timed : forall i x, (i, x) ∈ so_timed s <->
    exists d, l !! i = Some d /\ is_other d = false /\ d_distance d = Some x;
  sr_once : NoDup (so_timed s).*1;
}.

Lemma lookup_snoc_cases {A} (l : list A) x i y :
  (l ++ [x]) !! i = Some y <-> l !! i = Some y \/ (i = length l /\ y = x).
Proof.
  rewrite lookup_snoc_Some. split; [naive_solver|].
  intros [E|[-> ->]]; [left|by right]. by apply lookup_lt_Some in E as Hi.
Qed.

Lemma sorted_drafts_right l : sorted_right l (sorted_drafts l).
Proof.
  induction l as [|d l IH] using rev_ind.
  { split; try done; [|constructor]. intros i x. split; [by intros ?%elem_of_nil|by intros (d & Hd & _)]. }
  unfold sorted_drafts in *. rewrite foldl_app. cbn [foldl].
  set (s := foldl _ _ l) in *. clearbody s. destruct IH as [H1 H2 H3 H4 H5 H6].
  assert (Hroles : forall r, r = fixed_role l d ->
    forall i e, (l ++ [d]) !! i = Some e -> (so_roles s ++ [r]) !! i = Some (fixed_role (take i (l ++ [d])) e)).
  { intros r -> i e [He|[-> ->]]%lookup_snoc_cases.
    - apply lookup_lt_Some in He as Hi. rewrite lookup_app_l by lia. rewrite take_app_le by lia. auto.
    - rewrite lookup_app_r by lia. rewrite H1, Nat.sub_diag. by rewrite take_app_length. }
  assert (Hold : is_other d = true \/ d_distance d = None -> forall i x, (i, x) ∈ so_timed s <->
    exists e, (l ++ [d]) !! i = Some e /\ is_other e = false /\ d_distance e = Some x).
  { intros Hd i x. rewrite H5. split; intros (e & He & Ho & Hx); exists e; (split; [|done]).
    - apply lookup_snoc_cases. by left.
    - apply lookup_snoc_cases in He as [He|[_ ->]]; [done|]. destruct Hd; congruence. }
  unfold sort_draft. unfold fixed_role in Hroles.
  destruct (is_other d) eqn:Eo; [|destruct (d_distance d) as [x|] eqn:Ed];
    (split; cbn [so_roles so_primaries so_others so_timed]; rewrite ?length_app, ?count_snoc, ?Eo;
     [simpl; lia| unfold untimed at 2; rewrite ?Eo, ?Ed; simpl; lia | simpl; lia | apply Hroles; congruence | auto | auto]).
  - intros i y. rewrite elem_of_app, list_elem_of_singleton, H5. split.
    + intros [(e & He & Hoe)|[= -> ->]]; [exists e|exists d]; (split; [apply lookup_snoc_cases|]); auto.
    + intros (e & [He|[-> ->]]%lookup_snoc_cases & Ho & Hx); [left; eauto|right]. congruence.
  - rewrite fmap_app. apply list.NoDup_app. split; [done|]. split; [|apply NoDup_singleton].
    intros i ((j & y) & -> & Hj)%list_elem_of_fmap. cbn [fst fmap list_fmap]. apply H5 in Hj as (e & He & _).
    apply lookup_lt_Some in He. intros [= Hij]%list_elem_of_singleton. lia.
Qed.

Lemma set_role_insert roles i role : (i < length roles)%nat -> set_role roles i role = <[i := Some role]> roles.
Proof. intros Hi. unfold set_role. by rewrite insert_take_drop. Qed.

Lemma rank_roles_lookup timed : forall roles rank,
  NoDup timed -> (forall i, i ∈ timed -> (i < length roles)%nat) ->
  length (rank_roles roles rank timed) = length roles
  /\ (forall i, i ∉ timed -> rank_roles roles rank timed !! i = roles !! i)
  /\ (forall r i, timed !! r = Some i -> rank_roles roles rank timed !! i = Some (Some (ranked_role (rank + r)))).
Proof.
  induction timed as [|t timed IH]; intros roles rank Hn Hl; cbn [rank_roles]; [done|].
  apply list.NoDup_cons in Hn as [Ht Hn]. assert (Hlt : (t < length roles)%nat) by (apply Hl; left).
  rewrite set_role_insert by done.
  destruct (IH (<[t := Some (ranked_role rank)]> roles) (S rank) Hn) as (H1 & H2 & H3).
  { intros i Hi. rewrite length_insert. apply Hl. by right. }
  rewrite length_insert in H1. split; [done|]. split.
  - intros i [Hi1 Hi2]%not_elem_of_cons. rewrite H2 by done. by rewrite list_lookup_insert_ne.
  - intros [|r] i Hr; cbn in Hr.
    + injection Hr as <-. rewrite H2 by done. rewrite list_lookup_insert_eq by done. by rewrite Nat.add_0_r.
    + rewrite (H3 r i Hr). do 3 f_equal. lia.
Qed.

(** The branches a lock holds back, the nearest first. *)
Definition by_distance (drafts : list Draft) : list (nat * Z) :=
  sort_by (fun a b => a.2 <=? b.2) (so_timed (sorted_drafts drafts)).

(** What the [r]th of them is called. *)
Definition timed_role (has_primary : bool) (r : nat) : BranchRole * string :=
  match has_primary, r with
  | true, r => ranked_role r
  | false, 0%nat => (Primary, "Primary")
  | false, S r => ranked_role r
  end.

Lemma assign_roles_order drafts :
  let timed := (by_distance drafts).*1 in
  length (assign_roles drafts) = length drafts
  /\ (forall i, i ∉ timed -> assign_roles drafts !! i = so_roles (sorted_drafts drafts) !! i)
  /\ (forall r i, timed !! r = Some i -> assign_roles drafts !! i = Some (Some (timed_role (any untimed drafts) r))).
Proof.
  intros timed. pose proof (sorted_drafts_right drafts) as [H1 H2 _ _ H5 H6].
  assert (Hn : NoDup timed) by (unfold timed, by_distance; by rewrite sort_by_perm).
  assert (Hl : forall i, i ∈ timed -> (i < length (so_roles (sorted_drafts drafts)))%nat).
  { intros i ((j & x) & -> & Hj)%list_elem_of_fmap. unfold by_distance in Hj. rewrite sort_by_perm in Hj.
    apply H5 in Hj as (d & Hd & _). apply lookup_lt_Some in Hd. simpl. lia. }
  assert (Hp : any untimed drafts = negb (so_primaries (sorted_drafts drafts) =? 0)%nat).
  { rewrite <- count_pos, H2. lia. }
  unfold assign_roles. change (List.map fst _) with timed. rewrite Hp. set (roles := so_roles _) in *.
  clearbody timed roles. rewrite <- H1. destruct (so_primaries _) as [|n]; simpl.
  - destruct timed as [|t timed]; [done|]. rewrite set_role_insert by (apply Hl; left).
    apply list.NoDup_cons in Hn as [Ht Hn].
    destruct (rank_roles_lookup timed (<[t := Some (Primary, "Primary")]> roles) 0 Hn) as (R1 & R2 & R3).
    { intros i Hi. rewrite length_insert. apply Hl. by right. }
    rewrite length_insert in R1. split; [done|]. split.
    + intros i [Hi1 Hi2]%not_elem_of_cons. rewrite R2 by done. by rewrite list_lookup_insert_ne.
    + intros [|r] i Hr; cbn in Hr; [|by apply R3].
      injection Hr as <-. rewrite R2 by done. apply list_lookup_insert_eq. apply Hl. left.
  - by apply (rank_roles_lookup timed roles 0).
Qed.

Variant role_case (drafts : list Draft) (i : nat) (d : Draft) : BranchRole * string -> Prop :=
| RoleOther : is_other d = true ->
    role_case drafts i d (Other, numbered "Other" (S (count is_other (take i drafts))))
| RolePrimary : untimed d = true ->
    role_case drafts i d (Primary, lettered "Primary" (count untimed (take i drafts)))
| RoleTimed r x : is_other d = false -> d_distance d = Some x -> by_distance drafts !! r = Some (i, x) ->
    role_case drafts i d (timed_role (any untimed drafts) r).

Lemma assign_roles_cases drafts i d : drafts !! i = Some d ->
  exists role, assign_roles drafts !! i = Some (Some role) /\ role_case drafts i d role.
Proof.
  intros Hd. destruct (assign_roles_order drafts) as (_ & A2 & A3).
  pose proof (sorted_drafts_right drafts) as [_ _ _ H4 H5 _].
  specialize (H4 i d Hd). unfold fixed_role in H4.
  assert (Hnot : is_other d = true \/ d_distance d = None -> i ∉ (by_distance drafts).*1).
  { intros Hc ((j & x) & -> & Hj)%list_elem_of_fmap. unfold by_distance in Hj. rewrite sort_by_perm in Hj.
    apply H5 in Hj as (e & He & Ho & Hx). simpl in *. simplify_eq. destruct Hc; congruence. }
  destruct (is_other d) eqn:Eo; [|destruct (d_distance d) as [x|] eqn:Ex].
  - eexists. rewrite A2 by auto. split; [exact H4|]. by constructor.
  - assert (Hin : (i, x) ∈ by_distance drafts).
    { unfold by_distance. rewrite sort_by_perm. apply H5. eauto. }
    apply list_elem_of_lookup in Hin as [r Hr]. eexists. split; [apply (A3 r)|by econstructor].
    by rewrite list_lookup_fmap, Hr.
  - eexists. rewrite A2 by auto. split; [exact H4|]. constructor. unfold untimed. by rewrite Eo, Ex.
Qed.

(** *** The labels tell the branches apart *)

Lemma append_not_self base a s : base <> base +:+ String a s.
Proof. induction base as [|b base IH]; simpl; [done|]. intros [= E]. done. Qed.

Lemma lettered_inj base i j : lettered base i = lettered base j -> i = j.
Proof.
  unfold lettered. destruct i, j; simpl; intros E; try done.
  - by apply append_not_self in E.
  - symmetry in E. by apply append_not_self in E.
  - apply append_inj in E. injection E as E. by apply letter_inj in E.
Qed.

Lemma numbered_inj base i j : numbered base (S i) = numbered base (S j) -> i = j.
Proof.
  unfold numbered. destruct i, j; cbn [Nat.leb]; intros E; try done.
  - by apply append_not_self in E.
  - symmetry in E. by apply append_not_self in E.
  - apply append_inj, append_inj, dec_inj in E; lia.
Qed.

Lemma ranked_role_inj i j : (ranked_role i).2 = (ranked_role j).2 -> i = j.
Proof.
  destruct i as [|[|i]], j as [|[|j]]; cbn -[dec]; try done.
  intros [= E]. apply dec_inj in E; lia.
Qed.

Definition label_head (s : string) : string := String.substring 0 5 s.

Lemma numbered_head n : label_head (numbered "Other" n) = "Other".
Proof. unfold numbered. by case_match. Qed.
Lemma lettered_head n : label_head (lettered "Primary" n) = "Prima".
Proof. unfold lettered. by case_match. Qed.
Lemma ranked_head n : label_head (ranked_role n).2 = "Recov" \/ label_head (ranked_role n).2 = "Emerg".
Proof. destruct n as [|[|n]]; cbn -[dec]; auto. Qed.
Lemma timed_head b r : label_head (timed_role b r).2 = "Recov" \/ label_head (timed_role b r).2 = "Emerg"
  \/ (b = false /\ r = 0%nat /\ label_head (timed_role b r).2 = "Prima").
Proof.
  pose proof (ranked_head r). pose proof (ranked_head (pred r)).
  destruct b, r; cbn [timed_role pred] in *; tauto.
Qed.

Lemma timed_role_inj b i j : (timed_role b i).2 = (timed_role b j).2 -> i = j.
Proof.
  destruct b; [apply ranked_role_inj|]. destruct i as [|i], j as [|j]; cbn [timed_role]; [done| | |].
  - intros E. apply (f_equal label_head) in E. destruct (ranked_head j) as [E'|E']; rewrite E' in E; done.
  - intros E. apply (f_equal label_head) in E. destruct (ranked_head i) as [E'|E']; rewrite E' in E; done.
  - intros E. f_equal. by apply ranked_role_inj.
Qed.

Lemma count_take_inj {A} (f : A -> bool) l i j x y :
  l !! i = Some x -> l !! j = Some y -> f x = true -> f y = true ->
  count f (take i l) = count f (take j l) -> i = j.
Proof.
  assert (Hlt : forall i j x, (i < j)%nat -> l !! i = Some x -> f x = true ->
    (count f (take i l) < count f (take j l))%nat).
  { clear. intros i j x Hij Hx Hf.
    pose proof (take_S_r l i x Hx) as HS.
    replace (take j l) with (take (S i) l ++ drop (S i) (take j l)).
    - rewrite count_app, HS, count_snoc, Hf. lia.
    - rewrite <- (take_drop (S i) (take j l)) at 2. f_equal. rewrite take_take. f_equal. lia. }
  intros Hx Hy Hfx Hfy E. destruct (Nat.lt_trichotomy i j) as [H|[H|H]]; [|done|].
  - specialize (Hlt i j x H Hx Hfx). lia.
  - specialize (Hlt j i y H Hy Hfy). lia.
Qed.

Lemma role_case_inj drafts i j di dj ri rj :
  drafts !! i = Some di -> drafts !! j = Some dj -> role_case drafts i di ri -> role_case drafts j dj rj ->
  ri.2 = rj.2 -> i = j.
Proof.
  intros Hi Hj Ci Cj E. pose proof (f_equal label_head E) as Eh.
  assert (Hany : forall k d, drafts !! k = Some d -> untimed d = true -> any untimed drafts = true).
  { intros k d Hk Hu. unfold any. apply existsb_exists. exists d. split; [|done].
    apply list_elem_of_In. by eapply list_elem_of_lookup_2. }
  destruct Ci as [Oi|Ui|r x Oi Xi Hr], Cj as [Oj|Uj|r' x' Oj Xj Hr']; cbn [snd] in *.
  1: { eapply count_take_inj; [exact Hi|exact Hj|done|done|]. by apply numbered_inj in E. }
  4: { eapply count_take_inj; [exact Hi|exact Hj|done|done|]. by apply lettered_inj in E. }
  7: { apply timed_role_inj in E as <-. rewrite Hr in Hr'. by injection Hr'. }
  all: rewrite ?numbered_head, ?lettered_head in Eh; try done.
  1: destruct (timed_head (any untimed drafts) r') as [Q|[Q|(Q1 & Q2 & Q)]]; congruence.
  1: destruct (timed_head (any untimed drafts) r') as [Q|[Q|(Q1 & Q2 & Q)]]; try congruence;
       rewrite (Hany i di) in Q1; done.
  all: destruct (timed_head (any untimed drafts) r) as [Q|[Q|(Q1 & Q2 & Q)]]; try congruence;
       rewrite (Hany j dj) in Q1; done.
Qed.

(** *** The order of the ranks *)

Lemma timed_role_mono b r r' : (r <= r')%nat -> reading_rank (timed_role b r).1 <= reading_rank (timed_role b r').1.
Proof. intros H. destruct b, r as [|[|[|r]]], r' as [|[|[|r']]]; simpl; lia. Qed.

Lemma by_distance_sorted drafts r r' a b :
  by_distance drafts !! r = Some a -> by_distance drafts !! r' = Some b -> (r < r')%nat -> a.2 <= b.2.
Proof.
  assert (Hs : StronglySorted (fun a b : nat * Z => (a.2 <=? b.2) = true) (by_distance drafts)).
  { apply sort_by_sorted; intros; lia. }
  revert Hs r r'. generalize (by_distance drafts). induction 1 as [|c l Hs IH Hc]; intros r r' Ha Hb Hlt; [done|].
  destruct r as [|r], r' as [|r']; [lia| |lia|apply (IH r r'); [done..|lia]].
  cbn in Ha, Hb. injection Ha as <-. rewrite List.Forall_forall in Hc.
  apply list_elem_of_lookup_2, list_elem_of_In, Hc in Hb. lia.
Qed.

Lemma assign_roles_Some drafts : exists roles, assign_roles drafts = List.map Some roles /\ length roles = length drafts.
Proof.
  destruct (assign_roles_order drafts) as (Hl & _).
  assert (Hs : forall i o, assign_roles drafts !! i = Some o -> is_Some o).
  { intros i o Ho. apply lookup_lt_Some in Ho as Hi. rewrite Hl in Hi.
    apply lookup_lt_is_Some in Hi as [d Hd]. destruct (assign_roles_cases drafts i d Hd) as (role & Hr & _).
    rewrite Hr in Ho. injection Ho as <-. eauto. }
  rewrite <- Hl. clear Hl. revert Hs. generalize (assign_roles drafts). intros l.
  induction l as [|o l IH]; intros Hs; [by exists []|].
  destruct IH as (roles & -> & Hlen); [intros i o' Ho'; by apply (Hs (S i))|].
  destruct (Hs 0%nat o eq_refl) as [role ->]. exists (role :: roles). simpl. split; [done|]. by rewrite Hlen.
Qed.

Lemma role_case_of drafts roles i d role :
  assign_roles drafts = List.map Some roles -> drafts !! i = Some d -> roles !! i = Some role ->
  role_case drafts i d role.
Proof.
  intros E Hd Hr. destruct (assign_roles_cases drafts i d Hd) as (role' & Hr' & Hc).
  rewrite E in Hr'. change (List.map Some roles) with (Some <$> roles) in Hr'.
  rewrite list_lookup_fmap, Hr in Hr'. simpl in Hr'. by simplify_eq.
Qed.

Lemma some_primary drafts roles : assign_roles drafts = List.map Some roles -> length roles = length drafts ->
  any (fun d => negb (is_other d)) drafts = true -> exists role, role ∈ roles /\ role.1 = Primary.
Proof.
  intros E Hl Hany.
  assert (Hat : forall i d, drafts !! i = Some d -> exists role, roles !! i = Some role /\ role_case drafts i d role).
  { intros i d Hd. assert (Hi : (i < length roles)%nat) by (rewrite Hl; by eapply lookup_lt_Some).
    apply lookup_lt_is_Some in Hi as [role Hr]. eauto using role_case_of. }
  assert (Hin : forall i d role, drafts !! i = Some d -> role_case drafts i d role -> roles !! i = Some role -> role ∈ roles).
  { intros. by eapply list_elem_of_lookup_2. }
  apply existsb_exists in Hany as (d & [i Hi]%list_elem_of_In%list_elem_of_lookup & Hd).
  apply negb_true_iff in Hd. destruct (Hat i d Hi) as (role & Hr & Hc).
  destruct Hc as [?|Hu|r x _ Hx Hr']; [congruence|eauto using list_elem_of_lookup_2|].
  destruct (any untimed drafts) eqn:Eu.
  - apply existsb_exists in Eu as (e & [j Hj]%list_elem_of_In%list_elem_of_lookup & He).
    destruct (Hat j e Hj) as (role & Hrj & Hc). exists role. split; [by eapply list_elem_of_lookup_2|].
    destruct Hc as [Ho|_|? ? _ Hx' _]; [|done|]; unfold untimed in He; [by rewrite Ho in He|].
    rewrite Hx', andb_false_r in He. done.
  - destruct (by_distance drafts) as [|[j y] rest] eqn:Eb; [done|].
    destruct (assign_roles_order drafts) as (_ & _ & A3). rewrite Eb, Eu in A3.
    specialize (A3 0%nat j eq_refl). rewrite E in A3. change (List.map Some roles) with (Some <$> roles) in A3.
    rewrite list_lookup_fmap in A3. destruct (roles !! j) as [role|] eqn:Ej; [|done].
    exists role. split; [by eapply list_elem_of_lookup_2|]. simpl in A3. by simplify_eq.
Qed.

Lemma role_cases_of drafts roles i role : assign_roles drafts = List.map Some roles -> length roles = length drafts ->
  roles !! i = Some role -> exists d, drafts !! i = Some d /\ role_case drafts i d role.
Proof.
  intros E Hl Hr. assert (Hi : (i < length drafts)%nat) by (rewrite <- Hl; by eapply lookup_lt_Some).
  apply lookup_lt_is_Some in Hi as [d Hd]. eauto using role_case_of.
Qed.

Lemma labels_distinct drafts roles : assign_roles drafts = List.map Some roles -> length roles = length drafts ->
  NoDup roles.*2.
Proof.
  intros E Hl. apply NoDup_alt. intros i j label. rewrite !list_lookup_fmap.
  intros (role & Hi & ->)%fmap_Some (role' & Hj & Hs)%fmap_Some.
  destruct (role_cases_of drafts roles i role E Hl Hi) as (d & Hd & Hc).
  destruct (role_cases_of drafts roles j role' E Hl Hj) as (e & He & Hc').
  exact (role_case_inj drafts i j d e role role' Hd He Hc Hc' Hs).
Qed.

(** The roles of a wallet's branches. Every branch is given one (the
    [expect] never fails) and no two branches share a label. A branch
    with no key, or one that needs a preimage, is set apart as "other";
    one that no lock holds back is primary; as long as some branch is not
    set apart, one is primary; and of two branches that locks hold back,
    the nearer never reads after the further. *)
Theorem roles_given drafts : exists roles,
  assign_roles drafts = List.map Some roles /\ length roles = length drafts
  /\ NoDup roles.*2
  /\ (forall i d role, drafts !! i = Some d -> roles !! i = Some role ->
       (is_other d = true -> role.1 = Other) /\ (is_other d = false -> d_distance d = None -> role.1 = Primary))
  /\ (any (fun d => negb (is_other d)) drafts = true -> exists role, role ∈ roles /\ role.1 = Primary)
  /\ (forall i j d e x y role role', drafts !! i = Some d -> drafts !! j = Some e ->
       is_other d = false -> is_other e = false -> d_distance d = Some x -> d_distance e = Some y -> x < y ->
       roles !! i = Some role -> roles !! j = Some role' -> reading_rank role.1 <= reading_rank role'.1).
Proof.
  destruct (assign_roles_Some drafts) as (roles & E & Hl). exists roles. split; [done|]. split; [done|].
  split; [by eapply labels_distinct|]. split; [|split].
  - intros i d role Hd Hr. pose proof (role_case_of drafts roles i d role E Hd Hr) as Hc.
    destruct Hc as [Ho|Hu|r x Ho Hx _]; (split; [intros Ho'|intros Ho' Hx']); try done; try congruence.
    unfold untimed in Hu. by rewrite Ho' in Hu.
  - by apply some_primary.
  - intros i j d e x y role role' Hd He Hod Hoe Hx Hy Hlt Hr Hr'.
    pose proof (role_case_of drafts roles i d role E Hd Hr) as Hc.
    pose proof (role_case_of drafts roles j e role' E He Hr') as Hc'.
    destruct Hc as [?|Hu|r x1 _ Hx1 Hi]; [congruence|unfold untimed in Hu; rewrite Hx, andb_false_r in Hu; done|].
    destruct Hc' as [?|Hu|r' y1 _ Hy1 Hj]; [congruence|unfold untimed in Hu; rewrite Hy, andb_false_r in Hu; done|].
    apply timed_role_mono. destruct (Nat.le_gt_cases r r') as [|Hgt]; [done|].
    pose proof (by_distance_sorted drafts r' r _ _ Hj Hi Hgt). simpl in *. simplify_eq. lia.
Qed.

(** ** The snapshot *)

(** What miniscript's normalization leaves: no constant but a policy that
    is one, thresholds within their items. *)
Fixpoint normalized {K} (p : Policy K) : bool :=
  match p with
  | Trivial | Unsatisfiable => false
  | Thresh k subs => (1 <=? k)%nat && (k <=? length subs)%nat && all normalized subs
  | _ => true
  end.

Lemma normalized_thresh {K} k (subs : list (Policy K)) :
  normalized (Thresh k subs) = true <-> (1 <= k <= length subs)%nat /\ forall q, In q subs -> normalized q = true.
Proof. cbn [normalized]. rewrite !andb_true_iff, all_true, !Nat.leb_le. tauto. Qed.

Lemma collect_map {A B E} (g : A -> result B E) l : (forall x, In x l -> exists y, g x = Ok y) ->
  exists ys, collect (List.map g l) = Ok ys /\ Forall2 (fun x y => g x = Ok y) l ys.
Proof.
  induction l as [|x l IH]; intros H; [by exists []|].
  destruct (H x (or_introl eq_refl)) as [y Hy]. destruct IH as (ys & E' & HF); [intros z Hz; apply H; by right|].
  exists (y :: ys). cbn [List.map collect]. rewrite Hy. cbn. rewrite E'. split; [done|]. by constructor.
Qed.

Section Snapshot.
Context {K : Type} `{DescriptorKey K}.

(** The policy's leaves, as the conditions they are read as hold. *)
Definition valued (book : KeyBook) (f : Condition -> bool) : Valuation K := {|
  signs pk := f (CKey (key_id book pk));
  after_met lock := f (CAfter (absolute lock));
  older_met lock := f (COlder (relative lock));
  known hash _ := f (CPreimage hash) |}.

Lemma count_Forall2 {A B} (f : A -> bool) (g : B -> bool) l k :
  Forall2 (fun x y => f x = g y) l k -> count f l = count g k.
Proof. induction 1 as [|x y l k E _ IH]; unfold count, retain in *; simpl; [done|]. rewrite E. destruct (g y); simpl; lia. Qed.

(** A condition is read for every policy without constants, and means
    what the policy does. *)
Lemma condition_right book p : normalized p = true ->
  exists c, condition book p = Ok c /\ wf_condition c = true /\ forall f, csat f c = sat (valued book f) p.
Proof.
  induction p as [p Hp|k subs IH] using Policy_rect'; intros Hn.
  { destruct p; try done; try (by eexists; split; [reflexivity|]). by edestruct Hp. }
  apply normalized_thresh in Hn as [Hk Hs].
  destruct (collect_map (condition book) subs) as (items & E & HF).
  { intros q Hq. rewrite List.Forall_forall in IH. destruct (IH q Hq (Hs q Hq)) as (c & Hc & _). eauto. }
  cbn [condition]. rewrite E. eexists. split; [reflexivity|].
  assert (HF' : Forall2 (fun q c => wf_condition c = true /\ forall f, csat f c = sat (valued book f) q) subs items).
  { rewrite List.Forall_forall in IH. clear E Hk. induction HF as [|q c subs items Hc _ IHF]; constructor.
    - destruct (IH q) as (c' & Hc' & Hr); [by left|apply Hs; by left|]. by assert (c = c') as -> by congruence.
    - apply IHF; intros; [apply IH|apply Hs]; simpl; auto. }
  pose proof (list.Forall2_length _ _ _ HF') as Hlen. split.
  - cbn [wf_condition]. rewrite !andb_true_iff, !Nat.leb_le, Nat.eqb_eq, forallb_forall. split; [lia|].
    intros c Hc. apply list_elem_of_In, list_elem_of_lookup in Hc as [i Hi].
    destruct (Forall2_lookup_r _ _ _ _ _ HF' Hi) as (q & _ & Hw & _). done.
  - intros f. rewrite csat_thresh, sat_thresh. f_equal. symmetry. apply count_Forall2.
    eapply list.Forall2_impl; [exact HF'|]. intros q c [_ Hc]. by rewrite Hc.
Qed.

Lemma flatten_normalized (p : Policy K) : normalized p = true -> forall q, In q (flatten p) -> normalized q = true.
Proof.
  induction p as [p Hp|k subs IH] using Policy_rect'; intros Hn q.
  { destruct p as [| | | | | | | | |k subs]; try (by intros [<-|[]]). by destruct (Hp k subs). }
  cbn [flatten]. case_match; [|by intros [<-|[]]].
  apply normalized_thresh in Hn as [_ Hs]. rewrite in_concat. intros (l & (r & <- & Hr)%in_map_iff & Hq).
  rewrite List.Forall_forall in IH. apply (IH r); auto.
Qed.

Lemma place_group_In (g q : Policy K) l : In q (place_group (Some g) l) -> q = g \/ In q l.
Proof.
  induction l as [|p l IH]; [done|]. assert (Hp : (exists pk, p = Key pk) \/ place_group (Some g) (p :: l) = p :: place_group (Some g) l)
    by (destruct p; eauto). destruct Hp as [[pk ->]| ->].
  - cbn [place_group]. rewrite place_group_None. intros [<-|Hq]; [by left|]. apply retain_In in Hq. right. right. tauto.
  - intros [<-|Hq]; [right; by left|]. destruct (IH Hq); [by left|right; by right].
Qed.

Lemma disjuncts_normalized (p : Policy K) : normalized p = true -> forall q, In q (disjuncts p) -> normalized q = true.
Proof.
  intros Hn q. pose proof (flatten_normalized p Hn) as Hf. unfold disjuncts.
  destruct (Nat.ltb_spec (length (retain is_key (flatten p))) 2) as [_|Hl]; [apply Hf|].
  intros [->|Hq]%place_group_In; [|by apply Hf]. apply normalized_thresh. split; [lia|].
  intros r [_ Hr]%retain_In. by destruct r.
Qed.
(** What [analyze] places, from the drafts and their roles. *)
Definition all_placed (book : KeyBook) (drafts : list Draft) (roles : list (BranchRole * string)) :=
  List.map (placed book) (List.combine (seq 0 (length drafts)) (List.combine drafts (List.map Some roles))).

Lemma all_placed_lookup book drafts roles i e : all_placed book drafts roles !! i = Some e ->
  exists d role, drafts !! i = Some d /\ roles !! i = Some role
    /\ e = ((reading_rank role.1, unwrap_or (d_distance d) 0), branch_of book i d role).
Proof.
  unfold all_placed. change (List.map (placed book) ?l) with (placed book <$> l). rewrite list_lookup_fmap.
  intros ((j & d & o) & [Hj [Hd Ho]%combine_lookup]%combine_lookup & ->)%fmap_Some.
  apply lookup_seq in Hj as [-> _]. simpl in Hd, Ho |- *.
  change (List.map Some roles) with (Some <$> roles) in Ho.
  rewrite list_lookup_fmap in Ho. apply fmap_Some in Ho as (role & Hr & ->). eauto.
Qed.

Lemma all_placed_conditions book drafts roles : length roles = length drafts ->
  List.map (fun e => b_condition e.2) (all_placed book drafts roles) = List.map d_condition drafts.
Proof.
  unfold all_placed. generalize 0%nat. revert roles. induction drafts as [|d drafts IH]; intros [|r roles] n Hl; try done.
  cbn [length seq List.map List.combine]. f_equal. apply IH. by injection Hl.
Qed.

Lemma StronglySorted_map {A B} (R : A -> A -> Prop) (S : B -> B -> Prop) (g : A -> B) l :
  (forall a b, In a l -> In b l -> R a b -> S (g a) (g b)) -> StronglySorted R l -> StronglySorted S (List.map g l).
Proof.
  intros HRS Hs. induction Hs as [|a l Hs IH Ha]; simpl; constructor.
  - apply IH. intros. apply HRS; simpl; auto.
  - rewrite List.Forall_forall in *. intros b (c & <- & Hc)%in_map_iff. apply HRS; simpl; auto.
Qed.

Lemma branches_ordered book drafts roles :
  StronglySorted (fun a b => reading_rank (b_role a) <= reading_rank (b_role b))
    (List.map snd (sort_by place_le (all_placed book drafts roles))).
Proof.
  eapply StronglySorted_map; [|apply sort_by_sorted].
  - intros a b Ha Hb Hab.
    assert (Hr : forall e, In e (sort_by place_le (all_placed book drafts roles)) -> reading_rank (b_role e.2) = e.1.1).
    { intros e He. apply sort_by_In in He. apply list_elem_of_In, list_elem_of_lookup in He as [i Hi].
      apply all_placed_lookup in Hi as (d & role & _ & _ & ->). done. }
    rewrite !Hr by done. unfold place_le, rank_le in Hab. lia.
  - intros. apply rank_le_total.
  - intros x y z. apply rank_le_trans.
Qed.

Lemma branches_apart {A} (g : PolicyBranch -> A) book drafts roles :
  (forall i j d e r r', drafts !! i = Some d -> drafts !! j = Some e -> roles !! i = Some r -> roles !! j = Some r' ->
    g (branch_of book i d r) = g (branch_of book j e r') -> i = j) ->
  NoDup (List.map g (List.map snd (sort_by place_le (all_placed book drafts roles)))).
Proof.
  intros Hg. change (NoDup (g <$> (snd <$> sort_by place_le (all_placed book drafts roles)))).
  rewrite sort_by_perm. apply NoDup_alt. intros i j x. rewrite !list_lookup_fmap.
  intros (b & (e & He & ->)%fmap_Some & ->)%fmap_Some (b' & (e' & He' & ->)%fmap_Some & E)%fmap_Some.
  apply all_placed_lookup in He as (d & r & Hd & Hr & ->), He' as (d' & r' & Hd' & Hr' & ->). eauto.
Qed.

Lemma draft_right book coins clock p : normalized p = true ->
  exists d, draft book coins clock p = Ok d /\ wf_condition (d_condition d) = true
    /\ d_state d = branch_state (d_condition d) coins clock
    /\ forall f, csat f (d_condition d) = sat (valued book f) p.
Proof.
  intros Hn. destruct (condition_right book p Hn) as (c & Hc & Hw & Hf). unfold draft. rewrite Hc. cbn. eauto.
Qed.

Lemma analyze_drafts descriptor script coins tip_height now_unix p : normalized p = true ->
  let book := collect_book p in
  exists drafts roles snapshot,
    analyze descriptor script coins tip_height now_unix (Ok p) = Ok snapshot
    /\ Forall2 (fun q d => draft book coins {| tip := tip_height; now := now_unix |} q = Ok d) (disjuncts p) drafts
    /\ assign_roles drafts = List.map Some roles /\ length roles = length drafts
    /\ s_branches snapshot = List.map snd (sort_by place_le (all_placed book drafts roles)).
Proof.
  intros Hn book.
  destruct (collect_map (draft book coins {| tip := tip_height; now := now_unix |}) (disjuncts p)) as (drafts & E & HF).
  { intros q Hq. destruct (draft_right book coins {| tip := tip_height; now := now_unix |} q) as (d & Hd & _); [|eauto].
    by apply (disjuncts_normalized p). }
  destruct (assign_roles_Some drafts) as (roles & Er & Hl). exists drafts, roles.
  unfold analyze. cbn [result_bind]. fold book. rewrite E. cbn [result_bind]. rewrite Er.
  destruct p; try done; eexists; (split; [reflexivity|done]).
Qed.

(** C39: what the policy page shows. A normalized policy is always read.
    Its branches are one per alternative, in the order of their roles,
    and no two share an id or a label; a way of holding the keys, locks
    and preimages spends by one of them exactly when it spends by the
    wallet's policy; each carries the state of its own condition, and
    says "spendable now" exactly in that state. *)
Theorem analyze_right descriptor script coins tip_height now_unix p : normalized p = true ->
  exists snapshot, analyze descriptor script coins tip_height now_unix (Ok p) = Ok snapshot
  /\ length (s_branches snapshot) = length (disjuncts p)
  /\ NoDup (List.map b_id (s_branches snapshot)) /\ NoDup (List.map b_label (s_branches snapshot))
  /\ StronglySorted (fun a b => reading_rank (b_role a) <= reading_rank (b_role b)) (s_branches snapshot)
  /\ (forall f, any (fun b => csat f (b_condition b)) (s_branches snapshot) = sat (valued (collect_book p) f) p)
  /\ (forall b, b ∈ s_branches snapshot -> wf_condition (b_condition b) = true
       /\ b_state b = branch_state (b_condition b) coins {| tip := tip_height; now := now_unix |}
       /\ (b_spendable_now b = true <-> b_state b = SpendableNow)).
Proof.
  intros Hn. destruct (analyze_drafts descriptor script coins tip_height now_unix p Hn)
    as (drafts & roles & snapshot & E & HF & Er & Hl & Hb).
  exists snapshot. split; [done|]. rewrite Hb.
  assert (Hd : Forall2 (fun q d => wf_condition (d_condition d) = true
    /\ d_state d = branch_state (d_condition d) coins {| tip := tip_height; now := now_unix |}
    /\ forall f, csat f (d_condition d) = sat (valued (collect_book p) f) q) (disjuncts p) drafts).
  { apply list.Forall2_same_length_lookup. split; [by eapply list.Forall2_length|].
    intros i q d Hq Hdi. destruct (draft_right (collect_book p) coins {| tip := tip_height; now := now_unix |} q) as (d' & Hd' & Hr).
    - apply (disjuncts_normalized p Hn), list_elem_of_In. by eapply list_elem_of_lookup_2.
    - rewrite list.Forall2_lookup in HF. specialize (HF i). rewrite Hq, Hdi in HF. inversion HF. by assert (d = d') as -> by congruence. }
  split_and!.
  - rewrite List.length_map, sort_by_length. rewrite <- (List.length_map (fun e => b_condition e.2)).
    rewrite all_placed_conditions, List.length_map by done. symmetry. by eapply list.Forall2_length.
  - apply branches_apart. intros i j d e r r' _ _ _ _ Eid. cbn in Eid. injection Eid as Eid. apply dec_inj in Eid; lia.
  - apply branches_apart. intros i j d e r r' _ _ Hi Hj Elab. cbn in Elab.
    eapply NoDup_lookup; [by eapply labels_distinct|..]; rewrite list_lookup_fmap; [by rewrite Hi|rewrite Hj; simpl; by f_equal].
  - apply branches_ordered.
  - intros f. rewrite any_map. rewrite <- (disjuncts_sat (valued (collect_book p) f)).
    transitivity (any (csat f) (List.map d_condition drafts)).
    + rewrite <- (all_placed_conditions (collect_book p) drafts roles Hl), any_map.
      rewrite <- !count_pos. by rewrite (count_perm _ _ _ (sort_by_perm place_le _)).
    + rewrite any_map, <- !count_pos. f_equal. symmetry. apply count_Forall2.
      eapply list.Forall2_impl; [exact Hd|]. intros q d (_ & _ & Hf). by rewrite Hf.
  - intros b Hbin. change (b ∈ snd <$> sort_by place_le (all_placed (collect_book p) drafts roles)) in Hbin.
    rewrite sort_by_perm in Hbin. apply list_elem_of_fmap in Hbin as (e & -> & [i Hi]%list_elem_of_lookup).
    apply all_placed_lookup in Hi as (d & role & Hdi & _ & ->).
    destruct (Forall2_lookup_r _ _ _ _ _ Hd Hdi) as (q & _ & Hw & Hs & _). cbn. split; [done|]. split; [done|].
    by destruct (d_state d).
Qed.
End Snapshot.

Example analyze_ex :
  (fun s => List.map (fun b => (b_id b, b_label b, b_summary b)) (s_branches s)) <$>
    (match analyze "d" WitnessScript [] (Some 10) 0
      (Ok (Thresh 1 [Thresh 2 [Key ("xpubB", "0"); Older 52560]; Key ("xpubA", "0")])) with Ok s => Some s | Err _ => None end)
  = Some [("b1", "Primary", "Key B"); ("b0", "Recovery", "Key A, once a coin has waited 52,560 blocks")].
Proof. vm_compute. reflexivity. Qed.

Lemma analyze_right_witness :
  let p := Thresh 1 [Thresh 2 [Key ("xpubB", "0"); Older 52560]; Key ("xpubA", "0"); Sha256 "00"] in
  exists snapshot, analyze "d" WitnessScript [] (Some 10) 0 (Ok p) = Ok snapshot
    /\ length (s_branches snapshot) = 3%nat
    /\ forall f, any (fun b => csat f (b_condition b)) (s_branches snapshot) = sat (valued (collect_book p) f) p.
Proof.
  intros p. destruct (analyze_right "d" WitnessScript [] (Some 10) 0 p eq_refl) as (snapshot & E & Hl & _ & _ & _ & Hf & _).
  exists snapshot. split; [exact E|]. split; [exact Hl|exact Hf].
Defined.
