(* ===== verification/Paths.v ===== *)
(** [input/mod.rs], the derivation paths of a lone extended key: the
    receive and change branches and the key origin a person types, checked
    and written the one way the descriptor writes them. *)
From S2P Require Import Prelude Utf8 Text Errors Network Xpub Connect.
From Stdlib Require Import Ascii.

(** Receive branch every single-key wallet uses, and its change branch. *)
Definition RECEIVE_BRANCH : string := "0/*".
Definition CHANGE_BRANCH : string := "1/*".

Record DerivationChoice := { dc_receive : string; dc_change : option string; dc_origin : option string }.

#[export] Instance DerivationChoice_eq_dec : EqDecision DerivationChoice.
Proof. solve_decision. Defined.

(** [DerivationChoice::default]. *)
Definition default_derivation : DerivationChoice := {| dc_receive := RECEIVE_BRANCH; dc_change := Some CHANGE_BRANCH; dc_origin := None |}.

(** ** A key and its origin *)

(** [trim_end_matches] of a set of characters. *)
Fixpoint trim_end_of (f : ascii -> bool) (s : string) : string :=
  match s with
  | "" => ""
  | String a s => match trim_end_of f s with "" => if f a then "" else String a "" | s => String a s end
  end.

Definition split_key_origin (token : string) : option (string * string) :=
  match strip_prefix "[" token with
  | None => None
  | Some rest =>
    match split_once "]" rest with
    | None => None
    | Some (inside, key) =>
      if (20 <? String.length key)%nat && looks_like_extended_key key then Some ("[" +:+ inside +:+ "]", key) else None
    end
  end.

Definition origin_purpose (origin : string) : option Z :=
  let path := trim_end_matches "]" (trim_start_matches "[" origin) in
  match split "/" path !! 1%nat with
  | None => None
  | Some purpose => parse_u32 (trim_end_of (one_of "'hH") purpose)
  end.

Definition script_from_origin (origin : string) : option ScriptKind :=
  match origin_purpose origin with
  | Some purpose =>
    if purpose =? 44 then Some Legacy
    else if purpose =? 49 then Some NestedSegwit
    else if purpose =? 84 then Some Segwit
    else if purpose =? 86 then Some Taproot
    else None
  | None => None
  end.

(** ** Steps *)

Definition HARDENED_INDEX : Z := Z.shiftl 1 31.
Definition derivation_error (detail : string) : CoreError := InvalidInput "derivation path" detail.
Definition MAX_QUOTED_STEP : nat := 12.

Definition quoted_step (step : string) : string :=
  if (length (chars step) <=? MAX_QUOTED_STEP)%nat then " (`" +:+ step +:+ "`)" else "".

(** [step.strip_suffix(['\'', 'h', 'H'])]. *)
Definition strip_mark (step : string) : option string :=
  match strip_suffix "'" step with
  | Some digits => Some digits
  | None => match strip_suffix "h" step with Some digits => Some digits | None => strip_suffix "H" step end
  end.

Definition parse_step (step : string) : result (Z * bool) string :=
  if bool_decide (step = "") then Err "has an empty step"
  else
    let '(digits, hardened) := match strip_mark step with Some digits => (digits, true) | None => (step, false) end in
    if bool_decide (digits = "") || negb (str_all is_digit digits)
    then Err ("has a step that is not a number" +:+ quoted_step step)
    else
      match parse_u32 digits with
      | Some index =>
        if index <? HARDENED_INDEX then Ok (index, hardened)
        else Err ("has an index above " +:+ dec (HARDENED_INDEX - 1) +:+ quoted_step step)
      | None => Err ("has an index above " +:+ dec (HARDENED_INDEX - 1) +:+ quoted_step step)
      end.

(** ** Branches *)

Definition BEFORE_END : string := "has `*` before the end; it can only be the last step".

Definition hardened_step (step : string) : string :=
  "has a hardened step" +:+ quoted_step step +:+ ": an extended public key cannot derive hardened children".

(** The loop over the steps, each rewritten as its number. *)
Fixpoint branch_steps (steps : list string) : result (list string) string :=
  match steps with
  | [] => Ok []
  | step :: steps =>
    if bool_decide (step = "*") then Err BEFORE_END
    else
      let? read := parse_step step in
      if (read.2 : bool) then Err (hardened_step step)
      else let? rest := branch_steps steps in Ok (dec read.1 :: rest)
  end.

Definition canonical_branch (path which : string) : CoreResult string :=
  let path := trim path in
  if bool_decide (path = "")
  then Err (derivation_error ("the " +:+ which +:+ " path is empty; wallets use `0/*` for receive and `1/*` for change"))
  else
    let refuse (reason : string) := derivation_error ("the " +:+ which +:+ " path " +:+ reason) in
    let steps := match strip_suffix "*" path with
                 | Some "" => Ok ""
                 | Some steps => match strip_suffix "/" steps with Some steps => Ok steps | None => Err (refuse "must end with `/*`") end
                 | None => Err (refuse "must end with `*`, the placeholder for the address index")
                 end in
    let? steps := steps in
    let steps := unwrap_or (strip_prefix "/" steps) steps in
    let canonical := if bool_decide (steps = "") then Ok [] else branch_steps (split "/" steps) in
    match canonical with
    | Err reason => Err (refuse reason)
    | Ok canonical => Ok (join "/" (canonical ++ ["*"]))
    end.

(** ** Key origins *)

Inductive OriginSource := Typed | File.

Definition NO_FINGERPRINT : string := "must start with the master key fingerprint, 8 hexadecimal characters".
Definition NO_WILDCARD : string := "cannot contain a wildcard; `*` belongs to the receive and change paths".

Definition mark (hardened : bool) : string := if hardened then "'" else "".

Fixpoint origin_steps (steps : list string) : result string string :=
  match steps with
  | [] => Ok ""
  | step :: steps =>
    if negb (lacks "*" step) then Err NO_WILDCARD
    else
      let? read := parse_step step in
      let? rest := origin_steps steps in
      Ok ("/" +:+ dec read.1 +:+ mark read.2 +:+ rest)
  end.

Definition unbracket (origin : string) : option string := match strip_prefix "[" origin with Some inner => strip_suffix "]" inner | None => None end.

(** The refusal of an origin: what a file holds is quoted, what was typed
    is not. *)
Definition refuse_origin (origin : string) (source : OriginSource) (typed filed : string) : CoreError :=
  derivation_error match source with Typed => "the key origin " +:+ typed | File => "the key origin `" +:+ origin +:+ "` " +:+ filed end.

Definition origin_inside (origin : string) (source : OriginSource) (inner : string) : CoreResult string :=
  let fingerprint := hd "" (split "/" inner) in
  if negb (String.length fingerprint =? 8)%nat || negb (str_all is_ascii_hexdigit fingerprint)
  then Err (refuse_origin origin source NO_FINGERPRINT (NO_FINGERPRINT +:+ ", not `" +:+ fingerprint +:+ "`"))
  else
    match origin_steps (tl (split "/" inner)) with
    | Err reason => Err (refuse_origin origin source reason reason)
    | Ok steps => Ok ("[" +:+ lower fingerprint +:+ steps +:+ "]")
    end.

Definition NO_BRACKETS : string := "must be written between brackets, `[fingerprint/path]`".

Definition canonical_origin (origin : string) (source : OriginSource) : CoreResult string :=
  let origin := trim origin in
  match unbracket origin with
  | Some inner => origin_inside origin source inner
  | None =>
    if starts_with "[" origin || ends_with "]" origin then Err (refuse_origin origin source NO_BRACKETS NO_BRACKETS)
    else origin_inside origin source origin
  end.

(** ** The derivation in effect *)

Section Effective.
Context `{Keys}.

Definition reject_field (field : option string) : CoreResult unit :=
  match field with Some text => reject_private_material text | None => Ok tt end.

Definition optionally {A B} (f : A -> CoreResult B) (o : option A) : CoreResult (option B) :=
  match o with Some a => let? b := f a in Ok (Some b) | None => Ok None end.

Definition effective_derivation (input_origin : option string) (choice : option DerivationChoice) : CoreResult DerivationChoice :=
  let choice := unwrap_or choice default_derivation in
  let? _ := reject_private_material (dc_receive choice) in
  let? _ := reject_field (dc_change choice) in
  let? _ := reject_field (dc_origin choice) in
  let? receive := canonical_branch (dc_receive choice) "receive" in
  let? change := optionally (fun change => canonical_branch change "change") (dc_change choice) in
  if bool_decide (change = Some receive)
  then Err (derivation_error ("the receive and change paths are both `" +:+ receive +:+ "`; change needs its own branch"))
  else
    let typed := match option_map trim (dc_origin choice) with Some "" => None | typed => typed end in
    let? origin := optionally (fun origin => canonical_origin origin Typed) (match typed with Some origin => Some origin | None => input_origin end) in
    Ok {| dc_receive := receive; dc_change := change; dc_origin := origin |}.
End Effective.

(** ** Branches, read and written *)

Definition branch_text (indices : list Z) : string := join "/" (List.map dec indices ++ ["*"]).
Definition unhardened (index : Z) : Prop := 0 <= index < HARDENED_INDEX.
Definition numeral (step : string) (index : Z) : Prop := step <> "" /\ str_all is_digit step = true /\ dec_value 0 step = index.

(** How a branch is spelled: the wildcard alone, or the steps with a slash
    before the wildcard, and one before them where there is one. *)
Definition spells (path : string) (indices : list Z) : Prop :=
  (path = "*" /\ indices = [])
  \/ exists lead steps, In lead [""; "/"] /\ Forall2 numeral steps indices /\ path = lead +:+ join "/" steps +:+ "/*".

Lemma HARDENED_INDEX_value : HARDENED_INDEX = 2147483648.
Proof. done. Qed.

Lemma strip_suffix_app c s : strip_suffix c (s +:+ String c "") = Some s.
Proof. induction s as [|a s IH]; simpl; [by rewrite Ascii.eqb_refl|]. rewrite IH. by destruct s. Qed.

Lemma strip_suffix_lacks c s : lacks c s = true -> strip_suffix c s = None.
Proof.
  intros Hs. destruct (strip_suffix c s) as [r|] eqn:E; [|done]. apply strip_suffix_Some in E as ->.
  unfold lacks in Hs. rewrite str_all_app in Hs. cbn [str_all] in Hs. rewrite Ascii.eqb_refl in Hs. by rewrite andb_comm in Hs.
Qed.

Lemma digits_unmarked s : str_all is_digit s = true -> strip_mark s = None.
Proof. intros Hs. unfold strip_mark. rewrite !strip_suffix_lacks by (by apply digits_lack). done. Qed.

Lemma parse_u32_digits s : str_all is_digit s = true -> s <> "" ->
  parse_u32 s = if dec_value 0 s <=? u32_max then Some (dec_value 0 s) else None.
Proof.
  intros Hs Hne. unfold parse_u32, without_plus. replace (strip_prefix "+" s) with (@None string).
  - cbn [unwrap_or]. rewrite Hs. by rewrite bool_decide_false by done.
  - destruct s as [|a s]; [done|]. cbn [strip_prefix]. destruct (Ascii.eqb_spec "+" a) as [<-|]; [|done]. done.
Qed.

Lemma parse_step_plain step index : parse_step step = Ok (index, false) <-> numeral step index /\ unhardened index.
Proof.
  unfold parse_step, numeral, unhardened. rewrite HARDENED_INDEX_value. split.
  - case_bool_decide as He; [done|]. destruct (strip_mark step) as [d|]; [by repeat case_match|].
    rewrite bool_decide_false by done. destruct (str_all is_digit step) eqn:Hs; [|done]. cbn [negb orb]. rewrite parse_u32_digits by done.
    pose proof (dec_value_bound step Hs). destruct (_ <=? _); [|done]. destruct (Z.ltb_spec (dec_value 0 step) 2147483648); [|done]. intros [= <-]. split; [done|lia].
  - intros [(Hne & Hs & <-) Hi]. rewrite bool_decide_false by done. rewrite digits_unmarked by done. rewrite bool_decide_false by done. rewrite Hs. cbn [negb orb].
    rewrite parse_u32_digits by done. unfold u32_max. destruct (Z.leb_spec (dec_value 0 step) 4294967295); [|lia].
    by destruct (Z.ltb_spec (dec_value 0 step) 2147483648); [|lia].
Qed.

Lemma branch_steps_right steps : forall texts, branch_steps steps = Ok texts <->
  exists indices, Forall2 numeral steps indices /\ Forall unhardened indices /\ texts = List.map dec indices.
Proof.
  induction steps as [|step steps IH]; intros texts; cbn [branch_steps].
  - split; [intros [= <-]; by exists []|]. intros (indices & Hn%list.Forall2_nil_inv_l & _ & ->). by subst.
  - split.
    + case_bool_decide; [done|]. destruct (parse_step step) as [[index hardened]|e] eqn:Ep; [|done]. cbn [result_bind fst snd].
      destruct hardened; [done|]. apply parse_step_plain in Ep as [Hn Hi]. destruct (branch_steps steps) as [rest|]; [|done]. cbn [result_bind].
      intros [= <-]. destruct (proj1 (IH rest) eq_refl) as (indices & Hall & Hu & ->). exists (index :: indices). split; [by constructor|]. split; [by constructor|done].
    + intros (indices & Hall & Hu & ->). inversion Hall as [|? index ? js Hn Hrest]; subst. inversion Hu as [|? ? Hi Hus]; subst.
      case_bool_decide as Hs; [destruct Hn as (_ & Hd & _); by rewrite Hs in Hd|].
      rewrite (proj2 (parse_step_plain step index) (conj Hn Hi)). cbn [result_bind fst snd].
      by rewrite (proj2 (IH (List.map dec js)) (ex_intro _ js (conj Hrest (conj Hus eq_refl)))).
Qed.

Lemma numeral_lacks step index c : is_digit c = false -> numeral step index -> lacks c step = true.
Proof. intros Hc (_ & Hs & _). by apply digits_lack. Qed.

Lemma numerals_lack steps indices : Forall2 numeral steps indices -> Forall (fun s => lacks "/" s = true) steps.
Proof. induction 1; constructor; [|done]. eapply numeral_lacks; done. Qed.

Lemma numerals_start steps indices : Forall2 numeral steps indices -> strip_prefix "/" (join "/" steps) = None.
Proof.
  intros Hall. destruct Hall as [|step index steps indices (Hne & Hs & _) Hall]; [done|].
  destruct step as [|a step]; [done|]. assert (Ha : is_digit a = true) by (simpl in Hs; by apply andb_true_iff in Hs as [? _]).
  assert (Hj : exists t, join "/" (String a step :: steps) = String a t) by (destruct steps; eexists; reflexivity).
  destruct Hj as [t ->]. cbn [strip_prefix]. destruct (Ascii.eqb_spec "/" a) as [<-|]; done.
Qed.

(** Steps written with slashes between them, read back. *)
Lemma steps_read steps indices : Forall2 numeral steps indices ->
  (if bool_decide (join "/" steps = "") then Ok [] else branch_steps (split "/" (join "/" steps))) = branch_steps steps.
Proof.
  intros Hall. destruct Hall as [|step index steps indices Hn Hall]; [done|]. rewrite bool_decide_false.
  - rewrite split_join; [done|done|]. constructor; [eapply numeral_lacks; [|exact Hn]; done|by eapply numerals_lack].
  - destruct Hn as (Hne & _). destruct step as [|a step]; [done|]. by destruct steps.
Qed.

Lemma spelled_read path which indices : spells path indices -> Forall unhardened indices -> trim path = path ->
  canonical_branch path which = Ok (branch_text indices).
Proof.
  intros Hs Hu Ht. unfold canonical_branch. rewrite Ht. destruct Hs as [[-> ->]|(lead & steps & Hl & Hall & ->)]; [done|].
  replace (lead +:+ join "/" steps +:+ "/*") with (((lead +:+ join "/" steps) +:+ "/") +:+ "*") by (by rewrite !str_app_assoc).
  set (body := lead +:+ join "/" steps). rewrite bool_decide_false by (by destruct body). rewrite strip_suffix_app.
  replace (match body +:+ "/" with "" => Ok "" | _ => _ end) with (@Ok string CoreError body).
  - cbn [result_bind]. unfold body. destruct Hl as [<-|[<-|[]]].
    + change ("" +:+ join "/" steps) with (join "/" steps). rewrite (numerals_start _ _ Hall). cbn [unwrap_or]. rewrite (steps_read _ _ Hall).
      by rewrite (proj2 (branch_steps_right steps (List.map dec indices)) (ex_intro _ indices (conj Hall (conj Hu eq_refl)))).
    + rewrite strip_prefix_app. cbn [unwrap_or]. rewrite (steps_read _ _ Hall).
      by rewrite (proj2 (branch_steps_right steps (List.map dec indices)) (ex_intro _ indices (conj Hall (conj Hu eq_refl)))).
  - rewrite strip_suffix_app. by destruct body.
Qed.

Lemma read_spelled path which text : canonical_branch path which = Ok text ->
  exists indices, spells (trim path) indices /\ Forall unhardened indices /\ text = branch_text indices.
Proof.
  unfold canonical_branch. case_bool_decide as Hne; [done|]. destruct (strip_suffix "*" (trim path)) as [steps|] eqn:Es; [|done].
  apply strip_suffix_Some in Es. rewrite Es. destruct steps as [|a steps].
  - cbn. intros [= <-]. exists []. split; [by left|done].
  - destruct (strip_suffix "/" (String a steps)) as [body|] eqn:Eb; [|done]. apply strip_suffix_Some in Eb. rewrite Eb. cbn [result_bind].
    assert (Hlead : exists lead, In lead [""; "/"] /\ body = lead +:+ unwrap_or (strip_prefix "/" body) body).
    { destruct (strip_prefix "/" body) as [rest|] eqn:Ep; [|exists ""; split; [by left|done]]. exists "/". split; [by right; left|].
      destruct body as [|b body]; [done|]. cbn [strip_prefix] in Ep. destruct (Ascii.eqb_spec "/" b) as [<-|]; [|done]. by injection Ep as <-. }
    destruct Hlead as (lead & Hin & Hbody). revert Hbody. generalize (unwrap_or (strip_prefix "/" body) body) as rest. intros rest ->.
    intros Hc. exists (match rest with "" => [] | _ => List.map (dec_value 0) (split "/" rest) end).
    case_bool_decide as Hr; [subst rest; injection Hc as <-; split; [|split; [constructor|done]]|].
    { right. exists lead, []. split; [done|]. split; [constructor|]. by rewrite !str_app_assoc. }
    destruct (branch_steps (split "/" rest)) as [texts|] eqn:Et; [|done]. injection Hc as <-. apply branch_steps_right in Et as (indices & Hall & Hu & ->).
    assert (Hmap : List.map (dec_value 0) (split "/" rest) = indices). { clear -Hall. induction Hall as [|x y l k (_ & _ & Hv)]; simpl; [done|]. by f_equal. }
    assert (Hi : (match rest with "" => [] | _ => List.map (dec_value 0) (split "/" rest) end) = indices) by (by destruct rest). rewrite Hi.
    split; [|done]. right. exists lead, (split "/" rest). split; [done|]. split; [done|]. rewrite join_split. by rewrite !str_app_assoc.
Qed.

Lemma dec_numeral index : unhardened index -> numeral (dec index) index.
Proof. intros [Hi _]. split; [by apply dec_nonempty|]. split; [by apply dec_digits|by apply dec_read]. Qed.

Lemma branch_text_spells indices : Forall unhardened indices -> spells (branch_text indices) indices.
Proof.
  intros Hu. unfold branch_text. destruct indices as [|index indices]; [by left|]. right. exists "", (List.map dec (index :: indices)). split; [by left|]. split.
  - revert Hu. generalize (index :: indices) as l. induction l as [|i l IH]; intros Hu; [constructor|]. inversion Hu; subst. constructor; [by apply dec_numeral|by apply IH].
  - change ("" +:+ ?x) with x. clear Hu. revert index. induction indices as [|i l IH]; intros index; [done|].
    change (List.map dec (index :: i :: l) ++ ["*"]) with (dec index :: (List.map dec (i :: l) ++ ["*"])).
    rewrite join_cons by done. rewrite IH. change (List.map dec (index :: i :: l)) with (dec index :: List.map dec (i :: l)).
    rewrite (join_cons "/" (dec index) (List.map dec (i :: l))) by done. by rewrite !str_app_assoc.
Qed.

(** The characters a branch is written in. *)
Definition branch_char (a : ascii) : bool := is_digit a || (a =? "/")%char || (a =? "*")%char.

Lemma join_all f sep l : str_all f sep = true -> Forall (fun s => str_all f s = true) l -> str_all f (join sep l) = true.
Proof.
  intros Hsep. induction 1 as [|s l Hs Hl IH]; [done|]. destruct l as [|t l]; [done|]. rewrite join_cons by done. by rewrite !str_all_app, Hs, Hsep, IH.
Qed.

Lemma branch_text_chars indices : Forall unhardened indices -> str_all branch_char (branch_text indices) = true.
Proof.
  intros Hu. apply join_all; [done|]. apply list.Forall_app. split; [|by repeat constructor]. induction Hu as [|i l [Hi _] Hu IH]; constructor; [|done].
  eapply str_all_impl; [|by apply dec_digits]. intros a Ha. unfold branch_char. by rewrite Ha.
Qed.

Lemma branch_trimmed indices : Forall unhardened indices -> trim (branch_text indices) = branch_text indices.
Proof. intros Hu. apply trim_graph. eapply str_all_impl; [|by apply branch_text_chars]. apply byte_implies. vm_compute. done. Qed.

Lemma branch_text_inj indices indices' : Forall unhardened indices -> Forall unhardened indices' ->
  branch_text indices = branch_text indices' -> indices = indices'.
Proof.
  assert (Hcut : forall l, Forall unhardened l -> split "/" (branch_text l) = List.map dec l ++ ["*"]).
  { intros l Hl. apply split_join; [by destruct l|]. apply list.Forall_app. split; [|by repeat constructor].
    induction Hl as [|i l [Hi _] Hl IH]; constructor; [|done]. by apply digits_lack, dec_digits. }
  intros Hu Hu' He. pose proof (Hcut _ Hu) as E. rewrite He, (Hcut _ Hu') in E. apply app_inj_tail in E as [E _]. clear Hcut He.
  revert indices Hu E. induction Hu' as [|j l Hj Hl IH]; intros [|i indices] Hu E; try done. inversion Hu as [|? ? Hi Hus]; subst. injection E as Ed El.
  f_equal; [|by apply IH]. apply dec_inj; [apply Hi|apply Hj|done].
Qed.

(** A branch is taken exactly when it is spelled in numbers below the
    hardened ones with the wildcard last, and what is answered is those
    numbers written the one way: read again, it stays. *)
Theorem branch_read_exactly path which text :
  canonical_branch path which = Ok text <->
  exists indices, spells (trim path) indices /\ Forall unhardened indices /\ text = branch_text indices
    /\ canonical_branch text which = Ok text.
Proof.
  split.
  - intros Hc. destruct (read_spelled _ _ _ Hc) as (indices & Hs & Hu & ->). exists indices. repeat (split; [done|]).
    apply spelled_read; [by apply branch_text_spells|done|by apply branch_trimmed].
  - intros (indices & Hs & Hu & -> & _). destruct (decide (trim (trim path) = trim path)) as [Ht|Ht].
    + pose proof (spelled_read (trim path) which indices Hs Hu Ht) as Hr. unfold canonical_branch in *. by rewrite Ht in Hr.
    + exfalso. apply Ht. apply trim_graph.
      assert (Hch : str_all branch_char (trim path) = true).
      { destruct Hs as [[-> _]|(lead & steps & Hl & Hall & ->)]; [done|]. rewrite !str_all_app. apply andb_true_iff. split; [by destruct Hl as [<-|[<-|[]]]|].
        apply andb_true_iff. split; [|done]. apply join_all; [done|]. clear -Hall. induction Hall as [|s i l k (_ & Hd & _) Hall IH]; constructor; [|done].
        eapply str_all_impl; [|exact Hd]. intros a Ha. unfold branch_char. by rewrite Ha. }
      eapply str_all_impl; [|exact Hch]. apply byte_implies. vm_compute. done.
Qed.

(** ** Origins, read and written *)

Definition step_text (step : Z * bool) : string := dec step.1 +:+ mark step.2.
Definition origin_text (fingerprint : string) (steps : list (Z * bool)) : string := "[" +:+ join "/" (fingerprint :: List.map step_text steps) +:+ "]".
Definition indexed (step : Z * bool) : Prop := unhardened step.1.
Definition is_fingerprint (s : string) : Prop := String.length s = 8%nat /\ str_all is_ascii_hexdigit s = true /\ lower s = s.

Lemma strip_mark_digits step digits : strip_mark step = Some digits -> exists c, one_of "'hH" c = true /\ step = digits +:+ String c "".
Proof.
  unfold strip_mark. destruct (strip_suffix "'" step) eqn:E1; [intros [= ->]; apply strip_suffix_Some in E1 as ->; by exists "'"%char|].
  destruct (strip_suffix "h" step) eqn:E2; [intros [= ->]; apply strip_suffix_Some in E2 as ->; by exists "h"%char|].
  intros E3. apply strip_suffix_Some in E3 as ->. by exists "H"%char.
Qed.

Lemma parse_step_index step index hardened : parse_step step = Ok (index, hardened) -> unhardened index.
Proof.
  unfold parse_step, unhardened. case_bool_decide; [done|].
  destruct (match strip_mark step with Some digits => (digits, true) | None => (step, false) end) as [digits h].
  destruct (bool_decide (digits = "") || negb (str_all is_digit digits)) eqn:E; [done|]. apply orb_false_iff in E as [Hne Hd].
  apply bool_decide_eq_false_1 in Hne. apply negb_false_iff in Hd. rewrite parse_u32_digits by done. pose proof (dec_value_bound _ Hd).
  destruct (_ <=? _); [|done]. destruct (Z.ltb_spec (dec_value 0 digits) HARDENED_INDEX); [|done]. intros [= <- _]. lia.
Qed.

Lemma parse_step_written step : indexed step -> parse_step (step_text step) = Ok step.
Proof.
  destruct step as [index hardened]. unfold indexed, step_text. cbn [fst snd]. intros Hi. destruct (dec_numeral index Hi) as (Hne & Hd & Hv).
  destruct hardened; cbn [mark].
  - unfold parse_step, strip_mark. rewrite strip_suffix_app. rewrite !bool_decide_false by (by destruct (dec index)). rewrite Hd. cbn [negb orb].
    rewrite parse_u32_digits by done. rewrite Hv. unfold unhardened in Hi. rewrite HARDENED_INDEX_value in *. unfold u32_max.
    destruct (Z.leb_spec index 4294967295); [|lia]. by destruct (Z.ltb_spec index 2147483648); [|lia].
  - rewrite str_app_nil_r. by apply parse_step_plain.
Qed.

Lemma origin_steps_read steps : forall text, origin_steps steps = Ok text ->
  exists l, Forall indexed l /\ text = foldr (fun step rest => "/" +:+ step_text step +:+ rest) "" l.
Proof.
  induction steps as [|step steps IH]; intros text; cbn [origin_steps]; [intros [= <-]; by exists []|].
  destruct (lacks "*" step); [|done]. cbn [negb]. destruct (parse_step step) as [[index hardened]|] eqn:Ep; [|done]. cbn [result_bind fst snd].
  destruct (origin_steps steps) as [rest|]; [|done]. cbn [result_bind]. intros [= <-]. destruct (IH rest eq_refl) as (l & Hl & ->).
  exists ((index, hardened) :: l). split; [constructor; [by apply parse_step_index in Ep|done]|]. unfold step_text at 2. cbn [fst snd foldr]. by rewrite str_app_assoc.
Qed.

Lemma steps_written l : Forall indexed l ->
  origin_steps (List.map step_text l) = Ok (foldr (fun step rest => "/" +:+ step_text step +:+ rest) "" l).
Proof.
  induction 1 as [|step l Hs Hl IH]; [done|]. cbn [List.map origin_steps]. replace (lacks "*" (step_text step)) with true.
  - cbn [negb]. rewrite parse_step_written by done. cbn [result_bind]. rewrite IH. cbn [result_bind foldr]. unfold step_text at 2. by rewrite str_app_assoc.
  - unfold step_text. rewrite lacks_app. destruct Hs as [Hs _]. rewrite (digits_lack "*" (dec step.1)) by (done || by apply dec_digits). by destruct step as [? []].
Qed.

Lemma joined_steps first l : join "/" (first :: List.map step_text l) = first +:+ foldr (fun step rest => "/" +:+ step_text step +:+ rest) "" l.
Proof.
  revert first. induction l as [|step l IH]; intros first; [symmetry; apply str_app_nil_r|]. cbn [List.map foldr]. rewrite join_cons by done. by rewrite IH.
Qed.

Lemma lower_hex s : str_all is_ascii_hexdigit s = true ->
  str_all is_ascii_hexdigit (lower s) = true /\ lower (lower s) = lower s /\ String.length (lower s) = String.length s.
Proof.
  assert (Hh : forall a, is_ascii_hexdigit a = true -> is_ascii_hexdigit (lower_byte a) = true) by (apply (byte_implies is_ascii_hexdigit (fun a => is_ascii_hexdigit (lower_byte a))); vm_compute; done).
  assert (Hl : forall a, (lower_byte (lower_byte a) =? lower_byte a)%char = true) by (apply (every_byte (fun a => (lower_byte (lower_byte a) =? lower_byte a)%char)); vm_compute; done).
  induction s as [|a s IH]; [done|]. cbn [str_all lower String.length]. intros [Ha Hs]%andb_true_iff. destruct (IH Hs) as (H1 & H2 & H3).
  rewrite Hh, H1, H2, H3 by done. split; [done|]. split; [|done]. f_equal. by apply Ascii.eqb_eq.
Qed.

Lemma hexdigits_lack c s : is_ascii_hexdigit c = false -> str_all is_ascii_hexdigit s = true -> lacks c s = true.
Proof. apply str_all_lacks. Qed.

Lemma step_text_lacks c step : indexed step -> is_digit c = false -> (c =? "'")%char = false -> lacks c (step_text step) = true.
Proof.
  intros [Hi _] Hd Hc. unfold step_text. rewrite lacks_app, (digits_lack c (dec step.1)) by (done || by apply dec_digits).
  destruct step as [i []]; [|done]. cbn [snd mark lacks str_all]. unfold lacks. cbn [str_all]. rewrite Ascii.eqb_sym. by rewrite Hc.
Qed.

(** The characters an origin is written in. *)
Definition origin_char (a : ascii) : bool := is_ascii_hexdigit a || one_of "/'[]" a.

Lemma origin_text_chars fingerprint l : is_fingerprint fingerprint -> Forall indexed l -> str_all origin_char (origin_text fingerprint l) = true.
Proof.
  intros (_ & Hf & _) Hl. unfold origin_text. rewrite !str_all_app. apply andb_true_iff. split; [done|]. apply andb_true_iff. split; [|done].
  apply join_all; [done|]. constructor; [eapply str_all_impl; [|exact Hf]; intros a Ha; unfold origin_char; by rewrite Ha|].
  induction Hl as [|step l [Hs _] Hl IH]; constructor; [|done]. unfold step_text. rewrite str_all_app. apply andb_true_iff. split.
  - eapply str_all_impl; [|by apply dec_digits]. apply byte_implies. vm_compute. done.
  - by destruct step as [? []].
Qed.

Lemma origin_trimmed fingerprint l : is_fingerprint fingerprint -> Forall indexed l -> trim (origin_text fingerprint l) = origin_text fingerprint l.
Proof. intros Hf Hl. apply trim_graph. eapply str_all_impl; [|by apply origin_text_chars]. apply byte_implies. vm_compute. done. Qed.

Lemma inside_read origin source inner text : origin_inside origin source inner = Ok text ->
  exists fingerprint l, is_fingerprint fingerprint /\ Forall indexed l /\ text = origin_text fingerprint l.
Proof.
  unfold origin_inside. generalize (hd "" (split "/" inner)) as fp. intros fp. cbv zeta.
  destruct (negb (String.length fp =? 8)%nat || negb (str_all is_ascii_hexdigit fp)) eqn:E; [done|].
  apply orb_false_iff in E as [El Eh]. apply negb_false_iff in El, Eh. apply Nat.eqb_eq in El. destruct (origin_steps _) as [s|] eqn:Es; [|done].
  intros [= <-]. apply origin_steps_read in Es as (l & Hl & ->). destruct (lower_hex fp Eh) as (H1 & H2 & H3). exists (lower fp), l.
  split; [split; [congruence|done]|]. split; [done|]. unfold origin_text. rewrite joined_steps. by rewrite !str_app_assoc.
Qed.

Lemma origin_read origin source text : canonical_origin origin source = Ok text ->
  exists fingerprint l, is_fingerprint fingerprint /\ Forall indexed l /\ text = origin_text fingerprint l.
Proof. unfold canonical_origin. destruct (unbracket (trim origin)); [apply inside_read|]. destruct (_ || _); [done|apply inside_read]. Qed.

Lemma origin_written fingerprint l source : is_fingerprint fingerprint -> Forall indexed l ->
  canonical_origin (origin_text fingerprint l) source = Ok (origin_text fingerprint l).
Proof.
  intros Hf Hl. unfold canonical_origin. rewrite origin_trimmed by done. unfold unbracket, origin_text at 1. rewrite strip_prefix_app, strip_suffix_app.
  destruct Hf as (Hlen & Hhex & Hlow). unfold origin_inside. rewrite split_join; [|done|].
  - cbn [hd tl]. rewrite Hlen, Nat.eqb_refl, Hhex. cbn [negb orb]. rewrite steps_written by done. rewrite Hlow. unfold origin_text. rewrite joined_steps. by rewrite !str_app_assoc.
  - constructor; [by apply hexdigits_lack|]. induction Hl as [|step l Hs Hl IH]; constructor; [|done]. by apply step_text_lacks.
Qed.

(** ** What is written carries no private key *)

Definition short (t : string) : Prop := (String.length t < 20)%nat.

Lemma tokens_short s : short s -> Forall short (tokens (pieces is_base58_char s)).
Proof.
  intros Hs. assert (Hin : forall t, In t (tokens (pieces is_base58_char s)) -> (String.length t <= String.length s)%nat).
  { clear Hs. pose proof (text_of_pieces is_base58_char s) as Hp. revert Hp. generalize (pieces is_base58_char s) as l. intros l <-. induction l as [|[u|a] l IH]; intros t; [done|..].
    - intros [<-|Ht]; cbn [text_of foldr piece_text]; rewrite str_length_app; [lia|]. specialize (IH t Ht). unfold text_of in IH. lia.
    - intros Ht. specialize (IH t Ht). cbn [text_of foldr piece_text]. rewrite str_length_app. unfold text_of in IH. lia. }
  apply List.Forall_forall. intros t Ht. specialize (Hin t Ht). unfold short in *. lia.
Qed.

Lemma cut_short p a q : is_base58_char a = false -> Forall short (tokens (pieces is_base58_char p)) -> Forall short (tokens (pieces is_base58_char q)) ->
  Forall short (tokens (pieces is_base58_char (p +:+ String a q))).
Proof. intros Ha Hp Hq. rewrite pieces_delimiter by done. unfold tokens. rewrite omap_app. apply list.Forall_app. by split. Qed.

Lemma join_short l : Forall short l -> Forall short (tokens (pieces is_base58_char (join "/" l))).
Proof.
  induction 1 as [|s l Hs Hl IH]; [constructor|]. destruct l as [|t l]; [by apply tokens_short|]. rewrite join_cons by done. change ("/" +:+ ?x) with (String "/" x).
  apply cut_short; [done|by apply tokens_short|done].
Qed.

Lemma one_word l : all (fun c => negb (is_whitespace c)) l = true -> (length (words_from l) <= 1)%nat.
Proof.
  induction l as [|c l IH]; cbn [all forallb words_from length]; [lia|]. intros [Hc Hl]%andb_true_iff. apply negb_true_iff in Hc. rewrite Hc.
  specialize (IH Hl). destruct l as [|d l]; [cbn; lia|]. cbn [forallb] in Hl. apply andb_true_iff in Hl as [Hd _]. apply negb_true_iff in Hd. rewrite Hd.
  destruct (words_from (d :: l)); cbn [length] in *; lia.
Qed.

Section Settled.
Context `{Keys}.

Lemma plain_not_private text : str_all graph text = true -> Forall short (tokens (pieces is_base58_char text)) -> reject_private_material text = Ok tt.
Proof.
  intros Hg Hs. unfold reject_private_material. replace (any private_token _) with false.
  - replace (seed_phrase text) with false; [done|]. unfold seed_phrase. rewrite chars_ascii by (eapply str_all_impl; [apply graph_ascii|done]).
    assert (Hw : all (fun c => negb (is_whitespace c)) (bytes text) = true).
    { clear Hs. induction text as [|a s IH]; [done|]. cbn [str_all] in Hg. apply andb_true_iff in Hg as [Ha Hg]. unfold all in *. cbn [bytes forallb]. by rewrite graph_not_blank, IH. }
    pose proof (one_word _ Hw) as Hone. destruct (words_from (bytes text)) as [|w [|]]; [done|done|cbn [length] in Hone; lia].
  - symmetry. apply any_false. intros t Ht. rewrite List.Forall_forall in Hs. specialize (Hs t Ht). unfold private_token, short in *.
    by destruct (Nat.ltb_spec (String.length t) 20); [|lia].
Qed.

Lemma dec_short index : unhardened index -> (String.length (dec index) <= 10)%nat.
Proof. intros [Hl Hh]. rewrite HARDENED_INDEX_value in Hh. apply (dec_length_le index 9). lia. Qed.

Lemma branch_not_private indices : Forall unhardened indices -> reject_private_material (branch_text indices) = Ok tt.
Proof.
  intros Hu. apply plain_not_private.
  - eapply str_all_impl; [|by apply branch_text_chars]. apply byte_implies. vm_compute. done.
  - apply join_short, list.Forall_app. split; [|repeat constructor; unfold short; cbn; lia].
    induction Hu as [|i l Hi Hu IH]; constructor; [|done]. pose proof (dec_short i Hi). unfold short. lia.
Qed.

Lemma origin_not_private fingerprint l : is_fingerprint fingerprint -> Forall indexed l -> reject_private_material (origin_text fingerprint l) = Ok tt.
Proof.
  intros Hf Hl. apply plain_not_private.
  - eapply str_all_impl; [|by apply origin_text_chars]. apply byte_implies. vm_compute. done.
  - unfold origin_text. change ("[" +:+ ?x) with ("" +:+ String "[" x). apply cut_short; [done|constructor|]. change (?x +:+ "]") with (x +:+ String "]" "").
    apply cut_short; [done| |constructor]. apply join_short. constructor; [destruct Hf as (He & _); unfold short; lia|].
    induction Hl as [|step l Hs Hl IH]; constructor; [|done]. pose proof (dec_short _ Hs). unfold step_text, short. rewrite str_length_app. destruct step as [? []]; cbn [mark snd String.length]; cbn [fst] in *; lia.
Qed.

Lemma branch_settled path which text : canonical_branch path which = Ok text ->
  canonical_branch text which = Ok text /\ reject_private_material text = Ok tt.
Proof.
  intros Hc. destruct (read_spelled _ _ _ Hc) as (indices & _ & Hu & ->). split; [|by apply branch_not_private].
  apply spelled_read; [by apply branch_text_spells|done|by apply branch_trimmed].
Qed.

(** The derivation answered is one the app may hand back as it is: it is
    read again as itself. Its change branch is another than its receive
    branch; every field typed was looked at for a private key. *)
Theorem derivation_settles input_origin choice derivation : effective_derivation input_origin choice = Ok derivation ->
  effective_derivation input_origin (Some derivation) = Ok derivation
  /\ dc_change derivation <> Some (dc_receive derivation)
  /\ forall typed, choice = Some typed -> reject_private_material (dc_receive typed) = Ok tt
       /\ reject_field (dc_change typed) = Ok tt /\ reject_field (dc_origin typed) = Ok tt.
Proof.
  intros Hd. unfold effective_derivation in Hd. set (c := unwrap_or choice default_derivation) in Hd.
  destruct (reject_private_material (dc_receive c)) as [[]|] eqn:E1; [|done]. cbn [result_bind] in Hd.
  destruct (reject_field (dc_change c)) as [[]|] eqn:E2; [|done]. cbn [result_bind] in Hd.
  destruct (reject_field (dc_origin c)) as [[]|] eqn:E3; [|done]. cbn [result_bind] in Hd.
  destruct (canonical_branch (dc_receive c) "receive") as [receive|] eqn:Er; [|done]. cbn [result_bind] in Hd.
  destruct (optionally _ (dc_change c)) as [change|] eqn:Ec; [|done]. cbn [result_bind] in Hd. case_bool_decide as Hne; [done|].
  set (o := match _ with Some origin => Some origin | None => input_origin end) in Hd.
  destruct (optionally _ o) as [origin|] eqn:Eo; [|done]. injection Hd as <-. split; [|split; [done|intros typed ->; done]].
  apply branch_settled in Er as [Er Pr]. unfold effective_derivation. cbn [unwrap_or dc_receive dc_change dc_origin]. rewrite Pr. cbn [result_bind].
  assert (Hc : reject_field change = Ok tt /\ optionally (fun change => canonical_branch change "change") change = Ok change).
  { destruct (dc_change c) as [typed|]; cbn [optionally] in Ec; [|by injection Ec as <-]. destruct (canonical_branch typed "change") as [t|] eqn:Et; [|done].
    injection Ec as <-. apply branch_settled in Et as [Et Pt]. cbn [reject_field optionally]. by rewrite Et. }
  destruct Hc as [-> Hc]. cbn [result_bind].
  assert (Ho : reject_field origin = Ok tt
    /\ optionally (fun origin => canonical_origin origin Typed)
         match (match option_map trim origin with Some "" => None | typed => typed end) with Some origin => Some origin | None => input_origin end = Ok origin).
  { destruct o as [typed|] eqn:Ho; cbn [optionally] in Eo.
    - destruct (canonical_origin typed Typed) as [t|] eqn:Et; [|done]. injection Eo as <-. apply origin_read in Et as (fp & l & Hf & Hl & ->).
      cbn [reject_field option_map]. rewrite origin_not_private, origin_trimmed by done. split; [done|]. 
      change (optionally (fun origin => canonical_origin origin Typed) (Some (origin_text fp l)) = Ok (Some (origin_text fp l))). cbn [optionally]. by rewrite origin_written.
    - injection Eo as <-. split; [done|]. cbn [option_map]. unfold o in Ho. destruct (match option_map trim (dc_origin c) with Some "" => None | typed => typed end); [done|]. by rewrite Ho. }
  destruct Ho as [-> Ho]. cbn [result_bind]. rewrite Er. cbn [result_bind]. rewrite Hc. cbn [result_bind]. rewrite bool_decide_false by done. by rewrite Ho.
Qed.
End Settled.

(** ** An example: an odd receive branch, and the origin the key carries *)

Module Demo.
Definition origin : option string := Some "[ABCDEF01/84h/0H/0']".
Definition typed : DerivationChoice := {| dc_receive := " /2/007/* "; dc_change := Some "*"; dc_origin := Some " " |}.
Definition answered : DerivationChoice := {| dc_receive := "2/7/*"; dc_change := Some "*"; dc_origin := Some "[abcdef01/84'/0'/0']" |}.
End Demo.

Lemma derivation_settles_witness :
  effective_derivation (H := Xpub.Demo.demo_keys) Demo.origin (Some Demo.typed) = Ok Demo.answered
  /\ effective_derivation (H := Xpub.Demo.demo_keys) Demo.origin (Some Demo.answered) = Ok Demo.answered.
Proof.
  assert (Hd : effective_derivation (H := Xpub.Demo.demo_keys) Demo.origin (Some Demo.typed) = Ok Demo.answered) by (vm_compute; reflexivity).
  split; [exact Hd|]. apply (derivation_settles (H := Xpub.Demo.demo_keys) Demo.origin (Some Demo.typed) Demo.answered Hd).
Defined.
