(* ===== verification/Descriptors.v ===== *)
(** [input/mod.rs], the descriptors: which are read at all, for which
    networks, and when two of them are the branches of one wallet; with
    what [wallet/policy.rs] makes of a descriptor to compare them.
    Parsing, lifting and deriving are miniscript's: a descriptor is what
    the source asks of it. *)
From S2P Require Import Prelude Utf8 Text Errors Network Xpub PolicyModel.
From Stdlib Require Import Ascii.

(** ** miniscript *)

(** A step of a path, of the bitcoin crate. *)
Record ChildNumber := { c_index : Z; c_hardened : bool }.

Inductive Wildcard := NoWildcard | Unhardened | Hardened.

#[export] Instance Wildcard_eq_dec : EqDecision Wildcard.
Proof. solve_decision. Defined.

(** The kinds of key a descriptor holds, with what the source reads of
    each: the path of the origin of a single key, the network, the depth
    and the paths of an extended one. *)
Module DescriptorPublicKey.
Inductive DescriptorPublicKey :=
| Single (origin : option (list ChildNumber))
| XPub (network : NetworkKind) (depth : Z) (derivation_path : list ChildNumber) (wildcard : Wildcard)
| MultiXPub (network : NetworkKind) (depth : Z) (derivation_paths : list (list ChildNumber)) (wildcard : Wildcard).
End DescriptorPublicKey.
Export DescriptorPublicKey (DescriptorPublicKey).

Module DescriptorType.
Inductive DescriptorType :=
| Bare | Sh | Pkh | Wpkh | Wsh | ShWsh | ShWpkh | ShSortedMulti | WshSortedMulti | ShWshSortedMulti | Tr.
End DescriptorType.
Export DescriptorType (DescriptorType).

#[export] Instance DescriptorType_eq_dec : EqDecision DescriptorType.
Proof. solve_decision. Defined.
#[export] Instance NetworkKind_eq_dec : EqDecision NetworkKind.
Proof. solve_decision. Defined.
#[export] Instance ScriptKind_eq_dec : EqDecision ScriptKind.
Proof. solve_decision. Defined.

(** A descriptor: its text both ways, its keys in the order miniscript
    goes through them, the script at an index and the address of it, the
    internal key and the tree of a taproot one, its policy, and its text
    with each key rewritten. *)
Class Miniscript := {
  Desc : Type;
  MKey : Type;
  MKey_key :: DescriptorKey MKey;
  Tree : Type;
  from_text : string -> result Desc string;
  to_text : Desc -> string;
  desc_keys : Desc -> list MKey;
  shape : MKey -> DescriptorPublicKey;
  (** The x-only point of a key, in hex. *)
  x_only : MKey -> string;
  step_text : ChildNumber -> string;
  desc_type : Desc -> DescriptorType;
  is_multipath : Desc -> bool;
  has_wildcard : Desc -> bool;
  into_single_descriptors : Desc -> result (list Desc) string;
  sanity_check : Desc -> result unit string;
  script_at : Desc -> Z -> option (list Z);
  address_at : Desc -> Z -> Network -> option string;
  as_tr : Desc -> option (MKey * option Tree);
  lift_tree : Tree -> result (Policy MKey) string;
  lift_desc : Desc -> result (Policy MKey) string;
  (** [policy.normalized().sorted()]. *)
  normalized_sorted : Policy string -> Policy string;
  translated : (MKey -> string) -> Desc -> option string;
}.

Section Descriptors.
Context `{Miniscript}.

Definition descriptor_error (detail : string) : CoreError := InvalidInput "descriptor" detail.

(** ** Reading *)

Definition MAX_DESCRIPTOR_DEPTH : nat := 100.
Definition MAX_KEY_DEPTH : Z := 255.

Fixpoint nesting (depth deepest : nat) (text : string) : nat :=
  match text with
  | "" => deepest
  | String a text =>
    if (a =? "(")%char || (a =? "{")%char then nesting (S depth) (Nat.max deepest (S depth)) text
    else if (a =? ")")%char || (a =? "}")%char then nesting (Nat.pred depth) deepest text
    else nesting depth deepest text
  end.

Definition nesting_depth (text : string) : nat := nesting 0 0 text.

Definition hardened_of (paths : list (list ChildNumber)) (wildcard : Wildcard) : option string :=
  match List.find c_hardened (List.concat paths), wildcard with
  | Some step, _ => Some ("the hardened step `" +:+ step_text step +:+ "` written after it")
  | None, Hardened => Some "hardened addresses (`*h`)"
  | None, _ => None
  end.

(** What [for_any_key] finds: of the first key that has it. *)
Definition hardened_derivation (descriptor : Desc) : option string :=
  find_map (fun key => match shape key with
                       | DescriptorPublicKey.Single _ => None
                       | DescriptorPublicKey.XPub _ _ path wildcard => hardened_of [path] wildcard
                       | DescriptorPublicKey.MultiXPub _ _ paths wildcard => hardened_of paths wildcard
                       end) (desc_keys descriptor).

Definition longest (paths : list (list ChildNumber)) : Z := foldr (fun path n => Z.max (Z.of_nat (length path)) n) 0 paths.

Definition past_depth (depth longest : Z) (wildcard : Wildcard) : option (Z * Z) :=
  let steps := sat_add_u32 (Z.min longest u32_max) (if bool_decide (wildcard = NoWildcard) then 0 else 1) in
  if sat_add_u32 depth steps >? MAX_KEY_DEPTH then Some (depth, steps) else None.

Definition too_deep (descriptor : Desc) : option (Z * Z) :=
  find_map (fun key => match shape key with
                       | DescriptorPublicKey.Single _ => None
                       | DescriptorPublicKey.XPub _ depth path wildcard => past_depth depth (Z.of_nat (length path)) wildcard
                       | DescriptorPublicKey.MultiXPub _ depth paths wildcard => past_depth depth (longest paths) wildcard
                       end) (desc_keys descriptor).

Definition read_descriptor (text : string) : CoreResult Desc :=
  if (MAX_DESCRIPTOR_DEPTH <? nesting_depth text)%nat
  then Err (descriptor_error ("the descriptor nests deeper than " +:+ dec (Z.of_nat MAX_DESCRIPTOR_DEPTH) +:+ " levels"))
  else
    match from_text text with
    | Err e => Err (descriptor_error e)
    | Ok descriptor =>
      match hardened_derivation descriptor with
      | Some step =>
        Err (descriptor_error ("an extended public key cannot derive " +:+ step
          +:+ ": write the hardened steps in the key origin, as in `[fingerprint/84'/0'/0']xpub" +:+ of_chars [0x2026%N] +:+ "/0/*`"))
      | None =>
        match too_deep descriptor with
        | Some (depth, steps) =>
          let written := if steps =? 1 then "the step written after it goes"
                         else "the " +:+ dec steps +:+ " steps written after it go" in
          Err (descriptor_error ("an extended public key at depth " +:+ dec depth +:+ " cannot derive its addresses: " +:+ written
            +:+ " past depth " +:+ dec MAX_KEY_DEPTH +:+ ", the deepest a BIP32 key can be"))
        | None => Ok descriptor
        end
      end
    end.

Definition script_kind_of (descriptor : Desc) : ScriptKind :=
  match desc_type descriptor with
  | DescriptorType.Pkh => Legacy
  | DescriptorType.Wpkh => Segwit
  | DescriptorType.ShWpkh => NestedSegwit
  | DescriptorType.Tr => Taproot
  | DescriptorType.Wsh | DescriptorType.WshSortedMulti | DescriptorType.ShWsh | DescriptorType.ShWshSortedMulti => WitnessScript
  | DescriptorType.Sh | DescriptorType.ShSortedMulti => LegacyScript
  | DescriptorType.Bare => Bare
  end.

(** ** Networks *)

Definition networks_for_kind (kind : option NetworkKind) : list Network :=
  match kind with
  | Some Main => [Mainnet]
  | Some Test => [Signet; Testnet4; Regtest]
  | None => Network.ALL
  end.

Definition key_kind (key : MKey) : option NetworkKind :=
  match shape key with
  | DescriptorPublicKey.XPub network _ _ _ | DescriptorPublicKey.MultiXPub network _ _ _ => Some network
  | DescriptorPublicKey.Single _ => None
  end.

Definition add_kind (kinds : list NetworkKind) (key : MKey) : list NetworkKind :=
  match key_kind key with
  | Some kind => if bool_decide (kind ∈ kinds) then kinds else kinds ++ [kind]
  | None => kinds
  end.

Definition descriptor_networks (descriptor : Desc) : CoreResult (list Network) :=
  let kinds := foldl add_kind [] (desc_keys descriptor) in
  if (1 <? length kinds)%nat then Err (descriptor_error "the descriptor mixes mainnet and test network keys")
  else Ok (networks_for_kind (hd_error kinds)).

(** ** SLIP-132 prefixes *)

Definition descriptor_function (kind : DescriptorType) : string :=
  match kind with
  | DescriptorType.Pkh => "pkh()"
  | DescriptorType.Wpkh => "wpkh()"
  | DescriptorType.ShWpkh => "sh(wpkh())"
  | DescriptorType.Tr => "tr()"
  | DescriptorType.Wsh | DescriptorType.WshSortedMulti => "wsh()"
  | DescriptorType.ShWsh | DescriptorType.ShWshSortedMulti => "sh(wsh())"
  | DescriptorType.Sh | DescriptorType.ShSortedMulti => "sh()"
  | DescriptorType.Bare => "a bare script"
  end.

(** What the prefix says, and whether the descriptor agrees; nothing for
    a prefix that says nothing. *)
Definition prefix_says (hint : Slip132Hint) (kind : DescriptorType) : option (string * bool) :=
  match h_multisig_only hint, h_script hint with
  | false, Some Segwit => Some ("Native SegWit", bool_decide (kind = DescriptorType.Wpkh))
  | false, Some NestedSegwit => Some ("Nested SegWit", bool_decide (kind = DescriptorType.ShWpkh))
  | true, Some Segwit =>
    Some ("Native SegWit multisig", bool_decide (kind = DescriptorType.Wsh \/ kind = DescriptorType.WshSortedMulti))
  | true, Some NestedSegwit =>
    Some ("Nested SegWit multisig", bool_decide (kind = DescriptorType.ShWsh \/ kind = DescriptorType.ShWshSortedMulti))
  | _, _ => None
  end.

Fixpoint check_slip132_hints (hints : list Slip132Hint) (descriptor : Desc) : CoreResult unit :=
  match hints with
  | [] => Ok tt
  | hint :: hints =>
    match prefix_says hint (desc_type descriptor) with
    | Some (says, false) =>
      Err (descriptor_error ("the key's " +:+ prefix hint +:+ " prefix says " +:+ says +:+ ", but the descriptor wraps it in "
        +:+ descriptor_function (desc_type descriptor) +:+ ": check the export"))
    | _ => check_slip132_hints hints descriptor
    end
  end.

(** ** What [wallet/policy.rs] makes of a descriptor *)

Definition parse_descriptor (text : string) : CoreResult Desc :=
  let? descriptor := read_descriptor (trim text) in
  if negb (is_multipath descriptor) then Ok descriptor
  else match into_single_descriptors descriptor with
       | Err e => Err (descriptor_error e)
       | Ok [] => Err (descriptor_error "multipath descriptor without a path")
       | Ok (first :: _) => Ok first
       end.

Definition UNSPENDABLE_INTERNAL_KEY : string := "50929b74c1a04954b78b4b6035e97a5e078a5a0f28ec96d547bfee9ace803ac0".

Definition is_unspendable (key : MKey) : bool := bool_decide (x_only key = UNSPENDABLE_INTERNAL_KEY).

Definition unreadable {A} (lifted : result A string) : CoreResult A :=
  match lifted with Ok p => Ok p | Err e => Err (Descriptor ("the policy cannot be read: " +:+ e)) end.

Definition lift (descriptor : Desc) : CoreResult (Policy MKey) :=
  match as_tr descriptor with
  | Some (internal, tree) =>
    if is_unspendable internal
    then match tree with Some tree => unreadable (lift_tree tree) | None => Ok Unsatisfiable end
    else unreadable (lift_desc descriptor)
  | None => unreadable (lift_desc descriptor)
  end.
End Descriptors.

(** [translate_pk] of a policy: every key rewritten. *)
Fixpoint translate_pk {K L} (pk : K -> L) (p : Policy K) : Policy L :=
  match p with
  | Unsatisfiable => Unsatisfiable
  | Trivial => Trivial
  | Key k => Key (pk k)
  | After lock => After lock
  | Older lock => Older lock
  | Sha256 hash => Sha256 hash
  | Hash256 hash => Hash256 hash
  | Ripemd160 hash => Ripemd160 hash
  | Hash160 hash => Hash160 hash
  | Thresh k subs => Thresh k (List.map (translate_pk pk) subs)
  end.

(** Equality of policies. *)
Fixpoint same_policy (p q : Policy string) : bool :=
  match p, q with
  | Unsatisfiable, Unsatisfiable | Trivial, Trivial => true
  | Key a, Key b | Sha256 a, Sha256 b | Hash256 a, Hash256 b | Ripemd160 a, Ripemd160 b | Hash160 a, Hash160 b => bool_decide (a = b)
  | After a, After b | Older a, Older b => a =? b
  | Thresh k l, Thresh k' l' =>
    (k =? k')%nat
    && (fix each (l l' : list (Policy string)) := match l, l' with
                                                  | [], [] => true
                                                  | x :: l, y :: l' => same_policy x y && each l l'
                                                  | _, _ => false
                                                  end) l l'
  | _, _ => false
  end.

Section Pairs.
Context `{Miniscript}.

Definition policy_by_material (descriptor : Desc) : CoreResult (Policy string) :=
  let? policy := lift descriptor in Ok (normalized_sorted (translate_pk material policy)).

Definition descriptor_by_material (descriptor : Desc) : option string := translated material descriptor.

(** ** Two branches of one wallet *)

Definition named_by (key : MKey) : option ChildNumber :=
  match shape key with
  | DescriptorPublicKey.XPub _ _ path _ => list.last path
  | DescriptorPublicKey.Single origin => and_then origin list.last
  | DescriptorPublicKey.MultiXPub _ _ _ _ => None
  end.

Definition add_named (named : list Z) (key : MKey) : list Z :=
  match named_by key with
  | Some step => if c_hardened step || bool_decide (c_index step ∈ named) then named else named ++ [c_index step]
  | None => named
  end.

Definition address_of (ranged fixed : Desc) : option Z :=
  if negb (has_wildcard ranged) || has_wildcard fixed || is_some (hardened_derivation ranged) || is_some (hardened_derivation fixed)
  then None
  else
    match script_at fixed 0 with
    | None => None
    | Some script =>
      List.find (fun index => bool_decide (script_at ranged index = Some script)) (foldl add_named [] (desc_keys fixed))
    end.

Definition SAME_DESCRIPTORS : string := "the two descriptors are the same; change needs a path of its own".
Definition ANOTHER_WALLET : string :=
  "the change descriptor does not spend under the receive descriptor's keys and conditions: change would go to another wallet".

Definition pair_holds (external internal : Desc) (unliftable_refused : bool) : CoreResult unit :=
  let refuse detail := Err (descriptor_error detail) in
  let named what index := refuse (what +:+ " at index " +:+ dec index +:+ "; change needs a path of its own") in
  if bool_decide (to_text external = to_text internal) then refuse SAME_DESCRIPTORS
  else
    match address_of external internal with
    | Some index => named "the change descriptor is the receive address" index
    | None =>
      match address_of internal external with
      | Some index => named "the receive descriptor is the change address" index
      | None =>
        if negb (bool_decide (desc_type external = desc_type internal))
        then refuse "the change descriptor is not of the receive descriptor's script type"
        else
          match policy_by_material external, policy_by_material internal with
          | Ok receive, Ok change => if same_policy receive change then Ok tt else refuse ANOTHER_WALLET
          | Err unliftable, other =>
            if unliftable_refused then Err unliftable
            else match other with
                 | Ok _ => refuse ANOTHER_WALLET
                 | Err _ =>
                   match descriptor_by_material external with
                   | Some receive => if bool_decide (descriptor_by_material internal = Some receive) then Ok tt else refuse ANOTHER_WALLET
                   | None => refuse ANOTHER_WALLET
                   end
                 end
          | Ok _, Err unliftable => if unliftable_refused then Err unliftable else refuse ANOTHER_WALLET
          end
      end
    end.

Definition check_pair (external internal : Desc) : CoreResult unit := pair_holds external internal true.
Definition check_stored_pair (external internal : Desc) : CoreResult unit := pair_holds external internal false.
End Pairs.

(** ** Properties *)

(** What miniscript and the bitcoin crate document: the depth of a key is
    a byte, and a key on several paths has one; normalizing and sorting a
    policy change nothing of who may spend. *)
Class MiniscriptLaws `{Miniscript} : Prop := {
  depth_is_byte : forall key, match shape key with
                              | DescriptorPublicKey.XPub _ depth _ _ => in_u8 depth
                              | DescriptorPublicKey.MultiXPub _ depth paths _ => in_u8 depth /\ paths <> []
                              | DescriptorPublicKey.Single _ => True
                              end;
  normalized_sorted_sat : forall v p, sat v (normalized_sorted p) = sat v p;
}.

Lemma find_map_None {A B} (f : A -> option B) l : find_map f l = None <-> forall x, In x l -> f x = None.
Proof.
  induction l as [|x l IH]; cbn [find_map]; [by split|]. destruct (f x) as [b|] eqn:E.
  - split; [done|]. intros Hall. specialize (Hall x (or_introl eq_refl)). congruence.
  - rewrite IH. split; [|by intros Hall y Hy; apply Hall; right]. intros Hall y [->|Hy]; [done|by apply Hall].
Qed.

(** The valuation of the keys a valuation of their material gives. *)
Definition by_key {K} (f : K -> string) (v : Valuation string) : Valuation K :=
  {| signs := fun key => signs v (f key); after_met := after_met v; older_met := older_met v; known := known v |}.

Lemma translate_sat {K} (f : K -> string) v p : sat v (translate_pk f p) = sat (by_key f v) p.
Proof.
  induction p as [p Hp|k subs IH] using Policy_rect'.
  - destruct p; try done. by edestruct Hp.
  - cbn [translate_pk]. rewrite !sat_thresh. f_equal. rewrite count_map. unfold count, retain. f_equal.
    apply List.filter_ext_in. intros x Hx. rewrite List.Forall_forall in IH. by apply IH.
Qed.

Lemma same_policy_true p : forall q, same_policy p q = true -> p = q.
Proof.
  induction p as [p Hp|k subs IH] using Policy_rect'; intros q.
  - destruct p, q; cbn; try done; try (by intros E; apply bool_decide_eq_true_1 in E; subst); try (by intros E%Z.eqb_eq; subst).
    by edestruct Hp.
  - destruct q; cbn [same_policy]; try done. intros [Hk Hl]%andb_true_iff. apply Nat.eqb_eq in Hk as ->. f_equal.
    revert subs0 Hl. induction subs as [|x l IHl]; intros [|y l']; try done. intros [Hx Hl]%andb_true_iff.
    apply list.Forall_cons in IH as [IHx IH]. f_equal; [by apply IHx|by apply IHl].
Qed.

Section Read.
Context `{MiniscriptLaws}.

(** A key that derives an address at every index: no hardened step after
    it, and none past the depth a BIP 32 key can have. *)
Definition derivable (key : MKey) : Prop :=
  match shape key with
  | DescriptorPublicKey.Single _ => True
  | DescriptorPublicKey.XPub _ depth path wildcard =>
    Forall (fun step => c_hardened step = false) path /\ wildcard <> Hardened
    /\ depth + Z.of_nat (length path) + (if bool_decide (wildcard = NoWildcard) then 0 else 1) <= MAX_KEY_DEPTH
  | DescriptorPublicKey.MultiXPub _ depth paths wildcard =>
    Forall (Forall (fun step => c_hardened step = false)) paths /\ wildcard <> Hardened
    /\ Forall (fun path => depth + Z.of_nat (length path) + (if bool_decide (wildcard = NoWildcard) then 0 else 1) <= MAX_KEY_DEPTH) paths
  end.

Lemma hardened_of_None paths wildcard :
  hardened_of paths wildcard = None <-> Forall (Forall (fun step => c_hardened step = false)) paths /\ wildcard <> Hardened.
Proof.
  unfold hardened_of. destruct (List.find _ _) as [step|] eqn:E.
  - split; [done|]. intros [Hall _]. apply List.find_some in E as [Hin Hs]. apply in_concat in Hin as (path & Hp & Hin).
    rewrite List.Forall_forall in Hall. specialize (Hall path Hp). rewrite List.Forall_forall in Hall. specialize (Hall step Hin). congruence.
  - assert (Hall : Forall (Forall (fun step => c_hardened step = false)) paths).
    { apply List.Forall_forall. intros path Hp. apply List.Forall_forall. intros step Hs. eapply find_none; [exact E|]. apply in_concat. by exists path. }
    destruct wildcard; split; try done; by intros [_ ?].
Qed.

Lemma past_depth_None depth n wildcard : 0 <= depth -> 0 <= n ->
  past_depth depth n wildcard = None <-> depth + n + (if bool_decide (wildcard = NoWildcard) then 0 else 1) <= MAX_KEY_DEPTH.
Proof.
  intros Hd Hn. unfold past_depth, sat_add_u32, MAX_KEY_DEPTH, u32_max.
  case_bool_decide; match goal with |- context [?a >? ?b] => destruct (Z.gtb_spec a b) end; split; intros; try done; lia.
Qed.

Lemma longest_le paths n : 0 <= n -> longest paths <= n <-> Forall (fun path => Z.of_nat (length path) <= n) paths.
Proof.
  intros Hn. induction paths as [|path paths IH]; cbn [longest foldr]; [by split|]. rewrite list.Forall_cons, <- IH. unfold longest. lia.
Qed.

Lemma longest_nonneg (paths : list (list ChildNumber)) : 0 <= longest paths.
Proof. induction paths; cbn [longest foldr]; [done|]. unfold longest in *. lia. Qed.

(** What is read as a descriptor is what miniscript reads of a text not
    nested past what a stack takes, when each of its keys has an address
    at every index: what is kept of it never reaches a derivation that
    cannot be made. *)
Theorem read_descriptor_exactly text descriptor :
  read_descriptor text = Ok descriptor <->
  from_text text = Ok descriptor /\ (nesting_depth text <= MAX_DESCRIPTOR_DEPTH)%nat /\ forall key, In key (desc_keys descriptor) -> derivable key.
Proof.
  assert (Hkeys : forall d, hardened_derivation d = None /\ too_deep d = None <-> forall key, In key (desc_keys d) -> derivable key).
  { intros d. unfold hardened_derivation, too_deep. rewrite !find_map_None. split.
    - intros [Hh Ht] key Hin. specialize (Hh key Hin). specialize (Ht key Hin). pose proof (depth_is_byte key) as Hb. unfold derivable.
      destruct (shape key) as [|network depth path wildcard|network depth paths wildcard]; [done| |].
      + apply hardened_of_None in Hh as [Hh Hw]. apply list.Forall_cons in Hh as [Hh _]. apply past_depth_None in Ht; [|unfold in_u8 in Hb; lia..]. split; [exact Hh|]. by split.
      + destruct Hb as [Hb _]. apply hardened_of_None in Hh as [Hh Hw]. apply past_depth_None in Ht; [|unfold in_u8 in Hb; lia|apply longest_nonneg].
        split; [done|]. split; [done|]. apply List.Forall_forall. intros path Hp.
        pose proof (longest_le paths (longest paths) (longest_nonneg _)) as [Hl _]. specialize (Hl ltac:(lia)).
        rewrite List.Forall_forall in Hl. specialize (Hl path Hp). cbn beta in Hl. lia.
    - intros Hall. split; intros key Hin; specialize (Hall key Hin); pose proof (depth_is_byte key) as Hb; unfold derivable in Hall.
      + destruct (shape key) as [|network depth path wildcard|network depth paths wildcard]; [done|apply hardened_of_None|apply hardened_of_None].
        * destruct Hall as (? & ? & _). split; [by apply list.Forall_singleton|done].
        * by destruct Hall as (? & ? & _).
      + destruct (shape key) as [|network depth path wildcard|network depth paths wildcard]; [done| |].
        * destruct Hall as (_ & _ & ?). apply past_depth_None; [unfold in_u8 in Hb; lia..|done].
        * destruct Hb as [Hb Hne], Hall as (_ & _ & Hall). apply past_depth_None; [unfold in_u8 in Hb; lia|apply longest_nonneg|].
          destruct paths as [|path paths]; [done|]. assert (Hp := Hall). apply list.Forall_cons in Hp as [Hp _]. cbn beta in Hp.
          enough (longest (path :: paths) <= MAX_KEY_DEPTH - depth - (if bool_decide (wildcard = NoWildcard) then 0 else 1)) by lia.
          apply longest_le; [lia|]. eapply List.Forall_impl; [|exact Hall]. cbn beta. intros. lia. }
  unfold read_descriptor. destruct (Nat.ltb_spec MAX_DESCRIPTOR_DEPTH (nesting_depth text)) as [Hn|Hn].
  { split; [done|]. intros (_ & ? & _). lia. }
  destruct (from_text text) as [d|e]; [|by split; intros; [|destruct_and?]].
  destruct (hardened_derivation d) eqn:Eh.
  { split; [done|]. intros (Hd & _ & Hall). injection Hd as ->. apply Hkeys in Hall. destruct Hall. congruence. }
  destruct (too_deep d) as [[]|] eqn:Et.
  { split; [done|]. intros (Hd & _ & Hall). injection Hd as ->. apply Hkeys in Hall. destruct Hall. congruence. }
  split.
  - intros [= ->]. split; [done|]. split; [done|]. by apply Hkeys.
  - by intros ([= ->] & _).
Qed.
End Read.

(** ** Networks *)

Definition kind_of_network (network : Network) : NetworkKind := match network with Mainnet => Main | _ => Test end.

Section Networks.
Context `{Miniscript}.

Lemma kinds_right (l : list MKey) kinds : NoDup kinds ->
  NoDup (foldl add_kind kinds l) /\ (exists more, foldl add_kind kinds l = kinds ++ more)
  /\ forall kind, In kind (foldl add_kind kinds l) <-> In kind kinds \/ exists key, In key l /\ key_kind key = Some kind.
Proof.
  revert kinds. induction l as [|key l IH]; intros kinds Hn; cbn [foldl].
  { split; [done|]. split; [exists []; by rewrite app_nil_r|]. intros kind. split; [by left|]. by intros [|(? & [] & _)]. }
  assert (Hk : NoDup (add_kind kinds key) /\ (exists more, add_kind kinds key = kinds ++ more)
    /\ forall kind, In kind (add_kind kinds key) <-> In kind kinds \/ key_kind key = Some kind).
  { unfold add_kind. destruct (key_kind key) as [kind|]; [case_bool_decide as Hin|].
    - split; [done|]. split; [exists []; by rewrite app_nil_r|]. intros k. split; [by left|]. intros [|[= <-]]; [done|by apply list_elem_of_In].
    - split; [apply list.NoDup_app; split; [done|]; split; [|apply NoDup_singleton]; by intros x Hx ->%list_elem_of_singleton|].
      split; [by eexists|]. intros k. rewrite in_app_iff. cbn. split; [intros [|[<-|[]]]|intros [|[= ->]]]; auto.
    - split; [done|]. split; [exists []; by rewrite app_nil_r|]. intros k. split; [by left|]. by intros [|]. }
  destruct Hk as (Hk & [m1 E1] & Hin). destruct (IH _ Hk) as (H1 & [m2 E2] & H2). split; [done|].
  split; [exists (m1 ++ m2); by rewrite E2, E1, app_assoc|]. intros kind. rewrite H2, Hin. split.
  - intros [[?|?]|(k & ? & ?)]; [by left|right; exists key; split; [by left|done]|right; exists k; split; [by right|done]].
  - intros [?|(k & [->|?] & ?)]; [by left; left|by left; right|right; by exists k].
Qed.

Lemma networks_of_kind kind network : In network (networks_for_kind (Some kind)) <-> kind_of_network network = kind.
Proof. destruct kind, network; cbn; split; try done; intuition congruence. Qed.

(** A descriptor is for the networks all of whose extended keys are for,
    and for none when they disagree. *)
Lemma networks_right descriptor :
  match descriptor_networks descriptor with
  | Ok networks => forall network, In network networks <->
      forall key kind, In key (desc_keys descriptor) -> key_kind key = Some kind -> kind_of_network network = kind
  | Err _ => exists a b, In a (desc_keys descriptor) /\ In b (desc_keys descriptor) /\ key_kind a = Some Main /\ key_kind b = Some Test
  end.
Proof.
  unfold descriptor_networks. destruct (kinds_right (desc_keys descriptor) [] (NoDup_nil_2)) as (Hn & _ & Hin).
  set (kinds := foldl add_kind [] _) in *.
  assert (Hkey : forall kind, In kind kinds <-> exists key, In key (desc_keys descriptor) /\ key_kind key = Some kind).
  { intros kind. rewrite Hin. split; [by intros [[]|]|by right]. }
  destruct kinds as [|a [|b rest]]; cbn [length Nat.ltb Nat.leb hd_error].
  - intros network. split.
    + intros _ key kind Hk Ek. exfalso. by apply (proj2 (Hkey kind)); exists key.
    + intros _. destruct network; cbn; tauto.
  - intros network. rewrite networks_of_kind. split.
    + intros E key kind Hk Ek. assert (In kind [a]) as [->|[]] by (apply Hkey; by exists key). done.
    + intros Hall. destruct (proj1 (Hkey a)) as (key & Hk & Ek); [by left|]. by apply (Hall key).
  - assert (Hab : a <> b) by (apply list.NoDup_cons in Hn as [Hn _]; intros ->; apply Hn; by left).
    destruct (proj1 (Hkey Main)) as (x & ? & ?); [destruct a, b; cbn; tauto|].
    destruct (proj1 (Hkey Test)) as (y & ? & ?); [destruct a, b; cbn; tauto|]. by exists x, y.
Qed.
End Networks.

(** ** Pairs *)

Section PairRight.
Context `{MiniscriptLaws}.

Lemma named_In (l : list MKey) named index : In index (foldl add_named named l) <->
  In index named \/ exists key step, In key l /\ named_by key = Some step /\ c_hardened step = false /\ c_index step = index.
Proof.
  revert named. induction l as [|key l IH]; intros named; cbn [foldl].
  { split; [by left|]. by intros [|(? & ? & [] & _)]. }
  rewrite IH. assert (Hk : In index (add_named named key) <-> In index named \/ exists step, named_by key = Some step /\ c_hardened step = false /\ c_index step = index).
  { unfold add_named. destruct (named_by key) as [step|]; [|split; [by left|by intros [|(? & ? & _)]]].
    destruct (c_hardened step) eqn:E; cbn [orb]; [split; [by left|intros [|(? & [= <-] & ? & _)]; congruence]|].
    case_bool_decide as Hin.
    - split; [by left|]. intros [|(? & [= <-] & _ & <-)]; [done|by apply list_elem_of_In].
    - rewrite in_app_iff. cbn. split; [intros [|[<-|[]]]; [by left|right; by exists step]|intros [|(? & [= <-] & _ & <-)]; auto]. }
  rewrite Hk. split.
  - intros [[?|(step & ? & ? & ?)]|(k & step & ? & ? & ? & ?)]; [by left|right; exists key, step; split; [by left|done]|right; exists k, step; split; [by right|done]].
  - intros [?|(k & step & [->|?] & ? & ? & ?)]; [by left; left|left; right; by exists step|right; by exists k, step].
Qed.

Lemma address_of_None ranged fixed : address_of ranged fixed = None ->
  has_wildcard ranged = true -> has_wildcard fixed = false -> hardened_derivation ranged = None -> hardened_derivation fixed = None ->
  forall key step script, In key (desc_keys fixed) -> named_by key = Some step -> c_hardened step = false ->
    script_at fixed 0 = Some script -> script_at ranged (c_index step) <> Some script.
Proof.
  unfold address_of. intros Ha Hwr Hwf Hhr Hhf. rewrite Hwr, Hwf, Hhr, Hhf in Ha. intros key step script Hin Hn Hs Hf Hr. cbn in Ha. rewrite Hf in Ha.
  eapply find_none in Ha; [|apply named_In; right; exists key, step; eauto]. by apply bool_decide_eq_false in Ha.
Qed.

Lemma read_not_hardened text descriptor : read_descriptor text = Ok descriptor -> hardened_derivation descriptor = None.
Proof.
  unfold read_descriptor. destruct (_ <? _)%nat; [done|]. destruct (from_text text) as [d|]; [|done].
  destruct (hardened_derivation d) eqn:E; [done|]. destruct (too_deep d) as [[]|]; [done|]. by intros [= <-].
Qed.

Lemma liftable descriptor : (exists p, policy_by_material descriptor = Ok p /\ exists q, lift descriptor = Ok q /\ p = normalized_sorted (translate_pk material q))
  \/ (exists e, policy_by_material descriptor = Err e /\ lift descriptor = Err e).
Proof. unfold policy_by_material. destruct (lift descriptor) as [q|e]; cbn [result_bind]; [left|right]; eauto. Qed.

Lemma same_material_sat p q : normalized_sorted (translate_pk material p) = normalized_sorted (translate_pk material q) ->
  forall v, sat (by_key material v) p = sat (by_key material v) q.
Proof.
  intros E v. rewrite <- !translate_sat.
  rewrite <- (normalized_sorted_sat v (translate_pk material p)), E. apply normalized_sorted_sat.
Qed.

(** C23: Two descriptors kept as the branches of one wallet are different,
    of one script type, and spent by the same people: whoever signs,
    whatever the locks and the preimages, the coins the change
    descriptor receives are open exactly when those of the receive
    descriptor are. And the change of a wallet is not one of its receive
    addresses, at any index the keys of the descriptor name. *)
Theorem pair_is_one_wallet receive change external internal :
  read_descriptor receive = Ok external -> read_descriptor change = Ok internal ->
  check_stored_pair external internal = Ok tt ->
  to_text external <> to_text internal /\ desc_type external = desc_type internal
  /\ (forall p, lift external = Ok p ->
        exists q, lift internal = Ok q /\ forall v, sat (by_key material v) p = sat (by_key material v) q)
  /\ (forall e, lift external = Err e ->
        (exists e', lift internal = Err e') /\ exists text, translated material external = Some text /\ translated material internal = Some text)
  /\ (has_wildcard external = true -> has_wildcard internal = false -> forall key step script,
        In key (desc_keys internal) -> named_by key = Some step -> c_hardened step = false ->
        script_at internal 0 = Some script -> script_at external (c_index step) <> Some script).
Proof.
  intros Hre Hri. apply read_not_hardened in Hre, Hri. unfold check_stored_pair, pair_holds. cbv zeta.
  case_bool_decide as Ht; [done|]. destruct (address_of external internal) eqn:Ea; [done|]. destruct (address_of internal external); [done|].
  case_bool_decide as Hd; [|done]. cbn [negb]. intros Hp. split; [done|]. split; [done|].
  destruct (liftable external) as [(pe & Epe & p & Ele & ->)|(e & Epe & Ele)], (liftable internal) as [(pi & Epi & q & Eli & ->)|(e' & Epi & Eli)];
    rewrite Epe, Epi in Hp; try done.
  - destruct (same_policy _ _) eqn:Es in Hp; [|done]. apply same_policy_true in Es. split; [|split].
    + intros p' Hp'. rewrite Ele in Hp'. injection Hp' as <-. exists q. split; [done|]. by apply same_material_sat.
    + intros e He. congruence.
    + intros. by eapply address_of_None.
  - split; [intros; congruence|]. split; [|intros; by eapply address_of_None]. intros e0 _. split; [by exists e'|].
    unfold descriptor_by_material in Hp. destruct (translated material external) as [text|]; [|done]. case_bool_decide; [|done]. by exists text.
Qed.
End PairRight.

(** ** An example: a two-of-two on two branches, and another wallet's change *)

Module Demo.
Record DemoDesc := { dd_text : string; dd_keys : list (string * Z) }.

Definition on_branch (text : string) (keys : list string) (branch : Z) : DemoDesc := {| dd_text := text; dd_keys := List.map (fun key => (key, branch)) keys |}.

Definition RECEIVE : string := "wsh(sortedmulti(2,A/0/*,B/0/*))".
Definition CHANGE : string := "wsh(sortedmulti(2,A/1/*,B/1/*))".
Definition STRANGER : string := "wsh(sortedmulti(2,A/1/*,C/1/*))".
Definition receive_desc : DemoDesc := on_branch RECEIVE ["A"; "B"] 0.
Definition change_desc : DemoDesc := on_branch CHANGE ["A"; "B"] 1.
Definition stranger_desc : DemoDesc := on_branch STRANGER ["A"; "C"] 1.
Definition known_descs : list DemoDesc := [receive_desc; change_desc; stranger_desc].

Definition branch_of (d : DemoDesc) : Z := match dd_keys d with (_, branch) :: _ => branch | [] => 0 end.

#[global] Instance demo_key : DescriptorKey (string * Z) := { material := fst; master_fingerprint := fun _ => "00000000"; origin := fun _ => None }.

#[global] Instance demo_miniscript : Miniscript := {
  Desc := DemoDesc; MKey := string * Z; Tree := unit;
  from_text := fun text => match List.find (fun d => bool_decide (dd_text d = text)) known_descs with Some d => Ok d | None => Err "unknown" end;
  to_text := dd_text; desc_keys := dd_keys;
  shape := fun key => DescriptorPublicKey.XPub Main 3 [{| c_index := snd key; c_hardened := false |}] Unhardened;
  x_only := fst; step_text := fun step => dec (c_index step);
  desc_type := fun _ => DescriptorType.WshSortedMulti;
  is_multipath := fun _ => false; has_wildcard := fun _ => true; into_single_descriptors := fun _ => Err "no multipath";
  sanity_check := fun _ => Ok tt;
  script_at := fun d index => Some [branch_of d; index];
  address_at := fun d index network => Some (Network.as_str network +:+ " " +:+ dd_text d +:+ " " +:+ dec index);
  as_tr := fun _ => None; lift_tree := fun _ => Ok Trivial;
  lift_desc := fun d => Ok (Thresh 2 (List.map Key (dd_keys d)));
  normalized_sorted := fun p => p;
  translated := fun f d => Some (join "," (List.map f (dd_keys d)));
}.

#[global] Instance demo_miniscript_laws : MiniscriptLaws.
Proof. split; [|done]. intros key. cbn. unfold in_u8, u8_max. lia. Qed.

Definition receive : Desc := receive_desc.
Definition change : Desc := change_desc.
Definition stranger : Desc := stranger_desc.

(** The other wallet's change is refused. *)
Example stranger_refused : check_stored_pair receive stranger = Err (descriptor_error ANOTHER_WALLET).
Proof. vm_compute. reflexivity. Qed.
End Demo.

Lemma pair_is_one_wallet_witness :
  read_descriptor Demo.RECEIVE = Ok Demo.receive /\ read_descriptor Demo.CHANGE = Ok Demo.change
  /\ desc_type Demo.receive = desc_type Demo.change
  /\ exists q, lift Demo.change = Ok q
     /\ sat (by_key material {| signs := fun key => bool_decide (key ∈ ["A"; "B"]); after_met := fun _ => false; older_met := fun _ => false; known := fun _ _ => false |}) q = true.
Proof.
  assert (Hr : read_descriptor Demo.RECEIVE = Ok Demo.receive) by (vm_compute; reflexivity).
  assert (Hc : read_descriptor Demo.CHANGE = Ok Demo.change) by (vm_compute; reflexivity).
  assert (Hp : check_stored_pair Demo.receive Demo.change = Ok tt) by (vm_compute; reflexivity).
  destruct (pair_is_one_wallet _ _ _ _ Hr Hc Hp) as (_ & Ht & Hl & _).
  split; [exact Hr|]. split; [exact Hc|]. split; [exact Ht|].
  destruct (Hl (Thresh 2 [Key ("A", 0); Key ("B", 0)]) eq_refl) as (q & Hq & Hsat). exists q. split; [exact Hq|].
  rewrite <- Hsat. vm_compute. reflexivity.
Defined.
