(* ===== verification/Targets.v ===== *)
(** [chain/proof/targets.rs]: the bits of each retarget period of mainnet,
    and the hash of the last block of each period the checkpoints name. *)
From S2P Require Import Prelude.

Definition MAINNET_BITS : list Z :=
  [0x1d00ffff; 0x1d00ffff; 0x1d00ffff; 0x1d00ffff; 0x1d00ffff; 0x1d00ffff; 0x1d00ffff; 0x1d00ffff;
   0x1d00ffff; 0x1d00ffff; 0x1d00ffff; 0x1d00ffff; 0x1d00ffff; 0x1d00ffff; 0x1d00ffff; 0x1d00ffff;
   0x1d00d86a; 0x1d00c428; 0x1d00be71; 0x1d008cc3; 0x1c654657; 0x1c43b3e5; 0x1c387f6f; 0x1c381375;
   0x1c2a1115; 0x1c20bca7; 0x1c16546f; 0x1c13ec53; 0x1c159c24; 0x1c0f675c; 0x1c0eba64; 0x1c0d3142;
   0x1c0ae493; 0x1c05a3f4; 0x1c0168fd; 0x1c010c5a; 0x1c00ba18; 0x1c00800e; 0x1b692098; 0x1b5bede6;
   0x1b4766ed; 0x1b31b2a3; 0x1b2f8e9d; 0x1b1e7eca; 0x1b153263; 0x1b0e7256; 0x1b098b2a; 0x1b081cd2;
   0x1b055953; 0x1b04864c; 0x1b0404cb; 0x1b038dee; 0x1b02fa29; 0x1b028552; 0x1b01cc26; 0x1b012dcd;
   0x1b00dc31; 0x1b00f339; 0x1b00cbbd; 0x1b00b5ac; 0x1b0098fa; 0x1a6a93b3; 0x1a44b9f2; 0x1a269421;
   0x1a1d932f; 0x1a132185; 0x1a0c2a12; 0x1a0abbcf; 0x1a09ec04; 0x1a08e1e5; 0x1a094a86; 0x1a096fe3;
   0x1a098ea5; 0x1a09ee5d; 0x1a0b6d4b; 0x1a0df0ca; 0x1a0e119a; 0x1a0f61b1; 0x1a0e8668; 0x1a0e76ba;
   0x1a0d69d7; 0x1a0cd43f; 0x1a0c290b; 0x1a0c309c; 0x1a0b350c; 0x1a0b3287; 0x1a0a507e; 0x1a0aa1e3;
   0x1a0b1ef7; 0x1a09ae02; 0x1a0a8b5f; 0x1a0a98d6; 0x1a09b78a; 0x1a099431; 0x1a08fd2e; 0x1a083cc9;
   0x1a07a85e; 0x1a06dfbe; 0x1a063a38; 0x1a05db8b; 0x1a057e08; 0x1a0575ef; 0x1a0513c5; 0x1a04faeb;
   0x1a04e0ea; 0x1a04fa62; 0x1a05a16b; 0x1a0529b1; 0x1a05a6b1; 0x1a051f3c; 0x1a04985c; 0x1a03d74b;
   0x1a0375fa; 0x1a02816e; 0x1a022fbe; 0x1a01de94; 0x1a01aa3d; 0x1a017fe9; 0x1a016164; 0x1a011337;
   0x1a00de15; 0x1a00c94e; 0x1a00a429; 0x1a008968; 0x1972dbf2; 0x19548732; 0x19415257; 0x1931679c;
   0x19262222; 0x191cdc20; 0x1916b0ca; 0x19100ab6; 0x190afc85; 0x190867f3; 0x19070bfb; 0x19061242;
   0x1904ba6e; 0x1903a30c; 0x1903071f; 0x19026666; 0x1901f52c; 0x1901a36e; 0x19015f53; 0x19012026;
   0x190102b1; 0x1900db99; 0x1900b3aa; 0x19009d8c; 0x1900896c; 0x187c3053; 0x18692842; 0x185d859a;
   0x1851aba2; 0x18415fd1; 0x183f6be6; 0x183aaea2; 0x1837ba62; 0x182e1c58; 0x182815ee; 0x1824dbe9;
   0x181fb893; 0x181f6973; 0x181e8dc0; 0x181bc330; 0x181b4861; 0x181b7b74; 0x181bdd7c; 0x181b0dca;
   0x1819012f; 0x181aa3c0; 0x1818bb87; 0x18178d3a; 0x18172ec0; 0x181788f2; 0x18163c71; 0x181717f0;
   0x181713dd; 0x181686f5; 0x18171a8b; 0x18162043; 0x1816418e; 0x181586c8; 0x18150815; 0x1814dd04;
   0x181443c4; 0x18134dc1; 0x181287ba; 0x18121472; 0x18120f14; 0x1811a954; 0x1810b289; 0x180f1e76;
   0x180de64f; 0x180bc409; 0x180a9591; 0x1809b31b; 0x180928f0; 0x1807a114; 0x1806b99f; 0x1806f0a8;
   0x1806a4c3; 0x180696f4; 0x1806274b; 0x18062776; 0x1805a8fa; 0x18058436; 0x18059ba0; 0x18053fd6;
   0x180526fd; 0x18052669; 0x18057228; 0x18050edc; 0x1804fb08; 0x1804de5e; 0x18048ed4; 0x180440c4;
   0x180455d2; 0x18045174; 0x1803e6d4; 0x1803d589; 0x18038b85; 0x180375ff; 0x18034379; 0x1802cc47;
   0x18029ab9; 0x18027e93; 0x180262df; 0x18024fb1; 0x1802335a; 0x18021c73; 0x18021b3e; 0x1801f6a7;
   0x1801d854; 0x18019eaf; 0x18018b7e; 0x18018d30; 0x18015ddc; 0x18014735; 0x180130e0; 0x18013ce9;
   0x1801310b; 0x1800ff18; 0x1800fa73; 0x1800eb30; 0x1800c1bd; 0x1800ce4b; 0x1800d0f6; 0x1800b0ed;
   0x18009645; 0x180091c1; 0x177e578c; 0x176c2146; 0x1761e9f8; 0x175d97dc; 0x175589a3; 0x17514a49;
   0x17502ab7; 0x1749500d; 0x1745fb53; 0x1743eca9; 0x17415a49; 0x1738f841; 0x17376f56; 0x17347a28;
   0x17365a17; 0x172f4f7b; 0x172c0da7; 0x1729d72d; 0x172819a1; 0x17275a1f; 0x1725c191; 0x17272fbd;
   0x17272d92; 0x172a4e2f; 0x1731d97c; 0x17371ef4; 0x173218a5; 0x172fd633; 0x17306835; 0x172e6f88;
   0x172e5b50; 0x172e6117; 0x172c1f6c; 0x172c071d; 0x172c4e11; 0x1729ff38; 0x1729fb45; 0x1725bb76;
   0x1725fd03; 0x1723792c; 0x171f0d9b; 0x171f3a08; 0x171c3039; 0x171ba3d1; 0x171a213e; 0x1717abf5;
   0x17160f24; 0x1715a35c; 0x17148edf; 0x171620d1; 0x1715b23e; 0x1715dbd2; 0x1715bcd0; 0x171465f2;
   0x17130c78; 0x171232ff; 0x17121ad4; 0x17122cbc; 0x17110119; 0x17143b41; 0x171320bc; 0x1711a333;
   0x17117a39; 0x171297f6; 0x17147f35; 0x1711d4f2; 0x1711d519; 0x17103a15; 0x1710b4f8; 0x17109bac;
   0x171007ea; 0x17103a12; 0x170e92aa; 0x170e95de; 0x170e134e; 0x1710c433; 0x170ffedd; 0x170eb156;
   0x170f1372; 0x170f2217; 0x170da8a1; 0x170d8457; 0x170d21b9; 0x170cf4e3; 0x170d1f8c; 0x170cdf6f;
   0x170c2a48; 0x170bef93; 0x170da863; 0x170b3ce9; 0x170d5f7b; 0x170e1ef9; 0x171398ce; 0x17149624;
   0x17136aa2; 0x1712180b; 0x170ffaa0; 0x170f48e4; 0x170ed0eb; 0x170e2632; 0x170e0408; 0x170cfecf;
   0x170c69ea; 0x170c9a13; 0x170ba21f; 0x170b98ab; 0x170b8c8b; 0x170a9080; 0x170a8bb4; 0x170a1078;
   0x170a3773; 0x170a40c0; 0x1709d897; 0x1709f8d9; 0x17097275; 0x170901ba; 0x17096a20; 0x17094b6a;
   0x170984cc; 0x1709a7af; 0x170a2a04; 0x1709fd7e; 0x1709ed88; 0x17091620; 0x1708c894; 0x1708f9ae;
   0x1707e772; 0x1707a429; 0x1707a812; 0x17079e15; 0x17083830; 0x1707f590; 0x1708417e; 0x17077ce2;
   0x17072720; 0x17073039; 0x170689a3; 0x17067681; 0x1706023e; 0x1705e0b2; 0x1705c739; 0x1705dd01;
   0x1705ae3a; 0x17057e69; 0x1705606d; 0x17058ebe; 0x17053894; 0x17056102; 0x17055f5b; 0x17050f7b;
   0x170532ae; 0x1704ed7f; 0x1704e90f; 0x17049ca9; 0x17048194; 0x17045a12; 0x17042450; 0x17042e95;
   0x1703e8b3; 0x1703d869; 0x1704005a; 0x1703ba5d; 0x170371b1; 0x17038c12; 0x17035a59; 0x170362d3;
   0x17034219; 0x170331db; 0x1703629a; 0x170355f0; 0x17035cb8; 0x17035d25; 0x17038a6d; 0x17036e3a;
   0x17031abe; 0x17033d76; 0x1703255b; 0x1703098c; 0x17032f14; 0x17030ecd; 0x1702f128; 0x1702c4e4;
   0x1702c070; 0x1702b563; 0x170297fa; 0x1702905c; 0x17028c61; 0x17029a8a; 0x17027726; 0x17028bb1;
   0x17028281; 0x1702796c; 0x17025105; 0x170248b6; 0x17025ced; 0x17025049; 0x17023774; 0x17023a04;
   0x17026816; 0x17023aa6; 0x1702349e; 0x17022cb3; 0x17022b91; 0x170211ac; 0x1701fa38; 0x1701ddb4;
   0x1701eb21; 0x1701cdfb; 0x1701d936; 0x1701e2a0; 0x1701e63a; 0x1701e605; 0x1701ebf2; 0x1701fca1;
   0x17023c7e; 0x1701f303; 0x1701f0cc; 0x17021a91; 0x17020684; 0x17021369; 0x17021ff0; 0x17020f79;
   0x1702068f; 0x170240c3; 0x17021a42; 0x1702369d; 0x17023ad4; 0x1702353d; 0x17023cc1].

Definition MAINNET_ENDS : list string :=
  ["00000000693067b0e6b440bc51450b9f3850561b07f6d3c021c54fbd6abb9763";
   "00000000f037ad09d0b05ee66b8c1da83030abaf909d2b1bf519c3c7d2cd3fdf";
   "000000006ce8b5f16fcedde13acbc9641baa1c67734f177d770a4069c06c9de8";
   "00000000563298de120522b5ae17da21aaae02eee2d7fcb5be65d9224dbd601c";
   "000000009b0a4b2833b4a0aa61171ee75b8eb301ac45a18713795a72e461a946";
   "00000000fa8a7363e8f6fdc88ec55edf264c9c7b31268c26e497a4587c750584";
   "000000008ac55b5cd76a5c176f2457f0e9df5ff1c719d939f1022712b1ba2092";
   "000000007f0c796631f00f542c0b402d638d3518bc208f8c9e5d29d2f169c084";
   "00000000ffb062296c9d4eb5f87bbf905d30669d26eab6bced341bd3f1dba5fd";
   "0000000074c108842c3ec2252bba62db4050bf0dddfee3ddaa5f847076b8822f";
   "0000000067dc2f84a73fbf5d3c70678ce4a1496ef3a62c557bc79cbdd1d49f22";
   "00000000dbf06f47c0624262ecb197bccf6bdaaabc2d973708ac401ac8955acc";
   "000000009260fe30ec89ef367122f429dcc59f61735760f2b2288f2e854f04ac";
   "00000000f9f1a700898c4e0671af6efd441eaf339ba075a5c5c7b0949473c80b";
   "000000005107662c86452e7365f32f8ffdc70d8d87aa6f78630a79f7d77fbfe6";
   "00000000984f962134a7291e3693075ae03e521f0ee33378ec30a334d860034b";
   "000000005e36047e39452a7beaaa6721048ac408a3e75bb60a8b0008713653ce";
   "00000000128d789579ffbec00203a371cbb39cee27df35d951fd66e62ed59258";
   "000000008dde642fb80481bb5e1671cb04c6716de5b7f783aa3388456d5c8a85";
   "000000008135b689ad1557d4e148a8b9e58e2c4a67240fc87962abb69710231a";
   "00000000308496ef3e4f9fa542a772df637b4aaf1dcce404424611feacfc09e7";
   "000000001a2e0c63d7d012003c9173acfd04ccd6372027718979228c461b5ed5";
   "000000002e0c0ac26ccde91b51ab018576b3a126b413e9f6f787b36637f1b174";
   "00000000103226f85fe2b68795f087dcec345e523363f18017e60b5c94175355";
   "000000001ae6f66fd4de47f8d6f357e798943bbfc4f39ebf14b0975fab059173";
   "000000000a3f22690162744d3bc0b674c92e661a25afb3d2ac8b39b27ac14373";
   "0000000006dc436c3c515a97446af858c1203a501c85d26c4a30afa380aba4a1";
   "000000000943fe1680ffcc498ce50790ff8e842a8af2c157664e4fbc1cb7cb46";
   "000000000847b2144376c1fb057ea1d5a027d5a6004277ed4c72422e93df04e9";
   "00000000094505954deb1d31382b86d0510fd280a34143400b1856a4d52b4c93";
   "000000000109272cecb3f7e98ac12cf149fa8a1b2aaab248e1b006b0dc595a3a";
   "0000000009e6aa0fe39b790625ffeb18a2d6ff5060a5bd14e699e83c54109977";
   "0000000000d14af55c4eae0121184919baba2deb8bf89c3af6b8e4c4f35c8e4e";
   "0000000003dfbfa2b33707e691ab2ab7cda7503be2c2cce43d1b21cd1cc757fb";
   "0000000000c169d181d66d242901f70d006f3e088c1ae9cacb88b94b8266e9c3";
   "000000000009f7d1439d6a2fc1a456db8e843674275bf0133fc7b43b5f45b96e";
   "000000000011b8a8fad7973548b50f6d4b2ba1690f7487c374e43248c576354f";
   "000000000077e856b6cc475d9cf784119811214c9cac8d7b674ec24faa7c2c0c";
   "00000000004cbb474f2cbf3a65f690efa09804512af3351ba3a0888c806c6625";
   "0000000000235b1ec6656d8e91f3dde3b6ab9ad7e75b332e4da9355ce60d860e";
   "00000000002a153a2c95a8e5493db93086b0e3fe590b636a5871ace57523ef93";
   "00000000000e9550e084908cf91a4e8b74f9f1315d1bc4020709f9e7f261bb18";
   "00000000002c2cfef3bb85b463d3fcd39b73a6d3d5ae11c1e2a8113e3794f28d";
   "00000000000fa92b757ee29674aa97e98a49ba3ad340d2baa94155d71648dfe1";
   "0000000000030571601dbc8e13d00d45004eee6ea8b6ab3cdfb38d2546fee21c";
   "00000000000bb6adef42e63082b20fd2b1dc1b324c51973512a4c31f29a9986e";
   "000000000000765094788a98dbb8adac30d248b7129b59b1441ee2b7ef9e332f";
   "00000000000431a0aa9625f82975709f3c6f4f64d04c559512af051599872084";
   "00000000000292b850b8f8578e6b4d03cbb4a78ada44afbb4d2f80a16490e8f9";
   "0000000000025afe84e27423011af25f777e5a94545dbd00fd04bebe9050f7dd";
   "0000000000000e389cccae2a40437be574fd806909e24136711e7f8bce671d65";
   "0000000000030510bf6bc1649726cf2e6e4010c64a2c8fd3fde5dc92535ca40e";
   "00000000000082648057f14fc835779c6ce46a407bafb2e5c2ac1d20d9f4e822";
   "000000000000f38accd6b22959010471a6d9f159d43bf2a9d4c53c220201254e";
   "0000000000004ed7a73133678b5eb883cd8882bf14dfb26c104ae0c3f94cf4ee";
   "00000000000037bb3ff4cf649a1757d4028ecc10f893529b4a2214792c981f96";
   "0000000000008008f46559fe7f181e9dc0648f213472a1e576e8bf506b88f22f";
   "000000000000691d0c2444db713bf6c088844cc95a37cdc55cc269bb0a31d8c8";
   "00000000000071153b0afcc64a425f8442c29749610797119e732dd4b723f675";
   "000000000000a384acb522e4e5935ad2bc31366ecf1f16f1f11023e967ef033d";
   "0000000000002e532093d43e901292121fb7c6583caf2d13b666fe7e194b4a97";
   "00000000000033e435c4bbddc7eb255146aa7f18e61a832983af3a9ee5dd144d";
   "00000000000028ff4b0bd45f0e3e713f91fa1821d28a276a1a1f32f786662f13";
   "0000000000001ef9c75318e116a607af4de68fb4f67c788677ee6779fb5fa0d5";
   "0000000000000e6e98694ccb8247aad63aaa1e2bec5a7be14329407e4cea6223";
   "000000000000000a2153574b2523a6d1844c3cb82d085e2575846dd8c5d4ebb4";
   "00000000000002a92c1b1ffb2a8388979cf30798e312335ae2a1b922927ee83d";
   "00000000000004d54b1422ce733922e7672a4e2ecc86dcf96c0de06565cddaa6";
   "00000000000009dd91ae96cbbf67af42340b0bc715b3606aa725f630b470262d";
   "00000000000007d33d78522fa95bdcd4a25072aeac844cbe9b6bc5d0cc885d0a";
   "00000000000003dd57f5dd1228f68390b586700063225d26bac972bd120546d2";
   "000000000000076bdeca878b47c392f51fbda543b1e69612cf7d305deb537604";
   "00000000000008eb1bb7e18d9dfe62210d761cbf114d59ca08e4f638b8563e30";
   "00000000000001b0d8d885e4d77d7c51e8f1fdaba68f229ac04d191915845f09";
   "000000000000081baa3a716d5f9ab072c9fc3b798900234c9be23ab02a287c30";
   "00000000000005b88d0224b9b0d4b65d3de9a61d93609bb91c9297440f1c4657";
   "000000000000027d6a6870403fa43a650b7d9a6e61243f375a79ea935ad9ef1f";
   "0000000000000810a3490b86e4f302f6557f9621c5c8620c2b09ec8f0cf72794";
   "000000000000073833bca8d0ea909fde717e251576b7b3ccaaa58ad5d39eed60";
   "000000000000031b7fd2ed1f28ff74e969aa891297706c38bd2e1d3bc48183c4";
   "0000000000000b0738bcba382983811d40b531f2e68cd57126092755f1be4ba6";
   "000000000000000664cbfd5e3fa497c07614c33a0934b83e01fbe980634a9aa4";
   "000000000000021eb520df39289a70e40c59822a8c47924dc4940e7d0c1455c4";
   "0000000000000275e0c41b11bc250fe887c5e60c8ebaaa449f5c28c67133d496";
   "000000000000097fb0fdbeee0cee7e8f4e1a4ef8fad49f3d549624b0d47abed0";
   "000000000000053f199ae19d34365277e534f978ea2f6c69cd4757a4fc099af5";
   "0000000000000217b2e7b4f61682d24b9357d62ad29f27ed45ea2a32dc1f32f6";
   "000000000000039c1d77acd4702393f48ca61983c64fc0209ade141c694b2359";
   "0000000000000ae53f0c78330f6c2fbece2752909bc3742823e4fab29c5fd2b0";
   "00000000000004b4d72b8631a85ec7d226dc696f1913ba1bf735b7c8dec207b8";
   "00000000000006e06735bffb7d2f215dcadd8311fc33f4a46661fdca3dc0560e";
   "000000000000055fc0110d4a38ffb338eabc30c8b0aef355d4643d21b5b6a860";
   "000000000000081b69cb4de006c14084c4861f0e4a140c37200117a738733fe8";
   "00000000000009920770f2d40b5b6a8aba33d969b855c91b0f56e3db9c27e41a";
   "0000000000000791dd1cb7a684a54c72ccde51f459fff0fc3e6e051641b1e941";
   "000000000000019da474a1a598b5cf28534b7fd9b214eed0f36c67c203a9b449";
   "000000000000074333e888bac730f9772b65e4cc9d07edb122c6e3c6606bc8ab";
   "000000000000067080669115c445f378f3dec19787558d0e03263b9dec5d7720";
   "0000000000000304760bf583f4ac241c5ffe77312fa213634eba252c720530f1";
   "000000000000041fb61665c8a31b8b5c3ae8fe81903ea81530c979d5094e6f9d";
   "000000000000022fc7f2a5c87b2bab742d71c4eb662d572df33f18193d6abf0e";
   "000000000000013c6d43ba38bc5f24e699515b9d78602694112fefdc64606640";
   "00000000000001665176b9a810fddf27cca60dfcfd80bf113289fcc8ffed0284";
   "00000000000002dc6ef80f56a00f1091471d942ce9bfb656ebdab4ea0b77eb0b";
   "00000000000002a1fa5546ec48ca88b9e5710e2c6d895bb3675004fdacd6ab13";
   "00000000000000f517517c11e649b98feca7da84ae44fb643de5a86798fe3c31";
   "0000000000000299cab92a923348acf9251f656bcbacdb641fd0a66d895a6e8f";
   "000000000000027508b977f72c3a0f06f1f36e311ad079536630661880934501";
   "00000000000001925959229452cc6fbfef0104ebed7ccd6f584f2439c5dd1f1b";
   "00000000000003b34ca89509da5f558af468c194afaa8d458bbeb07c50cc7c74";
   "0000000000000076559e314ab0c86cc552e34fd79488415d3d17f6ea3c01adb3";
   "000000000000003a58043252cdc30ed2f37fb17e6ef1658324b1478f16c1463b";
   "000000000000011babf767e60240658195b693711c217d7da0d9215ccab45333";
   "000000000000027579d28fb480ccad8e2516d1219d4c1919e3fd4fc0c882955d";
   "0000000000000074546fe07f80ba15fc81897ec56a5535de727df9fda9dab500";
   "00000000000000b6c55833b80c07894f4c4d3bb686e5ddbc1b1d162e22752ca3";
   "00000000000001326f2f970753122e35bfdf3358d046ddf5ea22e57f5d82b00d";
   "00000000000000641084745613912464ff73c974bafd0bf6dd306295f019d306";
   "000000000000011ae105ddb1a5bbac6931a6578d95c201525f3a945276a64559";
   "00000000000000d9b66fee19af89eaaf3f3933d1acd2617924c107f0abbe0a41";
   "0000000000000011956d42670c2f75eeb344ac0657a806775998e2c58fa4b157";
   "00000000000000959b1ea990368fd16d494e68ee13bd7245ddd9cdfba3330100";
   "0000000000000091f86b1e423e24fe358c72db181cfcc2738c85f2f51871a960";
   "0000000000000055e146e473b49fe656a1f2f4b8c33e72b80acc18f84d9fcc26";
   "000000000000004f6a191a3261274735292bc30a1f79f23a143e4ee7dd2f64c1";
   "000000000000005327c8e714272803c60277333362e74ec88b9ffab5410c2358";
   "0000000000000002e2a62b8705564c38d6a746fc8e971a450a69989152b5ee97";
   "00000000000000202bf3ff30109538bfd9b5075c6438ab5ef64ebe2cf9b61404";
   "000000000000001c997105893f5991cb45765ff856b6e503f8466cb22cdd330a";
   "0000000000000010c13ce182a3d8fc6748b75640447eb360d7739a5fe984ffc1";
   "000000000000000bbb49db68b79ecc8393376d78272d237bb612288af64c1de8";
   "0000000000000001bbfd0973c367d30eef2416d9e94bdddea53bccf541a4858f";
   "0000000000000004ee5b6ace996ab746f1e6dd952cdbc74c0b4f8b9ac51c7335";
   "0000000000000002f2f23b515085d0c9f37a2824304ccb7ca1546a48548d0dac";
   "00000000000000045590c3fdeca1753d148a87614a70fa0897a17f90bb321654";
   "0000000000000002b704edc0bf1435fe2116040b547adb1bc2d196eb81779834";
   "00000000000000038cc59dc6dd68ae0fbe2ded8a3de65dbd9a2f9a36d26772df";
   "0000000000000000a979bc50075e7cdf0da5274f7314910b2d798b1aeaf6543f";
   "0000000000000001dd8e548c8cf5b77cde6e5631cd542e39f42c41952e5e7085";
   "0000000000000002513542a461de351a5a94f96b4bcd3e324a48d2d71b403fe0";
   "000000000000000150cc07163e78d599a7e56c0d1040641bffb382705ac17df0";
   "00000000000000009051d83d276dad5c547612f67c2907acf6a143039bddb1bb";
   "00000000000000000b83d3947d2790ab0bcbbb61eba1eb8d8f0f0eb3e9d461e0";
   "00000000000000005a4fbbaeffee6d52fa329dd8c559f90c9b30264c46ad33fd";
   "00000000000000006b6834bae83e895a78c5026a8c8141388040d90506cf3148";
   "0000000000000000bf3c066c9acdb008e7fff3672f1391b35c8877b76b9e295e";
   "00000000000000006bcf448b771c8f4db4e2ca653474e3b29504ec08422b3fba";
   "000000000000000098686ab04cc22fec77e4fa2d76d5a3cc0eb8cbf4ed800cdc";
   "000000000000000036cc637d80982595b1fa30f877efe8904965e6fd70aeae1a";
   "00000000000000000ee9b585e0a707347d7c80f3a905f48fa32d448917335366";
   "00000000000000000401800189014bad6a3ca1af029e19b362d6ef3c5425a8dc";
   "00000000000000001b44d4645ac00773be676f3de8a8bff1a5fdd1fb04d2b3b2";
   "00000000000000003ff2a53152ee98910d7383c0177459ad258c4b2d2c4d4610";
   "00000000000000001bb242c9463b511b9e6a99a6d48bd783acb070ca27861c2b";
   "000000000000000019d43247356b848a7ef8b1c786d8c833b76e382608cb59e9";
   "00000000000000003711b624fbde8c77d4c7e25334cfa8bc176b7248ca67b24b";
   "0000000000000000092c1f996e0b6d07fd0e73dfe6409a5c2adc1206e997c3a2";
   "000000000000000020ce180d66df9d3c28aee9fcec7896071ec67091a9753283";
   "000000000000000018d37d53ae02e13634eefb8d9246253e99c1bdf65ac293ea";
   "00000000000000001607d1a21507dea1c0e5f398daf94d35fb7e0a3238f96a0f";
   "00000000000000001acae244523061f650ddab9c3271d13c0cd86071ae6e8a5f";
   "0000000000000000104430189dba1219b0e3dd90824e8c2271609aca5b71250f";
   "00000000000000001aa260733b6d8f8faa2092af35e55973278bb17f8eaeca6b";
   "000000000000000009925ad5866a9cb3a1d83d9399137bccc7b5470b38b1db2b";
   "00000000000000001133acacb92e43e24af63a487923361a4a98c87a5550dffe";
   "000000000000000018c66b4a76ca69204e24ee069da9368c7a9883adb36c24af";
   "000000000000000010b13aed220b96c35ccd5f07125b51308db976eefcd718f9";
   "0000000000000000031b14ece1cfda0e23774e473cd2676834f73155e4f46a2b";
   "000000000000000010bfa427c8d305d861ab5ee4776d87d6d911f5fb3045c754";
   "000000000000000005d1e9e192a43a19e2fbd933ffb27df2623187ad5ce10adc";
   "00000000000000000f9e30784bd647e91f6923263a674c9c5c18084fe79a41f8";
   "00000000000000000036d3e1c36e4b959a3e4ad6376ce9ae65961e60350c86e8";
   "00000000000000000b3ec9df7aebc319bb12491ba651337f9b3541e78446eca8";
   "000000000000000012d24ce222e3c81d4c148f2bce88f752c0dba184c3bc6844";
   "000000000000000000c4ccbdd98c267bd16bda12b63b648c47af3ac51c1cc574";
   "00000000000000000056bfec1dca8e82710f411af64b1d3b04a2d2364a81993f";
   "00000000000000001275d1cadce690546f74f77f6d4a6190e2137a8a819946f6";
   "000000000000000003816ae80c6413b84cbee2f639ba497ab5872ec9711eb256";
   "00000000000000000d92953224570f521b09553194da1ca3c4b31a09a238f4f6";
   "000000000000000006721943f23cfacf20c17c2ad6ea4e902af36b01f92e3c06";
   "0000000000000000031d9af2fe38cc02410361fb213181fdb667c74e210d54c4";
   "0000000000000000142e8a13ef6994961655c8e86aece3f0abebd2ee05473e75";
   "00000000000000000c7a8db37a746d6637ef6a6eab28735608fd715ee2f394e7";
   "000000000000000007854877c66c71a49af40d20f2d6f817becfe4d66d5e5a81";
   "000000000000000005ce1d2d10aeb9def4d38233e859d98a4a168ea3fa36687a";
   "000000000000000007c71decfe74855ad99dc2aa4a2e713165db5a8d6da5f32a";
   "000000000000000008ce4f34161be6760569877c685e37ebebce3546ea42a767";
   "0000000000000000086233f4843682eb47bacb58930a5577fbfd5c9ebd57ddf9";
   "000000000000000010a904eee4fc763c6b88d378884f368fd652f63c1af71580";
   "00000000000000000c114754749d622d4fa2f78c84d7147c345b2b99a8e83d2e";
   "000000000000000000a5039e32cc9a89aeffbde1391e8bc9ae9724127904f01d";
   "000000000000000003b0b73d9b3259c318cca48a6335b5d64545583f7f3773fa";
   "00000000000000000198bcc5bd65fd0ccd1c7e3b49e0170ea80296cbfee05042";
   "00000000000000000a60f379d3dc1413491f360809a97cbb02c81442c613dce7";
   "0000000000000000038973a5f8ba8cdc7e371dcc8f4b24337ef695f24b962907";
   "000000000000000004b8ec471974913d052a3af7dc2a8c6f01c2ac2f3d1f7b19";
   "0000000000000000075d572eef1c4210adc7abf4e40986d7f0a80003853bfec4";
   "0000000000000000074f9edbfc07648dc74392ba8248f0983ffea63431b3bc20";
   "000000000000000003c4a4d9c62b3a7f4893afe14eef8a6a377229d23ad4b1ea";
   "00000000000000000404b6939e6c35a5448386e5d58f318c82ce2fefb7d73e47";
   "0000000000000000034656c96781091b5fbc799c881ea85b41cba0b88128eff7";
   "0000000000000000045645e2acd740a88d2b3a09369e9f0f80d5376e4b6c5189";
   "00000000000000000381e6a138308c6547d6fe3eb3437250ffefdebbf71eefd1";
   "0000000000000000012100ddbb2102e65fb1ebbf104ead754a4110abffc4b8bc";
   "0000000000000000046f56e59b9b1293b5e7c1587aa6d29c4f3f79b98cf22ee6";
   "000000000000000001bd1c291e91f4476f93454d4542d2ed7e44fc86902c93bb";
   "000000000000000001c37a483375ff6fd6ed7c5b79d80167b027a8fdb0721dcd";
   "0000000000000000051804b4c2da5298c4573386bf1d4242bf0e26a49ec32e42";
   "0000000000000000034bff7888f1f7294311f0199322f77c1457018c875bd9e1";
   "00000000000000000506b43c9283ccbc40f583e0c734e4a8af2ce6a4262c6221";
   "000000000000000003937068e19a0750a33978050f019d2b60f430e3da707db9";
   "000000000000000002e2f6ec3c9eb965aa706c788da7dede201b6b4b8fae3971";
   "000000000000000000b3076636b13562bb4315f895bcb324e0c962763c2196b1";
   "00000000000000000025b8961d1d0cfba33b0205ec10b3ce541618e352b0bbd5";
   "00000000000000000421d58b78b9f063a4b20e181d55c9c79082f9e4b8b30925";
   "0000000000000000027fd968d41741f31c73c4a3b304472da0165245278e2ea3";
   "00000000000000000364a23184b8a2c009d13172094421c22e4d9bc85dcf90a5";
   "0000000000000000042a2ed4a504424060407825d774a54f2e148fa769ee72ff";
   "0000000000000000025f769f13f2806fed19d9948b1a7ef19048177789afc5d3";
   "000000000000000000b3ff31d54e9e83515ee18360c7dc59e30697d083c745ff";
   "0000000000000000021ecdcb2368ce66c23efd8bd8ab6a88a8bb70571c6e67f0";
   "000000000000000001972cb33b862b27c1dc3f3a723f7d1cfd69aebe0409126c";
   "000000000000000000cb26d2b1018d80670ccc41d89c7da92175bd6b00f27a3e";
   "00000000000000000276deb4022f66cacd929c690cd6b4f7e740836b614b21f4";
   "000000000000000000587912ced677698c86eec8b1d70144dccb1c6b0bad0f17";
   "0000000000000000009f989a246ac4221ebdced8ccebae9b8d5c83b69bb5e7c8";
   "000000000000000000038bed8b89c4e82c13076dd64dc5f7a349c39d3921d607";
   "00000000000000000122f47d580700a3a5b4b6cb46669a36e4fa974c720ab6cd";
   "00000000000000000172ad9ea56a90bdfed0f364a902500e9ff4d74f000ced99";
   "00000000000000000201d7429db233c7055e9699c5bfb57b167ca8d0c710dc71";
   "000000000000000000c0549b2a8adbefbf6c909f61fdc4d6087c44a549cf8201";
   "0000000000000000015b6789cdc5dc13766f58b38f16d5b35bf79ce4b040f7fd";
   "0000000000000000013a31b29f845d97465bff53f901027f8ab4b1a2f59118a8";
   "00000000000000000088cdeaa7389a7de9f09e3a28b3647630fea3bd1b107134";
   "000000000000000001389446206ebcd378c32cd00b4920a8a1ba7b540ca7d699";
   "000000000000000000f41e2b7f056b6edef47477d0d0f5833d5d4a047151f2dc";
   "0000000000000000010e0373719b7538e713e47d8d7189826dce4264d85a79b8";
   "00000000000000000053e2d10bd703ad5b7787614965711d6170b69b133aa366";
   "000000000000000000cbeff0b533f8e1189cf09dfbebf57a8ebe349362811b80";
   "000000000000000000d0ad638ad61e7c4c3113618b8b26b2044347c00c042278";
   "000000000000000000a7bda943639876a2d7a8caf4cac45678fb237d59c28ba1";
   "000000000000000000fb6c6a307c8363e923873499ba6299597769c10a438e61";
   "0000000000000000006f408147ffbcaa0fb1dcf1f199c527ffdaf159d86e5cd9";
   "000000000000000000e3be3cf7343d7792c0d47d3c39ddb9ceaf19961e9eeab4";
   "000000000000000000b3fb09d6def197657e20f9c1d5e9680cfcac1e1f9aa269";
   "000000000000000000bfe71f044145e1b42fdfb3a523ee2a215e80fa6afc2a98";
   "000000000000000000cee3bff56ee49c0f96d1cbd17fa17dc6f84b3f48aed765";
   "00000000000000000089ef13654974b8896b0b0909dd9ae8e350b8a8a7807ce3";
   "0000000000000000003105a067417c318dab31e25ae1583fa2b27be226945fdd";
   "000000000000000000720da39f66f29337b9a29223e1ce05fd5ee57bb72a9223";
   "0000000000000000006a8957cbd52c2038861514f106f7f9f76392d5cb83fd4c";
   "0000000000000000006b68e55432541794388c94fe9e805652038e7b3cac0681";
   "00000000000000000001c9deea9f0302eadb1250df1ad53da802dfb40d47face";
   "00000000000000000013aaa8778111530a626a3fe57e4e6f4a878c92669b04d1";
   "0000000000000000002f67aa98789b98304a32e54bffbb34c8693eb0acac4c30";
   "0000000000000000002e5f072398ee27b25b6cdcf69051bcdbbece417093c979";
   "00000000000000000028d7447c20ade2053bbaf49e8a16eb5fb1bc74335d0d18";
   "00000000000000000042d89446b9043387be2d4c09aa9e9524176c5754616510";
   "00000000000000000018ec4d369bab2c13174834a02138decea7c85685d46bd6";
   "0000000000000000000d4a6c2237c6c46b963b17f60d9c850c4915518deb6678";
   "00000000000000000031adb986da21237ce06b57ae5390b7f0f890ab8e21b66a";
   "000000000000000000031df41201cd3789559333cd9529f99834a805014c9b13";
   "00000000000000000020c68bfc8de14bc9dd2d6cf45161a67e0c6455cf28cfd8";
   "00000000000000000009dce52e227d46a6bdf38a8c1f2e88c6044893289c2bf0";
   "0000000000000000002eca92f4e44dcf144115851689ace0ff4ce271792f16fe";
   "00000000000000000000943de85f4495f053ff55f27d135edc61c27990c2eec5";
   "0000000000000000001d9d48d93793aaa85b5f6d17c176d4ef905c7e7112b1cf";
   "0000000000000000001877e616b546d1ba5cf9e8b8edd9eba480a4fbb9f02bce";
   "00000000000000000025eb2c783f2f29d68ab4260f4b0248450c0038debc7ba4";
   "0000000000000000000c61b8a7779dcc46e88ca343b9a3fcc6763917fe3b87e2";
   "00000000000000000003dba9fedba6a0b92b640167eeda0d41485a3c85ac4ac6";
   "0000000000000000001ac75bed7eb6169255893f99de28f24e3e0e57b6f7db7b";
   "0000000000000000000e5796e9c5cdc8a8a2de84fd17287d7dfe89074de31766";
   "00000000000000000015fe695e8d2e5ed3a7de81d3818ef43a444e1ee7b3ace2";
   "00000000000000000015a08d0a60237487070fe0d956d5fb5fd9d21ad6d7b2d3";
   "00000000000000000008f4f64baaa9b28d4476f2a000c459df492d5664320b12";
   "00000000000000000028a69d9498c46b2b073752133e3e9e585965e7dab55065";
   "00000000000000000014dbca1d9ea7256a3993253c033a50d8b3064a2cbd056b";
   "00000000000000000019046cf62aa17f6e526636c71c09161c8e730b64d755ae";
   "00000000000000000017e5c36734296b27065045f181e028c0d91cebb336d50c";
   "0000000000000000002296c06935b34f3ed946d98781ff471a99101796e8611b";
   "0000000000000000001ccf7aa37a7f07e4d709eef9c6c4abd0b808686b14c314";
   "0000000000000000000de3e7a7711130dbac9fb0a14e5ad6ab72d080182f3321";
   "0000000000000000000e6829c1245de98ce5a35c177a75f67e9c1678cb6e24aa";
   "00000000000000000001b2505c11119fcf29be733ec379f686518bf1090a522a";
   "0000000000000000000a4adf6c5192128535d4dcb56cfb5753755f8d392b26bf";
   "0000000000000000000485ab94f5ea60203aacfc9740b3e42700d7e7012f76d7";
   "0000000000000000000cbc6dfb3f2afbd6ed1427e30ed1f3167898ac4aa4c673";
   "0000000000000000001d9865df58f5f300552699fefc09aa840ba25ac044a534";
   "000000000000000000115eb6c10b7a98bf23a46002baec8fbbbb2cf0583439a6";
   "000000000000000000113978c5b95531173923ba81ed4d1df3b09db37ae0f0cf";
   "000000000000000000096b8d24db6471fb5871e9ae8bd1d7384fbee9c80a6052";
   "00000000000000000016e0dd8fe86bf34feaa611b4c52180b6822b5ad31b68ff";
   "00000000000000000011e20e47a868d12a2bf3de814ebd067e83514aa2725745";
   "0000000000000000000c48f6bed594da7bb5e75731b4e78501670e834d426e87";
   "0000000000000000000f7871dc40f51b1ecd6343a6d9fd614d0e2235a7d9e3fd";
   "0000000000000000001558c0f33a360d105b52a749103eb2abd4a66a68d52664";
   "0000000000000000000676463abf3771ea01e0f8c948d1c93658a1d82d95df5a";
   "0000000000000000000e24396612da4ec125ee6c0b4507e854c5cfed1884cd30";
   "00000000000000000002fb021eeb13e47021920faf6e5daa3c40bc552c4d248e";
   "000000000000000000067b904af747b653ba448a79779f7846bf1ea5537b8a4d";
   "000000000000000000080ae07ccf2f1b6d1d089f5dcbc1fac50a6b93d005f1e0";
   "00000000000000000008f9ddf24dbec1459689fc399329e9738b2795860e4361";
   "0000000000000000000aacba541ebb7b56b0831e4ae33faf20ff1e528bb9a657";
   "00000000000000000010fe23dd08a4b6465c4850984bb538e9dfcb93995a23cc";
   "0000000000000000001166c174a9d34b0743953e724162fe44388e38d078204c";
   "00000000000000000006da92c61b6b63ea910be27cab5fd951137105314f2969";
   "000000000000000000043f26353c41c2343a277ad72f115171fb49d3be52dbbc";
   "0000000000000000000bc6800858a1b3be08fb26b55d4b989c95e06ad50a350c";
   "0000000000000000000c799dc0e36302db7fbb471711f140dc308508ef19e343";
   "0000000000000000000de98650125747f239134cf7e2b7362033e325a8003a14";
   "0000000000000000001138f586983520b0de3645c0873164f4b214b90cf3aedc";
   "0000000000000000000e87ecbff47d9ab75e78d92328d5951351f9702597dace";
   "00000000000000000007c4dac98234149700771e9d1756956660b63cca88c36b";
   "00000000000000000003030a3de58b57be352e2ca79016cefe19777e02ba0520";
   "0000000000000000000cfd1300625612513c6cd1413245fcdaf1eeb766e33a93";
   "0000000000000000000830b0a5ac4b78b5eb99209ebb4790be1fae1428c7f77c";
   "0000000000000000000ed5cf2e86791b44abce69e178e58613e64ed47e1c02a3";
   "0000000000000000000aac5c93f7945c60d82828990448cde97d3d7128830a6d";
   "000000000000000000049a66ca322371799e1cb51d85c8937764ba6a2abb8ed9";
   "0000000000000000000657c7aa925caa49d18e0c02cab9992be315012d8fab06";
   "000000000000000000061250f1186194229157967d10a01a2b36ab19d4304da5";
   "0000000000000000000d2e17e6d3179b4182518bd678f20bbda8b29e5e494d54";
   "00000000000000000005e2dea23567cb4fe092a354e7d1b50b59571715de22f6";
   "00000000000000000005e17383e25f65b531d50060b99ed66f673ea251949e4b";
   "000000000000000000090386439b3e1c7dc56d2e450694e910b366895f05b9ef";
   "000000000000000000046f183ba323cfceb2d11660376c59fb55e8521c4d32a5";
   "00000000000000000006d248288fe5c88d55836f0ffcd9acae8333c824106a54";
   "0000000000000000000a047b7c5b3b06db1bd4b858e757c7214d192cc491e2e9";
   "0000000000000000000ea5abc8d23ce15f85afbdf574da6c82c67bef5df0d752";
   "00000000000000000008ad1e1340f31a30d1fee7d0e3e56a0cf7dd571dc653aa";
   "00000000000000000004f29390852281bae27d3662f648020bb47cced0d883b8";
   "00000000000000000008aa78bb2eb233395c99d1276ab90a7fe728882b5c2907";
   "0000000000000000000b842cbf7dfe7345b48deb00b76298f58ae0f58ce821ae";
   "000000000000000000065952ab35814a9a021f9e5138623779c93c6c56ad6cf4";
   "00000000000000000000b136fc67072ab98643c2346ff07c4076d94c35d9481c";
   "00000000000000000005a2db60197fa9012b70f75e4745b362afc16a052d6ee6";
   "000000000000000000035d5c18a83cb7e0ad0880a3b7936d277becaad9d5a00f";
   "0000000000000000000d882df633c1ec8ef9ded1dbf09f02114cf9c999d1dde1";
   "00000000000000000006248c28751a176336f5c070f901dc86df190c391d761d";
   "00000000000000000001464428893b618817bff3128a6e17a2c043de53ca4673";
   "00000000000000000009cbc816ab1d430e7a9cc24ffdb6702870112c84a9657c";
   "0000000000000000000b964e653343c6ae97d73db7f526cbc3187ff7829b0c42";
   "00000000000000000003c1a7a8f2e45be0b6ba0d2fac227ff2a43cf8b7eaec29";
   "00000000000000000000019999808926fea81b376f1060e7411bc3a5d2853594";
   "000000000000000000098d881262beb65d58d46176ae565dee9bb050f7b3d516";
   "0000000000000000000019cb70a38e25e348efd12435797631ec48088e4abe63";
   "0000000000000000000515117969caee77eadd03b30d8d50d044269172d844d8";
   "0000000000000000000e1c751629fb7e8112c37eda91f9f6d8e223cd2ee50c05";
   "000000000000000000029da63650d127e160033c93393da77302320bd8ee4958";
   "00000000000000000006c0cd9b33f4d579e31ba1e6bbf4c5297324fa78fbf151";
   "000000000000000000013712fc242ee6dd28476d0e9c931c75f83e6974c6bccc";
   "00000000000000000001871f43a65da0527d3455aea40b0af27e0ef31b3d6b98";
   "0000000000000000000a8c54b4dfa4ba0152a0c4d5bcbf999025cbcbf0efc039";
   "00000000000000000004680d21d3c5e94dc03d197a3bb5653b1f9d7d5015a2a9";
   "00000000000000000000135a8473d7d3a3b091c928246c65ce2a396dd2a5ca9a";
   "00000000000000000002d5d3caf5cd22bd5cc211e4fb7e283c1713dabaa96df6";
   "000000000000000000001fc83bc1767e7aa5c31bf9dc4aeb505247f6fca1d96d";
   "00000000000000000004ddb634472f403757e89fefe4590b70a3841e7b307bf6";
   "000000000000000000041e39e07eefe69a84140b1020fe46b329a20ce5b74a77";
   "00000000000000000005f63eed68a9a3979f0db78aec853df62aae1234f43306";
   "000000000000000000076c23a2f567ea68fa523055dac2a0d94579ad277459d8";
   "00000000000000000001a5cc47cfd6abaf57dd33f891342f35bd8b8176f8867d";
   "00000000000000000002c1452eafc55a3a7b2e23b87dc94c53257be3b9fd2d92";
   "00000000000000000005c7686bd1dd938bf1e1849ae17d71efcd868e897a2ae2";
   "00000000000000000008b5ffa0ae1b604dd27bf4af84602ea53f7920320a3c96";
   "000000000000000000050c04aa3e3ca62420b6366e20ebea29ed3042320d2e4b";
   "0000000000000000000882e7306788b58cb5805c04f432203863a8e8c8290902";
   "000000000000000000018b957c6b644c23f532ab7d8fbbeca6fa77ad078a6b29";
   "0000000000000000000528876999d7bdfc25ad64e66ffe7f27a1e371bd9835c5";
   "00000000000000000001095f6deb27964f80c74f38217a32044c20265e0f40e3";
   "0000000000000000000073616e48a83e3e27b70ba27cd38c683d0014189b41b9";
   "000000000000000000016ca393ebd4f388b294134f5633a62d4268b3e4b544dc";
   "000000000000000000028a4784e2bd24e775437108c0e7a90469bff4a62895d2";
   "0000000000000000000136eb131bc275961ef87f4a06f56d849ef7de6067a83c";
   "0000000000000000000009f301f2215237cab791aedc296f102fd7b9dfbff456";
   "00000000000000000007ac57aa98595dd1daa3db89f17a817b445b083d696e0f";
   "00000000000000000006e6f83c247026057e769aace3815f8138941b256a3ad2";
   "00000000000000000001348162a93f4734709f6a142b19aeefd8714f46d0b8f9";
   "0000000000000000000428fc10bebcc825140bc83b01b8be32488bcd408e1389";
   "0000000000000000000152525a810f2033976f89ba434694c0fe5bf97730f625";
   "00000000000000000001fe51e048f4f42e4212098de90827f929403e17b71988";
   "000000000000000000064d0f3321a86b27d4883ab1ccedd12cf0941fb74f01a7";
   "000000000000000000053916f5f3b68319baf095c4205ad4edca517cd89b4a51";
   "00000000000000000006813d0260b4726b64e83025e904165ffaaf06d17227d7";
   "00000000000000000005c39a2670a916dc4075afaaf8fe30e495c13ba323e141";
   "00000000000000000005e07bf1518ede202f3a18b1a710e9700046755b3c7550";
   "00000000000000000005776a4242de5ebfc59d247a114188851e3d24fd173f61";
   "00000000000000000000eb00afd3cdc013b3033d0419037fa9c6f4243b5a7a79";
   "0000000000000000000060df647feb8b98f0b5e7ce312c35101bd5c6de001fcc";
   "000000000000000000044cb8431ecd498363f5ec16e05553b7f1f69b1a3a6a93";
   "00000000000000000001c951f76bd2d92beda3c1ab615d57558ecf654c900042";
   "000000000000000000036eb2f0d13b6e4fdb17da672479713a9e08d0f0875dbf";
   "000000000000000000033c59708025b67a8b8518d3760151eb4980e7a3a21e62";
   "0000000000000000000062afa9e3b9df5eee17c2edfc89f60778afe3abccb593";
   "00000000000000000003a3bbc3dac0c578948918c796426cda4c1958fc8454d3";
   "00000000000000000000dc8c2caadf5e8e8635adc7ff4d90dcfba264a3493e6a";
   "000000000000000000034e1a8f7c1efee7c36209a1556a377568d6368431dd17";
   "00000000000000000000967ad630a7aac2aeed84cc4c10ef1bce932cefdb374e";
   "00000000000000000002f985a10a40897d04888ac10c8ac75867a50b016eb6ef";
   "000000000000000000027ecc78c2da1cc5c0b0496706baa7e4d7c80812c10bf3";
   "000000000000000000047381dac259c4a8ce569c8498a2b9d11db6c080500343";
   "00000000000000000001df9394219ced52cb3789dc1c31408d6e01bec37c0b2a";
   "0000000000000000000353813d30e99afcc4579d469b57718f4521d570b3dce6";
   "000000000000000000009af85a7f58a31a21d77ad6dbeb8f52a11de6ec716b79";
   "00000000000000000000cc85f351633ed7b58e8b827ad0176798c4905084e95c";
   "0000000000000000000125ab365abaa653d41dd6acb9ecddf9bb9a944d1e0bfd";
   "0000000000000000000078f4e50a09391670d061deea0b3b87c3fa60cfaaf782";
   "00000000000000000001595b16989798f8997d89ac778ccc7d0d6c7e88ab4ec9";
   "000000000000000000026ab1b5e445f9320cf2ec3dc6720b501877d4e0b40eff";
   "0000000000000000000268358721568565da476fdf07250d18ee210bc2f874c0";
   "000000000000000000005b3388af9acbfd8c00b5b3ec888a75085011cc69cbb2";
   "000000000000000000010e2bc83838d1b9479b88341e4d0033dff524d16d5ef5";
   "0000000000000000000350156217f3a450f8994e7054b631db2f0e07f43f268d";
   "00000000000000000000c1d14709a7659153a2299083637a01475b7865926b0b";
   "000000000000000000023aeab989430385cf0c085e9e25580d1813ea3daee028";
   "00000000000000000002bf1e60049e942ac34b728911adda77d704cc8401e84b";
   "000000000000000000021342b77cc83903ed85341a53b9ec571fb7b0a503124c";
   "00000000000000000000a2a87e6a371a8d2e63eb61a051333c7a3251b717c723";
   "0000000000000000000132f5df736574a143d1e41e1a0cdb9c7d1656a906124c";
   "0000000000000000000112beeccb1e3ba4e55ee2987685cc397cdd21e4c65fe2";
   "000000000000000000016e792fc3bd650030e9acd074a910c7905bbe9bb79899";
   "00000000000000000001a481e800d3a60641bfc442db64a2c2d9d11d3a298705";
   "00000000000000000001b39765b103785831b8f5a23d9fb42187226d1faf82f3";
   "0000000000000000000314bc1981218b70bf539ae13ac1e41eefc1ad7a605049";
   "0000000000000000000073036581ef712215c5f9aebfeb7d2fba84a2f71dd69f";
   "000000000000000000028030eb24a8d0bd042bd589839edc932c876dda457c9c";
   "00000000000000000000a98d2c6a1875258ba9611e24b421c88325ec5155e2c8";
   "00000000000000000001924bab37e9d87715e84aa7bcd0b52405f893dfe7005f";
   "000000000000000000007c7decd9c85fe0c5273691cf361b548855d91176fdab";
   "00000000000000000001b4ceba765aa1ecec00c4e3710b7d5115a90060c48cf6";
   "0000000000000000000026f3661ace0cda87b922d13d35280c9ac61c6ad364cf";
   "00000000000000000001a2a4d658523967c398ae9c4adda72c02f4072ec398f7";
   "0000000000000000000087427d61da6ce8b57e2726a9c62be8637cc906bad7e5";
   "000000000000000000002428ab473fa8570115d4a000e637814b86248d35d370";
   "000000000000000000006d0b2fecfc61125fe5a7c6387fdca048c4b3cd5ffa84";
   "00000000000000000001651e40ff05e359a13e1740d9c21f400abdc5f1b287c9";
   "0000000000000000000268d24974a0f3d8ec73bfc6b0a470c6bc891951b1e3b2";
   "00000000000000000001a3361e40ce264e71620908f8e8cd555b4182f7813bb7";
   "000000000000000000009e2b057f15897a5bbe33a9f5a4ca96d426368554f34e";
   "000000000000000000023d9b58d8793462a5d4fd778b8fe1ba9d8cd8f26816eb";
   "00000000000000000002065cd1b5c268e8e375d1a176da03d22479d0c02e2da6";
   "00000000000000000000ca2f64794d814b198eb237974573222e4521545582d5";
   "000000000000000000008765cffc1a859242108b85e6415ae144ec918a05787e";
   "000000000000000000006ebc27176d134d4885a125cd7e3a13783a6c9bcd12c9";
   "00000000000000000000a4d531b0328083c2f19a7f6c31e22e18cb73ff7a4d2c";
   "0000000000000000000108312d8ba9c66bf9c806b9c7bf2e923d282508941005";
   "000000000000000000009d9d77c8ae464658da8ad3ba1b2d07eca1937b9cef39";
   "000000000000000000011a2a7498613bba536d6f0f5649aca4e6a484d6312211";
   "00000000000000000000a4b1cede1eba74d67df322ca415468f277aa7b508f47";
   "000000000000000000016e02290e770058422eef8df58d85c037a2d21ca9afb4";
   "000000000000000000010ee7b1a4f44b8cf580f3fe692f362c43741f10b81c8b";
   "00000000000000000000b34c3fbb0151989a03d8fe589af6a5621528e6786c29";
   "000000000000000000019f01622aa9ccac55b505788f3310454eb40145b7d73a";
   "000000000000000000010919a63dfd4bb86037ad9f2c26cb8e4f3b18d345cb4a";
   "00000000000000000001d4b4cbfc67c0904765c9b6d6dd00ac3a72fd4efaac90";
   "0000000000000000000095fdebd0bf892913da1bf6f109a2fbddd7b4d13bb8fb";
   "000000000000000000014b809628248ecd176df547224411fedafd577041929d";
   "00000000000000000001c83578eeac30ea13eacc3668da7e37c8aed04992ec95";
   "0000000000000000000144a6109dda22b210490144247f34903e23ea98281065";
   "00000000000000000001d39c254559a52d78a36cb5373269db169857d9aa490e";
   "0000000000000000000159186ff01cb830839027afce1c072816ad1caf6735c2";
   "00000000000000000000fd7f37b8fb43c92b11c9d2809f115d22a6b5dbeb7836";
   "00000000000000000001209d8bd5b083d0eec0a0cfb72a9f922a5f46e3b4744f";
   "00000000000000000001d7ccda9078724e0514418daa90f0a8bca6eb407b84c4";
   "00000000000000000001cd3d900fafffcdfb08d117c9371344c0379074cd7746";
   "00000000000000000001720b8013ab3297e86a305decfa80ba9189c2010c3d37";
   "00000000000000000000b63fd908ebe790f52acf3a36e56fb3c710268c033069";
   "000000000000000000013b92be651a8dacc65df22e940c9c7efbfbf22289a287";
   "000000000000000000005cdac4445b711a17c3155cc5df32013a5288a402b4cb";
   "0000000000000000000158e0e476f624bf4d50fd64f6ff418501fe55c7ff0dcf";
   "0000000000000000000195dd7790358834443ede81e6800d8c497aa58040790d";
   "00000000000000000001b315e72169bef4867bf780527aa97c625ee9c001dc5d";
   "000000000000000000001e045d65f500623f19ae94e1516e08175efe606b04ef";
   "00000000000000000001d64ab6a43c427b2c2438a40980308224d3d79f814234";
   "0000000000000000000117f7c3cf6648645e969ebdb295ac14061bfa7251cf32";
   "00000000000000000000807f9dc917442a67910426d79ebb2f8aa2149327ce8a";
   "00000000000000000000d29ee44c13e924c37abcaa80c537609ce70b1fea1f33"].
