(* ===== verification/Confirm.v ===== *)
(** [chain/proof.rs]: what proves that a transaction confirmed. The
    hashes, the targets and the reading of a transaction are the
    [bitcoin] crate's: a parameter of what follows, with the laws it
    documents. A hash is its bytes. *)
From S2P Require Import Prelude Network Targets.

Abbreviation Hash := (list Z).

Record Header := {
  h_version : Z;
  prev_blockhash : Hash;
  h_merkle_root : Hash;
  h_time : Z;
  h_bits : Z;
  h_nonce : Z;
}.

(** What the source calls in the [bitcoin] crate, the parameters of
    mainnet where it takes some. A target is its number. *)
Class Bitcoin := {
  sha256d : list Z -> Hash;
  block_hash : Header -> Hash;
  parse_hash : string -> option Hash;
  from_compact : Z -> Z;
  is_met_by : Z -> Hash -> bool;
  max_transition_threshold : Z -> Z;
  max_attainable_target : Network -> Z;
  difficulty : Z -> Z;
  reads_as_transaction : list Z -> bool;
}.

(** What it documents of them: a hash has 32 bytes, a target is no less
    than zero, and the threshold of a transition is at most four times the
    target. *)
Class BitcoinLaws `{Bitcoin} : Prop := {
  sha256d_length : forall bytes, length (sha256d bytes) = 32%nat;
  from_compact_nonneg : forall bits, 0 <= from_compact bits;
  max_transition_bounds : forall target, 0 <= target -> 0 <= max_transition_threshold target <= 4 * target;
}.

Definition RETARGET_PERIOD : Z := 2016.
Definition PAST_THE_TABLE : nat := 2.
Definition BRANCH_MAX : nat := 32.
Definition ABOVE_THE_TIP : Z := 3.

(** A merkle branch as a server sends it: its hashes byte for byte
    reversed. *)
Record GetMerkleRes := { block_height : Z; pos : Z; merkle : list Hash }.

Inductive Proof_ := Holds | False_ | Unsure | Elsewhere.

Inductive Fault := Shape | Transaction.

#[export] Instance Proof_eq_dec : EqDecision Proof_.
Proof. solve_decision. Defined.

(** The chains read in this session, by period: [CHAINED]. *)
Abbreviation Chained := (gmap Z (Z * list Hash)).

Section Confirmations.
Context `{Bitcoin}.

(** ** Work *)

(** The loop past the table, [n] periods of it. *)
Fixpoint loosened (n : nat) (easiest : Z) : Z :=
  match n with
  | 0%nat => easiest
  | S n =>
    let looser := max_transition_threshold easiest in
    if looser =? easiest then easiest else loosened n looser
  end.

Definition easiest_target (network : Network) (height : Z) : option Z :=
  match network with
  | Mainnet =>
    let period := Z.to_nat (height / RETARGET_PERIOD) in
    let last := (length MAINNET_BITS - 1)%nat in
    let bits := nth (Nat.min period last) MAINNET_BITS 0 in
    Some (loosened (Nat.min period (last + PAST_THE_TABLE) - last) (from_compact bits))
  | Testnet4 => Some (max_attainable_target Testnet4)
  | Signet | Regtest => None
  end.

Definition target (header : Header) : Z := from_compact (h_bits header).

Definition has_proof_of_work (network : Network) (height : Z) (header : Header) : bool :=
  match easiest_target network height with
  | None => true
  | Some easiest => (target header <=? easiest) && is_met_by (target header) (block_hash header)
  end.

(** ** Branches *)

(** The loop of [merkle_root]: [node] at [index], the branch still to
    read. *)
Fixpoint climb (node : Hash) (index : Z) (branch : list Hash) : result Hash Fault :=
  match branch with
  | [] => if negb (index =? 0) then Err Shape else Ok node
  | sibling :: branch =>
    let sibling := rev sibling in
    let right := Z.land index 1 =? 1 in
    if right && bool_decide (sibling = node) then Err Shape
    else
      let inner := if right then sibling ++ node else node ++ sibling in
      if reads_as_transaction inner then Err Transaction
      else climb (sha256d inner) (Z.shiftr index 1) branch
  end.

Definition merkle_root (txid : Hash) (pos : Z) (branch : list Hash) : result Hash Fault :=
  if (BRANCH_MAX <? length branch)%nat then Err Shape else climb txid pos branch.

Definition check_confirmation (network : Network) (height : Z) (header : Header) (txid : Hash)
  (branch : GetMerkleRes) : Proof_ :=
  if negb ((block_height branch <=? u32_max) && (block_height branch =? height)) then Unsure
  else if negb (has_proof_of_work network height header) then False_
  else match merkle_root txid (pos branch) (merkle branch) with
       | Ok root => if bool_decide (root = h_merkle_root header) then Holds else Elsewhere
       | Err Transaction => Unsure
       | Err Shape => False_
       end.

Definition above_the_tip (height tip : Z) : option Proof_ :=
  if height >? sat_add_u32 tip ABOVE_THE_TIP then Some False_
  else if height >? tip then Some Unsure else None.

Definition recheck (network : Network) (height : Z) (first again : Header) (txid : Hash)
  (branch : GetMerkleRes) : Proof_ :=
  let moved := negb (bool_decide (block_hash again = block_hash first)) in
  if moved && bool_decide (check_confirmation network height again txid branch = Holds) then Unsure else False_.

(** Whether output [vout] of a transaction, its outputs their script and
    their value, pays [ours] [value] sats. *)
Definition pays (outputs : list (string * Z)) (vout : Z) (ours : string) (value : Z) : bool :=
  match nth_error outputs (Z.to_nat vout) with
  | Some (script_pubkey, sats) => bool_decide (script_pubkey = ours) && (sats =? value)
  | None => false
  end.

Record ProvenCoin := { pc_script : string; pc_value : Z; pc_height : Z; pc_time : option Z }.

(** Where a coin was proven: its network, the server, its outpoint. *)
Abbreviation ProvenAt := (Network * string * (string * Z))%type.
Abbreviation ProvenCoins := (gmap ProvenAt ProvenCoin).

Definition PROVEN_COINS_MAX : Z := 10000.

Definition proven_coin (proven : ProvenCoins) (network : Network) (server : string) (outpoint : string * Z)
  (coin : ProvenCoin) : option (option Z) :=
  match proven !! (network, server, outpoint) with
  | Some held =>
    if bool_decide (pc_script held = pc_script coin) && (pc_value held =? pc_value coin) && (pc_height held =? pc_height coin)
    then Some (pc_time held) else None
  | None => None
  end.

Definition remember_coin (proven : ProvenCoins) (network : Network) (server : string) (outpoint : string * Z)
  (coin : ProvenCoin) : ProvenCoins :=
  let proven := if PROVEN_COINS_MAX <=? Z.of_nat (size proven) then ∅ else proven in
  <[(network, server, outpoint) := coin]> proven.

(** ** Chains *)

Definition CHAIN_BELOW_DIFFICULTY : Z := 400000000000000.
Definition ESPLORA_CHAIN_BELOW_DIFFICULTY : Z := Z.shiftl 1 32.

Definition checkpoint_below (network : Network) (height below : Z) : option (Z * Hash) :=
  if negb (bool_decide (network = Mainnet)) then None
  else
    let period := Z.to_nat (height / RETARGET_PERIOD) in
    match nth_error MAINNET_ENDS period with
    | None => None
    | Some end_ =>
      match parse_hash end_ with
      | None => None
      | Some end_ =>
        let bits := nth period MAINNET_BITS 0 in
        if difficulty (from_compact bits) <? below
        then Some ((Z.of_nat period + 1) * RETARGET_PERIOD - 1, end_) else None
      end
    end.

Definition checkpoint_for (network : Network) (height : Z) : option (Z * Hash) :=
  checkpoint_below network height CHAIN_BELOW_DIFFICULTY.

Definition esplora_chains (network : Network) (height : Z) : bool :=
  match checkpoint_below network height ESPLORA_CHAIN_BELOW_DIFFICULTY with Some _ => true | None => false end.

(** [windows(2)]: each header the parent of the next. *)
Fixpoint linked (headers : list Header) : bool :=
  match headers with
  | a :: ((b :: _) as rest) => bool_decide (prev_blockhash b = block_hash a) && linked rest
  | _ => true
  end.

Definition last_is (headers : list Header) (hash : Hash) : bool :=
  match list.last headers with Some header => bool_decide (block_hash header = hash) | None => false end.

(** [(from..).zip(headers).all(...)]. *)
Fixpoint work_from (network : Network) (from : Z) (headers : list Header) : bool :=
  match headers with
  | [] => true
  | header :: headers => has_proof_of_work network from header && work_from network (from + 1) headers
  end.

Definition chains_up_to (network : Network) (from : Z) (headers : list Header) (top : Hash) : bool :=
  linked headers && last_is headers top && work_from network from headers.

Definition CHAINED_MAX : nat := 64.

Definition chained_before (chained : Chained) (height : Z) : option Hash :=
  match chained !! (height / RETARGET_PERIOD) with
  | None => None
  | Some (from, hashes) => if height <? from then None else nth_error hashes (Z.to_nat (height - from))
  end.

Definition remember_chained (chained : Chained) (from : Z) (hashes : list Hash) : Chained :=
  let period := from / RETARGET_PERIOD in
  if match chained !! period with Some (kept, _) => kept <=? from | None => false end then chained
  else
    let chained := if (CHAINED_MAX <=? size chained)%nat then ∅ else chained in
    <[period := (from, hashes)]> chained.

Definition chain_to_checkpoint (chained : Chained) (network : Network) (from : Z) (headers : list Header)
  : Chained * option (list Hash) :=
  match checkpoint_for network from with
  | None => (chained, None)
  | Some (end_, end_hash) =>
    let n := Z.of_nat (length headers) in
    if negb ((n <=? u32_max) && (from <=? end_) && (n =? end_ - from + 1)) then (chained, None)
    else if negb (linked headers) || negb (last_is headers end_hash) then (chained, None)
    else
      let hashes := List.map block_hash headers in
      (remember_chained chained from hashes, Some hashes)
  end.

(** [chained]: the chains this sync read, in the order they come in. The
    index is within the chain, so the lookup never fails. *)
Definition in_read (read : list (Z * list Hash)) (height end_ : Z) : option Hash :=
  match List.find (fun '(from, hashes) => (from <=? height) && (from + Z.of_nat (length hashes) - 1 =? end_)) read with
  | Some (from, hashes) => nth_error hashes (Z.to_nat (height - from))
  | None => None
  end.

Definition chained (session : Chained) (network : Network) (height : Z) (hash : Hash)
  (read : list (Z * list Hash)) : Proof_ :=
  match checkpoint_for network height with
  | None => Holds
  | Some (end_, _) =>
    match (match in_read read height end_ with Some real => Some real | None => chained_before session height end) with
    | Some real => if bool_decide (real = hash) then Holds else False_
    | None => Unsure
    end
  end.

(** [chains_to_read]: for each period, the lowest height, and the end. *)
Definition note_height (session : Chained) (network : Network) (lowest : gmap Z (Z * Z)) (height : Z) : gmap Z (Z * Z) :=
  match checkpoint_for network height with
  | None => lowest
  | Some (end_, _) =>
    match chained_before session height with
    | Some _ => lowest
    | None =>
      let entry := unwrap_or (lowest !! end_) (height, end_) in
      <[end_ := (Z.min entry.1 height, entry.2)]> lowest
    end
  end.

Definition pair_le (a b : Z * Z) : bool := (a.1 <? b.1) || ((a.1 =? b.1) && (a.2 <=? b.2)).

Definition chains_to_read (session : Chained) (network : Network) (proven : list (Z * Hash)) : list (Z * Z) :=
  let lowest := foldl (note_height session network) ∅ (List.map fst proven) in
  sort_by pair_le (List.map (fun '(_, (from, end_)) => (from, end_ - from + 1)) (map_to_list lowest)).
End Confirmations.

(** ** The tree of a block

    The reference: each row pairs the one below, the last node of an odd
    row with itself, up to the root. *)

Section Tree.
Context `{Bitcoin}.

Fixpoint pair_inputs (row : list Hash) : list (list Z) :=
  match row with
  | a :: b :: row => (a ++ b) :: pair_inputs row
  | [a] => [a ++ a]
  | [] => []
  end.

Definition pair_up (row : list Hash) : list Hash := List.map sha256d (pair_inputs row).

(** [n] rows are enough for [n + 1] nodes. *)
Fixpoint root_of (n : nat) (row : list Hash) : Hash :=
  match n, row with
  | S n, _ :: _ :: _ => root_of n (pair_up row)
  | _, _ => List.hd [] row
  end.

Definition block_root (leaves : list Hash) : Hash := root_of (length leaves) leaves.

(** Everything hashed on the way to the root. *)
Fixpoint tree_inputs (n : nat) (row : list Hash) : list (list Z) :=
  match n, row with
  | S n, _ :: _ :: _ => pair_inputs row ++ tree_inputs n (pair_up row)
  | _, _ => []
  end.

(** What a branch hashes on its way. *)
Fixpoint branch_inputs (node : Hash) (index : Z) (branch : list Hash) : list (list Z) :=
  match branch with
  | [] => []
  | sibling :: branch =>
    let inner := if Z.land index 1 =? 1 then rev sibling ++ node else node ++ rev sibling in
    inner :: branch_inputs (sha256d inner) (Z.shiftr index 1) branch
  end.

(** No two of these have one hash. *)
Definition collision_free (l : list (list Z)) : Prop :=
  forall x y, In x l -> In y l -> sha256d x = sha256d y -> x = y.

Lemma collision_free_incl l l' : collision_free l' -> (forall x, In x l -> In x l') -> collision_free l.
Proof. intros H1 H2 x y Hx Hy. apply H1; auto. Qed.

Lemma pair_inputs_length row : length (pair_inputs row) = ((length row + 1) / 2)%nat.
Proof.
  assert (Hind : forall n row, (length row <= n)%nat -> length (pair_inputs row) = ((length row + 1) / 2)%nat).
  { clear row. induction n as [|n IH]; intros row Hr; [by destruct row; [|simpl in Hr; lia]|].
    destruct row as [|a [|b row]]; [done|done|]. cbn [pair_inputs length]. cbn [length] in Hr. rewrite IH by lia.
    replace (S (S (length row)) + 1)%nat with (length row + 1 + 1 * 2)%nat by lia. rewrite Nat.div_add by lia. lia. }
  by apply (Hind (length row)).
Qed.

Lemma pair_up_length row : length (pair_up row) = ((length row + 1) / 2)%nat.
Proof. unfold pair_up. by rewrite List.length_map, pair_inputs_length. Qed.

(** A node of the row above comes from the two below it, or from the last
    one below it alone. *)
Lemma pair_inputs_lookup row : forall k x, pair_inputs row !! k = Some x ->
  exists a, row !! (2 * k)%nat = Some a /\
    ((exists b, row !! (2 * k + 1)%nat = Some b /\ x = a ++ b) \/ (row !! (2 * k + 1)%nat = None /\ x = a ++ a)).
Proof.
  assert (Hind : forall n row, (length row <= n)%nat -> forall k x, pair_inputs row !! k = Some x ->
    exists a, row !! (2 * k)%nat = Some a /\
    ((exists b, row !! (2 * k + 1)%nat = Some b /\ x = a ++ b) \/ (row !! (2 * k + 1)%nat = None /\ x = a ++ a)));
    [|by apply (Hind (length row))].
  clear row. induction n as [|n IH]; intros row Hr k x; [by destruct row; [|simpl in Hr; lia]|].
  destruct row as [|a [|b row]]; cbn [pair_inputs]; [done| |].
  - destruct k as [|k]; [|done]. intros [= <-]. exists a. split; [done|]. by right.
  - destruct k as [|k].
    + intros [= <-]. exists a. split; [done|]. left. by exists b.
    + intros Hx. cbn [length] in Hr. destruct (IH row ltac:(lia) k x Hx) as (c & Hc & Hor). exists c.
      replace (2 * S k)%nat with (S (S (2 * k))) by lia. replace (2 * S k + 1)%nat with (S (S (2 * k + 1))) by lia.
      cbn. auto.
Qed.

(** The rows, from the leaves to the root. *)
Lemma rows n : forall row, (1 <= length row <= n + 1)%nat ->
  exists depth, Nat.iter depth pair_up row = [root_of n row]
    /\ forall j, (j < depth)%nat -> forall x, In x (pair_inputs (Nat.iter j pair_up row)) -> In x (tree_inputs n row).
Proof.
  induction n as [|n IH]; intros row Hr.
  { destruct row as [|a [|b row]]; simpl in Hr; try lia. exists 0%nat. split; [done|]. intros. lia. }
  destruct row as [|a [|b row]]; [simpl in Hr; lia|exists 0%nat; split; [done|intros; lia]|].
  set (row' := a :: b :: row) in *.
  assert (Hl : (1 <= length (pair_up row') <= n + 1)%nat).
  { rewrite pair_up_length. cbn [length row'] in *. subst row'. cbn [length] in *.
    pose proof (Nat.div_mod_eq (S (S (length row)) + 1) 2). pose proof (Nat.mod_upper_bound (S (S (length row)) + 1) 2). lia. }
  destruct (IH _ Hl) as (depth & Hd & Hi). exists (S depth). cbn [root_of tree_inputs]. subst row'.
  rewrite Nat.iter_succ_r. split; [done|]. intros [|j] Hj x Hx; apply in_or_app; [by left|]. right.
  apply (Hi j); [lia|]. by rewrite <- Nat.iter_succ_r.
Qed.
End Tree.

(** ** A branch leads where the transaction is *)

Lemma low_bit i : (Z.land i 1 =? 1) = Z.odd i.
Proof.
  change 1 with (Z.ones 1) at 1. rewrite Z.land_ones by lia. change (2 ^ 1) with 2.
  rewrite Zmod_odd. by destruct (Z.odd i).
Qed.

Lemma half_index i : 0 <= i ->
  0 <= Z.shiftr i 1
  /\ Z.to_nat i = (if Z.odd i then 2 * Z.to_nat (Z.shiftr i 1) + 1 else 2 * Z.to_nat (Z.shiftr i 1))%nat.
Proof.
  intros Hi. rewrite Z.shiftr_div_pow2 by lia. change (2 ^ 1) with 2. pose proof (Zmod_odd i) as Ho.
  split; [Z.div_mod_to_equations; lia|]. destruct (Z.odd i); Z.div_mod_to_equations; lia.
Qed.

Section Soundness.
Context `{BitcoinLaws}.

Lemma rows_length (leaves : list (list Z)) j x :
  x ∈ Nat.iter j pair_up (List.map sha256d leaves) -> length x = 32%nat.
Proof.
  destruct j as [|j]; [cbn|rewrite Nat.iter_succ; unfold pair_up at 1];
    intros (y & <- & _)%list_elem_of_In%in_map_iff; apply sha256d_length.
Qed.

(** From the root down: each step of a branch lands on a node of the row
    below, at its own index. *)
Lemma climb_lands (txs : list (list Z)) (depth : nat) (known : list (list Z)) root :
  let row j := Nat.iter j pair_up (List.map sha256d txs) in
  row depth = [root] ->
  (forall tx, In tx txs -> reads_as_transaction tx = true) ->
  (forall tx, In tx txs -> In tx known) ->
  (forall j x, (j < depth)%nat -> In x (pair_inputs (row j)) -> In x known) ->
  collision_free known ->
  forall branch node i,
  climb node i branch = Ok root -> 0 <= i -> length node = 32%nat ->
  Forall (fun s => length s = 32%nat) branch ->
  (forall x, In x (branch_inputs node i branch) -> In x known) ->
  exists j, (j <= depth)%nat /\ row j !! Z.to_nat i = Some node.
Proof.
  intros row Hroot Htx Hk1 Hk2 Hfree branch. induction branch as [|s branch IH]; intros node i Hc Hi Hn Hb Hk.
  { cbn [climb] in Hc. destruct (Z.eqb_spec i 0) as [E|]; [|done]. subst i. injection Hc as ->.
    exists depth. by rewrite Hroot. }
  cbn [climb branch_inputs] in Hc, Hk. rewrite low_bit in Hc, Hk.
  apply List.Forall_cons_iff in Hb as [Hs Hb]. destruct (half_index i Hi) as [Hi' Hidx].
  set (inner := if Z.odd i then rev s ++ node else node ++ rev s) in *.
  destruct (Z.odd i && bool_decide (rev s = node)) eqn:Edup; [done|].
  destruct (reads_as_transaction inner) eqn:Etx; [done|].
  destruct (IH _ _ Hc Hi' (sha256d_length inner) Hb) as (j & Hj & Hrow); [intros x Hx; apply Hk; by right|].
  assert (Hin : In inner known) by (apply Hk; by left).
  destruct j as [|j].
  { exfalso. unfold row in Hrow. cbn in Hrow.
    change (List.map sha256d txs) with (sha256d <$> txs) in Hrow.
    rewrite list_lookup_fmap in Hrow. apply fmap_Some in Hrow as (tx & Htxi & E).
    apply list_elem_of_lookup_2, list_elem_of_In in Htxi. apply Hfree in E as ->; auto. rewrite Htx in Etx; done. }
  exists j. split; [lia|]. unfold row in Hrow. rewrite Nat.iter_succ in Hrow. fold (row j) in Hrow.
  unfold pair_up in Hrow. change (List.map sha256d ?l) with (sha256d <$> l) in Hrow.
  rewrite list_lookup_fmap in Hrow. apply fmap_Some in Hrow as (x & Hx & E).
  assert (Hxk : In x known) by (apply (Hk2 j); [lia|]; apply list_elem_of_In; by eapply list_elem_of_lookup_2).
  apply Hfree in E; [|done..]. apply pair_inputs_lookup in Hx as (a & Ha & Hx). rewrite Hidx.
  assert (Hrev : length (rev s) = 32%nat) by (by rewrite length_rev).
  assert (Hla : length a = 32%nat) by (eapply (rows_length txs j); by eapply list_elem_of_lookup_2).
  destruct (Z.odd i); subst inner; cbn [andb] in Edup.
  - destruct Hx as [(b & Hb' & ->)|[_ ->]]; apply app_inj_1 in E as [E1 E2]; [by subst|congruence| |congruence].
    apply bool_decide_eq_false in Edup. congruence.
  - destruct Hx as [(b & Hb' & ->)|[_ ->]]; apply app_inj_1 in E as [E1 E2]; congruence.
Qed.

(** C9: what a confirmation proves. When the branch a server sent holds
    under a header whose root is that of a block's transactions, the
    transaction is one of that block, at the position claimed, and the
    header carries the work asked for at its height: neither an inner
    node, nor the half of a transaction, nor the copy an odd row makes of
    its last node passes for a transaction of the block. Taken for
    granted: the transaction itself is not 64 bytes long, and no two of
    the texts hashed on the way have one hash. *)
Theorem confirmed_means_mined network height header tx branch txs :
  check_confirmation network height header (sha256d tx) branch = Holds ->
  txs <> [] -> (forall t, In t txs -> reads_as_transaction t = true) ->
  h_merkle_root header = block_root (List.map sha256d txs) ->
  length tx <> 64%nat -> 0 <= pos branch -> Forall (fun s => length s = 32%nat) (merkle branch) ->
  collision_free (tx :: branch_inputs (sha256d tx) (pos branch) (merkle branch)
    ++ txs ++ tree_inputs (length txs) (List.map sha256d txs)) ->
  txs !! Z.to_nat (pos branch) = Some tx
  /\ block_height branch = height /\ has_proof_of_work network height header = true.
Proof.
  intros Hc Hne Htx Hroot H64 Hpos Hb Hfree. unfold check_confirmation in Hc.
  destruct (negb ((block_height branch <=? u32_max) && (block_height branch =? height))) eqn:Eh; [done|].
  destruct (has_proof_of_work network height header); [cbn [negb] in Hc|done].
  split; [|split; [lia|done]].
  destruct (merkle_root _ _ _) as [root|[]] eqn:Em; [|done..].
  destruct (bool_decide (root = h_merkle_root header)) eqn:Er; [|done]. apply bool_decide_eq_true in Er as ->.
  unfold merkle_root in Em. destruct (BRANCH_MAX <? _)%nat; [done|].
  set (known := tx :: _) in Hfree. unfold block_root in Hroot. rewrite List.length_map in Hroot.
  destruct (rows (length txs) (List.map sha256d txs)) as (depth & Hd & Hi).
  { rewrite List.length_map. destruct txs; [done|]. simpl. lia. }
  rewrite Hroot in Em.
  destruct (climb_lands txs depth known _ Hd Htx) with (branch := merkle branch) (node := sha256d tx) (i := pos branch)
    as (j & Hj & Hrow); try done.
  - intros t Ht. right. apply in_or_app. right. apply in_or_app. by left.
  - intros j x Hj Hx. right. apply in_or_app. right. apply in_or_app. right. by apply (Hi j).
  - apply sha256d_length.
  - intros x Hx. right. apply in_or_app. by left.
  - destruct j as [|j].
    + cbn in Hrow. change (List.map sha256d txs) with (sha256d <$> txs) in Hrow.
      rewrite list_lookup_fmap in Hrow. apply fmap_Some in Hrow as (t & Ht & E).
      apply Hfree in E as ->; [done|by left|].
      right. apply in_or_app. right. apply in_or_app. left. apply list_elem_of_In. by eapply list_elem_of_lookup_2.
    + exfalso. rewrite Nat.iter_succ in Hrow. unfold pair_up at 1 in Hrow.
      change (List.map sha256d ?l) with (sha256d <$> l) in Hrow at 1.
      rewrite list_lookup_fmap in Hrow. apply fmap_Some in Hrow as (x & Hx & E).
      apply Hfree in E; [|by left|right; apply in_or_app; right; apply in_or_app; right; apply (Hi j); [lia|];
        apply list_elem_of_In; by eapply list_elem_of_lookup_2].
      subst x. apply pair_inputs_lookup in Hx as (a & Ha & Hx).
      assert (Hla : length a = 32%nat) by (eapply (rows_length txs j); by eapply list_elem_of_lookup_2).
      destruct Hx as [(b & Hb' & E)|[_ E]]; apply (f_equal length) in E; rewrite length_app in E; [|lia].
      assert (Hlb : length b = 32%nat) by (eapply (rows_length txs j); by eapply list_elem_of_lookup_2). lia.
Qed.
End Soundness.

(** ** An honest branch holds *)

Lemma odd_of_nat k : Z.odd (Z.of_nat k) = Nat.odd k.
Proof.
  pose proof (Nat.div2_odd k) as E. destruct (Nat.odd k); rewrite E; cbn [Nat.b2n].
  - replace (Z.of_nat (2 * Nat.div2 k + 1)) with (2 * Z.of_nat (Nat.div2 k) + 1) by lia. apply Z.odd_odd.
  - replace (Z.of_nat (2 * Nat.div2 k + 0)) with (2 * Z.of_nat (Nat.div2 k)) by lia. apply Z.odd_even.
Qed.

Lemma half_of_nat k : Z.shiftr (Z.of_nat k) 1 = Z.of_nat (k / 2).
Proof. rewrite Z.shiftr_div_pow2 by lia. by rewrite Nat2Z.inj_div. Qed.

Section Completeness.
Context `{BitcoinLaws}.

Definition sibling (row : list Hash) (k : nat) : Hash :=
  match row !! (if Nat.even k then k + 1 else k - 1)%nat with Some s => s | None => nth k row [] end.

(** The branch a server reads off the tree for the leaf [k]. *)
Fixpoint honest_branch (n : nat) (row : list Hash) (k : nat) : list Hash :=
  match n, row with
  | S n, _ :: _ :: _ => rev (sibling row k) :: honest_branch n (pair_up row) (k / 2)
  | _, _ => []
  end.

Lemma honest_branch_length n : forall row k m, (length row <= 2 ^ m)%nat -> (length (honest_branch n row k) <= m)%nat.
Proof.
  induction n as [|n IH]; intros row k m Hm; [simpl; lia|].
  destruct row as [|a [|b row]]; [simpl; lia..|]. destruct m as [|m]; [simpl in Hm; lia|].
  cbn [honest_branch length]. apply le_n_S, IH. rewrite pair_up_length.
  rewrite Nat.pow_succ_r' in Hm. set (l := length (a :: b :: row)) in *. clearbody l.
  pose proof (Nat.div_mod_eq (l + 1) 2). lia.
Qed.

Lemma pair_inputs_NoDup row : NoDup row -> (forall x, x ∈ row -> length x = 32%nat) -> NoDup (pair_inputs row).
Proof.
  intros Hn Hl. apply NoDup_alt. intros i j x Hi Hj.
  apply pair_inputs_lookup in Hi as (a & Ha & Hx), Hj as (b & Hb & Hy).
  assert (a = b) as <-.
  { assert (length a = length b) by (rewrite !Hl; [done|by eapply list_elem_of_lookup_2..]).
    destruct Hx as [(a' & _ & ->)|[_ ->]], Hy as [(b' & _ & E)|[_ E]]; by apply app_inj_1 in E as [? _]. }
  pose proof (NoDup_lookup _ _ _ _ Hn Ha Hb). lia.
Qed.

Lemma NoDup_hashes l : NoDup l -> collision_free l -> NoDup (List.map sha256d l).
Proof.
  intros Hn Hf. change (NoDup (sha256d <$> l)). apply NoDup_alt. intros i j x. rewrite !list_lookup_fmap.
  intros (a & Ha & ->)%fmap_Some (b & Hb & E)%fmap_Some.
  assert (a = b) as <- by (apply Hf; [by eapply list_elem_of_In, list_elem_of_lookup_2..|done]).
  by eapply NoDup_lookup.
Qed.

(** What a node is hashed with, on either side. *)
Lemma honest_inner row k node : row !! k = Some node ->
  pair_inputs row !! (k / 2)%nat
  = Some (if Nat.odd k then sibling row k ++ node else node ++ sibling row k).
Proof.
  intros Hk. assert (Hlt : (k / 2 < length (pair_inputs row))%nat).
  { apply lookup_lt_Some in Hk. rewrite pair_inputs_length.
    pose proof (Nat.div_mod_eq k 2). pose proof (Nat.div_mod_eq (length row + 1) 2).
    pose proof (Nat.mod_upper_bound k 2). pose proof (Nat.mod_upper_bound (length row + 1) 2). lia. }
  apply lookup_lt_is_Some in Hlt as [x Hx]. rewrite Hx. f_equal. apply pair_inputs_lookup in Hx as (a & Ha & Hx).
  unfold sibling. rewrite <- Nat.negb_odd. pose proof (Nat.div2_odd k) as Hdiv. rewrite Nat.div2_div in Hdiv.
  destruct (Nat.odd k); cbn [negb Nat.b2n] in *.
  - replace (2 * (k / 2) + 1)%nat with k in Hx by lia. rewrite Hk in Hx.
    replace (k - 1)%nat with (2 * (k / 2))%nat by lia. rewrite Ha.
    destruct Hx as [(b & [= <-] & ->)|[? _]]; [done|congruence].
  - replace (2 * (k / 2))%nat with k in Ha, Hx by lia. rewrite Hk in Ha. injection Ha as <-.
    destruct Hx as [(b & -> & ->)|[-> ->]]; [done|]. by erewrite nth_lookup_Some.
Qed.

Lemma honest_climb n : forall row k node,
  (length row <= n + 1)%nat -> row !! k = Some node -> NoDup row -> (forall x, x ∈ row -> length x = 32%nat) ->
  collision_free (tree_inputs n row) ->
  (forall x, In x (branch_inputs node (Z.of_nat k) (honest_branch n row k)) -> reads_as_transaction x = false) ->
  climb node (Z.of_nat k) (honest_branch n row k) = Ok (root_of n row).
Proof.
  induction n as [|n IH]; intros row k node Hlen Hk Hn Hl Hfree Hno.
  { destruct row as [|a [|b row]]; [done| |simpl in Hlen; lia]. destruct k; [|done]. by injection Hk as ->. }
  destruct row as [|a [|b row]]; [done|destruct k; [|done]; by injection Hk as ->|].
  set (row' := a :: b :: row) in *. pose proof (honest_inner row' k node Hk) as Hin.
  change (honest_branch (S n) row' k) with (rev (sibling row' k) :: honest_branch n (pair_up row') (k / 2)) in *.
  change (root_of (S n) row') with (root_of n (pair_up row')).
  change (tree_inputs (S n) row') with (pair_inputs row' ++ tree_inputs n (pair_up row')) in Hfree.
  cbn [climb branch_inputs] in *. rewrite low_bit, rev_involutive in *.
  rewrite odd_of_nat, half_of_nat in *. set (inner := if Nat.odd k then _ else _) in *.
  assert (Hne : Nat.odd k && bool_decide (sibling row' k = node) = false).
  { destruct (Nat.odd k) eqn:Eo; [|done]. apply bool_decide_eq_false. unfold sibling. rewrite <- Nat.negb_odd, Eo. cbn [negb].
    apply lookup_lt_Some in Hk as Hlt. pose proof (Nat.div2_odd k) as Hdiv. rewrite Eo in Hdiv. cbn [Nat.b2n] in Hdiv.
    assert (Hlt' : (k - 1 < length row')%nat) by lia. apply lookup_lt_is_Some in Hlt' as [s Hs]. rewrite Hs. intros ->.
    pose proof (NoDup_lookup _ _ _ _ Hn Hs Hk). lia. }
  rewrite Hne, (Hno inner (or_introl eq_refl)). apply IH.
  - rewrite pair_up_length. subst row'. cbn [length] in *.
    pose proof (Nat.div_mod_eq (S (S (length row)) + 1) 2). pose proof (Nat.mod_upper_bound (S (S (length row)) + 1) 2). lia.
  - unfold pair_up. change (List.map sha256d ?l) with (sha256d <$> l). by rewrite list_lookup_fmap, Hin.
  - apply NoDup_hashes; [by apply pair_inputs_NoDup|].
    eapply collision_free_incl; [exact Hfree|]. intros x Hx. apply in_or_app. by left.
  - intros x Hx. unfold pair_up in Hx. apply list_elem_of_In, in_map_iff in Hx as (y & <- & _). apply sha256d_length.
  - eapply collision_free_incl; [exact Hfree|]. intros x Hx. apply in_or_app. by right.
  - intros x Hx. apply Hno. by right.
Qed.

(** An honest server is believed. The branch read off the tree of a
    block for any of its transactions, under a header with the work of
    its height and the root of that tree, holds: for a block of any size,
    wherever the transaction sits, in an odd row too, unless an inner
    node of that branch happens to read as a transaction. *)
Theorem honest_proof_holds network height header tx txs k :
  txs !! k = Some tx -> NoDup txs -> (length txs <= 2 ^ 32)%nat ->
  0 <= height <= u32_max -> has_proof_of_work network height header = true ->
  h_merkle_root header = block_root (List.map sha256d txs) ->
  let branch := honest_branch (length txs) (List.map sha256d txs) k in
  collision_free (txs ++ tree_inputs (length txs) (List.map sha256d txs)) ->
  (forall x, In x (branch_inputs (sha256d tx) (Z.of_nat k) branch) -> reads_as_transaction x = false) ->
  check_confirmation network height header (sha256d tx)
    {| block_height := height; pos := Z.of_nat k; merkle := branch |} = Holds.
Proof.
  intros Hk Hn Hlen Hh Hpow Hroot branch Hfree Hno. unfold check_confirmation. cbn [block_height pos merkle].
  replace (height <=? u32_max) with true by lia. rewrite Z.eqb_refl, Hpow. cbn [negb andb].
  assert (Hc : climb (sha256d tx) (Z.of_nat k) branch = Ok (h_merkle_root header)).
  { rewrite Hroot. unfold block_root. rewrite List.length_map. apply honest_climb; try done.
    - rewrite List.length_map. lia.
    - change (List.map sha256d txs) with (sha256d <$> txs). by rewrite list_lookup_fmap, Hk.
    - apply NoDup_hashes; [done|]. eapply collision_free_incl; [exact Hfree|]. intros x Hx. apply in_or_app. by left.
    - intros x Hx. by apply (rows_length txs 0).
    - eapply collision_free_incl; [exact Hfree|]. intros x Hx. apply in_or_app. by right. }
  unfold merkle_root. assert (Hb : (length branch <= 32)%nat)
    by (apply honest_branch_length; by rewrite List.length_map).
  unfold BRANCH_MAX. replace (32 <? length branch)%nat with false by lia. rewrite Hc. by rewrite bool_decide_true.
Qed.
End Completeness.

(** ** Chains to the checkpoints *)

Section Chains.
Context `{Bitcoin} (real : Z -> Header).

(** The blocks of the chain itself, each the parent of the next, the
    checkpoints among them. *)
Record real_chain : Prop := {
  rc_linked : forall h, 0 <= h -> prev_blockhash (real (h + 1)) = block_hash (real h);
  rc_checkpoints : forall network height end_ end_hash,
    checkpoint_for network height = Some (end_, end_hash) -> end_hash = block_hash (real end_);
}.

Definition real_hashes (from : Z) (hashes : list Hash) : Prop :=
  0 <= from /\ hashes = List.map (fun h => block_hash (real h)) (seqZ from (Z.of_nat (length hashes))).

Definition period_end (height : Z) : Z := (height / RETARGET_PERIOD + 1) * RETARGET_PERIOD - 1.

(** The chains kept are the chain's own, each to the end of its period. *)
Definition real_session (session : Chained) : Prop :=
  forall period from hashes, session !! period = Some (from, hashes) ->
    real_hashes from hashes /\ period = from / RETARGET_PERIOD
    /\ from + Z.of_nat (length hashes) - 1 = period_end from.

Definition real_reads (read : list (Z * list Hash)) : Prop :=
  forall from hashes, In (from, hashes) read -> real_hashes from hashes.

(** None of the headers sent has the hash of a block of the chain and is
    not that block. *)
Definition no_second_header (headers : list Header) : Prop :=
  forall header h, In header headers -> block_hash header = block_hash (real h) -> header = real h.

Lemma checkpoint_end network height end_ hash : 0 <= height ->
  checkpoint_for network height = Some (end_, hash) -> end_ = period_end height.
Proof.
  intros Hh. unfold checkpoint_for, checkpoint_below. repeat case_match; try done. intros [= <- _].
  unfold period_end. rewrite Z2Nat.id; [done|]. apply Z.div_pos; [done|]. unfold RETARGET_PERIOD. lia.
Qed.

Lemma real_hashes_nth from hashes h : real_hashes from hashes -> from <= h < from + Z.of_nat (length hashes) ->
  nth_error hashes (Z.to_nat (h - from)) = Some (block_hash (real h)).
Proof.
  intros [Hf ->] Hh. rewrite List.length_map in Hh. set (n := Z.of_nat (length hashes)) in *.
  rewrite nth_error_map. assert (E : nth_error (seqZ from n) (Z.to_nat (h - from)) = Some h); [|by rewrite E].
  pose proof (length_seqZ from n) as Hl. rewrite Hl in Hh.
  assert (Hlk : seqZ from n !! Z.to_nat (h - from) = Some h) by (apply lookup_seqZ; lia).
  revert Hlk. generalize (Z.to_nat (h - from)). generalize (seqZ from n). clear.
  intros l. induction l as [|x l IH]; intros [|i]; cbn; auto.
Qed.

(** Headers that lead to a block of the chain are blocks of the chain. *)
Lemma linked_real headers end_ : real_chain -> no_second_header headers ->
  linked headers = true -> last_is headers (block_hash (real end_)) = true ->
  0 <= end_ - Z.of_nat (length headers) + 1 ->
  headers = List.map real (seqZ (end_ - Z.of_nat (length headers) + 1) (Z.of_nat (length headers))).
Proof.
  intros [Hlink _]. induction headers as [|a [|b rest] IH]; intros Hsec Hl Hlast Hfrom; [done| |].
  - unfold last_is in Hlast. cbn in Hlast. apply bool_decide_eq_true in Hlast. apply Hsec in Hlast as ->; [|by left].
    cbn [length]. replace (end_ - Z.of_nat 1 + 1) with end_ by lia. done.
  - cbn [linked] in Hl. apply andb_true_iff in Hl as [Hab Hl]. apply bool_decide_eq_true in Hab.
    assert (IH' : b :: rest = List.map real (seqZ (end_ - Z.of_nat (length (b :: rest)) + 1) (Z.of_nat (length (b :: rest))))).
    { apply IH; [intros header h Hin; apply Hsec; by right|done|done|cbn [length] in *; lia]. }
    cbn [length] in *. set (n := Z.of_nat (S (length rest))) in *.
    replace (Z.of_nat (S (S (length rest)))) with (n + 1) in * by lia.
    rewrite seqZ_cons by lia. cbn [List.map]. replace (Z.succ (end_ - (n + 1) + 1)) with (end_ - n + 1) by lia.
    replace (Z.pred (n + 1)) with n by lia. rewrite <- IH'. f_equal.
    rewrite seqZ_cons in IH' by lia. cbn [List.map] in IH'. injection IH' as Hb _.
    apply Hsec; [by left|]. rewrite <- Hab, Hb. replace (end_ - n + 1) with (end_ - (n + 1) + 1 + 1) by lia.
    apply Hlink. lia.
Qed.
Lemma remember_real session from hashes : real_session session -> real_hashes from hashes ->
  from + Z.of_nat (length hashes) - 1 = period_end from ->
  real_session (remember_chained session from hashes)
  /\ exists kept chain, remember_chained session from hashes !! (from / RETARGET_PERIOD) = Some (kept, chain) /\ kept <= from.
Proof.
  intros Hs Hr He.
  assert (Hins : forall base, real_session base -> real_session (<[from / RETARGET_PERIOD := (from, hashes)]> base)).
  { intros base Hb period f hs. destruct (decide (period = from / RETARGET_PERIOD)) as [->|Hp];
      [rewrite lookup_insert_eq; by intros [= <- <-]|rewrite lookup_insert_ne by done; apply Hb]. }
  assert (Hbase : real_session (if (CHAINED_MAX <=? size session)%nat then ∅ else session)).
  { case_match; [|done]. intros period f hs. by rewrite lookup_empty. }
  assert (Hnew : real_session (<[from / RETARGET_PERIOD := (from, hashes)]> (if (CHAINED_MAX <=? size session)%nat then ∅ else session))
    /\ exists kept chain, <[from / RETARGET_PERIOD := (from, hashes)]> (if (CHAINED_MAX <=? size session)%nat then ∅ else session)
         !! (from / RETARGET_PERIOD) = Some (kept, chain) /\ kept <= from).
  { split; [by apply Hins|]. rewrite lookup_insert_eq. exists from, hashes. split; [done|lia]. }
  unfold remember_chained. destruct (session !! (from / RETARGET_PERIOD)) as [[kept chain]|] eqn:Ek; [|done].
  destruct (Z.leb_spec kept from); [|done]. split; [done|]. eauto.
Qed.

Lemma chain_to_checkpoint_real session network from headers : 0 <= from ->
  real_chain -> no_second_header headers -> real_session session ->
  let '(session', got) := chain_to_checkpoint session network from headers in
  real_session session'
  /\ forall hashes, got = Some hashes -> real_hashes from hashes
     /\ exists kept chain, session' !! (from / RETARGET_PERIOD) = Some (kept, chain) /\ kept <= from.
Proof.
  intros Hfrom Hreal Hsec Hs. unfold chain_to_checkpoint.
  destruct (checkpoint_for network from) as [[end_ end_hash]|] eqn:Ec; [|by split].
  destruct (negb (_ && _ && _)) eqn:En; [by split|]. destruct (negb (linked _) || _) eqn:El; [by split|].
  apply orb_false_iff in El as [Hl%negb_false_iff Hlast%negb_false_iff]. apply negb_false_iff in En.
  pose proof (checkpoint_end _ _ _ _ Hfrom Ec) as ->. apply (rc_checkpoints Hreal) in Ec as ->.
  assert (Hh : headers = List.map real (seqZ from (Z.of_nat (length headers)))).
  { replace from with (period_end from - Z.of_nat (length headers) + 1) at 1 by lia. apply linked_real; try done. lia. }
  assert (Hr : real_hashes from (List.map block_hash headers)).
  { split; [done|]. rewrite List.length_map. rewrite Hh at 1. by rewrite List.map_map. }
  destruct (remember_real session from (List.map block_hash headers) Hs Hr) as [Hs' Hk]; [rewrite List.length_map; lia|].
  split; [done|]. intros hashes [= <-]. by split.
Qed.

Lemma chained_before_real session height hash : 0 <= height -> real_session session ->
  chained_before session height = Some hash -> hash = block_hash (real height).
Proof.
  intros Hh Hs. unfold chained_before. destruct (session !! _) as [[from hashes]|] eqn:E; [|done].
  destruct (Z.ltb_spec height from) as [|Hf]; [done|]. destruct (Hs _ _ _ E) as (Hr & Hp & He).
  assert (Hlt : height <= period_end from).
  { unfold period_end. rewrite <- Hp. unfold RETARGET_PERIOD. Z.div_mod_to_equations. lia. }
  rewrite (real_hashes_nth from hashes height Hr) by lia. by intros [= <-].
Qed.

Lemma in_read_real read height end_ hash : height <= end_ -> real_reads read ->
  in_read read height end_ = Some hash -> hash = block_hash (real height).
Proof.
  intros Hh Hr. unfold in_read. destruct (List.find _ read) as [[from hashes]|] eqn:E; [|done].
  apply List.find_some in E as [Hin E]. apply andb_true_iff in E as [E1 E2].
  rewrite (real_hashes_nth from hashes height) by (try lia; by apply Hr). by intros [= <-].
Qed.

Lemma below_period_end height : 0 <= height -> height <= period_end height.
Proof. intros Hh. unfold period_end, RETARGET_PERIOD. Z.div_mod_to_equations. lia. Qed.

(** A block below a checkpoint that chaining lets stand is the chain's. *)
Lemma chained_real session network height hash read : 0 <= height -> real_session session -> real_reads read ->
  checkpoint_for network height <> None -> chained session network height hash read = Holds -> hash = block_hash (real height).
Proof.
  intros Hh Hs Hread. unfold chained. destruct (checkpoint_for network height) as [[end_ end_hash]|] eqn:Ec; [|done]. intros _.
  pose proof (checkpoint_end _ _ _ _ Hh Ec) as ->. destruct (in_read read height (period_end height)) as [r|] eqn:Ei.
  - apply (in_read_real _ _ _ _ (below_period_end height Hh) Hread) in Ei as ->. by case_bool_decide.
  - destruct (chained_before session height) as [r|] eqn:Eb; [|done]. apply (chained_before_real _ _ _ Hh Hs) in Eb as ->. by case_bool_decide.
Qed.

(** C10: blocks chained to a checkpoint are the chain's own. Whatever
    headers a server sends, the chains a session keeps and the hashes it
    is given are those of the blocks the chain holds there; so a
    confirmation that chaining lets stand is in the real block of its
    height, one it refuses is not, and once the headers from a height on
    were taken, no later confirmation of that period is left open. Taken
    for granted: no header sent shares its hash with a block of the chain
    without being that block. *)
Theorem chained_blocks_are_real session network from headers height hash read :
  0 <= from -> 0 <= height -> real_chain -> no_second_header headers -> real_session session -> real_reads read ->
  let '(session', got) := chain_to_checkpoint session network from headers in
  real_session session' /\ (forall hashes, got = Some hashes -> real_hashes from hashes)
  /\ forall checkpoint, checkpoint_for network height = Some checkpoint ->
    (chained session' network height hash read = Holds -> hash = block_hash (real height))
    /\ (chained session' network height hash read = False_ -> hash <> block_hash (real height))
    /\ (got <> None -> from / RETARGET_PERIOD = height / RETARGET_PERIOD -> from <= height ->
        chained session' network height hash read <> Unsure).
Proof.
  intros Hfrom Hh Hreal Hsec Hs Hread.
  pose proof (chain_to_checkpoint_real session network from headers Hfrom Hreal Hsec Hs) as Hc.
  destruct (chain_to_checkpoint _ _ _ _) as [session' got]. destruct Hc as [Hs' Hgot].
  split; [done|]. split; [intros hashes Hg; by apply Hgot in Hg as [? _]|]. intros [end_ end_hash] Ec. unfold chained. rewrite Ec.
  pose proof (checkpoint_end _ _ _ _ Hh Ec) as ->.
  assert (Hfound : forall r, (match in_read read height (period_end height) with Some real => Some real
      | None => chained_before session' height end) = Some r -> r = block_hash (real height)).
  { intros r. destruct (in_read _ _ _) eqn:Ei; [|by apply chained_before_real].
    intros [= <-]. eapply in_read_real; [|done..]. by apply below_period_end. }
  destruct (match in_read _ _ _ with Some _ => _ | None => _ end) as [r|] eqn:Er.
  - specialize (Hfound r eq_refl) as ->. case_bool_decide; split_and!; try done; congruence.
  - split_and!; try done. intros Hne Hper Hle. destruct got as [hashes|]; [|done].
    destruct (Hgot hashes eq_refl) as (_ & kept & chain & Hk & Hkept).
    destruct (in_read _ _ _); [done|]. unfold chained_before in Er. rewrite <- Hper, Hk in Er.
    destruct (Z.ltb_spec height kept); [lia|]. destruct (Hs' _ _ _ Hk) as (Hr & Hp & He).
    pose proof (below_period_end height Hh). assert (period_end kept = period_end height) by (unfold period_end; congruence).
    rewrite (real_hashes_nth kept chain height Hr) in Er by lia. done.
Qed.
End Chains.

(** ** The work of a block *)

Section Work.
Context `{BitcoinLaws}.

Lemma loosened_bound n : forall t, 0 <= t -> 0 <= loosened n t <= 4 ^ Z.of_nat n * t.
Proof.
  induction n as [|n IH]; intros t Ht; cbn [loosened]; [simpl; lia|].
  rewrite Nat2Z.inj_succ, Z.pow_succ_r by lia. pose proof (Z.pow_pos_nonneg 4 (Z.of_nat n) ltac:(lia) ltac:(lia)).
  destruct (Z.eqb_spec (max_transition_threshold t) t); [nia|].
  destruct (max_transition_bounds t Ht). specialize (IH (max_transition_threshold t)). nia.
Qed.

(** The target the table gives a height, the last one past its end. *)
Definition table_target (height : Z) : Z :=
  from_compact (nth (Nat.min (Z.to_nat (height / RETARGET_PERIOD)) (length MAINNET_BITS - 1)) MAINNET_BITS 0).

Lemma easiest_bound height : exists easiest, easiest_target Mainnet height = Some easiest
  /\ easiest <= 16 * table_target height
  /\ (height < Z.of_nat (length MAINNET_BITS) * RETARGET_PERIOD -> easiest = table_target height).
Proof.
  eexists. split; [reflexivity|]. fold (table_target height). unfold PAST_THE_TABLE.
  set (period := Z.to_nat (height / RETARGET_PERIOD)). set (last := (length MAINNET_BITS - 1)%nat).
  assert (Ht : 0 <= table_target height) by apply from_compact_nonneg. split.
  - assert (Hn : (Nat.min period (last + 2) - last = 0 \/ Nat.min period (last + 2) - last = 1
      \/ Nat.min period (last + 2) - last = 2)%nat) by lia.
    destruct (loosened_bound (Nat.min period (last + 2) - last) (table_target height) Ht) as [_ Hb].
    destruct Hn as [E|[E|E]]; rewrite E in *; simpl in Hb |- *; lia.
  - intros Hlt. replace (Nat.min period (last + 2) - last)%nat with 0%nat; [done|].
    assert (Hpos : (length MAINNET_BITS = S last)%nat) by done. rewrite Hpos in Hlt. clearbody last.
    assert (Z.of_nat period < Z.of_nat (S last)); [|lia]. unfold period.
    destruct (Z.le_gt_cases 0 height); [rewrite Z2Nat.id by (apply Z.div_pos; unfold RETARGET_PERIOD; lia)|];
      unfold RETARGET_PERIOD in *; [Z.div_mod_to_equations; lia|].
    assert (height / 2016 < 0) by (Z.div_mod_to_equations; lia). lia.
Qed.

(** What blocks that take others' place cost. A chain a server proves
    in place of the wallet's is not empty, ends at the block it was asked
    up to, each header the parent of the next; and on mainnet every one
    of them meets a target no easier than its period's in the table, and
    past the table no easier than sixteen times the last, however far
    past it the height claimed is. *)
Theorem replaced_blocks_have_work from headers top :
  chains_up_to Mainnet from headers top = true ->
  (exists header, list.last headers = Some header /\ block_hash header = top)
  /\ (forall k a b, headers !! k = Some a -> headers !! S k = Some b -> prev_blockhash b = block_hash a)
  /\ (forall k a, headers !! k = Some a ->
      is_met_by (target a) (block_hash a) = true
      /\ target a <= 16 * table_target (from + Z.of_nat k)
      /\ (from + Z.of_nat k < Z.of_nat (length MAINNET_BITS) * RETARGET_PERIOD ->
          target a <= table_target (from + Z.of_nat k))).
Proof.
  unfold chains_up_to. intros [[Hl Hlast]%andb_true_iff Hw]%andb_true_iff. split; [|split].
  - unfold last_is in Hlast. destruct (list.last headers) as [header|]; [|done].
    apply bool_decide_eq_true in Hlast. eauto.
  - clear Hlast Hw. induction headers as [|c headers IH]; intros [|k] a b Ha Hb; try done.
    + cbn in Ha, Hb. injection Ha as ->. destruct headers as [|d headers]; [done|]. injection Hb as ->.
      cbn [linked] in Hl. apply andb_true_iff in Hl as [Hl _]. by apply bool_decide_eq_true in Hl.
    + cbn in Ha, Hb. apply (IH ltac:(destruct headers; [done|]; cbn [linked] in Hl; by apply andb_true_iff in Hl as [_ Hl]) k); done.
  - clear Hlast Hl. revert from Hw. induction headers as [|c headers IH]; intros from Hw k a Ha; [done|].
    cbn [work_from] in Hw. apply andb_true_iff in Hw as [Hc Hw]. destruct k as [|k]; cbn in Ha.
    + injection Ha as ->. rewrite Z.add_0_r. unfold has_proof_of_work in Hc.
      destruct (easiest_bound from) as (easiest & Ee & H1 & H2). rewrite Ee in Hc. apply andb_true_iff in Hc as [Hc1 Hc2].
      split; [done|]. split; [lia|]. intros Hlt. rewrite <- H2 by done. lia.
    + replace (from + Z.of_nat (S k)) with (from + 1 + Z.of_nat k) by lia. by apply (IH _ Hw).
Qed.
End Work.

(** ** At work *)

(** The checkpoints and the targets of the table go together: one end a
    period but the last, no end twice. *)
Example table_lengths : length MAINNET_BITS = S (length MAINNET_ENDS).
Proof. vm_compute. reflexivity. Qed.

(** A hash that keeps everything it reads, in as many bytes; a block's
    is its height, kept as its time. *)
Definition demo_hash (bytes : list Z) : Hash :=
  foldl (fun acc b => acc * 1024 + b + 1) 0 bytes :: List.repeat 0 31.
Definition demo_block (height : Z) : Header := {|
  h_version := 2; prev_blockhash := demo_hash [height - 1]; h_merkle_root := demo_hash []; h_time := height;
  h_bits := 0; h_nonce := 0 |}.
Definition demo_end : string := nth 0 MAINNET_ENDS "".

#[local] Instance demo_bitcoin : Bitcoin := {|
  sha256d := demo_hash;
  block_hash header := demo_hash [h_time header];
  parse_hash s := if bool_decide (s = demo_end) then Some (demo_hash [2015]) else None;
  from_compact bits := Z.max 0 bits;
  is_met_by _ _ := true;
  max_transition_threshold target := 4 * target;
  max_attainable_target _ := 0;
  difficulty _ := 1;
  reads_as_transaction bytes := negb (length bytes =? 64)%nat;
|}.

#[local] Instance demo_laws : BitcoinLaws.
Proof. split; [done| |]; intros; simpl; lia. Qed.

Lemma collision_free_check `{Bitcoin} l :
  forallb (fun x => forallb (fun y => bool_decide (x = y) || negb (bool_decide (sha256d x = sha256d y))) l) l = true ->
  collision_free l.
Proof.
  rewrite forallb_forall. intros Hl x y Hx Hy E. specialize (Hl x Hx). rewrite forallb_forall in Hl. specialize (Hl y Hy).
  apply orb_true_iff in Hl as [Hl|Hl]; [by apply bool_decide_eq_true in Hl|].
  apply negb_true_iff, bool_decide_eq_false in Hl. done.
Qed.

Definition demo_txs : list (list Z) := [[1]; [2; 3]; [4]].
Definition demo_header : Header := {|
  h_version := 2; prev_blockhash := demo_hash [9]; h_merkle_root := block_root (List.map demo_hash demo_txs); h_time := 10;
  h_bits := 0; h_nonce := 0 |}.
Definition demo_branch : GetMerkleRes := {|
  block_height := 10; pos := 2; merkle := honest_branch 3 (List.map demo_hash demo_txs) 2 |}.

Lemma confirmed_means_mined_witness :
  check_confirmation Mainnet 10 demo_header (demo_hash [4]) demo_branch = Holds
  /\ demo_txs !! 2%nat = Some [4] /\ has_proof_of_work Mainnet 10 demo_header = true.
Proof.
  split; [vm_compute; reflexivity|].
  destruct (confirmed_means_mined Mainnet 10 demo_header [4] demo_branch demo_txs) as (H1 & _ & H3);
    [vm_compute; reflexivity|done| |vm_compute; reflexivity|done|done| | |exact (conj H1 H3)].
  - intros t [<-|[<-|[<-|[]]]]; reflexivity.
  - repeat constructor.
  - apply collision_free_check. vm_compute. reflexivity.
Defined.

Lemma honest_proof_holds_witness :
  check_confirmation Mainnet 10 demo_header (sha256d [4])
    {| block_height := 10; pos := Z.of_nat 2; merkle := honest_branch (length demo_txs) (List.map sha256d demo_txs) 2 |} = Holds.
Proof.
  apply (honest_proof_holds Mainnet 10 demo_header [4] demo_txs 2).
  - reflexivity.
  - apply (bool_decide_unpack _). vm_compute. exact I.
  - apply (Nat.le_trans _ (2 ^ 2)); [simpl; lia|]. apply Nat.pow_le_mono_r; lia.
  - unfold u32_max. lia.
  - vm_compute. reflexivity.
  - vm_compute. reflexivity.
  - apply collision_free_check. vm_compute. reflexivity.
  - intros x Hx. vm_compute in Hx. destruct Hx as [<-|[<-|[]]]; reflexivity.
Defined.

Lemma demo_chain : real_chain demo_block.
Proof.
  split.
  - intros h _. simpl. by replace (h + 1 - 1) with h by lia.
  - intros network height end_ end_hash. unfold checkpoint_for, checkpoint_below.
    destruct (negb _); [done|]. set (period := Z.to_nat (height / RETARGET_PERIOD)).
    destruct (nth_error MAINNET_ENDS period) as [s|] eqn:E; [|done]. cbn [parse_hash demo_bitcoin].
    case_bool_decide as Es; [|done]. subst s. case_match; [|done]. intros [= <- <-].
    assert (Hp : period = 0%nat); [|by rewrite Hp].
    assert (Hall : forallb (fun i => (i =? 0)%nat || negb (bool_decide (nth_error MAINNET_ENDS i = Some demo_end)))
      (seq 0 (length MAINNET_ENDS)) = true) by (vm_compute; reflexivity).
    rewrite forallb_forall in Hall. assert (Hlt : (period < length MAINNET_ENDS)%nat) by (apply nth_error_Some; congruence).
    specialize (Hall period ltac:(apply in_seq; lia)). rewrite bool_decide_true, orb_false_r in Hall by done.
    by apply Nat.eqb_eq in Hall.
Qed.

Lemma chained_blocks_are_real_witness :
  let '(session, got) := chain_to_checkpoint ∅ Mainnet 2014 [demo_block 2014; demo_block 2015] in
  real_session demo_block session /\ got = Some [demo_hash [2014]; demo_hash [2015]]
  /\ chained session Mainnet 2015 (demo_hash [2015]) [] = Holds
  /\ (chained session Mainnet 2015 (demo_hash [7]) [] = False_ -> demo_hash [7] <> demo_hash [2015]).
Proof.
  pose proof (chained_blocks_are_real demo_block ∅ Mainnet 2014 [demo_block 2014; demo_block 2015] 2015 (demo_hash [7]) []) as Hc.
  destruct (chain_to_checkpoint ∅ Mainnet 2014 [demo_block 2014; demo_block 2015]) as [session got] eqn:E.
  destruct Hc as (H1 & _ & H3); [lia|lia|apply demo_chain| |intros ???; by rewrite lookup_empty|by intros ?? []|].
  - intros header h [<-|[<-|[]]] Eh; injection Eh as Eh; f_equal; lia.
  - split; [exact H1|]. vm_compute in E. injection E as <- <-. split; [reflexivity|].
    split; [vm_compute; reflexivity|].
    exact (proj1 (proj2 (H3 (2015, demo_hash [2015]) ltac:(vm_compute; reflexivity)))).
Defined.

Lemma replaced_blocks_have_work_witness :
  chains_up_to Mainnet 0 [demo_block 0; demo_block 1] (demo_hash [1]) = true
  /\ forall a b, [demo_block 0; demo_block 1] !! 0%nat = Some a -> [demo_block 0; demo_block 1] !! 1%nat = Some b ->
     prev_blockhash b = block_hash a.
Proof.
  assert (E : chains_up_to Mainnet 0 [demo_block 0; demo_block 1] (demo_hash [1]) = true) by (vm_compute; reflexivity).
  split; [exact E|]. exact (proj1 (proj2 (replaced_blocks_have_work 0 _ _ E)) 0%nat).
Defined.
