(* ===== verification/Status.v ===== *)
(** [chain/electrum/status.rs]: the history a server lists for a script,
    against the status it announced. The hash is a parameter, and so is
    the script hash; an endpoint is any type whose values can be told
    apart. *)
From S2P Require Import Prelude Text.

(** A transaction of a history: its txid as written, its height, 0 or -1
    for the mempool. *)
Abbreviation Entry := (string * Z)%type.

Definition REORDERED_MAX : nat := 6.

Inductive Agreement := Holds | Differs | Undecided.
Inductive Verdict := Read | AskAgain | SetAside.

#[export] Instance Agreement_eq_dec : EqDecision Agreement.
Proof. solve_decision. Defined.
#[export] Instance Verdict_eq_dec : EqDecision Verdict.
Proof. solve_decision. Defined.

Section Status.
(** SHA-256 of a text, in hex. *)
Context (sha256 : string -> string).

Definition history_status (history : list Entry) : string :=
  sha256 (foldr (fun e rest => e.1 +:+ ":" +:+ dec_signed e.2 +:+ ":" +:+ rest) "" history).

(** How many transactions of a history wait in the mempool. *)
Definition waiting (history : list Entry) : nat := length (retain (fun e => e.2 <=? 0) history).

Definition asks_again (a : Agreement) (history : list Entry) : bool :=
  match a with
  | Holds => false
  | Undecided => true
  | Differs => (2 <=? waiting history)%nat
  end.

(** [in_some_order]: each transaction left is tried next, in turn; [n] is
    how many are left. *)
Fixpoint in_some_order (n : nat) (head left : list Entry) (status : string) : bool :=
  match n with
  | 0%nat => bool_decide (history_status head = status)
  | S n =>
    any (fun at_ =>
      match left !! at_ with
      | Some next => in_some_order n (head ++ [next]) (delete at_ left) status
      | None => false
      end) (seq 0 (length left))
  end.

Definition agreement (history : list Entry) (status : option string) : Agreement :=
  match status with
  | None => match history with [] => Holds | _ => Differs end
  | Some status =>
    match history with
    | [] => Differs
    | _ =>
      if bool_decide (history_status history = status) then Holds
      else
        let confirmed := retain (fun e => e.2 >? 0) history in
        let mempool := retain (fun e => negb (e.2 >? 0)) history in
        if (length mempool <? 2)%nat then Differs
        else if (REORDERED_MAX <? length mempool)%nat then Undecided
        else if in_some_order (length mempool) confirmed mempool status then Holds else Differs
    end
  end.

Definition verdict (history : list Entry) (status : option string) (expected : list string) (asked_again : bool)
  : Verdict :=
  let agreed := agreement history status in
  if bool_decide (agreed = Holds) then Read
  else if all (fun txid => bool_decide (txid ∈ history.*1)) expected then Read
  else if asked_again then (if bool_decide (agreed = Undecided) then Read else SetAside)
  else if asks_again agreed history then AskAgain else SetAside.

(** ** What the watch heard *)

Context {Endpoint : Type} `{EqDecision Endpoint} (scripthash : string -> string).

Record Heard := { server : option Endpoint; statuses : gmap string (option string) }.

Definition heard_open (h : Heard) (on : Endpoint) : Heard := {| server := Some on; statuses := ∅ |}.
Definition heard_close (h : Heard) : Heard := {| server := None; statuses := ∅ |}.
Definition heard_set (h : Heard) (scripthash : string) (status : option string) : Heard :=
  {| server := server h; statuses := <[scripthash := status]> (statuses h) |}.
Definition heard_forget (h : Heard) (scripthash : string) : Heard :=
  {| server := server h; statuses := delete scripthash (statuses h) |}.

Definition status_of (h : Heard) (on : Endpoint) (script : string) : option (option string) :=
  if negb (bool_decide (server h = Some on)) then None else statuses h !! scripthash script.

(** [Check]: the histories of one script a sync reads, one after the
    other; [told] is what a watch heard, with the server of the sync. *)
Record Check := { told : option (Heard * Endpoint); script : string; expected : list string; asked_again : bool }.

Definition check_new (told : option (Heard * Endpoint)) (script : string) (expected : list string) : Check :=
  {| told := told; script := script; expected := expected; asked_again := false |}.

Definition check_verdict (c : Check) (listed : option (list Entry)) : Check * Verdict :=
  match (match told c with Some (h, on) => status_of h on (script c) | None => None end), listed with
  | Some status, Some listed =>
    ({| told := told c; script := script c; expected := expected c; asked_again := true |},
     verdict listed status (expected c) (asked_again c))
  | _, _ => (c, Read)
  end.

(** ** Every order *)

Lemma delete_perm (left : list Entry) i x : left !! i = Some x -> x :: delete i left ≡ₚ left.
Proof. intros Hx. symmetry. by apply delete_Permutation. Qed.

Lemma in_some_order_right n : forall head left status, length left = n ->
  (in_some_order n head left status = true <-> exists order, order ≡ₚ left /\ history_status (head ++ order) = status).
Proof.
  induction n as [|n IH]; intros head left status Hn; cbn [in_some_order].
  - apply nil_length_inv in Hn as ->. rewrite bool_decide_eq_true. split.
    + intros E. exists []. by rewrite app_nil_r.
    + intros (order & Hp & E). apply Permutation_nil_r in Hp as ->. by rewrite app_nil_r in E.
  - rewrite any_true. split.
    + intros (i & _ & Hi). destruct (left !! i) as [next|] eqn:El; [|done].
      apply IH in Hi as (order & Hp & E); [|rewrite length_delete by eauto; lia].
      exists (next :: order). rewrite <- app_assoc in E. split; [|done]. rewrite Hp. by apply delete_perm.
    + intros (order & Hp & E). destruct order as [|next order].
      { apply Permutation_nil_l in Hp. by subst. }
      assert (Hin : next ∈ left) by (rewrite <- Hp; left). apply list_elem_of_lookup in Hin as [i Hi].
      exists i. split; [apply in_seq; apply lookup_lt_Some in Hi; lia|]. rewrite Hi.
      apply IH; [rewrite length_delete by eauto; lia|]. exists order. rewrite <- app_assoc. split; [|done].
      apply (Permutation_cons_inv (a := next)). rewrite Hp. symmetry. by apply delete_perm.
Qed.
(** A history with its confirmed transactions first, as servers list it;
    and a status that is the hash of one, its mempool in some order. *)
Definition confirmed_of (history : list Entry) : list Entry := retain (fun e => e.2 >? 0) history.
Definition mempool_of (history : list Entry) : list Entry := retain (fun e => negb (e.2 >? 0)) history.
Definition confirmed_first (history : list Entry) : Prop := history = confirmed_of history ++ mempool_of history.
Definition hashes_to (history : list Entry) (status : option string) : Prop :=
  match status with
  | None => history = []
  | Some status => history <> [] /\
      exists order, order ≡ₚ mempool_of history /\ history_status (confirmed_of history ++ order) = status
  end.

Lemma waiting_mempool history : waiting history = length (mempool_of history).
Proof.
  unfold waiting, mempool_of, retain. induction history as [|e history IH]; [done|]. simpl.
  replace (negb (e.2 >? 0)) with (e.2 <=? 0) by lia. destruct (e.2 <=? 0); simpl; by rewrite IH.
Qed.

Lemma short_orders (l order : list Entry) : (length l < 2)%nat -> order ≡ₚ l -> order = l.
Proof.
  intros Hl Hp. destruct l as [|x [|y l]]; [by apply Permutation_nil_r in Hp|by apply Permutation_singleton_r in Hp|simpl in Hl; lia].
Qed.

Lemma agreement_right history status : confirmed_first history ->
  match agreement history status with
  | Holds => hashes_to history status
  | Differs => ~ hashes_to history status
  | Undecided => (REORDERED_MAX < waiting history)%nat
  end.
Proof.
  intros Hc. unfold agreement, hashes_to. destruct status as [status|]; [|by destruct history].
  assert (Hcase : history = [] \/ history <> []) by (destruct history; auto).
  destruct Hcase as [->|Hne]; [by intros [? _]|].
  replace (match history with [] => _ | _ :: _ => _ end) with
    (if bool_decide (history_status history = status) then Holds
     else if (length (mempool_of history) <? 2)%nat then Differs
     else if (REORDERED_MAX <? length (mempool_of history))%nat then Undecided
     else if in_some_order (length (mempool_of history)) (confirmed_of history) (mempool_of history) status
          then Holds else Differs) by (by destruct history).
  case_bool_decide as Es.
  { split; [done|]. exists (mempool_of history). split; [done|]. by rewrite <- Hc. }
  destruct (Nat.ltb_spec (length (mempool_of history)) 2) as [Hl|].
  { intros (_ & order & Hp & E). apply short_orders in Hp as ->; [|done]. by rewrite <- Hc in E. }
  destruct (Nat.ltb_spec REORDERED_MAX (length (mempool_of history))); [by rewrite waiting_mempool|].
  pose proof (in_some_order_right (length (mempool_of history)) (confirmed_of history) (mempool_of history) status eq_refl) as Hr.
  destruct (in_some_order _ _ _ _); [split; [done|]; by apply Hr|]. intros [_ Ho]. by apply Hr in Ho.
Qed.

Definition heard_status (c : Check) : option (option string) :=
  match told c with Some (h, on) => status_of h on (script c) | None => None end.

(** What a sync makes of a history. It is set aside, or asked for
    again, only when a status was heard from that very server, and it
    leaves out a transaction the wallet holds; and, of a history with its
    confirmed transactions first, set aside only when no order of its
    mempool hashes to the status. One that leaves out nothing is read, and
    so is one that hashes to the status, unless its mempool is longer
    than six. A history is asked for again once at most. *)
Theorem history_judged c listed :
  let '(c', v) := check_verdict c listed in
  (v = AskAgain -> asked_again c = false) /\ (v <> Read \/ asked_again c = true -> asked_again c' = true)
  /\ (v <> Read -> exists status history, heard_status c = Some status /\ listed = Some history
      /\ exists txid, txid ∈ expected c /\ txid ∉ history.*1)
  /\ forall status history, heard_status c = Some status -> listed = Some history ->
     (v = SetAside -> confirmed_first history -> ~ hashes_to history status)
     /\ ((forall txid, txid ∈ expected c -> txid ∈ history.*1) -> v = Read)
     /\ (confirmed_first history -> hashes_to history status -> (waiting history <= REORDERED_MAX)%nat -> v = Read).
Proof.
  unfold check_verdict, heard_status.
  destruct (match told c with Some _ => _ | None => _ end) as [status|]; [|by split_and!; [|intros [?|?]|..]].
  destruct listed as [history|]; [|by split_and!; [|intros [?|?]|..]]. cbn [asked_again]. unfold verdict.
  pose proof (agreement_right history status) as Ha. set (agreed := agreement history status) in *. clearbody agreed.
  case_bool_decide as Eh; [split_and!; try done; intros ?? [= <-] [= <-]; by split_and!|].
  destruct (all _ (expected c)) eqn:Eall.
  { split_and!; try done; intros ?? [= <-] [= <-]; by split_and!. }
  assert (Hout : exists txid, txid ∈ expected c /\ txid ∉ history.*1).
  { unfold all in Eall. induction (expected c) as [|x l IH]; [done|]. cbn in Eall.
    destruct (bool_decide (x ∈ history.*1)) eqn:Ex.
    - destruct (IH Eall) as (t & Ht & Hn). exists t. split; [by right|done].
    - exists x. split; [left|]. by apply bool_decide_eq_false in Ex. }
  destruct (asked_again c) eqn:Eagain.
  - split; [by case_bool_decide|]. split; [done|]. split; [by intros _; exists status, history|]. intros ?? [= <-] [= <-].
    destruct agreed; [done| |by rewrite bool_decide_true].
    rewrite bool_decide_false by done. split; [intros _; exact Ha|]. split.
    + intros Hall. destruct Hout as (t & Ht & Hn). by destruct (Hn (Hall t Ht)).
    + intros Hc Hh. by destruct (Ha Hc Hh).
  - split; [done|]. split; [done|]. split; [by intros _; exists status, history|]. intros ?? [= <-] [= <-]. split; [|split].
    + destruct agreed; [done|by intros _; exact Ha|done].
    + intros Hall. destruct Hout as (t & Ht & Hn). by destruct (Hn (Hall t Ht)).
    + intros Hc Hh Hw. destruct agreed; [done|by destruct (Ha Hc Hh)|specialize (Ha Hc); lia].
Qed.

(** Nothing heard from one server speaks for another, nor a session for
    the one before it. *)
Lemma status_of_other h on other script : server h = Some on -> other <> on -> status_of h other script = None.
Proof. intros Hs Hne. unfold status_of. by rewrite Hs, bool_decide_false by congruence. Qed.
Lemma status_of_opened h on other script : status_of (heard_open h on) other script = None.
Proof. unfold status_of. case_match; [done|]. apply lookup_empty. Qed.
End Status.

(** As written, the agreement of a history whose one waiting transaction
    comes before the confirmed ones is not tried with it after them. *)
Example one_waiting_first :
  let h := [("a", 0); ("b", 5)] in
  agreement (fun s => s) h (Some (history_status (fun s => s) [("b", 5); ("a", 0)])) = Differs.
Proof. vm_compute. reflexivity. Qed.
