(* ===== verification/Cipher.v ===== *)
(** [store/cipher.rs]: the envelope of the vault file and of the backups.
    Argon2id and XChaCha20-Poly1305 are the crates': a parameter, with the
    one law the source leans on. Bytes are integers. *)
From S2P Require Import Prelude Utf8 Text Errors.

Definition MAGIC : list Z := [71; 70; 86; 65; 85; 76; 84; 49].
Definition BACKUP_MAGIC : list Z := [71; 70; 66; 65; 67; 75; 85; 80].
Definition VERSION : Z := 2.
Definition SALT_LEN : nat := 16.
Definition NONCE_LEN : nat := 24.
Definition HEADER_LEN : nat := 8 + 1 + 1 + SALT_LEN + NONCE_LEN.
Definition KDF_RAW : Z := 0.
Definition KDF_ARGON2ID : Z := 1.
Definition KDF_ARGON2ID_64M : Z := 2.
Definition OWASP_COST : Z * Z := (19456, 2).
Definition RFC_9106_COST : Z * Z := (65536, 3).

(** The crates' calls: Argon2id at a cost, on a password and a salt, or the
    words of its error; the cipher on a key, a nonce, a text and the
    associated data. *)
Class Aead := {
  argon2id : Z * Z -> string -> list Z -> result (list Z) string;
  encrypt : list Z -> list Z -> list Z -> list Z -> option (list Z);
  decrypt : list Z -> list Z -> list Z -> list Z -> option (list Z);
}.

(** One text opens to one message, and only under the key, the nonce and
    the data it was made with. *)
Class AeadLaws `{Aead} : Prop :=
  decrypt_encrypt : forall key nonce ciphertext aad msg,
    decrypt key nonce ciphertext aad = Some msg <-> encrypt key nonce msg aad = Some ciphertext.

Inductive VaultKey :=
| Raw (key : list Z)
| Password (password : string).

Section Envelope.
Context `{Aead}.

Definition kdf_id (key : VaultKey) (magic : list Z) : Z :=
  match key with
  | Raw _ => KDF_RAW
  | Password _ => if bool_decide (magic = BACKUP_MAGIC) then KDF_ARGON2ID_64M else KDF_ARGON2ID
  end.

Definition derive (key : VaultKey) (kdf : Z) (salt : list Z) : result (list Z) VaultError :=
  match key with
  | Raw key => Ok key
  | Password password =>
    let cost := if kdf =? KDF_ARGON2ID_64M then RFC_9106_COST else OWASP_COST in
    match argon2id cost password salt with Ok out => Ok out | Err e => Err (Kdf e) end
  end.

Definition header (magic : list Z) (kdf : Z) (salt nonce : list Z) : list Z :=
  magic ++ [VERSION] ++ [kdf] ++ salt ++ nonce.

(** [salt] and [nonce] are the random bytes drawn. *)
Definition seal_with (magic plaintext : list Z) (key : VaultKey) (salt nonce : list Z) : result (list Z) VaultError :=
  let kdf := kdf_id key magic in
  let header := header magic kdf salt nonce in
  let? derived := derive key kdf salt in
  match encrypt derived nonce plaintext header with
  | None => Err (Kdf "encryption failure")
  | Some ciphertext => Ok (header ++ ciphertext)
  end.

Definition seal (plaintext : list Z) (key : VaultKey) (salt nonce : list Z) : result (list Z) VaultError :=
  seal_with MAGIC plaintext key salt nonce.

(** A slice of the file, from [start]. *)
Definition slice (start len : nat) (file : list Z) : list Z := take len (drop start file).

Definition unseal_with (magic file : list Z) (key : VaultKey) : result (list Z) VaultError :=
  if (length file <? HEADER_LEN)%nat || negb (bool_decide (slice 0 8 file = magic)) then Err NotAVault
  else
    let version := nth 8 file 0 in
    if negb (version =? 1) && negb (version =? VERSION) then Err (UnsupportedVersion version)
    else
      let kdf := nth 9 file 0 in
      if negb ((kdf =? KDF_RAW) || (kdf =? KDF_ARGON2ID) || (kdf =? KDF_ARGON2ID_64M)) then Err (UnsupportedKdf kdf)
      else
        let salt := slice 10 SALT_LEN file in
        let nonce := slice (10 + SALT_LEN) NONCE_LEN file in
        let ciphertext := drop HEADER_LEN file in
        let? derived := derive key kdf salt in
        let aad := if version =? 1 then [] else take HEADER_LEN file in
        match decrypt derived nonce ciphertext aad with
        | None => Err WrongKeyOrCorrupted
        | Some msg => Ok msg
        end.

Definition unseal (file : list Z) (key : VaultKey) : result (list Z) VaultError := unseal_with MAGIC file key.

(** ** The header *)

Definition sizes (magic salt nonce : list Z) : Prop :=
  length magic = 8%nat /\ length salt = SALT_LEN /\ length nonce = NONCE_LEN.

Lemma header_length magic kdf salt nonce : sizes magic salt nonce -> length (header magic kdf salt nonce) = HEADER_LEN.
Proof. intros (Hm & Hs & Hn). unfold header. rewrite !length_app. simpl. rewrite Hm, Hs, Hn. reflexivity. Qed.

Lemma slice_app start len (a b c : list Z) :
  start = length a -> len = length b -> slice start len (a ++ b ++ c) = b.
Proof. intros -> ->. unfold slice. rewrite drop_app_length. apply take_app_length. Qed.

(** What reading finds in a file that starts with a header. *)
Lemma header_fields magic kdf salt nonce rest : sizes magic salt nonce ->
  let file := header magic kdf salt nonce ++ rest in
  (HEADER_LEN <= length file)%nat /\ slice 0 8 file = magic /\ nth 8 file 0 = VERSION /\ nth 9 file 0 = kdf
  /\ slice 10 SALT_LEN file = salt /\ slice (10 + SALT_LEN) NONCE_LEN file = nonce
  /\ take HEADER_LEN file = header magic kdf salt nonce /\ drop HEADER_LEN file = rest.
Proof.
  intros Hz file. pose proof (header_length magic kdf salt nonce Hz) as Hl. destruct Hz as (Hm & Hs & Hn).
  assert (Hf : file = magic ++ [VERSION] ++ [kdf] ++ salt ++ nonce ++ rest).
  { unfold file, header. by rewrite <- !app_assoc. }
  split; [unfold file; rewrite length_app; lia|]. split; [rewrite Hf; by apply (slice_app 0 8 [])|].
  split; [rewrite Hf, app_nth2 by lia; by rewrite Hm|]. split; [rewrite Hf, app_nth2 by lia; by rewrite Hm|].
  assert (Hpre : file = (magic ++ [VERSION] ++ [kdf]) ++ salt ++ nonce ++ rest) by by rewrite Hf, <- !app_assoc.
  assert (Hpre2 : file = (magic ++ [VERSION] ++ [kdf] ++ salt) ++ nonce ++ rest) by by rewrite Hf, <- !app_assoc.
  split; [rewrite Hpre; apply slice_app; [rewrite !length_app, Hm; done|done]|].
  split; [rewrite Hpre2; apply slice_app; [rewrite !length_app, Hm; simpl; by rewrite Hs|done]|].
  unfold file. rewrite <- Hl. split; [apply take_app_length|apply drop_app_length].
Qed.

(** And a file whose fields are those starts with that header. *)
Lemma file_header file : (HEADER_LEN <= length file)%nat -> nth 8 file 0 = VERSION ->
  let magic := slice 0 8 file in let salt := slice 10 SALT_LEN file in
  let nonce := slice (10 + SALT_LEN) NONCE_LEN file in
  sizes magic salt nonce /\ take HEADER_LEN file = header magic (nth 9 file 0) salt nonce.
Proof.
  intros Hl Hv magic salt nonce.
  do 50 (destruct file as [|? file]; [simpl in Hl; unfold HEADER_LEN, SALT_LEN, NONCE_LEN in Hl; lia|]).
  cbn in Hv. subst. split; [by split_and!|]. cbn. by rewrite take_0.
Qed.

Lemma header_inj magic kdf salt nonce magic' kdf' salt' nonce' :
  sizes magic salt nonce -> sizes magic' salt' nonce' ->
  header magic kdf salt nonce = header magic' kdf' salt' nonce' ->
  magic = magic' /\ kdf = kdf' /\ salt = salt' /\ nonce = nonce'.
Proof.
  intros H1 H2 E.
  destruct (header_fields magic kdf salt nonce [] H1) as (_ & A & _ & B & C & D & _).
  destruct (header_fields magic' kdf' salt' nonce' [] H2) as (_ & A' & _ & B' & C' & D' & _).
  rewrite E in A, B, C, D. rewrite A' in A. rewrite B' in B. rewrite C' in C. rewrite D' in D. auto.
Qed.

(** What opens, by its fields. *)
Lemma unseal_with_Ok magic file key msg :
  unseal_with magic file key = Ok msg ->
  (HEADER_LEN <= length file)%nat /\ slice 0 8 file = magic /\ (nth 8 file 0 = 1 \/ nth 8 file 0 = VERSION)
  /\ exists derived, derive key (nth 9 file 0) (slice 10 SALT_LEN file) = Ok derived
  /\ decrypt derived (slice (10 + SALT_LEN) NONCE_LEN file) (drop HEADER_LEN file)
       (if nth 8 file 0 =? 1 then [] else take HEADER_LEN file) = Some msg.
Proof.
  unfold unseal_with. destruct (Nat.ltb_spec (length file) HEADER_LEN); [done|]. simpl.
  case_bool_decide as Hm; [|done]. simpl.
  destruct (negb (nth 8 file 0 =? 1) && _) eqn:Ev; [done|].
  destruct (negb (_ || _)); [done|].
  destruct (derive _ _ _) as [derived|] eqn:Ed; [|done]. simpl. intros E.
  split; [done|]. split; [done|]. split; [lia|]. exists derived. split; [done|]. by destruct (decrypt _ _ _ _); [injection E as ->|].
Qed.

(** What was sealed, key by key: each time a magic, the bytes drawn, and
    the text; and what the cipher was given for it. *)
Record Sealing := { s_magic : list Z; s_salt : list Z; s_nonce : list Z; s_plain : list Z }.

Definition encryption (key : VaultKey) (s : Sealing) : option (list Z * list Z * list Z * list Z) :=
  match derive key (kdf_id key (s_magic s)) (s_salt s) with
  | Ok derived => Some (derived, s_nonce s, header (s_magic s) (kdf_id key (s_magic s)) (s_salt s) (s_nonce s), s_plain s)
  | Err _ => None
  end.

(** The integrity the cipher promises, of one file: it is no forgery. If
    what it carries opens under its nonce, with its header or with none,
    the holder of the key encrypted just that. *)
Definition genuine (key : VaultKey) (sealings : list Sealing) (file : list Z) : Prop :=
  let salt := slice 10 SALT_LEN file in let nonce := slice (10 + SALT_LEN) NONCE_LEN file in
  forall derived aad msg, derive key (nth 9 file 0) salt = Ok derived -> aad = [] \/ aad = take HEADER_LEN file ->
    decrypt derived nonce (drop HEADER_LEN file) aad = Some msg ->
    exists s, In s sealings /\ encryption key s = Some (derived, nonce, aad, msg).

Definition sizes_of (s : Sealing) : Prop := sizes (s_magic s) (s_salt s) (s_nonce s).

Context `{!AeadLaws}.

Lemma seal_unseal magic plaintext key salt nonce file :
  sizes magic salt nonce -> seal_with magic plaintext key salt nonce = Ok file ->
  unseal_with magic file key = Ok plaintext /\ slice 0 8 file = magic
  /\ nth 8 file 0 = VERSION /\ nth 9 file 0 = kdf_id key magic.
Proof.
  intros Hz. unfold seal_with. destruct (derive key (kdf_id key magic) salt) as [derived|] eqn:Ed; [|done]. simpl.
  destruct (encrypt derived nonce plaintext _) as [c|] eqn:Ee; [|done]. intros [= <-].
  destruct (header_fields magic (kdf_id key magic) salt nonce c Hz) as (Hl & Hm & Hv & Hk & Hs & Hn & Hh & Hc).
  set (file := _ ++ c) in *. apply decrypt_encrypt in Ee. split; [|done].
  unfold unseal_with. replace (length file <? HEADER_LEN)%nat with false by (symmetry; by apply Nat.ltb_ge).
  rewrite Hm, bool_decide_true by done. rewrite Hv, Hk, Hs, Hn, Hh, Hc.
  assert ((kdf_id key magic =? KDF_RAW) || (kdf_id key magic =? KDF_ARGON2ID) || (kdf_id key magic =? KDF_ARGON2ID_64M) = true) as ->.
  { unfold kdf_id. destruct key; [done|]. by case_bool_decide. }
  cbn [negb orb andb VERSION Z.eqb Pos.eqb]. rewrite Ed. cbn [result_bind]. by rewrite Ee.
Qed.

(** What is sealed under a key opens under it as what it was, with
    fresh bytes of the right sizes: the file begins with its magic, names
    the profile its key is derived by, the heavier one for the password of
    a backup, and is no file of another magic, whatever the key. *)
Theorem sealed_opens magic plaintext key salt nonce file :
  sizes magic salt nonce -> seal_with magic plaintext key salt nonce = Ok file ->
  unseal_with magic file key = Ok plaintext
  /\ (forall other any_key, other <> magic -> unseal_with other file any_key = Err NotAVault)
  /\ nth 8 file 0 = VERSION
  /\ nth 9 file 0 = match key with
                    | Raw _ => KDF_RAW
                    | Password _ => if bool_decide (magic = BACKUP_MAGIC) then KDF_ARGON2ID_64M else KDF_ARGON2ID
                    end.
Proof.
  intros Hz Hs. destruct (seal_unseal _ _ _ _ _ _ Hz Hs) as (Hu & Hm & Hv & Hk). split; [done|]. split; [|done].
  intros other any_key Ho. unfold unseal_with. rewrite Hm, bool_decide_false by congruence. by rewrite orb_true_r.
Qed.

(** C5: a file that is no forgery of the cipher opens under a key exactly
    when it is, byte for byte, what was sealed with it under that very
    magic, and as the text it was sealed from: a header changed in any
    byte, its version taken back to the one that bound no header included,
    never opens. *)
Theorem only_sealed_opens key sealings magic file msg :
  genuine key sealings file -> Forall sizes_of sealings ->
  unseal_with magic file key = Ok msg
  <-> exists s, In s sealings /\ s_magic s = magic /\ s_plain s = msg
      /\ seal_with magic msg key (s_salt s) (s_nonce s) = Ok file.
Proof.
  intros Ha Hz. split; [|intros (s & Hin & <- & <- & Hs); pose proof (proj1 (List.Forall_forall _ _) Hz s Hin) as Hsz; by destruct (seal_unseal _ _ _ _ _ _ Hsz Hs)].
  intros Hu. apply unseal_with_Ok in Hu as (Hl & Hm & Hv & derived & Ed & Edec).
  destruct (Ha derived (if nth 8 file 0 =? 1 then [] else take HEADER_LEN file) msg Ed ltac:(destruct (_ =? 1); [by left|by right]) Edec) as (s & Hin & He).
  pose proof (proj1 (List.Forall_forall _ _) Hz s Hin) as Hsz.
  unfold encryption in He. destruct (derive key (kdf_id key (s_magic s)) (s_salt s)) as [d|] eqn:Es; [|done].
  injection He as -> Hnonce Haad Hplain.
  destruct Hv as [Hv|Hv]; rewrite Hv in Haad, Edec;
    [change (1 =? 1) with true in *|change (VERSION =? 1) with false in *]; cbv iota in Haad, Edec.
  { pose proof (header_length _ (kdf_id key (s_magic s)) _ _ Hsz) as Hlen. by rewrite Haad in Hlen. }
  destruct (file_header file Hl Hv) as [Hsz' Hfile]. rewrite Hfile in Haad.
  apply (header_inj _ _ _ _ _ _ _ _ Hsz Hsz') in Haad as (Em & Ek & Esalt & En).
  exists s. split; [done|]. split; [congruence|]. split; [done|].
  unfold seal_with. replace magic with (s_magic s) by congruence. rewrite Es. simpl.
  apply decrypt_encrypt in Edec.
  assert (Hh : header (s_magic s) (kdf_id key (s_magic s)) (s_salt s) (s_nonce s) = take HEADER_LEN file).
  { rewrite Hfile. congruence. }
  rewrite Hh. rewrite En. rewrite Edec. f_equal. apply take_drop.
Qed.

(** What is not sealed, or by a later build, is refused before any key is
    derived. *)
Lemma unseal_with_refuses magic file key :
  unseal_with magic file key = Err NotAVault <->
    (length file < HEADER_LEN)%nat \/ slice 0 8 file <> magic.
Proof.
  unfold unseal_with. destruct (Nat.ltb_spec (length file) HEADER_LEN); simpl; [tauto|].
  case_bool_decide; simpl; [|split; auto; tauto].
  split; [|intros [?|?]; [lia|done]]. destruct (negb (nth 8 file 0 =? 1) && _); [done|].
  destruct (negb (_ || _)); [done|].
  destruct (derive _ _ _) as [d|e] eqn:Ed; simpl; [by case_match|]. intros [= ->].
  unfold derive in Ed. by destruct key as [|p]; [|destruct (argon2id _ p _)].
Qed.
End Envelope.

(** A cipher that encrypts anything: the text, and a tag of all it binds. *)
Section Demo.
Definition demo_key : VaultKey := Raw [7].
Definition demo_sealing : Sealing :=
  {| s_magic := MAGIC; s_salt := repeat 1 16; s_nonce := repeat 2 24; s_plain := [5; 6] |}.
Definition demo_header : list Z := MAGIC ++ [VERSION; KDF_RAW] ++ repeat 1 16 ++ repeat 2 24.
Definition demo_tag (key nonce msg aad : list Z) : Z := fold_left (fun tag byte => (tag * 31 + byte) mod 65536) (key ++ nonce ++ msg ++ aad) 0.

#[local] Instance demo_aead : Aead := {|
  argon2id := fun _ _ _ => Err "none";
  encrypt := fun key nonce msg aad => Some (msg ++ [demo_tag key nonce msg aad]);
  decrypt := fun key nonce ciphertext aad =>
    let msg := take (length ciphertext - 1) ciphertext in
    if bool_decide (ciphertext = msg ++ [demo_tag key nonce msg aad]) then Some msg else None;
|}.

#[local] Instance demo_laws : AeadLaws.
Proof.
  intros key nonce c aad msg. cbn. case_bool_decide as E; (split; [|intros [= <-]]); [intros [= <-]; by rewrite <- E| |done|].
  - rewrite length_app, Nat.add_sub. by rewrite take_app_length.
  - rewrite length_app, Nat.add_sub, take_app_length in E. done.
Qed.

Definition demo_file : list Z := demo_header ++ [5; 6; demo_tag [7] (repeat 2 24) [5; 6] demo_header].

Lemma sealed_opens_witness :
  unseal demo_file demo_key = Ok [5; 6] /\ unseal_with BACKUP_MAGIC demo_file demo_key = Err NotAVault.
Proof.
  destruct (sealed_opens MAGIC [5; 6] demo_key (repeat 1 16) (repeat 2 24) demo_file
    ltac:(by split_and!) ltac:(vm_compute; reflexivity)) as (H1 & H2 & _).
  split; [exact H1|apply H2; discriminate].
Defined.

Lemma demo_genuine : genuine demo_key [demo_sealing] demo_file.
Proof.
  intros derived aad msg [= <-] [->| ->]; [by vm_compute|]. intros E. exists demo_sealing. split; [by left|].
  transitivity (Some ([7], repeat 2 24, demo_header, [5; 6])); [by vm_compute|]. vm_compute in E. injection E as <-. by vm_compute.
Qed.

(** The file opens; with its version taken back to 1 it does not. *)
Definition downgraded : list Z := MAGIC ++ [1; KDF_RAW] ++ drop 10 demo_file.

Lemma only_sealed_opens_witness :
  (unseal demo_file demo_key = Ok [5; 6]
   <-> exists s, In s [demo_sealing] /\ s_magic s = MAGIC /\ s_plain s = [5; 6] /\ seal_with MAGIC [5; 6] demo_key (s_salt s) (s_nonce s) = Ok demo_file)
  /\ unseal demo_file demo_key = Ok [5; 6] /\ unseal downgraded demo_key = Err WrongKeyOrCorrupted.
Proof.
  split; [|split; vm_compute; reflexivity]. apply (only_sealed_opens demo_key [demo_sealing] MAGIC demo_file [5; 6]).
  - exact demo_genuine.
  - constructor; [by split_and!|constructor].
Defined.
End Demo.
