(* ===== verification/VaultFile.v ===== *)
(** [store/mod.rs], the vault on disk: the save that writes beside the
    vault and swaps, the temporary files, the lock, the open. A disk is
    its files, each with what it holds and whether that was flushed, and
    the names of the vault's directory, with those a power loss may still
    bring back; what a call of the system answers is an argument. *)
From S2P Require Import Prelude Utf8 Text Errors Lock Store Cipher.
From Stdlib Require Import Ascii.

(** ** The disk *)

Record IoError := { permission_denied : bool; raw_os_error : option Z; io_words : string }.

Record Inode := { text : list Z; flushed : bool }.

(** The files by their number, the names of the directory, and the states
    of it not flushed over yet. *)
Record Disk := { inodes : list Inode; dir : gmap string nat; older : list (gmap string nat) }.

(** A call on the disk: the states it goes through, the one it ends in,
    and its result. *)
Definition Io (A : Type) : Type := Disk -> list Disk * Disk * result A IoError.

Definition io_bind {A B} (m : Io A) (k : A -> Io B) : Io B := fun d =>
  let '(s1, d1, r) := m d in
  match r with
  | Ok a => let '(s2, d2, r) := k a d1 in (s1 ++ s2, d2, r)
  | Err e => (s1, d1, Err e)
  end.

Notation "'let*' x := m 'in' k" := (io_bind m (fun x => k))
  (at level 10, x pattern, m at level 100, k at level 200) : gerfaut_scope.

Definition set_dir (d : Disk) (names : gmap string nat) : Disk :=
  {| inodes := inodes d; dir := names; older := dir d :: older d |}.

Definition set_inode (d : Disk) (i : nat) (file : Inode) : Disk :=
  {| inodes := <[i := file]> (inodes d); dir := dir d; older := older d |}.

Definition file_exists : IoError :=
  {| permission_denied := false; raw_os_error := Some 17; io_words := "File exists" |}.

(** [OpenOptions::create_new], with the handle it opens. *)
Definition create_new (answer : option IoError) (name : string) : Io nat := fun d =>
  match answer with
  | Some e => ([], d, Err e)
  | None =>
    match dir d !! name with
    | Some _ => ([], d, Err file_exists)
    | None =>
      let i := length (inodes d) in
      let d' := {| inodes := inodes d ++ [{| text := []; flushed := false |}];
                   dir := <[name := i]> (dir d); older := dir d :: older d |} in
      ([d'], d', Ok i)
    end
  end.

(** [write_all] on a new file; one that fails leaves some of the bytes. *)
Definition write_all (answer : option (nat * IoError)) (i : nat) (bytes : list Z) : Io unit := fun d =>
  match answer with
  | None => let d' := set_inode d i {| text := bytes; flushed := false |} in ([d'], d', Ok tt)
  | Some (n, e) => let d' := set_inode d i {| text := take n bytes; flushed := false |} in ([d'], d', Err e)
  end.

Definition sync_all (answer : option IoError) (i : nat) : Io unit := fun d =>
  match answer with
  | Some e => ([], d, Err e)
  | None =>
    match inodes d !! i with
    | Some file => let d' := set_inode d i {| text := text file; flushed := true |} in ([d'], d', Ok tt)
    | None => ([], d, Ok tt)
    end
  end.

Definition rename (answer : option IoError) (from to : string) : Io unit := fun d =>
  match answer, dir d !! from with
  | Some e, _ => ([], d, Err e)
  | None, None => ([], d, Ok tt)
  | None, Some i => let d' := set_dir d (<[to := i]> (delete from (dir d))) in ([d'], d', Ok tt)
  end.

Definition remove_file (answer : option IoError) (name : string) : Io unit := fun d =>
  match answer with
  | Some e => ([], d, Err e)
  | None => let d' := set_dir d (delete name (dir d)) in ([d'], d', Ok tt)
  end.

(** The directory flushed, when [works]. *)
Definition sync_dir (works : bool) : Io unit := fun d =>
  if works then let d' := {| inodes := inodes d; dir := dir d; older := [] |} in ([d'], d', Ok tt)
  else ([], d, Ok tt).

(** A power loss: the directory is one of its states not flushed over,
    and a file not flushed holds anything. *)
Definition crash (d d' : Disk) : Prop :=
  (dir d' = dir d \/ dir d' ∈ older d) /\ older d' = []
  /\ Forall2 (fun a b => flushed a = true -> a = b) (inodes d) (inodes d').

Definition contents (d : Disk) (name : string) : option (list Z) :=
  match dir d !! name with Some i => text <$> inodes d !! i | None => None end.

(** ** A save *)

(** What the system answers during one save; on Unix the rename is tried
    once. *)
Record Outcomes := {
  windows : bool;
  o_create : option IoError;
  o_write : option (nat * IoError);
  o_sync : option IoError;
  o_renames : list (option IoError);
  o_remove : option IoError;
  o_dir : bool;
}.

Definition held_by_another (error : IoError) : bool :=
  permission_denied error
  || match raw_os_error error with Some code => (code =? 32) || (code =? 33) | None => false end.

(** [n] more waits, [delay] the next one: the time waited, in
    milliseconds, and what the last try answers. *)
Fixpoint rename_waiting (n : nat) (delay : Z) (answers : list (option IoError)) : Z * option IoError :=
  let answer := List.hd None answers in
  match n, answer with
  | S n, Some e =>
    if held_by_another e then
      let '(waited, last) := rename_waiting n (delay * 2) (List.tl answers) in (delay + waited, last)
    else (0, Some e)
  | _, _ => (0, answer)
  end.

Definition rename_over (o : Outcomes) (from to : string) : Io unit :=
  rename (if windows o then (rename_waiting 5 10 (o_renames o)).2 else List.hd None (o_renames o)) from to.

Definition write_then_swap (o : Outcomes) (tmp : string) (bytes : list Z) (target : string) : Io unit :=
  let* file := create_new (o_create o) tmp in
  let* _ := write_all (o_write o) file bytes in
  let* _ := sync_all (o_sync o) file in
  rename_over o tmp target.

(** What [save] does of the sealed bytes. *)
Definition write_sealed (o : Outcomes) (tmp : string) (sealed : list Z) (target : string) : Io unit := fun d =>
  let '(s1, d1, written) := write_then_swap o tmp sealed target d in
  match written with
  | Err e => let '(s2, d2, _) := remove_file (o_remove o) tmp d1 in (s1 ++ s2, d2, Err e)
  | Ok _ => let '(s2, d2, _) := sync_dir (o_dir o) d1 in (s1 ++ s2, d2, Ok tt)
  end.

Definition TEMP_SUFFIX : string := ".tmp".

(** [random]: the bytes of the number drawn. *)
Definition temporary_path (file_name : string) (random : list Z) : string :=
  file_name +:+ "." +:+ hex random +:+ TEMP_SUFFIX.

(** The last point of a name, and what comes before it. *)
Fixpoint before_last_dot (s : string) : option string :=
  match s with
  | EmptyString => None
  | String c s =>
    match before_last_dot s with
    | Some stem => Some (String c stem)
    | None => if (c =? ".")%char then Some "" else None
    end
  end.

(** [Path::with_extension]. *)
Definition with_extension (name extension : string) : string :=
  let stem := match before_last_dot name with Some stem => if bool_decide (stem = "") then name else stem | None => name end in
  stem +:+ "." +:+ extension.

(** Whether the file [name] is one an unfinished save left; [in_parent]
    when the vault's path has a directory. *)
Definition stale (in_parent : bool) (file_name name : string) : bool :=
  (starts_with (file_name +:+ ".") name && ends_with TEMP_SUFFIX name)
  || (in_parent && bool_decide (name = with_extension file_name "tmp")).

Definition lock_path (file_name : string) : string := file_name +:+ ".lock".

(** [listed]: the entries of the directory, each with what its removal
    answers; empty when it cannot be listed. *)
Fixpoint remove_stale_temporaries (in_parent : bool) (file_name : string) (listed : list (string * option IoError))
  : Io unit := fun d =>
  match listed with
  | [] => ([], d, Ok tt)
  | (name, answer) :: listed =>
    if stale in_parent file_name name then
      let '(s1, d1, _) := remove_file answer name d in
      let '(s2, d2, r) := remove_stale_temporaries in_parent file_name listed d1 in (s1 ++ s2, d2, r)
    else remove_stale_temporaries in_parent file_name listed d
  end.

Inductive TryLock := Locked | WouldBlock | CannotLock.

(** Whether the vault is locked; [opened]: the lock file could be. *)
Definition acquire_lock (opened : bool) (tried : TryLock) : result bool VaultError :=
  if negb opened then Ok false
  else match tried with Locked => Ok true | WouldBlock => Err AlreadyOpen | CannotLock => Ok false end.

(** ** The vault *)

(** The JSON of a payload: its text, or the words of an error; its head
    and its whole read back. And the readers [Store] takes. *)
Class Json (W : Type) := {
  to_json : VaultPayload W -> result (list Z) string;
  head_of_json : list Z -> result Head string;
  of_json : list Z -> result (VaultPayload W) string;
  read_entries : string -> list (option RecentBroadcast);
  holds_together : RecentBroadcast -> bool;
}.

Definition head_as_written {W} (p : VaultPayload W) : Head :=
  {| h_version := version p; h_premium := false; h_unrecorded := false |}.

(** What is written reads back: the payload, its version, and settings
    with their preferences and nothing of the retired account. *)
Class JsonLaws W `{Json W} : Prop :=
  json_reads : forall (p : VaultPayload W) text, to_json p = Ok text ->
    head_of_json text = Ok (head_as_written p) /\ of_json text = Ok p.

Record Vault := { file_name : string; in_parent : bool; v_key : VaultKey; android : bool }.

Section Vault.
Context {W : Type} `{Json W} `{Aead}.
Implicit Types (v : Vault) (p : VaultPayload W).

(** [read], of the file's bytes, or of the error of reading it. *)
Definition vault_read v (file : result (list Z) IoError) : result (VaultPayload W * bool) VaultError :=
  match file with
  | Err e => Err (Errors.Io (io_words e))
  | Ok file =>
    read read_entries holds_together (android v)
      (let? plaintext := unseal file (v_key v) in Ok (head_of_json plaintext, of_json plaintext))
  end.

(** The bytes drawn for one save. *)
Record Draw := { d_salt : list Z; d_nonce : list Z; d_random : list Z }.

Definition sealed v (draw : Draw) p : result (list Z) VaultError :=
  match to_json p with
  | Err e => Err (CorruptedPayload e)
  | Ok plaintext => seal plaintext (v_key v) (d_salt draw) (d_nonce draw)
  end.

Definition save v (o : Outcomes) (draw : Draw) p (d : Disk) : list Disk * Disk * result unit VaultError :=
  match sealed v draw p with
  | Err e => ([], d, Err e)
  | Ok bytes =>
    let '(s, d, r) := write_sealed o (temporary_path (file_name v) (d_random draw)) bytes (file_name v) d in
    (s, d, match r with Ok _ => Ok tt | Err e => Err (Errors.Io (io_words e)) end)
  end.

(** What the system answers during one open. *)
Record Opening := {
  op_opened : bool;
  op_tried : TryLock;
  op_listed : list (string * option IoError);
  op_exists : option IoError;
  op_read : option IoError;
  op_save : Outcomes;
  op_draw : Draw;
}.

(** [open_or_create]: the payload, and whether the vault is locked. *)
Definition open_or_create v (op : Opening) (d : Disk)
  : list Disk * Disk * result (VaultPayload W * bool) VaultError :=
  match acquire_lock (op_opened op) (op_tried op) with
  | Err e => ([], d, Err e)
  | Ok lock =>
    let '(s1, d1, _) :=
      if lock then remove_stale_temporaries (in_parent v) (file_name v) (op_listed op) d else ([], d, Ok tt) in
    match op_exists op, contents d1 (file_name v) with
    | Some e, _ => (s1, d1, Err (Errors.Io (io_words e)))
    | None, Some file =>
      match vault_read v (match op_read op with Some e => Err e | None => Ok file end) with
      | Err e => (s1, d1, Err e)
      | Ok (payload, retired) =>
        if retired && lock then
          let '(s2, d2, _) := save v (op_save op) (op_draw op) payload d1 in (s1 ++ s2, d2, Ok (payload, lock))
        else (s1, d1, Ok (payload, lock))
      end
    | None, None =>
      let payload := default_payload in
      let '(s2, d2, r) := save v (op_save op) (op_draw op) payload d1 in
      (s1 ++ s2, d2, match r with Ok _ => Ok (payload, lock) | Err e => Err e end)
    end
  end.
End Vault.

(** ** Names *)

Lemma before_last_dot_shape s stem : before_last_dot s = Some stem -> exists ext, s = stem +:+ "." +:+ ext.
Proof.
  revert stem. induction s as [|c s IH]; simpl; [done|]. intros stem.
  destruct (before_last_dot s) as [st|].
  - intros [= <-]. destruct (IH st eq_refl) as [ext ->]. by exists ext.
  - destruct (Ascii.eqb_spec c "."); [|done]. intros [= <-]. subst. by exists s.
Qed.

Lemma temporary_path_other name random : temporary_path name random <> name.
Proof. intros E. apply (f_equal String.length) in E. revert E. unfold temporary_path. rewrite !str_length_app. simpl. lia. Qed.

Lemma starts_with_length prefix s : starts_with prefix s = true -> (String.length prefix <= String.length s)%nat.
Proof.
  unfold starts_with. destruct (strip_prefix prefix s) as [rest|] eqn:E; [|done]. intros _. revert s E.
  induction prefix as [|a prefix IH]; intros [|b s]; simpl; try done; try lia.
  destruct (_ =? _)%char; [|done]. intros E. apply IH in E. lia.
Qed.

(** The name of the vault is never taken for one of its temporary files,
    unless its own extension is theirs. *)
Lemma vault_not_stale in_parent name :
  stale in_parent name name = true <-> in_parent = true /\ name = with_extension name "tmp".
Proof.
  unfold stale. replace (starts_with (name +:+ ".") name) with false.
  - simpl. rewrite andb_true_iff, bool_decide_eq_true. done.
  - symmetry. apply not_true_is_false. intros Hs. apply starts_with_length in Hs. revert Hs. rewrite str_length_app. simpl. lia.
Qed.

(** ** What a disk holds of the vault *)

Section Kept.
Context {W : Type} `{HJ : Json W} `{HA : Aead}.
Implicit Types (v : Vault) (p : VaultPayload W) (d : Disk).

Definition reads_as v p (file : list Z) : Prop :=
  exists plaintext, unseal file (v_key v) = Ok plaintext
    /\ head_of_json plaintext = Ok (head_as_written p) /\ of_json plaintext = Ok p.

(** Whatever directory a power loss leaves, the vault's name is there, for
    a file flushed that reads as one of [possible]. *)
Definition kept v (possible : list (VaultPayload W)) d : Prop :=
  forall names, names = dir d \/ names ∈ older d ->
    exists i file p, names !! file_name v = Some i /\ inodes d !! i = Some file /\ flushed file = true
      /\ p ∈ possible /\ reads_as v p (text file).

(** A file no directory names the vault. *)
Definition aside v (i : nat) d : Prop :=
  forall names, names = dir d \/ names ∈ older d -> names !! file_name v <> Some i.

Lemma kept_more v possible more d : kept v possible d -> possible ⊆ more -> kept v more d.
Proof. intros Hk Hs names Hn. destruct (Hk names Hn) as (i & f & p & ? & ? & ? & ? & ?). exists i, f, p. split_and!; auto. Qed.

Lemma kept_dir v possible d names : kept v possible d -> names !! file_name v = dir d !! file_name v ->
  kept v possible (set_dir d names).
Proof.
  intros Hk E ns [->|Hns]; simpl in *.
  - rewrite E. apply Hk. by left.
  - apply Hk. apply list_elem_of_In in Hns as [<-|Hns]; [by left|right; by apply list_elem_of_In].
Qed.

Lemma kept_inode v possible d i file : kept v possible d -> aside v i d -> kept v possible (set_inode d i file).
Proof.
  intros Hk Ha ns Hns. destruct (Hk ns Hns) as (j & f & p & Hj & Hf & ?). exists j, f, p. split; [done|]. split; [|done].
  simpl. rewrite list_lookup_insert_ne; [done|]. intros ->. by destruct (Ha ns Hns).
Qed.

Lemma kept_swap v possible p d i file names : kept v possible d -> inodes d !! i = Some file ->
  flushed file = true -> reads_as v p (text file) -> names !! file_name v = Some i ->
  kept v (p :: possible) (set_dir d names).
Proof.
  intros Hk Hi Hf Hr Hn ns [->|Hns]; simpl in *.
  - exists i, file, p. split_and!; try done. left.
  - destruct (Hk ns) as (j & f & q & ? & ? & ? & ? & ?).
    { apply list_elem_of_In in Hns as [<-|Hns]; [by left|right; by apply list_elem_of_In]. }
    exists j, f, q. split_and!; try done. by right.
Qed.

Lemma kept_synced v possible d : kept v possible d ->
  kept v possible {| inodes := inodes d; dir := dir d; older := [] |}.
Proof. intros Hk ns [->|Hns]; [|by apply not_elem_of_nil in Hns]. apply Hk. by left. Qed.

Lemma kept_crash v possible d d' : kept v possible d -> crash d d' -> kept v possible d'.
Proof.
  intros Hk (Hd & Ho & Hi) ns [->|Hns]; [|rewrite Ho in Hns; by apply not_elem_of_nil in Hns].
  destruct (Hk (dir d') Hd) as (i & f & p & Hn & Hf & Hfl & Hp & Hr).
  destruct (Forall2_lookup_l _ _ _ _ _ Hi Hf) as (f' & Hf' & E). rewrite <- E in Hf' by done. by exists i, f, p.
Qed.

(** What a kept disk reads. *)
Lemma kept_reads v possible d : kept v possible d ->
  exists file p, contents d (file_name v) = Some file /\ p ∈ possible /\ reads_as v p file.
Proof.
  intros Hk. destruct (Hk (dir d)) as (i & f & p & Hn & Hf & _ & Hp & Hr); [by left|].
  exists (text f), p. unfold contents. by rewrite Hn, Hf.
Qed.

(** A call that passes through states that keep [more], ends in one where
    [Q] when it works, and keeps [possible] when it fails. *)
Definition keeps {A} v possible more (m : Io A) d (Q : A -> Disk -> Prop) : Prop :=
  let '(s, d', r) := m d in
  Forall (kept v more) s /\ match r with Ok a => Q a d' | Err _ => kept v possible d' end.

Lemma keeps_bind {A B} v possible more (m : Io A) (k : A -> Io B) d P Q :
  keeps v possible more m d P -> (forall a d', P a d' -> keeps v possible more (k a) d' Q) ->
  keeps v possible more (io_bind m k) d Q.
Proof.
  unfold keeps, io_bind. destruct (m d) as [[s1 d1] [a|e]]; [|done]. intros (H1 & H2) Hk.
  specialize (Hk a d1 H2). destruct (k a d1) as [[s2 d2] r]. destruct Hk as (H3 & H4).
  split; [|done]. by apply Forall_app.
Qed.

(** The new file [i], named [tmp] and not the vault. *)
Definition new_file v possible tmp (i : nat) d : Prop :=
  kept v possible d /\ aside v i d /\ dir d !! tmp = Some i /\ exists file, inodes d !! i = Some file.

Lemma create_new_keeps v possible more answer tmp d :
  tmp <> file_name v -> possible ⊆ more -> kept v possible d ->
  keeps v possible more (create_new answer tmp) d (new_file v possible tmp).
Proof.
  intros Ht Hs Hk. unfold keeps, create_new. destruct answer; [done|]. destruct (dir d !! tmp); [done|].
  set (i := length (inodes d)). set (d' := {| inodes := _ |}).
  assert (Hnew : kept v possible d' /\ aside v i d').
  { assert (Hboth : forall names, names = dir d' \/ names ∈ older d' ->
      exists j file p, names !! file_name v = Some j /\ inodes d !! j = Some file /\ flushed file = true
        /\ p ∈ possible /\ reads_as v p (text file)).
    { intros names [->|Hn]; simpl.
      - rewrite lookup_insert_ne by done. apply Hk. by left.
      - simpl in Hn. apply Hk. apply list_elem_of_In in Hn as [<-|Hn]; [by left|right; by apply list_elem_of_In]. }
    split; intros names Hn; destruct (Hboth names Hn) as (j & f & p & Hj & Hf & ?).
    - exists j, f, p. split; [done|]. split; [|done]. simpl. by apply lookup_app_l_Some.
    - rewrite Hj. intros [= ->]. apply lookup_lt_Some in Hf. unfold i in Hf. lia. }
  destruct Hnew as [Hk' Ha]. split; [constructor; [by eapply kept_more|constructor]|].
  split; [done|]. split; [done|]. split; [apply lookup_insert_eq|].
  eexists. simpl. rewrite lookup_app_r by (unfold i; lia). by rewrite Nat.sub_diag.
Qed.

Lemma new_file_set v possible tmp i d file :
  new_file v possible tmp i d -> new_file v possible tmp i (set_inode d i file) /\ inodes (set_inode d i file) !! i = Some file.
Proof.
  intros (Hk & Ha & Ht & f & Hf).
  assert (Hi : inodes (set_inode d i file) !! i = Some file).
  { simpl. apply list_lookup_insert_eq. by apply lookup_lt_Some in Hf. }
  split; [|done]. split; [by apply kept_inode|]. split; [done|]. split; [done|]. by eexists.
Qed.

Lemma write_all_keeps v possible more answer tmp i bytes d :
  possible ⊆ more -> new_file v possible tmp i d ->
  keeps v possible more (write_all answer i bytes) d
    (fun _ d' => new_file v possible tmp i d' /\ exists b, inodes d' !! i = Some {| text := bytes; flushed := b |}).
Proof.
  intros Hs Hn. unfold keeps, write_all. destruct answer as [[n e]|].
  - destruct (new_file_set _ _ _ _ _ {| text := take n bytes; flushed := false |} Hn) as [(Hk & _) _].
    split; [constructor; [by eapply kept_more|constructor]|done].
  - destruct (new_file_set _ _ _ _ _ {| text := bytes; flushed := false |} Hn) as [Hn' Hi].
    split; [constructor; [eapply kept_more; [apply Hn'|done]|constructor]|]. split; [done|]. by eexists.
Qed.

Lemma sync_all_keeps v possible more answer tmp i bytes b d :
  possible ⊆ more -> new_file v possible tmp i d -> inodes d !! i = Some {| text := bytes; flushed := b |} ->
  keeps v possible more (sync_all answer i) d
    (fun _ d' => new_file v possible tmp i d' /\ inodes d' !! i = Some {| text := bytes; flushed := true |}).
Proof.
  intros Hs Hn Hi. unfold keeps, sync_all. destruct answer as [e|]; [split; [done|apply Hn]|]. rewrite Hi.
  destruct (new_file_set _ _ _ _ _ {| text := bytes; flushed := true |} Hn) as [Hn' Hi'].
  split; [constructor; [eapply kept_more; [apply Hn'|done]|constructor]|]. done.
Qed.

(** The vault is [p] now, whatever was before. *)
Definition swapped v possible p d : Prop :=
  kept v (p :: possible) d
  /\ exists i file, dir d !! file_name v = Some i /\ inodes d !! i = Some file /\ flushed file = true
      /\ reads_as v p (text file).

Lemma write_then_swap_keeps v possible o tmp bytes p d :
  tmp <> file_name v -> kept v possible d -> reads_as v p bytes ->
  keeps v possible (p :: possible) (write_then_swap o tmp bytes (file_name v)) d (fun _ => swapped v possible p).
Proof.
  intros Ht Hk Hr. assert (Hs : possible ⊆ p :: possible) by (intros x Hx; by right).
  eapply keeps_bind; [by apply create_new_keeps|]. intros i d1 Hn.
  eapply keeps_bind; [by eapply write_all_keeps|]. intros [] d2 (Hn2 & b & Hb).
  eapply keeps_bind; [by eapply sync_all_keeps|]. intros [] d3 ((Hk3 & Ha & Htmp & _) & Hi).
  unfold keeps, rename_over, rename. set (answer := if windows o then _ else _). clearbody answer.
  destruct answer as [e|]; [done|]. rewrite Htmp. set (d4 := set_dir _ _).
  assert (Hd4 : kept v (p :: possible) d4).
  { eapply kept_swap; [done..|]. apply lookup_insert_eq. }
  split; [by repeat constructor|]. split; [done|]. exists i. eexists. split; [apply lookup_insert_eq|]. done.
Qed.

(** The ledger after a save: what the disk may hold. *)
Definition after_save (o : Outcomes) p (r : result unit VaultError) (possible : list (VaultPayload W)) :=
  match r with Ok _ => if o_dir o then [p] else p :: possible | Err _ => possible end.

Definition drawn (draw : Draw) : Prop :=
  length (d_salt draw) = SALT_LEN /\ length (d_nonce draw) = NONCE_LEN.

Context `{HJL : !JsonLaws W} `{HAL : !AeadLaws}.

Lemma sealed_reads v draw p bytes : drawn draw -> sealed v draw p = Ok bytes -> reads_as v p bytes.
Proof.
  intros [Hsalt Hnonce]. unfold sealed. destruct (to_json p) as [json|] eqn:Ej; [|done]. intros Hseal.
  exists json. split; [|by apply json_reads]. unfold unseal.
  eapply (seal_unseal MAGIC json (v_key v) (d_salt draw) (d_nonce draw)); [by split_and!|done].
Qed.

Lemma save_keeps v possible o draw p d s d' r :
  drawn draw -> kept v possible d -> save v o draw p d = (s, d', r) ->
  Forall (kept v (p :: possible)) s /\ kept v (after_save o p r possible) d'.
Proof.
  intros Hd Hk. unfold save. destruct (sealed v draw p) as [bytes|e] eqn:Es; [|by intros [= <- <- <-]].
  apply sealed_reads in Es; [|done]. unfold write_sealed.
  pose proof (write_then_swap_keeps v possible o (temporary_path (file_name v) (d_random draw)) bytes p d
    (temporary_path_other _ _) Hk Es) as Hw.
  unfold keeps in Hw. destruct (write_then_swap _ _ _ _ d) as [[s1 d1] [[]|e]]; destruct Hw as [Hs1 Hw].
  - unfold sync_dir. destruct Hw as [Hk1 (i & f & Hn & Hi & Hf & Hr)]. unfold after_save.
    destruct (o_dir o) eqn:Eo; intros [= <- <- <-]; cbn [result_bind]; rewrite ?Eo.
    + split; [apply Forall_app; split; [done|]; constructor; [by apply kept_synced|constructor]|].
      intros ns [->|Hns]; [|by apply not_elem_of_nil in Hns]. exists i, f, p. split_and!; try done. left.
    + rewrite app_nil_r. done.
  - unfold remove_file. destruct (o_remove o) as [e'|]; intros [= <- <- <-]; simpl.
    + by rewrite app_nil_r.
    + assert (Hrm : kept v possible (set_dir d1 (delete (temporary_path (file_name v) (d_random draw)) (dir d1)))).
      { apply kept_dir; [done|]. apply lookup_delete_ne. apply temporary_path_other. }
      split; [|done]. apply Forall_app. split; [done|]. constructor; [|constructor]. eapply kept_more; [done|].
      intros x Hx. by right.
Qed.
End Kept.

(** ** Runs *)

Section Runs.
Context {W : Type} `{HJ : Json W} `{HA : Aead}.
Implicit Types (v : Vault) (p : VaultPayload W) (d : Disk).

(** A disk and what it may hold of the vault: saves and opens, each whole
    or ended by a power loss at any of the states it goes through, and
    power losses between them. *)
Inductive step v : Disk * list (VaultPayload W) -> Disk * list (VaultPayload W) -> Prop :=
| step_save d possible o draw p s d' r :
    drawn draw -> save v o draw p d = (s, d', r) -> step v (d, possible) (d', after_save o p r possible)
| step_save_lost d possible o draw p s d' r mid lost :
    drawn draw -> save v o draw p d = (s, d', r) -> mid ∈ d :: s -> crash mid lost ->
    step v (d, possible) (lost, p :: possible)
| step_open d possible op s d' p lock :
    drawn (op_draw op) -> open_or_create v op d = (s, d', Ok (p, lock)) -> step v (d, possible) (d', p :: possible)
| step_open_refused d possible op s d' e :
    drawn (op_draw op) -> open_or_create v op d = (s, d', Err e) -> step v (d, possible) (d', possible)
| step_open_lost d possible op s d' p lock mid lost :
    drawn (op_draw op) -> open_or_create v op d = (s, d', Ok (p, lock)) -> mid ∈ d :: s -> crash mid lost ->
    step v (d, possible) (lost, p :: possible)
| step_lost d possible lost : crash d lost -> step v (d, possible) (lost, possible).

(** What an open makes of a payload written. *)
Definition read_back v p : result (VaultPayload W * bool) VaultError :=
  read read_entries holds_together (android v) (Ok (Ok (head_as_written p), Ok p)).

(** Any vault but one whose own extension is [tmp]. *)
Definition own_name v : Prop := stale (in_parent v) (file_name v) (file_name v) = false.

Lemma reads_as_read v p file : reads_as v p file -> vault_read v (Ok file) = read_back v p.
Proof. intros (json & Hu & Hh & Hj). unfold vault_read, read_back. rewrite Hu. simpl. by rewrite Hh, Hj. Qed.

Lemma remove_stale_keeps v possible listed d s d' r :
  own_name v -> kept v possible d ->
  remove_stale_temporaries (in_parent v) (file_name v) listed d = (s, d', r) ->
  Forall (kept v possible) s /\ kept v possible d'.
Proof.
  intros Hown. revert d s d' r. induction listed as [|[name answer] listed IH]; intros d s d' r Hk; simpl.
  - by intros [= <- <- <-].
  - destruct (stale _ _ name) eqn:Es; [|by apply IH]. unfold remove_file. destruct answer as [e|].
    + destruct (remove_stale_temporaries _ _ _ d) as [[s2 d2] r2] eqn:E. intros [= <- <- <-]. by eapply IH.
    + set (d1 := set_dir _ _). destruct (remove_stale_temporaries _ _ _ d1) as [[s2 d2] r2] eqn:E. intros [= <- <- <-].
      assert (Hd1 : kept v possible d1).
      { apply kept_dir; [done|]. apply lookup_delete_ne. intros ->. unfold own_name in Hown. congruence. }
      destruct (IH _ _ _ _ Hd1 E). split; [by constructor|done].
Qed.

Context `{HJL : !JsonLaws W} `{HAL : !AeadLaws}.

Lemma open_keeps v possible op d s d' r :
  own_name v -> drawn (op_draw op) -> kept v possible d -> open_or_create v op d = (s, d', r) ->
  match r with
  | Ok (p, _) => Forall (kept v (p :: possible)) s /\ kept v (p :: possible) d'
  | Err _ => Forall (kept v possible) s /\ kept v possible d'
  end.
Proof.
  intros Hown Hdr Hk. unfold open_or_create. destruct (acquire_lock _ _) as [lock|e]; [|by intros [= <- <- <-]].
  destruct (if lock then _ else _) as [[s1 d1] r1] eqn:E1.
  assert (H1 : Forall (kept v possible) s1 /\ kept v possible d1).
  { destruct lock; [by eapply remove_stale_keeps|]. by injection E1 as <- <- <-. }
  clear E1. destruct H1 as [Hs1 Hk1]. destruct (op_exists op) as [e|]; [by intros [= <- <- <-]|].
  destruct (kept_reads _ _ _ Hk1) as (file & q & -> & _).
  destruct (vault_read v _) as [[p retired]|e]; [|by intros [= <- <- <-]].
  assert (Hmore : forall l, Forall (kept v possible) l -> Forall (kept v (p :: possible)) l).
  { intros l Hl. eapply list.Forall_impl; [exact Hl|]. intros x Hx. eapply kept_more; [exact Hx|]. intros y Hy. by right. }
  destruct (retired && lock).
  - destruct (save v _ _ p d1) as [[s2 d2] r2] eqn:Es. intros [= <- <- <-].
    destruct (save_keeps _ _ _ _ _ _ _ _ _ Hdr Hk1 Es) as [Hs2 Hk2].
    split; [apply Forall_app; auto|]. eapply kept_more; [exact Hk2|]. unfold after_save.
    destruct r2; [destruct (o_dir _)|]; intros y Hy; [apply list_elem_of_singleton in Hy as ->; left|done|by right].
  - intros [= <- <- <-]. split; [auto|]. eapply kept_more; [done|]. intros y Hy. by right.
Qed.

Lemma step_kept v st st' : own_name v -> step v st st' -> kept v st.2 st.1 -> kept v st'.2 st'.1.
Proof.
  intros Hown Hs Hk.
  assert (Hmid : forall possible d s mid lost, mid ∈ d :: s -> crash mid lost -> kept v possible d ->
    Forall (kept v possible) s -> kept v possible lost).
  { intros possible d s mid lost Hm Hc Hd Hf. eapply kept_crash; [|exact Hc].
    apply list_elem_of_In in Hm as [<-|Hm]; [done|]. by eapply (proj1 (List.Forall_forall _ _) Hf). }
  assert (Hcons : forall d possible p, kept v possible d -> kept v (p :: possible) d).
  { intros d possible p Hd. eapply kept_more; [done|]. intros y Hy. by right. }
  destruct Hs as [d possible o draw p s d' r Hd E|d possible o draw p s d' r mid lost Hd E Hm Hc|d possible op s d' p lock Hd E|d possible op s d' e Hd E|d possible op s d' p lock mid lost Hd E Hm Hc|d possible lost Hc];
    simpl in *.
  - by eapply save_keeps.
  - eapply Hmid; [done..|by apply Hcons|]. by eapply save_keeps in E as [? _].
  - by eapply open_keeps in E as [_ ?].
  - by eapply open_keeps in E as [_ ?].
  - eapply Hmid; [done..|by apply Hcons|]. by eapply open_keeps in E as [? _].
  - by eapply kept_crash.
Qed.

Lemma steps_kept v st st' : own_name v -> rtc (step v) st st' -> kept v st.2 st.1 -> kept v st'.2 st'.1.
Proof. intros Hown Hr. induction Hr; [done|]. intros Hk. apply IHHr. by eapply step_kept. Qed.

(** A disk whose vault holds [p], flushed, and its directory too. *)
Definition settled_on v p d : Prop :=
  older d = [] /\ exists i file, dir d !! file_name v = Some i /\ inodes d !! i = Some file /\ flushed file = true
    /\ reads_as v p (text file).

Lemma settled_kept v p d : settled_on v p d -> kept v [p] d.
Proof.
  intros (Ho & i & f & ? & ? & ? & ?) ns [->|Hns]; [|rewrite Ho in Hns; by apply not_elem_of_nil in Hns].
  exists i, f, p. split_and!; try done. left.
Qed.

Lemma version_ok_reads v p : version p <= PAYLOAD_VERSION -> is_ok (read_back v p) = true.
Proof.
  intros Hv. unfold read_back, read. simpl. destruct (Z.gtb_spec (version p) PAYLOAD_VERSION); [lia|].
  by destruct (adopt_app_broadcasts _ _ _).
Qed.

(** C4: no crash loses the vault. However saves and opens follow one
    another, each failing at any call or cut by a power loss at any point,
    the vault is there and opens as a whole payload, the one before or
    one being saved, never a part of one; and a save that went through,
    the directory flushed, is what every later open reads, a power loss
    right after it included. *)
Theorem vault_survives v p0 d0 d possible :
  own_name v -> settled_on v p0 d0 -> rtc (step v) (d0, [p0]) (d, possible) ->
  (exists file p, contents d (file_name v) = Some file /\ p ∈ possible
    /\ vault_read v (Ok file) = read_back v p
    /\ (version p <= PAYLOAD_VERSION -> is_ok (vault_read v (Ok file)) = true)
    /\ (clean p -> vault_read v (Ok file) = Ok (p, false)))
  /\ (forall o draw p s d' lost, drawn draw -> save v o draw p d = (s, d', Ok tt) -> o_dir o = true ->
      crash d' lost ->
      exists file, contents lost (file_name v) = Some file /\ vault_read v (Ok file) = read_back v p).
Proof.
  intros Hown H0 Hr. assert (Hk : kept v possible d).
  { exact (steps_kept v _ _ Hown Hr (settled_kept _ _ _ H0)). }
  split.
  - destruct (kept_reads _ _ _ Hk) as (file & p & Hc & Hp & Hf). exists file, p.
    pose proof (reads_as_read _ _ _ Hf) as Hread. rewrite Hread. split_and!; try done.
    + apply version_ok_reads.
    + intros Hcl. unfold read_back. replace (head_as_written p) with
        {| h_version := PAYLOAD_VERSION; h_premium := false; h_unrecorded := false |}; [by apply read_fixpoint|].
      unfold head_as_written. f_equal. by destruct Hcl as [-> _].
  - intros o draw p s d' lost Hd Es Ho Hc. destruct (save_keeps _ _ _ _ _ _ _ _ _ Hd Hk Es) as [_ Hk'].
    unfold after_save in Hk'. rewrite Ho in Hk'. apply (kept_crash _ _ _ _ Hk') in Hc as Hl.
    destruct (kept_reads _ _ _ Hl) as (file & q & Hcon & Hq & Hf). exists file. split; [done|].
    apply list_elem_of_singleton in Hq as ->. by apply reads_as_read.
Qed.
End Runs.

(** The tries of a rename on Windows wait 310 ms at most. *)
Lemma rename_waits n delay answers : 0 <= delay ->
  0 <= (rename_waiting n delay answers).1 <= delay * (2 ^ Z.of_nat n - 1).
Proof.
  revert delay answers. induction n as [|n IH]; intros delay answers Hd; cbn [rename_waiting]; [simpl; lia|].
  assert (Hp : 2 ^ Z.of_nat (S n) = 2 * 2 ^ Z.of_nat n) by (rewrite Nat2Z.inj_succ, Z.pow_succ_r by lia; lia).
  assert (0 < 2 ^ Z.of_nat n) by (apply Z.pow_pos_nonneg; lia).
  destruct (List.hd None answers) as [e|]; [|simpl; nia]. destruct (held_by_another e); [|simpl; nia].
  specialize (IH (delay * 2) (List.tl answers) ltac:(lia)). destruct (rename_waiting n _ _) as [w last]. simpl in *. nia.
Qed.

(** A vault whose only payload is the default one, its save cut by a power
    loss once the new file is half written. *)
Section DemoVault.
#[local] Existing Instance demo_aead.
#[local] Existing Instance demo_laws.


#[local] Instance demo_json : Json unit := {|
  to_json := fun p => if bool_decide (p = default_payload) then Ok [5; 6] else Err "another";
  head_of_json := fun _ => Ok (head_as_written (default_payload (W := unit)));
  of_json := fun _ => Ok default_payload;
  read_entries := fun _ => [];
  holds_together := fun _ => true;
|}.

#[local] Instance demo_json_laws : JsonLaws unit.
Proof. intros p text. cbn. case_bool_decide; [|done]. by subst. Qed.

Definition demo_vault : Vault := {| file_name := "v"; in_parent := true; v_key := demo_key; android := false |}.
Definition demo_disk : Disk :=
  {| inodes := [{| text := demo_file; flushed := true |}]; dir := {[ "v" := 0%nat ]}; older := [] |}.
Definition demo_outcomes : Outcomes :=
  {| windows := false; o_create := None; o_write := Some (2%nat, file_exists); o_sync := None; o_renames := [];
     o_remove := None; o_dir := true |}.
Definition demo_draw : Draw := {| d_salt := repeat 1 16; d_nonce := repeat 2 24; d_random := [10; 11] |}.
Definition half_written : Disk :=
  {| inodes := inodes demo_disk ++ [{| text := [71; 70]; flushed := false |}];
     dir := {[ "v" := 0%nat; "v.0a0b.tmp" := 1%nat ]}; older := [dir demo_disk] |}.
Definition lost_disk : Disk :=
  {| inodes := inodes demo_disk ++ [{| text := []; flushed := false |}];
     dir := {[ "v" := 0%nat; "v.0a0b.tmp" := 1%nat ]}; older := [] |}.
Lemma demo_saved : half_written ∈ (save demo_vault demo_outcomes demo_draw default_payload demo_disk).1.1.
Proof. right. left. Qed.

Lemma demo_lost : crash half_written lost_disk.
Proof. split; [by left|]. split; [done|]. repeat constructor; done. Qed.

Lemma demo_settled : settled_on demo_vault (default_payload (W := unit)) demo_disk.
Proof.
  split; [done|]. eexists 0%nat, _. split; [vm_compute; reflexivity|]. split; [vm_compute; reflexivity|]. split; [done|].
  exists [5; 6]. split; [vm_compute; reflexivity|]. split; reflexivity.
Qed.

Lemma vault_survives_witness :
  exists file, contents lost_disk "v" = Some file
    /\ vault_read demo_vault (Ok file) = Ok (default_payload (W := unit), false).
Proof.
  destruct (vault_survives demo_vault default_payload demo_disk lost_disk [default_payload; default_payload]
    eq_refl demo_settled) as [(file & p & Hf & Hp & Hr & _ & Hc) _].
  - apply rtc_once. eapply (step_save_lost demo_vault demo_disk [default_payload] demo_outcomes demo_draw default_payload).
    + done.
    + vm_compute. reflexivity.
    + right. exact demo_saved.
    + exact demo_lost.
  - exists file. split; [exact Hf|]. assert (p = default_payload) as ->.
    { apply elem_of_cons in Hp as [->|Hp]; [done|]. by apply list_elem_of_singleton in Hp. }
    apply Hc. split; [done|]. split; [intros; apply lookup_empty|apply lookup_empty].
Defined.
End DemoVault.

(** A vault whose own extension is [tmp], in a directory, is taken for a
    temporary file, and its open starts over from an empty one. *)
Example tmp_vault_stale : stale true "gerfaut.tmp" "gerfaut.tmp" = true /\ stale false "gerfaut.tmp" "gerfaut.tmp" = false
  /\ stale true "gerfaut.vault" "gerfaut.vault" = false /\ stale true "gerfaut.vault" (lock_path "gerfaut.vault") = false
  /\ stale true "gerfaut.vault" (temporary_path "gerfaut.vault" [1; 2; 3; 4; 5; 6; 7; 8]) = true
  /\ stale true "gerfaut.vault" "gerfaut.tmp" = true.
Proof. vm_compute. tauto. Qed.
