(* ===== verification/Socks.v ===== *)
(** [chain/tor/socks.rs], the proxy of the embedded Tor, and its client,
    [through_socks] of [chain/net.rs]: each a program that reads exactly so
    many bytes, writes some, and connects. What the other side sends, and
    when it stops, is any list of bytes. *)
From S2P Require Import Prelude Utf8 Text Lock.
From Stdlib Require Import Ascii.
From Stdlib Require Strings.String.

Definition VERSION : Z := 5.
Definition NO_AUTH : Z := 0.
Definition USER_PASS : Z := 2.
Definition NO_ACCEPTABLE_METHODS : Z := 255.
Definition AUTH_VERSION : Z := 1.
Definition AUTH_SUCCEEDED : Z := 0.
Definition AUTH_FAILED : Z := 1.
Definition CMD_CONNECT : Z := 1.
Definition ATYP_IPV4 : Z := 1.
Definition ATYP_DOMAIN : Z := 3.
Definition ATYP_IPV6 : Z := 4.
Definition REPLY_SUCCEEDED : Z := 0.
Definition REPLY_GENERAL_FAILURE : Z := 1.
Definition REPLY_NETWORK_UNREACHABLE : Z := 3.
Definition REPLY_HOST_UNREACHABLE : Z := 4.
Definition REPLY_CONNECTION_REFUSED : Z := 5.
Definition REPLY_COMMAND_NOT_SUPPORTED : Z := 7.
Definition REPLY_ADDRESS_TYPE_NOT_SUPPORTED : Z := 8.

Record Credentials := { username : string; password : string }.

(** Why a connection failed: [io::ErrorKind], as far as it is told apart. *)
Inductive ErrorKind := ConnectionRefused | HostUnreachable | NotFound | NetworkUnreachable | OtherKind.

(** ** Addresses as text *)

Definition ipv4_text (octets : list Z) : string := join "." (List.map dec octets).

(** A segment in hexadecimal, without leading zeros. *)
Definition segment_text (n : Z) : string :=
  let d i := String (hex_digit ((n / 16 ^ i) mod 16)) "" in
  if n <? 16 then d 0
  else if n <? 256 then d 1 +:+ d 0
  else if n <? 4096 then d 2 +:+ d 1 +:+ d 0
  else d 3 +:+ d 2 +:+ d 1 +:+ d 0.

Fixpoint segments (octets : list Z) : list Z :=
  match octets with a :: b :: octets => (a * 256 + b) :: segments octets | _ => [] end.

(** The first longest run of zeros, its start and its length: [at_] is the
    index reached, [start] and [len] the run under way, then the best. *)
Fixpoint longest_zeros (l : list Z) (at_ start len : nat) (best : nat * nat) : nat * nat :=
  match l with
  | [] => best
  | n :: l =>
    if n =? 0 then
      let start := if (len =? 0)%nat then at_ else start in
      let len := S len in
      longest_zeros l (S at_) start len (if (best.2 <? len)%nat then (start, len) else best)
    else longest_zeros l (S at_) start 0 best
  end.

(** [Ipv6Addr::to_string]. *)
Definition ipv6_text (octets : list Z) : string :=
  let l := segments octets in
  if bool_decide (take 6 l = [0; 0; 0; 0; 0; 65535]) then "::ffff:" +:+ ipv4_text (drop 12 octets)
  else
    let '(start, len) := longest_zeros l 0 0 0 (0%nat, 0%nat) in
    let text l := join ":" (List.map segment_text l) in
    if (1 <? len)%nat then text (take start l) +:+ "::" +:+ text (drop (start + len) l) else text l.

Example ipv6_ex : ipv6_text (repeat 0 15 ++ [1]) = "::1"
  /\ ipv6_text ([32; 1; 13; 184] ++ repeat 0 8 ++ [0; 1; 171; 0]) = "2001:db8::1:ab00"
  /\ ipv6_text (repeat 0 10 ++ [255; 255; 10; 0; 0; 7]) = "::ffff:10.0.0.7" /\ ipv6_text (repeat 0 16) = "::".
Proof. vm_compute. auto. Qed.

(** ** Programs *)

Inductive Proto (A : Type) :=
| Done (r : result A string)
| ReadExact (n : nat) (k : list Z -> Proto A)
| WriteAll (bytes : list Z) (k : Proto A)
| Connect (host : string) (port : Z) (k : option ErrorKind -> Proto A).
Arguments Done {A} r.
Arguments ReadExact {A} n k.
Arguments WriteAll {A} bytes k.
Arguments Connect {A} host port k.

Fixpoint proto_bind {A B} (p : Proto A) (f : A -> Proto B) : Proto B :=
  match p with
  | Done (Ok a) => f a
  | Done (Err e) => Done (Err e)
  | ReadExact n k => ReadExact n (fun bytes => proto_bind (k bytes) f)
  | WriteAll bytes k => WriteAll bytes (proto_bind k f)
  | Connect host port k => Connect host port (fun r => proto_bind (k r) f)
  end.

Definition byte (bytes : list Z) (i : nat) : Z := nth i bytes 0.

(** ** The proxy *)

Definition accept (c : Credentials) (user pass : list Z) : bool :=
  let same_username := (length user =? String.length (username c))%nat && bool_decide (user = to_bytes (username c)) in
  let same_password := (length pass =? String.length (password c))%nat && bool_decide (pass = to_bytes (password c)) in
  same_username && same_password.

Definition reply_bytes (code : Z) : list Z := [VERSION; code; 0; ATYP_IPV4; 0; 0; 0; 0; 0; 0].

Definition reply {A} (code : Z) (k : Proto A) : Proto A :=
  WriteAll (reply_bytes code) k.

Definition refuse {A} (words : string) : Proto A := Done (Err words).

(** The target of a request, by its address type. *)
Definition read_host (address_type : Z) : Proto string :=
  if address_type =? ATYP_IPV4 then ReadExact 4 (fun octets => Done (Ok (ipv4_text octets)))
  else if address_type =? ATYP_DOMAIN then
    ReadExact 1 (fun len => ReadExact (Z.to_nat (byte len 0)) (fun name =>
      match from_utf8 name with
      | Some name => Done (Ok name)
      | None => reply REPLY_GENERAL_FAILURE (refuse "the host name is not text")
      end))
  else if address_type =? ATYP_IPV6 then ReadExact 16 (fun octets => Done (Ok (ipv6_text octets)))
  else reply REPLY_ADDRESS_TYPE_NOT_SUPPORTED (refuse "unknown address type").

(** The request, once the credentials are right. *)
Definition read_request : Proto (string * Z) :=
  ReadExact 4 (fun head =>
  if negb (byte head 0 =? VERSION) then reply REPLY_GENERAL_FAILURE (refuse "not a SOCKS5 request")
  else
    proto_bind (read_host (byte head 3)) (fun host =>
    ReadExact 2 (fun port =>
    let port := byte port 0 * 256 + byte port 1 in
    if negb (byte head 1 =? CMD_CONNECT)
    then reply REPLY_COMMAND_NOT_SUPPORTED (refuse "only CONNECT is supported")
    else Done (Ok (host, port))))).

Definition handshake (credentials : Credentials) : Proto (string * Z) :=
  ReadExact 2 (fun greeting =>
  if negb (byte greeting 0 =? VERSION) then refuse "not a SOCKS5 greeting"
  else
    ReadExact (Z.to_nat (byte greeting 1)) (fun methods =>
    if negb (bool_decide (USER_PASS ∈ methods))
    then WriteAll [VERSION; NO_ACCEPTABLE_METHODS] (refuse "the client offers no authentication this proxy accepts")
    else
      WriteAll [VERSION; USER_PASS] (
      ReadExact 2 (fun head =>
      if negb (byte head 0 =? AUTH_VERSION)
      then WriteAll [AUTH_VERSION; AUTH_FAILED] (refuse "not a username/password request")
      else
        ReadExact (Z.to_nat (byte head 1)) (fun username =>
        ReadExact 1 (fun password_len =>
        ReadExact (Z.to_nat (byte password_len 0)) (fun password =>
        if negb (accept credentials username password)
        then WriteAll [AUTH_VERSION; AUTH_FAILED] (refuse "wrong proxy credentials")
        else WriteAll [AUTH_VERSION; AUTH_SUCCEEDED] read_request))))))).

Definition reply_code (error : ErrorKind) : Z :=
  match error with
  | ConnectionRefused => REPLY_CONNECTION_REFUSED
  | HostUnreachable | NotFound => REPLY_HOST_UNREACHABLE
  | NetworkUnreachable => REPLY_NETWORK_UNREACHABLE
  | OtherKind => REPLY_GENERAL_FAILURE
  end.

(** The upstream connection and its reply. *)
Definition open_upstream (target : string * Z) : Proto unit :=
  Connect target.1 target.2 (fun failed =>
  match failed with
  | Some error => reply (reply_code error) (refuse "upstream")
  | None => reply REPLY_SUCCEEDED (Done (Ok tt))
  end).

(** Up to the reply: then bytes go both ways. A handshake out of time is
    one whose client stopped there. *)
Definition session (credentials : Credentials) : Proto unit := proto_bind (handshake credentials) open_upstream.

(** ** The client *)

Definition split_proxy (proxy : string) : option (string * string) * string :=
  match rsplit_once "@" proxy with
  | Some (userinfo, address) =>
    match split_once ":" userinfo with
    | Some (username, password) => (Some (username, password), address)
    | None => (Some (userinfo, ""), address)
    end
  | None => (None, proxy)
  end.

(** [TorRoute::proxy]. *)
Definition proxy (socks : string) (credentials : option Credentials) : string :=
  match credentials with
  | Some c => username c +:+ ":" +:+ password c +:+ "@" +:+ socks
  | None => socks
  end.

Definition fail (what : string) : string := "could not connect through Tor: " +:+ what.

Definition of_len (s : string) : Z := Z.of_nat (String.length s).

(** What follows once the proxy lets the client ask. *)
Definition ask (host : string) (port : Z) : Proto unit :=
  WriteAll ([VERSION; CMD_CONNECT; 0; ATYP_DOMAIN; of_len host] ++ to_bytes host ++ [port / 256; port mod 256]) (
  ReadExact 4 (fun reply =>
  if negb (byte reply 0 =? VERSION) then Done (Err (fail "the proxy does not speak SOCKS5"))
  else if negb (byte reply 1 =? 0) then
    Done (Err (fail (
      if byte reply 1 =? 3 then "network unreachable"
      else if byte reply 1 =? 4 then "host unreachable"
      else if byte reply 1 =? 5 then "connection refused"
      else if byte reply 1 =? 6 then "the circuit timed out"
      else "the proxy could not reach the host")))
  else if byte reply 3 =? 1 then ReadExact (4 + 2) (fun _ => Done (Ok tt))
  else if byte reply 3 =? 4 then ReadExact (16 + 2) (fun _ => Done (Ok tt))
  else if byte reply 3 =? ATYP_DOMAIN then
    ReadExact 1 (fun len => ReadExact (Z.to_nat (byte len 0) + 2) (fun _ => Done (Ok tt)))
  else Done (Err (fail "the proxy answered with an unknown address type")))).

(** Once the proxy answers; [credentials] as [split_proxy] gives them. *)
Definition through_socks (credentials : option (string * string)) (host : string) (port : Z) : Proto unit :=
  if (String.length host =? 0)%nat || (255 <? String.length host)%nat
  then Done (Err (fail "the host name does not fit a SOCKS request"))
  else
    WriteAll (match credentials with
              | Some _ => [VERSION; 2; NO_AUTH; USER_PASS]
              | None => [VERSION; 1; NO_AUTH]
              end) (
    ReadExact 2 (fun choice =>
    if (byte choice 0 =? VERSION) && (byte choice 1 =? NO_AUTH) then ask host port
    else
      match credentials with
      | Some (username, password) =>
        if (byte choice 0 =? VERSION) && (byte choice 1 =? USER_PASS) then
          if (255 <? String.length username)%nat || (255 <? String.length password)%nat
          then Done (Err (fail "the proxy credentials do not fit a SOCKS request"))
          else
            WriteAll ([1; of_len username] ++ to_bytes username ++ [of_len password] ++ to_bytes password) (
            ReadExact 2 (fun verdict =>
            if negb (byte verdict 1 =? 0) then Done (Err (fail "the proxy refused the credentials"))
            else ask host port))
        else Done (Err (fail "the proxy offers no usable authentication"))
      | None => Done (Err (fail "the proxy offers no usable authentication"))
      end)).

(** ** A session against any client

    [input] is all the client sends before it stops or runs out of time,
    [room] how many writes the stream takes. The result: what was written,
    the connections asked for, and the outcome, [None] when the stream
    failed. *)
Fixpoint run {A} (p : Proto A) (input : list Z) (room : nat) (dial : string -> Z -> option ErrorKind)
  : list (list Z) * list (string * Z) * option (result A string) :=
  match p with
  | Done r => ([], [], Some r)
  | ReadExact n k => if (length input <? n)%nat then ([], [], None) else run (k (take n input)) (drop n input) room dial
  | WriteAll bytes k =>
    match room with
    | 0%nat => ([], [], None)
    | S room => let '(sent, calls, r) := run k input room dial in (bytes :: sent, calls, r)
    end
  | Connect host port k => let '(sent, calls, r) := run (k (dial host port)) input room dial in (sent, (host, port) :: calls, r)
  end.

(** The client offered the method and gave these credentials, and sent
    [rest] after them. *)
Definition presented (c : Credentials) (input rest : list Z) : Prop :=
  exists n methods nu np,
    input = [VERSION; n] ++ methods ++ [AUTH_VERSION; nu] ++ to_bytes (username c) ++ [np] ++ to_bytes (password c) ++ rest
    /\ Z.to_nat n = length methods /\ USER_PASS ∈ methods.

Definition spelled (address_type : Z) (address : list Z) (host : string) : Prop :=
  (address_type = ATYP_IPV4 /\ length address = 4%nat /\ host = ipv4_text address)
  \/ (address_type = ATYP_IPV6 /\ length address = 16%nat /\ host = ipv6_text address)
  \/ (address_type = ATYP_DOMAIN /\ exists n name, address = n :: name /\ Z.to_nat n = length name /\ from_utf8 name = Some host).

(** A request to connect to [host] and [port]. *)
Definition asked (host : string) (port : Z) (rest : list Z) : Prop :=
  exists reserved address_type address high low more,
    rest = [VERSION; CMD_CONNECT; reserved; address_type] ++ address ++ [high; low] ++ more
    /\ spelled address_type address host /\ port = high * 256 + low.

Section Run.
Context (dial : string -> Z -> option ErrorKind).

Lemma run_read {A} n (k : list Z -> Proto A) input room :
  run (ReadExact n k) input room dial = ([], [], None)
  \/ exists pre rest, input = pre ++ rest /\ length pre = n /\ run (ReadExact n k) input room dial = run (k pre) rest room dial.
Proof.
  cbn [run]. destruct (Nat.ltb_spec (length input) n); [by left|right].
  exists (take n input), (drop n input). rewrite take_drop. split; [done|]. split; [|done]. rewrite length_take. lia.
Qed.

Lemma run_write {A} bytes (k : Proto A) input room :
  run (WriteAll bytes k) input room dial = ([], [], None)
  \/ exists room', run (WriteAll bytes k) input room dial
       = (bytes :: (run k input room' dial).1.1, (run k input room' dial).1.2, (run k input room' dial).2).
Proof. cbn [run]. destruct room as [|room]; [by left|right]. exists room. by destruct (run k input room dial) as [[? ?] ?]. Qed.

(** The next read of the goal: the run stops there, or goes on. *)
Ltac read_step pre rest Hl E :=
  match goal with |- context [run (ReadExact ?n ?k) ?input ?room ?dial] =>
    destruct (run_read n k input room) as [E|(pre & rest & -> & Hl & E)] end.

(** A run that ends without a connection. *)
Definition quiet (o : list (list Z) * list (string * Z) * option (result unit string)) : Prop :=
  o.1.2 = [] /\ o.2 <> Some (Ok tt).

(** A run that connects to [host] and [port], and replies how it went. *)
Definition connected (host : string) (port : Z)
  (o : list (list Z) * list (string * Z) * option (result unit string)) : Prop :=
  o.1.2 = [(host, port)]
  /\ o.1.1 `prefix_of` [reply_bytes (match dial host port with Some e => reply_code e | None => REPLY_SUCCEEDED end)]
  /\ (o.2 = Some (Ok tt) -> dial host port = None).

Lemma run_reply_quiet code words input room : quiet (run (reply code (refuse words)) input room dial).
Proof. unfold reply. by destruct (run_write (reply_bytes code) (refuse (A := unit) words) input room) as [->|[r ->]]. Qed.

Lemma run_open host port input room : connected host port (run (open_upstream (host, port)) input room dial).
Proof.
  unfold open_upstream, connected. cbn [run fst snd].
  set (k := match dial host port with Some _ => _ | None => _ end).
  assert (Hk : k = reply (match dial host port with Some e => reply_code e | None => REPLY_SUCCEEDED end)
                     (match dial host port with Some _ => refuse "upstream" | None => Done (Ok tt) end)).
  { unfold k. by destruct (dial host port). }
  rewrite Hk. unfold reply.
  destruct (run_write (reply_bytes (match dial host port with Some e => reply_code e | None => REPLY_SUCCEEDED end))
    (match dial host port with Some _ => refuse "upstream" | None => Done (Ok tt) end) input room) as [->|[r ->]]; simpl.
  - split; [done|]. split; [apply prefix_nil|done].
  - destruct (dial host port); simpl; by split_and!.
Qed.

(** The port, and the command held to after it. *)
Definition read_port (command : Z) (host : string) : Proto (string * Z) :=
  ReadExact 2 (fun port =>
  let port := byte port 0 * 256 + byte port 1 in
  if negb (command =? CMD_CONNECT)
  then reply REPLY_COMMAND_NOT_SUPPORTED (refuse "only CONNECT is supported")
  else Done (Ok (host, port))).

Lemma run_port command host input room :
  quiet (run (proto_bind (read_port command host) open_upstream) input room dial)
  \/ command = CMD_CONNECT /\ exists high low more, input = [high; low] ++ more
      /\ connected host (high * 256 + low) (run (proto_bind (read_port command host) open_upstream) input room dial).
Proof.
  unfold read_port. cbn [proto_bind]. destruct (run_read 2 (fun bytes => proto_bind
    (if negb (command =? CMD_CONNECT) then reply REPLY_COMMAND_NOT_SUPPORTED (refuse "only CONNECT is supported")
     else Done (Ok (host, byte bytes 0 * 256 + byte bytes 1))) open_upstream) input room) as [->|(pre & rest & -> & Hl & ->)].
  { by left. }
  destruct (Z.eqb_spec command CMD_CONNECT) as [->|]; cbn [negb]; [|left; apply run_reply_quiet].
  right. split; [done|]. destruct pre as [|high [|low [|]]]; try done. exists high, low, rest. split; [done|]. apply run_open.
Qed.

Lemma run_request input room :
  quiet (run (proto_bind read_request open_upstream) input room dial)
  \/ exists host port, asked host port input /\ connected host port (run (proto_bind read_request open_upstream) input room dial).
Proof.
  unfold read_request. cbn [proto_bind]. read_step pre rest Hl E; rewrite E; clear E; [by left|].
  destruct pre as [|v [|command [|reserved [|at_ [|]]]]]; try done. cbn [byte nth].
  destruct (Z.eqb_spec v VERSION) as [->|]; cbn [negb]; [|left; apply run_reply_quiet].
  (* what follows an address of a known type *)
  assert (Htail : forall host address more r, spelled at_ address host -> rest = address ++ more ->
    run (proto_bind (proto_bind (read_host at_) (read_port command)) open_upstream) rest r dial
    = run (proto_bind (read_port command host) open_upstream) more r dial ->
    quiet (run (proto_bind (proto_bind (read_host at_) (read_port command)) open_upstream) rest r dial)
    \/ exists h port, asked h port ([VERSION; command; reserved; at_] ++ rest)
        /\ connected h port (run (proto_bind (proto_bind (read_host at_) (read_port command)) open_upstream) rest r dial)).
  { intros host address more r Hs -> ->.
    destruct (run_port command host more r) as [Hq|(-> & high & low & m & -> & Hc)]; [by left|right].
    exists host, (high * 256 + low). split; [|done]. by exists reserved, at_, address, high, low, m. }
  change (quiet (run (proto_bind (proto_bind (read_host at_) (read_port command)) open_upstream) rest room dial)
    \/ exists h port, asked h port ([VERSION; command; reserved; at_] ++ rest)
        /\ connected h port (run (proto_bind (proto_bind (read_host at_) (read_port command)) open_upstream) rest room dial)).
  revert Htail. unfold read_host.
  destruct (Z.eqb_spec at_ ATYP_IPV4) as [->|]; [|destruct (Z.eqb_spec at_ ATYP_DOMAIN) as [->|]; [|destruct (Z.eqb_spec at_ ATYP_IPV6) as [->|]]];
    cbn [proto_bind]; intros Htail.
  - read_step a more Ha E; [rewrite E; by left|]. eapply Htail; [|done|exact E]. left. done.
  - read_step a more Ha E; [rewrite E; by left|]. destruct a as [|count [|]]; try done. cbn [byte nth] in E.
    match type of E with _ = run (ReadExact ?m ?k) _ _ _ =>
      destruct (run_read m k more room) as [E'|(name & more' & -> & Hn & E')] end; rewrite E' in E; [rewrite E; by left|].
    clear E'. destruct (from_utf8 name) as [host|] eqn:Eu; [|rewrite E; left; apply run_reply_quiet].
    eapply (Htail host (count :: name) more'); [|done|exact E]. right. right. split; [done|]. by exists count, name.
  - read_step a more Ha E; [rewrite E; by left|]. eapply Htail; [|done|exact E]. right. left. done.
  - left. apply run_reply_quiet.
Qed.

(** What a client that never gave the credentials is written: the method
    chosen or refused, and that they are wrong. *)
Definition refused (sent : list (list Z)) : Prop :=
  sent `prefix_of` [[VERSION; NO_ACCEPTABLE_METHODS]] \/ sent `prefix_of` [[VERSION; USER_PASS]; [AUTH_VERSION; AUTH_FAILED]].

Lemma accept_right c user pass : accept c user pass = true <-> user = to_bytes (username c) /\ pass = to_bytes (password c).
Proof.
  unfold accept. rewrite !andb_true_iff, !bool_decide_eq_true, !Nat.eqb_eq.
  split; [tauto|]. intros [-> ->]. by rewrite !to_bytes_length.
Qed.

Lemma run_write_refuse bytes words input room :
  let o := run (WriteAll bytes (refuse (A := unit) words)) input room dial in quiet o /\ o.1.1 `prefix_of` [bytes].
Proof.
  intros o. unfold o. destruct (run_write bytes (refuse (A := unit) words) input room) as [->|[r ->]]; simpl.
  - split; [done|apply prefix_nil].
  - by split.
Qed.

(** The credentials, once the method was chosen. *)
Definition read_auth (credentials : Credentials) : Proto (string * Z) :=
  ReadExact 2 (fun head =>
  if negb (byte head 0 =? AUTH_VERSION)
  then WriteAll [AUTH_VERSION; AUTH_FAILED] (refuse "not a username/password request")
  else
    ReadExact (Z.to_nat (byte head 1)) (fun username =>
    ReadExact 1 (fun password_len =>
    ReadExact (Z.to_nat (byte password_len 0)) (fun password =>
    if negb (accept credentials username password)
    then WriteAll [AUTH_VERSION; AUTH_FAILED] (refuse "wrong proxy credentials")
    else WriteAll [AUTH_VERSION; AUTH_SUCCEEDED] read_request)))).

(** The client gave the credentials. *)
Definition gave (c : Credentials) (input rest : list Z) : Prop :=
  exists nu np, input = [AUTH_VERSION; nu] ++ to_bytes (username c) ++ [np] ++ to_bytes (password c) ++ rest.

(** Gave them, and the request they let in went as one does. *)
Definition let_in c input (o : list (list Z) * list (string * Z) * option (result unit string)) : Prop :=
  exists rest, gave c input rest /\ (quiet o \/ exists host port, asked host port rest /\ o.1.2 = [(host, port)]
    /\ (o.1.1 `prefix_of` [[AUTH_VERSION; AUTH_SUCCEEDED];
          reply_bytes (match dial host port with Some e => reply_code e | None => REPLY_SUCCEEDED end)])
    /\ (o.2 = Some (Ok tt) -> dial host port = None)).

Lemma run_auth c input room :
  let o := run (proto_bind (read_auth c) open_upstream) input room dial in
  (quiet o /\ o.1.1 `prefix_of` [[AUTH_VERSION; AUTH_FAILED]]) \/ let_in c input o.
Proof.
  cbv zeta. unfold read_auth. cbn [proto_bind].
  assert (Hstop : quiet ([], [], None) /\ ([] : list (list Z)) `prefix_of` [[AUTH_VERSION; AUTH_FAILED]]).
  { split; [done|apply prefix_nil]. }
  read_step pre rest Hl E; rewrite E; clear E; [by left|]. destruct pre as [|v [|nu [|]]]; try done. cbn [byte nth].
  destruct (Z.eqb_spec v AUTH_VERSION) as [->|]; cbn [negb proto_bind]; [|left; apply run_write_refuse].
  read_step user rest' Hu E; rewrite E; clear E; [by left|].
  read_step len rest'' Hn E; rewrite E; clear E; [by left|]. destruct len as [|np [|]]; try done. cbn [byte nth].
  read_step pass more Hp E; rewrite E; clear E; [by left|].
  destruct (accept c user pass) eqn:Ea; cbn [negb proto_bind]; [|left; apply run_write_refuse].
  apply accept_right in Ea as [-> ->].
  destruct (run_write [AUTH_VERSION; AUTH_SUCCEEDED] (proto_bind read_request open_upstream) more room) as [->|[r ->]]; [by left|].
  right. exists more. split; [by exists nu, np|].
  destruct (run_request more r) as [[Hq1 Hq2]|(host & port & Ha & Hc1 & Hc2 & Hc3)]; [by left|right].
  exists host, port. split; [done|]. split; [done|]. split; [|done]. cbn [fst snd]. by apply prefix_cons.
Qed.

(** C14: the proxy on loopback serves its own clients only. Whatever a
    client sends, in whole or in part, nothing is connected unless it
    offered the method and gave the very credentials, and then only what
    its request names, a host as it spelled it; a client that did not is
    written nothing but the two bytes of a refusal, never a reply; and the
    reply of a connection says how it went. *)
Theorem only_credentials_connect c input room :
  let o := run (session c) input room dial in
  (o.1.2 <> [] -> exists rest host port, presented c input rest /\ asked host port rest /\ o.1.2 = [(host, port)]
     /\ o.1.1 `prefix_of` [[VERSION; USER_PASS]; [AUTH_VERSION; AUTH_SUCCEEDED];
          reply_bytes (match dial host port with Some e => reply_code e | None => REPLY_SUCCEEDED end)]
     /\ (o.2 = Some (Ok tt) -> dial host port = None))
  /\ (o.2 = Some (Ok tt) -> o.1.2 <> [])
  /\ (~ (exists rest, presented c input rest) -> o.1.2 = [] /\ refused o.1.1).
Proof.
  intros o.
  assert (Hend : quiet o -> refused o.1.1 -> (o.1.2 <> [] -> exists rest host port, presented c input rest
     /\ asked host port rest /\ o.1.2 = [(host, port)]
     /\ o.1.1 `prefix_of` [[VERSION; USER_PASS]; [AUTH_VERSION; AUTH_SUCCEEDED];
          reply_bytes (match dial host port with Some e => reply_code e | None => REPLY_SUCCEEDED end)]
     /\ (o.2 = Some (Ok tt) -> dial host port = None))
    /\ (o.2 = Some (Ok tt) -> o.1.2 <> [])
    /\ (~ (exists rest, presented c input rest) -> o.1.2 = [] /\ refused o.1.1)).
  { intros [Hq1 Hq2] Hr. split; [by rewrite Hq1|]. split; [done|]. done. }
  revert Hend. unfold o, session, handshake. clear o. cbn [proto_bind]. fold (read_auth c).
  assert (Hnone : refused []) by (left; apply prefix_nil).
  read_step pre rest Hl E; rewrite E; clear E; [by intros Hend; apply Hend|].
  destruct pre as [|v [|n [|]]]; try done. cbn [byte nth].
  destruct (Z.eqb_spec v VERSION) as [->|]; cbn [negb proto_bind]; [|by intros Hend; apply Hend].
  read_step methods more Hm E; rewrite E; clear E; [by intros Hend; apply Hend|].
  case_bool_decide as Hin; cbn [negb proto_bind].
  2:{ intros Hend. destruct (run_write_refuse [VERSION; NO_ACCEPTABLE_METHODS]
        "the client offers no authentication this proxy accepts" more room) as [Hq Hp]. apply Hend; [exact Hq|by left]. }
  change (ReadExact 2 _) with (proto_bind (read_auth c) open_upstream).
  destruct (run_write [VERSION; USER_PASS] (proto_bind (read_auth c) open_upstream) more room) as [->|[r ->]];
    [by intros Hend; apply Hend|]. cbn [fst snd]. intros Hend.
  destruct (run_auth c more r) as [[[Hq1 Hq2] Hp]|(tail & (nu & np & ->) & Hlet)].
  { apply Hend; [by split|]. right. by apply prefix_cons. }
  assert (Hpre : presented c ([VERSION; n] ++ methods ++ [AUTH_VERSION; nu] ++ to_bytes (username c) ++ [np]
    ++ to_bytes (password c) ++ tail) tail) by by exists n, methods, nu, np.
  clear Hend. destruct Hlet as [[Hq1 Hq2]|(host & port & Ha & Hc1 & Hc2 & Hc3)].
  - split; [by rewrite Hq1|]. split; [done|]. intros Hn. destruct Hn. by eexists.
  - split; [|split].
    + intros _. exists tail, host, port. split_and!; try done. by apply prefix_cons.
    + by rewrite Hc1.
    + intros Hn. destruct Hn. by eexists.
Qed.
End Run.

(** ** A session with our own client

    The two programs on one connection: what each wrote and the other has
    not read yet. The client goes on while it can, then the proxy; the
    result, once the client is done: its own, and the connections asked
    for. *)
Fixpoint duplex {A B} (fuel : nat) (client : Proto A) (server : Proto B) (to_client to_server : list Z)
  (calls : list (string * Z)) (dial : string -> Z -> option ErrorKind)
  : option (result A string * list (string * Z)) :=
  match fuel with
  | 0%nat => None
  | S fuel =>
    let serve :=
      match server with
      | WriteAll bytes k => duplex fuel client k (to_client ++ bytes) to_server calls dial
      | ReadExact n k =>
        if (length to_server <? n)%nat then None
        else duplex fuel client (k (take n to_server)) to_client (drop n to_server) calls dial
      | Connect host port k => duplex fuel client (k (dial host port)) to_client to_server (calls ++ [(host, port)]) dial
      | Done _ => None
      end in
    match client with
    | Done r => Some (r, calls)
    | WriteAll bytes k => duplex fuel k server to_client (to_server ++ bytes) calls dial
    | ReadExact n k =>
      if (length to_client <? n)%nat then serve
      else duplex fuel (k (take n to_client)) server (drop n to_client) to_server calls dial
    | Connect _ _ _ => serve
    end
  end.

Section Duplex.
Context (dial : string -> Z -> option ErrorKind).

Lemma duplex_client_write {A B} fuel bytes (k : Proto A) (server : Proto B) tc ts calls :
  duplex (S fuel) (WriteAll bytes k) server tc ts calls dial = duplex fuel k server tc (ts ++ bytes) calls dial.
Proof. done. Qed.

Lemma duplex_client_read {A B} fuel n (k : list Z -> Proto A) (server : Proto B) pre tc tc' ts calls :
  tc = pre ++ tc' -> length pre = n ->
  duplex (S fuel) (ReadExact n k) server tc ts calls dial = duplex fuel (k pre) server tc' ts calls dial.
Proof.
  intros -> <-. cbn [duplex]. rewrite length_app. replace (_ <? _)%nat with false by lia.
  by rewrite take_app_length, drop_app_length.
Qed.

Lemma duplex_server_write {A B} fuel n (k : list Z -> Proto A) bytes (server : Proto B) tc ts calls :
  (length tc < n)%nat ->
  duplex (S fuel) (ReadExact n k) (WriteAll bytes server) tc ts calls dial
  = duplex fuel (ReadExact n k) server (tc ++ bytes) ts calls dial.
Proof. intros Hl. cbn [duplex]. by replace (length tc <? n)%nat with true by lia. Qed.

Lemma duplex_server_read {A B} fuel n (k : list Z -> Proto A) m (server : list Z -> Proto B) pre tc ts ts' calls :
  ts = pre ++ ts' -> length pre = m -> (length tc < n)%nat ->
  duplex (S fuel) (ReadExact n k) (ReadExact m server) tc ts calls dial
  = duplex fuel (ReadExact n k) (server pre) tc ts' calls dial.
Proof.
  intros -> <- Hl. cbn [duplex]. replace (length tc <? n)%nat with true by lia. rewrite length_app.
  replace (_ <? _)%nat with false by lia. by rewrite take_app_length, drop_app_length.
Qed.

Lemma duplex_server_connect {A B} fuel n (k : list Z -> Proto A) host port (server : option ErrorKind -> Proto B) tc ts calls :
  (length tc < n)%nat ->
  duplex (S fuel) (ReadExact n k) (Connect host port server) tc ts calls dial
  = duplex fuel (ReadExact n k) (server (dial host port)) tc ts (calls ++ [(host, port)]) dial.
Proof. intros Hl. cbn [duplex]. by replace (length tc <? n)%nat with true by lia. Qed.

(** What the client says of a connection that failed. *)
Definition said (error : ErrorKind) : string :=
  fail match error with
       | ConnectionRefused => "connection refused"
       | HostUnreachable | NotFound => "host unreachable"
       | NetworkUnreachable => "network unreachable"
       | OtherKind => "the proxy could not reach the host"
       end.

Definition short (s : string) : Prop := (String.length s <= 255)%nat.

(** From the request on. *)
Lemma duplex_ask fuel host port : valid_utf8 host -> short host -> 0 <= port <= 65535 ->
  duplex (20 + fuel) (ask host port) (proto_bind read_request open_upstream) [] [] [] dial
  = Some (match dial host port with None => Ok tt | Some e => Err (said e) end, [(host, port)]).
Proof.
  intros Hu Hs Hp. unfold ask, read_request. cbn [proto_bind Nat.add]. rewrite duplex_client_write. cbn [app].
  match goal with |- context [ReadExact 4 ?k] => set (client := k) end.
  rewrite (duplex_server_read _ 4 client 4 _ [VERSION; CMD_CONNECT; 0; ATYP_DOMAIN] _ _
    (of_len host :: to_bytes host ++ [port / 256; port mod 256])) by (reflexivity || (simpl; lia)).
  cbn [byte nth VERSION Z.eqb Pos.eqb negb]. unfold read_host.
  change (ATYP_DOMAIN =? ATYP_IPV4) with false. change (ATYP_DOMAIN =? ATYP_DOMAIN) with true. cbv iota. cbn [proto_bind].
  rewrite (duplex_server_read _ 4 client 1 _ [of_len host] _ _ (to_bytes host ++ [port / 256; port mod 256]))
    by (reflexivity || (simpl; lia)).
  cbn [byte nth]. rewrite (duplex_server_read _ 4 client _ _ (to_bytes host) _ _ [port / 256; port mod 256]) by
    (reflexivity || (unfold of_len; rewrite ?to_bytes_length, ?Nat2Z.id; simpl; lia)).
  rewrite from_utf8_to_bytes by done. cbn [proto_bind].
  rewrite (duplex_server_read _ 4 client 2 _ [port / 256; port mod 256] _ _ []) by (reflexivity || (simpl; lia)).
  cbn [byte nth]. change (CMD_CONNECT =? CMD_CONNECT) with true. cbn [negb proto_bind].
  replace (port / 256 * 256 + port mod 256) with port by (Z.div_mod_to_equations; lia).
  unfold open_upstream. cbn [fst snd]. rewrite duplex_server_connect by (simpl; lia). cbn [app].
  destruct (dial host port) as [e|]; unfold reply; rewrite duplex_server_write by (simpl; lia); cbn [app];
    unfold client.
  - rewrite (duplex_client_read _ 4 _ _ [VERSION; reply_code e; 0; ATYP_IPV4] _ [0; 0; 0; 0; 0; 0]) by reflexivity. by destruct e.
  - done.
Qed.

(** Our client and our proxy agree. With the proxy's credentials, the
    client's connection is to the very host and port it asked for, and it
    hears how it went, the reason of a failure included; with any others,
    it hears that they are refused, and nothing is connected. *)
Theorem client_and_proxy_agree c user pass host port :
  valid_utf8 host -> host <> "" -> short host -> 0 <= port <= 65535 -> short user -> short pass ->
  exists fuel, duplex fuel (through_socks (Some (user, pass)) host port) (session c) [] [] [] dial
  = Some (if decide (user = username c /\ pass = password c)
          then (match dial host port with None => Ok tt | Some e => Err (said e) end, [(host, port)])
          else (Err (fail "the proxy refused the credentials"), [])).
Proof.
  intros Hu Hne Hs Hp Huser Hpass. exists (12 + (20 + 0))%nat. unfold through_socks, short in *.
  assert (String.length host <> 0%nat) by by destruct host.
  replace ((String.length host =? 0)%nat || (255 <? String.length host)%nat) with false by lia. cbn [Nat.add].
  rewrite duplex_client_write. cbn [app]. unfold session, handshake. cbn [proto_bind]. fold (read_auth c).
  match goal with |- context [ReadExact 2 ?k] => set (client := k) end.
  rewrite (duplex_server_read _ 2 client 2 _ [VERSION; 2] _ _ [NO_AUTH; USER_PASS]) by (reflexivity || (simpl; lia)).
  cbn [byte nth VERSION Z.eqb Pos.eqb negb proto_bind].
  rewrite (duplex_server_read _ 2 client _ _ [NO_AUTH; USER_PASS] _ _ []) by (reflexivity || (simpl; lia)).
  rewrite (bool_decide_true (USER_PASS ∈ [NO_AUTH; USER_PASS])) by (right; left). cbn [negb proto_bind].
  rewrite duplex_server_write by (simpl; lia). cbn [app]. unfold client.
  rewrite (duplex_client_read _ 2 _ _ [VERSION; USER_PASS] _ []) by reflexivity.
  cbn [byte nth]. change (USER_PASS =? NO_AUTH) with false. change (VERSION =? VERSION) with true.
  change (USER_PASS =? USER_PASS) with true. cbn [andb].
  replace ((255 <? String.length user)%nat || (255 <? String.length pass)%nat) with false by lia.
  rewrite duplex_client_write. cbn [app]. clear client.
  match goal with |- context [ReadExact 2 ?k] => set (client := k) end.
  unfold read_auth. cbn [proto_bind].
  rewrite (duplex_server_read _ 2 client 2 _ [1; of_len user] _ _ (to_bytes user ++ of_len pass :: to_bytes pass))
    by (reflexivity || (simpl; lia)).
  cbn [byte nth]. change (1 =? AUTH_VERSION) with true. cbn [negb proto_bind].
  rewrite (duplex_server_read _ 2 client _ _ (to_bytes user) _ _ (of_len pass :: to_bytes pass))
    by (reflexivity || (unfold of_len; rewrite ?to_bytes_length, ?Nat2Z.id; simpl; lia)).
  rewrite (duplex_server_read _ 2 client 1 _ [of_len pass] _ _ (to_bytes pass)) by (reflexivity || (simpl; lia)).
  cbn [byte nth]. rewrite (duplex_server_read _ 2 client _ _ (to_bytes pass) _ _ [])
    by (by rewrite app_nil_r || (unfold of_len; rewrite ?to_bytes_length, ?Nat2Z.id; simpl; lia)).
  destruct (accept c (to_bytes user) (to_bytes pass)) eqn:Ea; cbn [negb proto_bind].
  - apply accept_right in Ea as [->%to_bytes_inj ->%to_bytes_inj]. rewrite decide_True by done.
    rewrite duplex_server_write by (simpl; lia). cbn [app]. unfold client.
    rewrite (duplex_client_read _ 2 _ _ [AUTH_VERSION; AUTH_SUCCEEDED] _ []) by reflexivity. cbn [byte nth].
    change (AUTH_SUCCEEDED =? 0) with true. cbn [negb]. by apply (duplex_ask 0).
  - rewrite decide_False; [|intros [-> ->]; by rewrite (proj2 (accept_right c _ _) (conj eq_refl eq_refl)) in Ea].
    rewrite duplex_server_write by (simpl; lia). cbn [app]. unfold client.
    by rewrite (duplex_client_read _ 2 _ _ [AUTH_VERSION; AUTH_FAILED] _ []) by reflexivity.
Qed.
End Duplex.

Lemma client_and_proxy_agree_witness :
  exists fuel, duplex fuel (through_socks (Some ("user", "pass")) "x.onion" 50001)
    (session {| username := "user"; password := "pass" |}) [] [] [] (fun _ _ => Some HostUnreachable)
  = Some (Err (fail "host unreachable"), [("x.onion", 50001)]).
Proof.
  destruct (client_and_proxy_agree (fun _ _ => Some HostUnreachable) {| username := "user"; password := "pass" |}
    "user" "pass" "x.onion" 50001) as [fuel E].
  - exists (chars "x.onion"). split; [repeat constructor|reflexivity].
  - discriminate.
  - unfold short. simpl. lia.
  - lia.
  - unfold short. simpl. lia.
  - unfold short. simpl. lia.
  - exists fuel. exact E.
Defined.

(** The proxy string of a route splits back into what it was made of. *)
Lemma split_proxy_proxy socks : lacks "@" socks = true ->
  split_proxy (proxy socks None) = (None, socks)
  /\ forall c, lacks ":" (username c) = true ->
     split_proxy (proxy socks (Some c)) = (Some (username c, password c), socks).
Proof.
  intros Hs. unfold split_proxy, proxy. split; [by rewrite rsplit_once_lacks|]. intros c Hu.
  replace (username c +:+ ":" +:+ password c +:+ "@" +:+ socks)
    with ((username c +:+ String ":" (password c)) +:+ String "@" socks) by by rewrite str_app_assoc.
  rewrite rsplit_once_app by done. by rewrite split_once_app.
Qed.
