(* ===== verification/Lines.v ===== *)
(** [chain/net.rs], the line reader: lines off a stream that comes in any
    chunks, each byte moved once. A read gives some bytes, none at the
    end of the stream, or fails. *)
From S2P Require Import Prelude.

Definition LF : Z := 10.
Definition CR : Z := 13.
Definition CHUNK : nat := 4096.

Record LineReader := { buffer : list Z; start : nat; scanned : nat; limit : nat }.

Inductive ReadError := LineTooLong | Broken (words : string).

Definition line_reader (limit : nat) : LineReader := {| buffer := []; start := 0; scanned := 0; limit := limit |}.

(** [line.pop()] after a carriage return. *)
Definition without_cr (line : list Z) : list Z :=
  match list.last line with
  | Some b => if b =? CR then removelast line else line
  | None => line
  end.

(** The line that starts at [start] and ends at [end_]. *)
Definition take_line (r : LineReader) (end_ : nat) : LineReader * list Z :=
  ({| buffer := buffer r; start := S end_; scanned := S end_; limit := limit r |},
   without_cr (take (end_ - start r) (drop (start r) (buffer r)))).

(** No line end in what is held: the lines handed out go. *)
Definition compact (r : LineReader) : LineReader :=
  let kept := drop (start r) (buffer r) in
  {| buffer := kept; start := 0; scanned := length kept; limit := limit r |}.

Definition push (r : LineReader) (chunk : list Z) : LineReader :=
  {| buffer := buffer r ++ chunk; start := start r; scanned := scanned r; limit := limit r |}.

(** [next_line], the reads to come in [chunks]. *)
Fixpoint next_line (r : LineReader) (chunks : list (result (list Z) string))
  : LineReader * list (result (list Z) string) * result (option (list Z)) ReadError :=
  match position (fun b => b =? LF) (drop (scanned r) (buffer r)) with
  | Some offset => let '(r, line) := take_line r (scanned r + offset) in (r, chunks, Ok (Some line))
  | None =>
    let r := compact r in
    if (limit r <? length (buffer r))%nat then (r, chunks, Err LineTooLong)
    else
      match chunks with
      | [] => (r, [], Ok None)
      | Err e :: chunks => (r, chunks, Err (Broken e))
      | Ok chunk :: chunks =>
        if (length chunk =? 0)%nat then (r, chunks, Ok None) else next_line (push r chunk) chunks
      end
  end.

(** Lines until the stream is closed, fails, or a line is too long; [n]
    of them at most. *)
Fixpoint read_lines (n : nat) (r : LineReader) (chunks : list (result (list Z) string))
  : list (list Z) * option (result unit ReadError) :=
  match n with
  | 0%nat => ([], None)
  | S n =>
    let '(r, chunks, out) := next_line r chunks in
    match out with
    | Ok (Some line) => let '(lines, ended) := read_lines n r chunks in (line :: lines, ended)
    | Ok None => ([], Some (Ok tt))
    | Err e => ([], Some (Err e))
    end
  end.

(** ** The lines of a text *)

(** The reference: every line that ends, [raw] the one under way. *)
Fixpoint lines_of (raw text : list Z) : list (list Z) :=
  match text with
  | [] => []
  | b :: text => if b =? LF then without_cr raw :: lines_of [] text else lines_of (raw ++ [b]) text
  end.

(** A line longer than [limit], ended or not. *)
Definition long_line (limit : nat) (text : list Z) : Prop :=
  exists before raw after, text = before ++ raw ++ after /\ LF ∉ raw /\ (limit < length raw)%nat.

Lemma lines_of_line raw line text : LF ∉ line ->
  lines_of raw (line ++ LF :: text) = without_cr (raw ++ line) :: lines_of [] text.
Proof.
  revert raw. induction line as [|b line IH]; intros raw Hn; simpl.
  - by rewrite app_nil_r.
  - destruct (Z.eqb_spec b LF) as [->|]; [destruct Hn; left|].
    rewrite IH by (intros ?; apply Hn; by right). by rewrite <- app_assoc.
Qed.

Lemma lines_of_none raw text : LF ∉ text -> lines_of raw text = [].
Proof.
  revert raw. induction text as [|b text IH]; intros raw Hn; [done|]. simpl.
  destruct (Z.eqb_spec b LF) as [->|]; [destruct Hn; left|]. apply IH. intros ?. apply Hn. by right.
Qed.

Lemma position_lf l offset : position (fun b => b =? LF) l = Some offset ->
  exists raw rest, l = raw ++ LF :: rest /\ length raw = offset /\ LF ∉ raw.
Proof.
  revert offset. induction l as [|b l IH]; intros offset; simpl; [done|].
  destruct (Z.eqb_spec b LF) as [->|Hb].
  - intros [= <-]. exists [], l. split_and!; [done..|apply not_elem_of_nil].
  - destruct (position _ l) as [o|]; [|done]. intros [= <-]. destruct (IH o eq_refl) as (raw & rest & -> & <- & Hn).
    exists (b :: raw), rest. split; [done|]. split; [done|]. by apply not_elem_of_cons.
Qed.

Lemma position_no_lf l : position (fun b => b =? LF) l = None -> LF ∉ l.
Proof.
  induction l as [|b l IH]; simpl; [by intros _; apply not_elem_of_nil|].
  destruct (Z.eqb_spec b LF) as [->|Hb]; [done|]. destruct (position _ l); [done|]. intros _.
  apply not_elem_of_cons. split; [congruence|by apply IH].
Qed.

(** ** One line *)

(** What is held starts at [start], and holds no line end up to
    [scanned]. *)
Definition wf (r : LineReader) : Prop :=
  (start r <= scanned r <= length (buffer r))%nat /\ LF ∉ take (scanned r - start r) (drop (start r) (buffer r)).

(** The bytes of the reads to come, up to the end of the stream. *)
Fixpoint bytes_of (chunks : list (result (list Z) string)) : list Z :=
  match chunks with
  | Ok chunk :: chunks => if (length chunk =? 0)%nat then [] else chunk ++ bytes_of chunks
  | _ => []
  end.

(** What is not handed out yet. *)
Definition pending (r : LineReader) (chunks : list (result (list Z) string)) : list Z :=
  drop (start r) (buffer r) ++ bytes_of chunks.

Definition small (chunks : list (result (list Z) string)) : Prop :=
  Forall (fun c => match c with Ok chunk => (length chunk <= CHUNK)%nat | Err _ => True end) chunks.

Definition held (r : LineReader) : list Z := drop (start r) (buffer r).

Lemma take_line_right r offset : wf r ->
  position (fun b => b =? LF) (drop (scanned r) (buffer r)) = Some offset ->
  let '(r', line) := take_line r (scanned r + offset) in
  wf r' /\ buffer r' = buffer r /\ limit r' = limit r
  /\ exists raw, held r = raw ++ LF :: held r' /\ LF ∉ raw /\ line = without_cr raw.
Proof.
  intros [Hr Hn] (raw & rest & E & Ho & Hraw)%position_lf. unfold take_line, held. cbn [start buffer limit].
  set (before := take (scanned r - start r) (drop (start r) (buffer r))) in *.
  assert (Hlb : length before = (scanned r - start r)%nat).
  { unfold before. rewrite length_take, length_drop. lia. }
  assert (Hheld : drop (start r) (buffer r) = (before ++ raw) ++ LF :: rest).
  { rewrite <- (take_drop (scanned r - start r) (drop (start r) (buffer r))) at 1. fold before.
    rewrite drop_drop. replace (start r + (scanned r - start r))%nat with (scanned r) by lia. by rewrite E, app_assoc. }
  assert (Hlen : length (before ++ raw) = (scanned r + offset - start r)%nat) by (rewrite length_app; lia).
  assert (Hrest : drop (S (scanned r + offset)) (buffer r) = rest).
  { replace (S (scanned r + offset)) with (start r + S (length (before ++ raw)))%nat by lia.
    rewrite <- drop_drop, Hheld. replace (S (length (before ++ raw))) with (length ((before ++ raw) ++ [LF])) by (rewrite length_app; simpl; lia).
    replace ((before ++ raw) ++ LF :: rest) with (((before ++ raw) ++ [LF]) ++ rest) by by rewrite <- app_assoc.
    apply drop_app_length. }
  assert (Hbuf : (S (scanned r + offset) <= length (buffer r))%nat).
  { apply (f_equal length) in E. rewrite length_drop, length_app in E. simpl in E. lia. }
  split; [|split; [done|split; [done|]]].
  - split; simpl; [lia|]. rewrite Nat.sub_diag. apply not_elem_of_nil.
  - exists (before ++ raw). rewrite Hrest, Hheld. split; [done|]. split; [by rewrite not_elem_of_app|].
    f_equal. rewrite <- Hlen. apply take_app_length.
Qed.

Lemma compact_right r : wf r -> position (fun b => b =? LF) (drop (scanned r) (buffer r)) = None ->
  LF ∉ held r /\ buffer (compact r) = held r /\ limit (compact r) = limit r /\ held (compact r) = held r
  /\ wf (compact r).
Proof.
  intros [Hr Hn] Hp%position_no_lf. assert (Hh : LF ∉ held r).
  { unfold held. rewrite <- (take_drop (scanned r - start r) (drop (start r) (buffer r))), not_elem_of_app. split; [done|].
    rewrite drop_drop. by replace (start r + (scanned r - start r))%nat with (scanned r) by lia. }
  split; [done|]. split; [done|]. split; [done|]. split; [done|]. split; simpl; [lia|].
  rewrite Nat.sub_0_r, drop_0, firstn_all. done.
Qed.

Lemma push_right r chunk : wf r -> LF ∉ held r -> start r = 0%nat -> scanned r = length (buffer r) ->
  wf (push r chunk) /\ held (push r chunk) = held r ++ chunk.
Proof.
  intros [Hr _] Hh Hs Hn. unfold wf, held, push in *. cbn [start scanned buffer] in *. rewrite Hs, Hn in *. rewrite !drop_0 in *.
  split; [|done]. rewrite length_app. split; [lia|]. by rewrite Nat.sub_0_r, take_app_length.
Qed.

(** One call: a line is the next of what is pending, and the rest stays;
    nothing more is held than the limit and one chunk. *)
Lemma next_line_right chunks : forall r,
  wf r -> small chunks -> (length (buffer r) <= limit r + CHUNK)%nat ->
  let '(r', chunks', out) := next_line r chunks in
  wf r' /\ small chunks' /\ limit r' = limit r /\ (length (buffer r') <= limit r + CHUNK)%nat
  /\ match out with
     | Ok (Some line) => exists raw, pending r chunks = raw ++ LF :: pending r' chunks' /\ LF ∉ raw /\ line = without_cr raw
     | Err LineTooLong => exists raw after, pending r chunks = raw ++ after /\ LF ∉ raw /\ (limit r < length raw)%nat
     | Ok None | Err (Broken _) => LF ∉ pending r chunks
     end.
Proof.
  assert (Hlong : forall r, (length (buffer r) <= limit r + CHUNK)%nat -> (length (buffer (compact r)) <= limit r + CHUNK)%nat).
  { intros r Hl. simpl. rewrite length_drop. lia. }
  induction chunks as [|chunk chunks IH]; intros r Hw Hs Hl; cbn [next_line];
    destruct (position (fun b => b =? LF) (drop (scanned r) (buffer r))) as [offset|] eqn:Ep.
  1, 3: pose proof (take_line_right r offset Hw Ep) as Ht; destruct (take_line r (scanned r + offset)) as [r' line];
    destruct Ht as (Hw' & Hb & Hlim & raw & Eh & Hraw & ->); rewrite Hb; split_and!; try done;
    exists raw; unfold pending; fold (held r); rewrite Eh, <- app_assoc; by split_and!.
  all: destruct (compact_right r Hw Ep) as (Hh & Hb & Hlim & Hhc & Hwc); pose proof (Hlong r Hl) as Hlc;
    destruct (Nat.ltb_spec (limit (compact r)) (length (buffer (compact r)))) as [Htoo|Hok]; rewrite Hlim in *.
  - split_and!; try done. exists (held r), []. unfold pending. fold (held r). by rewrite Hb in Htoo.
  - split_and!; try done. unfold pending. fold (held r). by rewrite app_nil_r.
  - split_and!; try done. exists (held r), (bytes_of (chunk :: chunks)). by rewrite Hb in Htoo.
  - apply list.Forall_cons in Hs as [Hc Hs]. destruct chunk as [chunk|e].
    2:{ split_and!; try done. unfold pending. fold (held r). simpl. by rewrite app_nil_r. }
    destruct (Nat.eqb_spec (length chunk) 0) as [Hz|Hz].
    { split_and!; try done. unfold pending. fold (held r). simpl. rewrite Hz. simpl. by rewrite app_nil_r. }
    destruct (push_right (compact r) chunk Hwc) as [Hwp Hhp]; [by rewrite Hhc|done|done|].
    specialize (IH (push (compact r) chunk) Hwp Hs). cbn [limit buffer push] in IH.
    assert (Hp : pending (push (compact r) chunk) chunks = pending r (Ok chunk :: chunks)).
    { unfold pending. fold (held (push (compact r) chunk)) (held r). rewrite Hhp, Hhc, <- app_assoc. simpl.
      by apply Nat.eqb_neq in Hz as ->. }
    rewrite Hp in IH. rewrite ?Hlim in IH.
    apply IH. rewrite length_app. lia.
Qed.

(** ** Every line *)

Lemma lines_length text raw : (length (lines_of raw text) <= length text)%nat.
Proof.
  revert raw. induction text as [|b text IH]; intros raw; simpl; [lia|]. destruct (b =? LF); simpl; [|by etrans; [apply IH|lia]].
  specialize (IH []). lia.
Qed.

Lemma read_lines_right n : forall r chunks,
  wf r -> small chunks -> (length (buffer r) <= limit r + CHUNK)%nat -> (length (pending r chunks) < n)%nat ->
  let '(lines, ended) := read_lines n r chunks in
  match ended with
  | Some (Ok _) | Some (Err (Broken _)) => lines = lines_of [] (pending r chunks)
  | Some (Err LineTooLong) => lines `prefix_of` lines_of [] (pending r chunks) /\ long_line (limit r) (pending r chunks)
  | None => False
  end.
Proof.
  induction n as [|n IH]; intros r chunks Hw Hs Hl Hn; [lia|]. cbn [read_lines].
  pose proof (next_line_right chunks r Hw Hs Hl) as Hnext. destruct (next_line r chunks) as [[r' chunks'] out].
  destruct Hnext as (Hw' & Hs' & Hlim & Hl' & Hout). destruct out as [[line|]|[|words]].
  - destruct Hout as (raw & E & Hraw & ->). rewrite <- Hlim in Hl'.
    specialize (IH r' chunks' Hw' Hs' Hl'). rewrite E in Hn. rewrite length_app in Hn. cbn [length] in Hn.
    specialize (IH ltac:(lia)). destruct (read_lines n r' chunks') as [lines ended].
    rewrite E, lines_of_line by done. simpl.
    destruct ended as [[|[|]]|]; try (by subst). destruct IH as [Hp (before & long & after & Hb & Hlong)].
    split; [by apply prefix_cons|]. rewrite <- Hlim. exists (raw ++ LF :: before), long, after.
    by rewrite Hb, <- !app_assoc.
  - by rewrite lines_of_none.
  - destruct Hout as (raw & after & E & Hraw & Hlong). split; [apply prefix_nil|]. by exists [], raw, after.
  - by rewrite lines_of_none.
Qed.

(** The line reader gives the lines of what the server sent, whatever
    chunks it came in: each that ended, in order, without its end, none
    lost, none made up; it always comes to an end, and gives up only on a
    line longer than its limit; and it never holds more than the limit
    and one chunk, however long a line without an end is. *)
Theorem lines_whatever_chunks max chunks :
  small chunks ->
  let '(lines, ended) := read_lines (S (length (bytes_of chunks))) (line_reader max) chunks in
  match ended with
  | Some (Ok _) | Some (Err (Broken _)) => lines = lines_of [] (bytes_of chunks)
  | Some (Err LineTooLong) => lines `prefix_of` lines_of [] (bytes_of chunks) /\ long_line max (bytes_of chunks)
  | None => False
  end
  /\ (forall r, wf r -> limit r = max -> (length (buffer r) <= max + CHUNK)%nat ->
      let r' := (next_line r chunks).1.1 in wf r' /\ limit r' = max /\ (length (buffer r') <= max + CHUNK)%nat).
Proof.
  intros Hs. pose proof (read_lines_right (S (length (bytes_of chunks))) (line_reader max) chunks) as Hr.
  unfold pending in Hr. cbn [start buffer limit line_reader drop app] in Hr.
  assert (Hw : wf (line_reader max)) by (split; simpl; [lia|apply not_elem_of_nil]).
  specialize (Hr Hw Hs). cbn [buffer line_reader length] in Hr. specialize (Hr ltac:(lia) ltac:(lia)).
  destruct (read_lines _ _ _) as [lines ended]. split; [done|]. intros r Hwr <- Hl.
  pose proof (next_line_right chunks r Hwr Hs Hl) as Hn. destruct (next_line r chunks) as [[r' chunks'] out]. simpl. tauto.
Qed.

Lemma lines_whatever_chunks_witness :
  read_lines 9 (line_reader 4) [Ok [97; 13]; Ok [10; 98; 10]; Ok [99; 10; 100]] = ([[97]; [98]; [99]], Some (Ok tt))
  /\ [[97]; [98]; [99]] = lines_of [] [97; 13; 10; 98; 10; 99; 10; 100].
Proof.
  split; [reflexivity|].
  exact (proj1 (lines_whatever_chunks 4 [Ok [97; 13]; Ok [10; 98; 10]; Ok [99; 10; 100]] ltac:(repeat constructor; unfold CHUNK; simpl; lia))).
Defined.
