(* ===== verification/F64.v ===== *)
(** The [f64] of Rust, as the standard library specifies binary64: a
    whole number converted, a quotient, a comparison, and the digits
    [{:.0}] writes. What a comparison of a rounded quotient comes to on
    whole numbers. *)
From S2P Require Import Prelude Text.
From Stdlib Require Import SpecFloat.

Definition f64 : Type := spec_float.

(** [n as f64], [/], [*], [>]. *)
Definition f64_of (n : Z) : f64 := binary_normalize 53 1024 n 0 false.
Definition f64_div (x y : f64) : f64 := SFdiv 53 1024 x y.
Definition f64_mul (x y : f64) : f64 := SFmul 53 1024 x y.
Definition f64_gt (x y : f64) : bool := SFltb y x.

(** [{:.0}]: the nearest whole number, half to even. *)
Definition rounded (m e : Z) : Z :=
  if 0 <=? e then m * 2 ^ e
  else
    let d := 2 ^ (- e) in
    let q := m / d in
    let r := m mod d in
    match 2 * r ?= d with Lt => q | Gt => q + 1 | Eq => if Z.even q then q else q + 1 end.

Definition f64_show (x : f64) : string :=
  match x with
  | S754_zero s => if s then "-0" else "0"
  | S754_infinity s => if s then "-inf" else "inf"
  | S754_nan => "NaN"
  | S754_finite s m e => (if s then "-" else "") +:+ dec (rounded (Z.pos m) e)
  end.

(** ** A rounded quotient *)

Abbreviation fexp := (fexp 53 1024).

Lemma fexp_normal n : -1021 <= n -> fexp n = n - 53.
Proof. intros. unfold fexp, emin. lia. Qed.

Lemma digits2_log2 p : Z.pos (digits2_pos p) = Z.log2 (Z.pos p) + 1.
Proof.
  induction p as [p IH|p IH|]; [| |done]; cbn [digits2_pos]; rewrite Pos2Z.inj_succ, IH.
  - rewrite Pos2Z.inj_xI, Z.log2_succ_double by lia. lia.
  - rewrite Pos2Z.inj_xO, Z.log2_double by lia. lia.
Qed.

Lemma digits2_bounds n k : 0 <= k -> 2 ^ k <= n < 2 ^ (k + 1) -> Zdigits2 n = k + 1.
Proof.
  intros Hk Hn. assert (0 < 2 ^ k) by (by apply Z.pow_pos_nonneg). destruct n as [|p|p]; [lia| |lia].
  cbn [Zdigits2]. rewrite digits2_log2. f_equal. by apply Z.log2_unique.
Qed.

(** A whole number is its own mantissa, shifted to 53 bits. *)
Lemma f64_of_right n : 0 < n < 2 ^ 53 ->
  exists m k, f64_of n = S754_finite false m (- k) /\ Z.pos m = n * 2 ^ k /\ 0 <= k <= 52 /\ 2 ^ 52 <= Z.pos m < 2 ^ 53.
Proof.
  intros Hn. destruct n as [|p|p]; [lia| |lia]. pose proof (Z.log2_spec (Z.pos p) ltac:(lia)) as Hl.
  assert (Hr : 0 <= Z.log2 (Z.pos p) <= 52).
  { split; [apply Z.log2_nonneg|]. apply Z.lt_succ_r, Z.log2_lt_pow2; [lia|]. change (Z.succ 52) with 53. lia. }
  set (l := Z.log2 (Z.pos p)) in *. unfold f64_of, binary_normalize, binary_round.
  assert (Hd : Z.pos (digits2_pos p) = l + 1) by apply digits2_log2.
  rewrite Hd, Z.add_0_r, fexp_normal by lia. set (k := 52 - l).
  assert (Hm : exists m, shl_align p 0 (l + 1 - 53) = (m, - k) /\ Z.pos m = Z.pos p * 2 ^ k).
  { unfold shl_align. replace (l + 1 - 53 - 0) with (- k) by (unfold k; lia). destruct k as [|d|d] eqn:Ek; cbn [Z.opp]; [| |lia].
    - exists p. split; [f_equal; lia|lia].
    - exists (Pos.iter xO p d). split; [f_equal; lia|]. change (Pos.iter xO p d) with (shift_pos d p). rewrite shift_pos_correct.
      rewrite Z.pow_pos_fold. lia. }
  destruct Hm as (m & -> & Hm). exists m, k. assert (Hb : 2 ^ 52 <= Z.pos m < 2 ^ 53).
  { rewrite Hm. assert (Hp : 2 ^ l * 2 ^ k = 2 ^ 52) by (rewrite <- Z.pow_add_r by (unfold k; lia); f_equal; unfold k; lia).
    assert (0 < 2 ^ k) by (apply Z.pow_pos_nonneg; unfold k; lia). rewrite Z.pow_succ_r in Hl by lia. change (2 ^ 53) with (2 * 2 ^ 52). nia. }
  split; [|split; [done|split; [unfold k; lia|done]]].
  unfold binary_round_aux, shr_fexp. rewrite (digits2_bounds _ 52 ltac:(lia) Hb). cbn [shr_record_of_loc].
  rewrite fexp_normal by (unfold k; lia). replace (52 + 1 + - k - 53 - - k) with 0 by lia. cbn [shr shr_m loc_of_shr_record round_nearest_even].
  rewrite (digits2_bounds _ 52 ltac:(lia) Hb), fexp_normal by (unfold k; lia). replace (52 + 1 + - k - 53 - - k) with 0 by lia.
  cbn [shr shr_record_of_loc shr_m]. replace (- k <=? 1024 - 53) with true by (symmetry; apply Z.leb_le; unfold k; lia). done.
Qed.

Lemma new_location_right M r : 0 < M -> 0 <= r < M ->
  new_location M r = if r =? 0 then loc_Exact else loc_Inexact (2 * r ?= M).
Proof.
  intros HM Hr. unfold new_location, new_location_even, new_location_odd. destruct r as [|p|p]; [by destruct (Z.even M)| |lia].
  destruct (Z.even M) eqn:Ev; [reflexivity|]. set (r := Z.pos p) in *.
  assert (Hne : 2 * r <> M) by (intros E; by rewrite <- E, Z.even_mul in Ev).
  assert (E : match 2 * r + 1 ?= M with Lt => Lt | Eq => Lt | Gt => Gt end = (2 * r ?= M)).
  { destruct (Z.compare_spec (2 * r + 1) M), (Z.compare_spec (2 * r) M); try reflexivity; exfalso; lia. }
  exact (f_equal loc_Inexact E).
Qed.

Lemma loc_of_record q l : shr_m (shr_record_of_loc q l) = q /\ loc_of_shr_record (shr_record_of_loc q l) = l.
Proof. by destruct l as [|[]]. Qed.

Lemma shr_1_loc q l : 0 < q -> shr_m (shr_1 (shr_record_of_loc q l)) = q / 2
  /\ loc_of_shr_record (shr_1 (shr_record_of_loc q l))
     = match Z.odd q, l with
       | false, loc_Exact => loc_Exact
       | false, _ => loc_Inexact Lt
       | true, loc_Exact => loc_Inexact Eq
       | true, _ => loc_Inexact Gt
       end.
Proof.
  intros Hq. assert (E : q / 2 = Z.div2 q) by by rewrite Z.div2_div. rewrite E. destruct q as [|p|p]; [lia| |lia].
  by destruct l as [|[]], p.
Qed.

Lemma shr_none m e l : 2 ^ 52 <= m < 2 ^ 53 -> -1021 <= 53 + e -> shr_fexp 53 1024 m e l = (shr_record_of_loc m l, e).
Proof.
  intros Hm He. unfold shr_fexp. rewrite (digits2_bounds _ 52 ltac:(lia) Hm), fexp_normal by lia.
  by replace (52 + 1 + e - 53 - e) with 0 by lia.
Qed.

Lemma shr_one m e l : 2 ^ 53 <= m < 2 ^ 54 -> -1021 <= 53 + e -> shr_fexp 53 1024 m e l = (shr_1 (shr_record_of_loc m l), e + 1).
Proof.
  intros Hm He. unfold shr_fexp. rewrite (digits2_bounds _ 53 ltac:(lia) Hm), fexp_normal by lia.
  by replace (53 + 1 + e - 53 - e) with 1 by lia.
Qed.

(** The last step of a rounding: a mantissa that reached the next power
    of two is one bit shorter. *)
Lemma settle m e : 2 ^ 52 <= m <= 2 ^ 53 -> -1021 <= 53 + e <= 1000 ->
  (let '(mrs, e') := shr_fexp 53 1024 m e loc_Exact in
   match shr_m mrs with
   | Z0 => S754_zero false
   | Zpos m => if Z.leb e' (Z.sub 1024 53) then S754_finite false m e' else S754_infinity false
   | _ => S754_nan
   end) = (if m =? 2 ^ 53 then S754_finite false (2 ^ 52)%positive (e + 1) else S754_finite false (Z.to_pos m) e).
Proof.
  intros Hm He. destruct (Z.eqb_spec m (2 ^ 53)) as [->|Hne].
  - rewrite shr_one by lia. cbn [shr_record_of_loc]. change (shr_m (shr_1 _)) with (Zpos (2 ^ 52)).
    by replace (e + 1 <=? 1024 - 53) with true by (symmetry; apply Z.leb_le; lia).
  - rewrite shr_none by lia. cbn [shr_record_of_loc shr_m]. destruct m as [|p|p]; [lia| |lia].
    by replace (e <=? 1024 - 53) with true by (symmetry; apply Z.leb_le; lia).
Qed.

Lemma round_even_near q l : round_nearest_even q l = q \/ round_nearest_even q l = q + 1.
Proof. destruct l as [|[]]; simpl; auto. destruct (Z.even q); auto. Qed.

(** A quotient rounded: within half a unit of its last place. *)
Lemma round_quotient N M e : 0 < M -> 2 ^ 52 <= N / M < 2 ^ 54 -> -1021 <= 53 + e <= 990 ->
  exists m j, binary_round_aux 53 1024 false (N / M) e (new_location M (N mod M)) = S754_finite false m (e + j)
    /\ 0 <= j <= 2 /\ 2 ^ 52 <= Z.pos m < 2 ^ 53 /\ 2 * Z.abs (Z.pos m * M * 2 ^ j - N) <= M * 2 ^ j.
Proof.
  intros HM Hq He. pose proof (Z.div_mod N M ltac:(lia)) as HN. pose proof (Z.mod_pos_bound N M HM) as Hr.
  set (q := N / M) in *. set (r := N mod M) in *. rewrite new_location_right by done.
  set (l := if r =? 0 then loc_Exact else loc_Inexact (2 * r ?= M)). unfold binary_round_aux.
  assert (Hfin : forall m' j, 2 ^ 52 <= m' <= 2 ^ 53 -> 0 <= j <= 1 -> 2 * Z.abs (m' * M * 2 ^ j - N) <= M * 2 ^ j ->
    exists m j', (if m' =? 2 ^ 53 then S754_finite false (2 ^ 52)%positive (e + j + 1) else S754_finite false (Z.to_pos m') (e + j))
        = S754_finite false m (e + j') /\ 0 <= j' <= 2 /\ 2 ^ 52 <= Z.pos m < 2 ^ 53 /\ 2 * Z.abs (Z.pos m * M * 2 ^ j' - N) <= M * 2 ^ j').
  { intros m' j Hm' Hj Herr. destruct (Z.eqb_spec m' (2 ^ 53)) as [->|Hne].
    - exists (2 ^ 52)%positive, (j + 1). split; [f_equal; lia|]. split; [lia|]. split; [done|]. rewrite Z.pow_add_r by lia.
      change (Z.pos (2 ^ 52)) with (2 ^ 52). change (2 ^ 53) with (2 * 2 ^ 52) in Herr. assert (0 < 2 ^ j) by (apply Z.pow_pos_nonneg; lia).
      change (2 ^ 1) with 2. replace (2 ^ 52 * M * (2 ^ j * 2)) with (2 * 2 ^ 52 * M * 2 ^ j) by ring. nia.
    - exists (Z.to_pos m'), j. rewrite Z2Pos.id by lia. split; [done|]. split; [lia|]. split; [lia|done]. }
  destruct (Z.lt_ge_cases q (2 ^ 53)) as [Hs|Hb].
  - rewrite shr_none by lia. destruct (loc_of_record q l) as [-> ->].
    assert (Hn : 2 ^ 52 <= round_nearest_even q l <= 2 ^ 53) by (destruct (round_even_near q l) as [->| ->]; lia).
    rewrite settle by lia. destruct (Hfin (round_nearest_even q l) 0) as (m & j & E & Hrest); [done|lia| |].
    + rewrite Z.pow_0_r, !Z.mul_1_r. unfold l. destruct (Z.eqb_spec r 0) as [Er|Er]; simpl; [nia|].
      destruct (Z.compare_spec (2 * r) M); [destruct (Z.even q)|..]; nia.
    + rewrite Z.add_0_r in E. by exists m, j.
  - rewrite shr_one by lia. destruct (shr_1_loc q l ltac:(lia)) as [-> ->]. set (l' := match Z.odd q with true => _ | false => _ end).
    assert (Hh : 2 ^ 52 <= q / 2 < 2 ^ 53) by (split; [apply Z.div_le_lower_bound|apply Z.div_lt_upper_bound]; lia).
    assert (Hn : 2 ^ 52 <= round_nearest_even (q / 2) l' <= 2 ^ 53) by (destruct (round_even_near (q / 2) l') as [->| ->]; lia).
    rewrite settle by lia. destruct (Hfin (round_nearest_even (q / 2) l') 1) as (m & j & E & Hrest); [done|lia| |by exists m, j].
    change (2 ^ 1) with 2. pose proof (Z.div_mod q 2 ltac:(lia)) as Hq2. rewrite Zmod_odd in Hq2. set (h := q / 2) in *.
    unfold l', l. destruct (Z.odd q); destruct (Z.eqb_spec r 0) as [Er|Er]; simpl; [destruct (Z.even h)|..]; nia.
Qed.

(** [a / b] for whole numbers: the mantissa is the nearest. *)
Lemma f64_div_right a b : 0 < a < 2 ^ 52 -> 0 < b < 2 ^ 53 ->
  exists m k, f64_div (f64_of a) (f64_of b) = S754_finite false m (- k) /\ 0 <= k /\ 2 ^ 52 <= Z.pos m < 2 ^ 53
    /\ 2 * Z.abs (Z.pos m * b - a * 2 ^ k) <= b.
Proof.
  intros Ha Hb. destruct (f64_of_right a) as (m1 & k1 & -> & E1 & Hk1 & Hm1); [lia|].
  destruct (f64_of_right b) as (m2 & k2 & -> & E2 & Hk2 & Hm2); [lia|].
  assert (Hk1' : 1 <= k1). { destruct (Z.eq_dec k1 0) as [->|]; [|lia]. change (2 ^ 0) with 1 in E1. lia. }
  unfold f64_div, SFdiv, SFdiv_core_binary. rewrite (digits2_bounds _ 52 ltac:(lia) Hm1), (digits2_bounds _ 52 ltac:(lia) Hm2).
  rewrite fexp_normal by lia. replace (Z.min _ _) with (- k1 + k2 - 53) by lia. replace (- k1 - - k2 - (- k1 + k2 - 53)) with 53 by lia.
  cbv beta iota. rewrite Z.shiftl_mul_pow2 by lia. set (N := Z.pos m1 * 2 ^ 53). set (M := Z.pos m2) in *.
  pose proof (Z.div_eucl_eq N M ltac:(lia)) as _. rewrite (surjective_pairing (Z.div_eucl N M)).
  change (fst (Z.div_eucl N M)) with (N / M). change (snd (Z.div_eucl N M)) with (N mod M). cbn [xorb].
  destruct (round_quotient N M (- k1 + k2 - 53)) as (m & j & E & Hj & Hm & Herr); [lia| |lia|].
  { unfold N. split; [apply Z.div_le_lower_bound; [lia|]|apply Z.div_lt_upper_bound; [lia|]].
    - assert (M <= 2 * Z.pos m1) by lia. change (2 ^ 53) with (2 * 2 ^ 52). nia.
    - change (2 ^ 54) with (2 * 2 ^ 53). assert (Z.pos m1 < 2 * M) by lia. nia. }
  exists m, (k1 - k2 + 53 - j). rewrite E. split; [f_equal; lia|]. split; [lia|]. split; [done|].
  assert (Hp : 2 ^ j * 2 ^ k2 * 2 ^ (k1 - k2 + 53 - j) = 2 ^ k1 * 2 ^ 53).
  { rewrite <- !Z.pow_add_r by lia. f_equal. lia. }
  set (u := 2 ^ j * 2 ^ k2) in *. assert (0 < u) by (unfold u; pose proof (Z.pow_pos_nonneg 2 j); pose proof (Z.pow_pos_nonneg 2 k2); nia).
  set (v := 2 ^ (k1 - k2 + 53 - j)) in *. assert (EN : N = a * (u * v)) by (unfold N; rewrite E1, Hp; ring).
  assert (EM : M * 2 ^ j = b * u) by (rewrite E2; unfold u; ring).
  replace (Z.pos m * M * 2 ^ j) with (Z.pos m * (b * u)) in Herr by (rewrite <- EM; ring). rewrite EM, EN in Herr.
  replace (Z.pos m * (b * u) - a * (u * v)) with ((Z.pos m * b - a * v) * u) in Herr by ring.
  rewrite Z.abs_mul, (Z.abs_eq u) in Herr by lia. nia.
Qed.

Lemma f64_gt_right m k c j : f64_gt (S754_finite false m (- k)) (S754_finite false c (- j))
  = ((k <? j) || ((k =? j) && (Z.pos c <? Z.pos m))).
Proof.
  assert (E : f64_gt (S754_finite false m (- k)) (S754_finite false c (- j))
    = match (- j ?= - k) with Lt => true | Gt => false | Eq => match (c ?= m)%positive with Lt => true | _ => false end end).
  { unfold f64_gt, SFltb, SFcompare. change (Corelib.BinNums.IntDef.Z.compare (- j) (- k)) with (- j ?= - k).
    destruct (- j ?= - k); reflexivity. }
  rewrite E. destruct (Z.compare_spec (- j) (- k)); destruct (Z.ltb_spec k j); destruct (Z.eqb_spec k j); try lia; cbn [orb andb]; try done.
Qed.

(** A rounded quotient is past 500 when the quotient is, and past the
    [f64] nearest to a tenth when the quotient is past a tenth. *)
Definition five_hundred : f64 := f64_of 500.
Definition tenth : f64 := f64_div (f64_of 1) (f64_of 10).

Theorem past_five_hundred a b : 0 < a < 2 ^ 52 -> 0 < b < 2 ^ 44 -> f64_gt (f64_div (f64_of a) (f64_of b)) five_hundred = (500 * b <? a).
Proof.
  intros Ha Hb. destruct (f64_div_right a b) as (m & k & -> & Hk & Hm & Herr); [lia|lia|].
  replace five_hundred with (S754_finite false 8796093022208000 (Z.opp 44)) by by vm_compute. rewrite f64_gt_right.
  destruct (Z.ltb_spec k 44) as [Hlt|Hge]; cbn [orb].
  - symmetry. apply Z.ltb_lt. assert (2 ^ k <= 2 ^ 43) by (apply Z.pow_le_mono_r; lia). change (2 ^ 43) with 8796093022208 in *.
    change (2 ^ 52) with 4503599627370496 in *. change (2 ^ 53) with 9007199254740992 in *. nia.
  - destruct (Z.eqb_spec k 44) as [->|Hne]; cbn [andb].
    + change (2 ^ 44) with 17592186044416 in *. destruct (Z.ltb_spec (Z.pos 8796093022208000) (Z.pos m)); destruct (Z.ltb_spec (500 * b) a); nia.
    + symmetry. apply Z.ltb_ge. assert (2 ^ 45 <= 2 ^ k) by (apply Z.pow_le_mono_r; lia). change (2 ^ 45) with 35184372088832 in *.
      change (2 ^ 53) with 9007199254740992 in *. nia.
Qed.

Theorem past_a_tenth a b : 0 < a < 2 ^ 52 -> 0 < b < 2 ^ 51 -> f64_gt (f64_div (f64_of a) (f64_of b)) tenth = (b <? 10 * a).
Proof.
  intros Ha Hb. destruct (f64_div_right a b) as (m & k & -> & Hk & Hm & Herr); [lia|lia|].
  replace tenth with (S754_finite false 7205759403792794 (Z.opp 56)) by by vm_compute. rewrite f64_gt_right.
  destruct (Z.ltb_spec k 56) as [Hlt|Hge]; cbn [orb].
  - symmetry. apply Z.ltb_lt. assert (2 ^ k <= 2 ^ 55) by (apply Z.pow_le_mono_r; lia). change (2 ^ 55) with 36028797018963968 in *.
    change (2 ^ 52) with 4503599627370496 in *. change (2 ^ 53) with 9007199254740992 in *. nia.
  - destruct (Z.eqb_spec k 56) as [->|Hne]; cbn [andb].
    + change (2 ^ 56) with 72057594037927936 in *. change (2 ^ 51) with 2251799813685248 in *.
      destruct (Z.ltb_spec (Z.pos 7205759403792794) (Z.pos m)); destruct (Z.ltb_spec b (10 * a)); nia.
    + symmetry. apply Z.ltb_ge. assert (2 ^ 57 <= 2 ^ k) by (apply Z.pow_le_mono_r; lia). change (2 ^ 57) with 144115188075855872 in *.
      change (2 ^ 53) with 9007199254740992 in *. nia.
Qed.
