(* ===== verification/TxExtras.v ===== *)
(** [wallet/tx_extras.rs]: what every view shows of a transaction beyond
    its summary, and the transactions of the bitcoin crate as the other
    files read them. *)
From S2P Require Import Prelude Utf8 Text Network Lock.
From Stdlib Require Import Ascii.

(** ** Transactions

    The structs of the bitcoin crate: a script and an element of a witness
    are bytes, a txid its text, an amount satoshis. *)

Record OutPoint := { op_txid : string; vout : Z }.
Record TxOut := { value : Z; script_pubkey : list Z }.
Record TxIn := { previous_output : OutPoint; script_sig : list Z; sequence : Z; witness : list (list Z) }.
Record Transaction := { tx_version : Z; lock_time : Z; input : list TxIn; output : list TxOut }.

#[export] Instance OutPoint_eq_dec : EqDecision OutPoint.
Proof. solve_decision. Defined.
#[export] Instance TxOut_eq_dec : EqDecision TxOut.
Proof. solve_decision. Defined.

#[export] Program Instance OutPoint_countable : Countable OutPoint :=
  inj_countable' (fun o => (op_txid o, vout o)) (fun p => {| op_txid := p.1; vout := p.2 |}) _.
Next Obligation. by intros []. Qed.

(** [script::Instruction], an [Op] whatever it is. *)
Inductive Instruction := PushBytes (bytes : list Z) | Op.

(** What the crate computes of them; and [char::is_alphanumeric] of the
    standard library, a table of Unicode. *)
Class Transactions := {
  compute_txid : Transaction -> string;
  tx_vsize : Transaction -> Z;
  tx_weight : Transaction -> Z;
  total_size : Transaction -> Z;
  base_size : Transaction -> Z;
  serialize_hex : Transaction -> string;
  is_explicitly_rbf : Transaction -> bool;
  is_lock_time_enabled : Transaction -> bool;
  is_coinbase : Transaction -> bool;
  total_sigop_cost : Transaction -> (OutPoint -> option TxOut) -> Z;
  is_op_return : list Z -> bool;
  is_p2tr : list Z -> bool;
  instructions : list Z -> list (result Instruction unit);
  from_script : Network -> list Z -> option string;
  is_alphanumeric : code_point -> bool;
}.

(** ** The facts *)

Record OpReturnData := { or_hex : string; or_text : option string; or_label : option string }.

Definition OP_RETURN_TAGS : list (string * string) :=
  [("aa21a9ed", "Witness commitment");
   ("52534b424c4f434b3a", "RSK merge mining");
   ("6f6d6e69", "Omni Layer");
   ("444f4350524f4f46", "Proof of existence")].

Definition POOL_TAGS : list (string * string) :=
  [("foundry", "Foundry USA"); ("antpool", "AntPool"); ("f2pool", "F2Pool"); ("viabtc", "ViaBTC");
   ("spiderpool", "SpiderPool"); ("mara", "MARA Pool"); ("luxor", "Luxor"); ("braiins", "Braiins Pool");
   ("slush", "Braiins Pool"); ("binance", "Binance Pool"); ("btc.com", "BTC.com"); ("poolin", "Poolin");
   ("sbicrypto", "SBI Crypto"); ("ocean.xyz", "OCEAN"); ("secpool", "SECPOOL"); ("emcd", "EMCD");
   ("carbonnegative", "Carbon Negative"); ("ultimus", "ULTIMUSPOOL")].

Definition is_bidi_control (c : code_point) : bool :=
  ((c =? 0x061C) || (c =? 0x200E) || (c =? 0x200F) || (c =? 0x2028) || (c =? 0x2029))%N
  || between 0x202A 0x202E c || between 0x2066 0x2069 c.

(** The data pushes of a script, one after the other; none when it does
    not parse. *)
Fixpoint pushes (l : list (result Instruction unit)) : option (list Z) :=
  match l with
  | [] => Some []
  | Ok (PushBytes push) :: l => option_map (app push) (pushes l)
  | Ok Op :: l => pushes l
  | Err _ :: _ => None
  end.

(** [u8::is_ascii_graphic], or a space. *)
Definition is_printable (b : Z) : bool := (33 <=? b) && (b <=? 126) || (b =? 32).

(** [bip34_height]: a little-endian number of one to four bytes. *)
Definition bip34_height (script : list Z) : option Z :=
  match script with
  | [] => None
  | len :: rest =>
    if (len =? 0) || (4 <? len) || (Z.of_nat (length script) <? 1 + len) then None
    else Some (foldr (fun byte height => Z.lor byte (Z.shiftl height 8)) 0 (take (Z.to_nat len) rest))
  end.

(** The loop of [printable_run]: the longest run, the first of them. *)
Fixpoint longest_run (script best current : list Z) : list Z :=
  let better := if (length best <? length current)%nat then current else best in
  match script with
  | [] => better
  | byte :: script => if is_printable byte then longest_run script best (current ++ [byte]) else longest_run script better []
  end.

Definition pool_of (script : list Z) : option string :=
  let ascii := lower (of_bytes (List.map (fun b => if is_printable b then b else 32) script)) in
  option_map snd (List.find (fun tag => contains tag.1 ascii) POOL_TAGS).

Record TxExtras := {
  size_bytes : Z;
  vsize : Z;
  weight_wu : Z;
  version : Z;
  locktime : Z;
  rbf_signaled : bool;
  segwit : bool;
  taproot : bool;
  x_is_coinbase : bool;
  coinbase_pool : option string;
  coinbase_height : option Z;
  coinbase_tag : option string;
  sigops : Z;
  raw_hex : string;
}.

Section Facts.
Context `{Transactions}.

Definition op_return_of (script : list Z) : option OpReturnData :=
  if negb (is_op_return script) then None
  else
    let bytes := match pushes (instructions script) with
                 | Some ((_ :: _) as bytes) => bytes
                 | _ => drop 1 script
                 end in
    let hex := hex bytes in
    let shows s := (2 <=? length (chars s))%nat && all (fun c => negb (is_control c) && negb (is_bidi_control c)) (chars s)
                   && any is_alphanumeric (chars s) in
    Some {| or_hex := hex;
            or_text := match from_utf8 bytes with Some s => if shows s then Some s else None | None => None end;
            or_label := option_map snd (List.find (fun tag => starts_with tag.1 hex) OP_RETURN_TAGS) |}.

Definition printable_run (script : list Z) : option string :=
  let trimmed := trim (of_bytes (longest_run script [] [])) in
  if (4 <=? length (chars trimmed))%nat && any is_alphanumeric (chars trimmed) then Some trimmed else None.

Definition analyze (tx : Transaction) (prevout : OutPoint -> option TxOut) : TxExtras :=
  let is_coinbase := is_coinbase tx in
  let coinbase_sig := if is_coinbase then match input tx with vin :: _ => Some (script_sig vin) | [] => None end else None in
  let of_sig {A} (f : list Z -> option A) := match coinbase_sig with Some sig => f sig | None => None end in
  {| size_bytes := total_size tx;
     vsize := tx_vsize tx;
     weight_wu := tx_weight tx;
     version := tx_version tx;
     locktime := lock_time tx;
     rbf_signaled := negb is_coinbase && is_explicitly_rbf tx;
     segwit := any (fun vin => negb (bool_decide (witness vin = []))) (input tx);
     taproot := any (fun vin => match prevout (previous_output vin) with Some p => is_p2tr (script_pubkey p) | None => false end) (input tx);
     x_is_coinbase := is_coinbase;
     coinbase_pool := of_sig pool_of;
     coinbase_height := of_sig bip34_height;
     coinbase_tag := of_sig printable_run;
     sigops := total_sigop_cost tx prevout;
     raw_hex := serialize_hex tx |}.
End Facts.

(** ** What they promise *)

Section Promises.
Context `{Transactions}.

(** What is shown as the text of a payload is the payload itself, and
    nothing in it controls a screen or turns around the text beside it. *)
Theorem op_return_text_is_safe script data s : op_return_of script = Some data -> or_text data = Some s ->
  valid_utf8 s /\ (exists payload, of_bytes payload = s /\ or_hex data = hex payload)
  /\ (2 <= length (chars s))%nat /\ forall c, In c (chars s) -> is_control c = false /\ is_bidi_control c = false.
Proof.
  unfold op_return_of. destruct (negb (is_op_return script)); [done|]. set (payload := match pushes _ with Some _ => _ | None => _ end).
  intros [= <-]. cbn [or_text or_hex]. unfold from_utf8. destruct (is_utf8 (of_bytes payload)) eqn:Eu; [|done].
  destruct (_ && _) eqn:Ec; [|done]. intros [= <-]. apply andb_true_iff in Ec as [[Hl Hc]%andb_true_iff _].
  split; [by apply is_utf8_right|]. split; [by exists payload|]. split; [by apply Nat.leb_le|]. intros c Hin.
  apply (proj1 (all_true _ _)) with (x := c) in Hc; [|done]. apply andb_true_iff in Hc as [H1%negb_true_iff H2%negb_true_iff]. done.
Qed.

(** The bytes of a number, the least first. *)
Fixpoint le_bytes (n : nat) (h : Z) : list Z :=
  match n with O => [] | S n => h mod 256 :: le_bytes n (h / 256) end.

Lemma le_bytes_length n h : length (le_bytes n h) = n.
Proof. revert h. induction n as [|n IH]; intros h; simpl; [done|]. by rewrite IH. Qed.

Lemma le_bytes_read n h : 0 <= h < 256 ^ Z.of_nat n ->
  foldr (fun byte height => Z.lor byte (Z.shiftl height 8)) 0 (le_bytes n h) = h.
Proof.
  revert h. induction n as [|n IH]; intros h Hh; [simpl in *; lia|]. cbn [le_bytes foldr].
  rewrite Nat2Z.inj_succ, Z.pow_succ_r in Hh by lia. rewrite IH by (Z.div_mod_to_equations; nia).
  rewrite Z.shiftl_mul_pow2 by lia. change (2 ^ 8) with 256. rewrite Z.lor_comm.
  assert (Hdisj : Z.land (h / 256 * 256) (h mod 256) = 0); [|rewrite <- Z.lxor_lor, <- Z.add_nocarry_lxor by done; pose proof (Z.div_mod h 256); lia].
  apply Z.bits_inj'. intros i Hi. rewrite Z.land_spec, Z.bits_0. apply andb_false_iff.
  destruct (Z.ltb_spec i 8).
  - left. change 256 with (2 ^ 8). by rewrite Z.mul_pow2_bits_low.
  - right. pose proof (Z.mod_pos_bound h 256 ltac:(lia)). apply Z.bits_above_log2; [lia|].
    destruct (Z.eq_dec (h mod 256) 0) as [->|]; [simpl; lia|]. apply Z.log2_lt_pow2; [lia|].
    apply Z.lt_le_trans with (2 ^ 8); [change (2 ^ 8) with 256; lia|]. by apply Z.pow_le_mono_r; lia.
Qed.

(** The height a block commits to is the one read from its coinbase. *)
Theorem bip34_height_read n h rest : (1 <= n <= 4)%nat -> 0 <= h < 256 ^ Z.of_nat n ->
  bip34_height (Z.of_nat n :: le_bytes n h ++ rest) = Some h.
Proof.
  intros Hn Hh. unfold bip34_height. rewrite (proj2 (Z.eqb_neq _ _)), (proj2 (Z.ltb_ge _ _)) by lia. cbn [orb].
  replace (_ <? _) with false by (symmetry; apply Z.ltb_ge; cbn [length]; rewrite length_app, le_bytes_length; lia).
  rewrite Nat2Z.id, take_app_length' by (symmetry; apply le_bytes_length). by rewrite le_bytes_read.
Qed.

Definition is_run (r script : list Z) : Prop := exists pre post, script = pre ++ r ++ post /\ all is_printable r = true.

(** [seen] is what was read: [best] the longest run of it, [current] the
    one it ends with. *)
Lemma longest_run_right script seen best current :
  is_run best (seen ++ current) -> all is_printable current = true ->
  (forall r, is_run r (seen ++ current) -> (length r <= Nat.max (length best) (length current))%nat) ->
  (seen = [] \/ exists s b, seen = s ++ [b] /\ is_printable b = false) ->
  is_run (longest_run script best current) (seen ++ current ++ script)
  /\ forall r, is_run r (seen ++ current ++ script) -> (length r <= length (longest_run script best current))%nat.
Proof.
  revert seen best current. induction script as [|byte script IH]; intros seen best current Hb Hc Hall Hend.
  - rewrite app_nil_r. simpl. destruct (Nat.ltb_spec (length best) (length current)).
    + split; [exists seen, []; by rewrite app_nil_r|]. intros r Hr. specialize (Hall r Hr). lia.
    + split; [done|]. intros r Hr. specialize (Hall r Hr). lia.
  - simpl. destruct (is_printable byte) eqn:Ep.
    + replace (current ++ byte :: script) with ((current ++ [byte]) ++ script) by by rewrite <- app_assoc.
      apply IH; [| |  |done].
      * destruct Hb as (pre & post & E & Hbp). exists pre, (post ++ [byte]). split; [|done]. by rewrite app_assoc, E, <- !app_assoc.
      * rewrite all_app, Hc. simpl. by rewrite Ep.
      * intros r (pre & post & E & Hr). rewrite length_app. simpl. destruct post as [|x post _] using rev_ind.
        -- assert (Hlen : (length r <= S (length current))%nat).
           { rewrite app_nil_r in E. rewrite app_assoc in E. destruct r as [|y r _] using rev_ind; [simpl; lia|]. rewrite app_assoc in E.
             apply app_inj_tail in E as [E _]. destruct Hend as [->|(s & b & -> & Hnb)].
             - simpl in E. subst current. rewrite !length_app. simpl. lia.
             - rewrite !length_app. simpl. destruct (le_lt_dec (length r) (length current)) as [|Hlt]; [lia|]. exfalso.
               assert (Hin : In b r).
               { apply (f_equal (fun l => l !! length s)) in E as E'. rewrite <- app_assoc, lookup_app_r, Nat.sub_diag in E' by lia. simpl in E'.
                 symmetry in E'. apply (f_equal length) in E as El. rewrite !length_app in El. simpl in El.
                 rewrite lookup_app_r in E' by lia. by apply list_elem_of_In, (list_elem_of_lookup_2 _ _ _ E'). }
               rewrite all_app in Hr. apply andb_true_iff in Hr as [Hr _]. rewrite (proj1 (all_true _ _) Hr b Hin) in Hnb. done. }
           lia.
        -- rewrite !app_assoc in E. apply app_inj_tail in E as [E _]. enough (length r <= Nat.max (length best) (length current))%nat by lia.
           apply Hall. exists pre, post. by rewrite app_assoc.
    + replace (seen ++ current ++ byte :: script) with ((seen ++ current ++ [byte]) ++ [] ++ script) by (by rewrite <- !app_assoc).
      assert (Hgrow : forall r, is_run r (seen ++ current) -> is_run r ((seen ++ current ++ [byte]) ++ [])).
      { intros r (pre & post & E & Hr). exists pre, (post ++ [byte]). split; [|done]. by rewrite app_nil_r, !app_assoc, E, <- !app_assoc. }
      apply IH; [|done| |right; exists (seen ++ current), byte; by rewrite app_assoc].
      * destruct (length best <? length current)%nat; apply Hgrow; [|done]. exists seen, []. by rewrite app_nil_r.
      * intros r (pre & post & E & Hr). rewrite app_nil_r in E.
        enough (length r <= Nat.max (length best) (length current))%nat by (destruct (Nat.ltb_spec (length best) (length current)); simpl; lia).
        destruct post as [|x post _] using rev_ind.
        -- destruct r as [|y r _] using rev_ind; [simpl; lia|]. rewrite app_nil_r, !app_assoc in E. apply app_inj_tail in E as [_ <-].
           rewrite all_app in Hr. simpl in Hr. by rewrite Ep, andb_false_r in Hr.
        -- rewrite !app_assoc in E. apply app_inj_tail in E as [E _]. apply Hall. exists pre, post. by rewrite app_assoc.
Qed.

(** The tag of a miner comes from the longest printable run of its
    script. *)
Theorem printable_run_longest script : is_run (longest_run script [] []) script
  /\ forall r, is_run r script -> (length r <= length (longest_run script [] []))%nat.
Proof.
  apply (longest_run_right script [] [] []); [by exists [], []|done| |by left].
  intros r (pre & post & E & _). destruct pre, r; simpl in *; [lia|done..].
Qed.
End Promises.
