(* ===== verification/Signing.v ===== *)
(** [broadcast/signing.rs]: what a transaction weighs once signed, before
    it is. Keys, scripts and descriptors are the bitcoin crate's and
    miniscript's; the PSBT's word about a coin is its author's, and is
    read only where the coin's script commits to it. *)
From S2P Require Import Prelude TxExtras.

(** ** Other crates *)

(** Keys, keys of taproot, control blocks; a descriptor; a miniscript for
    each kind of script. *)
Class Scripts := {
  PublicKey : Type;
  XOnly : Type;
  TapNodeHash : Type;
  ControlBlock : Type;
  Descriptor : Type;
  SegwitMs : Type;
  LegacyMs : Type;
  TapMs : Type;
  is_p2wpkh : list Z -> bool;
  is_p2pkh : list Z -> bool;
  is_p2tr_script : list Z -> bool;
  is_p2wsh : list Z -> bool;
  is_p2sh : list Z -> bool;
  p2pkh_of : PublicKey -> list Z;
  p2wsh_of : list Z -> list Z;
  p2sh_of : list Z -> list Z;
  any_key : option PublicKey;
  new_wpkh : PublicKey -> option Descriptor;
  new_pkh : PublicKey -> option Descriptor;
  new_sh_wpkh : PublicKey -> option Descriptor;
  new_wsh : SegwitMs -> option Descriptor;
  new_sh_wsh : SegwitMs -> option Descriptor;
  new_sh : LegacyMs -> option Descriptor;
  parse_segwit : list Z -> option SegwitMs;
  parse_legacy : list Z -> option LegacyMs;
  parse_tap : list Z -> option TapMs;
  max_weight_to_satisfy : Descriptor -> option Z;
  is_segwit : Descriptor -> bool;
  x_only_from_slice : list Z -> option XOnly;
  tap_tweak_alone : XOnly -> XOnly;
  verify_taproot_commitment : ControlBlock -> XOnly -> list Z -> bool;
  control_size : ControlBlock -> Z;
  max_satisfaction_witness_elements : TapMs -> option Z;
  max_satisfaction_size : TapMs -> option Z;
  VarInt_size : Z -> Z;
  witness_size : list (list Z) -> Z;
}.

Record Satisfaction := { weight : Z; in_witness : bool }.

Definition PLAUSIBLE_HEAVIEST : Satisfaction := {| weight := 4 * 1650; in_witness := false |}.

Section Signing.
Context `{Scripts}.

Record SigningHints := {
  redeem_script : option (list Z);
  witness_script : option (list Z);
  tap_leaves : list (list Z * ControlBlock);
  tap_internal_key : option XOnly;
  tap_merkle_root : option TapNodeHash;
  keys : list PublicKey;
}.

Definition no_hints : SigningHints :=
  {| redeem_script := None; witness_script := None; tap_leaves := []; tap_internal_key := None; tap_merkle_root := None; keys := [] |}.

Definition of_descriptor (descriptor : Descriptor) : option Satisfaction :=
  match max_weight_to_satisfy descriptor with
  | Some weight => Some {| weight := weight; in_witness := is_segwit descriptor |}
  | None => None
  end.

(** [Satisfaction::of_final]. *)
Definition of_final (script_sig : option (list Z)) (witness : option (list (list Z))) : Satisfaction :=
  let script_len := match script_sig with Some s => Z.of_nat (length s) | None => 0 end in
  let script_growth := script_len + VarInt_size script_len - 1 in
  let witness_growth := match witness with Some w => sat_sub (witness_size w) 1 | None => 0 end in
  {| weight := 4 * script_growth + witness_growth;
     in_witness := match witness with Some w => negb (bool_decide (w = [])) | None => false end |}.

Definition satisfaction_of (descriptor : option Descriptor) : option Satisfaction :=
  match descriptor with Some d => of_descriptor d | None => None end.

(** A script of the PSBT, where the coin's hash commits to it. *)
Definition committed (hash : list Z -> list Z) (script : option (list Z)) (spent : list Z) : option (list Z) :=
  match script with
  | Some script => if bool_decide (hash script = spent) then Some script else None
  | None => None
  end.

(** The weight of one leaf. *)
Definition leaf_weight (output_key : XOnly) (leaf : list Z * ControlBlock) : option Z :=
  let '(script, control) := leaf in
  if negb (verify_taproot_commitment control output_key script) then None
  else
    match parse_tap script with
    | None => None
    | Some ms =>
      match max_satisfaction_witness_elements ms, max_satisfaction_size ms with
      | Some elements, Some size =>
        let control := control_size control in
        let script_size := Z.of_nat (length script) in
        Some (VarInt_size (elements + 1) - VarInt_size 0 + size + VarInt_size script_size + script_size
              + VarInt_size control + control)
      | _, _ => None
      end
    end.

Fixpoint heaviest_leaf (output_key : XOnly) (heaviest : Z) (leaves : list (list Z * ControlBlock)) : option Z :=
  match leaves with
  | [] => Some heaviest
  | leaf :: leaves =>
    match leaf_weight output_key leaf with
    | Some weight => heaviest_leaf output_key (Z.max heaviest weight) leaves
    | None => None
    end
  end.

Definition key_path : Z := VarInt_size 1 - VarInt_size 0 + 1 + 65.

Context `{EqDecision XOnly}.

Definition taproot (spent : list Z) (hints : SigningHints) : option Satisfaction :=
  match (if (length spent <? 34)%nat then None else x_only_from_slice (take 32 (drop 2 spent))) with
  | None => None
  | Some output_key =>
    let only_path :=
      match tap_leaves hints with
      | [] =>
        match tap_internal_key hints, tap_merkle_root hints with
        | Some internal, None => bool_decide (tap_tweak_alone internal = output_key)
        | _, _ => false
        end
      | _ => true
      end in
    if negb only_path then None
    else
      match heaviest_leaf output_key key_path (tap_leaves hints) with
      | Some heaviest => Some {| weight := heaviest; in_witness := true |}
      | None => None
      end
  end.

Definition estimated (spent : list Z) (hints : SigningHints) : option Satisfaction :=
  match any_key with
  | None => None
  | Some key =>
    if is_p2wpkh spent then satisfaction_of (new_wpkh key)
    else if is_p2pkh spent then
      match List.find (fun key => bool_decide (p2pkh_of key = spent)) (keys hints) with
      | Some named => satisfaction_of (new_pkh named)
      | None => None
      end
    else if is_p2tr_script spent then taproot spent hints
    else if is_p2wsh spent then
      match committed p2wsh_of (witness_script hints) spent with
      | Some script => match parse_segwit script with Some ms => satisfaction_of (new_wsh ms) | None => None end
      | None => None
      end
    else if is_p2sh spent then
      match committed p2sh_of (redeem_script hints) spent with
      | None => None
      | Some redeem =>
        if is_p2wpkh redeem then satisfaction_of (new_sh_wpkh key)
        else if is_p2wsh redeem then
          match committed p2wsh_of (witness_script hints) redeem with
          | Some script => match parse_segwit script with Some ms => satisfaction_of (new_sh_wsh ms) | None => None end
          | None => None
          end
        else match parse_legacy redeem with Some ms => satisfaction_of (new_sh ms) | None => None end
      end
    else None
  end.

(** [weight_once_signed]. *)
Definition weight_once_signed `{Transactions} (tx : Transaction) (missing : list (option Satisfaction)) : Z :=
  let lacking := omap (fun need => need) missing in
  let segwit := any (fun input => negb (bool_decide (witness input = []))) (input tx) || any in_witness lacking in
  let base := 4 * base_size tx in
  let witnesses := if segwit then 2 + foldr Z.add 0 (List.map (fun input => witness_size (witness input)) (input tx)) else 0 in
  base + witnesses + foldr Z.add 0 (List.map weight lacking).

(** ** What is read of a PSBT *)

(** What the author of a PSBT says that the coin's script commits to. *)
Definition believed (spent : list Z) (hints : SigningHints) : SigningHints :=
  let redeem := committed p2sh_of (redeem_script hints) spent in
  {| redeem_script := redeem;
     witness_script :=
       match committed p2wsh_of (witness_script hints) spent with
       | Some script => Some script
       | None => match redeem with Some redeem => committed p2wsh_of (witness_script hints) redeem | None => None end
       end;
     tap_leaves := tap_leaves hints; tap_internal_key := tap_internal_key hints; tap_merkle_root := tap_merkle_root hints;
     keys := retain (fun key => bool_decide (p2pkh_of key = spent)) (keys hints) |}.

Lemma committed_again hash script spent : committed hash (committed hash script spent) spent = committed hash script spent.
Proof. unfold committed. destruct script as [script|]; [|done]. destruct (bool_decide _) eqn:E; [|done]. by rewrite E. Qed.

Lemma committed_Some hash script spent s : committed hash script spent = Some s -> script = Some s /\ hash s = spent.
Proof. unfold committed. destruct script as [script|]; [|done]. case_bool_decide; [|done]. intros [= ->]. done. Qed.

Lemma find_retain {A} (f : A -> bool) l : List.find f (retain f l) = List.find f l.
Proof. induction l as [|x l IH]; simpl; [done|]. destruct (f x) eqn:E; simpl; [by rewrite E|done]. Qed.

(** What the PSBT says that the coin does not commit to changes nothing:
    it can be left out, and what is estimated is the same. *)
Theorem estimate_reads_what_is_committed spent hints : estimated spent hints = estimated spent (believed spent hints).
Proof.
  unfold estimated. destruct any_key as [key|]; [|done]. destruct (is_p2wpkh spent); [done|]. destruct (is_p2pkh spent); [by cbn [keys believed]; rewrite find_retain|].
  destruct (is_p2tr_script spent); [done|]. cbn [believed redeem_script witness_script]. destruct (is_p2wsh spent).
  - destruct (committed p2wsh_of (witness_script hints) spent) as [script|] eqn:Ew.
    + apply committed_Some in Ew as [_ Ew]. unfold committed. by rewrite bool_decide_true.
    + destruct (committed p2sh_of (redeem_script hints) spent) as [redeem|]; [|done].
      destruct (committed p2wsh_of (witness_script hints) redeem) as [script|] eqn:Er; [|done].
      apply committed_Some in Er as [Er _]. rewrite Er in Ew. unfold committed in *. by destruct (bool_decide (p2wsh_of script = spent)).
  - destruct (is_p2sh spent); [|done]. rewrite committed_again.
    destruct (committed p2sh_of (redeem_script hints) spent) as [redeem|]; [|done]. destruct (is_p2wpkh redeem); [done|].
    destruct (is_p2wsh redeem); [|done]. destruct (committed p2wsh_of (witness_script hints) redeem) as [script|] eqn:Er.
    + apply committed_Some in Er as [Er Eh]. destruct (committed p2wsh_of (witness_script hints) spent) as [script'|] eqn:Ew.
      * apply committed_Some in Ew as [Ew _]. rewrite Er in Ew. injection Ew as <-. unfold committed. by rewrite bool_decide_true.
      * unfold committed. by rewrite bool_decide_true.
    + destruct (committed p2wsh_of (witness_script hints) spent) as [script'|] eqn:Ew; [|done].
      apply committed_Some in Ew as [Ew _]. rewrite Ew in Er. unfold committed in *. by destruct (bool_decide (p2wsh_of script' = redeem)).
Qed.

Lemma heaviest_leaf_right output_key leaves heaviest w : heaviest_leaf output_key heaviest leaves = Some w ->
  heaviest <= w /\ (forall leaf, In leaf leaves -> exists v, leaf_weight output_key leaf = Some v /\ v <= w)
  /\ (w = heaviest \/ exists leaf, In leaf leaves /\ leaf_weight output_key leaf = Some w).
Proof.
  revert heaviest. induction leaves as [|leaf leaves IH]; intros heaviest; simpl; [intros [= <-]; split; [lia|]; split; [done|by left]|].
  destruct (leaf_weight output_key leaf) as [v|] eqn:Ev; [|done]. intros Hw. destruct (IH _ Hw) as (Hle & Hall & Hex).
  split; [lia|]. split.
  - intros l [<-|Hl]; [exists v; split; [done|lia]|by apply Hall].
  - destruct Hex as [E|(l & Hl & E)]; [|right; exists l; auto]. destruct (Z.max_spec heaviest v) as [[_ Em]|[_ Em]]; rewrite Em in E; [|by left].
    right. exists leaf. split; [by left|congruence].
Qed.

(** A taproot coin is counted at the heaviest of its ways to be spent
    that the PSBT reveals, every one of them shown to be the coin's; and
    at its key alone only when the PSBT shows there is no other way. *)
Theorem taproot_counts_the_heaviest spent hints s : taproot spent hints = Some s ->
  exists output_key, x_only_from_slice (take 32 (drop 2 spent)) = Some output_key /\ in_witness s = true /\ key_path <= weight s
  /\ (forall leaf, In leaf (tap_leaves hints) ->
       verify_taproot_commitment leaf.2 output_key leaf.1 = true /\ exists v, leaf_weight output_key leaf = Some v /\ v <= weight s)
  /\ (weight s = key_path \/ exists leaf, In leaf (tap_leaves hints) /\ leaf_weight output_key leaf = Some (weight s))
  /\ (tap_leaves hints = [] -> exists internal, tap_internal_key hints = Some internal /\ tap_tweak_alone internal = output_key).
Proof.
  unfold taproot. destruct (length spent <? 34)%nat; [done|]. destruct (x_only_from_slice _) as [output_key|]; [|done].
  destruct (negb _) eqn:Eo; [done|]. destruct (heaviest_leaf _ _ _) as [w|] eqn:Ew; [|done]. intros [= <-]. exists output_key. cbn [weight in_witness].
  destruct (heaviest_leaf_right _ _ _ _ Ew) as (Hle & Hall & Hex). split; [done|]. split; [done|]. split; [done|]. split; [|split; [done|]].
  - intros leaf Hl. destruct (Hall leaf Hl) as (v & Ev & Hv). split; [|by exists v]. destruct leaf as [script control]. unfold leaf_weight in Ev.
    cbn [fst snd]. by destruct (verify_taproot_commitment control output_key script) eqn:E.
  - intros E. rewrite E in Eo. destruct (tap_internal_key hints) as [internal|]; [|done]. destruct (tap_merkle_root hints); [done|].
    apply negb_false_iff, bool_decide_eq_true in Eo. by exists internal.
Qed.
End Signing.
