(* ===== verification/Endpoints.v ===== *)
(** [chain/public.rs] and the choice of servers of [chain/mod.rs] and
    [watch/mod.rs]: the catalogue of the public servers, the endpoints of
    a backend in the order they are tried, those of a watch, the order a
    transaction is sent in; and the amounts a server may claim. *)
From S2P Require Import Prelude Utf8 Text Errors Network Store Xpub Connect TxExtras.
From Stdlib Require Import Ascii.

(** ** The catalogue *)

Module ServerProtocol.
Inductive ServerProtocol := Esplora | Electrum.
End ServerProtocol.
Export ServerProtocol (ServerProtocol).

#[export] Instance ServerProtocol_eq_dec : EqDecision ServerProtocol.
Proof. solve_decision. Defined.

Record Entry := { id : string; label : string; protocol : ServerProtocol; e_url : string; self_signed : bool }.

Definition MAINNET : list Entry :=
  [{| id := "mempool.space"; label := "mempool.space"; protocol := ServerProtocol.Esplora; e_url := "https://mempool.space/api"; self_signed := false |};
   {| id := "blockstream.info"; label := "blockstream.info"; protocol := ServerProtocol.Esplora; e_url := "https://blockstream.info/api"; self_signed := false |};
   {| id := "mempool.emzy.de"; label := "mempool.emzy.de"; protocol := ServerProtocol.Esplora; e_url := "https://mempool.emzy.de/api"; self_signed := false |};
   {| id := "electrum:blockstream.info"; label := "blockstream.info:700"; protocol := ServerProtocol.Electrum; e_url := "ssl://blockstream.info:700"; self_signed := false |};
   {| id := "electrum:electrum.blockstream.info"; label := "electrum.blockstream.info:50002"; protocol := ServerProtocol.Electrum; e_url := "ssl://electrum.blockstream.info:50002"; self_signed := false |};
   {| id := "electrum:electrum.diynodes.com"; label := "electrum.diynodes.com:50022"; protocol := ServerProtocol.Electrum; e_url := "ssl://electrum.diynodes.com:50022"; self_signed := false |};
   {| id := "electrum:bitcoin.lu.ke"; label := "bitcoin.lu.ke:50002"; protocol := ServerProtocol.Electrum; e_url := "ssl://bitcoin.lu.ke:50002"; self_signed := true |};
   {| id := "electrum:electrum.emzy.de"; label := "electrum.emzy.de:50002"; protocol := ServerProtocol.Electrum; e_url := "ssl://electrum.emzy.de:50002"; self_signed := true |};
   {| id := "electrum:electrum.bitaroo.net"; label := "electrum.bitaroo.net:50002"; protocol := ServerProtocol.Electrum; e_url := "ssl://electrum.bitaroo.net:50002"; self_signed := true |};
   {| id := "electrum:fulcrum.sethforprivacy.com"; label := "fulcrum.sethforprivacy.com:50002"; protocol := ServerProtocol.Electrum; e_url := "ssl://fulcrum.sethforprivacy.com:50002"; self_signed := true |}].

Definition SIGNET : list Entry :=
  [{| id := "mempool.space"; label := "mempool.space"; protocol := ServerProtocol.Esplora; e_url := "https://mempool.space/signet/api"; self_signed := false |};
   {| id := "blockstream.info"; label := "blockstream.info"; protocol := ServerProtocol.Esplora; e_url := "https://blockstream.info/signet/api"; self_signed := false |};
   {| id := "mempool.emzy.de"; label := "mempool.emzy.de"; protocol := ServerProtocol.Esplora; e_url := "https://mempool.emzy.de/signet/api"; self_signed := false |};
   {| id := "electrum:mempool.space"; label := "mempool.space:60602"; protocol := ServerProtocol.Electrum; e_url := "ssl://mempool.space:60602"; self_signed := false |}].

Definition TESTNET4 : list Entry :=
  [{| id := "mempool.space"; label := "mempool.space"; protocol := ServerProtocol.Esplora; e_url := "https://mempool.space/testnet4/api"; self_signed := false |};
   {| id := "mempool.emzy.de"; label := "mempool.emzy.de"; protocol := ServerProtocol.Esplora; e_url := "https://mempool.emzy.de/testnet4/api"; self_signed := false |};
   {| id := "electrum:mempool.space"; label := "mempool.space:40002"; protocol := ServerProtocol.Electrum; e_url := "ssl://mempool.space:40002"; self_signed := false |};
   {| id := "electrum:blackie.c3-soft.com"; label := "blackie.c3-soft.com:57010"; protocol := ServerProtocol.Electrum; e_url := "ssl://blackie.c3-soft.com:57010"; self_signed := false |}].

Definition entries (network : Network) : list Entry :=
  match network with Mainnet => MAINNET | Signet => SIGNET | Testnet4 => TESTNET4 | Regtest => [] end.

(** A public server as the settings list it: the entry. *)
Definition public_servers (network : Network) : list Entry := entries network.

Definition rotation (network : Network) : list string := Network.default_esplora_urls network.

Definition find (network : Network) (wanted : string) : option Entry :=
  List.find (fun entry => bool_decide (id entry = wanted)) (entries network).

(** ** Endpoints *)

Record Target := { t_url : string; pin : option string }.

Module Endpoint.
Inductive Endpoint := Esplora (url : string) | Electrum (target : Target).
End Endpoint.
Export Endpoint (Endpoint).

#[export] Instance Target_eq_dec : EqDecision Target.
Proof. solve_decision. Defined.

#[export] Instance Endpoint_eq_dec : EqDecision Endpoint.
Proof. solve_decision. Defined.

#[export] Program Instance Endpoint_countable : Countable Endpoint :=
  inj_countable'
    (fun e => match e with Endpoint.Esplora url => inl url | Endpoint.Electrum t => inr (t_url t, pin t) end)
    (fun s => match s with inl url => Endpoint.Esplora url | inr (url, pin) => Endpoint.Electrum {| t_url := url; pin := pin |} end) _.
Next Obligation. by intros [|[]]. Qed.

Definition endpoint_url (e : Endpoint) : string :=
  match e with Endpoint.Esplora url => url | Endpoint.Electrum target => t_url target end.

Definition is_web (e : Endpoint) : bool := match e with Endpoint.Esplora _ => true | Endpoint.Electrum _ => false end.

(** [same_operator]. *)
Definition same_operator (host operator : string) : bool :=
  bool_decide (host = operator) || ends_with ("." +:+ operator) host.

Inductive Purpose := Preview | Broadcast.

Section Endpoints.
Context `{Keys} `{Urls}.

Definition endpoint_label (e : Endpoint) : string := unwrap_or (host_of (endpoint_url e)) "backend".

Definition key (e : Endpoint) : string :=
  let protocol := if is_web e then "esplora" else "electrum" in
  match host_and_port (endpoint_url e) with
  | Some (host, Some port) => protocol +:+ " " +:+ host +:+ " " +:+ dec port
  | Some (host, None) => protocol +:+ " " +:+ host
  | None => protocol
  end.

Definition endpoint_is_onion (e : Endpoint) : bool := is_onion (endpoint_url e).

Definition needs_tor (endpoints : list Endpoint) : bool := any endpoint_is_onion endpoints.

(** [BackendConfig::canonical]. *)
Definition canonical (config : BackendConfig) : CoreResult BackendConfig :=
  match config with
  | CustomEsplora url own_node => let? url := stored_form Esplora url in Ok (CustomEsplora url own_node)
  | CustomElectrum url own_node => let? url := stored_form Electrum url in Ok (CustomElectrum url own_node)
  | Public server => Ok (Public server)
  end.

(** [BackendConfig::label]. *)
Definition backend_label (config : BackendConfig) (network : Network) : string :=
  match config with
  | Public server =>
    match match server with Some id => find network id | None => None end with
    | Some entry => label entry
    | None =>
      unwrap_or (match Network.default_esplora_urls network with url :: _ => host_of url | [] => None end) "public esplora"
    end
  | CustomEsplora url _ | CustomElectrum url _ => unwrap_or (host_of url) "custom backend"
  end.

Definition TrustedCerts := gmap string string.

Definition pin_for (certs : TrustedCerts) (url : string) : option string := certs !! certificate_key url.

Definition automatic_endpoints (network : Network) : CoreResult (list Endpoint) :=
  match rotation network with
  | [] => Err (BackendUnavailable ("no public backend exists for " +:+ Network.as_str network +:+ "; configure your own node"))
  | urls => Ok (List.map Endpoint.Esplora urls)
  end.

Definition target_of (certs : TrustedCerts) (url : string) : Target := {| t_url := url; pin := pin_for certs url |}.

Definition endpoints (config : BackendConfig) (network : Network) (certs : TrustedCerts) : CoreResult (list Endpoint) :=
  let? config := canonical config in
  match config with
  | Public (Some id) =>
    match find network id with
    | Some entry =>
      Ok [match protocol entry with
          | ServerProtocol.Esplora => Endpoint.Esplora (e_url entry)
          | ServerProtocol.Electrum => Endpoint.Electrum (target_of certs (e_url entry))
          end]
    | None => automatic_endpoints network
    end
  | Public None => automatic_endpoints network
  | CustomEsplora url _ => Ok [Endpoint.Esplora url]
  | CustomElectrum url _ => Ok [Endpoint.Electrum (target_of certs url)]
  end.

(** The servers of the catalogue that push, each with the operator of the
    rotation that runs it. *)
Definition pushing_of (network : Network) (certs : TrustedCerts) (operators : list string) (server : Entry) : option (string * Endpoint) :=
  match host_of (e_url server) with
  | None => None
  | Some host =>
    match List.find (same_operator host) operators with
    | None => None
    | Some operator =>
      match endpoints (Public (Some (id server))) network certs with
      | Ok (endpoint :: _) => Some (operator, endpoint)
      | _ => None
      end
    end
  end.

Definition pushing (network : Network) (certs : TrustedCerts) (operators : list string) : list (string * Endpoint) :=
  omap (pushing_of network certs operators)
    (retain (fun server => bool_decide (protocol server = ServerProtocol.Electrum) && negb (self_signed server)) (public_servers network)).

Definition servers_for (backend : BackendConfig) (network : Network) (certs : TrustedCerts) : result (list Endpoint) string :=
  let? endpoints := match endpoints backend network certs with Ok l => Ok l | Err e => Err (words e) end in
  if bool_decide (backend = Public None) then
    let pushing := pushing network certs (List.map endpoint_label endpoints) in
    let first := option_map fst (hd_error pushing) in
    Ok (List.map snd (retain (fun p => bool_decide (Some p.1 = first)) pushing) ++ endpoints)
  else Ok endpoints.

(** [send_order]. *)
Definition send_order (endpoints : list Endpoint) (live : option Endpoint) (purpose : Purpose) : list Endpoint :=
  match live with
  | None => endpoints
  | Some live =>
    let endpoints := retain (fun endpoint => negb (bool_decide (endpoint = live))) endpoints in
    let live_host := host_of (endpoint_url live) in
    let place := position (fun endpoint =>
      is_web endpoint && match live_host with Some host => same_operator host (endpoint_label endpoint) | None => false end) endpoints in
    match place with
    | Some place =>
      match endpoints !! place with
      | Some web =>
        let endpoints := take place endpoints ++ drop (S place) endpoints in
        match purpose with Preview => web :: live :: endpoints | Broadcast => live :: web :: endpoints end
      | None => live :: endpoints
      end
    | None => live :: endpoints
    end
  end.
End Endpoints.

(** ** Amounts *)

(** [Amount::MAX_MONEY] of the bitcoin crate: 21 million bitcoin. *)
Definition MAX_MONEY : Z := 2100000000000000.
Definition HELD_MAX_SATS : Z := i64_max.

(** The amounts a transaction pays, the coins it spends. *)
Definition paid (tx : Transaction) : list Z := List.map value (output tx).
Definition spent (tx : Transaction) : list OutPoint := List.map previous_output (input tx).

Definition checked_add_u64 (a b : Z) : option Z := if a + b <=? u64_max then Some (a + b) else None.

Definition outputs_within_max_money (tx : Transaction) : option Z :=
  match foldl (fun sum out => match sum with Some sum => checked_add_u64 sum out | None => None end) (Some 0) (paid tx) with
  | Some paid => if paid <=? MAX_MONEY then Some paid else None
  | None => None
  end.

Definition too_much : string := "the server sent a transaction worth more than every bitcoin".

Fixpoint spends_once (seen : gset OutPoint) (inputs : list OutPoint) : bool :=
  match inputs with
  | [] => true
  | input :: inputs => negb (bool_decide (input ∈ seen)) && spends_once ({[input]} ∪ seen) inputs
  end.

Fixpoint check_txs (total : Z) (txs : list Transaction) : result Z string :=
  match txs with
  | [] => Ok total
  | tx :: txs =>
    match outputs_within_max_money tx with
    | None => Err too_much
    | Some paid =>
      if negb (spends_once ∅ (spent tx)) then Err "the server sent a transaction that spends one coin twice"
      else check_txs (sat_add_u64 total paid) txs
    end
  end.

Fixpoint check_txouts (total : Z) (txouts : list Z) : result Z string :=
  match txouts with
  | [] => Ok total
  | out :: txouts => if MAX_MONEY <? out then Err too_much else check_txouts (sat_add_u64 total out) txouts
  end.

Definition check_amounts (txs : list Transaction) (txouts : list Z) (held_sats : Z) : result unit string :=
  let? total := check_txs held_sats txs in
  let? total := check_txouts total txouts in
  if HELD_MAX_SATS <? total then Err "the server sent more bitcoin than a wallet can hold" else Ok tt.

(** ** The catalogue, checked *)

Lemma find_entry network e : In e (public_servers network) -> find network (id e) = Some e.
Proof. destruct network; simpl; intros He; repeat (destruct He as [<-|He]; [reflexivity|]); done. Qed.

(** The catalogue and the rotation say the same: the automatic backend
    rotates through the Esplora servers of the catalogue, in its order;
    each network has at least two of them, a local chain none; and an id
    names one server of its network. *)
Theorem rotation_is_the_catalogue network :
  rotation network = List.map e_url (retain (fun e => bool_decide (protocol e = ServerProtocol.Esplora)) (public_servers network))
  /\ (network = Regtest \/ (2 <= length (rotation network))%nat)
  /\ NoDup (List.map id (public_servers network))
  /\ forall e, In e (public_servers network) -> find network (id e) = Some e.
Proof.
  split; [by destruct network|]. split; [destruct network; simpl; auto with lia|]. split.
  - apply (bool_decide_unpack _). by destruct network.
  - intros e. apply find_entry.
Qed.

Section Laws.
Context `{Keys} `{Urls}.

Lemma pushing_entry network certs operators server operator e : In server (public_servers network) ->
  protocol server = ServerProtocol.Electrum -> pushing_of network certs operators server = Some (operator, e) ->
  In operator operators /\ e = Endpoint.Electrum (target_of certs (e_url server))
  /\ exists host, host_of (e_url server) = Some host /\ same_operator host operator = true.
Proof.
  intros Hin Hp. unfold pushing_of. destruct (host_of (e_url server)) as [host|]; [|done].
  destruct (List.find (same_operator host) operators) as [op|] eqn:Ef; [|done]. apply List.find_some in Ef as [Hop Hsame].
  unfold endpoints. cbn [canonical result_bind]. rewrite (find_entry _ _ Hin), Hp. intros [= <- <-]. split; [done|]. split; [done|]. by exists host.
Qed.

(** A watch talks to no server the backend does not name: the one
    chosen or typed, alone; or, under the automatic backend, the servers
    its syncs rotate through, and before them Electrum servers of the
    catalogue with a certificate of an authority, all run by one operator
    of that rotation. *)
Theorem watch_names_no_other_server backend network certs servers : servers_for backend network certs = Ok servers ->
  match backend with
  | Public None =>
    exists pushers operator, servers = pushers ++ List.map Endpoint.Esplora (rotation network)
      /\ forall e, In e pushers -> In operator (List.map (fun url => endpoint_label (Endpoint.Esplora url)) (rotation network))
        /\ exists server host, In server (public_servers network) /\ protocol server = ServerProtocol.Electrum
          /\ self_signed server = false /\ e = Endpoint.Electrum (target_of certs (e_url server))
          /\ host_of (e_url server) = Some host /\ same_operator host operator = true
  | Public (Some wanted) =>
    match find network wanted with
    | Some entry => exists e, servers = [e] /\ endpoint_url e = e_url entry
    | None => servers = List.map Endpoint.Esplora (rotation network)
    end
  | CustomEsplora url _ => exists stored, stored_form Esplora url = Ok stored /\ servers = [Endpoint.Esplora stored]
  | CustomElectrum url _ =>
    exists stored, stored_form Electrum url = Ok stored /\ servers = [Endpoint.Electrum (target_of certs stored)]
  end.
Proof.
  unfold servers_for. destruct (endpoints backend network certs) as [eps|] eqn:E; [|done]. cbn [result_bind]. unfold endpoints in E.
  destruct backend as [[wanted|]|url own|url own]; cbn [canonical result_bind] in E.
  - rewrite bool_decide_false by done. intros [= <-]. destruct (find network wanted) as [entry|].
    + injection E as <-. eexists. split; [reflexivity|]. by destruct (protocol entry).
    + revert E. unfold automatic_endpoints. destruct (rotation network); [done|]. by intros [= <-].
  - rewrite bool_decide_true by done. intros [= <-]. assert (Heps : eps = List.map Endpoint.Esplora (rotation network)).
    { revert E. unfold automatic_endpoints. destruct (rotation network); [done|]. by intros [= <-]. }
    subst eps. clear E. rewrite List.map_map. set (operators := List.map _ (rotation network)).
    set (l := pushing network certs operators). exists (List.map snd (retain (fun p => bool_decide (Some p.1 = option_map fst (hd_error l))) l)).
    destruct l as [|[operator first] l0] eqn:El; [exists ""; by split|]. exists operator. split; [done|].
    intros e (p & <- & Hp)%in_map_iff. apply retain_In in Hp as [Hp Hop]. apply bool_decide_eq_true in Hop. cbn [hd_error option_map fst] in Hop.
    injection Hop as Hop. destruct p as [op e']. cbn [fst] in Hop. subst op. rewrite <- El in Hp. unfold l, pushing in Hp. apply list_elem_of_In, list_elem_of_omap in Hp as (server & Hserver & Hpush).
    apply list_elem_of_In, retain_In in Hserver as [Hserver Hkind]. apply andb_true_iff in Hkind as [Hproto Hself].
    apply bool_decide_eq_true in Hproto. apply negb_true_iff in Hself.
    destruct (pushing_entry _ _ _ _ _ _ Hserver Hproto Hpush) as (Hop & -> & host & Hhost & Hsame). split; [done|].
    exists server, host. done.
  - destruct (stored_form Esplora url) as [stored|]; [|done]. injection E as <-. rewrite bool_decide_false by done. intros [= <-]. eauto.
  - destruct (stored_form Electrum url) as [stored|]; [|done]. injection E as <-. rewrite bool_decide_false by done. intros [= <-]. eauto.
Qed.

Lemma retain_position (endpoints : list Endpoint) f place : position f endpoints = Some place ->
  exists web, endpoints !! place = Some web /\ f web = true /\ endpoints ≡ₚ web :: (take place endpoints ++ drop (S place) endpoints).
Proof.
  revert place. induction endpoints as [|e l IH]; intros place; simpl; [done|]. destruct (f e) eqn:Ef.
  - intros [= <-]. exists e. simpl. rewrite drop_0. done.
  - destruct (position f l) as [j|]; [|done]. intros [= <-]. destruct (IH j eq_refl) as (web & Hw & Hf & Hperm). exists web. simpl.
    split; [done|]. split; [done|]. rewrite Permutation_swap. by constructor.
Qed.

(** What is sent is offered to each server of the backend once, and to
    the server of the watch: the watch's own operator first, its web API
    at most beside its server, the others after them in the order of the
    backend; a broadcast goes to the server of the watch before any. *)
Theorem send_order_right eps live purpose : let order := send_order eps (Some live) purpose in
  order ≡ₚ live :: retain (fun e => negb (bool_decide (e = live))) eps
  /\ (purpose = Broadcast -> hd_error order = Some live)
  /\ exists first rest, order = first ++ rest /\ In live first /\ (length first <= 2)%nat /\ rest `sublist_of` eps
    /\ forall e, In e first -> e = live
         \/ is_web e = true /\ exists host, host_of (endpoint_url live) = Some host /\ same_operator host (endpoint_label e) = true.
Proof.
  cbn zeta. unfold send_order. set (l := retain _ eps). set (f := fun e => is_web e && _).
  assert (Hsub : l `sublist_of` eps) by apply retain_sublist. assert (Halone : live :: l ≡ₚ live :: l /\ (purpose = Broadcast -> hd_error (live :: l) = Some live)
    /\ exists first rest, live :: l = first ++ rest /\ In live first /\ (length first <= 2)%nat /\ rest `sublist_of` eps
    /\ forall e, In e first -> e = live \/ is_web e = true /\ exists host, host_of (endpoint_url live) = Some host /\ same_operator host (endpoint_label e) = true).
  { split; [done|]. split; [done|]. exists [live], l. split; [done|]. split; [by left|]. split; [simpl; lia|]. split; [done|].
    intros e [<-|[]]. by left. }
  destruct (position f l) as [place|] eqn:Ep; [|exact Halone]. destruct (retain_position _ _ _ Ep) as (web & Hw & Hf & Hperm). rewrite Hw.
  set (others := take place l ++ drop (S place) l) in *.
  assert (Hothers : others `sublist_of` eps).
  { etrans; [|exact Hsub]. unfold others. rewrite <- (take_drop_middle _ _ _ Hw) at 3. apply sublist_app; [done|]. by constructor. }
  assert (Hfirst : forall e, e = live \/ e = web -> e = live
    \/ is_web e = true /\ exists host, host_of (endpoint_url live) = Some host /\ same_operator host (endpoint_label e) = true).
  { intros e [->| ->]; [by left|]. right. unfold f in Hf. apply andb_true_iff in Hf as [? Hf]. split; [done|].
    destruct (host_of (endpoint_url live)) as [host|]; [|done]. by exists host. }
  destruct purpose.
  - split; [rewrite Hperm; apply Permutation_swap|]. split; [done|]. exists [web; live], others. split; [done|].
    split; [right; by left|]. split; [simpl; lia|]. split; [done|]. intros e [<-|[<-|[]]]; apply Hfirst; auto.
  - split; [by rewrite Hperm|]. split; [done|]. exists [live; web], others. split; [done|].
    split; [by left|]. split; [simpl; lia|]. split; [done|]. intros e [<-|[<-|[]]]; apply Hfirst; auto.
Qed.
End Laws.

(** ** What a server may claim *)

Definition sum (l : list Z) : Z := foldr Z.add 0 l.

Lemma sum_nonneg l : (forall x, In x l -> 0 <= x) -> 0 <= sum l.
Proof.
  induction l as [|x l IH]; intros Hl; simpl; [lia|]. specialize (IH ltac:(by intros; apply Hl; right)). specialize (Hl x (or_introl eq_refl)). lia.
Qed.

Lemma outputs_sum l acc : 0 <= acc <= u64_max -> (forall x, In x l -> 0 <= x) ->
  foldl (fun sum out => match sum with Some sum => checked_add_u64 sum out | None => None end) (Some acc) l
  = if acc + sum l <=? u64_max then Some (acc + sum l) else None.
Proof.
  revert acc. induction l as [|x l IH]; intros acc Hacc Hl; simpl; [rewrite Z.add_0_r; by destruct (Z.leb_spec acc u64_max); [|lia]|].
  specialize (Hl x (or_introl eq_refl)) as Hx. assert (Hr : forall y, In y l -> 0 <= y) by (by intros; apply Hl; right).
  pose proof (sum_nonneg l Hr). unfold checked_add_u64 at 2. destruct (Z.leb_spec (acc + x) u64_max) as [Hle|Hgt].
  - rewrite IH by (done || lia). by rewrite Z.add_assoc.
  - destruct (Z.leb_spec (acc + (x + sum l)) u64_max); [lia|]. clear. induction l; simpl; done.
Qed.

Lemma outputs_right tx : (forall x, In x (paid tx) -> 0 <= x) ->
  outputs_within_max_money tx = if sum (paid tx) <=? MAX_MONEY then Some (sum (paid tx)) else None.
Proof.
  intros Hp. unfold outputs_within_max_money. rewrite outputs_sum by (done || by unfold u64_max). rewrite Z.add_0_l.
  destruct (Z.leb_spec (sum (paid tx)) u64_max); [done|]. destruct (Z.leb_spec (sum (paid tx)) MAX_MONEY); [|done]. unfold MAX_MONEY, u64_max in *. lia.
Qed.

Lemma spends_once_right seen l : spends_once seen l = true <-> NoDup l /\ forall x, In x l -> x ∉ seen.
Proof.
  revert seen. induction l as [|x l IH]; intros seen; simpl; [by split; [split; [constructor|]|]|].
  rewrite andb_true_iff, negb_true_iff, bool_decide_eq_false, IH, list.NoDup_cons, list_elem_of_In. split.
  - intros [Hx [Hnd Hn]]. split; [split; [|done]|]; [intros Hin; by apply (Hn x Hin), elem_of_union_l, elem_of_singleton|].
    intros y [<-|Hy]; [done|]. specialize (Hn y Hy). set_solver.
  - intros [[Hx Hnd] Hn]. split; [by apply Hn; left|]. split; [done|]. intros y Hy. specialize (Hn y (or_intror Hy)).
    intros [->%elem_of_singleton|]%elem_of_union; done.
Qed.

Definition pays (txs : list Transaction) : Z := sum (List.map (fun tx => sum (paid tx)) txs).

Definition unsigned (txs : list Transaction) : Prop := forall tx x, In tx txs -> In x (paid tx) -> 0 <= x.

(** A transaction the amounts of which can be real. *)
Definition sound (tx : Transaction) : Prop := sum (paid tx) <= MAX_MONEY /\ NoDup (spent tx).

Lemma pays_nonneg txs : unsigned txs -> 0 <= pays txs.
Proof. intros Hu. apply sum_nonneg. intros x (tx & <- & Hin)%in_map_iff. apply sum_nonneg. intros y. by apply Hu. Qed.

(** The total a pass gives: what it added up, or the most a word holds. *)
Lemma check_txs_right txs total : 0 <= total <= u64_max -> unsigned txs ->
  (exists t, check_txs total txs = Ok t /\ t = Z.min (total + pays txs) u64_max /\ Forall sound txs)
  \/ (exists said, check_txs total txs = Err said) /\ ~ Forall sound txs.
Proof.
  revert total. induction txs as [|tx txs IH]; intros total Ht Hu; simpl.
  - left. exists total. unfold pays. simpl. split; [done|]. split; [lia|constructor].
  - assert (Hp : forall x, In x (paid tx) -> 0 <= x) by (intros x; apply Hu; by left). pose proof (sum_nonneg _ Hp).
    rewrite (outputs_right tx Hp). destruct (Z.leb_spec (sum (paid tx)) MAX_MONEY) as [Hs|Hs].
    + destruct (spends_once ∅ (spent tx)) eqn:Eo; simpl.
      * assert (Hsound : sound tx) by (split; [done|by apply (spends_once_right ∅)]).
        assert (Hu' : unsigned txs) by (intros tx' x Hin; apply Hu; by right). pose proof (pays_nonneg _ Hu').
        destruct (IH (sat_add_u64 total (sum (paid tx)))) as [(t & Hc & -> & Hall)|[Hc Hn]]; [unfold sat_add_u64; lia|done| |].
        -- left. eexists. split; [exact Hc|]. split; [|by constructor]. unfold sat_add_u64, pays in *. simpl. lia.
        -- right. split; [done|]. by intros [_ ?]%list.Forall_cons.
      * right. split; [eauto|]. intros [[_ Hnd] _]%list.Forall_cons. assert (spends_once ∅ (spent tx) = true) by (apply spends_once_right; set_solver).
        congruence.
    + right. split; [eauto|]. intros [[? _] _]%list.Forall_cons. lia.
Qed.

Lemma check_txouts_right outs total : 0 <= total <= u64_max -> (forall x, In x outs -> 0 <= x) ->
  (exists t, check_txouts total outs = Ok t /\ t = Z.min (total + sum outs) u64_max /\ Forall (fun x => x <= MAX_MONEY) outs)
  \/ (exists said, check_txouts total outs = Err said) /\ ~ Forall (fun x => x <= MAX_MONEY) outs.
Proof.
  revert total. induction outs as [|x l IH]; intros total Ht Hl; simpl.
  - left. exists total. split; [done|]. split; [lia|constructor].
  - specialize (Hl x (or_introl eq_refl)) as Hx. assert (Hr : forall y, In y l -> 0 <= y) by (by intros; apply Hl; right).
    pose proof (sum_nonneg _ Hr). destruct (Z.ltb_spec MAX_MONEY x) as [Hlt|Hge].
    + right. split; [eauto|]. intros [? _]%list.Forall_cons. lia.
    + destruct (IH (sat_add_u64 total x)) as [(t & Hc & -> & Hall)|[Hc Hn]]; [unfold sat_add_u64; lia|done| |].
      * left. eexists. split; [exact Hc|]. split; [unfold sat_add_u64; lia|by constructor].
      * right. split; [done|]. by intros [_ ?]%list.Forall_cons.
Qed.

(** The update of a server is taken exactly when its amounts can be
    real: no transaction pays more than the bitcoin there will ever be or
    spends one coin twice, no coin is worth more, and all of them with
    what the wallet holds add up, without wrapping, to what a signed word
    holds. A total past a word is refused, not wrapped. *)
Theorem amounts_taken_can_be_real txs outs held : unsigned txs -> (forall x, In x outs -> 0 <= x) -> in_u64 held ->
  check_amounts txs outs held = Ok tt
  <-> Forall sound txs /\ Forall (fun x => x <= MAX_MONEY) outs /\ held + pays txs + sum outs <= i64_max.
Proof.
  intros Hu Ho Hheld. pose proof (pays_nonneg _ Hu). pose proof (sum_nonneg _ Ho). unfold in_u64 in Hheld. unfold check_amounts.
  destruct (check_txs_right txs held Hheld Hu) as [(t & -> & -> & Hall)|[[said ->] Hn]]; [|cbn; split; [done|by intros [? _]]].
  cbn [result_bind]. destruct (check_txouts_right outs (Z.min (held + pays txs) u64_max)) as [(t & -> & -> & Hout)|[[said ->] Hn]]; [lia|done| |cbn; split; [done|by intros (_ & ? & _)]].
  cbn [result_bind]. unfold HELD_MAX_SATS, u64_max, i64_max in *. destruct (Z.ltb_spec 9223372036854775807 (Z.min (Z.min (held + pays txs) 18446744073709551615 + sum outs) 18446744073709551615)).
  - split; [done|]. lia.
  - split; [intros _; split; [done|split; [done|lia]]|done].
Qed.

Definition demo_tx (coins : list Z) (pays : list Z) : Transaction :=
  {| tx_version := 2; lock_time := 0;
     input := List.map (fun n => {| previous_output := {| op_txid := "a"; vout := n |}; script_sig := []; sequence := 0; witness := [] |}) coins;
     output := List.map (fun n => {| value := n; script_pubkey := [] |}) pays |}.

Lemma amounts_taken_can_be_real_witness :
  check_amounts [demo_tx [0; 1] [MAX_MONEY - 5; 5]] [7] 3 = Ok tt
  /\ check_amounts [demo_tx [0; 0] [1]] [] 3 <> Ok tt.
Proof.
  split.
  - apply amounts_taken_can_be_real.
    + intros tx x [<-|[]] [<-|[<-|[]]]; vm_compute; discriminate.
    + intros x [<-|[]]. lia.
    + by split.
    + split; [|split; [|by vm_compute]].
      * constructor; [|constructor]. split; [by vm_compute|]. apply (bool_decide_unpack _). vm_compute. exact I.
      * constructor; [|constructor]. by vm_compute.
  - discriminate.
Defined.

(** ** The theorems at work *)

Section Demo.
#[local] Existing Instances Xpub.Demo.demo_keys.

(** A parser that reads the addresses of the catalogue. *)
#[local] Instance catalogue_urls : Urls := {|
  Url_parse text :=
    match split_once_str "://" text with
    | Some (scheme, rest) =>
      let authority := match split_once "/" rest with Some (authority, _) => authority | None => rest end in
      let '(host, port) := match split_once ":" authority with Some (host, port) => (host, parse_u16 port) | None => (authority, None) end in
      Ok {| scheme := scheme; username := ""; password := None; u_host := Some (Domain host); u_port := port; path := "";
            query := None; fragment := None |}
    | None => Err "relative URL without a base"
    end;
  Host_parse := fun host => Ok (Domain host);
  is_address := fun _ => false |}.

Example mainnet_servers : servers_for (Public None) Mainnet ∅
  = Ok (List.map Endpoint.Electrum [target_of ∅ "ssl://blockstream.info:700"; target_of ∅ "ssl://electrum.blockstream.info:50002"]
        ++ List.map Endpoint.Esplora (rotation Mainnet)).
Proof. vm_compute. reflexivity. Qed.

Lemma watch_names_no_other_server_witness :
  exists pushers operator,
    List.map Endpoint.Electrum [target_of ∅ "ssl://blockstream.info:700"; target_of ∅ "ssl://electrum.blockstream.info:50002"]
    ++ List.map Endpoint.Esplora (rotation Mainnet) = pushers ++ List.map Endpoint.Esplora (rotation Mainnet)
    /\ forall e, In e pushers -> In operator (List.map (fun url => endpoint_label (Endpoint.Esplora url)) (rotation Mainnet))
      /\ exists server host, In server (public_servers Mainnet) /\ protocol server = ServerProtocol.Electrum
        /\ self_signed server = false /\ e = Endpoint.Electrum (target_of ∅ (e_url server))
        /\ host_of (e_url server) = Some host /\ same_operator host operator = true.
Proof. apply (watch_names_no_other_server (Public None) Mainnet ∅). vm_compute. reflexivity. Defined.

Example order_for_preview :
  send_order (List.map Endpoint.Esplora (rotation Mainnet)) (Some (Endpoint.Electrum (target_of ∅ "ssl://electrum.blockstream.info:50002"))) Preview
  = [Endpoint.Esplora "https://blockstream.info/api"; Endpoint.Electrum (target_of ∅ "ssl://electrum.blockstream.info:50002");
     Endpoint.Esplora "https://mempool.space/api"; Endpoint.Esplora "https://mempool.emzy.de/api"].
Proof. vm_compute. reflexivity. Qed.
End Demo.
