(* ===== verification/Faults.v ===== *)
(** [chain/fault.rs], and what [chain/mod.rs] makes of a server's answer:
    the kinds of a failure, the node's verdict on a transaction told from
    anything else, a server's words as a screen may show them, and the
    output and the spend a transaction handed over proves. *)
From S2P Require Import Prelude Utf8 Text Network Confirm Connect TxExtras Endpoints.
From Stdlib Require Import Ascii.

(** ** Faults *)

Inductive FaultKind := Outage | FalseProof | Other.

#[export] Instance FaultKind_eq_dec : EqDecision FaultKind.
Proof. solve_decision. Defined.

Record Fault := { kind : FaultKind; detail : string }.

Definition FALSE_PROOF : string := "the server sent a false proof of a confirmation".
Definition COIN_NOT_PAID : string := "the server listed a coin its transaction does not pay".
Definition UNPROVEN_REORGANISATION : string := "the server's chain takes back a proven confirmation without proof".

Definition outage (detail : string) : Fault := {| kind := Outage; detail := detail |}.
Definition other (detail : string) : Fault := {| kind := Other; detail := detail |}.
Definition false_proof : Fault := {| kind := FalseProof; detail := FALSE_PROOF |}.
Definition coin_not_paid : Fault := {| kind := FalseProof; detail := COIN_NOT_PAID |}.
Definition unproven_reorganisation : Fault := {| kind := FalseProof; detail := UNPROVEN_REORGANISATION |}.

Definition is_outage (fault : Fault) : bool := bool_decide (kind fault = Outage).

(** [std::io::ErrorKind]: the kinds the source names, and any other. *)
Inductive ErrorKind :=
| ConnectionRefused | HostUnreachable | NetworkUnreachable | NetworkDown
| TimedOut | WouldBlock
| ConnectionReset | ConnectionAborted | BrokenPipe | UnexpectedEof | NotConnected
| InvalidData | AnotherKind.

Module IoOutage.
Inductive IoOutage := Unreachable | TimedOut | Closed.
End IoOutage.
Export IoOutage (IoOutage).

(** [IoOutage::of]. *)
Definition io_outage (kind : ErrorKind) : option IoOutage :=
  match kind with
  | ConnectionRefused | HostUnreachable | NetworkUnreachable | NetworkDown => Some IoOutage.Unreachable
  | TimedOut | WouldBlock => Some IoOutage.TimedOut
  | ConnectionReset | ConnectionAborted | BrokenPipe | UnexpectedEof | NotConnected => Some IoOutage.Closed
  | _ => None
  end.

(** An I/O error: its kind, the fault the core raised inside it, if it
    did, and its words. *)
Record IoError := { io_kind : ErrorKind; raised : option Fault; io_text : string }.

(** [Fault::of_io], the time limit in seconds. *)
Definition of_io (error : IoError) (timeout : option Z) : Fault :=
  match raised error with
  | Some fault => fault
  | None =>
    match io_outage (io_kind error) with
    | Some IoOutage.Unreachable => outage "could not connect"
    | Some IoOutage.TimedOut =>
      outage (match timeout with Some secs => "timed out after " +:+ dec secs +:+ " s" | None => "timed out" end)
    | Some IoOutage.Closed => outage "the connection was closed"
    | None =>
      match io_kind error with
      | InvalidData => other (io_text error)
      | _ =>
        let lower := lower (io_text error) in
        if any (fun phrase => contains phrase lower) ["lookup"; "host is known"; "name or service"; "nodename nor servname"] then
          outage "host not found"
        else other ("connection failed: " +:+ io_text error)
      end
    end
  end.

(** ** Failures of what is sent *)

Inductive Failure := Transport (fault : Fault) | Refused (words : string).

Definition SERVER_WORDS_MAX : nat := 200.

Definition shown_char (c : code_point) : bool := negb (is_control c) && negb (is_bidi_control c).

Definition server_words (text : string) : string :=
  let kept := retain shown_char (chars text) in
  of_chars (take SERVER_WORDS_MAX kept ++ match drop SERVER_WORDS_MAX kept with [] => [] | _ => [8230%N] end).

Definition net_sats (received spent : Z) : Z :=
  let signed sats := if sats <=? i64_max then sats else i64_max in
  Z.max i64_min (signed received - signed spent).

Definition REJECT_REASONS : list string :=
  ["min relay fee not met"; "mempool min fee not met"; "mempool full"; "insufficient fee"; "bad-txns-"; "bad-witness-";
   "txn-mempool-conflict"; "txn-already-in-mempool"; "txn-already-known"; "txn-same-nonwitness-data-in-mempool";
   "transaction outputs already in utxo set"; "transaction already in block chain"; "non-mandatory-script-verify-flag";
   "mandatory-script-verify-flag-failed"; "too-long-mempool-chain"; "non-final"; "non-bip68-final"; "dust"; "tx-size";
   "scriptsig-size"; "scriptsig-not-pushonly"; "scriptpubkey"; "bare-multisig"; "multi-op-return";
   "too many potential replacements"; "replacement-adds-unconfirmed"; "missing inputs"; "missing-inputs";
   "fee exceeds maximum configured"; "unspendable output exceeds maximum configured"; "max-fee-exceeded"; "absurdly-high-fee"].

Definition already_known (words : string) : bool :=
  let words := lower words in
  any (fun phrase => contains phrase words)
    ["already known"; "txn-already-known"; "txn-already-in-mempool"; "already in utxo set"; "already in block chain"].

(** [message.replace] of a backslash and a quote by the quote: a quote
    after a backslash stays alone. *)
Fixpoint unescaped (s : string) : string :=
  match s with
  | "" => ""
  | String a rest =>
    match rest with
    | String b s' => if (a =? "092")%char && (b =? "034")%char then String b (unescaped s') else String a (unescaped rest)
    | "" => String a ""
    end
  end.

Fixpoint str_drop (n : nat) (s : string) : string :=
  match n, s with S n, String _ s => str_drop n s | _, s => s end.

(** What follows the first [needle], looked for in lower case. *)
Definition after_lower (needle message : string) : option string :=
  match split_once_str needle (lower message) with
  | Some (before, _) => Some (str_drop (String.length before + String.length needle) message)
  | None => None
  end.

(** [text.parse::<i64>()]. *)
Definition parse_i64 (text : string) : option Z :=
  let '(sign, digits) := match text with
                         | String a rest => if (a =? "-")%char then (-1, rest) else if (a =? "+")%char then (1, rest) else (1, text)
                         | "" => (1, "")
                         end in
  if negb (bool_decide (digits = "")) && str_all is_digit digits then
    let n := sign * dec_value 0 digits in
    if (i64_min <=? n) && (n <=? i64_max) then Some n else None
  else None.

Definition VERDICTS : list Z := [-25; -26; -27].

(** A verdict, of its code and the node's words. *)
Definition verdict_of (code : Z) (words : string) : option string :=
  if bool_decide (code ∈ VERDICTS) then Some (server_words words) else None.

(** The node's words behind the sentence of ElectrumX and Fulcrum. *)
Definition rejected_words (rest : string) : string :=
  unwrap_or
    (List.find (fun line => negb (bool_decide (line = "")) && negb (starts_with "[" line))
       (List.map (fun line => trim (trim_start_matches "." (trim line))) (split "010" rest)))
    "the transaction was rejected by network rules".

(** [trim_start]. *)
Definition trim_start (s : string) : string := of_chars (drop_blank (chars s)).

Section Verdict.
(** serde_json: of a text that is JSON, its [code] when it is an integer,
    its [message] when it is a text. *)
Variable json_error : string -> option (option Z * option string).

Definition node_verdict (message : string) : option string :=
  let message := unescaped message in
  match after_lower "rejected by network rules" message with
  | Some rest => Some (server_words (rejected_words rest))
  | None =>
    match after_lower "sendrawtransaction rpc error" message with
    | Some rest =>
      let rest := trim_start rest in
      match match strip_prefix ":" rest with Some object => json_error (trim object) | None => None end with
      | Some (Some code, Some words) => verdict_of code words
      | Some _ => None
      | None =>
        match split_once ":" rest with
        | Some (code, words) => match parse_i64 (trim code) with Some code => verdict_of code (trim words) | None => None end
        | None => None
        end
      end
    | None =>
      if any (fun reason => starts_with reason (lower message)) REJECT_REASONS then Some (server_words (trim message)) else None
    end
  end.
End Verdict.

(** ** What a transaction handed over proves *)

Section Proofs.
Context `{Transactions}.

Definition output_at (tx : Transaction) (outpoint : OutPoint) : result (option TxOut) Fault :=
  if negb (bool_decide (compute_txid tx = op_txid outpoint)) then
    Err (other "the server answered with another transaction than the one asked for")
  else Ok (output tx !! Z.to_nat (vout outpoint)).

Definition spends (tx : Transaction) (txid : string) (outpoint : OutPoint) : bool :=
  bool_decide (compute_txid tx = txid) && any (fun input => bool_decide (previous_output input = outpoint)) (input tx).

(** Each script once, in the order they come. *)
Definition add_script (scripts : list (list Z)) (out : TxOut) : list (list Z) :=
  if bool_decide (script_pubkey out ∈ scripts) then scripts else scripts ++ [script_pubkey out].

Definition lookup_scripts (tx : Transaction) : list (list Z) :=
  let data := retain (fun out => is_op_return (script_pubkey out)) (output tx) in
  let coins := retain (fun out => negb (is_op_return (script_pubkey out))) (output tx) in
  take 4 (foldl add_script [] (coins ++ data)).
End Proofs.

(** ** Tips *)

Definition TIP_LAG_MAX : Z := 144.
Definition BEHIND : string := "the server is behind a confirmation the wallet holds".
Definition IMPOSSIBLE_TIP : string := "the server claims a block height no chain has reached".
Definition UNWORKED_TIP : string := "the server's tip is a header no one mined".
Definition FASTEST_BLOCK_SECS : Z := 60.
Definition WRITTEN_AFTER : Z := 1790812800.

Definition drops_a_confirmation (network : Network) (confirmed : list Z) (server_tip limit : Z) : bool :=
  bool_decide (network = Mainnet) && any (fun height => (server_tip <? height) && (height <=? limit)) confirmed.

Section Tips.
(** The time of the genesis block, a constant of the bitcoin crate. *)
Variable genesis_time : Network -> Z.

Definition height_limit (network : Network) (now : Z) : Z :=
  if bool_decide (network = Regtest) then u32_max
  else
    let elapsed := sat_sub (Z.max now WRITTEN_AFTER) (genesis_time network) in
    let blocks := elapsed / FASTEST_BLOCK_SECS in
    if blocks <=? u32_max then blocks else u32_max.

Definition checked_tip `{Bitcoin} (network : Network) (height : Z) (header : Header) (now : Z) : result Z Fault :=
  if height_limit network now <? height then Err (other IMPOSSIBLE_TIP)
  else if negb (has_proof_of_work network height header) then Err (other UNWORKED_TIP)
  else Ok height.
End Tips.

(** ** What they promise *)

Lemma shown_chars text : valid_utf8 text -> chars (server_words text)
  = let kept := retain shown_char (chars text) in take SERVER_WORDS_MAX kept ++ match drop SERVER_WORDS_MAX kept with [] => [] | _ => [8230%N] end.
Proof.
  intros (l & Hl & ->). unfold server_words. cbn zeta. rewrite (chars_of_chars l) by done. apply chars_of_chars.
  apply list.Forall_app. split; [|destruct (drop _ _); [constructor|by apply list.Forall_singleton]].
  apply Forall_take. rewrite list.Forall_forall in Hl. apply list.Forall_forall. intros c [Hc _]%list_elem_of_In%retain_In. by apply Hl, list_elem_of_In.
Qed.

(** What a screen shows of a server's words is short, and nothing in it
    controls a screen or turns around the text beside it; words that are
    so already are shown as they are. *)
Theorem server_words_safe text : valid_utf8 text ->
  (length (chars (server_words text)) <= 201)%nat
  /\ (forall c, In c (chars (server_words text)) -> is_control c = false /\ is_bidi_control c = false)
  /\ ((length (chars text) <= 200)%nat -> (forall c, In c (chars text) -> is_control c = false /\ is_bidi_control c = false) -> server_words text = text).
Proof.
  intros Hv. rewrite (shown_chars text Hv). cbn zeta. split; [|split].
  - rewrite length_app, length_take. pose proof (Nat.le_min_l SERVER_WORDS_MAX (length (retain shown_char (chars text)))) as Hm. change SERVER_WORDS_MAX with 200%nat in *. destruct (drop _ _); cbn [length]; lia.
  - intros c [Hc|Hc]%in_app_or.
    + assert (In c (retain shown_char (chars text))) as Hin by (rewrite <- (take_drop SERVER_WORDS_MAX (retain _ _)); apply in_or_app; by left).
      apply retain_In in Hin as [_ Hs]. unfold shown_char in Hs. apply andb_true_iff in Hs as [?%negb_true_iff ?%negb_true_iff]. done.
    + destruct (drop _ _); [done|]. by destruct Hc as [<-|[]].
  - intros Hl Hs. unfold server_words. rewrite retain_all by (intros c Hc; unfold shown_char; by destruct (Hs c Hc) as [-> ->]).
    rewrite drop_ge, take_ge, app_nil_r by (unfold SERVER_WORDS_MAX; lia). destruct Hv as (l & Hl' & ->). by rewrite chars_of_chars.
Qed.

Section Scripts.
Context `{Transactions}.

Lemma add_script_In scripts out s : In s (add_script scripts out) <-> In s scripts \/ s = script_pubkey out.
Proof. unfold add_script. case_bool_decide as Hin; [apply list_elem_of_In in Hin; intuition congruence|]. rewrite in_app_iff. simpl. intuition. Qed.

Lemma add_scripts_right outs : forall scripts, NoDup scripts ->
  NoDup (foldl add_script scripts outs) /\ (forall s, In s (foldl add_script scripts outs) <-> In s scripts \/ In s (List.map script_pubkey outs))
  /\ exists more, foldl add_script scripts outs = scripts ++ more.
Proof.
  induction outs as [|out outs IH]; intros scripts Hnd; [split; [done|]; split; [simpl; tauto|]; exists []; by rewrite app_nil_r|]. cbn [foldl List.map].
  assert (Hnd' : NoDup (add_script scripts out)).
  { unfold add_script. case_bool_decide; [done|]. apply list.NoDup_app. split; [done|]. split; [set_solver|]. apply list.NoDup_singleton. }
  destruct (IH _ Hnd') as (H1 & H2 & more & H3). split; [done|]. split.
  - intros s. rewrite H2, add_script_In. simpl. intuition.
  - rewrite H3. unfold add_script. case_bool_decide; [by exists more|]. exists (script_pubkey out :: more). by rewrite <- app_assoc.
Qed.

(** The scripts a server is asked for a transaction through: each once,
    four at most, of its outputs, one at least when it has an output; and
    one that only carries data never before one a coin may sit on. *)
Theorem lookup_scripts_right tx :
  NoDup (lookup_scripts tx) /\ (length (lookup_scripts tx) <= 4)%nat
  /\ (forall s, In s (lookup_scripts tx) -> In s (List.map script_pubkey (output tx)))
  /\ (output tx <> [] -> lookup_scripts tx <> [])
  /\ forall i j s s', lookup_scripts tx !! i = Some s -> lookup_scripts tx !! j = Some s' -> is_op_return s = true -> is_op_return s' = false -> (j < i)%nat.
Proof.
  unfold lookup_scripts. set (data := retain (fun out => is_op_return _) _). set (coins := retain _ _). rewrite foldl_app.
  destruct (add_scripts_right coins [] (NoDup_nil_2)) as (Hc1 & Hc2 & _). set (first := foldl add_script [] coins) in *.
  destruct (add_scripts_right data first Hc1) as (Ha1 & Ha2 & more & Hmore). set (every := foldl add_script first data) in *.
  assert (Hcoin : forall s, In s first -> is_op_return s = false).
  { intros s [[]|Hs]%Hc2. apply in_map_iff in Hs as (out & <- & Hout). apply retain_In in Hout as [_ Ho]. by apply negb_true_iff. }
  split; [|split; [|split; [|split]]].
  - eapply sublist_NoDup; [done|]. apply sublist_take.
  - rewrite length_take. lia.
  - intros s Hs. assert (In s every) as Hin by (rewrite <- (take_drop 4 every); apply in_or_app; by left).
    apply Ha2 in Hin as [Hin|Hin]; [apply Hc2 in Hin as [[]|Hin]|]; apply in_map_iff in Hin as (out & <- & Hout); apply in_map; by apply retain_In in Hout as [? _].
  - intros Hne Hnil. destruct (output tx) as [|out outs] eqn:Eo; [done|].
    assert (Hin : In (script_pubkey out) every).
    { apply Ha2. destruct (is_op_return (script_pubkey out)) eqn:E; [right|left; apply Hc2; right]; apply in_map, retain_In; (split; [by left|]); by rewrite E. }
    destruct every; done.
  - intros i j s s' Hi Hj Ho Ho'. apply lookup_take_Some in Hi as [Hi _], Hj as [Hj _].
    assert (Hif : (length first <= i)%nat).
    { destruct (Nat.lt_ge_cases i (length first)); [|done]. exfalso. rewrite Hmore, lookup_app_l in Hi by done.
      apply list_elem_of_lookup_2, list_elem_of_In, Hcoin in Hi. congruence. }
    destruct (Nat.lt_ge_cases j (length first)); [lia|exfalso].
    assert (Hdata : forall s, In s more -> is_op_return s = true).
    { intros x Hx. assert (Hxe : In x every) by (rewrite Hmore; apply in_or_app; by right). apply Ha2 in Hxe as [Hf|Hd].
      - exfalso. rewrite Hmore in Ha1. apply list.NoDup_app in Ha1 as (_ & Hdis & _). by apply (Hdis x); apply list_elem_of_In.
      - apply in_map_iff in Hd as (out & <- & Hout). by apply retain_In in Hout as [_ ?]. }
    rewrite Hmore, lookup_app_r in Hj by done. apply list_elem_of_lookup_2, list_elem_of_In, Hdata in Hj. congruence.
Qed.
End Scripts.

(** ** Verdicts, at the words of each server *)

(** No JSON, or mempool.space's error object. *)
Definition demo_json (text : string) : option (option Z * option string) :=
  if starts_with "{" text then Some (Some (-26), Some "min relay fee not met, 0 < 11") else None.

Example verdict_blockstream : node_verdict demo_json "sendrawtransaction RPC error -26: min relay fee not met, 0 < 11" = Some "min relay fee not met, 0 < 11".
Proof. vm_compute. reflexivity. Qed.
Example verdict_mempool : node_verdict demo_json "sendrawtransaction RPC error: {...}" = Some "min relay fee not met, 0 < 11".
Proof. vm_compute. reflexivity. Qed.
Example verdict_warming_up : node_verdict demo_json "sendrawtransaction RPC error -28: Loading block index" = None.
Proof. vm_compute. reflexivity. Qed.
Example verdict_electrumx : node_verdict demo_json (of_chars (chars "the transaction was rejected by network rules." ++ [10; 10]%N ++ chars "dust" ++ [10]%N ++ chars "[0200]")) = Some "dust".
Proof. vm_compute. reflexivity. Qed.
Example verdict_romanz : node_verdict demo_json "Bad-txns-inputs-missingorspent" = Some "Bad-txns-inputs-missingorspent".
Proof. vm_compute. reflexivity. Qed.
Example verdict_page : node_verdict demo_json "<html>502 Bad Gateway</html>" = None.
Proof. vm_compute. reflexivity. Qed.
