(* ===== verification/Dial.v ===== *)
(** [chain/dial.rs]: a connection to a host of several addresses, opened
    the way of RFC 8305. The clock, the threads and the answers of the
    attempts are observations, one of each turn of the loop; times are in
    nanoseconds. *)
From S2P Require Import Prelude Text Connect Faults.

(** [Duration::from_millis]. *)
Definition millis (n : Z) : Z := n * 1000000.

Definition STAGGER : Z := millis 250.
Definition AT_ONCE : nat := 5.
Definition STALL : Z := millis 2000.
Definition MOST : nat := 16.
Definition LONGEST : Z := millis (24 * 3600 * 1000).

(** ** The order *)

Section Order.
Context {A : Type} (is_ipv6 : A -> bool).

(** The loop over the two families. *)
Fixpoint alternate (lead other : list A) : list A :=
  match lead with
  | [] => other
  | one :: lead => one :: match other with [] => lead | two :: other => two :: alternate lead other end
  end.

Definition ordered (addresses : list A) : list A :=
  match addresses with
  | [] => []
  | first :: _ =>
    alternate (retain (fun address => Bool.eqb (is_ipv6 address) (is_ipv6 first)) addresses)
      (retain (fun address => negb (Bool.eqb (is_ipv6 address) (is_ipv6 first))) addresses)
  end.
End Order.

(** ** The attempts *)

(** When each attempt started, while it is alive. *)
Abbreviation Flights := (list (option Z)).

Definition start (flights : Flights) (at_ : Z) : Flights * nat := (flights ++ [Some at_], length flights).

Definition end_flight (flights : Flights) (id : nat) : Flights * bool := (<[id := None]> flights, (id + 1 =? length flights)%nat).

(** [iter().flatten()]. *)
Definition flying (flights : Flights) : list Z := omap (fun at_ => at_) flights.

Definition alive (flights : Flights) : nat := length (flying flights).

(** Those whose answer can still come. *)
Definition waiting (flights : Flights) (now : Z) : list Z := retain (fun at_ => now <? at_ + STALL) (flying flights).

Definition opening (flights : Flights) (now next : Z) : option Z :=
  if (MOST <=? alive flights)%nat then None
  else
    let waiting := waiting flights now in
    Some (if (length waiting <? AT_ONCE)%nat then next
          else Z.max next (nth (length waiting - AT_ONCE) waiting 0 + STALL)).

(** ** The race *)

Section Race.
Context {A T E : Type} (is_ipv6 : A -> bool) (timed_out nowhere : E).

Record Race := { queue : list A; flights : Flights; next : Z; last : option E }.

(** What a turn of the loop meets: why no thread could be started, if none
    could; an answer, and when it was heard; the clock at the next turn. *)
Record Seen := { spawned : option E; heard : option (nat * result T E); heard_at : Z; clock : Z }.

Inductive Turn := Again (race : Race) | Over (answer : result T E).

Definition its_opening (race : Race) (now : Z) : option Z := match queue race with [] => None | _ => opening (flights race) now (next race) end.

Definition failed (race : Race) : result T E :=
  Err (if (0 <? alive (flights race))%nat || negb (match queue race with [] => true | _ => false end) then timed_out else unwrap_or (last race) nowhere).

(** An attempt started at [now], for the address that is next. *)
Definition launch (race : Race) (now : Z) (rest : list A) (spawned : option E) : Race :=
  let '(flights, id) := start (flights race) now in
  match spawned with
  | None => {| queue := rest; flights := flights; next := now + STAGGER; last := last race |}
  | Some error => {| queue := rest; flights := (end_flight flights id).1; next := next race; last := Some error |}
  end.

(** An answer heard. *)
Definition hear (race : Race) (id : nat) (answer : result T E) (heard_at : Z) : Turn :=
  let '(flights, latest) := end_flight (flights race) id in
  match answer with
  | Ok connected => Over (Ok connected)
  | Err error => Again {| queue := queue race; flights := flights; next := if latest then heard_at else next race; last := Some error |}
  end.

Definition turn (timeout now : Z) (race : Race) (seen : Seen) : Turn :=
  if timeout <=? now then Over (failed race)
  else
    let opening := its_opening race now in
    match opening, queue race with
    | Some at_, _ :: rest =>
      if at_ <=? now then Again (launch race now rest (spawned seen))
      else match heard seen with Some (id, answer) => hear race id answer (heard_at seen) | None => Again race end
    | _, _ =>
      if (alive (flights race) =? 0)%nat && match opening with None => true | _ => false end then Over (failed race)
      else match heard seen with Some (id, answer) => hear race id answer (heard_at seen) | None => Again race end
    end.

(** The turns of the loop, and the answer once it is over. *)
Fixpoint turns (timeout now : Z) (race : Race) (seens : list Seen) : option (result T E) :=
  match seens with
  | [] => None
  | seen :: seens =>
    match turn timeout now race seen with
    | Over answer => Some answer
    | Again race => turns timeout (clock seen) race seens
    end
  end.

Definition starting (addresses : list A) : Race := {| queue := ordered is_ipv6 addresses; flights := []; next := 0; last := None |}.

Definition race (addresses : list A) (timeout now : Z) (seens : list Seen) : option (result T E) :=
  turns (Z.min timeout LONGEST) now (starting addresses) seens.

(** [race_async] starts no thread. *)
Definition race_async (addresses : list A) (timeout now : Z) (seens : list Seen) : option (result T E) :=
  race addresses timeout now (List.map (fun seen => {| spawned := None; heard := heard seen; heard_at := heard_at seen; clock := clock seen |}) seens).

Definition connect_async `{Urls} (host : string) (onion : string -> E) (resolved : result (list A) E) (timeout now : Z) (seens : list Seen) : option (result T E) :=
  if is_onion_host host then Some (Err (onion (host +:+ " is an onion address and needs Tor")))
  else match resolved with Ok addresses => race_async addresses timeout now seens | Err error => Some (Err error) end.
End Race.
Arguments Race : clear implicits.
Arguments Seen : clear implicits.
Arguments Turn : clear implicits.

(** ** The order tried *)

Section Ordered.
Context {A : Type} (is_ipv6 : A -> bool).

Lemma alternate_perm (lead : list A) : forall other, alternate lead other ≡ₚ lead ++ other.
Proof.
  induction lead as [|one lead IH]; intros other; [done|]. cbn [alternate]. destruct other as [|two other]; [by rewrite app_nil_r|].
  cbn [app]. rewrite IH. by rewrite Permutation_middle.
Qed.

Lemma alternate_retain f (lead : list A) : forall other, all f lead = true -> all (fun x => negb (f x)) other = true ->
  retain f (alternate lead other) = lead /\ retain (fun x => negb (f x)) (alternate lead other) = other.
Proof.
  induction lead as [|one lead IH]; intros other; cbn [alternate all forallb].
  { intros _ Ho. split; [|by apply retain_all; apply all_true].
    induction other as [|x other IH]; [done|]. cbn [all forallb] in Ho. apply andb_true_iff in Ho as [Hx Ho]. unfold retain in *. cbn [List.filter]. apply negb_true_iff in Hx. rewrite Hx. by apply IH. }
  intros [Hone Hl]%andb_true_iff Ho. unfold retain in *. cbn [List.filter]. rewrite Hone. cbn [negb]. destruct other as [|two other].
  - destruct (IH [] Hl eq_refl) as [I1 I2]. destruct lead as [|x lead]; [done|]. cbn [alternate] in I1, I2. by rewrite I1, I2.
  - cbn [all forallb] in Ho. apply andb_true_iff in Ho as [Htwo Ho]. destruct (IH other Hl Ho) as [I1 I2]. cbn [List.filter]. rewrite Htwo. apply negb_true_iff in Htwo. rewrite Htwo. by rewrite I1, I2.
Qed.

(** One family after the other, until one runs out. *)
Lemma alternate_turns f (lead : list A) : forall other, all f lead = true -> all (fun x => negb (f x)) other = true ->
  forall i x y, alternate lead other !! i = Some x -> alternate lead other !! S i = Some y -> f x = f y ->
  forall j z, (i <= j)%nat -> alternate lead other !! j = Some z -> f z = f x.
Proof.
  assert (Hsame : forall l b, all (fun x => Bool.eqb (f x) b) l = true -> forall i x, l !! i = Some x -> f x = b).
  { intros l b Hl i x Hi. rewrite all_true in Hl. apply list_elem_of_lookup_2, list_elem_of_In in Hi. by apply Bool.eqb_prop, Hl. }
  assert (Hflip : forall l, all (fun x => negb (f x)) l = true -> all (fun x => Bool.eqb (f x) false) l = true).
  { intros l. rewrite !all_true. intros Hl x Hx. specialize (Hl x Hx). by destruct (f x). }
  assert (Hkeep : forall l, all f l = true -> all (fun x => Bool.eqb (f x) true) l = true).
  { intros l. rewrite !all_true. intros Hl x Hx. by rewrite (Hl x Hx). }
  induction lead as [|one lead IH]; intros other Hl Ho i x y Hx Hy Hxy j z Hj Hz; cbn [alternate] in *.
  { by rewrite (Hsame other false (Hflip _ Ho) j z Hz), (Hsame other false (Hflip _ Ho) i x Hx). }
  destruct other as [|two other].
  { pose proof (Hsame (one :: lead) true (Hkeep _ Hl)) as Hs. by rewrite (Hs j z Hz), (Hs i x Hx). }
  cbn [all forallb] in Hl, Ho. apply andb_true_iff in Hl as [Hone Hl]. apply andb_true_iff in Ho as [Htwo Ho]. apply negb_true_iff in Htwo.
  destruct i as [|[|i]].
  - injection Hx as <-. injection Hy as <-. congruence.
  - injection Hx as <-. destruct lead as [|x' lead].
    + cbn [alternate] in *. change (other !! 0%nat = Some y) in Hy. destruct j as [|[|j]]; [lia|by injection Hz as <-|]. change (other !! j = Some z) in Hz.
      by rewrite (Hsame other false (Hflip _ Ho) j z Hz).
    + exfalso. change (alternate (x' :: lead) other !! 0%nat = Some y) in Hy. cbn [alternate] in Hy. injection Hy as <-. cbn [all forallb] in Hl. apply andb_true_iff in Hl as [Hx' _]. congruence.
  - destruct j as [|[|j]]; [lia|lia|]. apply (IH other Hl Ho i x y Hx Hy Hxy j z); [lia|exact Hz].
Qed.

(** Every address is tried once at most, in the order of the resolver
    within each family, the two in turn from the family of the first. *)
Theorem addresses_alternate (addresses : list A) :
  ordered is_ipv6 addresses ≡ₚ addresses
  /\ (forall family, retain (fun a => Bool.eqb (is_ipv6 a) family) (ordered is_ipv6 addresses) = retain (fun a => Bool.eqb (is_ipv6 a) family) addresses)
  /\ head (ordered is_ipv6 addresses) = head addresses
  /\ (forall i x y, ordered is_ipv6 addresses !! i = Some x -> ordered is_ipv6 addresses !! S i = Some y -> is_ipv6 x = is_ipv6 y ->
      forall j z, (i <= j)%nat -> ordered is_ipv6 addresses !! j = Some z -> is_ipv6 z = is_ipv6 x).
Proof.
  unfold ordered. destruct addresses as [|first rest]; [done|]. set (l := first :: rest). set (f := fun a => Bool.eqb (is_ipv6 a) (is_ipv6 first)).
  assert (H1 : all f (retain f l) = true) by (apply all_true; intros x [_ Hx]%retain_In; done).
  assert (H2 : all (fun x => negb (f x)) (retain (fun a => negb (f a)) l) = true) by (apply all_true; intros x [_ Hx]%retain_In; done).
  destruct (alternate_retain f _ _ H1 H2) as [R1 R2]. split; [|split; [|split]].
  - rewrite alternate_perm. symmetry. apply (retain_either f).
  - intros family. destruct (Bool.eqb family (is_ipv6 first)) eqn:Ef.
    + apply Bool.eqb_prop in Ef as ->. exact R1.
    + assert (Hext : forall k, retain (fun a => Bool.eqb (is_ipv6 a) family) k = retain (fun a => negb (f a)) k).
      { intros k. unfold retain. apply List.filter_ext. intros a. unfold f. destruct (is_ipv6 a), family, (is_ipv6 first); done. }
      rewrite !Hext. exact R2.
  - unfold l, retain, f. cbn [List.filter]. rewrite Bool.eqb_reflx. by cbn [negb alternate head].
  - intros i x y Hx Hy Hxy j z Hj Hz. assert (Hf : f x = f y) by (unfold f; by rewrite Hxy).
    pose proof (alternate_turns f _ _ H1 H2 i x y Hx Hy Hf j z Hj Hz) as Hz'. unfold f in Hz'. destruct (is_ipv6 z), (is_ipv6 x), (is_ipv6 first); done.
Qed.
End Ordered.

(** ** What a race keeps to *)

Section Bounds.
Context {A T E : Type} (is_ipv6 : A -> bool) (timed_out nowhere : E).
Abbreviation Race := (Race A E).
Abbreviation Seen := (Seen T E).

(** What the clock and the attempts may do: the clock goes on; an answer
    is of an attempt alive; a wait without one lasts to the next address
    or the deadline. *)
Definition wake (timeout now : Z) (race : Race) : Z := match its_opening race now with Some at_ => Z.min at_ timeout | None => timeout end.

Definition launches (now : Z) (race : Race) : bool := match its_opening race now with Some at_ => at_ <=? now | None => false end.

Definition fair (timeout now : Z) (race : Race) (seen : Seen) : Prop :=
  now <= heard_at seen <= clock seen
  /\ match heard seen with
     | Some (id, _) => exists at_, flights race !! id = Some (Some at_)
     | None => launches now race = true \/ wake timeout now race <= clock seen
     end.

(** The states the loop goes through, at the clock of each turn. *)
Inductive reached (timeout : Z) (addresses : list A) : Z -> Race -> Prop :=
| at_start now : 0 <= now -> reached timeout addresses now (starting is_ipv6 addresses)
| at_turn now race seen race' : reached timeout addresses now race -> fair timeout now race seen ->
    turn timed_out nowhere timeout now race seen = Again race' -> reached timeout addresses (clock seen) race'.

Record kept (timeout : Z) (addresses : list A) (now : Z) (race : Race) : Prop := {
  in_turn : exists tried, ordered is_ipv6 addresses = tried ++ queue race /\ length tried = length (flights race);
  started_before : Forall (fun at_ => at_ <= now /\ at_ < timeout) (flying (flights race));
  oldest_first : StronglySorted Z.le (flying (flights race));
  few_alive : (alive (flights race) <= MOST)%nat;
  few_waiting : (length (waiting (flights race) now) <= AT_ONCE)%nat;
  staggered : forall at_, list.last (flights race) = Some (Some at_) -> next race = at_ + STAGGER;
}.

Lemma flying_app l k : flying (l ++ k) = flying l ++ flying k.
Proof. apply list.omap_app. Qed.

Lemma end_sublist (l : Flights) : forall id, sublist (flying (<[id := None]> l)) (flying l).
Proof.
  induction l as [|x l IH]; intros [|id]; cbn; try done; destruct x; by repeat constructor.
Qed.

Lemma end_one (l : Flights) : forall id at_, l !! id = Some (Some at_) -> S (alive (<[id := None]> l)) = alive l.
Proof.
  unfold alive. induction l as [|x l IH]; intros [|id] at_; cbn; [done|done|by intros [= ->]|]. intros Hl. specialize (IH id at_ Hl). destruct x; cbn; [by f_equal|done].
Qed.

Lemma sublist_alive l k : sublist (flying l) (flying k) -> (alive l <= alive k)%nat.
Proof. apply sublist_length. Qed.

Lemma waiting_later l k now now' : sublist (flying l) (flying k) -> now <= now' -> (length (waiting l now') <= length (waiting k now))%nat.
Proof.
  intros Hs Hn. unfold waiting, retain. induction Hs as [|x l' k' Hs IH|x l' k' Hs IH]; [done| |]; cbn [List.filter].
  - destruct (Z.ltb_spec now' (x + STALL)), (Z.ltb_spec now (x + STALL)); cbn [length]; lia.
  - destruct (now <? x + STALL); cbn [length]; lia.
Qed.

Lemma sublist_Forall {B} (P : B -> Prop) l k : sublist l k -> Forall P k -> Forall P l.
Proof. rewrite !List.Forall_forall. intros Hs Hk x Hx. apply Hk, list_elem_of_In. eapply elem_of_sublist; [by apply list_elem_of_In|done]. Qed.

(** An opening that has come leaves a place free. *)
Lemma opening_free l now next at_ : opening l now next = Some at_ -> at_ <= now ->
  (alive l < MOST)%nat /\ (length (waiting l now) < AT_ONCE)%nat /\ next <= now.
Proof.
  unfold opening. destruct (Nat.leb_spec MOST (alive l)) as [|Hm]; [done|]. intros Ho Hle. split; [done|]. destruct (Nat.ltb_spec (length (waiting l now)) AT_ONCE) as [Hw|Hw].
  - injection Ho as <-. done.
  - exfalso. injection Ho as <-. set (w := waiting l now) in *. assert (Hin : In (nth (length w - AT_ONCE) w 0) w) by (apply nth_In; unfold AT_ONCE in *; lia).
    apply (retain_In (fun at_ => now <? at_ + STALL) (flying l)) in Hin as [_ Hin]. lia.
Qed.

Lemma start_kept timeout addresses now : kept timeout addresses now (starting is_ipv6 addresses).
Proof. split; [by exists []|constructor|constructor|apply Nat.le_0_l|apply Nat.le_0_l|done]. Qed.

Lemma clock_kept timeout addresses now now' race : now <= now' -> kept timeout addresses now race -> kept timeout addresses now' race.
Proof.
  intros Hn [Ht Hb Ho Ha Hw Hs]. split; try done.
  - eapply List.Forall_impl; [|exact Hb]. cbn. intros at_ ?. lia.
  - etrans; [by apply (waiting_later (flights race) (flights race) now now')|done].
Qed.

Lemma end_kept timeout addresses now race id at_ error heard_at : kept timeout addresses now race -> flights race !! id = Some (Some at_) ->
  kept timeout addresses now {| queue := queue race; flights := <[id := None]> (flights race);
    next := if (id + 1 =? length (<[id := None]> (flights race)))%nat then heard_at else next race; last := Some error |}.
Proof.
  intros [(tried & Et & Hl) Hb Ho Ha Hw Hs] Hid. pose proof (end_sublist (flights race) id) as Hsub. split; cbn [queue flights next].
  - exists tried. by rewrite length_insert.
  - by eapply sublist_Forall.
  - by eapply StronglySorted_sublist.
  - etrans; [by apply sublist_alive|done].
  - etrans; [by apply waiting_later|done].
  - intros a Hlast. rewrite list.last_lookup, length_insert in Hlast. destruct (Nat.eqb_spec (id + 1) (length (<[id := None]> (flights race)))) as [El|El]; rewrite length_insert in El.
    + exfalso. replace (Nat.pred (length (flights race))) with id in Hlast by lia. apply lookup_lt_Some in Hid. rewrite list_lookup_insert_eq in Hlast by done. done.
    + apply lookup_lt_Some in Hid. apply Hs. rewrite list.last_lookup. rewrite list_lookup_insert_ne in Hlast by lia. done.
Qed.

Lemma launch_kept timeout addresses now race at_ address rest spawned : kept timeout addresses now race -> now < timeout ->
  opening (flights race) now (next race) = Some at_ -> at_ <= now -> queue race = address :: rest -> kept timeout addresses now (launch race now rest spawned).
Proof.
  intros [(tried & Et & Hl) Hb Ho Ha Hw Hs] Hto Hop Hle Hq. destruct (opening_free _ _ _ _ Hop Hle) as (Hfew & Hfree & _).
  assert (Htried : exists tried, ordered is_ipv6 addresses = tried ++ rest /\ length tried = S (length (flights race))).
  { exists (tried ++ [address]). rewrite Et, Hq, <- app_assoc, length_app, Hl. split; [done|]. cbn. lia. }
  unfold launch, start. destruct spawned as [error|].
  - cbn [end_flight fst]. rewrite insert_app_r_alt, Nat.sub_diag by lia. cbn [insert list_insert].
    assert (Hf : flying (flights race ++ [None]) = flying (flights race)) by (rewrite flying_app; apply app_nil_r).
    split; cbn [queue flights next]; unfold alive, waiting; rewrite ?Hf; try done.
    + destruct Htried as (tr & E1 & E2). exists tr. rewrite length_app. split; [done|]. cbn. lia.
    + intros a. by rewrite list.last_snoc.
  - assert (Hf : flying (flights race ++ [Some now]) = flying (flights race) ++ [now]) by (by rewrite flying_app).
    split; cbn [queue flights next].
    + destruct Htried as (tr & E1 & E2). exists tr. rewrite length_app. split; [done|]. cbn. lia.
    + rewrite Hf. apply list.Forall_app. split; [done|]. constructor; [lia|done].
    + rewrite Hf. apply StronglySorted_snoc; [done|]. intros a Ha'. rewrite List.Forall_forall in Hb. by apply Hb.
    + unfold alive. rewrite Hf, length_app. unfold alive in Hfew. cbn. lia.
    + unfold waiting. rewrite Hf, retain_app, length_app. unfold waiting in Hfree. assert ((length (retain (fun a : Z => (now <? a + STALL)%Z) [now]) <= 1)%nat) by (unfold retain; cbn [List.filter]; destruct (now <? now + STALL); cbn; lia).
      lia.
    + intros a. rewrite list.last_snoc. by intros [= <-].
Qed.

(** A turn that goes on, and why. *)
Lemma turn_cases timeout now (race : Race) (seen : Seen) (race' : Race) : turn timed_out nowhere timeout now race seen = Again race' ->
  now < timeout
  /\ ((exists at_ address rest, queue race = address :: rest /\ opening (flights race) now (next race) = Some at_ /\ at_ <= now /\ race' = launch race now rest (spawned seen))
     \/ (launches now race = false /\ (0 < alive (flights race) \/ its_opening race now <> None)%nat
         /\ ((heard seen = None /\ race' = race)
            \/ exists id error, heard seen = Some (id, Err error)
                 /\ race' = {| queue := queue race; flights := <[id := None]> (flights race);
                       next := if (id + 1 =? length (<[id := None]> (flights race)))%nat then heard_at seen else next race; last := Some error |}))).
Proof.
  unfold turn, launches, its_opening. destruct (Z.leb_spec timeout now) as [|Hto]; [done|]. intros Hturn. split; [done|].
  assert (Hhear : match heard seen with Some (id, answer) => hear race id answer (heard_at seen) | None => Again race end = Again race' ->
    (heard seen = None /\ race' = race) \/ exists id error, heard seen = Some (id, Err error)
      /\ race' = {| queue := queue race; flights := <[id := None]> (flights race);
            next := if (id + 1 =? length (<[id := None]> (flights race)))%nat then heard_at seen else next race; last := Some error |}).
  { destruct (heard seen) as [[id [c|e]]|]; [done| |by intros [= <-]; left]. intros Hh. right. exists id, e. split; [done|]. unfold hear, end_flight in Hh. rewrite length_insert.
    by injection Hh as <-. }
  destruct (queue race) as [|address rest] eqn:Eq.
  - right. split; [done|]. destruct (Nat.eqb_spec (alive (flights race)) 0) as [|Ha]; [done|]. cbn [andb] in Hturn. split; [left; lia|by apply Hhear].
  - destruct (opening (flights race) now (next race)) as [at_|] eqn:Eo.
    + destruct (Z.leb_spec at_ now) as [Hle|Hlt]; [injection Hturn as <-; left; by exists at_, address, rest|]. right. split; [done|]. split; [by right|by apply Hhear].
    + right. split; [done|]. destruct (Nat.eqb_spec (alive (flights race)) 0) as [|Ha]; [done|]. cbn [andb] in Hturn. split; [left; lia|by apply Hhear].
Qed.

Lemma turn_kept timeout addresses now (race : Race) (seen : Seen) race' : kept timeout addresses now race -> fair timeout now race seen ->
  turn timed_out nowhere timeout now race seen = Again race' -> kept timeout addresses (clock seen) race'.
Proof.
  intros Hk [Hclock Hheard] Hturn. apply (clock_kept timeout addresses now); [lia|].
  destruct (turn_cases _ _ _ _ _ Hturn) as [Hto [(at_ & address & rest & Hq & Ho & Hle & ->)|(_ & _ & [[_ ->]|(id & error & Hh & ->)])]]; [by eapply launch_kept|done|].
  rewrite Hh in Hheard. destruct Hheard as [at_ Hid]. by eapply end_kept.
Qed.

Lemma reached_kept timeout addresses now race : reached timeout addresses now race -> kept timeout addresses now race.
Proof. induction 1 as [now _|now race seen race' _ IH Hfair Hturn]; [apply start_kept|by eapply turn_kept]. Qed.

(** C33: However long the addresses take to answer, and in whatever order, no
    more than sixteen attempts are alive and no more than five still
    expected to answer; the addresses are taken in the order of the race,
    one attempt each; and one is started only before the deadline, with a
    place free, and not within a quarter of a second of the one before,
    unless that one failed. *)
Theorem race_stays_bounded timeout addresses now race : reached timeout addresses now race ->
  (exists tried, ordered is_ipv6 addresses = tried ++ queue race /\ length tried = length (flights race))
  /\ (alive (flights race) <= MOST)%nat /\ (length (waiting (flights race) now) <= AT_ONCE)%nat
  /\ Forall (fun at_ => at_ <= now /\ at_ < timeout) (flying (flights race))
  /\ forall (seen : Seen) race', turn timed_out nowhere timeout now race seen = Again race' -> (length (flights race) < length (flights race'))%nat ->
     now < timeout /\ (alive (flights race) < MOST)%nat /\ (length (waiting (flights race) now) < AT_ONCE)%nat
     /\ forall at_, list.last (flights race) = Some (Some at_) -> at_ + STAGGER <= now.
Proof.
  intros Hr. apply reached_kept in Hr as [Ht Hb Ho Ha Hw Hs]. repeat (split; [done|]). intros seen race' Hturn Hmore.
  destruct (turn_cases _ _ _ _ _ Hturn) as [Hto [(at_ & address & rest & Hq & Hop & Hle & ->)|(_ & _ & [[_ ->]|(id & error & Hh & ->)])]].
  - destruct (opening_free _ _ _ _ Hop Hle) as (Hfew & Hfree & Hnext). split; [done|]. split; [done|]. split; [done|]. intros a Hlast. by rewrite <- (Hs a Hlast).
  - lia.
  - cbn [flights] in Hmore. rewrite length_insert in Hmore. lia.
Qed.

(** ** It ends *)

(** Observations of one race, each fair at its turn. *)
Fixpoint following (timeout now : Z) (race : Race) (seens : list Seen) : Prop :=
  match seens with
  | [] => True
  | seen :: seens =>
    fair timeout now race seen
    /\ match turn timed_out nowhere timeout now race seen with Again race' => following timeout (clock seen) race' seens | Over _ => True end
  end.

#[global] Instance fair_dec timeout now race seen : Decision (fair timeout now race seen).
Proof.
  unfold fair. refine (and_dec _ _). destruct (heard seen) as [[id answer]|]; [|apply _].
  destruct (flights race !! id) as [[at_|]|]; [left; by exists at_|right; by intros [? ?]..].
Defined.

#[global] Instance following_dec timeout now race seens : Decision (following timeout now race seens).
Proof.
  revert now race. induction seens as [|seen seens IH]; intros now race; cbn [following]; [apply _|]. refine (and_dec _ _).
  destruct (turn timed_out nowhere timeout now race seen); apply _.
Defined.

Definition left_to_do (race : Race) : nat := (2 * length (queue race) + alive (flights race))%nat.

(** What an opening waits for has come by then. *)
Lemma nth_sorted_waiting (l : list Z) : StronglySorted Z.le l -> forall n now, (n < length l)%nat -> nth n l 0 + STALL <= now ->
  (length (retain (fun at_ => (now <? at_ + STALL)%Z) l) <= length l - S n)%nat.
Proof.
  induction 1 as [|x l Hs IH Hx]; intros n now Hn Hle; cbn [length] in *; [lia|]. unfold retain. cbn [List.filter]. destruct n as [|n]; cbn [nth] in Hle.
  - replace (now <? x + STALL) with false by lia. etrans; [apply (retain_length (fun at_ => (now <? at_ + STALL)))|lia].
  - assert (x <= nth n l 0) by (rewrite List.Forall_forall in Hx; apply Hx, nth_In; lia). replace (now <? x + STALL) with false by lia. etrans; [apply (IH n now); lia|lia].
Qed.

Lemma opening_due l now now' next at_ : StronglySorted Z.le (flying l) -> opening l now next = Some at_ -> at_ <= now' -> now <= now' ->
  opening l now' next = Some next /\ next <= now'.
Proof.
  unfold opening. intros Hs. destruct (MOST <=? alive l)%nat; [done|]. intros Ho Hle Hn. pose proof (waiting_later l l now now' ltac:(done) Hn) as Hlen.
  destruct (Nat.ltb_spec (length (waiting l now)) AT_ONCE) as [Hw|Hw].
  { injection Ho as <-. replace (length (waiting l now') <? AT_ONCE)%nat with true by (symmetry; apply Nat.ltb_lt; lia). done. }
  injection Ho as <-. split; [|lia]. assert (Hsub : StronglySorted Z.le (waiting l now)) by (eapply StronglySorted_sublist; [apply retain_sublist|done]).
  assert (Hfew : (length (waiting l now') < AT_ONCE)%nat).
  { assert (Hin : (length (waiting l now) - AT_ONCE < length (waiting l now))%nat) by (unfold AT_ONCE in *; lia).
    pose proof (nth_sorted_waiting _ Hsub _ now' Hin ltac:(lia)) as Hle'. unfold waiting in Hle' at 1. rewrite retain_retain in Hle'.
    replace (retain _ (flying l)) with (waiting l now') in Hle'; [unfold AT_ONCE in *; lia|]. unfold waiting, retain. apply List.filter_ext. intros a. lia. }
  by replace (length (waiting l now') <? AT_ONCE)%nat with true by (symmetry; apply Nat.ltb_lt; lia).
Qed.

Lemma progress timeout now (race : Race) (seen : Seen) race' : fair timeout now race seen -> turn timed_out nowhere timeout now race seen = Again race' ->
  (left_to_do race' < left_to_do race)%nat \/ race' = race /\ wake timeout now race <= clock seen.
Proof.
  intros [_ Hheard] Hturn. destruct (turn_cases _ _ _ _ _ Hturn) as [_ [(at_ & address & rest & Hq & Ho & Hle & ->)|(Hl & _ & [[Hh ->]|(id & error & Hh & ->)])]]; rewrite ?Hh in Hheard.
  - left. unfold left_to_do, launch, start. rewrite Hq. destruct (spawned seen) as [error|]; cbn [queue flights end_flight fst length].
    + rewrite insert_app_r_alt, Nat.sub_diag by lia. unfold alive. rewrite flying_app. cbn. rewrite app_nil_r. lia.
    + unfold alive. rewrite flying_app, length_app. cbn. lia.
  - right. split; [done|]. destruct Hheard as [Hw|Hw]; [congruence|done].
  - left. destruct Hheard as [at_ Hid]. unfold left_to_do. cbn [queue flights]. rewrite <- (end_one _ _ _ Hid). lia.
Qed.

(** A wait over, the next turn starts an attempt or is the last. *)
Lemma after_wait timeout addresses now now' (race : Race) (seen : Seen) race' : kept timeout addresses now race -> wake timeout now race <= now' -> now <= now' ->
  fair timeout now' race seen -> turn timed_out nowhere timeout now' race seen = Again race' -> (left_to_do race' < left_to_do race)%nat.
Proof.
  intros Hk Hwake Hn Hfair Hturn. destruct (turn_cases _ _ _ _ _ Hturn) as [Hto Hcase]. destruct (progress _ _ _ _ _ Hfair Hturn) as [|[-> _]]; [done|]. exfalso.
  assert (Hl : launches now' race = true).
  { unfold wake, launches, its_opening in *. destruct (queue race) as [|address rest]; [lia|]. destruct (opening (flights race) now (next race)) as [at_|] eqn:Eo; [|lia].
    destruct (opening_due _ _ now' _ _ (oldest_first _ _ _ _ Hk) Eo) as [-> Hle]; [lia|done|]. by apply Z.leb_le. }
  destruct Hcase as [(at_ & address & rest & Hq & Ho & Hle & Hr)|(Hn' & _)]; [|congruence].
  apply (f_equal (fun r => length (queue r))) in Hr. unfold launch, start in Hr. rewrite Hq in Hr. destruct (spawned seen); cbn [queue length] in Hr; lia.
Qed.

Lemma ends_within n : forall timeout addresses now (race : Race) (seens : list Seen), (left_to_do race <= n)%nat -> kept timeout addresses now race ->
  following timeout now race seens -> (2 * n + 2 <= length seens)%nat -> exists answer, turns timed_out nowhere timeout now race seens = Some answer.
Proof.
  induction n as [n IH] using lt_wf_ind. intros timeout addresses now race seens Hn Hk Hf Hlen. destruct seens as [|seen [|seen2 seens]]; [cbn in Hlen; lia..|].
  cbn [following turns] in *. destruct Hf as [Hfair Hf]. destruct (turn timed_out nowhere timeout now race seen) as [race1|answer] eqn:E1; [|by exists answer].
  pose proof (turn_kept _ _ _ _ _ _ Hk Hfair E1) as Hk1.
  cbn [length] in Hlen. destruct (progress _ _ _ _ _ Hfair E1) as [Hless|[-> Hwake]].
  - apply (IH (n - 1)%nat ltac:(lia) timeout addresses _ race1 (seen2 :: seens)); [lia|done|done|cbn [length]; lia].
  - destruct Hf as [Hfair2 Hf]. destruct (turn timed_out nowhere timeout (clock seen) race seen2) as [race2|answer] eqn:E2; [|by exists answer].
    pose proof (after_wait _ _ _ _ _ _ _ Hk Hwake ltac:(destruct Hfair; lia) Hfair2 E2) as Hless. pose proof (turn_kept _ _ _ _ _ _ Hk1 Hfair2 E2) as Hk2.
    apply (IH (n - 1)%nat ltac:(lia) timeout addresses _ race2 seens); [lia|done|done|lia].
Qed.

(** ** What it answers *)

Lemma turn_over timeout now (race : Race) (seen : Seen) answer : turn timed_out nowhere timeout now race seen = Over answer ->
  answer = failed timed_out nowhere race /\ (timeout <= now \/ alive (flights race) = 0%nat /\ its_opening race now = None)
  \/ exists id connected, heard seen = Some (id, Ok connected) /\ answer = Ok connected.
Proof.
  unfold turn. destruct (Z.leb_spec timeout now) as [Hto|Hto]; [intros [= <-]; left; by split; [|left]|].
  assert (Hhear : match heard seen with Some (id, answer) => hear race id answer (heard_at seen) | None => Again race end = Over answer ->
    exists id connected, heard seen = Some (id, Ok connected) /\ answer = Ok connected).
  { destruct (heard seen) as [[id [c|e]]|]; [|done..]. intros [= <-]. by exists id, c. }
  destruct (its_opening race now) as [at_|] eqn:Eo; destruct (queue race) as [|address rest].
  - rewrite andb_false_r. intros Hh. right. by apply Hhear.
  - destruct (at_ <=? now); [done|]. intros Hh. right. by apply Hhear.
  - rewrite andb_true_r. destruct (Nat.eqb_spec (alive (flights race)) 0); [intros [= <-]; left; split; [done|by right]|]. intros Hh. right. by apply Hhear.
  - rewrite andb_true_r. destruct (Nat.eqb_spec (alive (flights race)) 0); [intros [= <-]; left; split; [done|by right]|]. intros Hh. right. by apply Hhear.
Qed.

(** An attempt that is over left a failure behind. *)
Definition failures_kept (race : Race) : Prop := last race = None -> alive (flights race) = length (flights race).

Lemma turn_failures timeout now (race : Race) (seen : Seen) race' : failures_kept race -> turn timed_out nowhere timeout now race seen = Again race' ->
  failures_kept race' /\ forall error, last race' = Some error -> last race = Some error \/ spawned seen = Some error \/ exists id, heard seen = Some (id, Err error).
Proof.
  intros Hj Hturn. destruct (turn_cases _ _ _ _ _ Hturn) as [_ [(at_ & address & rest & Hq & Ho & Hle & ->)|(_ & _ & [[_ ->]|(id & e & Hh & ->)])]].
  - unfold launch, start, failures_kept in *. destruct (spawned seen) as [e|]; cbn [last flights]; [split; [done|]; intros error [= ->]; by right; left|].
    split; [|by left]. intros Hl. unfold alive in *. rewrite flying_app, !length_app, Hj by done. done.
  - split; [done|by left].
  - split; [done|]. intros error [= ->]. right; right. by exists id.
Qed.

(** The turn a run ends at: its clock, and the state it met. *)
Fixpoint ending (timeout now : Z) (race : Race) (seens : list Seen) : Z * Race :=
  match seens with
  | [] => (now, race)
  | seen :: seens =>
    match turn timed_out nowhere timeout now race seen with
    | Again race' => ending timeout (clock seen) race' seens
    | Over _ => (now, race)
    end
  end.

(** The failures of a run, in order: of the attempts that could not be
    started, and of those that answered. *)
Fixpoint failures (timeout now : Z) (race : Race) (seens : list Seen) : list E :=
  match seens with
  | [] => []
  | seen :: seens =>
    match turn timed_out nowhere timeout now race seen with
    | Again race' =>
      (if launches now race then match spawned seen with Some error => [error] | None => [] end
       else match heard seen with Some (_, Err error) => [error] | _ => [] end)
      ++ failures timeout (clock seen) race' seens
    | Over _ => []
    end
  end.

Lemma turn_last timeout now (race : Race) (seen : Seen) race' : turn timed_out nowhere timeout now race seen = Again race' ->
  last race' = match (if launches now race then spawned seen else match heard seen with Some (_, Err error) => Some error | _ => None end) with
               | Some error => Some error
               | None => last race
               end.
Proof.
  intros Hturn. destruct (turn_cases _ _ _ _ _ Hturn) as [_ [(at_ & address & rest & Hq & Ho & Hle & ->)|(Hl & _ & [[Hh ->]|(id & e & Hh & ->)])]].
  - assert (launches now race = true) as -> by (unfold launches, its_opening; rewrite Hq, Ho; by apply Z.leb_le). unfold launch, start. by destruct (spawned seen).
  - by rewrite Hl, Hh.
  - by rewrite Hl, Hh.
Qed.

(** How a run that is over answers. *)
Definition answers_right (timeout : Z) (over_at : Z) (final : Race) (seens : list Seen) (answer : result T E) : Prop :=
  match answer with
  | Ok connected => exists seen id, In seen seens /\ heard seen = Some (id, Ok connected)
  | Err error =>
    timeout <= over_at /\ (queue final <> [] \/ (0 < alive (flights final))%nat) /\ error = timed_out
    \/ queue final = [] /\ alive (flights final) = 0%nat /\ error = unwrap_or (last final) nowhere
  end.

Lemma failed_right timeout now (race : Race) seens : timeout <= now \/ alive (flights race) = 0%nat /\ its_opening race now = None ->
  answers_right timeout now race seens (failed timed_out nowhere race).
Proof.
  intros Hover. unfold failed. cbn [answers_right]. destruct (Nat.ltb_spec 0 (alive (flights race))) as [Ha|Ha]; cbn [orb].
  { left. destruct Hover as [Hto|[Hz _]]; [split; [done|]; split; [by right|done]|lia]. }
  destruct (queue race) as [|address rest] eqn:Eq; cbn [negb]; [right; split; [done|]; split; [lia|done]|]. left.
  destruct Hover as [Hto|[Hz Ho]]; [split; [done|]; split; [by left|done]|]. exfalso. unfold its_opening, opening in Ho. rewrite Eq, Hz in Ho. done.
Qed.

Lemma answer_said (seens : list Seen) : forall timeout now (race : Race) answer, failures_kept race ->
  turns timed_out nowhere timeout now race seens = Some answer ->
  let '(over_at, final) := ending timeout now race seens in
  answers_right timeout over_at final seens answer /\ failures_kept final
  /\ last final = match list.last (failures timeout now race seens) with Some error => Some error | None => last race end.
Proof.
  induction seens as [|seen seens IH]; intros timeout now race answer Hj Ht; [done|]. cbn [ending failures turns] in *.
  destruct (turn timed_out nowhere timeout now race seen) as [race'|over] eqn:Eturn.
  - destruct (turn_failures _ _ _ _ _ Hj Eturn) as [Hj' _]. specialize (IH _ _ _ _ Hj' Ht). destruct (ending _ _ race' seens) as [over_at final]. destruct IH as (Ha & Hk & Hl). split; [|split; [done|]].
    + destruct answer as [c|error]; [|exact Ha]. destruct Ha as (s & id & Hin & Hh). exists s, id. by split; [right|].
    + rewrite list.last_app, Hl, (turn_last _ _ _ _ _ Eturn). destruct (list.last (failures _ _ race' seens)); [done|].
      destruct (launches now race); [by destruct (spawned seen)|]. by destruct (heard seen) as [[id [c|e]]|].
  - injection Ht as ->. split; [|by split]. destruct (turn_over _ _ _ _ _ Eturn) as [[-> Hover]|(id & c & Hh & ->)]; [by apply failed_right|]. exists seen, id. by split; [left|].
Qed.

Lemma ending_kept timeout addresses (seens : list Seen) : forall now (race : Race), kept timeout addresses now race -> following timeout now race seens ->
  let '(over_at, final) := ending timeout now race seens in kept timeout addresses over_at final.
Proof.
  induction seens as [|seen seens IH]; intros now race Hk Hf; [exact Hk|]. cbn [ending following] in *. destruct Hf as [Hfair Hf].
  destruct (turn timed_out nowhere timeout now race seen) as [race'|over] eqn:Eturn; [|exact Hk]. apply IH; [by eapply turn_kept|done].
Qed.

(** C32: A race ends: within two turns for each address to start, two for each
    to answer, and two more. Its connection is one an attempt made. It
    fails as timed out only once its deadline has passed with addresses
    left or attempts still silent; with none of either, it fails as the
    last attempt that failed did, or, when there was no address to try,
    for that. *)
Theorem race_ends addresses timeout now seens :
  following (Z.min timeout LONGEST) now (starting is_ipv6 addresses) seens -> (4 * length addresses + 2 <= length seens)%nat ->
  exists answer, race is_ipv6 timed_out nowhere addresses timeout now seens = Some answer
  /\ let '(over_at, final) := ending (Z.min timeout LONGEST) now (starting is_ipv6 addresses) seens in
     let failed_with := failures (Z.min timeout LONGEST) now (starting is_ipv6 addresses) seens in
     match answer with
     | Ok connected => exists seen id, In seen seens /\ heard seen = Some (id, Ok connected)
     | Err error =>
       Z.min timeout LONGEST <= over_at /\ (queue final <> [] \/ (0 < alive (flights final))%nat) /\ error = timed_out
       \/ queue final = [] /\ alive (flights final) = 0%nat
          /\ match list.last failed_with with Some latest => error = latest | None => addresses = [] /\ error = nowhere end
     end.
Proof.
  intros Hf Hlen. pose proof (start_kept (Z.min timeout LONGEST) addresses now) as Hk.
  assert (Hleft : left_to_do (starting is_ipv6 addresses) = (2 * length addresses)%nat).
  { unfold left_to_do. cbn [starting queue flights]. rewrite (Permutation_length (proj1 (addresses_alternate is_ipv6 addresses))). change (alive []) with 0%nat. lia. }
  destruct (ends_within (2 * length addresses) _ _ _ _ seens (Nat.eq_le_incl _ _ Hleft) Hk Hf ltac:(lia)) as [answer Ha]. exists answer. split; [exact Ha|].
  assert (Hj : failures_kept (starting is_ipv6 addresses)) by done. pose proof (answer_said seens _ _ _ _ Hj Ha) as Hs. pose proof (ending_kept _ _ seens _ _ Hk Hf) as Hend.
  destruct (ending _ _ _ seens) as [over_at final]. cbn zeta. destruct Hs as (Hs & Hjf & Hl). destruct answer as [c|error]; [exact Hs|]. destruct Hs as [?|(Hq & Hz & ->)]; [by left|]. right.
  split; [done|]. split; [done|]. rewrite Hl. destruct (list.last _) as [latest|] eqn:El; [done|]. split; [|done]. cbn [last starting] in Hl. specialize (Hjf Hl).
  destruct (in_turn _ _ _ _ Hend) as (tried & Et & Hn). rewrite Hq, app_nil_r in Et. assert (Hzero : length tried = 0%nat) by lia. apply nil_length_inv in Hzero. rewrite Hzero in Et.
  pose proof (Permutation_length (proj1 (addresses_alternate is_ipv6 addresses))) as Hp. rewrite Et in Hp. by apply nil_length_inv.
Qed.
End Bounds.

(** ** An example: a silent address, then one that answers *)

Module Demo.
Definition addresses : list (bool * string) := [(true, "2001::1"); (true, "2001::2"); (false, "192.0.2.1")].
Definition silent (clock_ : Z) : Seen string string := {| spawned := None; heard := None; heard_at := clock_; clock := clock_ |}.
Definition answers (id : nat) (answer : result string string) (clock_ : Z) : Seen string string :=
  {| spawned := None; heard := Some (id, answer); heard_at := clock_; clock := clock_ |}.
(** The first is started, waited for, the second started beside it, and it
    connects. *)
Definition seens : list (Seen string string) :=
  [silent (millis 0); silent (millis 250); silent (millis 250); answers 1 (Ok "connected") (millis 300)] ++ repeat (silent (millis 5000)) 10.
Definition dial : option (result string string) := race (A := bool * string) fst "timed out" "nowhere" addresses (millis 5000) 0 seens.
Definition waited : Race (bool * string) string :=
  {| queue := [(false, "192.0.2.1"); (true, "2001::2")]; flights := [Some 0]; next := millis 250; last := None |}.
Definition under_way : Race (bool * string) string :=
  {| queue := [(true, "2001::2")]; flights := [Some 0; Some (millis 250)]; next := millis 500; last := None |}.
End Demo.

Lemma race_stays_bounded_witness :
  reached (T := string) fst "timed out" "nowhere" (millis 5000) Demo.addresses (millis 250) Demo.under_way /\ (alive (flights Demo.under_way) <= MOST)%nat.
Proof.
  assert (Hr : reached (T := string) fst "timed out" "nowhere" (millis 5000) Demo.addresses (millis 250) Demo.under_way).
  { apply (at_turn (T := string) fst "timed out" "nowhere" (millis 5000) Demo.addresses (millis 250) Demo.waited (Demo.silent (millis 250))); [|by refine (bool_decide_unpack _ _); vm_compute|by vm_compute].
    apply (at_turn (T := string) fst "timed out" "nowhere" (millis 5000) Demo.addresses 0 Demo.waited (Demo.silent (millis 250))); [|by refine (bool_decide_unpack _ _); vm_compute|by vm_compute].
    apply (at_turn (T := string) fst "timed out" "nowhere" (millis 5000) Demo.addresses 0 (starting fst Demo.addresses) (Demo.silent (millis 0))); [|by refine (bool_decide_unpack _ _); vm_compute|by vm_compute].
    by apply at_start. }
  split; [exact Hr|]. apply (race_stays_bounded _ _ _ _ _ _ _ Hr).
Defined.

Lemma race_ends_witness : Demo.dial = Some (Ok "connected") /\ exists answer, Demo.dial = Some answer.
Proof.
  split; [by vm_compute|]. destruct (race_ends (A := bool * string) fst "timed out" "nowhere" Demo.addresses (millis 5000) 0 Demo.seens) as (answer & Ha & _).
  - refine (bool_decide_unpack _ _); by vm_compute.
  - vm_compute. lia.
  - by exists answer.
Defined.
