(* ===== verification/Addresses.v ===== *)
(** [wallet/mod.rs], [wallet/snapshot.rs] and the watched addresses of
    [wallet/views.rs] and [manager/sync.rs]: the state of an address, how
    a screen sees it, what a sync of it moved, and how the older rounds
    it loaded are kept. *)
From S2P Require Import Prelude Text Errors Network Store News Status F64 TxExtras.

(** ** The state of a watched address *)

Record TxIo := {
  io_address : option string;
  io_value_sats : option Z;
  is_mine : bool;
  io_change : bool;
  io_op_return : option OpReturnData;
  prev_txid : option string;
  prev_vout : option Z;
}.

Record AddressTx := {
  at_txid : string;
  at_net_sats : Z;
  at_fee_sats : option Z;
  at_height : option Z;
  at_timestamp : option Z;
  at_vsize : Z;
  at_inputs : list TxIo;
  at_outputs : list TxIo;
  at_extras : option TxExtras;
}.

Record AddressUtxo := { au_txid : string; au_vout : Z; au_value_sats : Z; au_height : option Z; au_timestamp : option Z }.

Record AddressWatchState := {
  txs : list AddressTx;
  utxos : list AddressUtxo;
  tip_height : Z;
  truncated : bool;
  history_cursor : option string;
}.

(** [AddressTx::pays]. *)
Definition tx_pays (tx : AddressTx) (vout value : Z) : bool :=
  match at_outputs tx !! Z.to_nat vout with
  | Some out => is_mine out && bool_decide (io_value_sats out = Some value)
  | None => false
  end.

(** ** What a screen is given *)

Record BalanceSnapshot := {
  b_confirmed : Z;
  trusted_pending : Z;
  untrusted_pending : Z;
  immature : Z;
  b_total : Z;
  pending_net_sats : option Z;
}.

Module TxStatus.
Inductive TxStatus := Confirmed (height : Z) (timestamp : option Z) | Pending.
End TxStatus.
Export TxStatus (TxStatus).

Record TxSummary := { s_txid : string; s_net_sats : Z; s_fee_sats : option Z; s_status : TxStatus; s_confirmations : Z }.

Record TxDetail := {
  d_summary : TxSummary;
  d_tx_inputs : list TxIo;
  d_tx_outputs : list TxIo;
  d_vsize : Z;
  d_fee_rate_sat_vb : option f64;
  d_extras : option TxExtras;
}.

Inductive Keychain := External | Internal.

Record UtxoInfo := {
  u_txid : string;
  u_vout : Z;
  u_address : option string;
  u_value_sats : Z;
  u_status : TxStatus;
  u_keychain : option Keychain;
  u_derivation_index : option Z;
}.

Definition confirmations (height tip : Z) : Z := sat_add_u32 (sat_sub tip height) 1.

Definition summary (txid : string) (net_sats : Z) (fee_sats : option Z) (status : TxStatus) (tip : Z) : TxSummary :=
  {| s_txid := txid; s_net_sats := net_sats; s_fee_sats := fee_sats; s_status := status;
     s_confirmations := match status with TxStatus.Confirmed height _ => confirmations height tip | TxStatus.Pending => 0 end |}.

(** [sort_summaries]: pending first, then the highest block first, by
    txid. *)
Definition summary_key (t : TxSummary) : Z * Z :=
  match s_status t with TxStatus.Pending => (0, 0) | TxStatus.Confirmed height _ => (1, - height) end.

Definition summary_le (a b : TxSummary) : bool :=
  let (a1, a2) := summary_key a in
  let (b1, b2) := summary_key b in
  (a1 <? b1) || ((a1 =? b1) && ((a2 <? b2) || ((a2 =? b2) && String.leb (s_txid a) (s_txid b)))).

Definition sort_summaries (txs : list TxSummary) : list TxSummary := sort_by summary_le txs.

Definition sat_add_i64 (a b : Z) : Z := Z.max i64_min (Z.min i64_max (a + b)).

(** [pending_net]. *)
Definition pending_net (nets : list Z) : option Z :=
  foldl (fun sum net => Some (sat_add_i64 (unwrap_or sum 0) net)) None nets.

Definition funded (state : AddressWatchState) (confirmed : bool) : Z :=
  foldl (fun sum u => sat_add_u64 sum (au_value_sats u)) 0 (retain (fun u => Bool.eqb (is_some (au_height u)) confirmed) (utxos state)).

Definition address_balance (state : AddressWatchState) : BalanceSnapshot :=
  {| b_confirmed := funded state true; trusted_pending := 0; untrusted_pending := funded state false; immature := 0;
     b_total := sat_add_u64 (funded state true) (funded state false);
     pending_net_sats := pending_net (List.map at_net_sats (retain (fun tx => negb (is_some (at_height tx))) (txs state))) |}.

Definition address_tx_status (tx : AddressTx) : TxStatus :=
  match at_height tx with Some height => TxStatus.Confirmed height (at_timestamp tx) | None => TxStatus.Pending end.

Definition address_summary (state : AddressWatchState) (tx : AddressTx) : TxSummary :=
  summary (at_txid tx) (at_net_sats tx) (at_fee_sats tx) (address_tx_status tx) (tip_height state).

Definition address_tx_summaries (state : AddressWatchState) : list TxSummary :=
  sort_summaries (List.map (address_summary state) (txs state)).

Definition address_tx_detail (state : AddressWatchState) (txid : string) : CoreResult TxDetail :=
  match List.find (fun t => bool_decide (at_txid t = txid)) (txs state) with
  | None => Err (WalletNotFound ("transaction " +:+ txid +:+ " not in wallet"))
  | Some tx =>
    Ok {| d_summary := address_summary state tx; d_tx_inputs := at_inputs tx; d_tx_outputs := at_outputs tx; d_vsize := at_vsize tx;
          d_fee_rate_sat_vb := match at_fee_sats tx with
                               | Some fee => if 0 <? at_vsize tx then Some (f64_div (f64_of fee) (f64_of (at_vsize tx))) else None
                               | None => None
                               end;
          d_extras := at_extras tx |}
  end.

Definition utxo_info (address : string) (utxo : AddressUtxo) : UtxoInfo :=
  {| u_txid := au_txid utxo; u_vout := au_vout utxo; u_address := Some address; u_value_sats := au_value_sats utxo;
     u_status := match au_height utxo with Some height => TxStatus.Confirmed height (au_timestamp utxo) | None => TxStatus.Pending end;
     u_keychain := None; u_derivation_index := None |}.

Definition address_utxos (state : AddressWatchState) (address : string) : list UtxoInfo :=
  sort_by (fun a b => u_value_sats b <=? u_value_sats a) (List.map (utxo_info address) (utxos state)).

(** ** The status of its history *)

Section AddressStatus.
(** [txid.parse::<Txid>()]; SHA-256. *)
Variables (parse_txid : string -> option string) (sha256 : string -> string).

Definition address_entry (tx : AddressTx) : option (string * Z) :=
  match parse_txid (at_txid tx) with
  | Some txid => let height := unwrap_or (at_height tx) 0 in if height <=? 2147483647 then Some (txid, height) else None
  | None => None
  end.

Definition entry_le (a b : string * Z) : bool :=
  let waits (e : string * Z) : Z := if e.2 <=? 0 then 1 else 0 in
  (waits a <? waits b) || ((waits a =? waits b) && ((a.2 <? b.2) || ((a.2 =? b.2) && String.leb a.1 b.1))).

Definition address_entries (state : AddressWatchState) : option (list (string * Z)) :=
  option_map (sort_by entry_le) (collect_opt (List.map address_entry (txs state))).

Definition address_status (state : AddressWatchState) : option string :=
  match address_entries state with
  | Some [] | None => None
  | Some history => Some (history_status sha256 history)
  end.

Definition waiting (history : list (string * Z)) : list (string * Z) :=
  if any (fun '(_, height) => height <=? 0) history then history else [].

Definition address_history (state : AddressWatchState) : list (string * Z) :=
  unwrap_or (option_map waiting (address_entries state)) [].
End AddressStatus.

(** ** What a sync moved *)

Definition MEMPOOL_PER_ROUND : nat := 50.

Definition mempool_page_full (watch : AddressWatchState) : bool :=
  (MEMPOOL_PER_ROUND <=? length (retain (fun tx => negb (is_some (at_height tx))) (txs watch)))%nat.

Definition ids (state : AddressWatchState) : gset string := list_to_set (List.map at_txid (txs state)).

Definition address_recheck (txids : list string) (watch : AddressWatchState) : Recheck :=
  {| held := list_to_set (retain (fun txid => bool_decide (txid ∈ ids watch)) txids);
     reread := if mempool_page_full watch then ∅
               else list_to_set (retain (fun txid => negb (bool_decide (txid ∈ ids watch))) txids) |}.

Definition spent_by (input : TxIo) : option (string * Z) :=
  match prev_txid input, prev_vout input with Some txid, Some vout => Some (txid, vout) | _, _ => None end.

Definition address_seen (tx : AddressTx) : Seen :=
  {| txid := at_txid tx; net_sats := at_net_sats tx; confirmed := is_some (at_height tx); spends := omap spent_by (at_inputs tx) |}.

(** Each txid held before, and whether it was in a block; the last entry
    of a txid stands. *)
Definition before_of (held_before : list AddressTx) : gmap string bool :=
  foldl (fun before tx => <[at_txid tx := is_some (at_height tx)]> before) ∅ held_before.

Definition address_moves (previous : option AddressWatchState) (watch : AddressWatchState) : Moves :=
  let held_before := match previous with Some state => txs state | None => [] end in
  let before := before_of held_before in
  let pending_before := retain (fun tx => negb (is_some (at_height tx))) held_before in
  let page_full := mempool_page_full watch in
  {| new := List.map address_seen (retain (fun tx => negb (is_some (before !! at_txid tx))) (txs watch));
     m_confirmed := List.map address_seen (retain (fun tx => is_some (at_height tx) && bool_decide (before !! at_txid tx = Some false)) (txs watch));
     gone := List.map address_seen (retain (fun tx => negb page_full && negb (bool_decide (at_txid tx ∈ ids watch))) pending_before);
     pending_before := List.map address_seen pending_before |}.

(** ** The older rounds *)

(** [keep_older_history] of [manager/sync.rs]. *)
Definition oldest_of (state : AddressWatchState) : option Z :=
  foldl (fun least height => Some (match least with Some least => Z.min least height | None => height end)) None (omap at_height (txs state)).

Definition keep_older_history (watch previous : AddressWatchState) : AddressWatchState :=
  match oldest_of watch with
  | None => watch
  | Some oldest_fresh =>
    let older := retain (fun tx => negb (bool_decide (at_txid tx ∈ ids watch)))
                   (retain (fun tx => match at_height tx with Some height => height <? oldest_fresh | None => false end) (txs previous)) in
    match older with
    | [] => watch
    | _ =>
      {| txs := txs watch ++ older; utxos := utxos watch; tip_height := tip_height watch;
         truncated := is_some (history_cursor previous); history_cursor := history_cursor previous |}
    end
  end.

(** What [load_more_history] makes of a round it fetched: the state, and
    how many transactions were added. *)
Definition add_round (watch : AddressWatchState) (round_txs : list AddressTx) (cursor : option string) : AddressWatchState * Z :=
  let fresh := retain (fun tx => negb (bool_decide (at_txid tx ∈ ids watch))) round_txs in
  ({| txs := txs watch ++ fresh; utxos := utxos watch; tip_height := tip_height watch; truncated := is_some cursor; history_cursor := cursor |},
   wrap_u32 (Z.of_nat (length fresh))).

(** ** What they promise *)

Lemma is_some_true {A} (o : option A) : is_some o = true <-> exists a, o = Some a.
Proof. destruct o as [a|]; simpl; split; [by exists a|done|done|by intros [? ?]]. Qed.

Lemma ids_In state id : id ∈ ids state <-> In id (List.map at_txid (txs state)).
Proof. unfold ids. by rewrite elem_of_list_to_set, list_elem_of_In. Qed.

Lemma oldest_right (state : AddressWatchState) oldest : oldest_of state = Some oldest ->
  (exists tx, In tx (txs state) /\ at_height tx = Some oldest) /\ forall tx h, In tx (txs state) -> at_height tx = Some h -> oldest <= h.
Proof.
  unfold oldest_of. set (step := fun least height => _).
  assert (Hind : forall heights least, foldl step least heights = Some oldest ->
    (least = Some oldest \/ In oldest heights) /\ (forall h, In h heights -> oldest <= h) /\ forall m, least = Some m -> oldest <= m).
  { induction heights as [|h heights IH]; intros least; cbn [foldl]; [intros ->; split; [by left|]; split; [done|]; intros m [= ->]; lia|].
    intros (Hin & Hle & Hm)%IH. unfold step in Hin, Hm. destruct least as [m|]; cbn in Hin, Hm.
    - specialize (Hm _ eq_refl). split; [|split; [|intros ? [= <-]; lia]].
      + destruct Hin as [[= Heq]|Hin]; [|by right; right]. destruct (Z.min_spec m h) as [[_ E]|[_ E]]; rewrite E in Heq; [by left; rewrite Heq|by right; left].
      + intros x [<-|Hx]; [lia|by apply Hle].
    - specialize (Hm _ eq_refl). split; [|split; [|done]].
      + right. destruct Hin as [[= ->]|Hin]; [by left|by right].
      + intros x [<-|Hx]; [lia|by apply Hle]. }
  intros (Hin & Hle & _)%Hind. destruct Hin as [|Hin]; [done|]. apply list_elem_of_In, list_elem_of_omap in Hin as (tx & Htx%list_elem_of_In & Hh).
  split; [by exists tx|]. intros tx' h Ht Hh'. apply Hle, list_elem_of_In, list_elem_of_omap. exists tx'. split; [by apply list_elem_of_In|done].
Qed.

(** A list of transactions as a screen shows it: no txid twice, the ones
    waiting first, then the highest block first. *)
Definition newer_first (a b : AddressTx) : Prop :=
  match at_height a, at_height b with None, _ => True | Some x, Some y => y <= x | Some _, None => False end.
Definition well_listed (l : list AddressTx) : Prop := NoDup (List.map at_txid l) /\ StronglySorted newer_first l.

Lemma well_listed_app a b : well_listed a -> well_listed b -> (forall x y, In x a -> In y b -> newer_first x y /\ at_txid x <> at_txid y) ->
  well_listed (a ++ b).
Proof.
  intros [Hna Hsa] [Hnb Hsb] Hab. split.
  - rewrite List.map_app. apply list.NoDup_app. split; [done|]. split; [|done]. intros id (x & <- & Hx)%list_elem_of_In%in_map_iff (y & Hy & Hin)%list_elem_of_In%in_map_iff.
    by destruct (Hab x y Hx Hin) as [_ ?].
  - clear Hna Hnb. induction Hsa as [|x a Hsa IH Hx] in Hab |- *; [done|]. cbn [app]. constructor.
    + apply IH. intros; apply Hab; [by right|done].
    + apply list.Forall_app. split; [done|]. apply list.Forall_forall. intros y Hy%list_elem_of_In. apply Hab; [by left|done].
Qed.

Lemma older_In watch previous oldest tx :
  In tx (retain (fun tx => negb (bool_decide (at_txid tx ∈ ids watch)))
           (retain (fun tx => match at_height tx with Some height => height <? oldest | None => false end) (txs previous))) <->
  In tx (txs previous) /\ (exists h, at_height tx = Some h /\ h < oldest) /\ ~ In (at_txid tx) (List.map at_txid (txs watch)).
Proof.
  rewrite !retain_In, negb_true_iff, bool_decide_eq_false, ids_In. split.
  - intros [[Hin Hh] Hnot]. destruct (at_height tx) as [h|]; [|done]. split; [done|]. split; [exists h; split; [done|by apply Z.ltb_lt]|done].
  - intros (Hin & (h & -> & Hh) & Hnot). split; [split; [done|by apply Z.ltb_lt]|done].
Qed.

Lemma keep_older_right (watch previous : AddressWatchState) :
  well_listed (txs watch) -> well_listed (txs previous) ->
  let kept := keep_older_history watch previous in
  well_listed (txs kept) /\ utxos kept = utxos watch /\ tip_height kept = tip_height watch /\
  (forall tx, In tx (txs kept) <-> In tx (txs watch) \/
     (exists oldest h, oldest_of watch = Some oldest /\ In tx (txs previous) /\ at_height tx = Some h /\ h < oldest /\
        ~ In (at_txid tx) (List.map at_txid (txs watch)))).
Proof.
  intros Hw [Hnp Hsp]. cbn zeta. unfold keep_older_history. destruct (oldest_of watch) as [oldest|] eqn:Ho.
  2: { split; [done|]. split; [done|]. split; [done|]. intros tx. split; [by left|]. by intros [?|(? & ? & ? & _)]. }
  set (older := retain (fun tx => negb (bool_decide (at_txid tx ∈ ids watch))) _).
  assert (older_sublist : sublist older (txs previous)) by (etransitivity; apply retain_sublist).
  assert (Hold : forall tx, In tx older <-> _) by (intros tx; exact (older_In watch previous oldest tx)).
  assert (Hwell : well_listed (txs watch ++ older)).
  { apply well_listed_app; [done| |].
    - split.
      + eapply sublist_NoDup; [exact Hnp|]. apply sublist_map, older_sublist.
      + eapply StronglySorted_sublist; [apply older_sublist|exact Hsp].
    - intros x y Hx (_ & (h & Hh & Hlt) & Hnot)%Hold. split.
      + unfold newer_first. rewrite Hh. destruct (at_height x) as [hx|] eqn:Ex; [|done].
        pose proof (proj2 (oldest_right watch oldest Ho) x hx Hx Ex). lia.
      + intros Heq. apply Hnot. rewrite <- Heq. by apply in_map. }
  assert (Hmem : forall tx, In tx (txs watch ++ older) <-> In tx (txs watch) \/
    exists oldest0 h, Some oldest = Some oldest0 /\ In tx (txs previous) /\ at_height tx = Some h /\ h < oldest0 /\
        ~ In (at_txid tx) (List.map at_txid (txs watch))).
  { intros tx. rewrite in_app_iff, Hold. split.
    - intros [?|(? & (h & ? & ?) & ?)]; [by left|right; by exists oldest, h].
    - intros [?|(? & h & [= <-] & ? & ? & ? & ?)]; [by left|right]. split; [done|]. split; [by exists h|done]. }
  destruct older as [|o rest] eqn:Eo; cbn [txs utxos tip_height]; [rewrite app_nil_r in *|]; done.
Qed.

(** A sync of a watched address keeps, of the rounds loaded before, the
    transactions in a block below the oldest of the round just read that
    the round does not list, and no other; it drops nothing of what was
    just read, and its coins and tip are the ones just read. The list it
    leaves is one a screen can show as the code says it is: no txid
    twice, and the newest first. *)
Theorem history_kept (watch previous : AddressWatchState) :
  well_listed (txs watch) -> well_listed (txs previous) ->
  let kept := keep_older_history watch previous in
  well_listed (txs kept) /\ utxos kept = utxos watch /\ tip_height kept = tip_height watch /\
  (forall tx, In tx (txs kept) <-> In tx (txs watch) \/
     (exists oldest h, oldest_of watch = Some oldest /\ In tx (txs previous) /\ at_height tx = Some h /\ h < oldest /\
        ~ In (at_txid tx) (List.map at_txid (txs watch)))).
Proof. apply keep_older_right. Qed.

(** The round is a page of a server, and a busy address has more than a
    page between two syncs: what is kept below the page is then not what
    comes next, the transactions between are in neither, and the list is
    taken as whole down to the cursor of what was kept. *)
Definition paged (id : string) (height : option Z) : AddressTx :=
  {| at_txid := id; at_net_sats := 0; at_fee_sats := None; at_height := height; at_timestamp := None; at_vsize := 100;
     at_inputs := []; at_outputs := []; at_extras := None |}.
Definition page (l : list AddressTx) (cursor : option string) : AddressWatchState :=
  {| txs := l; utxos := []; tip_height := 900; truncated := is_some cursor; history_cursor := cursor |}.

Example missed_rounds :
  let held := page [paged "aa" (Some 100)] None in
  let fresh := page [paged "cc" (Some 300)] (Some "cc") in
  keep_older_history fresh held = page [paged "cc" (Some 300); paged "aa" (Some 100)] None.
Proof. vm_compute. reflexivity. Qed.

Lemma before_of_right held id : NoDup (List.map at_txid held) -> forall b,
  before_of held !! id = Some b <-> exists tx, In tx held /\ at_txid tx = id /\ is_some (at_height tx) = b.
Proof.
  unfold before_of. induction held as [|tx held IH] using rev_ind; intros Hn b; [cbn [foldl]; rewrite lookup_empty; split; [done|by intros (? & [] & _)]|].
  rewrite List.map_app in Hn. apply list.NoDup_app in Hn as (Hn & Hnot & _). rewrite foldl_app. cbn [foldl].
  destruct (decide (at_txid tx = id)) as [<-|Hne].
  - rewrite lookup_insert_eq. split; [intros [= <-]; exists tx; split; [apply in_or_app; by right; left|done]|].
    intros (tx' & [Hin|[<-|[]]]%in_app_iff & Heq & <-); [|done]. exfalso. apply (Hnot (at_txid tx)).
    + rewrite <- Heq. apply list_elem_of_In, in_map, Hin.
    + cbn. by left.
  - rewrite lookup_insert_ne, IH by done. split; intros (tx' & Hin & Heq & Hb); exists tx'.
    + split; [apply in_or_app; by left|done].
    + apply in_app_iff in Hin as [Hin|[->|[]]]; [done|by destruct Hne].
Qed.

Lemma before_of_none held id : NoDup (List.map at_txid held) ->
  is_some (before_of held !! id) = false <-> ~ In id (List.map at_txid held).
Proof.
  intros Hn. destruct (before_of held !! id) as [b|] eqn:E; cbn; split; [done| |intros _|done].
  - intros Hnot. destruct Hnot. apply before_of_right in E as (tx & Hin & <- & _); [by apply in_map|done].
  - intros (tx & <- & Hin)%in_map_iff. by assert (before_of held !! at_txid tx = Some (is_some (at_height tx))) as ?%(eq_trans (eq_sym E)) by (apply before_of_right; [done|by exists tx]).
Qed.

(** What a sync of a watched address says happened is what happened to
    the list held: new is what the list did not hold; confirmed is what
    it held waiting and is now in a block; and gone is what it held
    waiting and the server does not list any more, which is never said
    when the server's list of the waiting is as long as a server's may
    be, for what is not on it may only be past its end. *)
Theorem address_moves_right (previous : option AddressWatchState) (watch : AddressWatchState) :
  let held := match previous with Some state => txs state | None => [] end in
  let moves := address_moves previous watch in
  NoDup (List.map at_txid held) ->
  (forall s, In s (new moves) <-> exists tx, s = address_seen tx /\ In tx (txs watch) /\ ~ In (at_txid tx) (List.map at_txid held)) /\
  (forall s, In s (m_confirmed moves) <-> exists tx h, s = address_seen tx /\ In tx (txs watch) /\ at_height tx = Some h /\
     exists old, In old held /\ at_txid old = at_txid tx /\ at_height old = None) /\
  (forall s, In s (gone moves) <-> exists tx, s = address_seen tx /\ In tx held /\ at_height tx = None /\
     ~ In (at_txid tx) (List.map at_txid (txs watch)) /\
     (length (retain (fun tx => negb (is_some (at_height tx))) (txs watch)) < MEMPOOL_PER_ROUND)%nat).
Proof.
  cbn zeta. intros Hn. set (held := match previous with Some state => txs state | None => [] end) in *.
  unfold address_moves. fold held. cbn [new m_confirmed gone]. split; [|split]; intros s; rewrite in_map_iff; setoid_rewrite retain_In.
  - setoid_rewrite negb_true_iff. setoid_rewrite (before_of_none held); [|done].
    split; [intros (tx & <- & Htx)|intros (tx & -> & Htx)]; by exists tx.
  - setoid_rewrite andb_true_iff. setoid_rewrite bool_decide_eq_true. setoid_rewrite (before_of_right held); [|done].
    split.
    + intros (tx & <- & Htx & [h Hh]%is_some_true & old & Hold & Heq & Hw). exists tx, h. do 3 (split; [done|]). exists old. by destruct (at_height old).
    + intros (tx & h & -> & Htx & Hh & old & Hold & Heq & Hw). exists tx. rewrite Hh. do 3 (split; [done|]). exists old. by rewrite Hw.
  - setoid_rewrite retain_In. setoid_rewrite andb_true_iff. setoid_rewrite negb_true_iff. setoid_rewrite bool_decide_eq_false. setoid_rewrite ids_In.
    unfold mempool_page_full. setoid_rewrite Nat.leb_gt. split.
    + intros (tx & <- & [Hin Hw] & Hfull & Hnot). exists tx. by destruct (at_height tx).
    + intros (tx & -> & Hin & Hw & Hnot & Hfull). exists tx. by rewrite Hw.
Qed.

(** What the balance shows is the sum of the coins, confirmed and not, as
    long as it is an amount the type holds. *)
Lemma funded_right state confirmed : Forall (fun u => 0 <= au_value_sats u) (utxos state) ->
  funded state confirmed =
  Z.min u64_max (foldr Z.add 0 (List.map au_value_sats (retain (fun u => Bool.eqb (is_some (au_height u)) confirmed) (utxos state)))).
Proof.
  intros Hpos. unfold funded. set (l := retain _ _).
  assert (Hl : Forall (fun u => 0 <= au_value_sats u) l).
  { apply List.Forall_forall. intros u [Hu _]%retain_In. by apply (proj1 (List.Forall_forall _ _) Hpos). }
  enough (H : forall acc, 0 <= acc <= u64_max ->
    foldl (fun sum u => sat_add_u64 sum (au_value_sats u)) acc l = Z.min u64_max (acc + foldr Z.add 0 (List.map au_value_sats l))
    /\ 0 <= foldr Z.add 0 (List.map au_value_sats l)).
  { rewrite (proj1 (H 0 ltac:(unfold u64_max; lia))). by f_equal. }
  clearbody l. induction Hl as [|u l Hu Hl IH]; intros acc Hacc; cbn [foldl foldr List.map]; [lia|].
  destruct (IH (sat_add_u64 acc (au_value_sats u))) as [-> ?]; unfold sat_add_u64, u64_max in *; lia.
Qed.

Definition held_before : AddressWatchState := page [paged "bb" None; paged "dd" None; paged "aa" (Some 100)] (Some "aa").
Definition round_read : AddressWatchState := page [paged "ee" None; paged "bb" (Some 300)] (Some "bb").

Lemma history_kept_witness :
  let kept := keep_older_history round_read held_before in
  txs kept = [paged "ee" None; paged "bb" (Some 300); paged "aa" (Some 100)] /\ well_listed (txs kept).
Proof.
  cbn zeta. split; [vm_compute; reflexivity|].
  apply (history_kept round_read held_before).
  - split; [apply (bool_decide_eq_true_1 (NoDup _)); vm_compute; reflexivity|]. repeat constructor.
  - split; [apply (bool_decide_eq_true_1 (NoDup _)); vm_compute; reflexivity|]. repeat constructor.
Defined.

Lemma address_moves_right_witness :
  let moves := address_moves (Some held_before) round_read in
  List.map txid (new moves) = ["ee"] /\ List.map txid (m_confirmed moves) = ["bb"] /\ List.map txid (gone moves) = ["dd"] /\
  (In (address_seen (paged "dd" None)) (gone moves) <->
   exists tx, address_seen (paged "dd" None) = address_seen tx /\ In tx (txs held_before) /\ at_height tx = None /\
     ~ In (at_txid tx) (List.map at_txid (txs round_read)) /\
     (length (retain (fun tx => negb (is_some (at_height tx))) (txs round_read)) < MEMPOOL_PER_ROUND)%nat).
Proof.
  cbn zeta. do 3 (split; [vm_compute; reflexivity|]).
  apply (address_moves_right (Some held_before) round_read).
  apply (bool_decide_eq_true_1 (NoDup _)); vm_compute; reflexivity.
Defined.
