(* ===== verification/Exports.v ===== *)
(** [export.rs]: the transactions of a wallet as a table of text, filtered
    and put in order. *)
From S2P Require Import Prelude Text Dates Format Network Store News Addresses.
From Stdlib Require Import Ascii.

Inductive ExportDirection := Incoming | Outgoing.

Record ExportOptions := { ex_from : option Z; ex_to : option Z; ex_direction : option ExportDirection; include_pending : bool }.

(** [Default] of the options. *)
Definition default_options : ExportOptions := {| ex_from := None; ex_to := None; ex_direction := None; include_pending := true |}.

Record ExportResult := { csv : string; rows : Z }.

Definition HEADER : string := "txid,date_utc,block_height,confirmations,direction,amount_sats,amount_btc,fee_sats".

Definition LINE_FEED : string := String "010" "".

Definition is_none {A} (o : option A) : bool := match o with None => true | Some _ => false end.
Definition none_or {A} (o : option A) (f : A -> bool) : bool := match o with None => true | Some a => f a end.

Definition passes (tx : TxSummary) (options : ExportOptions) : bool :=
  match ex_direction options with
  | Some Incoming => negb (s_net_sats tx <? 0)
  | Some Outgoing => negb (0 <=? s_net_sats tx)
  | None => true
  end
  && match s_status tx with
     | TxStatus.Confirmed _ timestamp =>
       match timestamp with
       | None => is_none (ex_from options) && is_none (ex_to options)
       | Some at_ => none_or (ex_from options) (fun from => from <=? at_) && none_or (ex_to options) (fun to => at_ <=? to)
       end
     | TxStatus.Pending => include_pending options && is_none (ex_from options) && is_none (ex_to options)
     end.

Definition format_btc_signed_plain (sats : Z) : string := (if sats <? 0 then "-" else "") +:+ format_btc (Z.abs sats).

Definition two_digits (n : Z) : string := pad_zero 2 (dec n).

Definition format_utc (secs : Z) : string :=
  let '(year, month, day) := civil_date secs in
  let rem := secs mod 86400 in
  pad_zero 4 (dec_signed year) +:+ "-" +:+ two_digits month +:+ "-" +:+ two_digits day +:+ " "
  +:+ two_digits (rem / 3600) +:+ ":" +:+ two_digits (rem / 60 mod 60) +:+ ":" +:+ two_digits (rem mod 60).

(** The key the rows are sorted by; [Vec::sort_by_key] is stable. *)
Definition row_key (tx : TxSummary) : Z * Z * Z :=
  match s_status tx with
  | TxStatus.Confirmed height timestamp => (unwrap_or timestamp u64_max, height, 0)
  | TxStatus.Pending => (u64_max, u32_max, 1)
  end.
Definition row_le (a b : TxSummary) : bool :=
  let '(a1, a2, a3) := row_key a in
  let '(b1, b2, b3) := row_key b in
  (a1 <? b1) || ((a1 =? b1) && ((a2 <? b2) || ((a2 =? b2) && (a3 <=? b3)))).

Definition kept_rows (txs : list TxSummary) (options : ExportOptions) : list TxSummary :=
  sort_by row_le (retain (fun tx => passes tx options) txs).

(** The cells of a row. *)
Definition cells (tx : TxSummary) : list string :=
  let '(date, height) :=
    match s_status tx with
    | TxStatus.Confirmed height timestamp => (match timestamp with Some at_ => format_utc at_ | None => "" end, dec height)
    | TxStatus.Pending => ("", "")
    end in
  [s_txid tx; date; height; dec (s_confirmations tx); if 0 <=? s_net_sats tx then "in" else "out";
   dec_signed (s_net_sats tx); format_btc_signed_plain (s_net_sats tx);
   match s_fee_sats tx with Some fee => dec fee | None => "" end].

Definition row (tx : TxSummary) : string := join "," (cells tx) +:+ LINE_FEED.

Definition transactions_csv (txs : list TxSummary) (options : ExportOptions) : ExportResult :=
  let kept := kept_rows txs options in
  {| csv := HEADER +:+ LINE_FEED +:+ String.concat "" (List.map row kept); rows := wrap_u32 (Z.of_nat (length kept)) |}.

(** ** Read back *)

Definition read_signed (s : string) : Z := match strip_prefix "-" s with Some digits => - dec_value 0 digits | None => dec_value 0 s end.

Definition read_some {A} (f : string -> A) (s : string) : option A := if bool_decide (s = "") then None else Some (f s).

(** The second a date names. *)
Definition read_date (s : string) : Z :=
  match List.map (split "-") (split " " s), List.map (split ":") (split " " s) with
  | [[y; m; d]; _], [_; [h; mi; sec]] =>
    days_from_civil (dec_value 0 y) (dec_value 0 m) (dec_value 0 d) * 86400 + dec_value 0 h * 3600 + dec_value 0 mi * 60 + dec_value 0 sec
  | _, _ => 0
  end.

(** The satoshis an amount in bitcoins names. *)
Definition read_btc (s : string) : Z :=
  let '(sign, digits) := match strip_prefix "-" s with Some digits => (-1, digits) | None => (1, s) end in
  match split "." digits with [whole; decimals] => sign * (dec_value 0 whole * SATS_PER_BTC + dec_value 0 decimals) | _ => 0 end.

Definition read_row (line : string) : option TxSummary :=
  match split "," line with
  | [txid; date; height; confirmations; _; sats; _; fee] =>
    Some {| s_txid := txid; s_net_sats := read_signed sats; s_fee_sats := read_some (dec_value 0) fee;
            s_status := if bool_decide (height = "") then TxStatus.Pending else TxStatus.Confirmed (dec_value 0 height) (read_some read_date date);
            s_confirmations := dec_value 0 confirmations |}
  | _ => None
  end.

(** A summary as the wallet makes them. *)
Record summarised (tx : TxSummary) : Prop := {
  txid_plain : lacks "," (s_txid tx) = true /\ lacks "010" (s_txid tx) = true;
  sats_fit : in_i64 (s_net_sats tx);
  fee_fits : forall fee, s_fee_sats tx = Some fee -> 0 <= fee;
  confirmations_fit : 0 <= s_confirmations tx;
  status_fits : match s_status tx with
                | TxStatus.Confirmed height timestamp => in_u32 height /\ forall at_, timestamp = Some at_ -> in_u64 at_
                | TxStatus.Pending => True
                end;
}.

(** ** What a cell says *)

Lemma civil_year secs : in_u64 secs -> let '(year, month, day) := civil_date secs in 0 <= year /\ 0 <= month < 100 /\ 0 <= day < 100 /\ days_from_civil year month day = secs / 86400.
Proof.
  intros Hu. pose proof (civil_date_sound secs Hu) as Hs. destruct (civil_date_parts secs Hu) as (era & yoe & doy & mi & Hy & Hd & Hm & Hmd & _ & Hz & E).
  rewrite E in *. destruct Hs as [[Hmo Hda] Hs]. split; [|split; [lia|split; [|exact Hs]]].
  - assert (0 <= era). { unfold in_u64 in Hu. assert (0 <= secs / 86400) by (apply Z.div_pos; lia). assert (0 <= yoe / 4 <= 100) by (Z.div_mod_to_equations; lia). assert (0 <= yoe / 100 <= 4) by (Z.div_mod_to_equations; lia). lia. }
    destruct (mi <? 10); lia.
  - unfold days_in_month in Hda. destruct (_ =? 2); [destruct (is_leap _); lia|]. destruct (_ || _); lia.
Qed.

Lemma two_digits_lack c n : 0 <= n -> is_digit c = false -> lacks c (two_digits n) = true.
Proof. intros Hn Hc. apply digits_lack; [done|]. by apply pad_zero_digits. Qed.

Lemma year_digits n : 0 <= n -> pad_zero 4 (dec_signed n) = pad_zero 4 (dec n).
Proof. intros Hn. unfold dec_signed. by replace (n <? 0) with false by lia. Qed.

Lemma date_lacks c secs : in_u64 secs -> is_digit c = false -> (c =? "-")%char = false -> (c =? " ")%char = false -> (c =? ":")%char = false -> lacks c (format_utc secs) = true.
Proof.
  intros Hu Hc H1 H2 H3. pose proof (civil_year secs Hu) as Hy. unfold format_utc. destruct (civil_date secs) as [[y m] d]. destruct Hy as (Hy & Hm & Hd & _).
  assert (Hr : 0 <= secs mod 86400 < 86400) by (apply Z.mod_pos_bound; lia). set (rem := secs mod 86400) in *. clearbody rem.
  assert (0 <= rem / 3600) by (apply Z.div_pos; lia). assert (0 <= rem / 60 mod 60) by (apply Z.mod_pos_bound; lia). assert (0 <= rem mod 60) by (apply Z.mod_pos_bound; lia).
  rewrite year_digits by done. rewrite !lacks_app, !two_digits_lack by (done || lia). rewrite (digits_lack c (pad_zero 4 _) Hc) by (by apply pad_zero_digits).
  unfold lacks. cbn [str_all]. rewrite (Ascii.eqb_sym "-" c), (Ascii.eqb_sym " " c), (Ascii.eqb_sym ":" c), H1, H2, H3. done.
Qed.

Lemma split_sep c p s : lacks c p = true -> split c (p +:+ String c "" +:+ s) = p :: split c s.
Proof. exact (split_app c p s). Qed.

Lemma date_reads secs : in_u64 secs -> read_date (format_utc secs) = secs /\ format_utc secs <> "".
Proof.
  intros Hu. pose proof (civil_year secs Hu) as Hy. unfold format_utc. destruct (civil_date secs) as [[y m] d]. destruct Hy as (Hy & Hm & Hd & Hdays).
  assert (Hr : 0 <= secs mod 86400 < 86400) by (apply Z.mod_pos_bound; lia). pose proof (Z.div_mod secs 86400 ltac:(lia)) as Hsecs. set (rem := secs mod 86400) in *. clearbody rem.
  assert (Hh : 0 <= rem / 3600) by (apply Z.div_pos; lia). assert (Hmi : 0 <= rem / 60 mod 60) by (apply Z.mod_pos_bound; lia). assert (Hse : 0 <= rem mod 60) by (apply Z.mod_pos_bound; lia).
  rewrite year_digits by done. set (Y := pad_zero 4 (dec y)). assert (HY : str_all is_digit Y = true) by (by apply pad_zero_digits).
  set (left := Y +:+ "-" +:+ two_digits m +:+ "-" +:+ two_digits d). set (right := two_digits (rem / 3600) +:+ ":" +:+ two_digits (rem / 60 mod 60) +:+ ":" +:+ two_digits (rem mod 60)).
  assert (Eall : Y +:+ "-" +:+ two_digits m +:+ "-" +:+ two_digits d +:+ " " +:+ right = left +:+ String " " right) by (unfold left; by rewrite !str_app_assoc).
  rewrite Eall. assert (Hl : lacks " " left = true). { unfold left. rewrite !lacks_app, (digits_lack " " Y), !two_digits_lack by (done || lia). done. }
  assert (Hrt : lacks " " right = true). { unfold right. rewrite !lacks_app, !two_digits_lack by (done || lia). done. }
  split; [|by destruct left]. unfold read_date. rewrite split_app, split_lacks by done. cbn [List.map].
  assert (Els : split "-" left = [Y; two_digits m; two_digits d]).
  { unfold left. rewrite split_sep by (by apply digits_lack). rewrite split_sep, split_lacks by (apply two_digits_lack; done || lia). done. }
  assert (Ers : split ":" right = [two_digits (rem / 3600); two_digits (rem / 60 mod 60); two_digits (rem mod 60)]).
  { unfold right. rewrite !split_sep, split_lacks by (apply two_digits_lack; done || lia). done. }
  rewrite Els, Ers. unfold Y, two_digits. rewrite !pad_zero_read by lia. rewrite Hdays. Z.div_mod_to_equations. lia.
Qed.

Lemma signed_reads n : read_signed (dec_signed n) = n /\ (forall c, is_digit c = false -> (c =? "-")%char = false -> lacks c (dec_signed n) = true).
Proof.
  unfold read_signed, dec_signed. destruct (Z.ltb_spec n 0) as [Hn|Hn].
  - rewrite strip_prefix_app, dec_read by lia. split; [lia|]. intros c Hc Hd. rewrite lacks_app, (digits_lack c (dec (- n)) Hc) by (apply dec_digits; lia).
    unfold lacks. cbn [str_all]. by rewrite Ascii.eqb_sym, Hd.
  - pose proof (dec_digits n Hn) as Hd. split; [|intros c Hc _; by apply digits_lack]. destruct (dec n) as [|a s] eqn:E; [by apply dec_nonempty in E|].
    cbn [str_all] in Hd. apply andb_true_iff in Hd as [Ha _]. cbn [strip_prefix]. destruct (Ascii.eqb_spec "-" a) as [<-|]; [done|]. by rewrite <- E, dec_read.
Qed.

Lemma btc_reads n : in_i64 n -> read_btc (format_btc_signed_plain n) = n /\ lacks "," (format_btc_signed_plain n) = true /\ lacks "010" (format_btc_signed_plain n) = true.
Proof.
  intros Hn. destruct (format_btc_exact (Z.abs n)) as (whole & decimals & E & Hw & Hd & Hl & Hv & _).
  { unfold in_i64, in_u64, i64_min, i64_max, u64_max in *. lia. }
  assert (Hdot : split "." (whole +:+ "." +:+ decimals) = [whole; decimals]).
  { by rewrite split_sep, split_lacks by (by apply digits_lack). }
  unfold format_btc_signed_plain, read_btc. rewrite E, !lacks_app, !(digits_lack _ whole), !(digits_lack _ decimals) by done. destruct (Z.ltb_spec n 0) as [Hneg|Hpos].
  - rewrite strip_prefix_app, Hdot. split; [lia|done].
  - change ("" +:+ (whole +:+ "." +:+ decimals)) with (whole +:+ "." +:+ decimals). destruct (strip_prefix "-" (whole +:+ "." +:+ decimals)) as [r|] eqn:Es; [exfalso|rewrite Hdot; split; [lia|done]].
    destruct whole as [|a w]; cbn [strip_prefix String.append] in Es; [done|]. cbn [str_all] in Hw. apply andb_true_iff in Hw as [Ha _]. destruct (Ascii.eqb_spec "-" a) as [<-|]; done.
Qed.

(** ** The table *)

Lemma cells_plain c tx : (c = ","%char \/ c = "010"%char) -> summarised tx -> Forall (fun cell => lacks c cell = true) (cells tx).
Proof.
  intros Hc [[Ht1 Ht2] Hn Hf Hcf Hs]. assert (Hd : is_digit c = false /\ (c =? "-")%char = false /\ (c =? " ")%char = false /\ (c =? ":")%char = false) by (by destruct Hc as [->| ->]).
  destruct Hd as (Hd & H1 & H2 & H3). assert (Hdec : forall n, 0 <= n -> lacks c (dec n) = true) by (intros n ?; by apply digits_lack, dec_digits).
  unfold cells. set (pair_of := match s_status tx with TxStatus.Confirmed _ _ => _ | TxStatus.Pending => _ end).
  assert (Hp : lacks c pair_of.1 = true /\ lacks c pair_of.2 = true).
  { unfold pair_of. destruct (s_status tx) as [height timestamp|]; [|done]. cbn [fst snd]. destruct Hs as [Hh Hts]. unfold in_u32 in Hh. split; [|apply Hdec; lia].
    destruct timestamp as [at_|]; [|done]. apply date_lacks; auto. }
  destruct pair_of as [date height]. destruct Hp as [Hp1 Hp2]. cbn [fst snd] in *. destruct (btc_reads _ Hn) as (_ & B1 & B2). destruct (signed_reads (s_net_sats tx)) as [_ Hsg].
  repeat constructor; [by destruct Hc as [->| ->]|done|done|by apply Hdec| |by apply Hsg|by destruct Hc as [->| ->]|].
  - by destruct Hc as [->| ->], (0 <=? s_net_sats tx).
  - destruct (s_fee_sats tx) as [fee|]; [|done]. apply Hdec. by apply Hf.
Qed.

Lemma cells_split tx : summarised tx -> split "," (join "," (cells tx)) = cells tx.
Proof. intros Hs. apply (split_join ","); [unfold cells; by destruct (s_status tx)|]. apply cells_plain; auto. Qed.

Lemma row_reads tx : summarised tx -> read_row (join "," (cells tx)) = Some tx.
Proof.
  intros Hs. unfold read_row. rewrite cells_split by done. destruct Hs as [_ Hn Hf Hcf Hs]. unfold cells. destruct tx as [txid net fee status conf]; cbn [s_txid s_net_sats s_fee_sats s_status s_confirmations] in *.
  assert (Hfee : read_some (dec_value 0) match fee with Some fee => dec fee | None => "" end = fee).
  { unfold read_some. destruct fee as [f|]; [|done]. specialize (Hf f eq_refl). rewrite bool_decide_eq_false_2 by (by apply dec_nonempty). by rewrite dec_read. }
  destruct (signed_reads net) as [Hsg _]. destruct status as [height timestamp|].
  - destruct Hs as [Hh Hts]. unfold in_u32 in Hh.
    assert (Hne : dec height <> "") by (apply dec_nonempty; lia). rewrite Hsg, Hfee, (dec_read conf), bool_decide_eq_false_2, dec_read by (done || lia).
    assert (Hd : read_some read_date match timestamp with Some at_ => format_utc at_ | None => "" end = timestamp).
    { unfold read_some. destruct timestamp as [at_|]; [|done]. destruct (date_reads at_ (Hts at_ eq_refl)) as [Hr Hsome]. by rewrite bool_decide_eq_false_2, Hr. }
    by rewrite Hd.
  - by rewrite Hsg, Hfee, dec_read.
Qed.

Lemma lines_split kept : Forall summarised kept ->
  split "010" (String.concat "" (List.map row kept)) = List.map (fun tx => join "," (cells tx)) kept ++ [""].
Proof.
  assert (Hc : forall s l, String.concat "" (s :: l) = s +:+ String.concat "" l).
  { intros s [|t l]; [|done]. cbn. by rewrite str_app_nil_r. }
  induction 1 as [|tx kept Hs _ IH]; [done|]. cbn [List.map app]. rewrite Hc. unfold row at 1, LINE_FEED. rewrite str_app_assoc, split_sep; [by rewrite IH|].
  pose proof (cells_plain "010" tx (or_intror eq_refl) Hs) as Hall. clear IH Hs. induction Hall as [|cell l Hcell Hl IHl]; [done|]. cbn [join]. destruct l; [done|].
  rewrite !lacks_app, Hcell, IHl. done.
Qed.

(** The order of a table: by date, then by height; the undated next, the
    pending last. *)
Definition comes_before (a b : TxSummary) : Prop :=
  match s_status a, s_status b with
  | TxStatus.Confirmed h1 (Some t1), TxStatus.Confirmed h2 (Some t2) => t1 < t2 \/ (t1 = t2 /\ h1 <= h2)
  | TxStatus.Confirmed h1 None, TxStatus.Confirmed h2 None => h1 <= h2
  | TxStatus.Confirmed _ None, TxStatus.Confirmed _ (Some t2) => t2 = u64_max
  | TxStatus.Confirmed _ (Some _), TxStatus.Confirmed _ None => True
  | _, TxStatus.Pending => True
  | TxStatus.Pending, TxStatus.Confirmed _ _ => False
  end.

Lemma row_le_before a b : summarised a -> summarised b -> row_le a b = true -> comes_before a b.
Proof.
  intros [_ _ _ _ Ha] [_ _ _ _ Hb]. unfold row_le, row_key, comes_before.
  destruct (s_status a) as [h1 [t1|]|], (s_status b) as [h2 [t2|]|]; cbn [unwrap_or]; try done; unfold in_u32, u32_max, in_u64, u64_max in *;
    repeat match goal with H : _ /\ forall at_, Some _ = Some at_ -> _ |- _ => destruct H as [? H]; specialize (H _ eq_refl) | H : _ /\ forall _, None = Some _ -> _ |- _ => destruct H as [? _] end; lia.
Qed.

Lemma StronglySorted_impl_In {A} (R S : A -> A -> Prop) l : (forall a b, In a l -> In b l -> R a b -> S a b) -> StronglySorted R l -> StronglySorted S l.
Proof.
  intros Himp. induction 1 as [|x l Hs IH Hx]; [constructor|]. rewrite List.Forall_forall in Hx.
  constructor; [apply IH; intros a b Ha Hb; apply Himp; by right|]. apply List.Forall_forall. intros y Hy. apply Himp; [by left|by right|by apply Hx].
Qed.

Lemma row_order : (forall a b, row_le a b = true \/ row_le b a = true) /\ (forall a b c, row_le a b = true -> row_le b c = true -> row_le a c = true).
Proof.
  split; [intros a b|intros a b c]; unfold row_le; destruct (row_key a) as [[? ?] ?], (row_key b) as [[? ?] ?]; [lia|]. destruct (row_key c) as [[? ?] ?]. lia.
Qed.

(** C31: An export loses nothing: cut at its line feeds it is the header and one
    line a transaction, and each line, read back, is the very summary it
    was written from, its amount in bitcoins the same to the satoshi; no
    cell is taken for two. The lines are those of the transactions the
    options keep, each once, the oldest first, the undated and the pending
    last, those of one key in the order the screen has them, and counted. *)
Theorem export_reads_back txs options : Forall summarised txs ->
  let kept := kept_rows txs options in let result := transactions_csv txs options in
  split "010" (csv result) = HEADER :: List.map (fun tx => join "," (cells tx)) kept ++ [""]
  /\ Forall (fun tx => read_row (join "," (cells tx)) = Some tx /\ split "," (join "," (cells tx)) = cells tx
                       /\ option_map read_btc (cells tx !! 6%nat) = Some (s_net_sats tx)) kept
  /\ kept ≡ₚ retain (fun tx => passes tx options) txs
  /\ StronglySorted comes_before kept
  /\ (forall same : TxSummary -> bool, (forall a b, same a = true -> same b = true -> row_le a b = true) ->
      retain same kept = retain same (retain (fun tx => passes tx options) txs))
  /\ rows result = wrap_u32 (Z.of_nat (length kept)).
Proof.
  intros Hall kept result. assert (Hk : Forall summarised kept).
  { apply List.Forall_forall. intros tx Hin. apply sort_by_In, retain_In in Hin as [Hin _]. rewrite List.Forall_forall in Hall. by apply Hall. }
  split; [|split; [|split; [apply sort_by_perm|split; [|split; [|done]]]]].
  - unfold result, transactions_csv. cbn [csv]. fold kept. unfold LINE_FEED. rewrite split_sep by (vm_compute; done). by rewrite lines_split.
  - apply List.Forall_forall. intros tx Hin. rewrite List.Forall_forall in Hk. specialize (Hk tx Hin). split; [by apply row_reads|]. split; [by apply cells_split|].
    unfold cells. destruct (match s_status tx with TxStatus.Confirmed _ _ => _ | TxStatus.Pending => _ end) as [date height]. cbn [lookup list_lookup option_map].
    by rewrite (proj1 (btc_reads _ (sats_fit _ Hk))).
  - rewrite List.Forall_forall in Hk. apply (StronglySorted_impl_In (fun a b => row_le a b = true)); [|by apply sort_by_sorted; apply row_order].
    intros a b Ha Hb. apply row_le_before; by apply Hk.
  - intros same Hsame. by apply sort_by_stable.
Qed.

Module Demo.
Definition tx (txid : string) (net : Z) (status : TxStatus) : TxSummary := {| s_txid := txid; s_net_sats := net; s_fee_sats := Some 141; s_status := status; s_confirmations := 3 |}.
Definition txs : list TxSummary := [tx "aa" (-123) TxStatus.Pending; tx "bb" 250000000 (TxStatus.Confirmed 800000 (Some 1690168629)); tx "cc" 5 (TxStatus.Confirmed 799999 (Some 1690168000))].
Definition outgoing : ExportOptions := {| ex_from := None; ex_to := None; ex_direction := Some Outgoing; include_pending := true |}.

Example demo_rows : csv (transactions_csv txs default_options) =
  HEADER +:+ LINE_FEED +:+ "cc,2023-07-24 03:06:40,799999,3,in,5,0.00000005,141" +:+ LINE_FEED
  +:+ "bb,2023-07-24 03:17:09,800000,3,in,250000000,2.50000000,141" +:+ LINE_FEED +:+ "aa,,,3,out,-123,-0.00000123,141" +:+ LINE_FEED
  /\ rows (transactions_csv txs outgoing) = 1.
Proof. vm_compute. by split. Qed.
End Demo.

Lemma export_reads_back_witness :
  Forall summarised Demo.txs /\ read_row "aa,,,3,out,-123,-0.00000123,141" = Some (Demo.tx "aa" (-123) TxStatus.Pending)
  /\ rows (transactions_csv Demo.txs default_options) = 3.
Proof.
  assert (Hs : Forall summarised Demo.txs).
  { apply List.Forall_cons; [|apply List.Forall_cons; [|apply List.Forall_cons; [|constructor]]];
      (split; cbn; [done|unfold in_i64, i64_min, i64_max; lia|intros ? [= <-]; lia|lia|]); [done| |];
      (split; [unfold in_u32, u32_max; lia|intros ? [= <-]; unfold in_u64, u64_max; lia]). }
  split; [exact Hs|]. destruct (export_reads_back Demo.txs default_options Hs) as (_ & Hr & _ & _ & _ & Hc). split; [|rewrite Hc; vm_compute; reflexivity].
  rewrite List.Forall_forall in Hr. apply (Hr (Demo.tx "aa" (-123) TxStatus.Pending)). vm_compute. do 2 right. left. reflexivity.
Defined.
