(* ===== verification/Decode.v ===== *)
(** [broadcast.rs], the first half: reading a transaction somebody else
    signed. The reading of bytes and the finalizer of a PSBT are the
    bitcoin crate's and miniscript's. *)
From S2P Require Import Prelude Utf8 Text Errors Network Lock Xpub TxExtras F64 Signing Endpoints.
From Stdlib Require Import Ascii.

(** ** A transaction decoded *)

Inductive TxSource := RawTransaction | FromPsbt.

(** [EcdsaSighashType] and [TapSighashType], the second with [Default]. *)
Inductive SighashType := Default | All | None_ | Single | AllPlusAnyoneCanPay | NonePlusAnyoneCanPay | SinglePlusAnyoneCanPay.

(** A PSBT as the source reads it: [K] the keys of its derivations. *)
Record PsbtInput `{Scripts} {SecpKey : Type} := {
  non_witness_utxo : option Transaction;
  witness_utxo : option TxOut;
  partial_sigs : list (PublicKey * SighashType);
  tap_key_sig : option SighashType;
  tap_script_sigs : list SighashType;
  final_script_sig : option (list Z);
  final_script_witness : option (list (list Z));
  pi_redeem_script : option (list Z);
  pi_witness_script : option (list Z);
  bip32_derivation : list SecpKey;
  tap_scripts : list (ControlBlock * list Z);
  pi_tap_internal_key : option XOnly;
  pi_tap_merkle_root : option TapNodeHash;
}.
Arguments PsbtInput {_} SecpKey.

Record Psbt `{Scripts} {SecpKey : Type} := { unsigned_tx : Transaction; psbt_inputs : list (PsbtInput SecpKey) }.
Arguments Psbt {_} SecpKey.

(** The crates' part of the reading: base 16 and 64; a transaction, a
    PSBT and a signature of their bytes; the finalizer, with the inputs
    it could not complete; the transaction of a finalized PSBT; the two
    spellings of a key; the names of the hash types. *)
Class Psbts `{Scripts} := {
  SecpKey : Type;
  base16 : string -> option (list Z);
  base64 : string -> option (list Z);
  base64url : string -> option (list Z);
  tx_deserialize : list Z -> option Transaction;
  psbt_deserialize : list Z -> result (Psbt SecpKey) string;
  ecdsa_from_slice : list Z -> option SighashType;
  schnorr_from_slice : list Z -> option SighashType;
  finalize_mut : Psbt SecpKey -> Psbt SecpKey * list nat;
  extract_tx : Psbt SecpKey -> Transaction;
  key_new : SecpKey -> PublicKey;
  key_new_uncompressed : SecpKey -> PublicKey;
  sighash_text : SighashType -> string;
}.

Definition MAX_INPUT_LEN : Z := 4000000.
(** "psbt\xff". *)
Definition PSBT_MAGIC : list Z := [112; 115; 98; 116; 255].
Definition HIGH_FEE_RATE_SAT_VB : f64 := five_hundred.
Definition HIGH_FEE_SHARE : f64 := tenth.

Definition tx_error (detail : string) : CoreError := InvalidInput "transaction" detail.

Section Decode.
Context `{Transactions} `{Psbts}.
Abbreviation Psbt := (Psbt SecpKey).
Abbreviation PsbtInput := (PsbtInput SecpKey).

Record DecodedInput := {
  signed : bool;
  prevout : option TxOut;
  prevout_proven : bool;
  disputed_witness_utxo : option TxOut;
  loose_sighash : option string;
  finalized : option Satisfaction;
  hints : SigningHints;
}.

Record DecodedTx := { d_source : TxSource; d_tx : Transaction; d_inputs : list DecodedInput; d_ready : bool }.

(** [SigningHints::of_psbt_input]. *)
Definition of_psbt_input (input : PsbtInput) : SigningHints :=
  {| redeem_script := pi_redeem_script input;
     witness_script := pi_witness_script input;
     tap_leaves := List.map (fun '(control, script) => (script, control)) (tap_scripts input);
     tap_internal_key := pi_tap_internal_key input;
     tap_merkle_root := pi_tap_merkle_root input;
     keys := List.concat (List.map (fun key => [key_new key; key_new_uncompressed key]) (bip32_derivation input))
             ++ List.map fst (partial_sigs input) |}.

(** [loose_ecdsa], [loose_schnorr]. *)
Definition loose (kind : SighashType) : option string :=
  match kind with
  | None_ | Single | NonePlusAnyoneCanPay | SinglePlusAnyoneCanPay => Some (sighash_text kind)
  | _ => None
  end.

Definition is_control_block (element : list Z) : bool :=
  let len := Z.of_nat (length element) in
  (33 <=? len) && ((len - 33) mod 32 =? 0) && (len <=? 33 + 32 * 128)
  && match element with first :: _ => Z.land first 0xfe =? 0xc0 | [] => false end.

(** The elements of a witness a signature can be among: without the
    annex, then without the script and the control block of a taproot
    script path. *)
Definition without_annex (elements : list (list Z)) : list (list Z) :=
  if (2 <=? length elements)%nat && match List.last elements [] with first :: _ => first =? 0x50 | [] => false end
  then removelast elements else elements.
Definition without_script_path (elements : list (list Z)) : list (list Z) :=
  if (2 <=? length elements)%nat && is_control_block (List.last elements [])
  then take (length elements - 2) elements else elements.

Definition loose_element (element : list Z) : option string :=
  match ecdsa_from_slice element with
  | Some kind => loose kind
  | None =>
    if (length element =? 65)%nat then
      match schnorr_from_slice element with Some kind => loose kind | None => None end
    else None
  end.

Definition loose_push (instruction : result Instruction unit) : option string :=
  match instruction with
  | Ok (PushBytes bytes) => match ecdsa_from_slice bytes with Some kind => loose kind | None => None end
  | _ => None
  end.

Definition loose_sighash_in (script_sig : list Z) (witness : list (list Z)) : option string :=
  match find_map loose_element (without_script_path (without_annex witness)) with
  | Some kind => Some kind
  | None => find_map loose_push (instructions script_sig)
  end.

Fixpoint repeated_from (seen : gmap OutPoint nat) (index : nat) (inputs : list TxIn) : option (nat * nat) :=
  match inputs with
  | [] => None
  | input :: inputs =>
    match seen !! previous_output input with
    | Some earlier => Some (index, earlier)
    | None => repeated_from (<[previous_output input := index]> seen) (S index) inputs
    end
  end.

Definition repeated_outpoint (inputs : list TxIn) : option (nat * nat) := repeated_from ∅ 0 inputs.

Definition nat_text (n : nat) : string := dec (Z.of_nat n).

(** The previous transaction of each input, held against its outpoint. *)
Fixpoint check_previous (index : nat) (inputs : list PsbtInput) (spends : list TxIn) : CoreResult unit :=
  match inputs, spends with
  | input :: inputs, spend :: spends =>
    let? _ := match non_witness_utxo input with
              | None => Ok tt
              | Some prev =>
                let outpoint := previous_output spend in
                if negb (bool_decide (compute_txid prev = op_txid outpoint)) then
                  Err (tx_error ("invalid PSBT: input " +:+ nat_text index +:+ " carries a previous transaction that is not the one it spends"))
                else if (Z.of_nat (length (output prev)) <=? vout outpoint) then
                  Err (tx_error ("invalid PSBT: input " +:+ nat_text index +:+ " spends an output its previous transaction does not have"))
                else Ok tt
              end in
    check_previous (S index) inputs spends
  | _, _ => Ok tt
  end.

(** A hash type of a partial signature that leaves outputs open. *)
Definition partial_loose (input : PsbtInput) : option string :=
  let schnorr := match tap_key_sig input with Some kind => [kind] | None => [] end ++ tap_script_sigs input in
  find_map loose (List.map snd (partial_sigs input) ++ schnorr).

Definition decoded_psbt_input (unfinished : list nat) (index : nat) (outpoint : OutPoint) (partial : option string)
  (input : PsbtInput) : DecodedInput :=
  let final_present := match final_script_sig input, final_script_witness input with None, None => false | _, _ => true end in
  let from_previous := match non_witness_utxo input with Some prev => output prev !! Z.to_nat (vout outpoint) | None => None end in
  let signed := final_present && negb (bool_decide (index ∈ unfinished)) in
  {| signed := signed;
     prevout := match from_previous with Some known => Some known | None => witness_utxo input end;
     prevout_proven := match from_previous with Some _ => true | None => false end;
     disputed_witness_utxo :=
       match from_previous, witness_utxo input with
       | Some known, Some declared => if bool_decide (known <> declared) then Some declared else None
       | _, _ => None
       end;
     loose_sighash :=
       match loose_sighash_in (unwrap_or (final_script_sig input) []) (unwrap_or (final_script_witness input) []) with
       | Some kind => Some kind
       | None => partial
       end;
     finalized := if signed then Some (of_final (final_script_sig input) (final_script_witness input)) else None;
     hints := of_psbt_input input |}.

Fixpoint decoded_psbt_inputs (unfinished : list nat) (index : nat) (spends : list TxIn) (partials : list (option string))
  (inputs : list PsbtInput) : list DecodedInput :=
  match spends, partials, inputs with
  | spend :: spends, partial :: partials, input :: inputs =>
    decoded_psbt_input unfinished index (previous_output spend) partial input
    :: decoded_psbt_inputs unfinished (S index) spends partials inputs
  | _, _, _ => []
  end.

Definition decode_psbt (psbt : Psbt) : CoreResult DecodedTx :=
  let spends := input (unsigned_tx psbt) in
  match spends with
  | [] => Err (tx_error "the PSBT spends nothing")
  | _ =>
    match repeated_outpoint spends with
    | Some (later, earlier) =>
      Err (tx_error ("invalid PSBT: input " +:+ nat_text later +:+ " spends the same coin as input " +:+ nat_text earlier))
    | None =>
      let? _ := check_previous 0 (psbt_inputs psbt) spends in
      let partials := List.map partial_loose (psbt_inputs psbt) in
      let '(psbt, unfinished) := finalize_mut psbt in
      let inputs := decoded_psbt_inputs unfinished 0 (input (unsigned_tx psbt)) partials (psbt_inputs psbt) in
      let ready := all signed inputs in
      Ok {| d_source := FromPsbt; d_tx := if ready then extract_tx psbt else unsigned_tx psbt; d_inputs := inputs; d_ready := ready |}
    end
  end.

Definition decoded_raw_input (input : TxIn) : DecodedInput :=
  {| signed := negb (bool_decide (script_sig input = [])) || negb (bool_decide (witness input = []));
     prevout := None; prevout_proven := false; disputed_witness_utxo := None;
     loose_sighash := loose_sighash_in (script_sig input) (witness input); finalized := None; hints := no_hints |}.

Definition decode_bytes_as_transaction (bytes : list Z) : CoreResult DecodedTx :=
  if bool_decide (take (length PSBT_MAGIC) bytes = PSBT_MAGIC) then
    match psbt_deserialize bytes with
    | Err e => Err (tx_error ("invalid PSBT: " +:+ e))
    | Ok psbt => decode_psbt psbt
    end
  else
    match tx_deserialize bytes with
    | None => Err (tx_error "not a transaction: expected a PSBT (base64, hex or .psbt file) or a signed transaction (hex or .txn file)")
    | Some tx =>
      match input tx with
      | [] => Err (tx_error "the transaction spends nothing")
      | spends =>
        match repeated_outpoint spends with
        | Some (later, earlier) =>
          Err (tx_error ("input " +:+ nat_text later +:+ " spends the same coin as input " +:+ nat_text earlier))
        | None =>
          let inputs := List.map decoded_raw_input spends in
          Ok {| d_source := RawTransaction; d_tx := tx; d_inputs := inputs; d_ready := all signed inputs |}
        end
      end
    end.

(** [squeezed]: the words of the text, one after the other. *)
Definition squeezed (input : string) : CoreResult string :=
  let text := of_chars (List.concat (words_from (chars input))) in
  if bool_decide (text = "") then Err (tx_error "empty input")
  else if MAX_INPUT_LEN <? Z.of_nat (String.length text) then Err (tx_error "input too large")
  else Ok text.

Definition hexdigit (a : ascii) : bool :=
  let n := byte_of a in between 48 57 n || between 97 102 n || between 65 70 n.

Definition decode_bytes (text : string) : CoreResult (list Z) :=
  if Nat.even (String.length text) && str_all hexdigit text then
    match base16 text with Some bytes => Ok bytes | None => Err (tx_error "invalid hex") end
  else
    let rem := (String.length text mod 4)%nat in
    let padded := if (rem =? 0)%nat then text else text +:+ String.concat "" (repeat "=" (4 - rem)) in
    match base64 padded with
    | Some bytes => Ok bytes
    | None => match base64url padded with Some bytes => Ok bytes | None => Err (tx_error "not hex and not base64") end
    end.

Definition outpoints (decoded : DecodedTx) : list OutPoint := List.map previous_output (input (d_tx decoded)).
End Decode.


(** ** What is decoded *)

(** What the crates document: a PSBT has an entry for each input of its
    transaction; the finalizer keeps the transaction and the coins; the
    transaction extracted spends and pays as the unsigned one. *)
Class PsbtLaws `{Psbts} := {
  deserialized_whole bytes psbt : psbt_deserialize bytes = Ok psbt -> length (psbt_inputs psbt) = length (input (unsigned_tx psbt));
  finalize_keeps psbt : unsigned_tx (finalize_mut psbt).1 = unsigned_tx psbt
    /\ List.map non_witness_utxo (psbt_inputs (finalize_mut psbt).1) = List.map non_witness_utxo (psbt_inputs psbt)
    /\ List.map witness_utxo (psbt_inputs (finalize_mut psbt).1) = List.map witness_utxo (psbt_inputs psbt);
  extract_keeps psbt : List.map previous_output (input (extract_tx psbt)) = List.map previous_output (input (unsigned_tx psbt))
    /\ output (extract_tx psbt) = output (unsigned_tx psbt);
}.

Section Read.
Context `{Transactions} `{Psbts}.

(** A transaction as it is decoded: an entry for each input, and ready
    when all of them are signed. *)
Record decoded_wf (decoded : DecodedTx) : Prop := {
  described_all : length (d_inputs decoded) = length (input (d_tx decoded));
  ready_signed : d_ready decoded = all signed (d_inputs decoded);
}.

(** A PSBT with an entry for each input. *)
Definition whole (psbt : Psbt SecpKey) : Prop := length (psbt_inputs psbt) = length (input (unsigned_tx psbt)).

Lemma repeated_from_right inputs : forall seen index,
  (repeated_from seen index inputs = None
    <-> NoDup (List.map previous_output inputs) /\ forall o, In o (List.map previous_output inputs) -> seen !! o = None)
  /\ ((forall o n, seen !! o = Some n -> (n < index)%nat) -> forall later earlier, repeated_from seen index inputs = Some (later, earlier) -> (earlier < later)%nat).
Proof.
  induction inputs as [|x inputs IH]; intros seen index; cbn [repeated_from List.map].
  { split; [|done]. split; [|done]. intros _. split; [constructor|done]. }
  destruct (seen !! previous_output x) as [earlier|] eqn:E.
  - split; [split; [done|]|intros Hs later e' [= <- <-]; by eapply Hs]. intros [_ Hall]. by rewrite (Hall (previous_output x)) in E by by left.
  - destruct (IH (<[previous_output x := index]> seen) (S index)) as [IH1 IH2]. split.
    + rewrite IH1, list.NoDup_cons. split.
      * intros [Hnd Hall]. assert (Hnin : previous_output x ∉ List.map previous_output inputs).
        { intros Hin%list_elem_of_In. apply Hall in Hin. by rewrite lookup_insert_eq in Hin. }
        split; [done|]. intros o [<-|Ho]; [done|]. rewrite <- (Hall _ Ho). symmetry. apply lookup_insert_ne. intros <-. by apply Hnin, list_elem_of_In.
      * intros [[Hnin Hnd] Hall]. split; [done|]. intros o Ho. rewrite lookup_insert_ne; [by apply Hall; right|]. intros <-. by apply Hnin, list_elem_of_In.
    + intros Hs. apply IH2. intros o n. rewrite lookup_insert. case_decide; [intros [= <-]; lia|]. intros Ho. pose proof (Hs _ _ Ho). lia.
Qed.

(** Two inputs of one coin are found, exactly when there are two. *)
Lemma repeated_outpoint_right inputs : repeated_outpoint inputs = None <-> NoDup (List.map previous_output inputs).
Proof. unfold repeated_outpoint. rewrite (proj1 (repeated_from_right inputs ∅ 0%nat)). split; [tauto|]. intros Hnd. split; [done|]. intros o _. apply lookup_empty. Qed.

(** The previous transaction an input carries is the one it spends, and
    has the output. *)
Definition previous_fits (input : PsbtInput SecpKey) (spend : TxIn) : Prop :=
  forall prev, non_witness_utxo input = Some prev ->
    compute_txid prev = op_txid (previous_output spend) /\ vout (previous_output spend) < Z.of_nat (length (output prev)).

Lemma check_previous_right inputs : forall spends index,
  (check_previous index inputs spends = Ok tt
    <-> forall i input spend, inputs !! i = Some input -> spends !! i = Some spend -> previous_fits input spend)
  /\ forall e, check_previous index inputs spends = Err e -> exists detail, e = tx_error detail.
Proof.
  induction inputs as [|x inputs IH]; intros [|spend spends] index; cbn [check_previous]; [by split..|].
  destruct (IH spends (S index)) as [IH1 IH2].
  assert (Hcons : (forall i input s, (x :: inputs) !! i = Some input -> (spend :: spends) !! i = Some s -> previous_fits input s)
    <-> previous_fits x spend /\ forall i input s, inputs !! i = Some input -> spends !! i = Some s -> previous_fits input s).
  { split; [intros Hall; split; [by apply (Hall 0%nat)|]; intros i a s Ha Hs; by apply (Hall (S i))|]. intros [Hx Hall] [|i] a s; cbn; [by intros [= <-] [= <-]|]. apply Hall. }
  rewrite Hcons. unfold previous_fits at 1. destruct (non_witness_utxo x) as [prev|]; cbn [result_bind].
  - destruct (decide (compute_txid prev = op_txid (previous_output spend))) as [Ht|Ht].
    + rewrite bool_decide_true by done. cbn [negb]. destruct (Z.leb_spec (Z.of_nat (length (output prev))) (vout (previous_output spend))); cbn [result_bind].
      * split; [split; [done|]|intros e [= <-]; by eexists]. intros [Hx _]. destruct (Hx prev eq_refl). lia.
      * rewrite IH1. split; [|done]. split; [intros Hall; split; [|done]; by intros p [= <-]|tauto].
    + rewrite bool_decide_false by done. cbn [negb result_bind]. split; [split; [done|]|intros e [= <-]; by eexists]. intros [Hx _]. by destruct (Hx prev eq_refl).
  - rewrite IH1. split; [|done]. split; [by split|tauto].
Qed.

Lemma decoded_psbt_inputs_length unfinished inputs : forall spends partials index, length partials = length inputs -> length inputs = length spends ->
  length (decoded_psbt_inputs unfinished index spends partials inputs) = length spends.
Proof.
  induction inputs as [|x inputs IH]; intros [|spend spends] [|partial partials] index; simpl; intros Hp Hs; try done. by rewrite IH by lia.
Qed.

Lemma decoded_psbt_inputs_lookup unfinished inputs : forall spends partials index i d,
  decoded_psbt_inputs unfinished index spends partials inputs !! i = Some d <->
  exists spend partial input, spends !! i = Some spend /\ partials !! i = Some partial /\ inputs !! i = Some input
    /\ d = decoded_psbt_input unfinished (index + i) (previous_output spend) partial input.
Proof.
  induction inputs as [|x inputs IH]; intros [|spend spends] [|partial partials] index i d; simpl; try by (split; [done|]; intros (? & ? & ? & ? & ? & ? & _)).
  destruct i as [|i]; simpl.
  - rewrite Nat.add_0_r. split; [intros [= <-]; by exists spend, partial, x|]. by intros (? & ? & ? & [= <-] & [= <-] & [= <-] & ->).
  - rewrite IH. by replace (index + S i)%nat with (S index + i)%nat by lia.
Qed.
End Read.

Section Law.
Context `{Transactions} `{PsbtLaws}.

(** What a PSBT can be refused for. *)
Definition fits (psbt : Psbt SecpKey) : Prop :=
  let spends := input (unsigned_tx psbt) in
  spends <> [] /\ NoDup (List.map previous_output spends)
  /\ forall i input spend, psbt_inputs psbt !! i = Some input -> spends !! i = Some spend -> previous_fits input spend.

(** The entries of a PSBT decoded: of the finalized PSBT, with the hash
    types of the partial signatures, read before. *)
Definition entries_of (psbt : Psbt SecpKey) : list DecodedInput :=
  let finalized := finalize_mut psbt in
  decoded_psbt_inputs finalized.2 0 (input (unsigned_tx psbt)) (List.map partial_loose (psbt_inputs psbt)) (psbt_inputs finalized.1).

Lemma finalize_whole psbt : whole psbt -> length (psbt_inputs (finalize_mut psbt).1) = length (input (unsigned_tx psbt)).
Proof.
  intros Hw. destruct (finalize_keeps psbt) as (_ & Hnw & _). apply (f_equal length) in Hnw. rewrite !List.length_map in Hnw. unfold whole in Hw. lia.
Qed.

Lemma entries_length psbt : whole psbt -> length (entries_of psbt) = length (input (unsigned_tx psbt)).
Proof.
  intros Hw. unfold entries_of. pose proof (finalize_whole psbt Hw). unfold whole in Hw.
  apply decoded_psbt_inputs_length; rewrite ?List.length_map; lia.
Qed.

Lemma decode_psbt_right psbt : whole psbt ->
  match decode_psbt psbt with
  | Ok decoded => fits psbt /\ decoded_wf decoded /\ d_source decoded = FromPsbt /\ d_inputs decoded = entries_of psbt
    /\ outpoints decoded = List.map previous_output (input (unsigned_tx psbt)) /\ output (d_tx decoded) = output (unsigned_tx psbt)
  | Err e => ~ fits psbt /\ exists detail, e = tx_error detail
  end.
Proof.
  intros Hw. pose proof (entries_length psbt Hw) as Hlen. destruct (finalize_keeps psbt) as (Hu & _ & _). destruct (extract_keeps (finalize_mut psbt).1) as [He Ho].
  rewrite Hu in He, Ho. unfold decode_psbt, fits in *. cbn zeta. destruct (input (unsigned_tx psbt)) as [|spend spends] eqn:Es; [split; [by intros [? _]|by eexists]|].
  rewrite <- Es in *. destruct (repeated_outpoint (input (unsigned_tx psbt))) as [[later earlier]|] eqn:Er.
  { split; [|by eexists]. intros (_ & Hnd & _). apply repeated_outpoint_right in Hnd. congruence. }
  apply repeated_outpoint_right in Er. destruct (check_previous_right (psbt_inputs psbt) (input (unsigned_tx psbt)) 0) as [Hok Herr].
  destruct (check_previous 0 (psbt_inputs psbt) (input (unsigned_tx psbt))) as [[]|e] eqn:Ec; cbn [result_bind].
  2: { split; [|by apply Herr]. intros (_ & _ & Hall). by apply Hok in Hall. }
  assert (Hent : entries_of psbt = decoded_psbt_inputs (finalize_mut psbt).2 0 (input (unsigned_tx psbt)) (List.map partial_loose (psbt_inputs psbt)) (psbt_inputs (finalize_mut psbt).1)) by done.
  destruct (finalize_mut psbt) as [final unfinished]. cbn [fst snd] in *. rewrite Hu, <- Hent.
  split; [split; [by rewrite Es|]; split; [done|]; by apply Hok|]. split; [|split; [done|split; [done|]]]; unfold outpoints; cbn [d_tx d_inputs d_ready].
  - split; cbn [d_tx d_inputs d_ready]; [|done]. rewrite Hlen. destruct (all signed (entries_of psbt)); [|done].
    apply (f_equal length) in He. by rewrite !List.length_map in He.
  - by destruct (all signed (entries_of psbt)).
Qed.

Lemma unfit_input (inputs : list (PsbtInput SecpKey)) : forall spends : list TxIn,
  (exists i input spend prev, inputs !! i = Some input /\ spends !! i = Some spend /\ non_witness_utxo input = Some prev
     /\ (compute_txid prev <> op_txid (previous_output spend) \/ Z.of_nat (length (output prev)) <= vout (previous_output spend)))
  \/ forall i input spend, inputs !! i = Some input -> spends !! i = Some spend -> previous_fits input spend.
Proof.
  induction inputs as [|x inputs IH]; intros [|s spends]; [by right..|].
  assert (Hx : previous_fits x s \/ exists prev, non_witness_utxo x = Some prev
     /\ (compute_txid prev <> op_txid (previous_output s) \/ Z.of_nat (length (output prev)) <= vout (previous_output s))).
  { unfold previous_fits. destruct (non_witness_utxo x) as [prev|]; [|by left].
    destruct (decide (compute_txid prev = op_txid (previous_output s))); [|right; exists prev; auto].
    destruct (Z.lt_ge_cases (vout (previous_output s)) (Z.of_nat (length (output prev)))); [left; by intros p [= <-]|right; exists prev; auto]. }
  destruct Hx as [Hx|(prev & Hp)]; [|left; by exists 0%nat, x, s, prev].
  destruct (IH spends) as [(i & a & s' & prev & Hi)|Hall]; [left; by exists (S i), a, s', prev|]. right.
  intros [|i] a s'; cbn; [by intros [= <-] [= <-]|apply Hall].
Qed.

(** C37: what is decoded of any bytes spends something, and no coin twice;
    it has an entry for each input, and is ready exactly when every one is
    signed. *)
Theorem decoded_well_formed bytes decoded : decode_bytes_as_transaction bytes = Ok decoded ->
  outpoints decoded <> [] /\ NoDup (outpoints decoded) /\ length (d_inputs decoded) = length (outpoints decoded)
  /\ (d_ready decoded = true <-> forall d, In d (d_inputs decoded) -> signed d = true).
Proof.
  assert (Hwf : forall decoded, decoded_wf decoded -> outpoints decoded <> [] -> NoDup (outpoints decoded) ->
    outpoints decoded <> [] /\ NoDup (outpoints decoded) /\ length (d_inputs decoded) = length (outpoints decoded)
    /\ (d_ready decoded = true <-> forall d, In d (d_inputs decoded) -> signed d = true)).
  { intros x [Hlen Hready] Hne Hnd. split; [done|]. split; [done|]. split; [by unfold outpoints; rewrite List.length_map|].
    by rewrite Hready, all_true. }
  unfold decode_bytes_as_transaction. case_bool_decide.
  - destruct (psbt_deserialize bytes) as [psbt|] eqn:Ed; [|done]. intros Hd. pose proof (decode_psbt_right psbt (deserialized_whole _ _ Ed)) as Hr.
    rewrite Hd in Hr. destruct Hr as ((Hne & Hnd & _) & Hw & _ & _ & Ho & _). apply Hwf; [done| |by rewrite Ho]. rewrite Ho. by destruct (input _).
  - destruct (tx_deserialize bytes) as [tx|]; [|done]. destruct (input tx) as [|spend spends] eqn:Es; [done|]. rewrite <- Es.
    destruct (repeated_outpoint (input tx)) as [[? ?]|] eqn:Er; [done|]. apply repeated_outpoint_right in Er. intros [= <-].
    apply Hwf; unfold outpoints; cbn [d_tx]; [|by rewrite Es|done]. split; cbn [d_inputs d_tx d_ready]; [by rewrite List.length_map|done].
Qed.

(** C36: a PSBT is refused exactly when it spends nothing, spends a coin
    twice, or carries with an input a previous transaction that is not
    the one the input spends or has no such output; and what is refused,
    of any bytes, is the transaction, whatever the reason. *)
Theorem psbt_refused_exactly bytes :
  (forall psbt, take (length PSBT_MAGIC) bytes = PSBT_MAGIC -> psbt_deserialize bytes = Ok psbt ->
     is_ok (decode_bytes_as_transaction bytes) = false <->
     input (unsigned_tx psbt) = []
     \/ ~ NoDup (List.map previous_output (input (unsigned_tx psbt)))
     \/ exists i input spend prev, psbt_inputs psbt !! i = Some input /\ TxExtras.input (unsigned_tx psbt) !! i = Some spend
          /\ non_witness_utxo input = Some prev
          /\ (compute_txid prev <> op_txid (previous_output spend) \/ Z.of_nat (length (output prev)) <= vout (previous_output spend)))
  /\ forall e, decode_bytes_as_transaction bytes = Err e -> exists detail, e = InvalidInput "transaction" detail.
Proof.
  split.
  - intros psbt Hm Hd. unfold decode_bytes_as_transaction. rewrite bool_decide_true by done. rewrite Hd.
    pose proof (decode_psbt_right psbt (deserialized_whole _ _ Hd)) as Hr. destruct (decode_psbt psbt) as [decoded|e]; cbn [is_ok].
    + destruct Hr as ((Hne & Hnd & Hall) & _). split; [done|]. intros [?|[?|(i & a & s & prev & Ha & Hs & Hp & Hx)]]; [done|done|].
      destruct (Hall i a s Ha Hs prev Hp). destruct Hx; [done|lia].
    + split; [intros _|done]. destruct Hr as [Hn _]. destruct (decide (input (unsigned_tx psbt) = [])) as [|Hne]; [by left|right].
      destruct (decide (NoDup (List.map previous_output (input (unsigned_tx psbt))))) as [Hnd|]; [right|by left].
      destruct (unfit_input (psbt_inputs psbt) (input (unsigned_tx psbt))) as [(i & a & s & prev & Hx)|Hall]; [by exists i, a, s, prev|].
      by destruct Hn.
  - intros e. unfold decode_bytes_as_transaction. case_bool_decide.
    + destruct (psbt_deserialize bytes) as [psbt|] eqn:Ed; [|by intros [= <-]; eexists]. intros He.
      pose proof (decode_psbt_right psbt (deserialized_whole _ _ Ed)) as Hr. rewrite He in Hr. by destruct Hr as [_ ?].
    + destruct (tx_deserialize bytes) as [tx|]; [|by intros [= <-]; eexists]. destruct (input tx); [by intros [= <-]; eexists|].
      destruct (repeated_outpoint _) as [[? ?]|]; [by intros [= <-]; eexists|done].
Qed.
End Law.

(** ** A concrete instance *)

Module Demo.
Definition coin : TxOut := {| value := 100000; script_pubkey := [0; 20] |}.
Definition funding : Transaction := {| tx_version := 2; lock_time := 7; input := []; output := [coin] |}.
Definition spend : TxIn := {| previous_output := {| op_txid := "7"; vout := 0 |}; script_sig := []; sequence := 0; witness := [] |}.
Definition signed_spend : TxIn := {| previous_output := {| op_txid := "7"; vout := 0 |}; script_sig := []; sequence := 0; witness := [[1]] |}.
Definition tx : Transaction := {| tx_version := 2; lock_time := 0; input := [spend]; output := [{| value := 60000; script_pubkey := [0; 20; 1] |}] |}.
Definition signed_tx : Transaction := {| tx_version := 2; lock_time := 0; input := [signed_spend]; output := [{| value := 60000; script_pubkey := [0; 20; 1] |}] |}.

(** Enough of the crates for one coin, its spend and its PSBT. *)
#[export] Instance transactions : Transactions := {|
  compute_txid := fun tx => dec (lock_time tx); tx_vsize := fun _ => 110; tx_weight := fun _ => 440; total_size := fun _ => 190; base_size := fun _ => 85;
  serialize_hex := fun _ => "0200"; is_explicitly_rbf := fun _ => true; is_lock_time_enabled := fun _ => false; is_coinbase := fun _ => false;
  total_sigop_cost := fun _ _ => 1; is_op_return := fun _ => false; is_p2tr := fun _ => false; instructions := fun _ => [];
  from_script := fun _ _ => None; is_alphanumeric := fun _ => false |}.

#[export] Instance scripts : Scripts := {|
  PublicKey := Z; XOnly := Z; TapNodeHash := Z; ControlBlock := Z; Descriptor := Z; SegwitMs := Z; LegacyMs := Z; TapMs := Z;
  is_p2wpkh := fun _ => true; is_p2pkh := fun _ => false; is_p2tr_script := fun _ => false; is_p2wsh := fun _ => false; is_p2sh := fun _ => false;
  p2pkh_of := fun _ => []; p2wsh_of := fun _ => []; p2sh_of := fun _ => []; any_key := Some 2;
  new_wpkh := fun k => Some k; new_pkh := fun k => Some k; new_sh_wpkh := fun k => Some k; new_wsh := fun k => Some k; new_sh_wsh := fun k => Some k; new_sh := fun k => Some k;
  parse_segwit := fun _ => None; parse_legacy := fun _ => None; parse_tap := fun _ => None;
  max_weight_to_satisfy := fun _ => Some 108; is_segwit := fun _ => true; x_only_from_slice := fun _ => None; tap_tweak_alone := fun k => k;
  verify_taproot_commitment := fun _ _ _ => false; control_size := fun _ => 33; max_satisfaction_witness_elements := fun _ => None;
  max_satisfaction_size := fun _ => None; VarInt_size := fun _ => 1; witness_size := fun _ => 1 |}.

Definition psbt_input : PsbtInput Z :=
  {| non_witness_utxo := Some funding; witness_utxo := Some {| value := 5; script_pubkey := [0; 20] |}; partial_sigs := []; tap_key_sig := None;
     tap_script_sigs := []; final_script_sig := None; final_script_witness := Some [[1]]; pi_redeem_script := None; pi_witness_script := None;
     bip32_derivation := []; tap_scripts := []; pi_tap_internal_key := None; pi_tap_merkle_root := None |}.
Definition psbt : Psbt Z := {| unsigned_tx := tx; psbt_inputs := [psbt_input] |}.

(** The same, spending an output the previous transaction lacks. *)
Definition past_spend : TxIn := {| previous_output := {| op_txid := "7"; vout := 1 |}; script_sig := []; sequence := 0; witness := [] |}.
Definition missing : Psbt Z :=
  {| unsigned_tx := {| tx_version := 2; lock_time := 0; input := [past_spend]; output := [] |}; psbt_inputs := [psbt_input] |}.

#[export] Instance psbts : Psbts := {|
  SecpKey := Z; base16 := fun _ => None; base64 := fun _ => None; base64url := fun _ => None; tx_deserialize := fun _ => Some signed_tx;
  psbt_deserialize := fun bytes => if bool_decide (bytes = PSBT_MAGIC) then Ok psbt else Ok missing;
  ecdsa_from_slice := fun _ => None; schnorr_from_slice := fun _ => None; finalize_mut := fun psbt => (psbt, []); extract_tx := fun psbt => unsigned_tx psbt;
  key_new := fun k => k; key_new_uncompressed := fun k => k; sighash_text := fun _ => "SIGHASH_NONE" |}.

#[export] Instance psbt_laws : PsbtLaws.
Proof.
  split.
  - intros bytes p. unfold psbt_deserialize, psbts. case_bool_decide; by intros [= <-].
  - done.
  - done.
Qed.
End Demo.

Section Witnesses.
#[local] Existing Instances Demo.transactions Demo.scripts Demo.psbts Demo.psbt_laws.

Lemma decoded_well_formed_witness :
  exists decoded, decode_bytes_as_transaction PSBT_MAGIC = Ok decoded /\ outpoints decoded <> [] /\ d_ready decoded = true.
Proof.
  eexists. split; [vm_compute; reflexivity|]. pose proof (decoded_well_formed PSBT_MAGIC _ eq_refl) as (Hne & _).
  split; [exact Hne|reflexivity].
Defined.

Lemma psbt_refused_exactly_witness : is_ok (decode_bytes_as_transaction (PSBT_MAGIC ++ [0])) = false.
Proof.
  pose proof (psbt_refused_exactly (PSBT_MAGIC ++ [0])) as [Hexactly _]. apply (Hexactly Demo.missing eq_refl eq_refl). right. right.
  exists 0%nat, Demo.psbt_input, Demo.past_spend, Demo.funding. split; [reflexivity|]. split; [reflexivity|]. split; [reflexivity|]. right. vm_compute. discriminate.
Defined.
End Witnesses.
