(* ===== verification/Preview.v ===== *)
(** [broadcast.rs], the second half: the preview of what a transaction
    does before anything leaves the device: the coins it spends and where
    their values come from, the fee, every caution, and whether it can be
    sent. *)
From S2P Require Import Prelude Utf8 Text Errors Network Lock Xpub TxExtras F64 Signing Endpoints Decode.
From Stdlib Require Import Ascii.

(** ** The preview *)

Record WalletRef := { wr_id : string; wr_name : string }.

Record TxInputPreview := {
  ip_txid : string;
  ip_vout : Z;
  value_sats : option Z;
  address : option string;
  ip_signed : bool;
  ip_wallet : option WalletRef;
}.

Record TxOutputPreview := {
  index : nat;
  op_value_sats : Z;
  op_address : option string;
  op_return : option OpReturnData;
  op_wallet : option WalletRef;
  op_change : bool;
}.

Module TxWarningKind.
Inductive TxWarningKind :=
| Unsigned | HighFeeRate | HighFeeShare | Locked | InputUnknown | InputSpent | InMempool | InputMismatch | FeeUnknown
| DustOutput | SpendsWatched | UncommittedOutputs.
End TxWarningKind.
Export TxWarningKind (TxWarningKind).

#[export] Instance TxWarningKind_eq_dec : EqDecision TxWarningKind.
Proof. solve_decision. Defined.

Inductive TxSeverity := Alert | Info.

Definition severity (kind : TxWarningKind) : TxSeverity :=
  match kind with
  | TxWarningKind.Unsigned | TxWarningKind.InputSpent => Alert
  | TxWarningKind.HighFeeRate | TxWarningKind.HighFeeShare => Alert
  | TxWarningKind.InputMismatch => Alert
  | TxWarningKind.UncommittedOutputs => Alert
  | TxWarningKind.InputUnknown | TxWarningKind.InMempool | TxWarningKind.Locked | TxWarningKind.FeeUnknown
  | TxWarningKind.DustOutput | TxWarningKind.SpendsWatched => Info
  end.

Record TxWarning := { kind : TxWarningKind; message : string; w_severity : TxSeverity; blocking : bool }.

(** [TxWarning::new], [TxWarning::refused]. *)
Definition warning_new (kind : TxWarningKind) (message : string) : TxWarning :=
  {| kind := kind; message := message; w_severity := severity kind; blocking := false |}.
Definition warning_refused (kind : TxWarningKind) (message : string) : TxWarning :=
  {| kind := kind; message := message; w_severity := severity kind; blocking := true |}.

Module TxReadiness.
Inductive TxReadiness := Ready | Refused | Unsigned | InMempool.
End TxReadiness.
Export TxReadiness (TxReadiness).

Inductive FeeRateBasis := Exact | Estimated | UpperBound.

Record TxPreview := {
  p_txid : string;
  p_source : TxSource;
  p_network : Network;
  p_inputs : list TxInputPreview;
  p_outputs : list TxOutputPreview;
  fee_sats : option Z;
  fee_rate_sat_vb : option f64;
  fee_rate_basis : FeeRateBasis;
  fee_unknown_reason : option string;
  amounts_declared : bool;
  amounts_listed : bool;
  p_vsize : Z;
  p_weight : Z;
  p_size : Z;
  p_version : Z;
  p_locktime : Z;
  rbf : bool;
  ready : bool;
  readiness : TxReadiness;
  warnings : list TxWarning;
  p_hex : option string;
}.

(** What the manager learned of the coins and the outputs. *)
Record SpentBy := { sb_txid : string; sb_confirmed : bool; sb_verified : bool }.

Record InputFacts := {
  f_prevout : option TxOut;
  f_wallet : option WalletRef;
  f_spent : option bool;
  f_spent_by : option SpentBy;
  f_listed : bool;
  f_contradicted_listing : option (WalletRef * TxOut);
  f_unknown : bool;
  f_unchecked : bool;
  f_satisfaction : option Satisfaction;
}.

Definition no_facts : InputFacts :=
  {| f_prevout := None; f_wallet := None; f_spent := None; f_spent_by := None; f_listed := false;
     f_contradicted_listing := None; f_unknown := false; f_unchecked := false; f_satisfaction := None |}.

Record OutputFacts := { o_wallet : option WalletRef; o_change : bool }.
Definition no_output_facts : OutputFacts := {| o_wallet := None; o_change := false |}.

(** A lock time under this is a height: [LockTime::is_block_height]. *)
Definition is_block_height (lock : Z) : bool := lock <? 500000000.

Definition unsigned_count (unsigned total : nat) : string :=
  if ((unsigned =? 1) && (total =? 1))%nat then "The input carries no signature"
  else if (unsigned =? total)%nat then "None of the " +:+ nat_text total +:+ " inputs carries a signature"
  else if (unsigned =? 1)%nat then "1 of " +:+ nat_text total +:+ " inputs carries no signature"
  else nat_text unsigned +:+ " of " +:+ nat_text total +:+ " inputs carry no signature".

Definition spent_caution (index : nat) (txid : string) (spent_by : option SpentBy) : TxWarning :=
  let kind := TxWarningKind.InputSpent in
  match spent_by with
  | Some by_ =>
    if sb_confirmed by_ && negb (sb_verified by_) then
      warning_new kind ("The backend says input " +:+ nat_text index +:+ " is already spent in a block, but it could not show a transaction that spends it. Broadcast stays available: if the backend is right, the network will refuse this one.")
    else if sb_confirmed by_ && bool_decide (sb_txid by_ = txid) then
      warning_refused kind ("Input " +:+ nat_text index +:+ " is already spent by this same transaction, which is already in a block. There is nothing left to broadcast.")
    else if sb_confirmed by_ then
      warning_refused kind ("Input " +:+ nat_text index +:+ " is already spent by another transaction, which is in a block. The network will refuse this one.")
    else
      warning_new kind ("Input " +:+ nat_text index +:+ " is already spent by another transaction waiting in the mempool. The network takes this one only as a replacement paying a higher fee.")
  | None =>
    warning_new kind ("Input " +:+ nat_text index +:+ " is already spent. Either this transaction was broadcast before, or another one took the coin.")
  end.

(** [iter().enumerate()]. *)
Definition enumerate {A} (l : list A) : list (nat * A) := combine (seq 0 (length l)) l.

Section Preview.
Context `{Transactions} `{Psbts} `{EqDecision XOnly}.

(** What the value and the script of a coin are read from, input by
    input: the previous transaction the PSBT proves it with, or the wallet
    or the backend, or the PSBT's word. *)
Definition spent_coin (described : DecodedInput) (facts : option InputFacts) : option TxOut :=
  if prevout_proven described then prevout described
  else
    match match facts with Some f => f_prevout f | None => None end with
    | Some known => Some known
    | None => prevout described
    end.

Definition spent_coins (decoded : DecodedTx) (facts : list InputFacts) : list (option TxOut) :=
  List.map (fun '(i, described) => spent_coin described (facts !! i)) (enumerate (d_inputs decoded)).

(** Whether a value shown is proven. *)
Definition proven_coin (described : DecodedInput) (facts : option InputFacts) : bool :=
  match facts with Some f => match f_prevout f with Some _ => negb (f_listed f) | None => false end | None => false end
  || prevout_proven described.

Definition missing_signature (input : TxIn) (described : DecodedInput) (facts : option InputFacts) (spent : option TxOut)
  : option (option Satisfaction) :=
  if negb (bool_decide (script_sig input = [])) || negb (bool_decide (witness input = [])) then Some None
  else
    match finalized described with
    | Some done => Some (Some done)
    | None =>
      match match facts with Some f => f_satisfaction f | None => None end with
      | Some policy => Some (Some policy)
      | None =>
        match spent with
        | Some coin => option_map Some (estimated (script_pubkey coin) (hints described))
        | None => None
        end
      end
    end.

Definition missing_signatures (decoded : DecodedTx) (facts : list InputFacts) (spent : list (option TxOut))
  : list (option (option Satisfaction)) :=
  List.map (fun '(i, (input, (described, coin))) => missing_signature input described (facts !! i) coin)
    (enumerate (combine (input (d_tx decoded)) (combine (d_inputs decoded) spent))).

(** [Weight::to_vbytes_ceil]: four weight units a vbyte. *)
Definition to_vbytes_ceil (weight : Z) : Z := (weight + 3) / 4.

(** The virtual size the rate is paid on, how it is known, and the least
    it can plausibly be. *)
Definition signed_size (decoded : DecodedTx) (missing : list (option (option Satisfaction))) : Z * FeeRateBasis * Z :=
  let tx := d_tx decoded in
  let vsize := tx_vsize tx in
  if d_ready decoded then (vsize, Exact, vsize)
  else if all (fun need => match need with Some _ => true | None => false end) missing then
    let once_signed := to_vbytes_ceil (weight_once_signed tx (omap (fun need => need) missing)) in
    (once_signed, Estimated, once_signed)
  else
    let heaviest := List.map (fun need => unwrap_or need (Some PLAUSIBLE_HEAVIEST)) missing in
    (vsize, UpperBound, to_vbytes_ceil (weight_once_signed tx heaviest)).

Definition in_total_of (values : list (option Z)) : option Z :=
  foldl (fun acc v => match acc, v with Some acc, Some v => checked_add_u64 acc v | _, _ => None end) (Some 0) values.

Definition checked_sub (a b : Z) : option Z := if b <=? a then Some (a - b) else None.

Section Words.
Variables (network : Network) (now_secs : Z).

Definition place (coin : TxOut) : string :=
  unwrap_or (from_script network (script_pubkey coin)) ("script " +:+ hex (script_pubkey coin)).

Definition sats (coin : TxOut) : string := dec (value coin).

(** What the PSBT says of an input. *)
Definition psbt_warnings (i : nat) (described : DecodedInput) : list TxWarning :=
  match loose_sighash described with
  | Some kind =>
    [warning_new TxWarningKind.UncommittedOutputs
       ("Input " +:+ nat_text i +:+ " is signed with " +:+ kind +:+ ", which leaves some or all of the outputs open: whoever relays or mines this transaction can send that money elsewhere. Have it signed again over every output (SIGHASH_ALL).")]
  | None => []
  end
  ++ match prevout described, disputed_witness_utxo described with
     | Some known, Some declared =>
       [warning_new TxWarningKind.InputMismatch
          ("Input " +:+ nat_text i +:+ " is not what the PSBT says: its witness entry declares " +:+ sats declared +:+ " sats on " +:+ place declared +:+ ", but the previous transaction it carries, the one this input spends, pays " +:+ sats known +:+ " sats to " +:+ place known +:+ ". The value shown and the fee go by that transaction; whoever built this PSBT declared a different coin.")]
     | _, _ => []
     end.

(** What is known of an input says another coin than the PSBT. *)
Definition mismatch_warnings (i : nat) (facts : InputFacts) (described : option DecodedInput) : list TxWarning :=
  match described with
  | Some described =>
    match f_prevout facts, prevout described with
    | Some known, Some claimed =>
      if bool_decide (known <> claimed) then
        let source := match f_wallet facts with Some wallet => wr_name wallet | None => "the backend" end in
        [warning_new TxWarningKind.InputMismatch
           (if prevout_proven described then
              "Input " +:+ nat_text i +:+ " is not what " +:+ source +:+ " says: " +:+ source +:+ " knows this coin as " +:+ sats known +:+ " sats on " +:+ place known +:+ ", but the previous transaction the PSBT carries, the one this input spends, pays " +:+ sats claimed +:+ " sats to " +:+ place claimed +:+ ". The value shown and the fee go by that transaction."
            else
              "Input " +:+ nat_text i +:+ " is not what the PSBT says: it declares " +:+ sats claimed +:+ " sats on " +:+ place claimed +:+ ", but " +:+ source +:+ " knows this coin as " +:+ sats known +:+ " sats on " +:+ place known +:+ ". The fee shown goes by " +:+ source +:+ "; whoever built this PSBT was handed a different coin.")]
      else []
    | _, _ => []
    end
  | None => []
  end.

(** A listing a transaction contradicts. *)
Definition listing_warnings (i : nat) (facts : InputFacts) (described : option DecodedInput) (coin : option TxOut) : list TxWarning :=
  match f_contradicted_listing facts, coin with
  | Some (wallet, listed), Some proof =>
    let source := if match described with Some d => prevout_proven d | None => false end
                  then "the previous transaction the PSBT carries" else "the transaction the backend holds" in
    [warning_new TxWarningKind.InputMismatch
       ("Input " +:+ nat_text i +:+ " is not what " +:+ wr_name wallet +:+ " lists: its server lists this coin as " +:+ sats listed +:+ " sats on " +:+ place listed +:+ ", but " +:+ source +:+ ", the one this input spends, pays " +:+ sats proof +:+ " sats to " +:+ place proof +:+ ". The value shown and the fee go by that transaction.")]
  | _, _ => []
  end.

(** This very transaction, waiting. *)
Definition waits_here (txid : string) (facts : InputFacts) : bool :=
  match f_spent_by facts with Some by_ => bool_decide (sb_txid by_ = txid) && negb (sb_confirmed by_) | None => false end.

(** What a coin's standing is: its cautions, and whether it says this
    transaction is in the mempool. *)
Definition standing (txid : string) (i : nat) (facts : InputFacts) (proven : bool) : list TxWarning * bool :=
  let unknown message := [warning_new TxWarningKind.InputUnknown message] in
  if f_unknown facts then
    (unknown ("Input " +:+ nat_text i +:+ " was not found on " +:+ Network.as_str network +:+ ": the transaction may belong to another network, or spend a coin this backend does not know."), false)
  else if f_unchecked facts && proven then
    (unknown ("Input " +:+ nat_text i +:+ " could not be checked: no backend answered about this coin. Its value is proven by the previous transaction the PSBT carries, the one this input spends; whether the coin is still there to spend is not."), false)
  else if f_unchecked facts then
    match (if f_listed facts then f_wallet facts else None) with
    | Some wallet =>
      (unknown ("Input " +:+ nat_text i +:+ " could not be checked: no backend answered about this coin. Its value here, and the fee, are what the server listed for " +:+ wr_name wallet +:+ " at the last sync, not something confirmed."), false)
    | None =>
      (unknown ("Input " +:+ nat_text i +:+ " could not be checked: no backend answered about this coin. Its value here, and the fee, are what this transaction claims, not something confirmed."), false)
    end
  else if waits_here txid facts then ([], true)
  else if bool_decide (f_spent facts = Some true) then ([spent_caution i txid (f_spent_by facts)], false)
  else ([], false).

Definition facts_warnings (txid : string) (i : nat) (facts : InputFacts) (described : option DecodedInput) (coin : option TxOut)
  (proven : bool) : list TxWarning * bool :=
  let '(standing, waiting) := standing txid i facts proven in
  (mismatch_warnings i facts described ++ listing_warnings i facts described coin ++ standing, waiting).

(** The cautions on the fee. *)
Definition no_fee_warning (outputs_impossible inputs_impossible overspends vouched : bool) : TxWarning :=
  if outputs_impossible then
    warning_refused TxWarningKind.FeeUnknown
      "The outputs pay more than all the bitcoin there will ever be: the network will refuse this transaction."
  else if inputs_impossible then
    warning_new TxWarningKind.FeeUnknown
      "The coins this transaction spends add up to more than all the bitcoin there will ever be, as it declares them: those amounts cannot be right."
  else if overspends && vouched then
    warning_refused TxWarningKind.FeeUnknown "The outputs pay more than the inputs bring: the network will refuse this transaction."
  else if overspends then
    warning_new TxWarningKind.FeeUnknown
      "The outputs pay more than the inputs bring, by amounts nothing proves: if those amounts are right, the network will refuse this transaction."
  else warning_new TxWarningKind.FeeUnknown "The fee is unknown: the value of at least one input could not be established.".

Definition high_fee_warnings (fee total : Z) (rate : f64) (basis : FeeRateBasis) (plausible_vsize : Z) : list TxWarning :=
  let '(judged, measured) :=
    match basis with
    | Exact => (rate, f64_show rate +:+ " sat/vB")
    | Estimated => (rate, "about " +:+ f64_show rate +:+ " sat/vB once signed")
    | UpperBound =>
      let least := f64_div (f64_of fee) (f64_of plausible_vsize) in
      (least, "at least " +:+ f64_show least +:+ " sat/vB once signed")
    end in
  (if f64_gt judged HIGH_FEE_RATE_SAT_VB then
     [warning_new TxWarningKind.HighFeeRate
        ("The fee rate is " +:+ measured +:+ ", far above what the chain asks for. A wrong unit in the signing software is the usual cause.")]
   else [])
  ++ (if (0 <? total) && f64_gt (f64_div (f64_of fee) (f64_of total)) HIGH_FEE_SHARE then
        [warning_new TxWarningKind.HighFeeShare
           ("The fee takes " +:+ f64_show (f64_div (f64_mul (f64_of 100) (f64_of fee)) (f64_of total)) +:+ "% of what the inputs bring.")]
      else []).

Definition lock_warnings (tx : Transaction) (tip_height : option Z) : list TxWarning :=
  let locktime := lock_time tx in
  let locked := is_lock_time_enabled tx
    && (if is_block_height locktime then match tip_height with Some tip => tip <? locktime | None => false end
        else now_secs <? locktime) in
  if locked then
    [warning_new TxWarningKind.Locked
       (if is_block_height locktime then "Time-locked until block " +:+ dec locktime +:+ ": the network will not accept it before."
        else "Time-locked until a later date: the network will not accept it before.")]
  else [].

Definition dust_warnings (outputs : list TxOutputPreview) : list TxWarning :=
  let dust := length (retain (fun o => match op_return o with None => true | Some _ => false end && (op_value_sats o <? 546)) outputs) in
  if (0 <? dust)%nat then
    [warning_new TxWarningKind.DustOutput
       (nat_text dust +:+ " output" +:+ (if (dust =? 1)%nat then "" else "s") +:+ " below 546 sats: most nodes refuse dust.")]
  else [].

Definition watched_warnings (inputs : list TxInputPreview) : list TxWarning :=
  let watched := in_order (list_to_set (omap (fun i => option_map wr_name (ip_wallet i)) inputs)) in
  match watched with
  | [] => []
  | _ => [warning_new TxWarningKind.SpendsWatched ("Spends coins of " +:+ join ", " watched +:+ ".")]
  end.
End Words.

Definition input_preview (network : Network) (i : nat) (input : TxIn) (described : option DecodedInput) (facts : option InputFacts)
  (coin : option TxOut) : TxInputPreview :=
  {| ip_txid := op_txid (previous_output input);
     ip_vout := vout (previous_output input);
     value_sats := option_map value coin;
     address := match coin with Some p => from_script network (script_pubkey p) | None => None end;
     ip_signed := match described with Some d => signed d | None => false end;
     ip_wallet := match facts with Some f => f_wallet f | None => None end |}.

Definition output_preview (network : Network) (i : nat) (out : TxOut) (facts : OutputFacts) : TxOutputPreview :=
  {| index := i;
     op_value_sats := value out;
     op_address := from_script network (script_pubkey out);
     op_return := op_return_of (script_pubkey out);
     op_wallet := o_wallet facts;
     op_change := o_change facts |}.

(** The amounts of a preview: the sums, the fee, what is impossible. *)
Record Amounts := {
  a_in_total : option Z;
  a_out_total : option Z;
  a_values_known : bool;
  a_outputs_impossible : bool;
  a_inputs_impossible : bool;
  a_fee : option Z;
}.

Definition amounts_of (tx : Transaction) (values : list (option Z)) : Amounts :=
  let in_total := in_total_of values in
  let out_total := outputs_within_max_money tx in
  let outputs_impossible := match out_total with None => true | Some _ => false end in
  let values_known := all (fun v => match v with Some _ => true | None => false end) values in
  let inputs_impossible := values_known && match in_total with None => true | Some total => MAX_MONEY <? total end in
  {| a_in_total := in_total; a_out_total := out_total; a_values_known := values_known;
     a_outputs_impossible := outputs_impossible; a_inputs_impossible := inputs_impossible;
     a_fee := match in_total, out_total with
              | Some total, Some out =>
                if negb outputs_impossible && negb inputs_impossible then checked_sub total out else None
              | _, _ => None
              end |}.

Definition fee_warnings (amounts : Amounts) (rate : option f64) (basis : FeeRateBasis) (plausible_vsize : Z) (vouched : bool)
  : list TxWarning :=
  let overspends := a_values_known amounts && negb (a_outputs_impossible amounts) && negb (a_inputs_impossible amounts)
                    && match a_fee amounts with None => true | Some _ => false end in
  match a_fee amounts, rate, a_in_total amounts with
  | None, _, _ => [no_fee_warning (a_outputs_impossible amounts) (a_inputs_impossible amounts) overspends vouched]
  | Some fee, Some rate, Some total => high_fee_warnings fee total rate basis plausible_vsize
  | _, _, _ => []
  end.

Definition mempool_warning (ready : bool) : TxWarning :=
  warning_new TxWarningKind.InMempool
    (if ready then "This transaction is already waiting in the mempool: it was broadcast before. Broadcasting it again does no harm."
     else "This transaction is already waiting in the mempool, signed: it was broadcast before, and there is nothing left to send.").

Definition readiness_of (refused ready in_mempool : bool) : TxReadiness :=
  if refused then TxReadiness.Refused
  else if negb ready then TxReadiness.Unsigned
  else if in_mempool then TxReadiness.InMempool
  else TxReadiness.Ready.

Definition build_preview (decoded : DecodedTx) (network : Network) (input_facts : list InputFacts)
  (output_facts : list OutputFacts) (tip_height : option Z) (now_secs : Z) : TxPreview :=
  let tx := d_tx decoded in
  let spent := spent_coins decoded input_facts in
  let inputs := List.map (fun '(i, (input, coin)) => input_preview network i input (d_inputs decoded !! i) (input_facts !! i) coin)
                  (enumerate (combine (input tx) spent)) in
  let outputs := List.map (fun '(i, out) => output_preview network i out (unwrap_or (output_facts !! i) no_output_facts))
                   (enumerate (output tx)) in
  let amounts := amounts_of tx (List.map value_sats inputs) in
  let fee_sats := a_fee amounts in
  let missing := missing_signatures decoded input_facts spent in
  let '(signed_vsize, basis, plausible_vsize) := signed_size decoded missing in
  let rate := option_map (fun fee => f64_div (f64_of fee) (f64_of signed_vsize)) fee_sats in
  let proven := List.map (fun '(i, described) => proven_coin described (input_facts !! i)) (enumerate (d_inputs decoded)) in
  let txid := compute_txid tx in
  let unsigned := length (retain (fun i => negb (ip_signed i)) inputs) in
  let unsigned_warnings :=
    if (0 <? unsigned)%nat then
      [warning_refused TxWarningKind.Unsigned
         (unsigned_count unsigned (length inputs) +:+ ": the network will refuse this transaction. It has to go back to the signer.")]
    else [] in
  let of_psbt := List.concat (List.map (fun '(i, described) => psbt_warnings network i described) (enumerate (d_inputs decoded))) in
  let of_facts := List.map (fun '(i, facts) =>
                      facts_warnings network txid i facts (d_inputs decoded !! i) (unwrap_or (spent !! i) None)
                        (unwrap_or (proven !! i) false))
                    (enumerate input_facts) in
  let in_mempool := any snd of_facts in
  let so_far := unsigned_warnings ++ of_psbt ++ List.concat (List.map fst of_facts) in
  let so_far := if in_mempool then
                  (if d_ready decoded then so_far
                   else retain (fun w => negb (bool_decide (kind w = TxWarningKind.Unsigned))) so_far)
                  ++ [mempool_warning (d_ready decoded)]
                else so_far in
  let warnings := so_far
    ++ fee_warnings amounts rate basis plausible_vsize (all (fun p => p) proven)
    ++ lock_warnings now_secs tx tip_height
    ++ dust_warnings outputs
    ++ watched_warnings inputs in
  let refused := any (fun w => blocking w && negb (bool_decide (kind w = TxWarningKind.Unsigned))) warnings in
  let readiness := readiness_of refused (d_ready decoded) in_mempool in
  let ready := match readiness with TxReadiness.Ready | TxReadiness.InMempool => true | _ => false end in
  {| p_txid := txid; p_source := d_source decoded; p_network := network; p_inputs := inputs; p_outputs := outputs;
     fee_sats := fee_sats; fee_rate_sat_vb := rate; fee_rate_basis := basis;
     fee_unknown_reason := option_map message (List.find (fun w => bool_decide (kind w = TxWarningKind.FeeUnknown)) warnings);
     amounts_declared := any (fun '(input, proven) => match value_sats input with Some _ => negb proven | None => false end)
                           (combine inputs proven);
     amounts_listed := any (fun '(i, proven) =>
                           negb proven && match input_facts !! i with
                                          | Some f => f_listed f && match f_prevout f with Some _ => true | None => false end
                                          | None => false
                                          end)
                         (enumerate proven);
     p_vsize := tx_vsize tx; p_weight := tx_weight tx; p_size := total_size tx; p_version := tx_version tx;
     p_locktime := lock_time tx; rbf := is_explicitly_rbf tx; ready := ready; readiness := readiness; warnings := warnings;
     p_hex := if ready then Some (serialize_hex tx) else None |}.
End Preview.

(** ** What holds a transaction back *)

(** A caution the network is sure to refuse over, other than a missing
    signature. *)
Definition sure (w : TxWarning) : bool := blocking w && negb (bool_decide (kind w = TxWarningKind.Unsigned)).

Lemma enumerate_snd {A} (l : list A) : List.map snd (enumerate l) = l.
Proof.
  unfold enumerate. generalize 0%nat. induction l as [|x l IH]; intros n; simpl; [done|]. by rewrite IH.
Qed.

Lemma enumerate_lookup {A} (l : list A) i x : l !! i = Some x -> enumerate l !! i = Some (i, x).
Proof.
  intros Hi. unfold enumerate. apply combine_lookup. split; [|done]. apply list.lookup_seq. split; [done|]. by eapply lookup_lt_Some.
Qed.

Lemma enumerate_In {A} (l : list A) i x : In (i, x) (enumerate l) -> l !! i = Some x.
Proof.
  intros (j & Hj)%list_elem_of_In%list_elem_of_lookup. unfold enumerate in Hj. apply combine_lookup in Hj as [Hs Hl].
  apply list.lookup_seq in Hs as [-> _]. done.
Qed.

Lemma enumerate_length {A} (l : list A) : length (enumerate l) = length l.
Proof. unfold enumerate. rewrite length_combine, length_seq. lia. Qed.

(** A spend in a block, by a transaction seen spending the coin. *)
Definition settled_spend (facts : InputFacts) : bool :=
  negb (f_unknown facts) && negb (f_unchecked facts) && bool_decide (f_spent facts = Some true)
  && match f_spent_by facts with Some by_ => sb_confirmed by_ && sb_verified by_ | None => false end.

Section Right.
Context `{Transactions} `{Psbts} `{EqDecision XOnly}.
Implicit Types (decoded : DecodedTx).

Lemma spent_caution_sure i txid by_ : sure (spent_caution i txid by_)
  = match by_ with Some by_ => sb_confirmed by_ && sb_verified by_ | None => false end.
Proof. unfold spent_caution. destruct by_ as [[id [] []]|]; simpl; [by destruct (bool_decide (id = txid))|done..]. Qed.

Lemma standing_sure network txid i facts proven : any sure (standing network txid i facts proven).1 = settled_spend facts.
Proof.
  unfold standing, settled_spend. destruct (f_unknown facts); [done|]. destruct (f_unchecked facts).
  - simpl. destruct proven; [done|]. by destruct (if f_listed facts then f_wallet facts else None).
  - cbn [andb negb]. unfold waits_here. destruct (f_spent_by facts) as [by_|] eqn:Eb.
    + destruct (bool_decide (sb_txid by_ = txid) && negb (sb_confirmed by_)) eqn:Ew.
      * apply andb_true_iff in Ew as [_ ->%negb_true_iff]. simpl. by rewrite andb_false_r.
      * destruct (bool_decide (f_spent facts = Some true)); [|done]. cbn [fst any existsb]. by rewrite spent_caution_sure, orb_false_r.
    + destruct (bool_decide (f_spent facts = Some true)); [|done]. cbn [fst any existsb]. by rewrite spent_caution_sure.
Qed.

Lemma psbt_warnings_sure network i described : any sure (psbt_warnings network i described) = false.
Proof.
  unfold psbt_warnings. destruct (loose_sighash described), (prevout described), (disputed_witness_utxo described); done.
Qed.

Lemma facts_warnings_sure network txid i facts described coin proven :
  any sure (facts_warnings network txid i facts described coin proven).1 = settled_spend facts.
Proof.
  unfold facts_warnings. destruct (standing network txid i facts proven) as [l waiting] eqn:Es. cbn [fst].
  rewrite !any_app. pose proof (standing_sure network txid i facts proven) as Hs. rewrite Es in Hs. cbn [fst] in Hs. rewrite Hs.
  assert (E1 : any sure (mismatch_warnings network i facts described) = false).
  { unfold mismatch_warnings. destruct described as [d|]; [|done]. destruct (f_prevout facts), (prevout d); try done. by case_bool_decide. }
  assert (E2 : any sure (listing_warnings network i facts described coin) = false).
  { unfold listing_warnings. by destruct (f_contradicted_listing facts) as [[]|], coin. }
  by rewrite E1, E2.
Qed.

(** Outputs over inputs whose every amount is proven. *)
Definition overspends (amounts : Amounts) : bool :=
  a_values_known amounts && negb (a_inputs_impossible amounts) && match a_fee amounts with None => true | Some _ => false end.

Lemma fee_warnings_sure amounts rate basis plausible vouched : (rate = None <-> a_fee amounts = None) ->
  (a_fee amounts <> None -> a_outputs_impossible amounts = false /\ a_in_total amounts <> None) ->
  any sure (fee_warnings amounts rate basis plausible vouched) = a_outputs_impossible amounts || (overspends amounts && vouched).
Proof.
  unfold fee_warnings, overspends. destruct (a_fee amounts) as [fee|]; intros Hr Hf.
  - destruct (Hf ltac:(done)) as [-> Ht]. destruct rate as [rate|]; [|by discriminate (proj1 Hr eq_refl)]. destruct (a_in_total amounts); [|done].
    rewrite andb_false_r. simpl. unfold high_fee_warnings. destruct basis; simpl;
      destruct (f64_gt _ HIGH_FEE_RATE_SAT_VB); simpl; by destruct (_ && f64_gt _ HIGH_FEE_SHARE).
  - cbn [any existsb]. rewrite orb_false_r. unfold no_fee_warning.
    destruct (a_outputs_impossible amounts), (a_values_known amounts), (a_inputs_impossible amounts), vouched; done.
Qed.

Lemma tail_sure now tx tip outputs inputs : any sure (lock_warnings now tx tip ++ dust_warnings outputs ++ watched_warnings inputs) = false.
Proof.
  rewrite !any_app. unfold lock_warnings, dust_warnings, watched_warnings. destruct (_ && _); simpl;
    destruct (0 <? length _)%nat; simpl; by destruct (in_order _).
Qed.

Lemma sure_retain l : any sure (retain (fun w => negb (bool_decide (kind w = TxWarningKind.Unsigned))) l) = any sure l.
Proof.
  induction l as [|w l IH]; simpl; [done|]. case_bool_decide as E; simpl; rewrite IH; [|done].
  unfold sure at 2. rewrite (bool_decide_true _ E). simpl. by rewrite andb_false_r.
Qed.
(** ** The amounts *)

Definition known (values : list (option Z)) : bool := all (fun v => match v with Some _ => true | None => false end) values.
Definition total (values : list (option Z)) : Z := sum (omap (fun v => v) values).

Definition unsigned_values (values : list (option Z)) : Prop := forall v, In (Some v) values -> 0 <= v.

Lemma total_nonneg values : unsigned_values values -> 0 <= total values.
Proof. intros Hu. apply sum_nonneg. intros x Hx. apply Hu. by apply list_elem_of_In, list_elem_of_omap in Hx as (v & Hv%list_elem_of_In & ->). Qed.

Lemma in_total_right values acc : unsigned_values values -> 0 <= acc <= u64_max ->
  foldl (fun acc v => match acc, v with Some acc, Some v => checked_add_u64 acc v | _, _ => None end) (Some acc) values
  = if known values && (acc + total values <=? u64_max) then Some (acc + total values) else None.
Proof.
  revert acc. induction values as [|v values IH]; intros acc Hu Hacc; simpl.
  - rewrite Z.add_0_r. by destruct (Z.leb_spec acc u64_max); [|lia].
  - assert (Hnone : foldl (fun acc v => match acc, v with Some acc, Some v => checked_add_u64 acc v | _, _ => None end) None values = None).
    { clear. induction values; simpl; done. }
    assert (Hu' : unsigned_values values) by (intros x Hx; apply Hu; by right). pose proof (total_nonneg _ Hu').
    destruct v as [v|]; [|exact Hnone]. assert (0 <= v) by (apply Hu; by left). unfold total in *. csimpl. cbn [sum foldr]. fold (sum (omap (fun v => v) values)).
    unfold checked_add_u64 at 2. destruct (Z.leb_spec (acc + v) u64_max).
    + rewrite IH by (done || lia). fold (known values). by rewrite Z.add_assoc.
    + rewrite Hnone. destruct (Z.leb_spec (acc + (v + sum (omap (fun v => v) values))) u64_max); [lia|]. by rewrite andb_false_r.
Qed.

Lemma amounts_right tx values : (forall x, In x (paid tx) -> 0 <= x) -> unsigned_values values ->
  let a := amounts_of tx values in
  a_values_known a = known values
  /\ a_outputs_impossible a = (MAX_MONEY <? sum (paid tx))
  /\ a_inputs_impossible a = known values && (MAX_MONEY <? total values)
  /\ a_fee a = (if known values && (sum (paid tx) <=? MAX_MONEY) && (total values <=? MAX_MONEY) && (sum (paid tx) <=? total values)
                then Some (total values - sum (paid tx)) else None)
  /\ (a_fee a <> None -> a_in_total a = Some (total values)).
Proof.
  intros Hp Hu. cbn zeta. pose proof (total_nonneg _ Hu). unfold amounts_of, in_total_of. rewrite in_total_right, Z.add_0_l by (done || by unfold u64_max).
  rewrite (outputs_right tx Hp). cbn [a_values_known a_outputs_impossible a_inputs_impossible a_fee a_in_total]. fold (known values).
  split; [done|]. unfold checked_sub. destruct (known values) eqn:Ek; cbn [andb].
  - assert (u64_max < total values -> MAX_MONEY < total values) by (unfold MAX_MONEY, u64_max; lia).
    destruct (Z.leb_spec (sum (paid tx)) MAX_MONEY); destruct (Z.ltb_spec MAX_MONEY (sum (paid tx))); try lia; cbn [negb andb];
      destruct (Z.leb_spec (total values) u64_max); destruct (Z.ltb_spec MAX_MONEY (total values));
      destruct (Z.leb_spec (total values) MAX_MONEY); try lia; cbn [negb andb]; destruct (sum (paid tx) <=? total values);
      split_and!; (done || (intros Hn; by destruct Hn)).
  - destruct (Z.leb_spec (sum (paid tx)) MAX_MONEY); destruct (Z.ltb_spec MAX_MONEY (sum (paid tx))); try lia;
      split_and!; (done || (intros Hn; by destruct Hn)).
Qed.

Lemma overspends_right tx values : (forall x, In x (paid tx) -> 0 <= x) -> unsigned_values values ->
  a_outputs_impossible (amounts_of tx values) || (overspends (amounts_of tx values) && true)
  = ((MAX_MONEY <? sum (paid tx)) || (known values && (total values <=? MAX_MONEY) && (total values <? sum (paid tx)))).
Proof.
  intros Hp Hu. destruct (amounts_right tx values Hp Hu) as (E1 & E2 & E3 & E4 & _). unfold overspends. rewrite E1, E2, E3, E4, andb_true_r.
  destruct (known values); cbn [andb]; [|by rewrite ?orb_false_r].
  destruct (Z.ltb_spec MAX_MONEY (sum (paid tx))); [done|]. destruct (Z.leb_spec (sum (paid tx)) MAX_MONEY); [|lia]. cbn [orb andb negb].
  destruct (Z.ltb_spec MAX_MONEY (total values)); destruct (Z.leb_spec (total values) MAX_MONEY); try lia; cbn [andb negb]; try done.
  destruct (Z.leb_spec (sum (paid tx)) (total values)); destruct (Z.ltb_spec (total values) (sum (paid tx))); try lia; done.
Qed.

(** ** The preview *)

Section Built.
Variables (decoded : DecodedTx) (network : Network) (facts : list InputFacts) (output_facts : list OutputFacts)
  (tip : option Z) (now : Z).
Let p := build_preview decoded network facts output_facts tip now.

(** The values shown of the inputs, the amounts of the outputs; every
    value shown proven. *)
Definition values_shown (p : TxPreview) : list (option Z) := List.map value_sats (p_inputs p).
Definition all_proven (decoded : DecodedTx) (facts : list InputFacts) : bool :=
  all (fun '(i, described) => proven_coin described (facts !! i)) (enumerate (d_inputs decoded)).

Lemma outputs_shown : List.map op_value_sats (p_outputs p) = paid (d_tx decoded).
Proof.
  unfold p, build_preview. destruct (signed_size _ _) as [[? ?] ?]. cbn [p_outputs]. unfold paid. rewrite List.map_map.
  rewrite <- (enumerate_snd (output (d_tx decoded))) at 2. rewrite List.map_map. apply map_ext. by intros [i out].
Qed.

Lemma preview_sure : (forall x, In x (paid (d_tx decoded)) -> 0 <= x) -> unsigned_values (values_shown p) ->
  any sure (warnings p) = any settled_spend facts
    || (MAX_MONEY <? sum (paid (d_tx decoded)))
    || (known (values_shown p) && (total (values_shown p) <=? MAX_MONEY) && (total (values_shown p) <? sum (paid (d_tx decoded)))
        && all_proven decoded facts).
Proof.
  unfold p, values_shown, build_preview. destruct (signed_size _ _) as [[signed_vsize basis] plausible]. cbn [p_inputs warnings].
  set (inputs := List.map _ (enumerate (combine _ _))). intros Hp Hu.
  destruct (amounts_right (d_tx decoded) _ Hp Hu) as (_ & E2 & _ & E4 & E5).
  set (amounts := amounts_of _ _) in *. rewrite !any_app, fee_warnings_sure; cycle 1.
  { destruct (a_fee amounts); done. }
  { intros Hf. split; [|by rewrite E5]. rewrite E2. apply Z.ltb_ge. rewrite E4 in Hf. revert Hf.
    destruct (Z.leb_spec (sum (paid (d_tx decoded))) MAX_MONEY); [lia|]. by rewrite andb_false_r. }
  rewrite <- !any_app, tail_sure, orb_false_r. rewrite all_map.
  change (all _ (enumerate (d_inputs decoded))) with
    (all (fun x => (fun p0 : bool => p0) ((fun '(i, described) => proven_coin described (facts !! i)) x)) (enumerate (d_inputs decoded))).
  replace (all _ (enumerate (d_inputs decoded))) with (all_proven decoded facts); [|unfold all_proven; f_equal].
  set (of_facts := List.map _ (enumerate facts)). set (of_psbt := List.concat _).
  assert (Hfacts : any sure (List.concat (List.map fst of_facts)) = any settled_spend facts).
  { unfold of_facts. replace (any settled_spend facts) with (any settled_spend (List.map snd (enumerate facts))) by (by rewrite enumerate_snd).
    rewrite any_concat, !any_map. apply any_ext_in.
    intros [i f] _. apply facts_warnings_sure. }
  assert (Hpsbt : any sure of_psbt = false).
  { unfold of_psbt. rewrite any_concat, any_map. apply any_false. intros [i d] _. apply psbt_warnings_sure. }
  set (unsigned := if (0 <? _)%nat then _ else _). assert (Hun : any sure unsigned = false) by (unfold unsigned; by destruct (0 <? _)%nat).
  match goal with |- any sure ?l || _ = _ => assert (Hl : any sure l = any settled_spend facts) end.
  { assert (Hall : any sure (unsigned ++ of_psbt ++ List.concat (List.map fst of_facts)) = any settled_spend facts).
    { by rewrite !any_app, Hun, Hpsbt, Hfacts. }
    destruct (any snd of_facts); [|done]. destruct (d_ready decoded); rewrite any_app, ?sure_retain, Hall; simpl; by rewrite orb_false_r. }
  rewrite Hl, <- orb_assoc. f_equal. pose proof (overspends_right (d_tx decoded) _ Hp Hu) as Ho. fold amounts in Ho. revert Ho. rewrite andb_true_r.
  destruct (all_proven decoded facts); rewrite ?andb_true_r, ?andb_false_r, ?orb_false_r; [done|]. by rewrite E2.
Qed.

Lemma spent_coins_lookup i d : d_inputs decoded !! i = Some d -> spent_coins decoded facts !! i = Some (spent_coin d (facts !! i)).
Proof.
  intros Hd. unfold spent_coins. rewrite list_map_lookup, (enumerate_lookup _ _ _ Hd). done.
Qed.

Lemma spent_coins_length : length (spent_coins decoded facts) = length (d_inputs decoded).
Proof. unfold spent_coins. by rewrite List.length_map, enumerate_length. Qed.

Lemma inputs_lookup i ip : decoded_wf decoded -> p_inputs p !! i = Some ip <->
  exists spend d, input (d_tx decoded) !! i = Some spend /\ d_inputs decoded !! i = Some d
    /\ ip = input_preview network i spend (Some d) (facts !! i) (spent_coin d (facts !! i)).
Proof.
  intros [Hlen _]. unfold p, build_preview. destruct (signed_size _ _) as [[? ?] ?]. cbn [p_inputs]. rewrite list_map_lookup. split.
  - destruct (enumerate _ !! i) as [[j [spend coin]]|] eqn:Ee; [|done]. intros [= <-].
    unfold enumerate in Ee. apply combine_lookup in Ee as [Hs Hc]. apply list.lookup_seq in Hs as [-> _]. apply combine_lookup in Hc as [Hi Hc].
    cbn [Nat.add] in *. destruct (d_inputs decoded !! i) as [d|] eqn:Ed.
    + rewrite (spent_coins_lookup _ _ Ed) in Hc. injection Hc as <-. by exists spend, d.
    + apply lookup_ge_None in Ed. apply lookup_lt_Some in Hi. lia.
  - intros (spend & d & Hi & Hd & ->). rewrite (enumerate_lookup _ i (spend, spent_coin d (facts !! i))); [cbn [option_map]; by rewrite Hd|]. apply combine_lookup. split; [done|]. by apply spent_coins_lookup.
Qed.

Lemma signed_shown : decoded_wf decoded -> d_ready decoded = true <-> forall ip, In ip (p_inputs p) -> ip_signed ip = true.
Proof.
  intros Hwf. rewrite (ready_signed _ Hwf), all_true. split.
  - intros Hall ip (i & Hi)%list_elem_of_In%list_elem_of_lookup. apply inputs_lookup in Hi as (spend & d & _ & Hd & ->); [|done].
    apply Hall. by eapply list_elem_of_In, list_elem_of_lookup_2.
  - intros Hall d (i & Hi)%list_elem_of_In%list_elem_of_lookup. destruct (input (d_tx decoded) !! i) as [spend|] eqn:Es.
    + apply (Hall (input_preview network i spend (Some d) (facts !! i) (spent_coin d (facts !! i)))).
      eapply list_elem_of_In, list_elem_of_lookup_2. apply inputs_lookup; [done|]. by exists spend, d.
    + apply lookup_ge_None in Es. apply lookup_lt_Some in Hi. pose proof (described_all _ Hwf). lia.
Qed.

Lemma readiness_right : exists refused in_mempool, refused = any sure (warnings p)
  /\ readiness p = readiness_of refused (d_ready decoded) in_mempool
  /\ ready p = negb refused && d_ready decoded
  /\ p_hex p = (if ready p then Some (serialize_hex (d_tx decoded)) else None).
Proof.
  unfold p, build_preview. destruct (signed_size _ _) as [[signed_vsize basis] plausible]. cbn [warnings readiness ready p_hex].
  match goal with |- context[readiness_of ?r (d_ready decoded) ?m] => exists r, m end. split; [done|]. split; [done|]. split; [|done].
  unfold readiness_of. destruct (any _ _); [done|]. destruct (d_ready decoded); [|done]. by destruct (any _ _).
Qed.
End Built.
End Right.

(** ** What a preview promises *)

Section Promises.
Context `{Transactions} `{Psbts} `{EqDecision XOnly}.

(** A preview is ready, and carries the transaction to send, exactly
    when every input is signed and no caution blocks but a missing
    signature; it is refused exactly when another caution blocks. *)
Theorem ready_means_sendable decoded network facts output_facts tip now : decoded_wf decoded ->
  let p := build_preview decoded network facts output_facts tip now in
  (ready p = true <-> (forall ip, In ip (p_inputs p) -> ip_signed ip = true)
                      /\ forall w, In w (warnings p) -> blocking w = true -> kind w = TxWarningKind.Unsigned)
  /\ p_hex p = (if ready p then Some (serialize_hex (d_tx decoded)) else None)
  /\ (ready p = true <-> readiness p = TxReadiness.Ready \/ readiness p = TxReadiness.InMempool)
  /\ (readiness p = TxReadiness.Refused <-> exists w, In w (warnings p) /\ blocking w = true /\ kind w <> TxWarningKind.Unsigned).
Proof.
  intros Hwf. cbn zeta. destruct (readiness_right decoded network facts output_facts tip now) as (refused & in_mempool & Hr & Hread & Hready & Hhex).
  set (p := build_preview decoded network facts output_facts tip now) in *.
  assert (Hsure : refused = true <-> exists w, In w (warnings p) /\ blocking w = true /\ kind w <> TxWarningKind.Unsigned).
  { rewrite Hr, any_true. unfold sure. split; intros (w & Hin & Hw); exists w.
    - apply andb_true_iff in Hw as [? Hk]. by apply negb_true_iff, bool_decide_eq_false in Hk.
    - split; [done|]. apply andb_true_iff. split; [by destruct Hw|]. apply negb_true_iff, bool_decide_eq_false. by destruct Hw. }
  rewrite Hready, Hread. split; [|split; [by rewrite <- Hready|split]].
  - rewrite andb_true_iff, negb_true_iff. rewrite (signed_shown decoded network facts output_facts tip now Hwf). fold p. split.
    + intros [Hn Hs]. split; [done|]. intros w Hin Hb. destruct (decide (kind w = TxWarningKind.Unsigned)) as [|Hk]; [done|].
      assert (refused = true) by (apply Hsure; by exists w). congruence.
    + intros [Hs Hall]. split; [|done]. destruct refused eqn:E; [|done]. destruct (proj1 Hsure eq_refl) as (w & Hin & Hb & Hk). by destruct Hk, (Hall w Hin Hb).
  - unfold readiness_of. destruct refused, (d_ready decoded), in_mempool; simpl; intuition congruence.
  - rewrite <- Hsure. unfold readiness_of. destruct refused, (d_ready decoded), in_mempool; done.
Qed.

Lemma held_back_right decoded network facts output_facts tip now : decoded_wf decoded ->
  let p := build_preview decoded network facts output_facts tip now in
  let outputs := List.map op_value_sats (p_outputs p) in
  (forall x, In x outputs -> 0 <= x) -> unsigned_values (values_shown p) ->
  readiness p = TxReadiness.Refused
  <-> (exists f by_, In f facts /\ f_spent_by f = Some by_ /\ f_spent f = Some true /\ sb_confirmed by_ = true /\ sb_verified by_ = true
        /\ f_unknown f = false /\ f_unchecked f = false)
      \/ MAX_MONEY < sum outputs
      \/ ((forall v, In v (values_shown p) -> v <> None) /\ total (values_shown p) <= MAX_MONEY
          /\ total (values_shown p) < sum outputs
          /\ forall i d, d_inputs decoded !! i = Some d -> proven_coin d (facts !! i) = true).
Proof.
  intros Hwf. cbn zeta. rewrite outputs_shown. intros Hp Hu.
  destruct (readiness_right decoded network facts output_facts tip now) as (refused & in_mempool & Hr & Hread & _ & _).
  rewrite (preview_sure decoded network facts output_facts tip now Hp Hu) in Hr.
  set (p := build_preview decoded network facts output_facts tip now) in *.
  assert (Href : readiness p = TxReadiness.Refused <-> refused = true).
  { rewrite Hread. unfold readiness_of. destruct refused, (d_ready decoded), in_mempool; done. }
  assert (Hs : any settled_spend facts = true
    <-> exists f by_, In f facts /\ f_spent_by f = Some by_ /\ f_spent f = Some true /\ sb_confirmed by_ = true /\ sb_verified by_ = true
        /\ f_unknown f = false /\ f_unchecked f = false).
  { rewrite any_true. split.
    - intros (f & Hin & Hf). unfold settled_spend in Hf. repeat rewrite andb_true_iff in Hf. destruct Hf as [[[H1' H2] H3] H4].
      destruct (f_spent_by f) as [by_|] eqn:Eb; [|done]. apply andb_true_iff in H4 as [? ?]. exists f, by_.
      apply negb_true_iff in H1', H2. apply bool_decide_eq_true in H3. done.
    - intros (f & by_ & Hin & Eb & Es & Hc & Hv & Hn & Hk). exists f. split; [done|]. unfold settled_spend. rewrite Hn, Hk, Es, Eb, Hc, Hv. done. }
  assert (Hk : known (values_shown p) = true <-> forall v, In v (values_shown p) -> v <> None).
  { unfold known. rewrite all_true. split; [intros Hk v Hv ->; by specialize (Hk None Hv)|]. intros Hk v Hv. destruct v; [done|]. by destruct (Hk None Hv). }
  assert (Hv : all_proven decoded facts = true <-> forall i d, d_inputs decoded !! i = Some d -> proven_coin d (facts !! i) = true).
  { unfold all_proven. rewrite all_true. split.
    - intros Hpr i d Hd. apply (Hpr (i, d)). eapply list_elem_of_In, list_elem_of_lookup_2. by apply enumerate_lookup.
    - intros Hpr [i d] Hid. apply Hpr. by apply enumerate_In. }
  rewrite Href, Hr, !orb_true_iff, !andb_true_iff, Z.ltb_lt, Z.leb_le, Z.ltb_lt, Hs, Hk, Hv. tauto.
Qed.

(** Past a missing signature, a transaction is held back exactly when
    the network is sure to refuse it: a coin is spent in a block, by a
    transaction seen spending it, the outputs pay more than the bitcoin
    there will ever be, or more than inputs whose every value is known
    and proven. Nothing a PSBT or a server only says holds it back. *)
Theorem held_back_only_on_proof decoded network facts output_facts tip now : decoded_wf decoded ->
  let p := build_preview decoded network facts output_facts tip now in
  let outputs := List.map op_value_sats (p_outputs p) in
  (forall x, In x outputs -> 0 <= x) -> unsigned_values (values_shown p) ->
  readiness p = TxReadiness.Refused
  <-> (exists f by_, In f facts /\ f_spent_by f = Some by_ /\ f_spent f = Some true /\ sb_confirmed by_ = true /\ sb_verified by_ = true
        /\ f_unknown f = false /\ f_unchecked f = false)
      \/ MAX_MONEY < sum outputs
      \/ ((forall v, In v (values_shown p) -> v <> None) /\ total (values_shown p) <= MAX_MONEY
          /\ total (values_shown p) < sum outputs
          /\ forall i d, d_inputs decoded !! i = Some d -> proven_coin d (facts !! i) = true).
Proof. apply held_back_right. Qed.

(** ** The fee *)

Definition is_kind (k : TxWarningKind) (w : TxWarning) : bool := bool_decide (kind w = k).

Lemma psbt_kinds network i d k : k <> TxWarningKind.UncommittedOutputs -> k <> TxWarningKind.InputMismatch ->
  any (is_kind k) (psbt_warnings network i d) = false.
Proof.
  intros Hk1 Hk2. unfold psbt_warnings, is_kind. destruct (loose_sighash d), (prevout d), (disputed_witness_utxo d); simpl;
    rewrite ?bool_decide_false by congruence; done.
Qed.

Lemma facts_kinds network txid i f d coin proven k :
  k <> TxWarningKind.InputMismatch -> k <> TxWarningKind.InputUnknown -> k <> TxWarningKind.InputSpent ->
  any (is_kind k) (facts_warnings network txid i f d coin proven).1 = false.
Proof.
  intros Hk1 Hk2 Hk3. unfold facts_warnings. destruct (standing network txid i f proven) as [l waiting] eqn:Es. cbn [fst]. rewrite !any_app.
  assert (E1 : any (is_kind k) (mismatch_warnings network i f d) = false).
  { unfold mismatch_warnings, is_kind. destruct d as [d|]; [|done]. destruct (f_prevout f), (prevout d); try done. case_bool_decide; [|done].
    simpl. by rewrite bool_decide_false by congruence. }
  assert (E2 : any (is_kind k) (listing_warnings network i f d coin) = false).
  { unfold listing_warnings, is_kind. destruct (f_contradicted_listing f) as [[]|], coin; try done. simpl. by rewrite bool_decide_false by congruence. }
  assert (E3 : any (is_kind k) l = false).
  { revert Es. unfold standing. destruct (f_unknown f); [|destruct (f_unchecked f); [destruct proven; [|destruct (if f_listed f then _ else _)]|destruct (waits_here txid f); [|case_bool_decide]]];
      simpl; intros [= <- <-]; simpl; unfold is_kind; simpl; try done; try by rewrite bool_decide_false by congruence.
    unfold spent_caution. destruct (f_spent_by f) as [by_|]; [destruct (_ && _); [|destruct (_ && _); [|destruct (sb_confirmed by_)]]|]; simpl;
      by rewrite bool_decide_false by congruence. }
  by rewrite E1, E2, E3.
Qed.

Lemma tail_kinds now tx tip outputs inputs k : k <> TxWarningKind.Locked -> k <> TxWarningKind.DustOutput -> k <> TxWarningKind.SpendsWatched ->
  any (is_kind k) (lock_warnings now tx tip ++ dust_warnings outputs ++ watched_warnings inputs) = false.
Proof.
  intros H1' H2 H3. rewrite !any_app. unfold lock_warnings, dust_warnings, watched_warnings, is_kind.
  destruct (is_lock_time_enabled tx && _), (0 <? length _)%nat, (in_order _); simpl; rewrite ?bool_decide_false by congruence; done.
Qed.

(** The size the cautions on the fee judge the rate by. *)
Definition judged_size (decoded : DecodedTx) (facts : list InputFacts) : Z :=
  let '(signed_vsize, basis, plausible) := signed_size decoded (missing_signatures decoded facts (spent_coins decoded facts)) in
  match basis with UpperBound => plausible | _ => signed_vsize end.

Lemma quotient_past_500 a b : 0 <= a < 2 ^ 52 -> 0 < b < 2 ^ 44 -> f64_gt (f64_div (f64_of a) (f64_of b)) HIGH_FEE_RATE_SAT_VB = (500 * b <? a).
Proof.
  intros Ha Hb. destruct (Z.eq_dec a 0) as [->|]; [|apply past_five_hundred; lia]. destruct (f64_of_right b) as (m & k & -> & _); [lia|].
  symmetry. apply Z.ltb_ge. lia.
Qed.

Lemma quotient_past_tenth a b : 0 <= a < 2 ^ 52 -> 0 < b < 2 ^ 51 -> f64_gt (f64_div (f64_of a) (f64_of b)) HIGH_FEE_SHARE = (b <? 10 * a).
Proof.
  intros Ha Hb. destruct (Z.eq_dec a 0) as [->|]; [|apply past_a_tenth; lia]. destruct (f64_of_right b) as (m & k & -> & _); [lia|].
  symmetry. apply Z.ltb_ge. lia.
Qed.

Lemma high_fee_kinds fee total rate basis plausible size : 0 <= fee <= total -> total <= MAX_MONEY -> 0 < size < 2 ^ 44 ->
  (match basis with UpperBound => size = plausible | _ => rate = f64_div (f64_of fee) (f64_of size) end) ->
  any (is_kind TxWarningKind.HighFeeRate) (high_fee_warnings fee total rate basis plausible) = (500 * size <? fee)
  /\ any (is_kind TxWarningKind.HighFeeShare) (high_fee_warnings fee total rate basis plausible) = (total <? 10 * fee).
Proof.
  intros Hfee Htotal Hsize Hj. assert (HM : MAX_MONEY < 2 ^ 51) by by vm_compute.
  assert (Hshare : (0 <? total) && f64_gt (f64_div (f64_of fee) (f64_of total)) HIGH_FEE_SHARE = (total <? 10 * fee)).
  { destruct (Z.ltb_spec 0 total); [rewrite quotient_past_tenth by lia; done|]. symmetry. apply Z.ltb_ge. lia. }
  unfold high_fee_warnings. rewrite Hshare. pose proof (quotient_past_500 fee size ltac:(lia) Hsize) as Hrate.
  assert (Hcase : forall measured, any (is_kind TxWarningKind.HighFeeRate)
      ((if f64_gt (f64_div (f64_of fee) (f64_of size)) HIGH_FEE_RATE_SAT_VB then [warning_new TxWarningKind.HighFeeRate measured] else [])
       ++ (if total <? 10 * fee then [warning_new TxWarningKind.HighFeeShare ("The fee takes " +:+ f64_show (f64_div (f64_mul (f64_of 100) (f64_of fee)) (f64_of total)) +:+ "% of what the inputs bring.")] else []))
      = (500 * size <? fee)
    /\ any (is_kind TxWarningKind.HighFeeShare)
      ((if f64_gt (f64_div (f64_of fee) (f64_of size)) HIGH_FEE_RATE_SAT_VB then [warning_new TxWarningKind.HighFeeRate measured] else [])
       ++ (if total <? 10 * fee then [warning_new TxWarningKind.HighFeeShare ("The fee takes " +:+ f64_show (f64_div (f64_mul (f64_of 100) (f64_of fee)) (f64_of total)) +:+ "% of what the inputs bring.")] else []))
      = (total <? 10 * fee)).
  { intros measured. rewrite Hrate. by destruct (500 * size <? fee), (total <? 10 * fee). }
  destruct basis; [rewrite Hj|rewrite Hj|rewrite <- Hj]; apply Hcase.
Qed.

Lemma any_retain_false {A} (f g : A -> bool) l : any f l = false -> any f (retain g l) = false.
Proof. rewrite !any_false. intros Hl x [Hx _]%retain_In. by apply Hl. Qed.

(** Of all the lists of cautions, only that of the fee speaks of it. *)
Lemma fee_kinds decoded network facts output_facts tip now k : k = TxWarningKind.HighFeeRate \/ k = TxWarningKind.HighFeeShare ->
  let p := build_preview decoded network facts output_facts tip now in
  let '(signed_vsize, basis, plausible) := signed_size decoded (missing_signatures decoded facts (spent_coins decoded facts)) in
  let amounts := amounts_of (d_tx decoded) (values_shown p) in
  fee_sats p = a_fee amounts
  /\ any (is_kind k) (warnings p)
     = any (is_kind k) (fee_warnings amounts (option_map (fun fee => f64_div (f64_of fee) (f64_of signed_vsize)) (a_fee amounts)) basis plausible
                          (all_proven decoded facts)).
Proof.
  intros Hk. cbn zeta. unfold build_preview. destruct (signed_size _ _) as [[signed_vsize basis] plausible]. unfold values_shown. cbn [warnings p_inputs fee_sats].
  set (inputs := List.map _ (enumerate (combine _ _))). split; [done|].
  rewrite (any_app _ _ (fee_warnings _ _ _ _ _ ++ _)), (any_app _ (fee_warnings _ _ _ _ _)), tail_kinds by (destruct Hk; congruence). rewrite orb_false_r, all_map.
  set (unsigned := if (0 <? _)%nat then _ else _). set (of_psbt := List.concat _). set (of_facts := List.map _ (enumerate facts)).
  assert (Hall : any (is_kind k) (unsigned ++ of_psbt ++ List.concat (List.map fst of_facts)) = false).
  { rewrite !any_app. assert (E1 : any (is_kind k) unsigned = false).
    { unfold unsigned. destruct (0 <? _)%nat; [|done]. unfold is_kind. simpl. by rewrite bool_decide_false by (destruct Hk; congruence). }
    assert (E2 : any (is_kind k) of_psbt = false).
    { unfold of_psbt. rewrite any_concat, any_map. apply any_false. intros [i d] _. apply psbt_kinds; destruct Hk; congruence. }
    assert (E3 : any (is_kind k) (List.concat (List.map fst of_facts)) = false).
    { unfold of_facts. rewrite any_concat, !any_map. apply any_false. intros [i f] _. apply facts_kinds; destruct Hk; congruence. }
    by rewrite E1, E2, E3. }
  match goal with |- any _ ?l || _ = _ => assert (Hl : any (is_kind k) l = false) end.
  { destruct (any snd of_facts); [|done]. rewrite any_app. unfold is_kind at 2. simpl. rewrite bool_decide_false by (destruct Hk; congruence).
    destruct (d_ready decoded); [by rewrite Hall|]. by rewrite any_retain_false. }
  rewrite Hl. cbn [orb]. do 2 f_equal.
Qed.

(** The fee shown is what the inputs bring less what the outputs pay,
    whenever every value is known and every amount can be real, and none
    is shown otherwise; the cautions on it are exact: the rate's is there
    when the fee is past 500 satoshis for each virtual byte of the
    transaction once signed (the least it can plausibly weigh, when what
    its signatures weigh cannot be told), the share's when the fee is
    past a tenth of what the inputs bring. *)
Theorem fee_right decoded network facts output_facts tip now :
  let p := build_preview decoded network facts output_facts tip now in
  let outputs := List.map op_value_sats (p_outputs p) in
  (forall x, In x outputs -> 0 <= x) -> unsigned_values (values_shown p) ->
  (forall fee, fee_sats p = Some fee <->
     (forall v, In v (values_shown p) -> v <> None) /\ total (values_shown p) <= MAX_MONEY /\ 0 <= fee
     /\ total (values_shown p) = sum outputs + fee)
  /\ (0 < judged_size decoded facts < 2 ^ 44 ->
      ((exists w, In w (warnings p) /\ kind w = TxWarningKind.HighFeeRate)
        <-> exists fee, fee_sats p = Some fee /\ 500 * judged_size decoded facts < fee)
      /\ ((exists w, In w (warnings p) /\ kind w = TxWarningKind.HighFeeShare)
        <-> exists fee, fee_sats p = Some fee /\ total (values_shown p) < 10 * fee)).
Proof.
  cbn zeta. rewrite outputs_shown. intros Hp Hu.
  pose proof (fee_kinds decoded network facts output_facts tip now TxWarningKind.HighFeeRate ltac:(by left)) as Hrate.
  pose proof (fee_kinds decoded network facts output_facts tip now TxWarningKind.HighFeeShare ltac:(by right)) as Hshare.
  unfold judged_size. cbn zeta in Hrate, Hshare. set (p := build_preview decoded network facts output_facts tip now) in *.
  destruct (signed_size _ _) as [[signed_vsize basis] plausible]. destruct Hrate as [Hfee Hrate]. destruct Hshare as [_ Hshare].
  destruct (amounts_right (d_tx decoded) _ Hp Hu) as (_ & _ & _ & E4 & E5). set (amounts := amounts_of (d_tx decoded) (values_shown p)) in *.
  pose proof (sum_nonneg _ Hp) as Hout.
  assert (Hiff : forall fee, a_fee amounts = Some fee <-> (forall v, In v (values_shown p) -> v <> None) /\ total (values_shown p) <= MAX_MONEY /\ 0 <= fee
     /\ total (values_shown p) = sum (paid (d_tx decoded)) + fee).
  { intros fee. assert (Hk : known (values_shown p) = true <-> forall v, In v (values_shown p) -> v <> None).
    { unfold known. rewrite all_true. split; [intros Hk v Hv ->; by specialize (Hk None Hv)|]. intros Hk v Hv. destruct v; [done|]. by destruct (Hk None Hv). }
    rewrite E4, <- Hk. destruct (known (values_shown p)); cbn [andb]; [|naive_solver].
    destruct (Z.leb_spec (sum (paid (d_tx decoded))) MAX_MONEY); destruct (Z.leb_spec (total (values_shown p)) MAX_MONEY);
      destruct (Z.leb_spec (sum (paid (d_tx decoded))) (total (values_shown p))); cbn [andb]; split; try done; try lia;
      [intros [= <-]; split; [done|lia]|intros (_ & _ & ? & ?); f_equal; lia]. }
  rewrite Hfee. split; [done|]. intros Hsize.
  assert (Hany : forall k, (exists w, In w (warnings p) /\ kind w = k) <-> any (is_kind k) (warnings p) = true).
  { intros k. rewrite any_true. unfold is_kind. split; intros (w & Hin & Hw); exists w; (split; [done|]); [by apply bool_decide_eq_true_2|by apply bool_decide_eq_true_1 in Hw]. }
  rewrite !Hany, Hrate, Hshare. clear Hrate Hshare Hany. unfold fee_warnings. destruct (a_fee amounts) as [fee|] eqn:Ef.
  - rewrite (E5 ltac:(done)). cbn [option_map]. destruct (proj1 (Hiff fee) eq_refl) as (_ & Hmax & Hnn & Heq).
    destruct (high_fee_kinds fee (total (values_shown p)) (f64_div (f64_of fee) (f64_of signed_vsize)) basis plausible
      (match basis with UpperBound => plausible | _ => signed_vsize end)) as [-> ->]; [lia|done|done|by destruct basis|].
    rewrite !Z.ltb_lt. split; (split; [intros Hlt; by exists fee|intros (fee' & [= <-] & Hlt); done]).
  - assert (Hno : forall k, k = TxWarningKind.HighFeeRate \/ k = TxWarningKind.HighFeeShare -> any (is_kind k)
        [no_fee_warning (a_outputs_impossible amounts) (a_inputs_impossible amounts)
           (a_values_known amounts && negb (a_outputs_impossible amounts) && negb (a_inputs_impossible amounts) && true) (all_proven decoded facts)] = false).
    { intros k Hk. unfold no_fee_warning, is_kind. destruct (a_outputs_impossible amounts), (a_inputs_impossible amounts), (a_values_known amounts), (all_proven decoded facts);
        simpl; by rewrite bool_decide_false by (destruct Hk; congruence). }
    cbn [option_map]. rewrite !Hno by auto. split; (split; [done|by intros (? & ? & _)]).
Qed.

(** ** What a PSBT cannot say *)

Lemma warned_psbt decoded network facts output_facts tip now i d w : d_inputs decoded !! i = Some d -> In w (psbt_warnings network i d) ->
  kind w <> TxWarningKind.Unsigned -> In w (warnings (build_preview decoded network facts output_facts tip now)).
Proof.
  intros Hd Hw Hk. unfold build_preview. destruct (signed_size _ _) as [[? ?] ?]. cbn [warnings]. apply in_or_app. left.
  match goal with |- In w (if _ then _ ++ _ else ?l) => assert (Hl : In w l) end.
  { apply in_or_app. right. apply in_or_app. left. apply in_concat. exists (psbt_warnings network i d). split; [|done].
    apply in_map_iff. exists (i, d). split; [done|]. eapply list_elem_of_In, list_elem_of_lookup_2. by apply enumerate_lookup. }
  destruct (any snd _); [|done]. apply in_or_app. left. destruct (d_ready decoded); [done|]. apply retain_In. split; [done|]. by rewrite bool_decide_false.
Qed.

(** With no caution on an unknown coin, each was found and checked. *)
Lemma unwarned_known decoded network facts output_facts tip now i f :
  (forall w, In w (warnings (build_preview decoded network facts output_facts tip now)) -> kind w <> TxWarningKind.InputUnknown) ->
  facts !! i = Some f -> f_unknown f = false /\ f_unchecked f = false.
Proof.
  intros Hno Hf. destruct (decide (f_unknown f = false /\ f_unchecked f = false)) as [|Hn]; [done|]. exfalso.
  assert (Hsaid : forall txid proven, exists w, In w (standing network txid i f proven).1 /\ kind w = TxWarningKind.InputUnknown).
  { intros txid proven. unfold standing. destruct (f_unknown f); [eexists; split; [by left|done]|]. destruct (f_unchecked f); [|by destruct Hn].
    destruct proven; cbn [andb]; [eexists; split; [by left|done]|].
    destruct (if f_listed f then f_wallet f else None); (eexists; split; [by left|done]). }
  unfold build_preview in Hno. destruct (signed_size _ _) as [[? ?] ?]. cbn [warnings] in Hno.
  set (txid := compute_txid (d_tx decoded)) in *.
  set (coin := unwrap_or (spent_coins decoded facts !! i) None) in *.
  match type of Hno with context[facts_warnings _ _ _ _ _ _ (unwrap_or (?pr !! _) false)] => destruct (Hsaid txid (unwrap_or (pr !! i) false)) as (w & Hw & Hk) end.
  apply (Hno w); [|done]. apply in_or_app. left.
  match goal with |- In w (if _ then _ ++ _ else ?l) => assert (Hl : In w l) end.
  { apply in_or_app. right. apply in_or_app. right. apply in_concat. eexists. split; [apply in_map, in_map_iff; exists (i, f); split; [reflexivity|]|].
    { eapply list_elem_of_In, list_elem_of_lookup_2. by apply enumerate_lookup. }
    unfold facts_warnings. destruct (standing network txid i f _) as [l waiting]. cbn [fst] in *. by do 2 (apply in_or_app; right). }
  destruct (any snd _); [|done]. apply in_or_app. left. destruct (d_ready decoded); [done|]. apply retain_In. split; [done|]. by rewrite Hk.
Qed.

(** When no amount is said to be declared, each that is shown is proven. *)
Lemma undeclared_proven decoded network facts output_facts tip now i ip d v : decoded_wf decoded ->
  amounts_declared (build_preview decoded network facts output_facts tip now) = false ->
  p_inputs (build_preview decoded network facts output_facts tip now) !! i = Some ip -> d_inputs decoded !! i = Some d ->
  value_sats ip = Some v -> proven_coin d (facts !! i) = true.
Proof.
  intros Hwf. unfold build_preview. destruct (signed_size _ _) as [[? ?] ?]. cbn [amounts_declared p_inputs]. rewrite any_false.
  set (inputs := List.map _ (enumerate (combine _ _))). intros Hno Hip Hd Hv. destruct (proven_coin d (facts !! i)) eqn:Ep; [done|]. exfalso.
  specialize (Hno (ip, false)). cbn in Hno. rewrite Hv in Hno. discriminate Hno. eapply list_elem_of_In, list_elem_of_lookup_2.
  apply combine_lookup. split; [exact Hip|]. rewrite list_lookup_fmap, (enumerate_lookup _ _ _ Hd). cbn. by rewrite Ep.
Qed.

Lemma warned_facts decoded network facts output_facts tip now i f w : facts !! i = Some f ->
  In w (mismatch_warnings network i f (d_inputs decoded !! i) ++ listing_warnings network i f (d_inputs decoded !! i) (unwrap_or (spent_coins decoded facts !! i) None)) ->
  kind w <> TxWarningKind.Unsigned -> In w (warnings (build_preview decoded network facts output_facts tip now)).
Proof.
  intros Hf Hw Hk. unfold build_preview. destruct (signed_size _ _) as [[? ?] ?]. cbn [warnings]. apply in_or_app. left.
  match goal with |- In w (if _ then _ ++ _ else ?l) => assert (Hl : In w l) end.
  { apply in_or_app. right. apply in_or_app. right. rewrite List.map_map. apply in_concat. eexists. split.
    - apply in_map_iff. exists (i, f). split; [reflexivity|]. eapply list_elem_of_In, list_elem_of_lookup_2. by apply enumerate_lookup.
    - cbn beta iota. unfold facts_warnings. destruct (standing _ _ _ _ _) as [standing waiting]. cbn [fst]. rewrite app_assoc. apply in_or_app. by left. }
  destruct (any snd _); [|done]. apply in_or_app. left. destruct (d_ready decoded); [done|]. apply retain_In. split; [done|]. by rewrite bool_decide_false.
Qed.

Lemma proven_entry `{!PsbtLaws} psbt decoded i entry spend prev : whole psbt -> decode_psbt psbt = Ok decoded ->
  psbt_inputs psbt !! i = Some entry -> TxExtras.input (unsigned_tx psbt) !! i = Some spend -> non_witness_utxo entry = Some prev ->
  0 <= vout (previous_output spend) ->
  exists coin d, output prev !! Z.to_nat (vout (previous_output spend)) = Some coin /\ compute_txid prev = op_txid (previous_output spend)
    /\ d_inputs decoded !! i = Some d /\ prevout d = Some coin /\ prevout_proven d = true
    /\ disputed_witness_utxo d = match witness_utxo entry with
                                 | Some declared => if bool_decide (coin <> declared) then Some declared else None
                                 | None => None
                                 end.
Proof.
  intros Hw Hd He Hs Hp Hv. pose proof (decode_psbt_right psbt Hw) as Hr. rewrite Hd in Hr. destruct Hr as ((_ & _ & Hfits) & _ & _ & Hin & _).
  destruct (Hfits i entry spend He Hs prev Hp) as [Ht Hlen].
  destruct (output prev !! Z.to_nat (vout (previous_output spend))) as [coin|] eqn:Ec; [|apply lookup_ge_None in Ec; lia].
  destruct (finalize_keeps psbt) as (_ & Hnw & Hwu).
  assert (Hf : exists final, psbt_inputs (finalize_mut psbt).1 !! i = Some final /\ non_witness_utxo final = Some prev /\ witness_utxo final = witness_utxo entry).
  { apply (f_equal (fun l => l !! i)) in Hnw. apply (f_equal (fun l => l !! i)) in Hwu. rewrite !list_map_lookup, He in Hnw. rewrite !list_map_lookup, He in Hwu. cbn [option_map] in Hnw, Hwu.
    destruct (psbt_inputs (finalize_mut psbt).1 !! i) as [final|]; [|done]. injection Hnw as Hnw. injection Hwu as Hwu. exists final. by rewrite <- Hp. }
  destruct Hf as (final & Hfi & Hfn & Hfw).
  exists coin, (decoded_psbt_input (finalize_mut psbt).2 i (previous_output spend) (partial_loose entry) final).
  split; [done|]. split; [done|]. split.
  - rewrite Hin. unfold entries_of. apply decoded_psbt_inputs_lookup. exists spend, (partial_loose entry), final. rewrite list_map_lookup, He. done.
  - unfold decoded_psbt_input. cbn [prevout prevout_proven disputed_witness_utxo]. rewrite Hfn, Ec, Hfw. done.
Qed.

(** C15: the value and the address shown of an input are those of the coin
    it really spends, of the transaction whose id it names, as soon as the
    PSBT carries a previous transaction and no two transactions share
    that id: whatever else the PSBT, the wallets or the servers say. What
    one of them says differently is warned of. *)
Theorem psbt_shows_the_real_coin `{!PsbtLaws} psbt decoded i entry spend prev real network facts output_facts tip now :
  whole psbt -> decode_psbt psbt = Ok decoded ->
  psbt_inputs psbt !! i = Some entry -> TxExtras.input (unsigned_tx psbt) !! i = Some spend -> non_witness_utxo entry = Some prev ->
  0 <= vout (previous_output spend) ->
  compute_txid real = op_txid (previous_output spend) -> (compute_txid real = compute_txid prev -> output real = output prev) ->
  let p := build_preview decoded network facts output_facts tip now in
  let warned := exists w, In w (warnings p) /\ kind w = TxWarningKind.InputMismatch in
  exists coin ip, output real !! Z.to_nat (vout (previous_output spend)) = Some coin /\ p_inputs p !! i = Some ip
    /\ value_sats ip = Some (value coin) /\ address ip = from_script network (script_pubkey coin)
    /\ (forall declared, witness_utxo entry = Some declared -> declared <> coin -> warned)
    /\ (forall f, facts !! i = Some f ->
         (forall known, f_prevout f = Some known -> known <> coin -> warned)
         /\ (f_contradicted_listing f <> None -> warned)).
Proof.
  intros Hw Hd He Hs Hp Hv Hreal Hcol. cbn zeta. destruct (proven_entry psbt decoded i entry spend prev Hw Hd He Hs Hp Hv) as (coin & d & Hc & Ht & Hdi & Hpo & Hpp & Hdis).
  pose proof (decode_psbt_right psbt Hw) as Hr. rewrite Hd in Hr. destruct Hr as (_ & Hwf & _ & _ & Ho & _).
  assert (Hcoin : spent_coin d (facts !! i) = Some coin) by (unfold spent_coin; by rewrite Hpp).
  assert (Hspend : exists spend', TxExtras.input (d_tx decoded) !! i = Some spend' /\ previous_output spend' = previous_output spend).
  { apply (f_equal (lookup i)) in Ho. unfold outpoints in Ho. rewrite !list_map_lookup, Hs in Ho. cbn [option_map] in Ho.
    destruct (TxExtras.input (d_tx decoded) !! i) as [spend'|]; [|done]. exists spend'. split; [done|]. by injection Ho. }
  destruct Hspend as (spend' & Hs' & Hsp).
  exists coin, (input_preview network i spend' (Some d) (facts !! i) (Some coin)). rewrite (Hcol ltac:(congruence)). split; [done|].
  split; [apply inputs_lookup; [done|]; exists spend', d; by rewrite Hcoin|]. split; [done|]. split; [done|]. split.
  - intros declared Hdec Hne. eexists. split; [apply (warned_psbt _ _ _ _ _ _ i d); [done| |]|].
    + unfold psbt_warnings. apply in_or_app. right. rewrite Hpo, Hdis, Hdec, bool_decide_true by congruence. by left.
    + done.
    + done.
  - intros f Hf. assert (Hsc : unwrap_or (spent_coins decoded facts !! i) None = Some coin) by (by rewrite (spent_coins_lookup decoded facts i d Hdi), Hcoin). split.
    + intros known Hk Hne. eexists. split; [apply (warned_facts _ _ _ _ _ _ i f); [done| |]|]; [apply in_or_app; left| |].
      * unfold mismatch_warnings. rewrite Hdi, Hk, Hpo, bool_decide_true by done. by left.
      * done.
      * done.
    + intros Hl. destruct (f_contradicted_listing f) as [[wallet listed]|] eqn:El; [|done]. eexists. split; [apply (warned_facts _ _ _ _ _ _ i f); [done| |]|].
      * apply in_or_app. right. unfold listing_warnings. rewrite El, Hsc. by left.
      * done.
      * done.
Qed.
End Promises.

(** ** At a concrete spend *)

Module PreviewDemo.
#[local] Existing Instances Demo.transactions Demo.scripts Demo.psbts Demo.psbt_laws.

#[export] Instance xonly_eq_dec : EqDecision (@XOnly Demo.scripts) := Z.eq_dec.

Definition decoded : DecodedTx :=
  {| d_source := FromPsbt; d_tx := Demo.tx;
     d_inputs := [decoded_psbt_input [] 0 (previous_output Demo.spend) None (Demo.psbt_input : PsbtInput SecpKey)]; d_ready := true |}.

(** The coin spent in a block, by a transaction seen spending it. *)
Definition spent_facts : InputFacts :=
  {| f_prevout := None; f_wallet := None; f_spent := Some true;
     f_spent_by := Some {| sb_txid := "9"; sb_confirmed := true; sb_verified := true |}; f_listed := false;
     f_contradicted_listing := None; f_unknown := false; f_unchecked := false; f_satisfaction := None |}.

Definition preview (facts : list InputFacts) : TxPreview := build_preview decoded Mainnet facts [] None 0.
End PreviewDemo.

Section Witnesses.
#[local] Existing Instances Demo.transactions Demo.scripts Demo.psbts Demo.psbt_laws PreviewDemo.xonly_eq_dec.

Lemma ready_means_sendable_witness : ready (PreviewDemo.preview []) = true /\ p_hex (PreviewDemo.preview []) = Some "0200".
Proof.
  destruct (ready_means_sendable PreviewDemo.decoded Mainnet [] [] None 0 (Build_decoded_wf PreviewDemo.decoded eq_refl eq_refl)) as (Hr & Hhex & _).
  assert (Ht : ready (PreviewDemo.preview []) = true).
  { apply Hr. split; [intros ip [<-|[]]; reflexivity|]. intros w Hin Hb. vm_compute in Hin. repeat (destruct Hin as [<-|Hin]; [discriminate Hb|]). destruct Hin. }
  split; [exact Ht|]. unfold PreviewDemo.preview in *. rewrite Hhex, Ht. reflexivity.
Defined.

Lemma held_back_only_on_proof_witness : readiness (PreviewDemo.preview [PreviewDemo.spent_facts]) = TxReadiness.Refused.
Proof.
  apply (held_back_only_on_proof PreviewDemo.decoded Mainnet [PreviewDemo.spent_facts] [] None 0 (Build_decoded_wf PreviewDemo.decoded eq_refl eq_refl)).
  - intros x Hx. vm_compute in Hx. destruct Hx as [<-|[]]. discriminate.
  - intros v Hv. vm_compute in Hv. destruct Hv as [[= <-]|[]]. discriminate.
  - left. eexists _, _. split; [left; reflexivity|]. repeat (split; [reflexivity|]). reflexivity.
Defined.

Lemma fee_right_witness : fee_sats (PreviewDemo.preview []) = Some 40000
  /\ exists w, In w (warnings (PreviewDemo.preview [])) /\ kind w = TxWarningKind.HighFeeShare.
Proof.
  destruct (fee_right PreviewDemo.decoded Mainnet [] [] None 0) as [Hf Hw].
  - intros x Hx. vm_compute in Hx. destruct Hx as [<-|[]]. discriminate.
  - intros v Hv. vm_compute in Hv. destruct Hv as [[= <-]|[]]. discriminate.
  - assert (Hfee : fee_sats (PreviewDemo.preview []) = Some 40000).
    { apply Hf. split; [intros v Hv; vm_compute in Hv; destruct Hv as [<-|[]]; discriminate|]. vm_compute. repeat split; discriminate. }
    split; [exact Hfee|]. destruct Hw as [_ Hshare]; [vm_compute; split; reflexivity|]. apply Hshare. exists 40000. split; [exact Hfee|]. vm_compute. reflexivity.
Defined.

Lemma psbt_shows_the_real_coin_witness : exists ip, p_inputs (PreviewDemo.preview []) !! 0%nat = Some ip /\ value_sats ip = Some 100000.
Proof.
  pose proof (psbt_shows_the_real_coin (Demo.psbt : Psbt SecpKey)) as Hcoin.
  destruct (Hcoin PreviewDemo.decoded 0%nat Demo.psbt_input Demo.spend Demo.funding Demo.funding Mainnet [] [] None 0
    eq_refl eq_refl eq_refl eq_refl eq_refl ltac:(vm_compute; discriminate) eq_refl (fun _ => eq_refl)) as (coin & ip & Hc & Hip & Hv & _).
  exists ip. split; [exact Hip|]. vm_compute in Hc. injection Hc as <-. exact Hv.
Defined.
End Witnesses.
