(* ===== verification/Certs.v ===== *)
(** [chain/tls.rs]: the certificate of an Electrum server, vouched for by a
    public authority or accepted once by its fingerprint; what the
    handshake answers of it, and the words of a refusal. rustls, webpki and
    the reader of certificates are parameters (the class [Tls]): the
    verifier is told by the calls rustls makes to it. *)
From S2P Require Import Prelude Utf8 Text Errors Xpub Lock Connect PolicyText Faults.
From Stdlib Require Import Ascii.

(** ** rustls *)

(** [rustls::CertificateError], as far as the source tells it apart. *)
Module CertificateError.
Inductive CertificateError := UnknownIssuer | Expired | NotValidYet | NotValidForName | Another (words : string).
End CertificateError.
Export CertificateError (CertificateError).

(** [rustls::Error]. *)
Inductive TlsError := InvalidCertificate (error : CertificateError) | General (words : string) | OtherTls (words : string).

Inductive TlsVersion := Tls12 | Tls13.

(** What a certificate says of itself. *)
Record X509 := { x_subject : string; x_not_after : Z; x_public_key : list Z }.

Class Tls := {
  (** A signature of the handshake, its scheme and its bytes. *)
  Dss : Type;
  scheme : Dss -> Z;
  Algorithm : Type;
  (** The algorithms of the provider, by scheme. *)
  mapping : list (Z * list Algorithm);
  verify_signature : Algorithm -> list Z -> list Z -> Dss -> bool;
  sha256 : list Z -> list Z;
  (** [WebPkiServerVerifier::verify_server_cert]. *)
  webpki : list Z -> list (list Z) -> string -> list Z -> Z -> result unit TlsError;
  (** [verify_tls12_signature] and [verify_tls13_signature] of rustls. *)
  standard : TlsVersion -> list Z -> list Z -> Dss -> result unit TlsError;
  parse_x509 : list Z -> option X509;
  tls_text : TlsError -> string;
}.

(** ** Fingerprints *)

Fixpoint upper (s : string) : string := match s with "" => "" | String a s => String (upper_byte a) (upper s) end.

(** [format!("{byte:02X}")], the bytes joined by colons. *)
Definition upper_pair (byte : Z) : string := upper (hex [byte]).
Definition fingerprint_text (digest : list Z) : string := join ":" (List.map upper_pair digest).

Definition is_fingerprint (value : string) : bool :=
  let parts := split ":" value in
  (length parts =? 32)%nat && all (fun part => (String.length part =? 2)%nat && str_all is_ascii_hexdigit part) parts.

(** ** The verifier *)

Module Verdict.
Inductive Verdict :=
| Trusted
| Pinned
| Unknown (fingerprint reason : string) (subject : option string) (expires : option Z)
| Changed (stored presented : string).
End Verdict.
Export Verdict (Verdict).

Module ConnectError.
Inductive ConnectError := Certificate (verdict : Verdict) | Unreachable (detail : string) | Io (detail : string).
End ConnectError.
Export ConnectError (ConnectError).

(** [Tofu]: the fingerprint accepted, and the verdict noted. *)
Record Tofu := { pin : option string; verdict : option Verdict }.

Definition tofu_new (pin : option string) : Tofu := {| pin := pin; verdict := None |}.
Definition record (tofu : Tofu) (verdict : Verdict) : Tofu := {| pin := pin tofu; verdict := Some verdict |}.

Section Tls.
Context `{Tls}.

Definition fingerprint_of (der : list Z) : string := fingerprint_text (sha256 der).

Definition describe (der : list Z) : option string * option Z :=
  match parse_x509 der with
  | Some cert => (if bool_decide (x_subject cert = "") then None else Some (x_subject cert), Some (x_not_after cert))
  | None => (None, None)
  end.

Definition public_key_of (der : list Z) : option (list Z) := option_map x_public_key (parse_x509 der).

Definition reason_of (error : TlsError) : string :=
  match error with
  | InvalidCertificate CertificateError.UnknownIssuer => "self-signed, or signed by an authority this machine does not know"
  | InvalidCertificate CertificateError.Expired => "expired"
  | InvalidCertificate CertificateError.NotValidYet => "not valid yet"
  | InvalidCertificate CertificateError.NotValidForName => "issued for a different host name"
  | InvalidCertificate _ =>
    if contains "UnsupportedCertVersion" (tls_text error) then "written in X.509 version 1, older than the standard verifier reads"
    else "it cannot be checked against the public authorities"
  | other => tls_text other
  end.

Definition verify_server_cert (tofu : Tofu) (end_entity : list Z) (intermediates : list (list Z)) (server_name : string) (ocsp_response : list Z) (now : Z)
  : Tofu * result unit TlsError :=
  let presented := fingerprint_of end_entity in
  match pin tofu with
  | Some pinned =>
    if bool_decide (pinned = presented) then (record tofu Verdict.Pinned, Ok tt)
    else (record tofu (Verdict.Changed pinned presented), Err (General "the server's certificate changed"))
  | None =>
    match webpki end_entity intermediates server_name ocsp_response now with
    | Ok _ => (record tofu Verdict.Trusted, Ok tt)
    | Err error =>
      let '(subject, expires) := describe end_entity in
      (record tofu (Verdict.Unknown presented (reason_of error) subject expires), Err error)
    end
  end.

(** Some algorithm of the scheme verifies the signature under the key. *)
Definition proven_by (key message : list Z) (dss : Dss) : bool :=
  any (fun algorithm => verify_signature algorithm key message dss)
    (List.concat (List.map snd (retain (fun entry => entry.1 =? scheme dss) mapping))).

Definition verify_with_own_key (tofu : Tofu) (message cert : list Z) (dss : Dss) (original : TlsError) : result unit TlsError :=
  match verdict tofu with
  | Some Verdict.Pinned =>
    match public_key_of cert with
    | None => Err original
    | Some key => if proven_by key message dss then Ok tt else Err original
    end
  | _ => Err original
  end.

(** [verify_tls12_signature] and [verify_tls13_signature] of the verifier. *)
Definition verify_tls_signature (version : TlsVersion) (tofu : Tofu) (message cert : list Z) (dss : Dss) : result unit TlsError :=
  match standard version message cert dss with
  | Ok _ => Ok tt
  | Err error => verify_with_own_key tofu message cert dss error
  end.
End Tls.

(** [Handshake::refusal]. *)
Definition refusal (tofu : Tofu) (error : string) : ConnectError :=
  match verdict tofu with
  | Some (Verdict.Unknown _ _ _ _ as verdict) | Some (Verdict.Changed _ _ as verdict) => ConnectError.Certificate verdict
  | _ => ConnectError.Unreachable ("TLS handshake failed: " +:+ error)
  end.

(** The verifier of a hidden service. *)
Module OnionIdentity.
Definition verify_server_cert {E} (end_entity : list Z) : result unit E := Ok tt.
Definition verify_tls_signature {E} (message cert : list Z) : result unit E := Ok tt.
End OnionIdentity.

(** ** What a refusal says *)

(** [Display] of [ConnectError]; the dash of the source is its UTF-8. *)
Definition DASH : string := of_chars [8212%N].

Definition connect_text (error : ConnectError) : string :=
  match error with
  | ConnectError.Unreachable detail | ConnectError.Io detail => detail
  | ConnectError.Certificate (Verdict.Unknown fingerprint reason _ _) =>
    "the server's certificate is not vouched for by any public authority (" +:+ reason +:+ "); its fingerprint is " +:+ fingerprint +:+ " " +:+ DASH
    +:+ " accept it in Settings to connect"
  | ConnectError.Certificate (Verdict.Changed stored presented) =>
    "the server's certificate changed: this host was accepted as " +:+ stored +:+ " and now presents " +:+ presented +:+ " " +:+ DASH
    +:+ " check with whoever runs it before accepting the new one"
  | ConnectError.Certificate _ => "certificate refused"
  end.

Definition fault_of (error : ConnectError) : Fault :=
  match error with
  | ConnectError.Certificate _ => outage (connect_text error)
  | ConnectError.Unreachable detail => outage detail
  | ConnectError.Io detail => other detail
  end.

Definition connect_error_of (fault : Fault) : ConnectError :=
  if is_outage fault then ConnectError.Unreachable (Faults.detail fault) else ConnectError.Io (Faults.detail fault).

(** [inspect]; [connected] is what [connect] answered. *)
Definition inspect (pin : option string) (connected : result unit ConnectError) : result Verdict ConnectError :=
  match connected with
  | Ok _ => Ok match pin with Some _ => Verdict.Pinned | None => Verdict.Trusted end
  | Err (ConnectError.Certificate verdict) => Ok verdict
  | Err other => Err other
  end.

(** [tcp_connect]: the resolver, the dial and the options of the socket are
    what they answer. *)
Definition tcp_connect {A S} `{Urls} (host : string) (port : Z) (addresses : result (list A) string) (dial : list A -> result S IoError)
  (set_timeouts : S -> result unit string) : result S ConnectError :=
  if is_onion_host host then Err (ConnectError.Io (host +:+ " is an onion address and needs Tor"))
  else
    match addresses with
    | Err e => Err (ConnectError.Unreachable (host +:+ " does not resolve: " +:+ e))
    | Ok [] => Err (ConnectError.Io (host +:+ ":" +:+ dec port +:+ " has no address to connect to"))
    | Ok addresses =>
      match dial addresses with
      | Ok socket => match set_timeouts socket with Ok _ => Ok socket | Err e => Err (ConnectError.Io e) end
      | Err error =>
        match io_outage (io_kind error) with
        | Some _ => Err (ConnectError.Unreachable (io_text error))
        | None => Err (ConnectError.Io (io_text error))
        end
      end
    end.

(** ** Fingerprints, read and written *)

Lemma every_u8 (f : Z -> bool) : forallb (fun n => f (Z.of_nat n)) (seq 0 256) = true -> forall b, in_u8 b -> f b = true.
Proof.
  rewrite forallb_forall. intros Hf b Hb. unfold in_u8, u8_max in Hb. specialize (Hf (Z.to_nat b)). rewrite Z2Nat.id in Hf by lia.
  apply Hf, in_seq. lia.
Qed.

Lemma upper_pair_read b : in_u8 b -> unhex (upper_pair b) = Some [b].
Proof.
  intros Hb. apply (bool_decide_eq_true_1 (unhex (upper_pair b) = Some [b])). revert b Hb.
  apply (every_u8 (fun b => bool_decide (unhex (upper_pair b) = Some [b]))). vm_compute. reflexivity.
Qed.

Lemma upper_pair_shape b : in_u8 b ->
  String.length (upper_pair b) = 2%nat /\ str_all is_ascii_hexdigit (upper_pair b) = true /\ lacks ":" (upper_pair b) = true /\ upper (upper_pair b) = upper_pair b.
Proof.
  intros Hb. assert (Hall : bool_decide (String.length (upper_pair b) = 2%nat) && str_all is_ascii_hexdigit (upper_pair b) && lacks ":" (upper_pair b)
                            && bool_decide (upper (upper_pair b) = upper_pair b) = true).
  { revert b Hb. apply (every_u8 (fun b => bool_decide (String.length (upper_pair b) = 2%nat) && str_all is_ascii_hexdigit (upper_pair b) && lacks ":" (upper_pair b)
                            && bool_decide (upper (upper_pair b) = upper_pair b))). vm_compute. reflexivity. }
  rewrite !andb_true_iff, !bool_decide_eq_true in Hall. tauto.
Qed.

Lemma pairs_lack digest : Forall in_u8 digest -> Forall (fun part => lacks ":" part = true) (List.map upper_pair digest).
Proof. intros Hd. apply List.Forall_map. eapply List.Forall_impl; [|exact Hd]. intros b Hb. by apply upper_pair_shape. Qed.

Lemma fingerprint_split digest : digest <> [] -> Forall in_u8 digest -> split ":" (fingerprint_text digest) = List.map upper_pair digest.
Proof. intros Hn Hd. unfold fingerprint_text. apply split_join; [by destruct digest|by apply pairs_lack]. Qed.

Lemma fingerprint_text_inj d e : Forall in_u8 d -> Forall in_u8 e -> length d = length e -> fingerprint_text d = fingerprint_text e -> d = e.
Proof.
  intros Hd He Hl Ht. destruct d as [|b d]; [by destruct e|]. destruct e as [|c e]; [done|].
  apply (f_equal (split ":")) in Ht. rewrite !fingerprint_split in Ht by done. clear Hl.
  remember (b :: d) as l eqn:El. remember (c :: e) as l' eqn:El'. clear El El'.
  revert l' He Ht. induction Hd as [|x l Hx _ IH]; intros [|y l'] He Ht; try done.
  apply list.Forall_cons in He as [Hy He]. cbn [List.map] in Ht. apply cons_eq_inj in Ht as [Hxy Ht]. f_equal; [|by apply IH].
  apply (f_equal unhex) in Hxy. rewrite !upper_pair_read in Hxy by done. congruence.
Qed.

Lemma digest_fingerprint digest : length digest = 32%nat -> Forall in_u8 digest -> is_fingerprint (fingerprint_text digest) = true.
Proof.
  intros Hl Hd. unfold is_fingerprint. rewrite fingerprint_split by (done || by destruct digest). rewrite length_map, Hl. cbn [andb Nat.eqb].
  unfold all. rewrite forallb_forall. intros part (b & <- & Hb)%in_map_iff. rewrite List.Forall_forall in Hd.
  destruct (upper_pair_shape b (Hd b Hb)) as (-> & -> & _). done.
Qed.

Lemma upper_app s t : upper (s +:+ t) = upper s +:+ upper t.
Proof. induction s as [|a s IH]; [done|]. cbn [upper String.append]. by rewrite <- IH. Qed.

Lemma upper_join l : upper (join ":" l) = join ":" (List.map upper l).
Proof.
  induction l as [|s l IH]; [done|]. destruct l as [|t l]; [done|]. cbn [join List.map] in *. rewrite !upper_app, IH. done.
Qed.

Lemma hexdigit_upper a : is_ascii_hexdigit a = true ->
  exists v, 0 <= v < 16 /\ upper_byte a = upper_byte (hex_digit v).
Proof.
  intros Ha. exists (Z.of_N (hexdigit_value a)).
  assert (Hb : (hexdigit_value a <? 16)%N && (upper_byte a =? upper_byte (hex_digit (Z.of_N (hexdigit_value a))))%char = true).
  { revert a Ha. apply byte_implies. vm_compute. reflexivity. }
  apply andb_true_iff in Hb as [Hv Hu]. apply N.ltb_lt in Hv. apply Ascii.eqb_eq in Hu. split; [lia|done].
Qed.

Lemma hexpair_upper part : String.length part = 2%nat -> str_all is_ascii_hexdigit part = true -> exists b, in_u8 b /\ upper part = upper_pair b.
Proof.
  destruct part as [|a [|c [|? ?]]]; try done. intros _. cbn [str_all]. rewrite !andb_true_iff. intros (Ha & Hc & _).
  destruct (hexdigit_upper a Ha) as (v & Hv & Ev). destruct (hexdigit_upper c Hc) as (w & Hw & Ew). exists (16 * v + w).
  split; [unfold in_u8, u8_max; lia|]. unfold upper_pair, hex. cbn [foldr hex_byte upper]. rewrite Ev, Ew.
  replace ((16 * v + w) / 16) with v by (Z.div_mod_to_equations; lia). replace ((16 * v + w) mod 16) with w by (Z.div_mod_to_equations; lia). done.
Qed.

(** What is taken for a fingerprint is one, in capitals. *)
Lemma fingerprint_read value : is_fingerprint value = true ->
  exists digest, length digest = 32%nat /\ Forall in_u8 digest /\ upper value = fingerprint_text digest.
Proof.
  unfold is_fingerprint. rewrite andb_true_iff, Nat.eqb_eq. intros [Hl Ha]. pose proof (join_split ":" value) as Hj. set (parts := split ":" value) in *.
  assert (Hp : exists digest, length digest = length parts /\ Forall in_u8 digest /\ List.map upper parts = List.map upper_pair digest).
  { clearbody parts. clear Hl Hj. induction parts as [|part parts IH]; [by exists []|]. unfold all in Ha. cbn [forallb] in Ha.
    apply andb_true_iff in Ha as [Hh Ha]. apply andb_true_iff in Hh as [H2 Hx]. apply Nat.eqb_eq in H2.
    destruct (hexpair_upper part H2 Hx) as (b & Hb & Eb). destruct (IH Ha) as (digest & Hlen & Hd & Em).
    exists (b :: digest). cbn [length List.map]. rewrite Hlen, Eb, Em. repeat split. by constructor. }
  destruct Hp as (digest & Hlen & Hd & Em). exists digest. split; [congruence|]. split; [done|].
  rewrite <- Hj. unfold fingerprint_text. rewrite upper_join. by f_equal.
Qed.

(** ** What is accepted *)

(** SHA-256 gives thirty-two bytes. *)
Class TlsLaws `{Tls} : Prop := { sha256_bytes : forall message, length (sha256 message) = 32%nat /\ Forall in_u8 (sha256 message) }.

Section Accepted.
Context `{Tls}.

Lemma own_key_proves version tofu message cert dss : verify_tls_signature version tofu message cert dss = Ok tt <->
  standard version message cert dss = Ok tt
  \/ (verdict tofu = Some Verdict.Pinned /\ exists key, public_key_of cert = Some key /\ proven_by key message dss = true).
Proof.
  unfold verify_tls_signature. destruct (standard _ _ _ _) as [[]|e]; [by split; [left|]|]. unfold verify_with_own_key. split.
  - destruct (verdict tofu) as [[]|]; try done. destruct (public_key_of cert) as [key|]; [|done]. destruct (proven_by key message dss) eqn:Ek; [|done].
    intros _. right. split; [done|]. by exists key.
  - intros [[=]|(-> & key & -> & ->)]. done.
Qed.

(** C30: A certificate carries a connection exactly when a public authority
    vouches for it and the handshake is signed with it as the standard
    reads it, or, on a host with a fingerprint accepted, when it is that of
    the certificate presented and the handshake is signed with its key,
    whether or not the standard reads such a certificate: an authority does
    not count there, and a copy of the certificate without its key gets
    nowhere. *)
Theorem certificate_accepted_exactly accepted version cert intermediates server_name ocsp_response now message dss :
  let '(tofu, vouched) := verify_server_cert (tofu_new accepted) cert intermediates server_name ocsp_response now in
  vouched = Ok tt /\ verify_tls_signature version tofu message cert dss = Ok tt <->
  match accepted with
  | Some fingerprint =>
    fingerprint = fingerprint_of cert
    /\ (standard version message cert dss = Ok tt \/ exists key, public_key_of cert = Some key /\ proven_by key message dss = true)
  | None => webpki cert intermediates server_name ocsp_response now = Ok tt /\ standard version message cert dss = Ok tt
  end.
Proof.
  unfold verify_server_cert. cbn [pin tofu_new]. destruct accepted as [fingerprint|].
  - case_bool_decide as Hf; [|by split; [intros [[=] _]|intros [? _]]]. rewrite own_key_proves. cbn [verdict record].
    split; [intros [_ [?|[_ ?]]]|intros [_ [?|?]]]; by auto.
  - destruct (webpki _ _ _ _ _) as [[]|e].
    + rewrite own_key_proves. cbn [verdict record]. split; [intros [_ [?|[[=] _]]]|intros [_ ?]]; by auto.
    + destruct (describe cert). by split; intros [[=] _].
Qed.
End Accepted.

Section FirstUse.
Context `{TlsLaws}.

Lemma fingerprint_of_right cert : is_fingerprint (fingerprint_of cert) = true /\ upper (fingerprint_of cert) = fingerprint_of cert.
Proof.
  destruct (sha256_bytes cert) as [Hl Hb]. split; [by apply digest_fingerprint|]. unfold fingerprint_of, fingerprint_text. rewrite upper_join. f_equal.
  rewrite List.map_map. apply map_ext_in. intros b Hin. rewrite List.Forall_forall in Hb. by apply upper_pair_shape, Hb.
Qed.

(** Trust on first use. A certificate no authority vouches for is refused
    with its fingerprint, one the settings take and keep as it is; once
    accepted, that very certificate is taken, and any other is refused as a
    change, shown with both fingerprints, which differ, whoever vouches for
    it. *)
Theorem trust_on_first_use first cert error intermediates server_name ocsp_response now :
  webpki first intermediates server_name ocsp_response now = Err error -> (sha256 cert = sha256 first -> cert = first) ->
  let refused := (verify_server_cert (tofu_new None) first intermediates server_name ocsp_response now).1 in
  let later := verify_server_cert (tofu_new (Some (upper (fingerprint_of first)))) cert intermediates server_name ocsp_response now in
  is_fingerprint (fingerprint_of first) = true
  /\ (forall words, exists subject expires,
        refusal refused words = ConnectError.Certificate (Verdict.Unknown (fingerprint_of first) (reason_of error) subject expires))
  /\ (later.2 = Ok tt <-> cert = first)
  /\ (cert <> first -> fingerprint_of cert <> fingerprint_of first
      /\ forall words, refusal later.1 words = ConnectError.Certificate (Verdict.Changed (fingerprint_of first) (fingerprint_of cert))).
Proof.
  intros Hw Hfree. destruct (fingerprint_of_right first) as [Hf Hu]. cbn zeta. rewrite Hu.
  assert (Hinj : fingerprint_of cert = fingerprint_of first -> cert = first).
  { intros He. apply Hfree. destruct (sha256_bytes cert) as [L1 B1], (sha256_bytes first) as [L2 B2]. apply fingerprint_text_inj; [done|done|congruence|exact He]. }
  split; [done|]. split.
  { intros words. unfold verify_server_cert. cbn [pin tofu_new]. rewrite Hw. destruct (describe first) as [subject expires]. by exists subject, expires. }
  unfold verify_server_cert. cbn [pin tofu_new]. case_bool_decide as Hp; cbn [fst snd].
  - split; [|intros Hne; by destruct Hne; apply Hinj]. split; [intros _; by apply Hinj|done].
  - split; [by split; [intros [=]|intros ->; destruct Hp]|]. intros Hne. split; [by intros He; apply Hp|done].
Qed.
End FirstUse.

(** ** An example: two certificates nobody vouches for *)

Module Demo.
#[global] Instance demo_tls : Tls := {
  Dss := unit;
  scheme := fun _ => 1;
  Algorithm := unit;
  mapping := [(1, [tt])];
  verify_signature := fun _ key message _ => bool_decide (key = message);
  sha256 := fun message => List.map (fun b => b mod 256) (take 32 (message ++ repeat 0 32));
  webpki := fun _ _ _ _ _ => Err (InvalidCertificate CertificateError.UnknownIssuer);
  standard := fun _ _ _ _ => Err (General "X.509 version 1");
  parse_x509 := fun der => Some {| x_subject := "a node"; x_not_after := 9; x_public_key := der |};
  tls_text := fun _ => "refused";
}.

#[global] Instance demo_tls_laws : @TlsLaws demo_tls.
Proof.
  constructor. intros message. cbn [sha256 demo_tls]. split.
  - rewrite length_map, length_take, length_app, repeat_length. lia.
  - apply List.Forall_map. apply List.Forall_forall. intros b _. unfold in_u8, u8_max. pose proof (Z.mod_pos_bound b 256). lia.
Qed.

Definition its_own : list Z := [1; 2].
Definition another : list Z := [1; 3].
End Demo.

Lemma trust_on_first_use_witness :
  webpki Demo.its_own [] "node" [] 0 = Err (InvalidCertificate CertificateError.UnknownIssuer)
  /\ (verify_server_cert (tofu_new (Some (upper (fingerprint_of Demo.its_own)))) Demo.another [] "node" [] 0).2 <> Ok tt.
Proof.
  assert (Hw : webpki Demo.its_own [] "node" [] 0 = Err (InvalidCertificate CertificateError.UnknownIssuer)) by reflexivity.
  split; [exact Hw|]. assert (Hfree : sha256 Demo.another = sha256 Demo.its_own -> Demo.another = Demo.its_own) by (vm_compute; discriminate).
  destruct (trust_on_first_use Demo.its_own Demo.another (InvalidCertificate CertificateError.UnknownIssuer) [] "node" [] 0 Hw Hfree) as (_ & _ & Hl & _).
  intros Hok. apply Hl in Hok. discriminate Hok.
Defined.
