(* ===== verification/Attempts.v ===== *)
(** [chain/tor/attempts.rs]: a connection to an onion service in two
    attempts, the second beside the first, and the client each service is
    reached through. When an attempt ends, and how, is an argument; a
    client of a new isolation is one drawn. *)
From S2P Require Import Prelude Utf8 Text Connect.
From Stdlib Require Import Ascii.

(** [TRY], in milliseconds. *)
Definition TRY : Z := 30000.

(** ** Two attempts *)

(** When an attempt ends, counted from its start, if it does, and how. *)
Record Attempt {S E : Type} := { ends : option Z; outcome : result S E }.
Arguments Attempt : clear implicits.

Section Two.
Context {S E : Type} (timed_out : E).

Definition within (attempt : Attempt S E) (limit : Z) : bool := match ends attempt with Some at_ => at_ <=? limit | None => false end.

(** The outcomes that come in time, the loop over them: the first stream,
    or the last failure. *)
Fixpoint loop (failed : option E) (outcomes : list (result S E)) : result S E :=
  match outcomes with
  | [] => Err (unwrap_or failed timed_out)
  | Ok stream :: _ => Ok stream
  | Err error :: outcomes => loop (Some error) outcomes
  end.

(** What ends by a time, in order; [first_drawn] is the draw of the
    [select] when both end at once. *)
Definition in_time (first second : Attempt S E) (limit : Z) (first_drawn : bool) : list (result S E) :=
  let earlier := match ends first, ends second with
                 | Some a, Some b => if a =? b then first_drawn else a <? b
                 | Some _, None => true
                 | None, _ => false
                 end in
  let '(one, other) := if earlier then (first, second) else (second, first) in
  List.map outcome (retain (fun attempt => within attempt limit) [one; other]).

(** [second] starts when [try_for] has passed. *)
Definition later (try_for : Z) (second : Attempt S E) : Attempt S E :=
  {| ends := option_map (Z.add try_for) (ends second); outcome := outcome second |}.

Definition two (first second : Attempt S E) (try_for : Z) (first_drawn : bool) : result S E :=
  if within first try_for then outcome first
  else loop None (in_time first (later try_for second) (try_for + try_for) first_drawn).

Lemma loop_Ok failed outcomes stream : loop failed outcomes = Ok stream <-> exists before after, outcomes = before ++ Ok stream :: after /\ Forall (fun r => is_ok r = false) before.
Proof.
  revert failed. induction outcomes as [|r outcomes IH]; intros failed; cbn [loop]; [by split; [|intros ([] & ? & ? & _)]|]. destruct r as [s|e].
  - split; [intros [= ->]; by exists [], outcomes|]. intros ([|r before] & after & He & Hb); [by injection He as -> _|].
    injection He as <- _. by apply list.Forall_cons in Hb as [? _].
  - rewrite IH. split; [intros (before & after & -> & Hb); exists (Err e :: before), after; by split; [|constructor]|].
    intros ([|r before] & after & He & Hb); [done|]. injection He as <- ->. apply list.Forall_cons in Hb as [_ Hb]. by exists before, after.
Qed.

(** An attempt that connects by a time. *)
Definition connects (attempt : Attempt S E) (limit : Z) (stream : S) : Prop := within attempt limit = true /\ outcome attempt = Ok stream.

(** A stream is had exactly when the first attempt connects alone, or,
    silent so long, one of the two connects in the whole of the time, and
    no sooner than the other connects; a failure of the first alone is the
    answer, and silence of both a timeout. *)
Lemma two_right first second try_for first_drawn :
  (forall stream, two first second try_for first_drawn = Ok stream ->
     connects first try_for stream
     \/ within first try_for = false /\ (connects first (try_for + try_for) stream \/ connects (later try_for second) (try_for + try_for) stream))
  /\ (forall stream, connects first try_for stream -> two first second try_for first_drawn = Ok stream)
  /\ (forall stream, within first try_for = false ->
        connects first (try_for + try_for) stream \/ connects (later try_for second) (try_for + try_for) stream ->
        is_ok (two first second try_for first_drawn) = true)
  /\ (within first (try_for + try_for) = false -> within (later try_for second) (try_for + try_for) = false ->
        two first second try_for first_drawn = Err timed_out \/ within first try_for = true).
Proof.
  unfold two, connects, in_time. set (late := later try_for second). set (limit := try_for + try_for).
  destruct (within first try_for) eqn:Ew; [split; [by left|split; [by intros ? [_ ?]|split; [done|by right]]]|].
  split; [|split; [by intros ? [? _]|]]; destruct (match ends first with Some _ => _ | None => _ end); unfold retain; cbn [List.filter];
    destruct (within first limit) eqn:E1, (within late limit) eqn:E2; destruct (outcome first) as [s1|e1] eqn:O1, (outcome late) as [s2|e2] eqn:O2; cbn [List.map]; rewrite ?O1, ?O2; cbn [loop];
    naive_solver.
Qed.
End Two.

(** ** The client of each service *)

Record Route {C : Type} := { current : C; next : option C; untried : bool }.
Arguments Route : clear implicits.
Record Routes {C : Type} := { base : C; hosts : gmap string (Route C) }.
Arguments Routes : clear implicits.

Section Routes.
Context {C : Type} `{EqDecision C}.

(** [Route::on], [Routes::new]. *)
Definition route_on (base : C) : Route C := {| current := base; next := None; untried := false |}.
Definition routes_new (base : C) : Routes C := {| base := base; hosts := ∅ |}.

Definition host_key (host : string) : string := lower (trim_end_matches "." host).

(** The entry of a host, made if it is not there. *)
Definition entry (routes : Routes C) (host : string) : Route C := unwrap_or (hosts routes !! host) (route_on (base routes)).
Definition put (routes : Routes C) (host : string) (route : Route C) : Routes C := {| base := base routes; hosts := <[host := route]> (hosts routes) |}.

Definition first (routes : Routes C) (host : string) : C :=
  match hosts routes !! host with Some route => current route | None => base routes end.

(** [isolated] is the client of a new isolation, drawn when one is needed. *)
Definition second (routes : Routes C) (host : string) (first isolated : C) : Routes C * C :=
  let route := entry routes host in
  if negb (bool_decide (current route = first)) then (put routes host route, current route)
  else
    let client := unwrap_or (next route) isolated in
    (put routes host {| current := current route; next := Some client; untried := untried route |}, client).

Definition settle (routes : Routes C) (host : string) (first : C) (used : option C) (isolated : C) : Routes C :=
  let route := entry routes host in
  put routes host
    (if bool_decide (current route = first) || (untried route && match used with Some _ => true | None => false end)
     then {| current := unwrap_or used isolated; next := None; untried := match used with Some _ => false | None => true end |}
     else route).

(** ** Streams side by side *)

(** What streams ask of the routes, in the order they do. *)
Inductive RouteCall :=
| First (host : string)
| Second (host : string) (beside isolated : C)
| Settle (host : string) (beside : C) (used : option C) (isolated : C).

Definition route_call (routes : Routes C) (call : RouteCall) : Routes C :=
  match call with
  | First _ => routes
  | Second host beside isolated => (second routes host beside isolated).1
  | Settle host beside used isolated => settle routes host beside used isolated
  end.

(** A service reached through a client that connected to it. *)
Definition answered (routes : Routes C) (host : string) (client : C) : Prop := current (entry routes host) = client /\ untried (entry routes host) = false.

Lemma entry_put routes host other route : entry (put routes host route) other = if bool_decide (host = other) then route else entry routes other.
Proof. unfold entry, put. cbn [hosts base]. case_bool_decide as Hh; [subst; by rewrite lookup_insert_eq|by rewrite lookup_insert_ne]. Qed.

Lemma first_current routes host : first routes host = current (entry routes host).
Proof. unfold first, entry. by destruct (hosts routes !! host). Qed.

Lemma call_answered routes host client call :
  match call with Settle h beside _ _ => h = host -> beside <> client | _ => True end ->
  answered routes host client -> answered (route_call routes call) host client.
Proof.
  intros Hc [Ha Hu]. unfold answered. destruct call as [h|h beside isolated|h beside used isolated]; cbn [route_call]; [done|..].
  - unfold second. destruct (negb _); cbn [fst]; rewrite entry_put; case_bool_decide; by subst.
  - unfold settle. rewrite entry_put. case_bool_decide as Hh; [|done]. subst h. specialize (Hc eq_refl). rewrite Hu.
    rewrite bool_decide_false by congruence. by cbn [orb andb].
Qed.

(** However streams to any services come and go, a service stays with the
    client that last connected to it until a stream that went through that
    client had to look further: one that gave up beside another, sooner or
    later, sends it nowhere. *)
Theorem service_stays_where_it_answered calls : forall routes host client, answered routes host client ->
  Forall (fun call => match call with Settle h beside _ _ => h = host -> beside <> client | _ => True end) calls ->
  first (foldl route_call routes calls) host = client.
Proof.
  induction calls as [|call calls IH]; intros routes host client Ha Hc; [rewrite first_current; by destruct Ha|].
  apply list.Forall_cons in Hc as [Hc Hcs]. cbn [foldl]. apply IH; [|done]. by apply call_answered.
Qed.

(** The streams to a service that wait on one client share one second
    client, however many others come between. *)
Lemma seconds_are_shared calls : forall routes host beside isolated isolated' client, current (entry routes host) = beside ->
  (second routes host beside isolated).2 = client ->
  Forall (fun call => match call with Settle h _ _ _ => h <> host | _ => True end) calls ->
  (second (foldl route_call (second routes host beside isolated).1 calls) host beside isolated').2 = client.
Proof.
  intros routes host beside isolated isolated' client Hb Hc Hcalls.
  assert (Hn : forall r, current (entry r host) = beside /\ next (entry r host) = Some client ->
    current (entry (foldl route_call r calls) host) = beside /\ next (entry (foldl route_call r calls) host) = Some client).
  { induction Hcalls as [|call calls Hcall _ IH]; intros r Hr; [done|]. cbn [foldl]. apply IH. clear IH. destruct Hr as [Hr1 Hr2].
    destruct call as [h|h b i|h b u i]; cbn [route_call]; [done|..].
    - unfold second. destruct (negb _); cbn [fst]; rewrite entry_put; case_bool_decide; subst; try done. cbn [current next]. by rewrite Hr2.
    - unfold settle. rewrite entry_put. by case_bool_decide. }
  destruct (Hn (second routes host beside isolated).1) as [H1 H2].
  { unfold second in *. rewrite Hb in *. rewrite bool_decide_true in * by done. cbn [negb fst snd] in *. rewrite entry_put, bool_decide_true by done. cbn [current next]. by rewrite Hc. }
  unfold second at 1. rewrite H1, bool_decide_true by done. cbn [negb snd]. by rewrite H2.
Qed.

(** After a stream settles on the client it connected through, the service
    goes through that client, when it was still on the stream's first or on
    one put there because nothing had connected. *)
Lemma settle_moves routes host beside client isolated : current (entry routes host) = beside \/ untried (entry routes host) = true ->
  answered (settle routes host beside (Some client) isolated) host client.
Proof.
  intros Hb. unfold answered, settle. rewrite entry_put, bool_decide_true by done.
  destruct Hb as [->| ->]; [rewrite bool_decide_true by done|rewrite orb_true_r]; by cbn [orb].
Qed.
End Routes.

(** [Routes::connect], of one stream alone: the client each attempt goes
    through, and what it leaves. *)
Definition connect {C S E} `{EqDecision C} (timed_out : E) (routes : Routes C) (host : string) (open : C -> Attempt S E) (isolated again : C) (first_drawn : bool)
  : Routes C * result S E :=
  let key := host_key host in
  let beside := first routes key in
  if within (open beside) TRY then (routes, outcome (open beside))
  else
    let '(routes, client) := second routes key beside isolated in
    let through c := let attempt := open c in
                     {| ends := ends attempt; outcome := match outcome attempt with Ok stream => Ok (stream, c) | Err e => Err e end |} in
    let connected := two timed_out (through beside) (through client) TRY first_drawn in
    let used := match connected with Ok (_, used) => Some used | Err _ => None end in
    (settle routes key beside used again, match connected with Ok (stream, _) => Ok stream | Err e => Err e end).

(** ** An example: two streams, the second gives up after the first settled *)

Lemma service_stays_where_it_answered_witness :
  first (foldl route_call (settle (routes_new 0%nat) "onion" 0%nat (Some 1%nat) 9%nat) [Settle "onion" 0%nat None 2%nat; First "onion"]) "onion" = 1%nat.
Proof.
  apply service_stays_where_it_answered.
  - split; vm_compute; reflexivity.
  - repeat constructor. intros _. discriminate.
Defined.
