(* ===== verification/Routes.v ===== *)
(** [chain/tor.rs]: the Tor an onion host is reached through, by what the
    settings say, whether a proxy answers on the device and whether this
    build carries a client; and the address of a proxy as typed. The probe
    and the client answer what they answer; what is asked of them is part
    of the result. *)
From S2P Require Import Prelude Utf8 Text Errors Store Xpub Connect Socks Paths.
From Stdlib Require Import Ascii.

Definition DEFAULT_SYSTEM_SOCKS : string := "127.0.0.1:9050".

(** [TorSettings::system_socks]. *)
Definition system_socks (settings : TorSettings) : string := unwrap_or (Store.socks_proxy settings) DEFAULT_SYSTEM_SOCKS.

Module TorVia.
Inductive TorVia := System | Embedded.
End TorVia.
Export TorVia (TorVia).

Record TorRoute := { r_socks : string; r_via : TorVia; r_credentials : option Credentials }.

(** [socks::Access]. *)
Record Access := { ac_address : string; ac_credentials : Credentials }.

(** [TorRoute::proxy]. *)
Definition route_proxy (route : TorRoute) : string := proxy (r_socks route) (r_credentials route).

(** ** The route *)

(** What is done on the way: a proxy probed, the embedded client asked. *)
Inductive Act := Probed (address : string) | Asked.

Definition via_system (settings : TorSettings) : TorRoute := {| r_socks := system_socks settings; r_via := TorVia.System; r_credentials := None |}.
Definition via_embedded (access : Access) : TorRoute := {| r_socks := ac_address access; r_via := TorVia.Embedded; r_credentials := Some (ac_credentials access) |}.

(** The embedded client, or its absence. *)
Definition ask (embedded : option (CoreResult Access)) (absent : string) : list Act * CoreResult TorRoute :=
  match embedded with
  | Some answer => ([Asked], let? access := answer in Ok (via_embedded access))
  | None => ([], Err (Errors.Tor absent))
  end.

Definition resolve_with (settings : TorSettings) (trust_loopback_socks : bool) (probe : string -> bool) (embedded : option (CoreResult Access))
  : list Act * CoreResult TorRoute :=
  let system := system_socks settings in
  match mode settings with
  | System =>
    ([Probed system],
     if probe system then Ok (via_system settings)
     else Err (Errors.Tor ("no Tor proxy answers at " +:+ system +:+ "; start Tor, or let Gerfaut use its built-in one")))
  | Auto =>
    let probed := if trust_loopback_socks then [Probed system] else [] in
    if trust_loopback_socks && probe system then (probed, Ok (via_system settings))
    else
      let '(asked, answer) :=
        ask embedded (if trust_loopback_socks
                      then "Tor is not running on this device (" +:+ system +:+ " does not answer) and this build has no built-in Tor"
                      else "this build has no built-in Tor; to use a Tor app running on this device, choose it in the settings (" +:+ system +:+ ")") in
      (probed ++ asked, answer)
  | Embedded => ask embedded "this build has no built-in Tor; use the Tor running on this device instead"
  end.

(** What [resolve_running] asks: the embedded client as it stands. *)
Definition already_running (access : option Access) : CoreResult Access :=
  match access with Some access => Ok access | None => Err (Errors.Tor "the built-in Tor is not running yet") end.

(** The build and the process: the last route taken, and where the embedded
    client stands. *)
Record Progress := { pr_running : bool; pr_bootstrapped : bool; pr_percent : Z; pr_error : option string }.

Record TorProcess := {
  embedded_available : bool;
  trusts_loopback : bool;
  last_route : option TorRoute;
  progress : Progress;
}.

Definition took (process : TorProcess) (answer : CoreResult TorRoute) : TorProcess :=
  {| embedded_available := embedded_available process; trusts_loopback := trusts_loopback process;
     last_route := match answer with Ok route => Some route | Err _ => last_route process end; progress := progress process |}.

(** [socks_access] is what the embedded client answers when started. *)
Definition resolve (process : TorProcess) (settings : TorSettings) (probe : string -> bool) (socks_access : CoreResult Access)
  : TorProcess * list Act * CoreResult TorRoute :=
  let '(acts, answer) := resolve_with settings (trusts_loopback process) probe (if embedded_available process then Some socks_access else None) in
  (took process answer, acts, answer).

(** [running_access] is how to reach the client, once it runs. *)
Definition resolve_running (process : TorProcess) (settings : TorSettings) (probe : string -> bool) (running_access : option Access)
  : TorProcess * list Act * CoreResult TorRoute :=
  resolve process settings probe (already_running running_access).

Record TorStatus := {
  s_mode : TorMode; s_socks_proxy : string; s_via : option TorVia; s_socks : option string;
  s_running : bool; s_bootstrapped : bool; s_bootstrap_percent : Z; s_error : option string;
  s_embedded_available : bool; s_system_socks_trusted : bool;
}.

Definition status (process : TorProcess) (settings : TorSettings) : TorStatus :=
  {| s_mode := mode settings; s_socks_proxy := system_socks settings;
     s_via := option_map r_via (last_route process); s_socks := option_map r_socks (last_route process);
     s_running := pr_running (progress process); s_bootstrapped := pr_bootstrapped (progress process);
     s_bootstrap_percent := pr_percent (progress process); s_error := pr_error (progress process);
     s_embedded_available := embedded_available process; s_system_socks_trusted := trusts_loopback process |}.

(** ** The address of a proxy *)

Section Typed.
Context `{Keys} `{Urls}.

(** Whether [trim_matches] of the brackets leaves nothing. *)
Definition no_host (host : string) : bool := str_all (one_of "[]") host.

Definition parse_socks_address (value : string) : CoreResult string :=
  let invalid detail := InvalidInput "tor proxy" detail in
  let? _ := refuse_typed_secret value "tor proxy" in
  let value := trim value in
  match rsplit_once ":" value with
  | None => Err (invalid "expected host:port")
  | Some (host, port) =>
    if no_host host then Err (invalid "the address has no host")
    else match parse_u16 port with
         | Some port => if port >? 0 then Ok value else Err (invalid "the port must be between 1 and 65535")
         | None => Err (invalid "the port must be between 1 and 65535")
         end
  end.

Definition no_route (url : string) : string :=
  Errors.words (Errors.Tor ("no Tor proxy to reach " +:+ unwrap_or (host_of url) url +:+ " through")).
End Typed.

(** ** What a route keeps to *)

(** The route taken, the errors, and what is done on the way are what the
    settings say. A proxy is probed at the address in effect alone, never
    in the embedded mode, and unasked only where loopback is trusted; the
    embedded client is asked, so started, never in the system mode, and
    beside a proxy that may be taken and answers. The route is the system
    proxy, without credentials, exactly when it may be taken and answers,
    and the embedded one, under its own credentials, exactly otherwise and
    when it has an answer; no route means the words of a Tor error, or
    those of the client. *)
Theorem route_keeps_to_the_settings settings trust probe embedded :
  let '(acts, answer) := resolve_with settings trust probe embedded in
  let system := system_socks settings in
  let taken := mode settings = System \/ mode settings = Auto /\ trust = true in
  (forall address, In (Probed address) acts <-> address = system /\ taken)
  /\ (In Asked acts <-> embedded <> None /\ mode settings <> System /\ ~ (taken /\ probe system = true))
  /\ (forall route, answer = Ok route <->
        taken /\ probe system = true /\ route = via_system settings
        \/ exists access, embedded = Some (Ok access) /\ mode settings <> System /\ ~ (taken /\ probe system = true) /\ route = via_embedded access)
  /\ (forall error, answer = Err error -> (exists words, error = Errors.Tor words) \/ embedded = Some (Err error)).
Proof.
  unfold resolve_with, ask. destruct (mode settings), trust, (probe (system_socks settings)) eqn:Ep, embedded as [[access|e]|]; cbn [andb app result_bind];
    (split; [|split; [|split]]); intros; cbn [In]; naive_solver.
Qed.

(** The credentials of a route are taken apart again by the client. *)
Lemma route_taken_apart route : lacks "@" (r_socks route) = true ->
  (forall c, r_credentials route = Some c -> lacks ":" (username c) = true) ->
  split_proxy (route_proxy route) = (option_map (fun c => (username c, password c)) (r_credentials route), r_socks route).
Proof.
  intros Hs Hc. unfold route_proxy. destruct (split_proxy_proxy (r_socks route) Hs) as [Hn Hu].
  destruct (r_credentials route) as [c|]; [by apply Hu, Hc|done].
Qed.

(** A request that can wait never starts a client: it goes through one that
    runs, or through the proxy of the system, or fails. *)
Lemma running_starts_nothing process settings probe process' acts route :
  resolve_running process settings probe None = (process', acts, Ok route) -> route = via_system settings /\ probe (system_socks settings) = true.
Proof.
  unfold resolve_running, resolve, resolve_with, ask.
  by destruct (mode settings), (trusts_loopback process), (probe (system_socks settings)), (embedded_available process); intros [= <- <- <-].
Qed.

Section Right.
Context `{Keys} `{Urls}.

(** An address taken is the one typed, but for the blanks around it: a host
    and a port of the range, no space in it, no private material. *)
Lemma socks_address_right value stored : parse_socks_address value = Ok stored ->
  stored = trim value /\ reject_private_material value = Ok tt /\ has_whitespace stored = false
  /\ exists host text port, rsplit_once ":" stored = Some (host, text) /\ no_host host = false /\ parse_u16 text = Some port /\ 1 <= port <= 65535.
Proof.
  unfold parse_socks_address. destruct (refuse_typed_secret value "tor proxy") as [[]|] eqn:Et; [|done]. cbn [result_bind].
  destruct (rsplit_once ":" (trim value)) as [[host text]|] eqn:Es; [|done]. destruct (no_host host) eqn:Eh; [done|].
  destruct (parse_u16 text) as [port|] eqn:Ep; [|done]. destruct (port >? 0) eqn:E0; [|done]. intros [= <-]. pose proof (parse_u16_range _ _ Ep).
  unfold refuse_typed_secret in Et. destruct (reject_private_material value) as [[]|]; [|done]. cbn [result_bind] in Et.
  destruct (reject_private_material (typed_words value)) as [[]|]; [|done]. cbn [result_bind] in Et.
  destruct (reject_private_material (percent_decoded value)) as [[]|]; [|done]. cbn [result_bind] in Et.
  destruct (reject_private_material (typed_words (percent_decoded value))) as [[]|]; [|done]. cbn [result_bind] in Et.
  destruct (has_whitespace (trim value)) eqn:Ew; [done|]. repeat (split; [done|]). exists host, text, port. repeat (split; [done|]). lia.
Qed.
End Right.
