(* ===== verification/ManagerSettings.v ===== *)
(** [manager/settings.rs]: the settings of the vault changed one call at a
    time, and the route, through Tor or not, of what the manager asks
    beside its syncs. *)
From S2P Require Import Prelude Utf8 Text Errors Network Prefs Lock Store Xpub Connect TxExtras Endpoints Faults Certs Routes.
From Stdlib Require Import Ascii.

(** Assignment to one field of the settings. *)
Definition set_network (network : Network) (s : Settings) : Settings := {|
  active_network := network; backends := backends s; gap_limit := gap_limit s; app_prefs := app_prefs s; electrum_certs := electrum_certs s;
  app_lock := app_lock s; tor := tor s; preferences := preferences s |}.
Definition set_backends (l : list (Network * BackendConfig)) (s : Settings) : Settings := {|
  active_network := active_network s; backends := l; gap_limit := gap_limit s; app_prefs := app_prefs s; electrum_certs := electrum_certs s;
  app_lock := app_lock s; tor := tor s; preferences := preferences s |}.
Definition set_gap (gap : Z) (s : Settings) : Settings := {|
  active_network := active_network s; backends := backends s; gap_limit := gap; app_prefs := app_prefs s; electrum_certs := electrum_certs s;
  app_lock := app_lock s; tor := tor s; preferences := preferences s |}.
Definition set_certs (certs : gmap string string) (s : Settings) : Settings := {|
  active_network := active_network s; backends := backends s; gap_limit := gap_limit s; app_prefs := app_prefs s; electrum_certs := certs;
  app_lock := app_lock s; tor := tor s; preferences := preferences s |}.
Definition set_tor (t : TorSettings) (s : Settings) : Settings := {|
  active_network := active_network s; backends := backends s; gap_limit := gap_limit s; app_prefs := app_prefs s; electrum_certs := electrum_certs s;
  app_lock := app_lock s; tor := t; preferences := preferences s |}.

(** The order the source gives the networks. *)
Definition network_rank (n : Network) : Z := match n with Mainnet => 0 | Signet => 1 | Testnet4 => 2 | Regtest => 3 end.

(** [insert] of an ordered map. *)
Fixpoint insert_backend (network : Network) (config : BackendConfig) (l : list (Network * BackendConfig)) : list (Network * BackendConfig) :=
  match l with
  | [] => [(network, config)]
  | (n, c) :: l =>
    if bool_decide (n = network) then (network, config) :: l
    else if network_rank network <? network_rank n then (network, config) :: (n, c) :: l
    else (n, c) :: insert_backend network config l
  end.

(** ** The calls *)

Section Calls.
Context `{Keys} `{Urls} {W : Type}.
Abbreviation Payload := (VaultPayload W).

(** What a screen is given: the hash of the lock stays in the vault. *)
Definition settings_shown (p : Payload) : Settings :=
  let s := settings p in
  set_lock s (option_map (fun lock => {| al_kind := al_kind lock; biometric := biometric lock; secret := None |}) (Store.app_lock s)).

(** One change of the settings, saved; [save] is what the write answers. *)
Definition change_settings (p : Payload) (save : result unit VaultError) (f : Settings -> Settings) : Payload * CoreResult unit :=
  commit p save (fun p => Ok (tt, set_settings p (f (settings p)))).

Definition set_active_network (p : Payload) (network : Network) (save : result unit VaultError) : Payload * CoreResult unit :=
  change_settings p save (set_network network).

Definition keep_backend (network : Network) (config : BackendConfig) (s : Settings) : Settings :=
  set_backends (insert_backend network config (backends s)) s.
Definition keep_certificate (host fingerprint : string) (s : Settings) : Settings :=
  set_certs (<[host := upper fingerprint]> (electrum_certs s)) s.

Definition set_backend (p : Payload) (network : Network) (config : BackendConfig) (save : result unit VaultError) : Payload * CoreResult unit :=
  match canonical config with
  | Err e => (p, Err e)
  | Ok config => change_settings p save (keep_backend network config)
  end.

Definition NOT_A_FINGERPRINT : CoreError :=
  InvalidInput "certificate fingerprint" "expected 32 hexadecimal bytes separated by colons".

Definition trust_certificate (p : Payload) (url fingerprint : string) (save : result unit VaultError) : Payload * CoreResult unit :=
  if negb (is_fingerprint fingerprint) then (p, Err NOT_A_FINGERPRINT)
  else change_settings p save (keep_certificate (certificate_key url) fingerprint).

(** The Electrum server of a configuration. *)
Definition electrum_server (network : Network) (config : BackendConfig) : option string :=
  match config with
  | CustomElectrum server _ => Some server
  | Public (Some id) =>
    match find network id with
    | Some entry => if bool_decide (protocol entry = ServerProtocol.Electrum) then Some (e_url entry) else None
    | None => None
    end
  | _ => None
  end.

Definition set_backend_trusting (p : Payload) (network : Network) (config : BackendConfig) (url fingerprint : string) (save : result unit VaultError)
  : Payload * CoreResult unit :=
  if negb (is_fingerprint fingerprint) then (p, Err NOT_A_FINGERPRINT)
  else
    match canonical config with
    | Err e => (p, Err e)
    | Ok config =>
      let host := certificate_key url in
      if negb (bool_decide (option_map certificate_key (electrum_server network config) = Some host))
      then (p, Err (InvalidInput "certificate" "the certificate is not for the Electrum server of this backend"))
      else change_settings p save (fun s => keep_backend network config (keep_certificate host fingerprint s))
    end.

Definition forget_certificate (p : Payload) (host : string) (save : result unit VaultError) : Payload * CoreResult unit :=
  change_settings p save (fun s => set_certs (delete host (electrum_certs s)) s).

Definition set_gap_limit (p : Payload) (gap_limit : Z) (save : result unit VaultError) : Payload * CoreResult unit :=
  if negb ((1 <=? gap_limit) && (gap_limit <=? 500)) then (p, Err (InvalidInput "gap limit" "must be between 1 and 500"))
  else change_settings p save (set_gap gap_limit).

Definition set_app_pref (p : Payload) (key value : string) (save : result unit VaultError) : Payload * CoreResult unit :=
  if bool_decide (key ∈ LEGACY_KEYS) then (p, Err (InvalidInput "app preference" ("`" +:+ key +:+ "` is one of the shared preferences")))
  else change_settings p save (fun s => set_app_prefs s (<[key := value]> (app_prefs s))).

Definition set_preferences (p : Payload) (change : PreferencesChange) (save : result unit VaultError) : Payload * CoreResult Preferences :=
  commit p save (fun p => let changed := Prefs.change (preferences (settings p)) change in
                          Ok (changed, set_settings p (Store.set_preferences (settings p) changed))).

(** The proxy typed, blank for the default. *)
Definition typed_proxy (typed : option string) : CoreResult (option string) :=
  match typed with
  | None => Ok None
  | Some typed =>
    let value := trim typed in
    if bool_decide (value = "") then Ok None else let? address := parse_socks_address value in Ok (Some address)
  end.

Definition set_tor_settings (p : Payload) (t : TorSettings) (save : result unit VaultError) : Payload * CoreResult unit :=
  match typed_proxy (Store.socks_proxy t) with
  | Err e => (p, Err e)
  | Ok socks_proxy => change_settings p save (set_tor {| Store.mode := Store.mode t; Store.socks_proxy := socks_proxy |})
  end.

(** [ManagerState::chain_setup]. *)
Definition chain_setup (p : Payload) (network : Network) : BackendConfig * TrustedCerts :=
  (backend_for (settings p) network, electrum_certs (settings p)).

(** What the settings screen says of a certificate. *)
Inductive Inspection := NotTls | TorIdentity | TlsVerdict (verdict : Verdict).
Inductive CertificateStatus :=
| StatusNotTls | StatusTor | StatusTrusted
| StatusPinned (fingerprint : string)
| StatusUnknown (fingerprint reason : string) (subject : option string) (expires : option Z)
| StatusChanged (stored presented : string)
| StatusUnreachable (detail : string).
Record CertificateReport := { cr_host : string; cr_status : CertificateStatus }.

(** [inspected] is what the inspection answers, given the pin. *)
Definition inspect_certificate (p : Payload) (url : string) (inspected : option string -> result Inspection string) : CoreResult CertificateReport :=
  let? _ := refuse_wallet_material url in
  let host := certificate_key url in
  let pin := electrum_certs (settings p) !! host in
  Ok {| cr_host := host;
        cr_status := match inspected pin with
                     | Ok NotTls => StatusNotTls
                     | Ok TorIdentity => StatusTor
                     | Ok (TlsVerdict Verdict.Trusted) => StatusTrusted
                     | Ok (TlsVerdict Verdict.Pinned) => StatusPinned (unwrap_or pin "")
                     | Ok (TlsVerdict (Verdict.Unknown fingerprint reason subject expires)) => StatusUnknown fingerprint reason subject expires
                     | Ok (TlsVerdict (Verdict.Changed stored presented)) => StatusChanged stored presented
                     | Err detail => StatusUnreachable detail
                     end |}.

(** ** Through Tor or not *)

Definition tor_status (p : Payload) (process : TorProcess) : TorStatus := status process (tor (settings p)).

(** What resolving a route meets: the probe, the embedded client when it is
    started, and as it runs. *)
Record Device := { probes : string -> bool; starts : CoreResult Access; runs : option Access }.

Definition tor_connect (p : Payload) (process : TorProcess) (device : Device) : TorProcess * list Act * CoreResult TorRoute :=
  resolve process (tor (settings p)) (probes device) (starts device).

(** The proxy of the route resolved. *)
Definition its_proxy (resolved : TorProcess * list Act * CoreResult TorRoute) : TorProcess * list Act * CoreResult (option string) :=
  let '(process, acts, answer) := resolved in
  (process, acts, let? route := answer in Ok (Some (route_proxy route))).

Definition tor_proxy_for (p : Payload) (process : TorProcess) (device : Device) (endpoints : list Endpoint)
  : TorProcess * list Act * CoreResult (option string) :=
  if negb (needs_tor endpoints) then (process, [], Ok None) else its_proxy (tor_connect p process device).

Definition backend_needs_tor (p : Payload) : bool :=
  let network := active_network (settings p) in
  let '(config, certs) := chain_setup p network in
  match endpoints config network certs with Ok endpoints => needs_tor endpoints | Err _ => false end.

Definition config_needs_tor (certs : TrustedCerts) (entry : Network * BackendConfig) : bool :=
  match endpoints entry.2 entry.1 certs with
  | Ok endpoints => needs_tor endpoints
  | Err _ =>
    match entry.2 with
    | CustomEsplora url _ | CustomElectrum url _ => contains ".onion" (lower url)
    | Public _ => false
    end
  end.

Definition uses_tor (p : Payload) : bool :=
  backend_needs_tor p || any (config_needs_tor (electrum_certs (settings p))) (backends (settings p)).

Definition beside_syncs_proxy (p : Payload) (process : TorProcess) (device : Device) : TorProcess * list Act * CoreResult (option string) :=
  if negb (uses_tor p) then (process, [], Ok None) else its_proxy (tor_connect p process device).

Definition running_beside_syncs_proxy (p : Payload) (process : TorProcess) (device : Device) : TorProcess * list Act * CoreResult (option string) :=
  if negb (uses_tor p) then (process, [], Ok None)
  else its_proxy (resolve_running process (tor (settings p)) (probes device) (runs device)).
End Calls.

(** ** What the settings keep *)

Section Kept.
Context `{Keys} `{Urls} {W : Type}.
Abbreviation Payload := (VaultPayload W).

Inductive SettingsCall :=
| SetActiveNetwork (network : Network)
| SetBackend (network : Network) (config : BackendConfig)
| TrustCertificate (url fingerprint : string)
| SetBackendTrusting (network : Network) (config : BackendConfig) (url fingerprint : string)
| ForgetCertificate (host : string)
| SetGapLimit (gap_limit : Z)
| SetAppPref (key value : string)
| SetPreferences (change : PreferencesChange)
| SetTorSettings (t : TorSettings).

(** A call, and what the write of the vault answers it. *)
Definition settings_call (p : Payload) (call : SettingsCall * result unit VaultError) : Payload :=
  let save := call.2 in
  match call.1 with
  | SetActiveNetwork network => (set_active_network p network save).1
  | SetBackend network config => (set_backend p network config save).1
  | TrustCertificate url fingerprint => (trust_certificate p url fingerprint save).1
  | SetBackendTrusting network config url fingerprint => (set_backend_trusting p network config url fingerprint save).1
  | ForgetCertificate host => (forget_certificate p host save).1
  | SetGapLimit gap_limit => (set_gap_limit p gap_limit save).1
  | SetAppPref key value => (set_app_pref p key value save).1
  | SetPreferences change => (set_preferences p change save).1
  | SetTorSettings t => (set_tor_settings p t save).1
  end.

(** A fingerprint as the handshake writes one. *)
Definition a_fingerprint (fingerprint : string) : Prop :=
  exists digest, length digest = 32%nat /\ Forall in_u8 digest /\ fingerprint = fingerprint_text digest.

(** The networks of an ordered map, in their order. *)
Definition in_order (l : list (Network * BackendConfig)) : Prop := StronglySorted (fun a b => network_rank a.1 < network_rank b.1) l.

(** One backend a network, each in the form a scan reads it into; a gap
    limit in range; every certificate kept by a fingerprint of thirty-two
    bytes; a pair of currency and source that is quoted, in its own place
    only; a proxy with a host and a port. *)
Record well_set (s : Settings) : Prop := {
  one_backend : in_order (backends s);
  backends_canonical : Forall (fun entry => exists typed, canonical typed = Ok entry.2) (backends s);
  gap_in_range : 1 <= gap_limit s <= 500;
  certs_fingerprints : forall host fingerprint, electrum_certs s !! host = Some fingerprint -> a_fingerprint fingerprint;
  no_legacy_key : forall key, In key LEGACY_KEYS -> app_prefs s !! key = None;
  quoted : consistent (preferences s);
  proxy_right : forall address, Store.socks_proxy (tor s) = Some address -> exists typed, parse_socks_address typed = Ok address;
}.

Lemma network_rank_inj n m : network_rank n = network_rank m -> n = m.
Proof. by destruct n, m. Qed.

Lemma insert_backend_In network config l e : In e (insert_backend network config l) -> e = (network, config) \/ In e l.
Proof.
  induction l as [|[n c] l IH]; cbn [insert_backend]; [by intros [<-|[]]; left|]. case_bool_decide.
  { intros [<-|Hin]; [by left|by right; right]. }
  destruct (_ <? _); [intros [<-|Hin]; [by left|by right]|]. intros [<-|Hin]; [by right; left|]. destruct (IH Hin) as [->|?]; [by left|by right; right].
Qed.

Lemma insert_backend_in_order network config l : in_order l -> in_order (insert_backend network config l).
Proof.
  unfold in_order. induction l as [|[n c] l IH]; intros Hs; cbn [insert_backend]; [by repeat constructor|]. apply StronglySorted_inv in Hs as [Hs Hall].
  case_bool_decide as En; [subst n; by constructor|]. destruct (network_rank network <? network_rank n) eqn:Er.
  - constructor; [by constructor|]. constructor; [cbn [fst]; lia|]. eapply List.Forall_impl; [|exact Hall]. cbn [fst]. intros e ?. lia.
  - constructor; [by apply IH|]. apply List.Forall_forall. intros e [->|Hin]%insert_backend_In; cbn [fst].
    + assert (network_rank n <> network_rank network) by (intros ?%network_rank_inj; done). lia.
    + rewrite List.Forall_forall in Hall. by apply (Hall e).
Qed.

Lemma insert_backend_found network config l : List.find (fun e => bool_decide (e.1 = network)) (insert_backend network config l) = Some (network, config).
Proof.
  induction l as [|[n c] l IH]; cbn [insert_backend]; [cbn [List.find fst]; by case_bool_decide|]. case_bool_decide as En.
  { cbn [List.find fst]. by case_bool_decide. }
  destruct (_ <? _); cbn [List.find fst]; [by case_bool_decide|]. by case_bool_decide.
Qed.

Lemma upper_fingerprint fingerprint : is_fingerprint fingerprint = true -> a_fingerprint (upper fingerprint).
Proof. intros (digest & ? & ? & ->)%fingerprint_read. by exists digest. Qed.

(** What a change of the settings comes to. *)
Lemma change_settings_cases (p : Payload) save f :
  change_settings p save f = (p, Err (match save with Ok _ => NOT_A_FINGERPRINT | Err e => Vault e end)) /\ save <> Ok tt
  \/ change_settings p save f = (set_settings p (f (settings p)), Ok tt) /\ save = Ok tt.
Proof. unfold change_settings, commit. destruct save as [[]|e]; [by right|by left]. Qed.

Lemma keep_backend_well network config s : (exists typed, canonical typed = Ok config) -> well_set s -> well_set (keep_backend network config s).
Proof.
  intros Hc [Ho Hb Hg Hf Hl Hq Hp]. split; try done; cbn [backends keep_backend set_backends]; [by apply insert_backend_in_order|].
  apply List.Forall_forall. intros e [->|Hin]%insert_backend_In; [done|]. rewrite List.Forall_forall in Hb. by apply Hb.
Qed.

Lemma keep_certificate_well host fingerprint s : is_fingerprint fingerprint = true -> well_set s -> well_set (keep_certificate host fingerprint s).
Proof.
  intros Hf' [Ho Hb Hg Hf Hl Hq Hp]. split; try done. cbn [electrum_certs keep_certificate set_certs]. intros host' fp.
  destruct (decide (host = host')) as [<-|Hne]; [rewrite lookup_insert_eq; intros [= <-]; by apply upper_fingerprint|].
  rewrite lookup_insert_ne by done. apply Hf.
Qed.

(** A change that keeps the settings well set, whether or not it is saved,
    leaves the lock and everything else of the vault as it was. *)
Lemma change_keeps (p : Payload) save f : (forall s, well_set s -> well_set (f s)) -> (forall s, Store.app_lock (f s) = Store.app_lock s) ->
  well_set (settings p) -> let p' := (change_settings p save f).1 in
  well_set (settings p') /\ Store.app_lock (settings p') = Store.app_lock (settings p) /\ set_settings p' (settings p) = p.
Proof.
  intros Hf Hl Hw. destruct (change_settings_cases p save f) as [[-> _]|[-> _]]; cbn [fst settings set_settings]; (split; [by auto|split; [by auto|by destruct p]]).
Qed.

Lemma kept (p : Payload) : well_set (settings p) -> well_set (settings p) /\ Store.app_lock (settings p) = Store.app_lock (settings p) /\ set_settings p (settings p) = p.
Proof. by destruct p. Qed.

Lemma tor_settings_keep (p : Payload) t save : well_set (settings p) -> let p' := (set_tor_settings p t save).1 in
  well_set (settings p') /\ Store.app_lock (settings p') = Store.app_lock (settings p) /\ set_settings p' (settings p) = p.
Proof.
  intros Hw. unfold set_tor_settings. destruct (typed_proxy (Store.socks_proxy t)) as [proxy|e] eqn:Ep; [|by apply kept].
  apply change_keeps; [|done|done]. intros s [Ho Hb Hg Hf Hl Hq Hp]. split; try done. cbn [tor set_tor Store.socks_proxy]. intros address ->.
  unfold typed_proxy in Ep. destruct (Store.socks_proxy t) as [typed|]; [|done]. case_bool_decide; [done|].
  destruct (parse_socks_address (trim typed)) as [a|] eqn:Ea; [|done]. injection Ep as <-. by exists (trim typed).
Qed.

Lemma preferences_keep (p : Payload) change save : well_set (settings p) -> let p' := (set_preferences p change save).1 in
  well_set (settings p') /\ Store.app_lock (settings p') = Store.app_lock (settings p) /\ set_settings p' (settings p) = p.
Proof.
  intros Hw. unfold set_preferences, commit. destruct save as [[]|e]; [|by apply kept]. cbn [fst settings set_settings].
  split; [|by destruct p]. destruct Hw as [Ho Hb Hg Hf Hl Hq Hp]. split; try done. apply quotable_consistent.
Qed.

Lemma call_keeps (p : Payload) call : well_set (settings p) -> let p' := settings_call p call in
  well_set (settings p') /\ Store.app_lock (settings p') = Store.app_lock (settings p) /\ set_settings p' (settings p) = p.
Proof.
  intros Hw. destruct call as [call save]. unfold settings_call. cbn [fst snd]. destruct call as [n|n c|u fp|n c u fp|h|g|k v|ch|t].
  - apply change_keeps; [|done|done]. by intros s [].
  - unfold set_backend. destruct (canonical c) as [config|e] eqn:Ec; [|by apply kept]. apply change_keeps; [|done|done]. intros s. apply keep_backend_well. by exists c.
  - unfold trust_certificate. destruct (is_fingerprint fp) eqn:Ef; [|by apply kept]. apply change_keeps; [|done|done]. intros s. by apply keep_certificate_well.
  - unfold set_backend_trusting. destruct (is_fingerprint fp) eqn:Ef; [|by apply kept]. cbn [negb]. destruct (canonical c) as [config|e] eqn:Ec; [|by apply kept].
    destruct (negb _); [by apply kept|]. apply change_keeps; [|done|done]. intros s Hs. apply keep_backend_well; [by exists c|]. by apply keep_certificate_well.
  - apply change_keeps; [|done|done]. intros s [Ho Hb Hg Hf Hl Hq Hp]. split; try done. cbn [electrum_certs set_certs]. intros host fp.
    destruct (decide (h = host)) as [<-|Hne]; [by rewrite lookup_delete_eq|rewrite lookup_delete_ne by done; apply Hf].
  - unfold set_gap_limit. destruct ((1 <=? g) && (g <=? 500)) eqn:Eg; [|by apply kept]. apply change_keeps; [|done|done].
    intros s [Ho Hb Hg Hf Hl Hq Hp]. split; try done. cbn [gap_limit set_gap]. lia.
  - unfold set_app_pref. case_bool_decide as Ek; [by apply kept|]. apply change_keeps; [|done|done]. intros s [Ho Hb Hg Hf Hl Hq Hp]. split; try done.
    cbn [app_prefs set_app_prefs]. intros key Hkey. rewrite lookup_insert_ne; [by apply Hl|]. intros <-. by apply Ek, list_elem_of_In.
  - by apply preferences_keep.
  - by apply tor_settings_keep.
Qed.

(** C20: Whatever is asked of the settings, in whatever order, and whether or
    not the vault could be written: there is one backend a network, in the
    form a scan reads it into; the gap limit is between 1 and 500; each
    certificate is kept by a fingerprint the handshake could write; the
    shared preferences are a pair that is quoted, kept nowhere else; a Tor
    proxy has a host and a port. And nothing of it touches the lock, the
    wallets, or anything else of the vault. *)
Theorem settings_stay_well calls : forall p : Payload, well_set (settings p) -> let p' := foldl settings_call p calls in
  well_set (settings p') /\ Store.app_lock (settings p') = Store.app_lock (settings p) /\ set_settings p' (settings p) = p.
Proof.
  induction calls as [|call calls IH]; intros p Hw; [by apply kept|]. cbn [foldl]. destruct (call_keeps p call Hw) as (Hw' & Hl & Hs).
  destruct (IH _ Hw') as (Hw'' & Hl' & Hs'). cbn zeta in *. split; [done|]. split; [congruence|].
  etrans; [|exact Hs]. exact (f_equal (fun q => set_settings q (settings p)) Hs').
Qed.
End Kept.

(** ** A backend and its certificate *)

Section Trusted.
Context `{Keys} `{UrlLaws} {W : Type}.
Abbreviation Payload := (VaultPayload W).

(** An Electrum address that is stored, if it is read again, is read as
    itself. *)
Lemma stored_read_again typed stored again : stored_form Electrum typed = Ok stored -> contains ".:" stored = false ->
  stored_form Electrum stored = Ok again -> again = stored.
Proof.
  intros Hs Hset Ha. destruct (stored_form_stays _ _ Hs) as [Hstays Hscheme]. enough (Hr : refuse_wallet_material stored = Ok tt).
  { rewrite (Hstays Hset Hr) in Ha. by injection Ha. }
  destruct (stored_address _ _ Hs) as (x & host & p & t & Hx & Hp & ->).
  unfold stored_form in Ha. cbv zeta in Ha. rewrite (trim_graph _ (address_graph x _ p _ Hx Hp)) in Ha.
  unfold contains at 1 in Ha. rewrite split_address in Ha. cbn [orb] in Ha. unfold parse_backend in Ha.
  rewrite (trim_graph _ (address_graph x _ p _ Hx Hp)) in Ha. case_bool_decide; [done|].
  destruct (List.find _ WALLET_PREFIXES) as [[]|]; [done|]. by destruct (refuse_wallet_material _) as [[]|].
Qed.

Lemma canonical_again config stored again server network : canonical config = Ok stored -> electrum_server network stored = Some server ->
  contains ".:" server = false -> canonical stored = Ok again -> again = stored.
Proof.
  intros Hc He Hset Ha. destruct config as [id|u own|u own]; cbn [canonical] in Hc.
  - injection Hc as <-. cbn [canonical] in Ha. congruence.
  - destruct (stored_form Esplora u); [|done]. injection Hc as <-. done.
  - destruct (stored_form Electrum u) as [stored'|] eqn:Es; [|done]. injection Hc as <-. cbn [canonical] in Ha.
    destruct (stored_form Electrum stored') as [again'|] eqn:Ea; [|done]. injection Ha as <-. cbn [electrum_server] in He. injection He as <-. f_equal. by eapply stored_read_again.
Qed.

(** C21: A backend and the certificate of its Electrum server are kept
    together, or neither is: kept exactly when the fingerprint is one, the
    address reads, the certificate is of the very server of that backend,
    and the vault is written. From then on, whatever is asked of that
    network goes to that server alone, over a connection held to that
    fingerprint: so long as the server's host, read once, ends in no dot
    (one typed with two or more is not settled: [Connect.dots_read_apart]). *)
Theorem backend_kept_with_its_certificate (p : Payload) network config url fingerprint save :
  let '(p', answer) := set_backend_trusting p network config url fingerprint save in
  (answer = Ok tt <-> is_fingerprint fingerprint = true /\ save = Ok tt /\ exists stored server, canonical config = Ok stored
     /\ electrum_server network stored = Some server /\ certificate_key server = certificate_key url)
  /\ (answer <> Ok tt -> p' = p)
  /\ (answer = Ok tt -> exists server, electrum_server network (backend_for (settings p') network) = Some server
      /\ pin_for (electrum_certs (settings p')) server = Some (upper fingerprint)
      /\ forall asked, contains ".:" server = false -> endpoints (backend_for (settings p') network) network (electrum_certs (settings p')) = Ok asked ->
         asked = [Endpoint.Electrum {| t_url := server; Endpoints.pin := Some (upper fingerprint) |}]).
Proof.
  unfold set_backend_trusting. destruct (is_fingerprint fingerprint); cbn [negb]; [|split; [split; [done|by intros (? & _)]|by split]].
  destruct (canonical config) as [stored|e] eqn:Ec; [|split; [split; [done|by intros (_ & _ & ? & ? & ? & _)]|by split]].
  case_bool_decide as Hk; cbn [negb].
  2:{ split; [split; [intros [=]|]|by split]. intros (_ & _ & st & server & [= <-] & Hs & Hk'). destruct Hk. rewrite Hs. cbn [option_map]. by rewrite Hk'. }
  destruct (electrum_server network stored) as [server|] eqn:Es; [|done]. injection Hk as Hk.
  destruct (change_settings_cases p save (fun s => keep_backend network stored (keep_certificate (certificate_key url) fingerprint s))) as [[-> Hn]|[-> Hsave]].
  { split; [split; [by destruct save as [[]|]|by intros (_ & ? & _)]|by split]. }
  split; [split; [intros _; split; [done|]; split; [done|]; by exists stored, server|done]|]. split; [done|]. intros _. exists server.
  cbn [settings set_settings]. set (s' := keep_backend _ _ _). assert (Hb : backend_for s' network = stored).
  { unfold backend_for, s'. cbn [backends keep_backend set_backends]. by rewrite insert_backend_found. }
  assert (Hpin : pin_for (electrum_certs s') server = Some (upper fingerprint)).
  { unfold pin_for, s'. cbn [electrum_certs keep_backend set_backends keep_certificate set_certs]. rewrite Hk. apply lookup_insert_eq. }
  rewrite Hb. split; [done|]. split; [done|]. clearbody s'. intros asked Hset. unfold endpoints. destruct (canonical stored) as [again|e] eqn:Ea; [|done]. cbn [result_bind].
  rewrite (canonical_again _ _ _ _ _ Ec Es Hset Ea). unfold electrum_server in Es. destruct stored as [[id|]|u own|u own]; try done.
  - destruct (find network id) as [entry|]; [|done]. case_bool_decide as Hproto; [|done]. rewrite Hproto. injection Es as <-. intros [= <-].
    unfold target_of. by rewrite Hpin.
  - injection Es as <-. intros [= <-]. unfold target_of. by rewrite Hpin.
Qed.
End Trusted.

(** ** Onions *)

Section Onions.
Context `{Keys} `{Urls} {W : Type}.
Abbreviation Payload := (VaultPayload W).

Lemma its_proxy_through resolved : let '(process', acts, answer) := its_proxy resolved in
  answer <> Ok None /\ (forall proxy, answer = Ok (Some proxy) <-> exists route, resolved.2 = Ok route /\ proxy = route_proxy route)
  /\ (forall error, answer = Err error -> resolved.2 = Err error) /\ process' = resolved.1.1 /\ acts = resolved.1.2.
Proof.
  destruct resolved as [[process acts] [route|e]]; cbn [its_proxy result_bind fst snd].
  - split; [done|]. split; [|done]. intros proxy. split; [intros [= <-]; by exists route|by intros (r & [= <-] & ->)].
  - split; [done|]. split; [|split; [by intros error [= ->]|done]]. intros proxy. split; [done|]. by intros (? & ? & _).
Qed.

(** The proxy Tor is reached through: the system's, where it may be taken
    and answers, or the embedded client's, under its own credentials. *)
Definition may_take (t : TorSettings) (process : TorProcess) : Prop := Store.mode t = System \/ Store.mode t = Auto /\ trusts_loopback process = true.
Definition tor_answers_at (t : TorSettings) (process : TorProcess) (probe : string -> bool) (access : CoreResult Access) (proxy : string) : Prop :=
  may_take t process /\ probe (system_socks t) = true /\ proxy = system_socks t
  \/ embedded_available process = true /\ Store.mode t <> System /\ ~ (may_take t process /\ probe (system_socks t) = true)
     /\ exists a, access = Ok a /\ proxy = Socks.username (ac_credentials a) +:+ ":" +:+ Socks.password (ac_credentials a) +:+ "@" +:+ ac_address a.

(** What a request that must go through Tor comes to: that proxy, exactly,
    or an error; and what was probed and started for it. *)
Definition through_tor (t : TorSettings) (process : TorProcess) (probe : string -> bool) (access : CoreResult Access)
    (outcome : TorProcess * list Act * CoreResult (option string)) : Prop :=
  let '(process', acts, answer) := outcome in
  answer <> Ok None /\ (forall proxy, answer = Ok (Some proxy) <-> tor_answers_at t process probe access proxy)
  /\ (forall error, answer = Err error -> (exists words, error = Errors.Tor words) \/ access = Err error)
  /\ (forall address, In (Probed address) acts <-> address = system_socks t /\ may_take t process)
  /\ (In Asked acts <-> embedded_available process = true /\ Store.mode t <> System /\ ~ (may_take t process /\ probe (system_socks t) = true))
  /\ (forall proxy, answer = Ok (Some proxy) -> exists route, last_route process' = Some route /\ proxy = route_proxy route).

Lemma resolved_through_tor t process probe access : through_tor t process probe access (its_proxy (resolve process t probe access)).
Proof.
  pose proof (its_proxy_through (resolve process t probe access)) as Hi. pose proof (route_keeps_to_the_settings t (trusts_loopback process) probe (if embedded_available process then Some access else None)) as Hk.
  unfold resolve in *. destruct (resolve_with _ _ _ _) as [acts answer]. destruct (its_proxy (took process answer, acts, answer)) as [[process' acts'] outcome]. cbn [fst snd] in Hi.
  destruct Hi as (Hnone & Hproxy & Herror & -> & ->). destruct Hk as (Hprobed & Hasked & Hroute & Herr). unfold through_tor, tor_answers_at, may_take.
  split; [exact Hnone|]. split; [|split; [|split; [exact Hprobed|split; [|intros proxy (route & -> & ->)%Hproxy; by exists route]]]].
  - intros proxy. rewrite Hproxy. split.
    + intros (route & [(Ht & Hp & ->)|(a & He & Hm & Hn & ->)]%Hroute & ->); [by left|]. right. destruct (embedded_available process); [|done]. injection He as ->. repeat (split; [done|]). by exists a.
    + intros [(Ht & Hp & ->)|(He & Hm & Hn & a & -> & ->)]; [exists (via_system t); split; [apply Hroute; by left|done]|]. exists (via_embedded a). split; [|done]. apply Hroute. right. exists a. by rewrite He.
  - intros error He. destruct (Herr error (Herror error He)) as [?|Ha]; [by left|]. right. destruct (embedded_available process); [|done]. by injection Ha.
  - rewrite Hasked. destruct (embedded_available process); naive_solver.
Qed.

(** A host of the backends is an onion, the one of the network shown or the
    one kept for any other; or an address no longer read names one. *)
Definition reaches_an_onion (p : Payload) : Prop :=
  let s := settings p in
  let names config network := exists asked e, endpoints config network (electrum_certs s) = Ok asked /\ In e asked /\ endpoint_is_onion e = true in
  names (backend_for s (active_network s)) (active_network s)
  \/ exists network config, In (network, config) (backends s)
     /\ (names config network
         \/ is_ok (endpoints config network (electrum_certs s)) = false
            /\ exists url own, (config = CustomEsplora url own \/ config = CustomElectrum url own) /\ contains ".onion" (lower url) = true).

Lemma needs_tor_right asked : needs_tor asked = true <-> exists e, In e asked /\ endpoint_is_onion e = true.
Proof. unfold needs_tor, any. apply existsb_exists. Qed.

Lemma uses_tor_right (p : Payload) : uses_tor p = true <-> reaches_an_onion p.
Proof.
  unfold uses_tor, reaches_an_onion, backend_needs_tor, chain_setup. cbn zeta. rewrite orb_true_iff. apply Morphisms_Prop.or_iff_morphism.
  - destruct (endpoints _ _ _) as [asked|e]; [|split; [done|by intros (? & ? & ? & _)]]. rewrite needs_tor_right.
    split; [intros (e & He); by exists asked, e|intros (? & e & [= <-] & He); by exists e].
  - unfold any. rewrite existsb_exists. split.
    + intros ([network config] & Hin & Hc). exists network, config. split; [done|]. unfold config_needs_tor in Hc. cbn [fst snd] in Hc. destruct (endpoints config network _) as [asked|e].
      * left. apply needs_tor_right in Hc as (e & He). by exists asked, e.
      * right. split; [done|]. destruct config as [id|url own|url own]; [done|exists url, own; by split; [left|]|exists url, own; by split; [right|]].
    + intros (network & config & Hin & Hc). exists (network, config). split; [done|]. unfold config_needs_tor. cbn [fst snd].
      destruct Hc as [(asked & e & -> & He)|(Hno & url & own & Hconfig & Hc)]; [apply needs_tor_right; by exists e|].
      destruct (endpoints config network _) as [asked|e]; [done|]. by destruct Hconfig as [->| ->].
Qed.

(** C35: A sync goes through Tor exactly when a host it asks is an onion, and
    what is asked beside the syncs exactly when a backend kept for any
    network reaches one, or so much as names one in an address no longer
    read. It then has the proxy Tor answers at, as the settings say, or
    fails, and is never sent in the clear: the system's proxy, where it may
    be taken and answers, or that of the embedded client, started for it
    unless the request only takes a client that runs. Otherwise no proxy
    is probed and no client started. *)
Theorem onions_go_through_tor (p : Payload) process device :
  let t := tor (settings p) in
  let sync := tor_proxy_for p process device in
  let beside := beside_syncs_proxy p process device in
  let running := running_beside_syncs_proxy p process device in
  (forall asked, (forall e, In e asked -> endpoint_is_onion e = false) -> sync asked = (process, [], Ok None))
  /\ (forall asked e, In e asked -> endpoint_is_onion e = true -> through_tor t process (probes device) (starts device) (sync asked))
  /\ (~ reaches_an_onion p -> beside = (process, [], Ok None) /\ running = (process, [], Ok None))
  /\ (reaches_an_onion p -> through_tor t process (probes device) (starts device) beside
      /\ through_tor t process (probes device) (match runs device with Some access => Ok access | None => Err (Errors.Tor "the built-in Tor is not running yet") end) running).
Proof.
  cbn zeta. unfold tor_proxy_for, beside_syncs_proxy, running_beside_syncs_proxy, tor_connect, resolve_running. split; [|split; [|split]].
  - intros asked Hall. destruct (needs_tor asked) eqn:En; [|done]. apply needs_tor_right in En as (e & Hin & He). by rewrite (Hall e Hin) in He.
  - intros asked e Hin He. assert (needs_tor asked = true) as -> by (apply needs_tor_right; by exists e). apply resolved_through_tor.
  - intros Hno. destruct (uses_tor p) eqn:Eu; [|done]. by apply uses_tor_right in Eu.
  - intros Hr%uses_tor_right. rewrite Hr. split; apply resolved_through_tor.
Qed.
End Onions.

(** ** An example: a server of one's own, and its certificate *)

#[local] Existing Instances Xpub.Demo.demo_keys Connect.DemoUrls.demo_urls Connect.DemoUrls.demo_url_laws.

Module Demo.
Definition vault : VaultPayload unit := default_payload.
Definition digest : list Z := repeat 171 32.
Definition typed : string := lower (fingerprint_text digest).
Definition backend : BackendConfig := CustomElectrum "Node.Example" true.
Definition calls : list (SettingsCall * result unit VaultError) :=
  [(SetBackendTrusting Mainnet backend "node.example:50002" typed, Ok tt); (SetGapLimit 501, Ok tt); (SetGapLimit 40, Ok tt);
   (SetAppPref "theme" "dark", Ok tt); (SetActiveNetwork Signet, Err AlreadyOpen); (SetTorSettings {| mode := System; socks_proxy := Some " 127.0.0.1:9150 " |}, Ok tt)].
Definition kept : Settings := settings (foldl settings_call vault calls).

Lemma default_well : well_set (settings vault).
Proof. split; cbn; try done; try lia; by repeat constructor. Qed.

Example demo_kept : backends kept = [(Mainnet, CustomElectrum "ssl://node.example:50002" true)] /\ gap_limit kept = 40 /\ active_network kept = Mainnet
  /\ tor kept = {| mode := System; socks_proxy := Some "127.0.0.1:9150" |} /\ electrum_certs kept !! "node.example:50002" = Some (fingerprint_text digest).
Proof. vm_compute. by repeat split. Qed.
End Demo.

Lemma settings_stay_well_witness : well_set (settings Demo.vault) /\ well_set Demo.kept.
Proof.
  split; [exact Demo.default_well|]. exact (proj1 (settings_stay_well Demo.calls Demo.vault Demo.default_well)).
Defined.

Lemma backend_kept_with_its_certificate_witness :
  exists p' server, set_backend_trusting Demo.vault Mainnet Demo.backend "node.example:50002" Demo.typed (Ok tt) = (p', Ok tt)
  /\ electrum_server Mainnet (backend_for (settings p') Mainnet) = Some server
  /\ pin_for (electrum_certs (settings p')) server = Some (upper Demo.typed).
Proof.
  pose proof (backend_kept_with_its_certificate Demo.vault Mainnet Demo.backend "node.example:50002" Demo.typed (Ok tt)) as Hk.
  assert (Hok : (set_backend_trusting Demo.vault Mainnet Demo.backend "node.example:50002" Demo.typed (Ok tt)).2 = Ok tt) by (vm_compute; reflexivity).
  destruct (set_backend_trusting _ _ _ _ _ _) as [p' answer]. cbn [snd] in Hok. destruct Hk as (_ & _ & Hk). destruct (Hk Hok) as (server & Hs & Hp & _).
  exists p', server. split; [by rewrite Hok|]. split; [exact Hs|exact Hp].
Defined.
