(* ===== verification/Lookups.v ===== *)
(** What one server is asked about a transaction to send, and about the
    coins it spends ([chain/mod.rs], [chain/electrum.rs],
    [chain/esplora.rs]): the coins and what spends them, the tip, the
    broadcast, the standing. A server is the record of what it answers;
    the connection, the deadline and the client library are under it. *)
From S2P Require Import Prelude Utf8 Text Network Confirm Connect TxExtras Signing Endpoints Faults Decode Preview.
From Stdlib Require Import Ascii.

(** ** The failures of the Electrum client *)

(** A JSON-RPC error: its [code] when an integer, its [message] when a
    text, and the whole as JSON. *)
Record RpcError := { code : option Z; rpc_message : option string; json_text : string }.

(** [electrum_client::Error], the variants the source tells apart. *)
Inductive ElectrumError :=
| AllAttemptsErrored (errors : list ElectrumError)
| IOError (error : IoError)
| SharedIOError (error : IoError)
| Protocol (value : RpcError)
| Message (text : string)
| Unexpected
| AnotherError.

Definition TIMEOUT : Z := 20.
Definition TOR_TIMEOUT : Z := 60.

(** The words of an error, whole; then as a screen may show them. *)
Definition message_of (error : RpcError) : string := unwrap_or (rpc_message error) (json_text error).
Definition words (error : RpcError) : string := server_words (message_of error).

Definition out_of_budget (error : RpcError) : bool :=
  bool_decide (code error = Some 2)
  && match rpc_message error with Some message => contains "budget exhausted" (lower message) | None => false end.

(** The last of the attempts, which the source goes down to wherever it
    reads an error. *)
Fixpoint freshest (error : ElectrumError) : option ElectrumError :=
  match error with
  | AllAttemptsErrored errors =>
    (fix last_of (errors : list ElectrumError) : option ElectrumError :=
       match errors with
       | [] => None
       | error :: errors => match errors with [] => freshest error | _ => last_of errors end
       end) errors
  | _ => Some error
  end.

Definition describe (timeout : Z) (error : ElectrumError) : Fault :=
  match freshest error with
  | Some (IOError io) | Some (SharedIOError io) => of_io io (Some timeout)
  | Some (Protocol value) =>
    let refused := "the server refused the request: " +:+ words value in
    if out_of_budget value then outage refused else other refused
  | Some (Message text) => other text
  | Some Unexpected => other "unexpected response"
  | _ => other "request failed"
  end.

Definition failure (timeout : Z) (error : ElectrumError) : Failure := Transport (describe timeout error).

(** [patiently]: the answer, and the waits left to the connection. *)
Definition PAUSES : nat := 3.
Definition patiently {T} (pauses : nat) (first again : result T ElectrumError) : result T ElectrumError * nat :=
  match first with
  | Err (Protocol error) =>
    if out_of_budget error then match pauses with O => (first, O) | S pauses => (again, pauses) end else (first, pauses)
  | _ => (first, pauses)
  end.

Definition no_such_transaction (error : ElectrumError) : bool :=
  match freshest error with
  | Some (Protocol value) =>
    let words := lower (words value) in
    any (fun phrase => contains phrase words) ["no such mempool or blockchain transaction"; "missing transaction"; "not found"]
  | _ => false
  end.

(** [refused] of the sync: an error of the server's own. *)
Definition refused (error : ElectrumError) : bool :=
  match freshest error with Some (Protocol _) => true | _ => false end.

Section Lookups.
Context `{Transactions} `{Bitcoin}.
Variable json_error : string -> option (option Z * option string).

Definition sent_failure (timeout : Z) (error : ElectrumError) : Failure :=
  match freshest error with
  | Some (Protocol value) =>
    if out_of_budget value then failure timeout error
    else match node_verdict json_error (message_of value) with
         | Some words => Refused words
         | None => failure timeout error
         end
  | _ => failure timeout error
  end.

(** ** An Electrum server *)

(** What a connection comes to: the failure that ends it or its deadline,
    if one does; the answer to each call, as [patiently] takes it. A
    history lists transactions and their heights, oldest first, and the
    coins of a script their transaction and output. [block_header] is
    told which of two asks it is. *)
Record ElectrumServer := {
  run_end : option Fault;
  transaction_broadcast : Transaction -> result string ElectrumError;
  transaction_get : string -> result Transaction ElectrumError;
  script_list_unspent : list Z -> result (list (string * Z)) ElectrumError;
  script_get_history : list Z -> result (list (string * Z)) ElectrumError;
  batch_transaction_get : list string -> result (list Transaction) ElectrumError;
  block_headers_subscribe : result (Z * Header) ElectrumError;
  transaction_get_merkle : string -> Z -> result GetMerkleRes ElectrumError;
  block_header : bool -> Z -> result Header ElectrumError;
  block_headers : Z -> Z -> result (list Header) ElectrumError;
}.

(** [on_one]. *)
Definition on_one {T} (server : ElectrumServer) (operation : result T Failure) : result T Failure :=
  match run_end server with Some fault => Err (Transport fault) | None => operation end.

Definition map_err {A E F} (f : E -> F) (r : result A E) : result A F :=
  match r with Ok a => Ok a | Err e => Err (f e) end.

Definition electrum_broadcast (server : ElectrumServer) (timeout : Z) (tx : Transaction) : result string Failure :=
  on_one server (map_err (sent_failure timeout) (transaction_broadcast server tx)).

Definition electrum_fetch_tx (server : ElectrumServer) (timeout : Z) (txid : string) : result (option Transaction) Failure :=
  on_one server
    match transaction_get server txid with
    | Ok tx => Ok (Some tx)
    | Err error => if no_such_transaction error then Ok None else Err (failure timeout error)
    end.

Definition SPENDER_LOOKUPS : nat := 32.

Record PrevoutFacts := { txout : option TxOut; pf_spent : option bool; pf_spent_by : option SpentBy }.

(** The transactions that came at the coin's height or after, the newest
    first. *)
Definition candidates_of (history : list (string * Z)) (outpoint : OutPoint) : list (string * Z) :=
  let funded := option_map snd (List.find (fun entry => bool_decide (fst entry = op_txid outpoint)) history) in
  retain (fun '(_, height) => match funded with
                              | Some funded => if 0 <? funded then (height <=? 0) || (funded <=? height) else height <=? 0
                              | None => true
                              end)
    (retain (fun '(tx_hash, _) => negb (bool_decide (tx_hash = op_txid outpoint))) (rev history)).

Definition spender_among (txs : list Transaction) (candidates : list (string * Z)) (outpoint : OutPoint) : option SpentBy :=
  find_map (fun '(tx, (txid, height)) =>
      if spends tx txid outpoint then Some {| sb_txid := txid; sb_confirmed := 0 <? height; sb_verified := true |} else None)
    (combine txs candidates).

Definition spent_status (server : ElectrumServer) (outpoint : OutPoint) (script : list Z) : option bool * option SpentBy :=
  match script_list_unspent server script with
  | Err _ => (None, None)
  | Ok coins =>
    if any (fun '(tx_hash, tx_pos) => bool_decide (tx_hash = op_txid outpoint) && (tx_pos =? vout outpoint)) coins then (Some false, None)
    else
      match script_get_history server script with
      | Err _ => (None, None)
      | Ok history =>
        let candidates := candidates_of history outpoint in
        let read := Nat.min (length candidates) SPENDER_LOOKUPS in
        match batch_transaction_get server (List.map fst (take read candidates)) with
        | Err _ => (None, None)
        | Ok txs =>
          match spender_among txs candidates outpoint with
          | Some spent_by => (Some true, Some spent_by)
          | None => if (read <? length candidates)%nat then (Some true, None) else (None, None)
          end
        end
      end
  end.

Definition prevout_on (server : ElectrumServer) (timeout : Z) (outpoint : OutPoint) : result PrevoutFacts Failure :=
  let? txout := match transaction_get server (op_txid outpoint) with
                | Ok tx => map_err Transport (output_at tx outpoint)
                | Err error => if no_such_transaction error then Ok None else Err (failure timeout error)
                end in
  let '(spent, spent_by) := match txout with
                            | Some coin => spent_status server outpoint (script_pubkey coin)
                            | None => (None, None)
                            end in
  Ok {| txout := txout; pf_spent := spent; pf_spent_by := spent_by |}.

(** One coin after the other: the facts of those answered about, and the
    failure that stopped the rest. *)
Fixpoint each_prevout (ask : OutPoint -> result PrevoutFacts Failure) (outpoints : list OutPoint) : list PrevoutFacts * option Failure :=
  match outpoints with
  | [] => ([], None)
  | outpoint :: outpoints =>
    match ask outpoint with
    | Ok fact => let '(facts, failed) := each_prevout ask outpoints in (fact :: facts, failed)
    | Err failure => ([], Some failure)
    end
  end.

Definition electrum_fetch_prevouts (server : ElectrumServer) (timeout : Z) (outpoints : list OutPoint) : list PrevoutFacts * option Failure :=
  match run_end server with
  | Some fault => ([], Some (Transport fault))
  | None => each_prevout (prevout_on server timeout) outpoints
  end.

Definition electrum_tip_height (server : ElectrumServer) (timeout : Z) : result Z Failure :=
  on_one server
    match block_headers_subscribe server with
    | Ok (height, _) => Ok (wrap_u32 height)
    | Err error => Err (failure timeout error)
    end.

(** ** Where a transaction stands, over Electrum *)

Section Standing.
(** The bytes of a transaction's id; and the time of a genesis block. *)
Variables (txid_hash : string -> Hash) (genesis_time : Network -> Z).

(** [headers_from]: each answer that is not empty gives one header more,
    so [count] asks are enough. *)
Fixpoint headers_from (server : ElectrumServer) (fuel : nat) (from count : Z) (headers : list Header) : result (option (list Header)) ElectrumError :=
  let have := Z.of_nat (length headers) in
  match fuel with
  | O => Ok (Some (take (Z.to_nat count) headers))
  | S fuel =>
    if have <? count then
      match block_headers server (from + have) (count - have) with
      | Ok [] => Ok (Some (take (Z.to_nat count) headers))
      | Ok answer => headers_from server fuel from count (headers ++ answer)
      | Err error => if refused error then Ok None else Err error
      end
    else Ok (Some (take (Z.to_nat count) headers))
  end.

(** The chains to the checkpoints, read into the session and for this
    look. *)
Fixpoint read_chains (server : ElectrumServer) (timeout : Z) (network : Network) (session : Chained) (read : list (Z * list Hash))
  (wanted : list (Z * Z)) : Chained * result (list (Z * list Hash)) Fault :=
  match wanted with
  | [] => (session, Ok read)
  | (from, count) :: wanted =>
    match headers_from server (Z.to_nat count) from count [] with
    | Err error => (session, Err (describe timeout error))
    | Ok None => read_chains server timeout network session read wanted
    | Ok (Some headers) =>
      match chain_to_checkpoint session network from headers with
      | (session, None) => (session, Err false_proof)
      | (session, Some hashes) => read_chains server timeout network session (read ++ [(from, hashes)]) wanted
      end
    end
  end.

Definition proven_on (server : ElectrumServer) (timeout : Z) (network : Network) (session : Chained) (txid : string) (height tip : Z)
  : Chained * result bool Fault :=
  match above_the_tip height tip with
  | Some False_ => (session, Err false_proof)
  | Some _ => (session, Ok false)
  | None =>
    match transaction_get_merkle server txid height with
    | Err _ => (session, Ok false)
    | Ok branch =>
      match block_header server false height with
      | Err error => (session, Err (describe timeout error))
      | Ok header =>
        let proof := match check_confirmation network height header (txid_hash txid) branch with
                     | Elsewhere =>
                       match block_header server true height with
                       | Ok again => Ok (recheck network height header again (txid_hash txid) branch)
                       | Err error => Err (describe timeout error)
                       end
                     | verdict => Ok verdict
                     end in
        match proof with
        | Err fault => (session, Err fault)
        | Ok Unsure => (session, Ok false)
        | Ok False_ | Ok Elsewhere => (session, Err false_proof)
        | Ok Holds =>
          let hash := block_hash header in
          match read_chains server timeout network session [] (chains_to_read session network [(height, hash)]) with
          | (session, Err fault) => (session, Err fault)
          | (session, Ok read) =>
            match chained session network height hash read with
            | Holds => (session, Ok true)
            | Unsure => (session, Ok false)
            | False_ | Elsewhere => (session, Err false_proof)
            end
          end
        end
      end
    end
  end.

(** Found, the height it is proven confirmed at, the tip. *)
Fixpoint standing_through (server : ElectrumServer) (timeout : Z) (network : Network) (session : Chained) (txid : string) (tip : Z)
  (refusal : option ElectrumError) (scripts : list (list Z)) : Chained * result (bool * option Z * Z) Fault :=
  match scripts with
  | [] => (session, Err (match refusal with Some error => describe timeout error | None => other "the transaction creates nothing" end))
  | script :: scripts =>
    match script_get_history server script with
    | Err (Protocol error) => standing_through server timeout network session txid tip (Some (Protocol error)) scripts
    | Err error => (session, Err (describe timeout error))
    | Ok history =>
      match List.find (fun entry => bool_decide (fst entry = txid)) history with
      | None => (session, Ok (false, None, tip))
      | Some (_, height) =>
        if 0 <? height then
          match proven_on server timeout network session txid height tip with
          | (session, Ok proven) => (session, Ok (true, if proven then Some height else None, tip))
          | (session, Err fault) => (session, Err fault)
          end
        else (session, Ok (true, None, tip))
      end
    end
  end.

Definition electrum_tx_standing (server : ElectrumServer) (timeout : Z) (network : Network) (session : Chained) (txid : string)
  (scripts : list (list Z)) (now : Z) : Chained * result (bool * option Z * Z) Fault :=
  match run_end server with
  | Some fault => (session, Err fault)
  | None =>
    match block_headers_subscribe server with
    | Err error => (session, Err (describe timeout error))
    | Ok (height, header) =>
      if u32_max <? height then (session, Err (other IMPOSSIBLE_TIP))
      else match checked_tip genesis_time network height header now with
           | Err fault => (session, Err fault)
           | Ok tip => standing_through server timeout network session txid tip None scripts
           end
    end
  end.
End Standing.

(** ** An Esplora server *)

(** An output's status as the server says it: spent, by what, and whether
    that one is confirmed. *)
Record OutputStatus := { os_spent : bool; os_txid : option string; os_confirmed : option bool }.

Record EsploraServer := {
  es_tx : string -> result (option Transaction) Fault;
  es_output_status : string -> Z -> result (option OutputStatus) Fault;
  es_height : result Z Fault;
  es_post : Transaction -> result (Z * string) Fault;
}.

Definition describe_status (status : Z) : Fault :=
  let reason :=
    if status =? 400 then "bad request"
    else if (status =? 401) || (status =? 403) then "access refused"
    else if status =? 404 then "not found"
    else if status =? 429 then "rate limited"
    else if (500 <=? status) && (status <=? 599) then "server error"
    else "unexpected status" in
  let words := "HTTP " +:+ dec status +:+ ": " +:+ reason in
  if (status =? 429) || ((500 <=? status) && (status <=? 599)) then outage words else other words.

Section Esplora.
(** [text.parse::<Txid>()]. *)
Variable parse_txid : string -> option string.

Definition post_tx (server : EsploraServer) (tx : Transaction) : result string Failure :=
  match es_post server tx with
  | Err fault => Err (Transport fault)
  | Ok (status, body) =>
    let text := lossy body in
    if (200 <=? status) && (status <? 300) then
      match parse_txid (trim text) with
      | Some txid => Ok txid
      | None => Err (Transport (other ("the server answered " +:+ server_words (trim text) +:+ " instead of a txid")))
      end
    else
      match if status =? 400 then node_verdict json_error text else None with
      | Some words => Err (Refused words)
      | None => Err (Transport (describe_status status))
      end
  end.

Definition shows_spend (server : EsploraServer) (txid : string) (outpoint : OutPoint) : bool :=
  match es_tx server txid with Ok (Some tx) => spends tx txid outpoint | _ => false end.

Definition fetch_prevout (server : EsploraServer) (outpoint : OutPoint) : result PrevoutFacts Failure :=
  match es_tx server (op_txid outpoint) with
  | Err fault => Err (Transport fault)
  | Ok None => Ok {| txout := None; pf_spent := None; pf_spent_by := None |}
  | Ok (Some tx) =>
    let? txout := map_err Transport (output_at tx outpoint) in
    let status := match es_output_status server (op_txid outpoint) (vout outpoint) with Ok status => status | Err _ => None end in
    let spent_by :=
      match status with
      | Some {| os_spent := true; os_txid := Some txid; os_confirmed := Some confirmed |} =>
        Some {| sb_txid := txid; sb_confirmed := confirmed; sb_verified := confirmed && shows_spend server txid outpoint |}
      | _ => None
      end in
    Ok {| txout := txout; pf_spent := option_map os_spent status; pf_spent_by := spent_by |}
  end.

(** ** Any endpoint *)

Context `{Keys} `{Urls}.

(** The servers behind the endpoints: what building an HTTP client comes
    to, what an Electrum server answers. *)
Record Servers := { esplora : string -> result EsploraServer Fault; electrum : Target -> ElectrumServer }.
Variable servers : Servers.

Definition timeout_for (target : Target) : Z := if is_onion (t_url target) then TOR_TIMEOUT else TIMEOUT.

Definition fetch_tx (endpoint : Endpoint) (txid : string) : result (option Transaction) Failure :=
  match endpoint with
  | Endpoint.Esplora url => map_err Transport (let? client := esplora servers url in es_tx client txid)
  | Endpoint.Electrum target => electrum_fetch_tx (electrum servers target) (timeout_for target) txid
  end.

Definition broadcast (endpoint : Endpoint) (tx : Transaction) : result unit Failure :=
  let txid := compute_txid tx in
  let answered := match endpoint with
                  | Endpoint.Esplora url => let? client := map_err Transport (esplora servers url) in post_tx client tx
                  | Endpoint.Electrum target => electrum_broadcast (electrum servers target) (timeout_for target) tx
                  end in
  match answered with
  | Ok answered =>
    if bool_decide (answered = txid) then Ok tt
    else Err (Transport (other ("the server answered with the txid " +:+ answered +:+ ", not " +:+ txid)))
  | Err (Refused words) =>
    if already_known words then
      match fetch_tx endpoint txid with
      | Ok (Some held) =>
        if bool_decide (compute_txid held = txid) then Ok tt
        else Err (Transport (other ("the server handed over another transaction as " +:+ txid)))
      | Ok None => Ok tt
      | Err failure => Err failure
      end
    else Err (Refused words)
  | Err failure => Err failure
  end.

Definition fetch_prevouts (endpoint : Endpoint) (outpoints : list OutPoint) : list PrevoutFacts * option Failure :=
  match endpoint with
  | Endpoint.Esplora url =>
    match esplora servers url with
    | Err fault => ([], Some (Transport fault))
    | Ok client => each_prevout (fetch_prevout client) outpoints
    end
  | Endpoint.Electrum target => electrum_fetch_prevouts (electrum servers target) (timeout_for target) outpoints
  end.

Definition tip_height (endpoint : Endpoint) : result Z Failure :=
  match endpoint with
  | Endpoint.Esplora url => map_err Transport (let? client := esplora servers url in es_height client)
  | Endpoint.Electrum target => electrum_tip_height (electrum servers target) (timeout_for target)
  end.
End Esplora.
End Lookups.

(** ** What a server can make us believe *)

Section Promises.
Context `{Transactions} `{Bitcoin}.
Variable json_error : string -> option (option Z * option string).

(** What a server has handed over ([hands]) and says is in a block
    ([mined]), it being asked: a coin is paid when a transaction of its id
    was handed over and pays it; a spend is seen when the transaction of
    its id was handed over and spends the coin, and, when it is told as
    confirmed, the server says it is in a block. *)
Definition paid_coin (hands : string -> Transaction -> Prop) (outpoint : OutPoint) (coin : TxOut) : Prop :=
  exists tx, hands (op_txid outpoint) tx /\ compute_txid tx = op_txid outpoint
    /\ output tx !! Z.to_nat (vout outpoint) = Some coin.
Definition seen_spend (hands : string -> Transaction -> Prop) (mined : OutPoint -> string -> Prop) (outpoint : OutPoint) (by_ : SpentBy) : Prop :=
  exists tx, hands (sb_txid by_) tx /\ compute_txid tx = sb_txid by_ /\ In outpoint (List.map previous_output (input tx))
    /\ (sb_confirmed by_ = true -> mined outpoint (sb_txid by_)).

Definition believable hands mined (outpoint : OutPoint) (fact : PrevoutFacts) : Prop :=
  (forall coin, txout fact = Some coin -> paid_coin hands outpoint coin)
  /\ (forall by_, pf_spent_by fact = Some by_ ->
        pf_spent fact = Some true /\ (sb_verified by_ = true -> seen_spend hands mined outpoint by_)).

(** An Electrum server hands over a transaction under an id alone or in
    a batch; it says a spender is in a block by the height it lists it at
    in the history of the coin's script. *)
Definition electrum_hands (server : ElectrumServer) (txid : string) (tx : Transaction) : Prop :=
  transaction_get server txid = Ok tx
  \/ exists asked txs, batch_transaction_get server asked = Ok txs /\ In tx txs.
Definition electrum_mined (server : ElectrumServer) (outpoint : OutPoint) (txid : string) : Prop :=
  exists coin history height, paid_coin (electrum_hands server) outpoint coin
    /\ script_get_history server (script_pubkey coin) = Ok history /\ In (txid, height) history /\ 0 < height.

(** An Esplora server, by the transactions it has, and by the standing it
    gives the output. *)
Definition esplora_hands (server : EsploraServer) (txid : string) (tx : Transaction) : Prop := es_tx server txid = Ok (Some tx).
Definition esplora_mined (server : EsploraServer) (outpoint : OutPoint) (txid : string) : Prop :=
  es_output_status server (op_txid outpoint) (vout outpoint)
  = Ok (Some {| os_spent := true; os_txid := Some txid; os_confirmed := Some true |}).

Lemma output_at_real tx outpoint coin : output_at tx outpoint = Ok (Some coin) ->
  compute_txid tx = op_txid outpoint /\ output tx !! Z.to_nat (vout outpoint) = Some coin.
Proof.
  unfold output_at. destruct (decide (compute_txid tx = op_txid outpoint)); [|by rewrite bool_decide_false].
  rewrite bool_decide_true by done. by intros [= Hc].
Qed.

Lemma spends_seen tx txid outpoint : spends tx txid outpoint = true -> compute_txid tx = txid /\ In outpoint (List.map previous_output (input tx)).
Proof.
  unfold spends. intros [Ht (i & Hi & Ho)%any_true]%andb_true_iff. apply bool_decide_eq_true in Ht, Ho. split; [done|]. rewrite <- Ho. by apply in_map.
Qed.

Lemma spender_among_seen txs candidates outpoint by_ : spender_among txs candidates outpoint = Some by_ ->
  sb_verified by_ = true /\ exists i tx height, candidates !! i = Some (sb_txid by_, height) /\ txs !! i = Some tx
    /\ compute_txid tx = sb_txid by_ /\ In outpoint (List.map previous_output (input tx)) /\ sb_confirmed by_ = (0 <? height).
Proof.
  revert candidates. induction txs as [|tx txs IH]; intros [|[txid height] candidates]; [done..|]. unfold spender_among. cbn [combine find_map].
  destruct (spends tx txid outpoint) eqn:E.
  - intros [= <-]. apply spends_seen in E as [? ?]. split; [done|]. by exists 0%nat, tx, height.
  - intros (? & i & t & h & Hf)%IH. split; [done|]. by exists (S i), t, h.
Qed.

Lemma spent_status_right server outpoint coin spent by_ : paid_coin (electrum_hands server) outpoint coin ->
  spent_status server outpoint (script_pubkey coin) = (spent, Some by_) ->
  spent = Some true /\ seen_spend (electrum_hands server) (electrum_mined server) outpoint by_.
Proof.
  unfold spent_status. intros Hcoin. destruct (script_list_unspent server _); [|done]. destruct (any _ _); [done|].
  destruct (script_get_history server _) as [history|] eqn:Eh; [|done]. set (candidates := candidates_of history outpoint).
  destruct (batch_transaction_get server _) as [txs|] eqn:Eb; [|done].
  destruct (spender_among _ _ _) as [found|] eqn:E; [|by destruct (_ <? _)%nat]. intros [= <- <-]. split; [done|].
  apply spender_among_seen in E as (_ & i & tx & height & Hi & Ht & Hid & Hin & Hc). exists tx.
  assert (Hh : In (sb_txid found, height) history).
  { apply list_elem_of_lookup_2, list_elem_of_In in Hi. unfold candidates, candidates_of in Hi.
    apply retain_In in Hi as [[Hi _]%retain_In _]. by apply in_rev in Hi. }
  split; [|split; [done|split; [done|]]].
  - right. eexists _, txs. split; [exact Eb|]. by eapply list_elem_of_In, list_elem_of_lookup_2.
  - intros Hconf. exists coin, history, height. rewrite Hconf in Hc. symmetry in Hc. apply Z.ltb_lt in Hc. done.
Qed.

Lemma prevout_on_believable server timeout outpoint fact : prevout_on server timeout outpoint = Ok fact ->
  believable (electrum_hands server) (electrum_mined server) outpoint fact.
Proof.
  unfold prevout_on.
  assert (Hgot : forall coin, match transaction_get server (op_txid outpoint) with
                | Ok tx => map_err Transport (output_at tx outpoint)
                | Err error => if no_such_transaction error then Ok None else Err (failure timeout error)
                end = Ok (Some coin) -> paid_coin (electrum_hands server) outpoint coin).
  { intros coin. destruct (transaction_get server _) as [tx|e] eqn:Et; [|by destruct (no_such_transaction e)].
    destruct (output_at tx outpoint) as [o|] eqn:Eo; [|done]. cbn. intros [= ->]. apply output_at_real in Eo. exists tx. split; [by left|done]. }
  destruct (match transaction_get server _ with Ok _ => _ | Err _ => _ end) as [[coin|]|] eqn:E; cbn [result_bind]; [| |done].
  - destruct (spent_status server outpoint (script_pubkey coin)) as [spent by_] eqn:Es. intros [= <-]. split; cbn [txout pf_spent pf_spent_by].
    + intros c [= <-]. by apply Hgot.
    + intros b ->. apply spent_status_right in Es as [-> ?]; [done|by apply Hgot].
  - intros [= <-]. by split.
Qed.

Lemma fetch_prevout_believable server outpoint fact : fetch_prevout server outpoint = Ok fact ->
  believable (esplora_hands server) (esplora_mined server) outpoint fact.
Proof.
  unfold fetch_prevout. destruct (es_tx server (op_txid outpoint)) as [[tx|]|] eqn:Et; [| |done].
  - destruct (output_at tx outpoint) as [out|] eqn:Eo; [|done]. cbn [map_err result_bind]. intros [= <-]. split; cbn [txout pf_spent pf_spent_by].
    + intros coin ->. apply output_at_real in Eo. by exists tx.
    + intros by_. destruct (es_output_status server _ _) as [[[[] [txid|] [confirmed|]]|]|] eqn:Eos; try done.
      intros [= <-]. split; [done|]. cbn [sb_verified]. intros [-> Hs]%andb_true_iff. unfold shows_spend in Hs.
      destruct (es_tx server txid) as [[tx'|]|] eqn:Et'; try done. apply spends_seen in Hs as [? ?]. by exists tx'.
  - intros [= <-]. by split.
Qed.

Lemma each_prevout_right hands mined ask outpoints : (forall o fact, ask o = Ok fact -> believable hands mined o fact) -> (forall o f, ask o = Err f -> exists fault, f = Transport fault) ->
  let '(facts, failed) := each_prevout ask outpoints in
  (forall i o fact, outpoints !! i = Some o -> facts !! i = Some fact -> believable hands mined o fact)
  /\ (length facts <= length outpoints)%nat /\ (failed = None -> length facts = length outpoints)
  /\ forall f, failed = Some f -> exists fault, f = Transport fault.
Proof.
  intros Hok Herr. induction outpoints as [|o outpoints IH]; cbn [each_prevout]; [by split|].
  destruct (ask o) as [fact|f] eqn:E; [|split; [done|]; split; [simpl; lia|]; split; [done|]; intros ? [= <-]; by eapply Herr].
  destruct (each_prevout ask outpoints) as [facts failed]. destruct IH as (H1' & H2' & H3' & H4'). split; [|split; [|split]]; [|simpl; lia|intros Hf; simpl; by rewrite H3'|done].
  intros [|i] o' fact'; cbn; [intros [= <-] [= <-]; by apply Hok|apply H1'].
Qed.

Lemma prevout_on_transport server timeout o f : prevout_on server timeout o = Err f -> exists fault, f = Transport fault.
Proof.
  unfold prevout_on. destruct (transaction_get server (op_txid o)) as [tx|e].
  - destruct (output_at tx o) as [[coin|]|fault]; cbn [map_err result_bind]; [by destruct (spent_status _ _ _)|done|]. intros [= <-]. by exists fault.
  - destruct (no_such_transaction e); cbn [result_bind]; [done|]. intros [= <-]. by eexists.
Qed.

Lemma fetch_prevout_transport server o f : fetch_prevout server o = Err f -> exists fault, f = Transport fault.
Proof.
  unfold fetch_prevout. destruct (es_tx server (op_txid o)) as [[tx|]|fault]; [|done|intros [= <-]; by exists fault].
  destruct (output_at tx o) as [out|fault]; [done|]. cbn [map_err result_bind]. intros [= <-]. by exists fault.
Qed.

Context `{Keys} `{Urls}.

(** The same of any endpoint. *)
Definition hands_over (servers : Servers) (endpoint : Endpoint) (txid : string) (tx : Transaction) : Prop :=
  match endpoint with
  | Endpoint.Esplora url => exists client, esplora servers url = Ok client /\ esplora_hands client txid tx
  | Endpoint.Electrum target => electrum_hands (electrum servers target) txid tx
  end.
Definition says_mined (servers : Servers) (endpoint : Endpoint) (outpoint : OutPoint) (txid : string) : Prop :=
  match endpoint with
  | Endpoint.Esplora url => exists client, esplora servers url = Ok client /\ esplora_mined client outpoint txid
  | Endpoint.Electrum target => electrum_mined (electrum servers target) outpoint txid
  end.

Lemma believable_mono (hands hands' : string -> Transaction -> Prop) (mined mined' : OutPoint -> string -> Prop) o fact :
  (forall txid tx, hands txid tx -> hands' txid tx) -> (forall txid, mined o txid -> mined' o txid) ->
  believable hands mined o fact -> believable hands' mined' o fact.
Proof.
  intros Hh Hm [Hc Hs]. split.
  - intros coin (tx & ? & ?)%Hc. exists tx. auto.
  - intros by_ [? Hv]%Hs. split; [done|]. intros (tx & ? & ? & ? & ?)%Hv. exists tx. split_and!; auto.
Qed.

(** What a server says of coins is believable, coin by coin, whichever
    it is, and what stops it is never a refusal. *)
Theorem lookups_are_believable servers endpoint outpoints :
  let '(facts, failed) := fetch_prevouts servers endpoint outpoints in
  (forall i o fact, outpoints !! i = Some o -> facts !! i = Some fact -> believable (hands_over servers endpoint) (says_mined servers endpoint) o fact)
  /\ (length facts <= length outpoints)%nat /\ (failed = None -> length facts = length outpoints)
  /\ forall f, failed = Some f -> exists fault, f = Transport fault.
Proof.
  assert (Hnone : forall fault, let '(facts, failed) := ([] : list PrevoutFacts, Some (Transport fault)) in
    (forall i o fact, outpoints !! i = Some o -> facts !! i = Some fact -> believable (hands_over servers endpoint) (says_mined servers endpoint) o fact)
    /\ (length facts <= length outpoints)%nat /\ (failed = None -> length facts = length outpoints)
    /\ forall f, failed = Some f -> exists fault, f = Transport fault).
  { intros fault. split; [done|]. split; [simpl; lia|]. split; [done|]. intros f [= <-]. by exists fault. }
  destruct endpoint as [url|target]; cbn [fetch_prevouts].
  - destruct (esplora servers url) as [client|fault] eqn:Ec; [|apply Hnone]. apply each_prevout_right; [|apply fetch_prevout_transport].
    intros o fact Hf%fetch_prevout_believable. eapply believable_mono; [..|exact Hf]; intros; by exists client.
  - unfold electrum_fetch_prevouts. destruct (run_end _) as [fault|]; [apply Hnone|].
    apply each_prevout_right; [apply prevout_on_believable|apply prevout_on_transport].
Qed.

Lemma fetch_tx_transport servers endpoint txid f : fetch_tx servers endpoint txid = Err f -> exists fault, f = Transport fault.
Proof.
  destruct endpoint as [url|target]; cbn [fetch_tx].
  - destruct (esplora servers url) as [client|fault]; cbn [result_bind map_err]; [|intros [= <-]; by exists fault].
    destruct (es_tx client txid) as [|fault]; [done|]. intros [= <-]. by exists fault.
  - unfold electrum_fetch_tx, on_one. destruct (run_end _) as [fault|]; [intros [= <-]; by exists fault|].
    destruct (transaction_get _ _) as [|e]; [done|]. destruct (no_such_transaction e); [done|]. intros [= <-]. by eexists.
Qed.

Variable parse_txid : string -> option string.

(** What the server answered a transaction with: the id it gave, or its
    words, as it sent them. *)
Definition server_answer (servers : Servers) (endpoint : Endpoint) (tx : Transaction) : result string Failure :=
  match endpoint with
  | Endpoint.Esplora url => let? client := map_err Transport (esplora servers url) in post_tx json_error parse_txid client tx
  | Endpoint.Electrum target => electrum_broadcast json_error (electrum servers target) (timeout_for target) tx
  end.

Lemma answer_refused servers endpoint tx words : server_answer servers endpoint tx = Err (Refused words) ->
  exists message, node_verdict json_error message = Some words.
Proof.
  destruct endpoint as [url|target]; cbn [server_answer].
  - destruct (esplora servers url) as [client|fault]; cbn [map_err result_bind]; [|done]. unfold post_tx. destruct (es_post client tx) as [[status body]|]; [|done].
    destruct (_ && _); [by destruct (parse_txid _)|]. destruct (status =? 400); [|done].
    destruct (node_verdict json_error (lossy body)) as [w|] eqn:E; [|done]. intros [= <-]. by eexists.
  - unfold electrum_broadcast, on_one. destruct (run_end _); [done|]. destruct (transaction_broadcast _ tx) as [|e]; [done|]. cbn [map_err].
    unfold sent_failure, failure. destruct (freshest e) as [[]|]; try done. destruct (out_of_budget value); [done|].
    destruct (node_verdict json_error (message_of value)) as [w|] eqn:E; [|done]. intros [= <-]. by eexists.
Qed.

(** Sent means that the server answered with the id of the transaction,
    or that its node said it holds it already and the server did not hand
    over another; refused means that the node's verdict was read in the
    server's words, and was not that. Anything else is a failure of the
    way there. *)
Theorem broadcast_outcome servers endpoint tx :
  match broadcast json_error parse_txid servers endpoint tx with
  | Ok _ => server_answer servers endpoint tx = Ok (compute_txid tx)
      \/ exists words, server_answer servers endpoint tx = Err (Refused words) /\ already_known words = true
           /\ exists held, fetch_tx servers endpoint (compute_txid tx) = Ok held /\ forall other, held = Some other -> compute_txid other = compute_txid tx
  | Err (Refused words) => server_answer servers endpoint tx = Err (Refused words) /\ already_known words = false
      /\ exists message, node_verdict json_error message = Some words
  | Err (Transport _) => server_answer servers endpoint tx <> Ok (compute_txid tx)
  end.
Proof.
  unfold broadcast. fold (server_answer servers endpoint tx). destruct (server_answer servers endpoint tx) as [answered|[fault|words]] eqn:Ea.
  - destruct (decide (answered = compute_txid tx)) as [->|Hne]; [rewrite bool_decide_true by done; by left|]. rewrite bool_decide_false by done. congruence.
  - done.
  - destruct (already_known words) eqn:Ek.
    + destruct (fetch_tx servers endpoint (compute_txid tx)) as [[held|]|f] eqn:Ef.
      * destruct (decide (compute_txid held = compute_txid tx)); [rewrite bool_decide_true by done|by rewrite bool_decide_false].
        right. exists words. split; [done|]. split; [done|]. exists (Some held). split; [done|]. by intros ? [= <-].
      * right. exists words. split; [done|]. split; [done|]. by exists None.
      * apply fetch_tx_transport in Ef as [fault ->]. done.
    + split; [done|]. split; [done|]. by apply answer_refused in Ea.
Qed.

End Promises.

Section Proven.
Context `{Bitcoin}.
Variables (txid_hash : string -> Hash) (genesis_time : Network -> Z).

(** What the server gave of a block proves the transaction in it. *)
Definition proven_by_server (server : ElectrumServer) (network : Network) (txid : string) (height : Z) (header : Header) : Prop :=
  block_header server false height = Ok header
  /\ exists branch, transaction_get_merkle server txid height = Ok branch /\ check_confirmation network height header (txid_hash txid) branch = Holds.

(** A header the server sent with others. *)
Definition sent (server : ElectrumServer) (header : Header) : Prop := exists from count headers, block_headers server from count = Ok headers /\ In header headers.

(** The blocks of the chain, none of which a header sent only resembles. *)
Record honest_view (server : ElectrumServer) (session : Chained) (real : Z -> Header) : Prop := {
  hv_chain : real_chain real;
  hv_session : real_session real session;
  hv_headers : forall header h, sent server header -> block_hash header = block_hash (real h) -> header = real h;
}.

(** The block is the chain's own, wherever there is a checkpoint above it. *)
Definition chained_to_the_real (server : ElectrumServer) (network : Network) (session session' : Chained) (height : Z) (header : Header) : Prop :=
  forall real, honest_view server session real ->
  real_session real session' /\ (checkpoint_for network height <> None -> block_hash header = block_hash (real height)).

Lemma headers_from_sent server fuel from count : forall headers got, headers_from server fuel from count headers = Ok (Some got) ->
  forall header, In header got -> In header headers \/ sent server header.
Proof.
  assert (Htake : forall (l : list Header) n x, In x (take n l) -> In x l) by (intros l n x Hx%list_elem_of_In; apply elem_of_take in Hx as (i & Hx & _); by apply list_elem_of_lookup_2, list_elem_of_In in Hx).
  induction fuel as [|fuel IH]; intros headers got; cbn [headers_from]; [intros [= <-] header Hin; left; by apply Htake in Hin|].
  destruct (_ <? count); [|intros [= <-] header Hin; left; by apply Htake in Hin].
  destruct (block_headers server _ _) as [[|h answer]|error] eqn:Ea; [intros [= <-] header Hin; left; by apply Htake in Hin| |by destruct (refused error)].
  intros Hgot header Hin. destruct (IH _ _ Hgot _ Hin) as [[?|Hnew]%in_app_or|?]; [by left| |by right]. right. by eexists _, _, _.
Qed.

Lemma read_chains_real server timeout network real wanted : forall session read session' read',
  honest_view server session real -> real_reads real read -> Forall (fun w => 0 <= w.1) wanted ->
  read_chains server timeout network session read wanted = (session', Ok read') -> real_session real session' /\ real_reads real read'.
Proof.
  induction wanted as [|[from count] wanted IH]; intros session read session' read' Hv Hr Hw; cbn [read_chains]; [intros [= <- <-]; split; [apply Hv|done]|].
  apply list.Forall_cons in Hw as [Hfrom Hw]. cbn [fst] in Hfrom. destruct (headers_from server _ from count []) as [[headers|]|] eqn:Eh; [|by apply IH|done].
  destruct Hv as [Hchain Hsession Hheaders]. assert (Hsec : no_second_header real headers).
  { intros header h Hin. destruct (headers_from_sent _ _ _ _ _ _ Eh header Hin) as [[]|Hsent]. by apply Hheaders. }
  pose proof (chain_to_checkpoint_real real session network from headers Hfrom Hchain Hsec Hsession) as Hc. destruct (chain_to_checkpoint session network from headers) as [next [hashes|]]; [|done].
  destruct Hc as [Hnext Hhashes]. apply IH; [by split| |done]. intros f hs [Hin|[[= <- <-]|[]]]%in_app_or; [by apply Hr|]. by apply Hhashes.
Qed.

(** To prove one block, a chain from it on is all there is to read. *)
Lemma chains_from session network height hash : Forall (fun w => w.1 = height) (chains_to_read session network [(height, hash)]).
Proof.
  apply List.Forall_forall. intros [from count] Hin%sort_by_In. apply in_map_iff in Hin as ([key [low end_]] & [= <- <-] & Hin). cbn [List.map foldl fst] in *.
  unfold note_height in Hin. destruct (checkpoint_for network height) as [[e h]|]; [|by rewrite map_to_list_empty in Hin].
  destruct (chained_before session height); [by rewrite map_to_list_empty in Hin|]. rewrite lookup_empty in Hin. cbn [unwrap_or fst snd] in Hin.
  apply list_elem_of_In, elem_of_map_to_list in Hin. apply lookup_insert_Some in Hin as [[_ [= <- _]]|[_ Hin]]; [lia|by rewrite lookup_empty in Hin].
Qed.

Lemma proven_on_right server timeout network session txid height tip session' : 0 <= height ->
  proven_on txid_hash server timeout network session txid height tip = (session', Ok true) ->
  height <= tip /\ exists header, proven_by_server server network txid height header /\ chained_to_the_real server network session session' height header.
Proof.
  intros Hh. unfold proven_on, above_the_tip. destruct (height >? sat_add_u32 tip ABOVE_THE_TIP) eqn:E1; [done|]. destruct (height >? tip) eqn:E2; [done|].
  destruct (transaction_get_merkle server txid height) as [branch|] eqn:Eb; [|done]. destruct (block_header server false height) as [header|] eqn:Eh; [|done].
  destruct (check_confirmation network height header (txid_hash txid) branch) eqn:Ec; [| done | done |].
  2:{ destruct (block_header server true height) as [again|]; [|done]. unfold recheck. by destruct (_ && _). }
  destruct (read_chains _ _ _ _ _ _) as [next [read|]] eqn:Er; [|done]. destruct (chained next network height (block_hash header) read) eqn:Ech; try done. intros [= <-].
  split; [lia|]. exists header. split; [split; [done|]; by exists branch|]. intros real Hv.
  assert (Hw : Forall (fun w => 0 <= w.1) (chains_to_read session network [(height, block_hash header)])) by (eapply List.Forall_impl; [|apply chains_from]; cbn; lia).
  assert (Hnone : real_reads real []) by (intros from hashes []).
  destruct (read_chains_real _ _ _ _ _ _ _ _ _ Hv Hnone Hw Er) as [Hs Hr]. split; [done|]. intros Hcp. by apply (chained_real real next network height _ read).
Qed.

(** C29: what a screen says of a transaction sent, over Electrum: the
    height it gives is no higher than the tip the server announced, that
    tip no higher than a chain of the network can have reached, and the
    header announced with it carries the work of its height. The header
    the server gave for the height it gives proves the transaction in that
    block; and below a checkpoint that block is the chain's own, whatever
    headers the server sent to chain it, unless one of them shares its
    hash with a block of the chain. The chains the session then holds are
    the chain's own too. *)
Theorem standing_is_proven server timeout network session txid scripts now session' height tip :
  electrum_tx_standing txid_hash genesis_time server timeout network session txid scripts now = (session', Ok (true, Some height, tip)) ->
  0 < height <= tip /\ tip <= height_limit genesis_time network now
  /\ (exists header, block_headers_subscribe server = Ok (tip, header) /\ has_proof_of_work network tip header = true)
  /\ exists header, proven_by_server server network txid height header /\ chained_to_the_real server network session session' height header.
Proof.
  unfold electrum_tx_standing. destruct (run_end server); [done|]. destruct (block_headers_subscribe server) as [[h header]|]; [|done].
  destruct (u32_max <? h); [done|]. unfold checked_tip. destruct (height_limit genesis_time network now <? h) eqn:El; [done|].
  destruct (has_proof_of_work network h header) eqn:Ew; [|done]. cbn [negb]. intros Hs.
  assert (Hind : forall refusal, standing_through txid_hash server timeout network session txid h refusal scripts = (session', Ok (true, Some height, tip)) ->
    tip = h /\ 0 < height <= h /\ exists header, proven_by_server server network txid height header /\ chained_to_the_real server network session session' height header).
  { clear Hs. induction scripts as [|script scripts IH]; intros refusal; cbn [standing_through]; [done|].
    destruct (script_get_history server script) as [history|[]]; try done; [|apply IH].
    destruct (List.find _ history) as [[? at_]|]; [|done]. destruct (Z.ltb_spec 0 at_); [|done].
    destruct (proven_on txid_hash server timeout network session txid at_ h) as [after [[|]|]] eqn:Ep; try done.
    apply proven_on_right in Ep as [Hle Hp]; [|lia]. intros [= <- <- <-]. done. }
  apply Hind in Hs as (-> & Hh & Hp). split; [done|]. split; [lia|]. split; [by exists header|done].
Qed.
End Proven.

(** ** The theorems at work *)

Section Witnesses.
#[local] Existing Instances Confirm.demo_bitcoin Decode.Demo.transactions.

(** A server whose block 10 holds three transactions, the last of them
    the one asked about. *)
Definition demo_electrum : ElectrumServer :=
  {| run_end := None; transaction_broadcast := fun _ => Err Unexpected; transaction_get := fun _ => Err Unexpected;
     script_list_unspent := fun _ => Ok []; script_get_history := fun _ => Ok [("tx", 10)]; batch_transaction_get := fun _ => Ok [];
     block_headers_subscribe := Ok (12, demo_block 12); transaction_get_merkle := fun _ _ => Ok demo_branch;
     block_header := fun _ _ => Ok demo_header; block_headers := fun _ _ => Ok [] |}.

Lemma standing_is_proven_witness :
  electrum_tx_standing (fun _ => demo_hash [4]) (fun _ => 0) demo_electrum 20 Signet ∅ "tx" [[]] 0 = (∅, Ok (true, Some 10, 12))
  /\ 10 <= 12 /\ exists header, proven_by_server (fun _ => demo_hash [4]) demo_electrum Signet "tx" 10 header.
Proof.
  assert (Hrun : electrum_tx_standing (fun _ => demo_hash [4]) (fun _ => 0) demo_electrum 20 Signet ∅ "tx" [[]] 0 = (∅, Ok (true, Some 10, 12)))
    by (vm_compute; reflexivity).
  split; [exact Hrun|].
  destruct (standing_is_proven (fun _ => demo_hash [4]) (fun _ => 0) demo_electrum 20 Signet ∅ "tx" [[]] 0 ∅ 10 12 Hrun) as ((_ & Hle) & _ & _ & header & Hp & _).
  split; [exact Hle|]. exists header. exact Hp.
Defined.
End Witnesses.
