(* ===== verification/Sockets.v ===== *)
(** [chain/net.rs]: a socket opened for the live watch or for the
    asynchronous Electrum client: the proxy of an onion, the race to any
    other host, the TLS laid over it. What each of these comes to is an
    observation, and what was done on the way is kept. *)
From S2P Require Import Prelude Text Connect Faults Lookups Certs Routes.

Module Security.
Inductive Security := Plain | Public | Electrum (pin : option string).
End Security.
Export Security (Security).

(** What was tried: the proxy given a name, the system asked for one, a
    handshake under one. *)
Inductive Tried :=
| Proxied (proxy host : string) (port : Z)
| Resolved (host : string) (port : Z)
| ShookPublic (host : string)
| ShookOnion (host : string)
| ShookPinned (pin : option string) (host : string).

(** What each step comes to: [through_socks], [dial::connect_async], the
    configuration rustls makes, the names it takes, its handshakes, what
    the verifier of one noted; and after how many steps the time was over,
    if it was. *)
Record Net := {
  socksed : result unit string;
  dialled : result unit IoError;
  configured : result unit string;
  usable_name : string -> bool;
  shaken : result unit string;
  noted : option Verdict;
  cut : option nat;
}.

Definition server_name (net : Net) (host : string) : result unit ConnectError :=
  if usable_name net host then Ok tt else Err (ConnectError.Io (host +:+ " is not a usable host name")).

Definition public_config (net : Net) : result unit ConnectError := map_err ConnectError.Io (configured net).
Definition onion_config (net : Net) : result unit ConnectError := map_err ConnectError.Io (configured net).

(** [Handshake::new], and the verifier once a server was heard. *)
Definition handshake_new (net : Net) (pin : option string) : result Tofu ConnectError := let? _ := map_err ConnectError.Io (configured net) in Ok (tofu_new pin).
Definition shook (net : Net) (tofu : Tofu) : Tofu := match noted net with Some verdict => record tofu verdict | None => tofu end.

Section Open.
Context `{Urls}.

Definition tls_failed (error : string) : Fault := outage ("TLS handshake failed: " +:+ error).

Definition laid_over (net : Net) (host : string) (security : Security) : list Tried * result unit Fault :=
  let onion := is_onion_host host in
  let over config tried :=
    match (let? _ := config in server_name net host) with
    | Ok _ => ([tried], map_err tls_failed (shaken net))
    | Err error => ([], Err (Certs.fault_of error))
    end in
  match security with
  | Security.Plain => ([], Ok tt)
  | Security.Public => over (public_config net) (ShookPublic host)
  | Security.Electrum pin =>
    if onion then over (onion_config net) (ShookOnion host)
    else match (let? tofu := handshake_new net pin in let? _ := server_name net host in Ok tofu) with
         | Ok tofu => ([ShookPinned pin host], map_err (fun error => Certs.fault_of (refusal (shook net tofu) error)) (shaken net))
         | Err error => ([], Err (Certs.fault_of error))
         end
  end.

(** Through the proxy when there is one, else to the host. *)
Definition first_step (host : string) (port : Z) (proxy : option string) : Tried :=
  match proxy with Some proxy => Proxied proxy host port | None => Resolved host port end.
Definition socket (net : Net) (proxy : option string) : result unit Fault :=
  match proxy with Some _ => map_err other (socksed net) | None => map_err (fun e => of_io e None) (dialled net) end.

Definition opening (net : Net) (host : string) (port : Z) (security : Security) (proxy : option string) : list Tried * result unit Fault :=
  match socket net proxy with
  | Err fault => ([first_step host port proxy], Err fault)
  | Ok _ => let '(more, outcome) := laid_over net host security in (first_step host port proxy :: more, outcome)
  end.

Definition open (net : Net) (host : string) (port : Z) (security : Security) (proxy : option string) (budget : Z) : list Tried * result unit Fault :=
  if is_onion_host host && match proxy with None => true | Some _ => false end then ([], Err (other (no_route host)))
  else
    let '(tried, outcome) := opening net host port security proxy in
    match cut net with
    | Some steps => (take steps tried, Err (outage ("could not connect within " +:+ dec budget +:+ " s")))
    | None => (tried, outcome)
    end.

(** ** What an opening keeps to *)

(** What a step may be, of an opening asked for. *)
Definition allowed (host : string) (port : Z) (security : Security) (proxy : option string) (step : Tried) : Prop :=
  match step with
  | Proxied p h q => proxy = Some p /\ h = host /\ q = port
  | Resolved h q => proxy = None /\ is_onion_host host = false /\ h = host /\ q = port
  | ShookPublic h => security = Security.Public /\ h = host
  | ShookOnion h => (exists pin, security = Security.Electrum pin) /\ is_onion_host host = true /\ h = host
  | ShookPinned pin h => security = Security.Electrum pin /\ is_onion_host host = false /\ h = host
  end.

(** The handshake an opening that went through made. *)
Definition handshake_of (host : string) (security : Security) : list Tried :=
  match security with
  | Security.Plain => []
  | Security.Public => [ShookPublic host]
  | Security.Electrum pin => [if is_onion_host host then ShookOnion host else ShookPinned pin host]
  end.

Lemma laid_over_right net host security tried outcome : laid_over net host security = (tried, outcome) ->
  (tried = [] \/ tried = handshake_of host security) /\ (outcome = Ok tt -> tried = handshake_of host security).
Proof.
  unfold laid_over, handshake_of. destruct security as [| |pin]; [intros [= <- <-]; by split; [left|]| |destruct (is_onion_host host)];
    (destruct (result_bind _ _) as [x|error]; intros [= <- <-]; [by split; [right|]|split; [by left|done]]).
Qed.

Lemma handshake_allowed host port security proxy : Forall (allowed host port security proxy) (handshake_of host security).
Proof.
  destruct security as [| |pin]; cbn [handshake_of]; [constructor|by repeat constructor|]. constructor; [|constructor].
  destruct (is_onion_host host) eqn:E; cbn [allowed]; rewrite E; [split; [by exists pin|done]|done].
Qed.

(** The name of an onion goes to the proxy alone, and nowhere without one;
    the system is asked for no other host's name than the one given, and
    only without a proxy; a socket is handed out under the TLS asked for
    and no other, the fingerprint accepted for the host with it. *)
Theorem onions_are_never_resolved net host port security proxy budget :
  let '(tried, outcome) := open net host port security proxy budget in
  Forall (allowed host port security proxy) tried
  /\ (is_onion_host host = true -> proxy = None -> tried = [] /\ exists fault, outcome = Err fault /\ is_outage fault = false)
  /\ (outcome = Ok tt -> tried = first_step host port proxy :: handshake_of host security).
Proof.
  unfold open. destruct (is_onion_host host && _) eqn:Eroute.
  { split; [constructor|]. split; [|done]. intros _ _. split; [done|]. by exists (other (no_route host)). }
  assert (Hfirst : allowed host port security proxy (first_step host port proxy)).
  { destruct proxy; cbn [allowed]; [done|]. rewrite andb_true_r in Eroute. done. }
  assert (Hall : let '(tried, outcome) := opening net host port security proxy in Forall (allowed host port security proxy) tried
    /\ (outcome = Ok tt -> tried = first_step host port proxy :: handshake_of host security)).
  { unfold opening. destruct (socket net proxy) as [u|fault]; [|split; [by repeat constructor|done]]. destruct (laid_over net host security) as [more outcome] eqn:El. destruct (laid_over_right _ _ _ _ _ El) as [Hmore Hok].
    split; [|intros Ho; by rewrite (Hok Ho)]. constructor; [done|]. destruct Hmore as [Hm|Hm]; rewrite Hm; [constructor|apply handshake_allowed]. }
  destruct (opening net host port security proxy) as [tried outcome]. destruct Hall as [Hall Hok].
  assert (Hnone : is_onion_host host = true -> proxy = None -> False) by (intros Ho ->; rewrite Ho in Eroute; done).
  destruct (cut net) as [steps|]; (split; [by try apply Forall_take|]); (split; [intros Ho Hp; by destruct (Hnone Ho Hp)|done]).
Qed.
End Open.
