(* ===== verification/Rpc.v ===== *)
(** [chain/electrum/rpc.rs]: the asynchronous Electrum client: requests a
    window at a time, and the answers read off the line. What the
    connection reads and whether it takes what is written are
    observations; JSON is a parameter. A batch hands its answers to a
    caller of any state. *)
From S2P Require Import Prelude Text Connect Endpoints Faults Lookups Sockets.

Definition WINDOW : nat := 32.
Definition MAX_STRAY : nat := 1000.
Definition MAX_LINE : Z := Z.shiftl 16 20.
Definition MAX_READ : Z := Z.shiftl 256 20.
Definition CLIENT_NAME : string := "gerfaut".
Definition PROTOCOL : string := "1.4".

Inductive CallError :=
| Refused (words : string) (busy : bool)
| Busy (words : string)
| TooLong
| Failed (fault : Fault).

Definition refused (words : string) : CallError := Refused words false.
Definition busy (words : string) : CallError := Refused words true.

Definition too_long (limit : Z) : string := "the server sent an answer longer than " +:+ dec (Z.shiftr limit 20) +:+ " MiB".

Definition call_text (error : CallError) : string :=
  match error with
  | Refused words _ | Busy words => "the server refused the request: " +:+ words
  | TooLong => too_long MAX_LINE
  | Failed fault => detail fault
  end.

Definition fault_of (error : CallError) : Fault :=
  match error with
  | Refused _ true | Busy _ => outage (call_text error)
  | Refused _ false | TooLong => other (call_text error)
  | Failed fault => fault
  end.

(** ** The connection *)

Record Outgoing (Value : Type) := { id : Z; o_method : string; o_params : Value }.
Arguments Build_Outgoing {Value}.
Arguments id {Value}.
Arguments o_method {Value}.
Arguments o_params {Value}.

(** A JSON error is [None] when it is [null]. *)
Record Envelope := { en_id : option Z; en_result : option string; en_error : option (option RpcError) }.

(** [serde_json], on what goes out and what comes in. *)
Class RpcJson (Value : Type) := {
  request_text : Outgoing Value -> option string;
  envelope_of : list Z -> option Envelope;
  version_params : string -> list string -> Value;
}.

(** What a wait for a line comes to, within the timeout; and what one to
    write does. *)
Inductive Reading := Silent | Overlong | Broken (words : string) | Closed | Line (line : list Z).
Inductive Writing := Written | Unwritten (words : string) | Unread.

(** What was done on the connection. *)
Inductive Did (Value : Type) := Asked (request : Outgoing Value) | Heard (line : list Z).
Arguments Asked {Value} request.
Arguments Heard {Value} line.

Record Connection (Value : Type) := {
  reader : list Reading; writer : list Writing; next_id : Z; timeout : Z;
  read : Z; read_max : Z; pauses : Z; done_ : list (Did Value);
}.
Arguments Build_Connection {Value}.
Arguments reader {Value}.
Arguments writer {Value}.
Arguments next_id {Value}.
Arguments timeout {Value}.
Arguments read {Value}.
Arguments read_max {Value}.
Arguments pauses {Value}.
Arguments done_ {Value}.

Section Rpc.
Context {Value : Type} `{RpcJson Value}.
Abbreviation Connection := (Connection Value).

(** The next wait: nothing more comes once the observations are over. *)
Definition next_line (conn : Connection) : Connection * Reading :=
  match reader conn with
  | [] => (conn, Silent)
  | reading :: reader =>
    ({| reader := reader; writer := writer conn; next_id := next_id conn; timeout := timeout conn; read := read conn; read_max := read_max conn; pauses := pauses conn;
        done_ := match reading with Line line => done_ conn ++ [Heard line] | _ => done_ conn end |}, reading)
  end.

Definition count_read (conn : Connection) (line : list Z) : Connection :=
  {| reader := reader conn; writer := writer conn; next_id := next_id conn; timeout := timeout conn; read := sat_add_u64 (read conn) (Z.of_nat (length line)); read_max := read_max conn;
     pauses := pauses conn; done_ := done_ conn |}.

Definition take_pause (conn : Connection) : Connection :=
  {| reader := reader conn; writer := writer conn; next_id := next_id conn; timeout := timeout conn; read := read conn; read_max := read_max conn; pauses := pauses conn - 1; done_ := done_ conn |}.

Definition wrote (conn : Connection) (request : Outgoing Value) : Connection * Writing :=
  let '(writing, writer) := match writer conn with [] => (Written, []) | writing :: writer => (writing, writer) end in
  ({| reader := reader conn; writer := writer; next_id := next_id conn; timeout := timeout conn; read := read conn; read_max := read_max conn; pauses := pauses conn;
      done_ := done_ conn ++ [Asked request] |}, writing).

Definition send (conn : Connection) (method : string) (params : Value) : Connection * result Z CallError :=
  let id := next_id conn in
  let conn := {| reader := reader conn; writer := writer conn; next_id := next_id conn + 1; timeout := timeout conn; read := read conn; read_max := read_max conn; pauses := pauses conn;
                 done_ := done_ conn |} in
  let request := {| id := id; o_method := method; o_params := params |} in
  match request_text request with
  | None => (conn, Err (Failed (other "the request could not be written")))
  | Some _ =>
    let '(conn, writing) := wrote conn request in
    (conn, match writing with
           | Written => Ok id
           | Unwritten words => Err (Failed (outage ("the connection was closed: " +:+ words)))
           | Unread => Err (Failed (outage "the server stopped reading"))
           end)
  end.

Section Calls.
Context {T : Type} (read_as : string -> option T).

(** What an envelope says to the request it names. *)
Definition says (envelope : Envelope) : result T CallError :=
  match en_error envelope with
  | Some (Some error) => Err (if out_of_budget error then Busy (words error) else refused (words error))
  | _ => match read_as (unwrap_or (en_result envelope) "null") with Some value => Ok value | None => Err (Failed (other "unexpected response")) end
  end.

(** The request a line answers, among those waiting. *)
Definition answers (waiting : gmap Z nat) (line : list Z) : option (Z * result T CallError) :=
  match envelope_of line with
  | None => None
  | Some envelope =>
    match en_id envelope with
    | Some id => if bool_decide (is_Some (waiting !! id)) then Some (id, says envelope) else None
    | None => None
    end
  end.

Fixpoint receive_within (strays : nat) (conn : Connection) (waiting : gmap Z nat) : Connection * result (Z * result T CallError) CallError :=
  match strays with
  | O => (conn, Err (Failed (other "the server sends answers to nothing it was asked")))
  | S strays =>
    let '(conn, reading) := next_line conn in
    match reading with
    | Silent => (conn, Err (Failed (outage ("timed out after " +:+ dec (timeout conn) +:+ " s"))))
    | Overlong => (conn, Err TooLong)
    | Broken words => (conn, Err (Failed (outage ("the connection was closed: " +:+ words))))
    | Closed => (conn, Err (Failed (outage "the connection was closed")))
    | Line line =>
      let conn := count_read conn line in
      if read_max conn <? read conn
      then (conn, Err (Failed (other ("the server sent more than " +:+ dec (Z.shiftr (read_max conn) 20) +:+ " MiB on one connection"))))
      else match answers waiting line with Some answer => (conn, Ok answer) | None => receive_within strays conn waiting end
    end
  end.

Definition receive := receive_within MAX_STRAY.

(** Requests sent until the window is full. *)
Fixpoint fill (method : string) (conn : Connection) (waiting : gmap Z nat) (queue : list (nat * Value)) : Connection * result (gmap Z nat * list (nat * Value)) CallError :=
  if (size waiting <? WINDOW)%nat then
    match queue with
    | [] => (conn, Ok (waiting, []))
    | (index, params) :: queue =>
      match send conn method params with
      | (conn, Ok id) => fill method conn (<[id := index]> waiting) queue
      | (conn, Err error) => (conn, Err error)
      end
    end
  else (conn, Ok (waiting, queue)).

Section Each.
Context {S : Type}.

(** The loop of [round], as many turns as answers are to come. *)
Fixpoint rounds (n : nat) (method : string) (conn : Connection) (waiting : gmap Z nat) (queue : list (nat * Value))
    (each : S -> nat -> result T CallError -> S * result unit CallError) (state : S) : Connection * S * result unit CallError :=
  match n with
  | O => (conn, state, Ok tt)
  | Datatypes.S n =>
    match fill method conn waiting queue with
    | (conn, Err error) => (conn, state, Err error)
    | (conn, Ok (waiting, queue)) =>
      if bool_decide (waiting = ∅) then (conn, state, Ok tt)
      else match receive conn waiting with
           | (conn, Err error) => (conn, state, Err error)
           | (conn, Ok (id, answer)) =>
             match waiting !! id with
             | None => rounds n method conn waiting queue each state
             | Some index =>
               match each state index answer with
               | (state, Ok _) => rounds n method conn (delete id waiting) queue each state
               | (state, Err error) => (conn, state, Err error)
               end
             end
           end
    end
  end.

Definition round (method : string) (conn : Connection) (queue : list (nat * Value)) := rounds (length queue) method conn ∅ queue.

End Each.

Section Batch.
Context {S : Type}.

(** What [batch] hands on of each answer, at first and when asked again. *)
Definition at_first (patient : bool) (each : S -> nat -> result T CallError -> S * result unit CallError) (state : S * list nat) (index : nat) (answer : result T CallError)
    : (S * list nat) * result unit CallError :=
  match answer with
  | Err (Busy words) =>
    if patient then ((state.1, state.2 ++ [index]), Ok tt)
    else let '(next, outcome) := each state.1 index (Err (busy words)) in ((next, state.2), outcome)
  | _ => let '(next, outcome) := each state.1 index answer in ((next, state.2), outcome)
  end.

Definition at_last (each : S -> nat -> result T CallError -> S * result unit CallError) (state : S) (index : nat) (answer : result T CallError) : S * result unit CallError :=
  match answer with Err (Busy words) => each state index (Err (busy words)) | _ => each state index answer end.

(** The requests of these indices. *)
Definition asked_again (params : list Value) (indices : list nat) : list (nat * Value) :=
  omap (fun index => option_map (pair index) (params !! index)) indices.

Definition batch (conn : Connection) (method : string) (params : list Value) (each : S -> nat -> result T CallError -> S * result unit CallError) (state : S)
    : Connection * S * result unit CallError :=
  let '(conn, (state, busy), outcome) := round method conn (imap pair params) (at_first (0 <? pauses conn) each) (state, []) in
  match outcome with
  | Err error => (conn, state, Err error)
  | Ok _ =>
    match busy with
    | [] => (conn, state, Ok tt)
    | _ => round method (take_pause conn) (asked_again params (sort_by Nat.leb busy)) (at_last each) state
    end
  end.
End Batch.

Definition call (conn : Connection) (method : string) (params : Value) : Connection * result T CallError :=
  let '(conn, answer, outcome) := batch conn method [params] (fun _ _ result => (Some result, Ok tt)) None in
  (conn, match outcome with Err error => Err error | Ok _ => unwrap_or answer (Err (Failed (other "no answer"))) end).
End Calls.

(** [Connection::open]: [net] is what the socket comes to, [reader] and
    [writer] what it reads and takes, [value_of] reads any result. *)
Definition open_connection `{Urls} (net : Net) (reader : list Reading) (writer : list Writing) (value_of : string -> option Value) (target : Target) (proxy : option string)
    : list Tried * result Connection Fault :=
  match parse (t_url target) with
  | Err error => ([], Err (other error))
  | Ok (tls, host, port) =>
    let onion := is_onion (t_url target) || is_onion_host host in
    let timeout := if onion then TOR_TIMEOUT else TIMEOUT in
    let proxy := if onion then proxy else None in
    let security := if tls then Security.Electrum (pin target) else Security.Plain in
    let '(tried, opened) := open net host port security proxy timeout in
    (tried,
     let? _ := opened in
     let conn := {| reader := reader; writer := writer; next_id := 0; timeout := timeout; read := 0; read_max := MAX_READ; pauses := Z.of_nat PAUSES; done_ := [] |} in
     match call value_of conn "server.version" (version_params CLIENT_NAME [PROTOCOL; PROTOCOL]) with
     | (conn, Ok _) => Ok conn
     | (_, Err error) => Err (fault_of error)
     end)
  end.
End Rpc.

(** ** What is asked and heard *)

Section Told.
Context {Value : Type} `{RpcJson Value}.
Abbreviation Connection := (Connection Value).
Abbreviation Did := (Did Value).

Definition asked (did : list Did) : list (Outgoing Value) := omap (fun d => match d with Asked request => Some request | Heard _ => None end) did.
Definition heard (did : list Did) : list (list Z) := omap (fun d => match d with Asked _ => None | Heard line => Some line end) did.

(** The request a line names. *)
Definition named (line : list Z) : option Z := and_then (envelope_of line) en_id.

(** The requests no line named since they were asked. *)
Definition open_after (opened : gset Z) (d : Did) : gset Z :=
  match d with
  | Asked request => {[id request]} ∪ opened
  | Heard line => match named line with Some i => opened ∖ {[i]} | None => opened end
  end.
Definition outstanding (did : list Did) : gset Z := fold_left open_after did ∅.

Definition within_window (did : list Did) : Prop := forall before after, did = before ++ after -> (size (outstanding before) <= WINDOW)%nat.

Lemma asked_app l k : asked (l ++ k) = asked l ++ asked k.
Proof. apply list.omap_app. Qed.

Lemma heard_app l k : heard (l ++ k) = heard l ++ heard k.
Proof. apply list.omap_app. Qed.

Lemma outstanding_snoc did d : outstanding (did ++ [d]) = open_after (outstanding did) d.
Proof. unfold outstanding. by rewrite fold_left_app. Qed.

Lemma window_snoc did d : within_window did -> (size (outstanding (did ++ [d])) <= WINDOW)%nat -> within_window (did ++ [d]).
Proof.
  intros Hw Hs before after E. destruct after as [|x after _] using rev_ind; [rewrite app_nil_r in E; by rewrite <- E|].
  rewrite app_assoc in E. apply app_inj_tail in E as [E _]. by apply (Hw before after).
Qed.

Lemma window_heard did line : within_window did -> within_window (did ++ [Heard line]).
Proof.
  intros Hw. apply window_snoc; [done|]. rewrite outstanding_snoc. cbn [open_after]. specialize (Hw did [] ltac:(by rewrite app_nil_r)).
  destruct (named line); [|done]. etrans; [|exact Hw]. apply subseteq_size. set_solver.
Qed.

Context {T : Type} (read_as : string -> option T).

(** An answer of the server to a request: a line after it, of its id. *)
Definition answered (did : list Did) (request : Outgoing Value) (answer : result T CallError) : Prop :=
  exists before between after line envelope, did = before ++ Asked request :: between ++ Heard line :: after
  /\ envelope_of line = Some envelope /\ en_id envelope = Some (id request) /\ answer = says read_as envelope.

Lemma answered_more did more request answer : answered did request answer -> answered (did ++ more) request answer.
Proof. intros (a & b & c & line & e & -> & He). exists a, b, (c ++ more), line, e. split; [|done]. by rewrite <- app_assoc, app_comm_cons, <- app_assoc. Qed.

Lemma answered_later did more request answer : answered did request answer -> answered (more ++ did) request answer.
Proof. intros (a & b & c & line & e & -> & He). exists (more ++ a), b, c, line, e. by rewrite <- app_assoc. Qed.

(** What is handed over, in turn, until the caller ends it. *)
Fixpoint feed {S : Type} (each : S -> nat -> result T CallError -> S * result unit CallError) (state : S) (handed : list (nat * result T CallError)) : S * result unit CallError :=
  match handed with
  | [] => (state, Ok tt)
  | (index, answer) :: handed => match each state index answer with (state, Ok _) => feed each state handed | over => over end
  end.

Lemma feed_app {S} each (state : S) handed more : feed each state (handed ++ more) = match feed each state handed with (state, Ok _) => feed each state more | over => over end.
Proof.
  revert state. induction handed as [|[index answer] handed IH]; intros state; [done|]. cbn [app feed]. destruct (each state index answer) as [next [u|e]]; [apply IH|done].
Qed.

(** ** A round *)

Section Round.
Variables (base : list Did) (method : string) (all : list (nat * Value)) (first top waits : Z) (small : Prop).

(** What is so of a round at every moment, [did] since it began. *)
Record logged (conn : Connection) (did : list Did) : Prop := {
  l_done : done_ conn = base ++ did;
  l_max : read_max conn = top;
  l_pauses : pauses conn = waits;
  l_ids : Forall (fun request => first <= id request < next_id conn) (asked did);
  l_in_order : StronglySorted Z.lt (List.map id (asked did));
  l_first : first <= next_id conn;
  l_window : within_window did;
}.

Definition said (did : list Did) (handed : list (nat * result T CallError)) : Prop :=
  forall index answer, In (index, answer) handed -> exists request, In (index, o_params request) all /\ o_method request = method /\ answered did request answer.

Record going (conn : Connection) (waiting : gmap Z nat) (queue : list (nat * Value)) (did : list Did) (handed : list (nat * result T CallError)) : Prop := {
  g_logged : logged conn did;
  g_waiting : forall i index, waiting !! i = Some index -> exists before request after, did = before ++ Asked request :: after
              /\ id request = i /\ o_method request = method /\ In (index, o_params request) all;
  g_all : List.map fst handed ++ List.map snd (map_to_list waiting) ++ List.map fst queue ≡ₚ List.map fst all;
  g_queue : forall x, In x queue -> In x all;
  g_said : said did handed;
  g_open : outstanding did = dom waiting;
  g_asked : length (asked did) = (size waiting + length handed)%nat;
  g_heard : (length (heard did) <= MAX_STRAY * length handed)%nat;
  g_read : small -> read conn <= top;
}.

(** What is read within the bound, or the line that crosses it. *)
Definition within_read (conn : Connection) (did : list Did) : Prop :=
  read conn <= top \/ exists before line, before <= top /\ In (Heard line) did /\ read conn <= before + Z.of_nat (length line).

(** How a round may end. *)
Record ended (conn : Connection) (did : list Did) (handed : list (nat * result T CallError)) : Prop := {
  e_logged : logged conn did;
  e_few : List.map fst handed ⊆+ List.map fst all;
  e_said : said did handed;
  e_asked : (length (asked did) <= length all)%nat;
  e_heard : (length (heard did) <= MAX_STRAY * length all)%nat;
  e_read : small -> within_read conn did;
}.

Lemma going_counts conn waiting queue did handed : going conn waiting queue did handed -> (length handed + size waiting + length queue = length all)%nat.
Proof.
  intros Hg. pose proof (Permutation_length (g_all _ _ _ _ _ Hg)) as Hl. rewrite !length_app, !List.length_map, length_map_to_list in Hl. lia.
Qed.

Lemma going_ended conn waiting queue did handed : going conn waiting queue did handed -> ended conn did handed.
Proof.
  intros Hg. pose proof (going_counts _ _ _ _ _ Hg) as Hc. destruct Hg. split; [done| |done| | |intros Hs; left; by apply g_read0].
  - rewrite <- g_all0. apply submseteq_inserts_r. done.
  - lia.
  - etrans; [done|]. apply Nat.mul_le_mono_l. lia.
Qed.

Lemma logged_send conn did params conn' sent : logged conn did -> (size (outstanding did) < WINDOW)%nat -> send conn method params = (conn', sent) ->
  let request := {| id := next_id conn; o_method := method; o_params := params |} in
  read conn' = read conn
  /\ match sent with
     | Ok i => i = next_id conn /\ logged conn' (did ++ [Asked request])
     | Err _ => logged conn' did \/ logged conn' (did ++ [Asked request])
     end.
Proof.
  intros [Hd Hm Hp Hi Hs Hf Hw] Hroom Hsend request. unfold send in Hsend. fold request in Hsend.
  assert (Hasked : asked (did ++ [Asked request]) = asked did ++ [request]) by (by rewrite asked_app).
  assert (Hlog : forall writings, logged {| reader := reader conn; writer := writings; next_id := next_id conn + 1; timeout := timeout conn; read := read conn; read_max := read_max conn; pauses := pauses conn;
                         done_ := done_ conn ++ [Asked request] |} (did ++ [Asked request])).
  { intros writings. split; cbn [done_ read_max pauses next_id]; try done; rewrite ?Hasked.
    - by rewrite Hd, <- app_assoc.
    - apply list.Forall_app. split; [eapply List.Forall_impl; [|exact Hi]; cbn; lia|]. constructor; [cbn; lia|done].
    - rewrite map_app. apply StronglySorted_snoc; [done|]. intros y (r & <- & Hr)%in_map_iff. rewrite List.Forall_forall in Hi. specialize (Hi r Hr). cbn. lia.
    - lia.
    - apply window_snoc; [done|]. rewrite outstanding_snoc. cbn [open_after]. rewrite size_union_alt, size_singleton.
      assert (size (outstanding did ∖ {[id request]}) <= size (outstanding did))%nat by (apply subseteq_size; set_solver). lia. }
  destruct (request_text request); [|injection Hsend as <- <-; split; [done|]; left; split; cbn; try done; [eapply List.Forall_impl; [|exact Hi]; cbn|]; lia].
  unfold wrote in Hsend. cbn [writer] in Hsend. destruct (match writer conn with [] => _ | _ => _ end) as [writing writings].
  injection Hsend as <- <-. split; [done|]. destruct writing; [split; [done|apply Hlog]|right; apply Hlog..].
Qed.

Lemma asked_In did before request after : did = before ++ Asked request :: after -> In request (asked did).
Proof. intros ->. rewrite asked_app. cbn. apply in_or_app. right. by left. Qed.

Lemma going_fresh conn waiting queue did handed : going conn waiting queue did handed -> waiting !! next_id conn = None.
Proof.
  intros Hg. destruct (waiting !! next_id conn) as [index|] eqn:E; [|done]. exfalso. destruct (g_waiting _ _ _ _ _ Hg _ _ E) as (before & request & after & Ed & Hi & _).
  pose proof (l_ids _ _ (g_logged _ _ _ _ _ Hg)) as Hids. rewrite List.Forall_forall in Hids. specialize (Hids request (asked_In _ _ _ _ Ed)). cbn in Hids. lia.
Qed.

Lemma going_room conn waiting queue did handed : going conn waiting queue did handed -> size (outstanding did) = size waiting.
Proof. intros Hg. by rewrite (g_open _ _ _ _ _ Hg), size_dom. Qed.

Lemma said_more did more handed : said did handed -> said (did ++ more) handed.
Proof. intros Hs index answer Hin. destruct (Hs _ _ Hin) as (request & Ha & Hm & Hr). exists request. repeat split; try done. by apply answered_more. Qed.

Lemma going_send conn waiting index params queue did handed conn' i : going conn waiting ((index, params) :: queue) did handed -> (size waiting < WINDOW)%nat ->
  send conn method params = (conn', Ok i) ->
  going conn' (<[i := index]> waiting) queue (did ++ [Asked {| id := next_id conn; o_method := method; o_params := params |}]) handed.
Proof.
  intros Hg Hroom Hsend. pose proof (going_fresh _ _ _ _ _ Hg) as Hfresh. destruct (logged_send _ _ _ _ _ (g_logged _ _ _ _ _ Hg) ltac:(by rewrite (going_room _ _ _ _ _ Hg)) Hsend) as [Hread [-> Hlog]].
  destruct Hg as [_ Hw Ha Hq Hs Ho Hasked Hheard Hr]. split; [done| | | | | | | |by rewrite Hread].
  - intros j k. destruct (decide (j = next_id conn)) as [->|Hj].
    + rewrite lookup_insert_eq. intros [= <-]. exists did, {| id := next_id conn; o_method := method; o_params := params |}, []. repeat split. apply Hq. by left.
    + rewrite lookup_insert_ne by done. intros Hk. destruct (Hw j k Hk) as (before & request & after & -> & Hrest). exists before, request, (after ++ [Asked {| id := next_id conn; o_method := method; o_params := params |}]).
      by rewrite <- app_assoc.
  - rewrite <- Ha, map_to_list_insert by done. cbn. apply Permutation_app_head. by rewrite <- Permutation_middle.
  - intros x Hx. apply Hq. by right.
  - by apply said_more.
  - rewrite outstanding_snoc. cbn [open_after id]. rewrite Ho. by rewrite dom_insert_L.
  - rewrite asked_app, length_app, Hasked, map_size_insert_None by done. cbn. lia.
  - rewrite heard_app, length_app. change (length (heard [Asked _])) with 0%nat. lia.
Qed.

Lemma send_ended conn waiting index params queue did handed conn' error : going conn waiting ((index, params) :: queue) did handed -> (size waiting < WINDOW)%nat ->
  send conn method params = (conn', Err error) -> exists more, ended conn' (did ++ more) handed.
Proof.
  intros Hg Hroom Hsend. pose proof (going_counts _ _ _ _ _ Hg) as Hc. destruct (logged_send _ _ _ _ _ (g_logged _ _ _ _ _ Hg) ltac:(by rewrite (going_room _ _ _ _ _ Hg)) Hsend) as [Hread Hlog].
  destruct (going_ended _ _ _ _ _ Hg) as [_ Hfew Hs Ha Hh _]. pose proof (g_asked _ _ _ _ _ Hg) as Hasked. cbn [length] in Hc.
  destruct Hlog as [Hlog|Hlog]; [exists []; rewrite app_nil_r in *|eexists [_]]; (split; [exact Hlog|exact Hfew| | | |]).
  all: try (by rewrite ?app_nil_r; try apply said_more).
  all: try (intros Hsm; left; rewrite Hread; by apply (g_read _ _ _ _ _ Hg)).
  - rewrite asked_app, length_app. cbn. lia.
  - rewrite heard_app, length_app. change (length (heard [Asked _])) with 0%nat. lia.
Qed.

Lemma fill_right queue : forall conn waiting did handed conn' filled, going conn waiting queue did handed -> fill method conn waiting queue = (conn', filled) ->
  exists more, match filled with
               | Ok (waiting', queue') => going conn' waiting' queue' (did ++ more) handed /\ (waiting' = ∅ -> queue' = [])
               | Err _ => ended conn' (did ++ more) handed
               end.
Proof.
  induction queue as [|[index params] queue IH]; intros conn waiting did handed conn' filled Hg Hfill; cbn [fill] in Hfill;
    (destruct (Nat.ltb_spec (size waiting) WINDOW) as [Hroom|Hfull];
     [|injection Hfill as <- <-; exists []; rewrite app_nil_r; split; [done|]; intros ->; rewrite map_size_empty in Hfull; unfold WINDOW in Hfull; lia]).
  - injection Hfill as <- <-. exists []. by rewrite app_nil_r.
  - destruct (send conn method params) as [next [i|error]] eqn:Esend.
    + destruct (IH _ _ _ _ _ _ (going_send _ _ _ _ _ _ _ _ _ Hg Hroom Esend) Hfill) as [more Hm]. eexists (_ :: more). by rewrite <- app_assoc in Hm.
    + injection Hfill as <- <-. by apply (send_ended _ _ _ _ _ _ _ _ _ Hg Hroom Esend).
Qed.

Lemma logged_line conn did conn' line : logged conn did -> next_line conn = (conn', Line line) -> logged (count_read conn' line) (did ++ [Heard line]) /\ read conn' = read conn.
Proof.
  intros [Hd Hm Hp Hi Hs Hf Hw] Hnext. unfold next_line in Hnext. destruct (reader conn) as [|reading readings]; [done|]. injection Hnext as <- ->. split; [|done].
  split; cbn [count_read done_ read_max pauses next_id]; try done; rewrite ?asked_app, ?app_nil_r; [by rewrite Hd, <- app_assoc|done|done|by apply window_heard].
Qed.

Lemma logged_no_line conn did conn' reading : logged conn did -> next_line conn = (conn', reading) -> (forall line, reading <> Line line) -> logged conn' did /\ read conn' = read conn.
Proof.
  intros [Hd Hm Hp Hi Hs Hf Hw] Hnext Hno. unfold next_line in Hnext. destruct (reader conn) as [|r readings]; [by injection Hnext as <- <-|]. injection Hnext as <- ->.
  destruct reading; [done..|exfalso; by eapply Hno].
Qed.

Lemma stray_open waiting line did : answers read_as waiting line = None -> outstanding did = dom waiting -> outstanding (did ++ [Heard line]) = dom waiting.
Proof.
  intros Hno Ho. rewrite outstanding_snoc. cbn [open_after]. unfold answers, named in *. destruct (envelope_of line) as [e|]; cbn [and_then]; [|done]. destruct (en_id e) as [i|]; [|done].
  case_bool_decide as Hi; [done|]. rewrite Ho. assert (i ∉ dom waiting) by (by rewrite elem_of_dom). set_solver.
Qed.

Lemma receive_right n : forall conn did waiting conn' received, logged conn did -> (small -> read conn <= top) -> outstanding did = dom waiting ->
  receive_within read_as n conn waiting = (conn', received) ->
  exists lines, (length lines <= n)%nat /\ logged conn' (did ++ List.map Heard lines)
  /\ match received with
     | Ok (i, answer) => exists before line envelope, lines = before ++ [line] /\ envelope_of line = Some envelope /\ en_id envelope = Some i /\ is_Some (waiting !! i)
                         /\ answer = says read_as envelope /\ (small -> read conn' <= top) /\ outstanding (did ++ List.map Heard lines) = dom waiting ∖ {[i]}
     | Err _ => small -> within_read conn' (did ++ List.map Heard lines)
     end.
Proof.
  induction n as [|n IH]; intros conn did waiting conn' received Hl Hr Ho Hreceive; cbn [receive_within] in Hreceive.
  { injection Hreceive as <- <-. exists []. rewrite app_nil_r. split; [done|]. split; [done|]. left. by apply Hr. }
  destruct (next_line conn) as [next reading] eqn:Enext. assert (Hstop : forall error, (forall line, reading <> Line line) -> (next, Err error) = (conn', received) ->
    exists lines, (length lines <= S n)%nat /\ logged conn' (did ++ List.map Heard lines)
    /\ match received with Ok _ => False | Err _ => small -> within_read conn' (did ++ List.map Heard lines) end).
  { intros error Hno [= <- <-]. destruct (logged_no_line _ _ _ _ Hl Enext Hno) as [Hl' Hread]. exists []. rewrite app_nil_r. split; [cbn; lia|]. split; [done|]. intros Hs. left. rewrite Hread. by apply Hr. }
  destruct reading as [| | | |line]; try (destruct (Hstop _ ltac:(done) Hreceive) as (lines & H1 & H2 & H3); exists lines; split; [done|]; split; [done|]; by destruct received).
  clear Hstop. destruct (logged_line _ _ _ _ Hl Enext) as [Hl' Hread]. set (counted := count_read next line) in *. pose proof (l_max _ _ Hl') as Hmax.
  destruct (Z.ltb_spec (read_max counted) (read counted)) as [Hpast|Hin].
  { injection Hreceive as <- <-. exists [line]. split; [cbn; lia|]. split; [done|]. intros Hs. right. exists (read conn), line. split; [by apply Hr|]. split; [apply in_or_app; right; by left|].
    unfold counted, count_read, sat_add_u64. cbn [read]. rewrite Hread. lia. }
  destruct (answers read_as waiting line) as [[i answer]|] eqn:Eanswer.
  - injection Hreceive as <- <-. exists [line]. split; [cbn; lia|]. split; [done|]. unfold answers in Eanswer. destruct (envelope_of line) as [e|] eqn:Ee; [|done]. destruct (en_id e) as [j|] eqn:Ej; [|done].
    case_bool_decide as Hsome; [|done]. injection Eanswer as <- <-. exists [], line, e. repeat split; try done; [intros _; by rewrite <- Hmax|].
    cbn [List.map]. rewrite outstanding_snoc. cbn [open_after]. unfold named. rewrite Ee. cbn [and_then]. by rewrite Ej, Ho.
  - destruct (IH _ _ _ _ _ Hl' ltac:(intros _; by rewrite <- Hmax) (stray_open _ _ _ Eanswer Ho) Hreceive) as (lines & Hn & Hlog & Hrest). exists (line :: lines).
    assert (E : did ++ List.map Heard (line :: lines) = (did ++ [Heard line]) ++ List.map Heard lines) by (by rewrite <- app_assoc). rewrite E. split; [cbn; lia|]. split; [done|]. destruct received as [[i answer]|error]; [|done].
    destruct Hrest as (before & l & e & -> & Hrest). by exists (line :: before), l, e.
Qed.

Lemma asked_lines (lines : list (list Z)) : asked (List.map Heard lines) = [].
Proof. by induction lines. Qed.

Lemma heard_lines (lines : list (list Z)) : heard (List.map Heard lines) = lines.
Proof. induction lines as [|line lines IH]; [done|]. cbn. by f_equal. Qed.

Lemma size_taken (waiting : gmap Z nat) i index : waiting !! i = Some index -> size waiting = S (size (delete i waiting)).
Proof. intros Hi. rewrite <- (insert_delete_id waiting i index Hi) at 1. by rewrite map_size_insert_None by apply lookup_delete_eq. Qed.

Lemma going_answer conn waiting queue did handed conn' i index answer : going conn waiting queue did handed -> waiting !! i = Some index ->
  receive read_as conn waiting = (conn', Ok (i, answer)) -> exists more, going conn' (delete i waiting) queue (did ++ more) (handed ++ [(index, answer)]).
Proof.
  intros Hg Hi Hreceive. pose proof (going_counts _ _ _ _ _ Hg) as Hc. destruct Hg as [Hl Hw Ha Hq Hs Ho Hasked Hheard Hr].
  destruct (receive_right _ _ _ _ _ _ Hl Hr Ho Hreceive) as (lines & Hn & Hlog & before & line & e & -> & He & Hid & _ & -> & Hread & Hopen).
  exists (List.map Heard (before ++ [line])). set (more := List.map Heard (before ++ [line])) in *. assert (Hmore : asked more = [] /\ heard more = before ++ [line]) by (split; [apply asked_lines|apply heard_lines]).
  destruct Hmore as [Hm1 Hm2]. split; [done| | |done| | | | |done].
  - intros j k [_ Hk]%lookup_delete_Some. destruct (Hw j k Hk) as (b & request & a & -> & Hrest). exists b, request, (a ++ more). by rewrite <- app_assoc.
  - rewrite <- Ha, map_app, <- app_assoc. apply Permutation_app_head. cbn [List.map app]. by rewrite <- (map_to_list_delete waiting i index Hi).
  - intros k a [Hin|[[= <- <-]|[]]]%in_app_or; [exact (said_more _ _ _ Hs _ _ Hin)|]. destruct (Hw i index Hi) as (b & request & c & -> & Hid' & Hm & Hall). exists request. split; [done|]. split; [done|].
    exists b, (c ++ List.map Heard before), [], line, e. split; [|by rewrite Hid'; split]. unfold more. rewrite map_app. cbn [List.map app]. rewrite <- !app_assoc. by cbn [app].
  - by rewrite Hopen, dom_delete_L.
  - rewrite asked_app, Hm1, app_nil_r, length_app, Hasked. rewrite (size_taken waiting i index Hi). cbn [length]. lia.
  - rewrite heard_app, Hm2, (length_app handed), (length_app (heard did)), Nat.mul_add_distr_l. cbn [length]. rewrite Nat.mul_1_r. lia.
Qed.

Lemma receive_ended conn waiting queue did handed conn' error : going conn waiting queue did handed -> waiting <> ∅ -> receive read_as conn waiting = (conn', Err error) ->
  exists more, ended conn' (did ++ more) handed.
Proof.
  intros Hg Hne Hreceive. pose proof (going_counts _ _ _ _ _ Hg) as Hc. destruct (going_ended _ _ _ _ _ Hg) as [_ Hfew Hs Ha Hh _].
  destruct (receive_right _ _ _ _ _ _ (g_logged _ _ _ _ _ Hg) (g_read _ _ _ _ _ Hg) (g_open _ _ _ _ _ Hg) Hreceive) as (lines & Hn & Hlog & Hread). exists (List.map Heard lines).
  pose proof (g_heard _ _ _ _ _ Hg) as Hheard. assert (size waiting <> 0)%nat by (by apply map_size_non_empty_iff). split; [done|done|by apply said_more| | |done].
  - by rewrite asked_app, asked_lines, app_nil_r.
  - rewrite heard_app, heard_lines, length_app. etrans; [apply (Nat.add_le_mono _ _ _ _ Hheard Hn)|]. rewrite <- Nat.mul_succ_r. apply Nat.mul_le_mono_l. lia.
Qed.

Section Each.
Context {S : Type} (each : S -> nat -> result T CallError -> S * result unit CallError) (state0 : S).

(** The turns counted are enough: more change nothing. *)
Lemma turns_enough n : forall conn waiting queue did handed state, going conn waiting queue did handed -> (size waiting + length queue <= n)%nat ->
  rounds read_as (Datatypes.S n) method conn waiting queue each state = rounds read_as n method conn waiting queue each state.
Proof.
  induction n as [|n IH]; intros conn waiting queue did handed state Hg Hn.
  { destruct queue; [|cbn in Hn; lia]. assert (size waiting = 0)%nat as ->%map_size_empty_inv by (cbn in Hn; lia). cbn [rounds fill]. rewrite map_size_empty. change (0 <? WINDOW)%nat with true. cbv iota. by rewrite bool_decide_true. }
  remember (Datatypes.S n) as turns eqn:Et. rewrite Et at 2. cbn [rounds]. destruct (fill method conn waiting queue) as [conn1 [[waiting1 queue1]|error]] eqn:Efill; [|done].
  destruct (fill_right _ _ _ _ _ _ _ Hg Efill) as [more1 [Hg1 _]]. pose proof (going_counts _ _ _ _ _ Hg). pose proof (going_counts _ _ _ _ _ Hg1). case_bool_decide; [done|].
  destruct (receive read_as conn1 waiting1) as [conn2 [[i answer]|error]] eqn:Ereceive; [|done].
  destruct (receive_right _ _ _ _ _ _ (g_logged _ _ _ _ _ Hg1) (g_read _ _ _ _ _ Hg1) (g_open _ _ _ _ _ Hg1) Ereceive) as (_ & _ & _ & _ & _ & _ & _ & _ & _ & [index Hi] & _).
  rewrite Hi. destruct (going_answer _ _ _ _ _ _ _ _ _ Hg1 Hi Ereceive) as [more2 Hg2]. destruct (each state index answer) as [next [u|error]]; [|done].
  eapply IH; [exact Hg2|]. pose proof (size_taken waiting1 i index Hi). lia.
Qed.

(** What a round comes to: every answer handed over, or an end, by the
    caller or by the connection. *)
Definition outcome_of (handed : list (nat * result T CallError)) (state : S) (outcome : result unit CallError) : Prop :=
  feed each state0 handed = (state, outcome) /\ (outcome = Ok tt -> List.map fst handed ≡ₚ List.map fst all)
  \/ feed each state0 handed = (state, Ok tt) /\ exists error, outcome = Err error.

(** A round that went through leaves nothing unanswered. *)
Definition settled (outcome : result unit CallError) (conn : Connection) (did : list Did) : Prop :=
  outcome = Ok tt -> outstanding did = ∅ /\ (small -> read conn <= top).

Lemma rounds_right n : forall conn waiting queue did handed state conn' state' outcome, (size waiting + length queue <= n)%nat ->
  going conn waiting queue did handed -> feed each state0 handed = (state, Ok tt) ->
  rounds read_as n method conn waiting queue each state = (conn', state', outcome) ->
  exists more handed', ended conn' (did ++ more) handed' /\ settled outcome conn' (did ++ more) /\ outcome_of handed' state' outcome.
Proof.
  assert (Hover : forall conn queue did handed state, going conn ∅ queue did handed -> queue = [] -> feed each state0 handed = (state, Ok tt) ->
    exists more handed', ended conn (did ++ more) handed' /\ settled (Ok tt) conn (did ++ more) /\ outcome_of handed' state (Ok tt)).
  { intros conn queue did handed state Hg -> Hf. exists [], handed. rewrite app_nil_r. split; [by eapply going_ended|].
    split; [intros _; split; [by rewrite (g_open _ _ _ _ _ Hg)|by apply (g_read _ _ _ _ _ Hg)]|]. left. split; [done|]. intros _.
    pose proof (g_all _ _ _ _ _ Hg) as Hall. rewrite map_to_list_empty in Hall. cbn [List.map app] in Hall. by rewrite app_nil_r in Hall. }
  induction n as [|n IH]; intros conn waiting queue did handed state conn' state' outcome Hn Hg Hf Hrounds; cbn [rounds] in Hrounds.
  { injection Hrounds as <- <- <-. destruct queue; [|cbn in Hn; lia]. assert (size waiting = 0)%nat as ->%map_size_empty_inv by (cbn in Hn; lia). by eapply Hover. }
  destruct (fill method conn waiting queue) as [conn1 [[waiting1 queue1]|error]] eqn:Efill; destruct (fill_right _ _ _ _ _ _ _ Hg Efill) as [more1 Hmore1].
  2: { injection Hrounds as <- <- <-. exists more1, handed. split; [done|]. split; [done|]. right. split; [done|]. by exists error. }
  destruct Hmore1 as [Hg1 Hq1]. assert (Hcount : (size waiting1 + length queue1 = size waiting + length queue)%nat).
  { pose proof (going_counts _ _ _ _ _ Hg). pose proof (going_counts _ _ _ _ _ Hg1). lia. }
  case_bool_decide as Hempty.
  { injection Hrounds as <- <- <-. subst waiting1. destruct (Hover _ _ _ _ _ Hg1 (Hq1 eq_refl) Hf) as (more & handed' & He & Ho). exists (more1 ++ more), handed'. by rewrite app_assoc. }
  destruct (receive read_as conn1 waiting1) as [conn2 [[i answer]|error]] eqn:Ereceive.
  2: { injection Hrounds as <- <- <-. destruct (receive_ended _ _ _ _ _ _ _ Hg1 Hempty Ereceive) as [more He]. exists (more1 ++ more), handed. rewrite app_assoc. split; [done|]. split; [done|]. right. split; [done|]. by exists error. }
  destruct (receive_right _ _ _ _ _ _ (g_logged _ _ _ _ _ Hg1) (g_read _ _ _ _ _ Hg1) (g_open _ _ _ _ _ Hg1) Ereceive) as (_ & _ & _ & _ & _ & _ & _ & _ & _ & [index Hi] & _).
  rewrite Hi in Hrounds. destruct (going_answer _ _ _ _ _ _ _ _ _ Hg1 Hi Ereceive) as [more2 Hg2].
  assert (Hfeed : feed each state0 (handed ++ [(index, answer)]) = match each state index answer with (s, Ok _) => (s, Ok tt) | over => over end).
  { rewrite feed_app, Hf. cbn [feed]. by destruct (each state index answer) as [s [u|e]]. }
  destruct (each state index answer) as [state2 [u|error]].
  - assert (Hless : (size (delete i waiting1) + length queue1 <= n)%nat) by (pose proof (size_taken waiting1 i index Hi); lia).
    destruct (IH _ _ _ _ _ _ _ _ _ Hless Hg2 Hfeed Hrounds) as (more & handed' & He & Ho).
    exists (more1 ++ more2 ++ more), handed'. by rewrite !app_assoc.
  - injection Hrounds as <- <- <-. exists (more1 ++ more2), (handed ++ [(index, answer)]). rewrite app_assoc. split; [by eapply going_ended|]. split; [done|]. by left.
Qed.
End Each.
End Round.

Lemma started conn method queue : going (done_ conn) method queue (next_id conn) (read_max conn) (pauses conn) (read conn <= read_max conn) conn ∅ queue [] [].
Proof.
  split; try done; [|by intros index answer []].
  split; try done; [by rewrite app_nil_r|constructor|]. intros before after E. symmetry in E. apply app_eq_nil in E as [-> _]. apply Nat.le_0_l.
Qed.

Lemma round_right {S : Type} conn method queue (each : S -> nat -> result T CallError -> S * result unit CallError) state conn' state' outcome :
  round read_as method conn queue each state = (conn', state', outcome) ->
  exists did handed, ended (done_ conn) method queue (next_id conn) (read_max conn) (pauses conn) (read conn <= read_max conn) conn' did handed
  /\ settled (read_max conn) (read conn <= read_max conn) outcome conn' did /\ outcome_of queue each state handed state' outcome.
Proof.
  intros Hround. apply (rounds_right _ _ _ _ _ _ _ each state _ _ _ _ [] [] _ _ _ _ ltac:(by rewrite map_size_empty) (started conn method queue) eq_refl Hround).
Qed.

(** ** A batch *)

Section Started.
Context {S : Type}.

Definition is_busy (answer : result T CallError) : bool := match answer with Err (Busy _) => true | _ => false end.
Definition told (answer : result T CallError) : result T CallError := match answer with Err (Busy words) => Err (busy words) | _ => answer end.

(** What a first round puts off, and what it hands on. *)
Definition put_off (patient : bool) (handed : list (nat * result T CallError)) : list nat := List.map fst (retain (fun one => patient && is_busy one.2) handed).
Definition told_each (handed : list (nat * result T CallError)) : list (nat * result T CallError) := List.map (fun one => (one.1, told one.2)) handed.
Definition handed_on (patient : bool) (handed : list (nat * result T CallError)) : list (nat * result T CallError) :=
  told_each (retain (fun one => negb (patient && is_busy one.2)) handed).

Lemma at_last_feed (each : S -> nat -> result T CallError -> S * result unit CallError) handed : forall state, feed (at_last each) state handed = feed each state (told_each handed).
Proof.
  induction handed as [|[index answer] handed IH]; intros state; [done|]. cbn [feed told_each List.map fst snd]. fold (told_each handed).
  assert (at_last each state index answer = each state index (told answer)) as -> by (by destruct answer as [|[]]). destruct (each state index (told answer)) as [next [u|e]]; [apply IH|done].
Qed.

Lemma at_first_feed patient (each : S -> nat -> result T CallError -> S * result unit CallError) handed : forall state later state' later' outcome,
  feed (at_first patient each) (state, later) handed = ((state', later'), outcome) ->
  feed each state (handed_on patient handed) = (state', outcome) /\ (outcome = Ok tt -> later' = later ++ put_off patient handed).
Proof.
  unfold handed_on, put_off, told_each, retain. induction handed as [|[index answer] handed IH]; intros state later state' later' outcome Hf; cbn [feed List.filter snd] in *.
  { injection Hf as <- <- <-. by rewrite app_nil_r. }
  destruct (patient && is_busy answer) eqn:Eoff; cbn [negb List.map fst snd].
  - apply andb_true_iff in Eoff as [-> Hbusy]. destruct answer as [|[|words| |]]; try done. cbn [at_first fst snd] in Hf. destruct (IH _ _ _ _ _ Hf) as [H1 H2]. split; [done|].
    intros Ho. by rewrite (H2 Ho), <- app_assoc.
  - assert (E : at_first patient each (state, later) index answer = let '(next, o) := each state index (told answer) in ((next, later), o)).
    { destruct answer as [|[]]; try done. cbn [is_busy] in Eoff. rewrite andb_true_r in Eoff. by rewrite Eoff. }
    rewrite E in Hf. cbn [feed]. destruct (each state index (told answer)) as [next [u|e]]; [by apply IH|]. by injection Hf as <- <- <-.
Qed.

Lemma told_fst handed : List.map fst (told_each handed) = List.map fst handed.
Proof. unfold told_each. by rewrite map_map. Qed.

Lemma off_and_on patient handed : List.map fst handed ≡ₚ List.map fst (handed_on patient handed) ++ put_off patient handed.
Proof.
  unfold handed_on, put_off. rewrite told_fst, <- map_app. apply Permutation_map. rewrite (retain_either (fun one => patient && is_busy one.2) handed) at 1. apply Permutation_app_comm.
Qed.

Lemma numbered_fst (params : list Value) : List.map fst (imap pair params) = seq 0 (length params).
Proof. rewrite <- (map_id (seq 0 _)). change (List.map fst (imap pair params) = (fun i => i) <$> seq 0 (length params)). rewrite <- imap_seq_0. by rewrite fmap_imap. Qed.

Lemma numbered_In (params : list Value) index p : In (index, p) (imap pair params) -> params !! index = Some p.
Proof. intros Hin%list_elem_of_In. apply elem_of_lookup_imap in Hin as (i & q & [= -> ->] & Hq). done. Qed.

Lemma asked_again_fst (params : list Value) indices : (forall index, In index indices -> (index < length params)%nat) -> List.map fst (asked_again params indices) = indices.
Proof.
  induction indices as [|index indices IH]; intros Hall; [done|]. unfold asked_again in *. cbn [omap list_omap]. destruct (lookup_lt_is_Some_2 params index ltac:(apply Hall; by left)) as [p ->].
  cbn [option_map List.map fst]. f_equal. apply IH. intros j Hj. apply Hall. by right.
Qed.

Lemma asked_again_In (params : list Value) indices index p : In (index, p) (asked_again params indices) -> params !! index = Some p.
Proof. intros Hin%list_elem_of_In. apply list_elem_of_omap in Hin as (i & _ & Hi). destruct (params !! i) as [q|] eqn:E; [|done]. by injection Hi as <- <-. Qed.

(** A batch is a round, and for what it put off another. *)
Lemma batch_rounds conn method params (each : S -> nat -> result T CallError -> S * result unit CallError) state conn' state' outcome :
  batch read_as conn method params each state = (conn', state', outcome) ->
  let patient := 0 <? pauses conn in
  exists conn1 did handed, ended (done_ conn) method (imap pair params) (next_id conn) (read_max conn) (pauses conn) (read conn <= read_max conn) conn1 did handed
  /\ ((conn' = conn1 /\ ((feed each state (handed_on patient handed) = (state', outcome) /\ (outcome = Ok tt -> List.map fst (handed_on patient handed) ≡ₚ seq 0 (length params)))
                          \/ feed each state (handed_on patient handed) = (state', Ok tt) /\ exists error, outcome = Err error))
      \/ (patient = true /\ settled (read_max conn) (read conn <= read_max conn) (Ok tt) conn1 did
          /\ exists state1 did2 handed2, let again := asked_again params (sort_by Nat.leb (put_off patient handed)) in
             feed each state (handed_on patient handed) = (state1, Ok tt)
             /\ List.map fst (handed_on patient handed) ++ put_off patient handed ≡ₚ seq 0 (length params) /\ List.map fst again ≡ₚ put_off patient handed
             /\ ended (done_ conn1) method again (next_id conn1) (read_max conn1) (pauses conn1 - 1) (read conn1 <= read_max conn1) conn' did2 handed2
             /\ outcome_of again each state1 (told_each handed2) state' outcome)).
Proof.
  intros Hbatch patient. unfold batch in Hbatch. fold patient in Hbatch. destruct (round read_as method conn (imap pair params) (at_first patient each) (state, [])) as [[conn1 [state1 later]] o1] eqn:E1.
  destruct (round_right _ _ _ _ _ _ _ _ E1) as (did & handed & He & Hset & Hout). exists conn1, did, handed. split; [exact He|]. rewrite <- (numbered_fst params).
  assert (Hend : forall error, o1 = Err error -> (conn1, state1, Err error) = (conn', state', outcome) ->
    conn' = conn1 /\ ((feed each state (handed_on patient handed) = (state', outcome) /\ (outcome = Ok tt -> List.map fst (handed_on patient handed) ≡ₚ List.map fst (imap pair params)))
      \/ feed each state (handed_on patient handed) = (state', Ok tt) /\ exists error, outcome = Err error)).
  { intros error -> [= <- <- <-]. split; [done|]. destruct Hout as [[Hf Hall]|[Hf _]]; apply at_first_feed in Hf as [Hf _]; [by left|right; split; [done|by exists error]]. }
  destruct o1 as [[]|error]; [clear Hend|left; by apply (Hend error)].
  destruct Hout as [[Hf Hall]|[_ [error [=]]]]. apply at_first_feed in Hf as [Hf Hlater]. specialize (Hlater eq_refl). specialize (Hall eq_refl). cbn [app] in Hlater. rewrite off_and_on in Hall.
  destruct later as [|index later].
  { injection Hbatch as <- <- <-. left. split; [done|]. left. split; [exact Hf|]. intros _. rewrite <- Hlater, app_nil_r in Hall. exact Hall. }
  rewrite Hlater in Hbatch. assert (Hp : patient = true). { destruct patient; [done|]. unfold put_off in Hlater. cbn [andb] in Hlater. 
    assert (E : forall l : list (nat * result T CallError), retain (fun _ => false) l = []) by (intros l; by induction l). by rewrite E in Hlater. }
  right. split; [exact Hp|]. split; [exact Hset|]. destruct (round_right _ _ _ _ _ _ _ _ Hbatch) as (did2 & handed2 & He2 & _ & Hout2). exists state1, did2, handed2. cbn zeta.
  split; [exact Hf|]. split; [exact Hall|]. split; [|split; [exact He2|]].
  - rewrite asked_again_fst; [apply sort_by_perm|]. intros i Hi%sort_by_In. assert (Hin : In i (List.map fst (imap pair params))) by (eapply Permutation_in; [exact Hall|]; apply in_or_app; by right).
    rewrite numbered_fst in Hin. apply in_seq in Hin. lia.
  - destruct Hout2 as [[Hf2 Hall2]|[Hf2 Herr]]; rewrite at_last_feed in Hf2; [left|by right]. by rewrite told_fst.
Qed.

Lemma NoDup_few {A} (l k : list A) : l ⊆+ k -> NoDup k -> NoDup l.
Proof. intros [rest ->]%submseteq_Permutation. by intros (Hl & _ & _)%list.NoDup_app. Qed.

Lemma answered_asked did request answer : answered did request answer -> In request (asked did).
Proof. intros (a & b & c & line & e & -> & _). rewrite asked_app. cbn. apply in_or_app. right. by left. Qed.

Lemma handed_on_In patient handed index answer : In (index, answer) (handed_on patient handed) ->
  exists said, In (index, said) handed /\ answer = told said /\ (is_busy said = true -> patient = false).
Proof.
  unfold handed_on, told_each. intros ([i a] & [= -> <-] & [Hin Hb]%retain_In)%in_map_iff. exists a. split; [done|]. split; [done|]. cbn [snd] in Hb. intros Hbusy. rewrite Hbusy, andb_true_r in Hb. by apply negb_true_iff.
Qed.

Lemma put_off_In patient handed index : In index (put_off patient handed) -> exists words, In (index, Err (Busy words)) handed.
Proof.
  unfold put_off. intros ([i a] & <- & [Hin Hb]%retain_In)%in_map_iff. apply andb_true_iff in Hb as [_ Hb]. destruct a as [|[|words| |]]; try done. by exists words.
Qed.

Lemma ids_apart (did did2 : list Did) middle : Forall (fun request => id request < middle) (asked did) -> Forall (fun request => middle <= id request) (asked did2) ->
  StronglySorted Z.lt (List.map id (asked did)) -> StronglySorted Z.lt (List.map id (asked did2)) -> StronglySorted Z.lt (List.map id (asked (did ++ did2))).
Proof.
  intros Hl Hr Hs Hs2. rewrite asked_app, map_app. induction (asked did) as [|request l IH]; [done|]. cbn [List.map app] in *. apply StronglySorted_inv in Hs as [Hs Hall]. apply list.Forall_cons in Hl as [Hi Hl].
  constructor; [by apply IH|]. apply list.Forall_app. split; [done|]. apply List.Forall_map. eapply List.Forall_impl; [|exact Hr]. cbn. lia.
Qed.

(** What a batch handed over, and what becomes of a refusal for want of
    memory: no wait was left, or the same request met one before. *)
Definition its_own (conn : Connection) method (params : list Value) (did : list Did) (index : nat) (answer : result T CallError) : Prop :=
  exists request said, params !! index = Some (o_params request) /\ o_method request = method /\ answered did request said /\ answer = told said
  /\ (is_busy said = true -> pauses conn <= 0
      \/ exists earlier words, id earlier < id request /\ o_params earlier = o_params request /\ answered did earlier (Err (Busy words))).

(** Whatever a server answers, and in whatever order, a batch hands over
    the answer to each of its requests once at most, to the index of its
    own parameters: the line of an answer came after its request, under
    the id of it alone. When the batch goes through, each index had its
    answer; when it does not, the caller ended it or the connection did. A
    request turned down for want of memory is asked again, while the
    connection has a wait left, before its refusal is handed over. *)
Theorem answers_are_their_own conn method params (each : S -> nat -> result T CallError -> S * result unit CallError) state :
  let '(conn', state', outcome) := batch read_as conn method params each state in
  exists did handed, done_ conn' = done_ conn ++ did /\ StronglySorted Z.lt (List.map id (asked did))
  /\ (feed each state handed = (state', outcome) /\ (outcome = Ok tt -> List.map fst handed ≡ₚ seq 0 (length params))
      \/ feed each state handed = (state', Ok tt) /\ exists error, outcome = Err error)
  /\ NoDup (List.map fst handed)
  /\ forall index answer, In (index, answer) handed -> its_own conn method params did index answer.
Proof.
  destruct (batch read_as conn method params each state) as [[conn' state'] outcome] eqn:Ebatch. destruct (batch_rounds _ _ _ _ _ _ _ _ Ebatch) as (conn1 & did & handed & He & Hcase). set (patient := 0 <? pauses conn) in *.
  destruct He as [[Hd _ Hp Hi Hs Hf _] Hfew Hsaid _ _ _]. assert (Hnd : NoDup (List.map fst (handed_on patient handed) ++ put_off patient handed)).
  { rewrite <- off_and_on. eapply NoDup_few; [exact Hfew|]. rewrite numbered_fst. apply NoDup_ListNoDup, seq_NoDup. }
  assert (Hfirst : forall index answer, In (index, answer) (handed_on patient handed) -> its_own conn method params did index answer).
  { intros index answer (said_ & Hin & -> & Hb)%handed_on_In. destruct (Hsaid _ _ Hin) as (request & Hall & Hm & Ha). exists request, said_. split; [by apply numbered_In|]. repeat (split; [done|]).
    intros Hbusy. left. specialize (Hb Hbusy). unfold patient in Hb. lia. }
  destruct Hcase as [[-> Hout]|(_ & _ & state1 & did2 & handed2 & Hf1 & Hall1 & Hagain & He2 & Hout)].
  { exists did, (handed_on patient handed). by apply list.NoDup_app in Hnd as (Hnd & _ & _). }
  destruct He2 as [[Hd2 _ _ Hi2 Hs2 _ _] Hfew2 Hsaid2 _ _ _]. exists (did ++ did2), (handed_on patient handed ++ told_each handed2).
  split; [by rewrite Hd2, Hd, app_assoc|]. split; [|split; [|split]].
  - apply (ids_apart did did2 (next_id conn1)); try done; (eapply List.Forall_impl; [|eassumption]); cbn; lia.
  - rewrite feed_app, Hf1. destruct Hout as [[Hf2 Hall2]|[Hf2 Herr]]; [left|by right]. split; [done|]. intros Ho. by rewrite map_app, (Hall2 Ho), Hagain.
  - rewrite map_app, told_fst. eapply NoDup_few; [|exact Hnd]. apply submseteq_skips_l. by rewrite <- Hagain.
  - intros index answer [Hin|Hin]%in_app_or.
    + destruct (Hfirst _ _ Hin) as (request & said_ & Hq & Hm & Ha & -> & Hb). exists request, said_. repeat (split; [done || by apply answered_more|]). intros Hbusy.
      destruct (Hb Hbusy) as [?|(earlier & words & H1 & H2 & H3)]; [by left|]. right. exists earlier, words. repeat (split; [done|]). by apply answered_more.
    + apply in_map_iff in Hin as ([i said_] & [= -> <-] & Hin). destruct (Hsaid2 _ _ Hin) as (request & Hall & Hm & Ha). pose proof (asked_again_In _ _ _ _ Hall) as Hq.
      exists request, said_. split; [done|]. split; [done|]. split; [by apply answered_later|]. split; [done|]. intros _. right.
      assert (Hoff : In index (put_off patient handed)) by (eapply Permutation_in; [exact Hagain|]; by apply (in_map fst) in Hall).
      destruct (put_off_In _ _ _ Hoff) as [words Hin1]. destruct (Hsaid _ _ Hin1) as (earlier & Hq1%numbered_In & _ & Ha1). exists earlier, words.
      rewrite List.Forall_forall in Hi, Hi2. specialize (Hi _ (answered_asked _ _ _ Ha1)). specialize (Hi2 _ (answered_asked _ _ _ Ha)). cbn in Hi, Hi2.
      split; [lia|]. split; [congruence|]. by apply answered_more.
Qed.

Lemma window_joined (did did2 : list Did) : outstanding did = ∅ -> within_window did -> within_window did2 -> within_window (did ++ did2).
Proof.
  intros Ho Hw Hw2 before after E. apply app_eq_inv in E as [(k & -> & _)|(k & -> & ->)]; [by apply (Hw before k)|].
  unfold outstanding in *. rewrite fold_left_app, Ho. by apply (Hw2 k after).
Qed.

(** Whatever a server sends, a batch keeps at most thirty-two requests
    unanswered at any time, asks each once, and twice only what it had a
    wait left for, takes one wait at most, hears at most a thousand lines
    a request, and reads nothing past the bound of its connection but the
    line that crosses it. *)
Theorem batch_is_bounded conn method params (each : S -> nat -> result T CallError -> S * result unit CallError) state :
  let '(conn', _, _) := batch read_as conn method params each state in
  let most := if 0 <? pauses conn then (2 * length params)%nat else length params in
  exists did, done_ conn' = done_ conn ++ did /\ within_window did
  /\ (length (asked did) <= most)%nat /\ (length (heard did) <= MAX_STRAY * most)%nat
  /\ (pauses conn' = pauses conn \/ 0 < pauses conn /\ pauses conn' = pauses conn - 1) /\ read_max conn' = read_max conn
  /\ (read conn <= read_max conn -> within_read (read_max conn) conn' did).
Proof.
  destruct (batch read_as conn method params each state) as [[conn' state'] outcome] eqn:Ebatch. cbn zeta. destruct (batch_rounds _ _ _ _ _ _ _ _ Ebatch) as (conn1 & did & handed & He & Hcase).
  destruct He as [[Hd Hm Hp _ _ _ Hw] _ _ Ha Hh Hr]. rewrite length_imap in Ha, Hh.
  destruct Hcase as [[-> _]|(Hpatient & Hset & state1 & did2 & handed2 & _ & Hall1 & Hagain & He2 & _)].
  { exists did. assert (Hmost : (length params <= if (0 <? pauses conn)%Z then 2 * length params else length params)%nat) by (destruct (0 <? pauses conn); lia).
    split; [done|]. split; [done|]. split; [lia|]. split; [etrans; [exact Hh|]; by apply Nat.mul_le_mono_l|]. split; [by left|]. by split. }
  rewrite Hpatient. destruct (Hset eq_refl) as [Hopen Hread]. destruct He2 as [[Hd2 Hm2 Hp2 _ _ _ Hw2] _ _ Ha2 Hh2 Hr2].
  assert (Hfew : (length (asked_again params (sort_by Nat.leb (put_off (0 <? pauses conn)%Z handed))) <= length params)%nat).
  { rewrite <- (List.length_map fst), (Permutation_length Hagain), <- (length_seq (length params) 0), <- (Permutation_length Hall1), length_app. lia. }
  exists (did ++ did2). split; [by rewrite Hd2, Hd, app_assoc|]. split; [by apply window_joined|]. rewrite asked_app, heard_app, !length_app.
  split; [lia|]. split; [|split; [right; lia|split; [by rewrite Hm2|]]].
  - replace (2 * length params)%nat with (length params + length params)%nat by lia. rewrite Nat.mul_add_distr_l. apply Nat.add_le_mono; [done|]. etrans; [exact Hh2|]. by apply Nat.mul_le_mono_l.
  - intros Hs. specialize (Hread Hs). rewrite Hm in Hr2. destruct (Hr2 Hread) as [?|(before & line & Hb & Hin & Hle)]; [by left|]. right. exists before, line. split; [done|]. split; [apply in_or_app; by right|done].
Qed.
End Started.
End Told.
