(* ===== verification/WatchList.v ===== *)
(** [watch/mod.rs], what is watched: the list of scripts a watch takes of
    the wallets, what a server refused of it, what each wallet's part
    comes to, and what a screen says of what is left out. The clock counts
    nanoseconds. A script, the decoder of its hexadecimal, its script
    hash and the counters of a server are of other crates or files:
    parameters. *)
From S2P Require Import Prelude Utf8 Text Store.
From Stdlib Require Import Ascii.
From stdpp Require sorting.

(** ** Limits *)

Definition MAX_SCRIPTS_PER_WALLET : Z := 200.
Definition MAX_SCRIPTS : Z := 2000.
Definition OWN_NODE_MAX_SCRIPTS : Z := 20000.
Definition OWN_NODE_MAX_SCRIPTS_PER_WALLET : Z := OWN_NODE_MAX_SCRIPTS.
Definition MAX_SCRIPT_BYTES : Z := 10000.

Record WatchLimits := { per_wallet : Z; total : Z }.

Module WatchLimits.
Definition DEFAULT : WatchLimits := {| per_wallet := MAX_SCRIPTS_PER_WALLET; total := MAX_SCRIPTS |}.
Definition OWN_NODE : WatchLimits := {| per_wallet := OWN_NODE_MAX_SCRIPTS_PER_WALLET; total := OWN_NODE_MAX_SCRIPTS |}.
End WatchLimits.

(** [BackendConfig::is_own_node]. *)
Definition is_own_node (backend : BackendConfig) : bool :=
  match backend with
  | Public _ => false
  | CustomEsplora _ own_node | CustomElectrum _ own_node => own_node
  end.

Definition limits_of (backend : BackendConfig) : WatchLimits :=
  if is_own_node backend then WatchLimits.OWN_NODE else WatchLimits.DEFAULT.

(** ** The servers' software *)

Inductive ServerSoftware := Fulcrum | ElectrumX | ElectrsEsplora | MempoolElectrs.
Inductive Software := Named (software : ServerSoftware) | Electrs | Unknown.

Definition software_settings (software : ServerSoftware) : list string :=
  match software with
  | Fulcrum => ["max_subs_per_ip"]
  | ElectrumX => ["COST_SOFT_LIMIT"; "COST_HARD_LIMIT"]
  | ElectrsEsplora => ["--electrum-subscription-limit"]
  | MempoolElectrs => ["--electrum-max-subscriptions"]
  end.

Definition software_of (words : option string) : Software :=
  let name := lower (trim (unwrap_or words "")) in
  if starts_with "fulcrum" name then Named Fulcrum
  else if starts_with "electrumx" name then Named ElectrumX
  else if starts_with "electrs-esplora" name then Named ElectrsEsplora
  else if starts_with "mempool-electrs" name then Named MempoolElectrs
  else if starts_with "electrs/" name then Electrs
  else Unknown.

Inductive Remedy :=
| OwnNode (limits : WatchLimits)
| RaiseServerLimit (server : option ServerSoftware) (settings : list string).

Definition remedy_raise (software : option string) : option Remedy :=
  match software_of software with
  | Named server => Some (RaiseServerLimit (Some server) (software_settings server))
  | Electrs => None
  | Unknown => Some (RaiseServerLimit None [])
  end.

(** ** Refusals *)

(** [Duration::from_secs] and [from_millis]: the clock counts
    nanoseconds. *)
Definition secs (n : Z) : Z := n * 1000000000.
Definition millis (n : Z) : Z := n * 1000000.

Record Timings := {
  quiet : Z;
  burst : Z;
  gap : Z;
  keepalive : Z;
  pong : Z;
  backoff_first : Z;
  backoff_cap : Z;
  stable : Z;
  connect : Z;
  tor_connect : Z;
  poll : Z;
  reprobe : Z;
  retries : Z * Z;
  hold : Z;
  hold_cap : Z;
  due : Z;
  t_refused : Z;
  limit_kept : Z;
  zero_limit_kept : Z;
  first_session : Z;
  stale : Z;
}.

(** [Timings::of], on the [keepalive_secs] of a configuration. *)
Definition timings_of (keepalive_secs : option Z) : Timings :=
  let keepalive := Z.min (Z.max (unwrap_or keepalive_secs 240) 30) 540 in
  {| quiet := millis 300; burst := secs 2; gap := secs 1; keepalive := secs keepalive; pong := secs 20;
     backoff_first := secs 2; backoff_cap := secs 120; stable := secs 60; connect := secs 20; tor_connect := secs 60;
     poll := secs 60; reprobe := secs (30 * 60); retries := (secs 3, secs 10); hold := secs 30; hold_cap := secs (10 * 60);
     due := secs (10 * 60); t_refused := secs (15 * 60); limit_kept := secs (24 * 60 * 60);
     zero_limit_kept := secs (60 * 60); first_session := secs 20; stale := secs (2 * 60 * 60) |}.

Record Refusals := {
  r_limit : option nat;
  learned : option Z;
  cut : bool;
  refused : gset string;
  r_left_out : gset string;
}.

Definition no_refusals : Refusals :=
  {| r_limit := None; learned := None; cut := false; refused := ∅; r_left_out := ∅ |}.

Definition learn (r : Refusals) (limit : nat) (now : Z) : Refusals :=
  {| r_limit := Some limit; learned := Some now; cut := false; refused := refused r; r_left_out := r_left_out r |}.

Definition learn_cut (r : Refusals) (limit : nat) (now : Z) : Refusals :=
  let r := learn r limit now in
  {| r_limit := r_limit r; learned := learned r; cut := true; refused := refused r; r_left_out := r_left_out r |}.

Definition ran_out (r : Refusals) (timings : Timings) (now : Z) : bool :=
  match r_limit r, learned r with
  | Some limit, Some learned =>
    if cut r then false
    else
      let kept := if (limit =? 0)%nat then zero_limit_kept timings else limit_kept timings in
      if now <? learned then true else now - learned >=? kept
  | _, _ => false
  end.

(** ** The list *)

Section Lists.
(** [F]: the counters a server keeps of a script. *)
Context {Script F : Type} (from_hex : string -> option Script) (scripthash : Script -> string).

Record WatchedScript := {
  script : string;
  lookahead : bool;
  ws_status : option string;
  ws_counts : option F;
  history : list (string * Z);
}.

Record WatchedWallet := {
  wallet_id : string;
  scripts : list WatchedScript;
  has_pending : bool;
  pinned : bool;
  holds_coins : bool;
  unlisted : Z;
}.

Definition watchable (s : string) : bool :=
  negb (bool_decide (s = "")) && (Z.of_nat (String.length s) <=? 2 * MAX_SCRIPT_BYTES)
  && match from_hex s with Some _ => true | None => false end.

Definition no_scripts (wallets : list WatchedWallet) : bool :=
  all (fun wallet => all (fun listed => negb (watchable (script listed))) (scripts wallet)) wallets.

Record Entry := {
  e_script : Script;
  hex : string;
  e_scripthash : string;
  e_lookahead : bool;
  owners : list nat;
  statuses : list (option string);
  counts : list (option F);
  histories : list (list (string * Z));
}.

Record Watched := {
  wallets : list (string * bool);
  entries : list Entry;
  worth : list Z;
  by_hex : gmap string nat;
  by_scripthash : gmap string nat;
}.

(** [u32::try_from(n).unwrap_or(u32::MAX)]. *)
Definition count (n : nat) : Z := Z.min (Z.of_nat n) u32_max.

Definition worth_of (wallet : WatchedWallet) : Z :=
  let listed : gset string := list_to_set (List.map (fun listed => lower (script listed)) (scripts wallet)) in
  sat_add_u32 (count (size listed)) (unlisted wallet).

(** A status as kept: 64 characters of it. *)
Definition status_kept (listed : WatchedScript) : option string :=
  match ws_status listed with Some status => Some (of_chars (take 64 (chars status))) | None => None end.

(** A script already listed, listed again by the wallet at [owner]. *)
Definition share (owner : nat) (listed : WatchedScript) (entry : Entry) : Entry :=
  let new := negb (bool_decide (owner ∈ owners entry)) in
  {| e_script := e_script entry; hex := hex entry; e_scripthash := e_scripthash entry;
     e_lookahead := e_lookahead entry && lookahead listed;
     owners := if new then owners entry ++ [owner] else owners entry;
     statuses := if new then statuses entry ++ [status_kept listed] else statuses entry;
     counts := if new then counts entry ++ [ws_counts listed] else counts entry;
     histories := if new then histories entry ++ [history listed] else histories entry |}.

Definition new_entry (owner : nat) (listed : WatchedScript) (s : Script) : Entry :=
  {| e_script := s; hex := lower (script listed); e_scripthash := scripthash s;
     e_lookahead := lookahead listed; owners := [owner]; statuses := [status_kept listed];
     counts := [ws_counts listed]; histories := [history listed] |}.

(** One script of the list, of the wallet at [owner]. *)
Definition take_listed (limits : WatchLimits) (w : Watched) (visit : nat * WatchedScript) : Watched :=
  let '(owner, listed) := visit in
  if negb (watchable (script listed)) then w
  else
    let key := lower (script listed) in
    match by_hex w !! key with
    | Some index =>
      {| wallets := wallets w; worth := worth w; by_hex := by_hex w; by_scripthash := by_scripthash w;
         entries := alter (share owner listed) index (entries w) |}
    | None =>
      if total limits <=? Z.of_nat (length (entries w)) then w
      else
        match from_hex (script listed) with
        | None => w
        | Some s =>
          {| wallets := wallets w; worth := worth w;
             by_hex := <[key := length (entries w)]> (by_hex w);
             by_scripthash := <[scripthash s := length (entries w)]> (by_scripthash w);
             entries := entries w ++ [new_entry owner listed s] |}
        end
    end.

(** The scripts of one rank of a group, then of every rank. *)
Definition rank_visits (ws : list WatchedWallet) (group : list nat) (rank : nat) : list (nat * WatchedScript) :=
  omap (fun owner =>
    match ws !! owner with
    | Some wallet => match scripts wallet !! rank with Some listed => Some (owner, listed) | None => None end
    | None => None
    end) group.

Definition group_visits (limits : WatchLimits) (ws : list WatchedWallet) (group : list nat) : list (nat * WatchedScript) :=
  let taken owner := match ws !! owner with
                     | Some wallet => Nat.min (length (scripts wallet)) (Z.to_nat (per_wallet limits))
                     | None => 0%nat
                     end in
  let longest := foldr Nat.max 0%nat (List.map taken group) in
  List.concat (List.map (rank_visits ws group) (seq 0 longest)).

(** The wallets pinned, and the others, those that hold coins first. *)
Definition groups (ws : list WatchedWallet) : list nat * list nat :=
  let at_ f owner := match ws !! owner with Some wallet => f wallet | None => false end in
  let all := seq 0 (length ws) in
  let others := retain (fun owner => negb (at_ pinned owner)) all in
  (retain (at_ pinned) all,
   retain (at_ holds_coins) others ++ retain (fun owner => negb (at_ holds_coins owner)) others).

Definition visits (limits : WatchLimits) (ws : list WatchedWallet) : list (nat * WatchedScript) :=
  let '(pinned, others) := groups ws in group_visits limits ws pinned ++ group_visits limits ws others.

(** [Watched::new]. *)
Definition watched_new (ws : list WatchedWallet) (limits : WatchLimits) : Watched :=
  foldl (take_listed limits)
    {| wallets := List.map (fun wallet => (wallet_id wallet, has_pending wallet)) ws; entries := [];
       worth := List.map worth_of ws; by_hex := ∅; by_scripthash := ∅ |}
    (visits limits ws).

(** ** What is heard *)

Definition not_refused (refusals : option Refusals) (entry : Entry) : bool :=
  match refusals with None => true | Some r => negb (bool_decide (e_scripthash entry ∈ refused r)) end.

Definition heard (w : Watched) (refusals : option Refusals) : list Entry :=
  let kept := retain (not_refused refusals) (entries w) in
  match refusals with
  | Some {| r_limit := Some limit |} => take limit kept
  | _ => kept
  end.

Definition past_limit (w : Watched) (refusals : Refusals) : list Entry :=
  match r_limit refusals with
  | Some limit => drop limit (retain (not_refused (Some refusals)) (entries w))
  | None => []
  end.

Inductive Coverage := Live | Partial | SyncOnly.

Record WalletCoverage := {
  wc_wallet_id : string;
  coverage_ : Coverage;
  watched_scripts : Z;
  left_out_scripts : Z;
  refused_scripts : Z;
}.

Definition coverage_of (id : string) (watched left_out refused : Z) : WalletCoverage :=
  {| wc_wallet_id := id;
     coverage_ := if watched =? 0 then SyncOnly else if left_out =? 0 then Live else Partial;
     watched_scripts := watched; left_out_scripts := left_out; refused_scripts := refused |}.

(** The entries of each wallet, by its place. *)
Definition per_wallet_counts (n : nat) (l : list Entry) : list Z :=
  foldl (fun counts entry => foldl (fun counts owner => alter (fun c => sat_add_u32 c 1) owner counts) counts (owners entry))
    (replicate n 0) l.

Definition coverage (w : Watched) (refusals : option Refusals) : list WalletCoverage :=
  let listed := per_wallet_counts (length (wallets w)) (entries w) in
  let heard := per_wallet_counts (length (wallets w)) (heard w refusals) in
  List.map (fun '((id, _), (heard, listed), worth) =>
      coverage_of id heard (sat_sub worth heard) (sat_sub listed heard))
    (combine (combine (wallets w) (combine heard listed)) (worth w)).

Definition capped (w : Watched) (refusals : option Refusals) : list string :=
  List.map wc_wallet_id (retain (fun wallet => left_out_scripts wallet >? 0) (coverage w refusals)).

(** [Hub::retry_limit], on what the hub keeps of one server. *)
Definition retry_limit (w : Watched) (r : Refusals) (timings : Timings) (now : Z) : Refusals :=
  if negb (ran_out r timings now) then r
  else {| r_limit := None; learned := None; cut := cut r; refused := refused r;
          r_left_out := r_left_out r ∪ list_to_set (List.map e_scripthash (past_limit w r)) |}.
End Lists.
Arguments WatchedScript : clear implicits.
Arguments WatchedWallet : clear implicits.
Arguments Entry : clear implicits.
Arguments Watched : clear implicits.

(** ** What a screen says *)

Inductive LeftOutReason := LiveLimit | ServerRefused.

Record LeftOut := { reason : LeftOutReason; lo_limits : WatchLimits; own_node : bool; remedy : option Remedy }.

Definition left_out_of (coverage : list WalletCoverage) (backend : BackendConfig) (past_server_limit : bool)
  (software : option string) : LeftOut :=
  let own_node := is_own_node backend in
  {| reason := if any (fun wallet => refused_scripts wallet >? 0) coverage then ServerRefused else LiveLimit;
     lo_limits := limits_of backend;
     own_node := own_node;
     remedy := if negb own_node then Some (OwnNode WatchLimits.OWN_NODE)
               else if past_server_limit then remedy_raise software else None |}.

(** [confirmed_at]: what a history comes to once a block takes what
    waits. *)
Definition confirmed_at (held : list (string * Z)) (height : Z) : option (list (string * Z)) :=
  if height >? 2147483647 then None
  else if negb (any (fun e => e.2 <=? 0) held) || any (fun e => e.2 >? height) held then None
  else Some (List.map (fun e => (e.1, if e.2 <=? 0 then height else e.2)) held).

(** ** The list, by its reference *)

(** The first occurrences, in order. *)
Fixpoint nub {A} `{EqDecision A} (seen l : list A) : list A :=
  match l with
  | [] => []
  | x :: l => if decide (x ∈ seen) then nub seen l else x :: nub (x :: seen) l
  end.

Lemma Forall2_impl_in {A B} (P Q : A -> B -> Prop) l k :
  Forall2 P l k -> (forall x y, x ∈ l -> y ∈ k -> P x y -> Q x y) -> Forall2 Q l k.
Proof.
  induction 1 as [|x y l k Hxy _ IH]; intros HQ; constructor; [apply HQ; [left|left|done]|].
  apply IH. intros x' y' ??. apply HQ; by right.
Qed.

Section Nub.
Context {A : Type} `{EqDecision A}.
Implicit Types (l seen : list A) (x : A).

Lemma nub_elem seen l x : x ∈ nub seen l <-> x ∈ l /\ x ∉ seen.
Proof.
  revert seen. induction l as [|y l IH]; intros seen; simpl;
    [split; [intros Hx; by apply not_elem_of_nil in Hx|tauto]|].
  destruct (decide (y ∈ seen)) as [Hy|Hy].
  - rewrite IH, elem_of_cons. split; [tauto|]. intros [[->|?] ?]; tauto.
  - rewrite elem_of_cons, IH, !elem_of_cons. destruct (decide (x = y)) as [->|]; tauto.
Qed.

Lemma nub_NoDup seen l : NoDup (nub seen l).
Proof.
  revert seen. induction l as [|y l IH]; intros seen; simpl; [constructor|].
  destruct (decide (y ∈ seen)); [apply IH|]. constructor; [|apply IH]. rewrite nub_elem. intros [_ Hn]. apply Hn. left.
Qed.

Lemma nub_seen seen seen' l : (forall x, x ∈ seen <-> x ∈ seen') -> nub seen l = nub seen' l.
Proof.
  revert seen seen'. induction l as [|y l IH]; intros seen seen' Hs; simpl; [done|].
  destruct (decide (y ∈ seen)) as [Hy|Hy]; destruct (decide (y ∈ seen')) as [Hy'|Hy'];
    [by apply IH|by rewrite Hs in Hy|by rewrite <- Hs in Hy'|].
  f_equal. apply IH. intros x. rewrite !elem_of_cons, Hs. done.
Qed.

Lemma nub_snoc seen l x : nub seen (l ++ [x]) = nub seen l ++ (if decide (x ∈ seen ++ l) then [] else [x]).
Proof.
  revert seen. induction l as [|y l IH]; intros seen; simpl.
  - rewrite app_nil_r. by destruct (decide (x ∈ seen)).
  - destruct (decide (y ∈ seen)) as [Hy|Hy]; rewrite IH; simpl; [f_equal|do 2 f_equal];
      apply decide_ext; rewrite ?elem_of_cons, ?elem_of_app, ?elem_of_cons; [|tauto]. split; [tauto|]. intros [?|[->|?]]; tauto.
Qed.

(** An earlier one is seen before a later one. *)
Lemma nub_before seen l i j a b : nub seen l !! i = Some a -> nub seen l !! j = Some b -> (i < j)%nat ->
  exists l1 l2, l = l1 ++ a :: l2 /\ b ∉ l1 ++ [a].
Proof.
  revert seen i j. induction l as [|y l IH]; intros seen i j; simpl; [by rewrite lookup_nil|].
  destruct (decide (y ∈ seen)) as [Hy|Hy].
  - intros Ha Hb Hlt. destruct (IH _ _ _ Ha Hb Hlt) as (l1 & l2 & -> & Hn). exists (y :: l1), l2. split; [done|].
    apply list_elem_of_lookup_2, nub_elem in Hb as [_ Hb]. rewrite <- app_comm_cons, not_elem_of_cons. split; [|done].
    by intros ->.
  - intros Ha Hb Hlt. assert (Hby : b <> y).
    { destruct j as [|j]; [lia|]. simpl in Hb. apply list_elem_of_lookup_2, nub_elem in Hb as [_ Hb]. intros ->. apply Hb. left. }
    destruct i as [|i]; simpl in Ha.
    + injection Ha as <-. exists [], l. split; [done|]. by apply not_elem_of_cons; split; [|apply not_elem_of_nil].
    + destruct j as [|j]; [lia|]. simpl in Hb. destruct (IH _ _ _ Ha Hb) as (l1 & l2 & -> & Hn); [lia|].
      exists (y :: l1), l2. split; [done|]. by apply not_elem_of_cons.
Qed.
End Nub.

Section Reference.
Context {Script F : Type} (from_hex : string -> option Script) (scripthash : Script -> string).
Abbreviation visit := (nat * WatchedScript F)%type.
Abbreviation take_listed := (take_listed from_hex scripthash).

Definition key (v : visit) : string := lower (script v.2).
Definition taken (v : visit) : bool := watchable from_hex (script v.2).

(** The first visit of each owner. *)
Definition firsts (vs : list visit) : list visit :=
  omap (fun owner => List.find (fun v => bool_decide (v.1 = owner)) vs) (nub [] (List.map fst vs)).

(** What a script comes to, from all that list it, in order. *)
Definition entry_for (vs : list visit) (k : string) : option (Entry Script F) :=
  let vs := retain (fun v => bool_decide (key v = k)) vs in
  match vs with
  | [] => None
  | (_, first) :: _ =>
    match from_hex (script first) with
    | None => None
    | Some s => Some {| e_script := s; hex := k; e_scripthash := scripthash s;
        e_lookahead := all (fun v => lookahead v.2) vs;
        owners := List.map fst (firsts vs);
        statuses := List.map (fun v => status_kept v.2) (firsts vs);
        counts := List.map (fun v => ws_counts v.2) (firsts vs);
        histories := List.map (fun v => history v.2) (firsts vs) |}
    end
  end.

(** The scripts kept: the first [total] listed. *)
Definition kept_keys (limits : WatchLimits) (vs : list visit) : list string :=
  take (Z.to_nat (total limits)) (nub [] (List.map key vs)).

Lemma find_snoc (vs : list visit) v owner : List.find (fun w => bool_decide (w.1 = owner)) (vs ++ [v])
  = match List.find (fun w => bool_decide (w.1 = owner)) vs with
    | Some w => Some w
    | None => if bool_decide (v.1 = owner) then Some v else None
    end.
Proof. induction vs as [|w vs IH]; simpl; [done|]. by destruct (bool_decide (w.1 = owner)). Qed.

Lemma find_owner (vs : list visit) owner : owner ∈ List.map fst vs ->
  exists v, List.find (fun w => bool_decide (w.1 = owner)) vs = Some v /\ v.1 = owner.
Proof.
  induction vs as [|w vs IH]; simpl; [by intros Hx%not_elem_of_nil|]. intros Hx.
  case_bool_decide as Ew; [by exists w|]. apply IH. apply elem_of_cons in Hx as [->|]; done.
Qed.

Lemma firsts_snoc vs v : firsts (vs ++ [v]) = firsts vs ++ (if decide (v.1 ∈ List.map fst vs) then [] else [v]).
Proof.
  unfold firsts. rewrite List.map_app. simpl. rewrite nub_snoc, app_nil_l, omap_app. f_equal.
  - apply list_omap_ext, Forall_Forall2_diag, list.Forall_forall. intros owner Ho. apply nub_elem in Ho as [Ho _]. rewrite find_snoc.
    by destruct (find_owner vs owner Ho) as (w & -> & _).
  - destruct (decide (v.1 ∈ List.map fst vs)) as [|Hn]; [done|]. simpl. rewrite find_snoc.
    destruct (List.find _ vs) as [w|] eqn:Ef; [|by rewrite bool_decide_true].
    apply List.find_some in Ef as [Hin Hw]. apply bool_decide_eq_true in Hw. destruct Hn. rewrite <- Hw.
    apply list_elem_of_In. by apply in_map.
Qed.

Lemma firsts_owners vs : List.map fst (firsts vs) = nub [] (List.map fst vs).
Proof.
  unfold firsts. assert (Hall : forall l, (forall o, o ∈ l -> o ∈ List.map fst vs) ->
    List.map fst (omap (fun owner => List.find (fun v => bool_decide (v.1 = owner)) vs) l) = l).
  { induction l as [|o l IH]; intros Hl; [done|]. csimpl.
    destruct (find_owner vs o) as (v & -> & Hv); [apply Hl; left|]. csimpl. rewrite Hv, IH; [done|]. intros o' Ho'. apply Hl. by right. }
  apply Hall. intros o Ho. by apply nub_elem in Ho as [? _].
Qed.

Lemma entry_for_other vs v k : key v <> k -> entry_for (vs ++ [v]) k = entry_for vs k.
Proof.
  intros Hk. unfold entry_for. rewrite retain_app. simpl. rewrite bool_decide_false by done. by rewrite app_nil_r.
Qed.

Lemma entry_for_owners vs k e : entry_for vs k = Some e ->
  owners e = nub [] (List.map fst (retain (fun v => bool_decide (key v = k)) vs)).
Proof.
  unfold entry_for. destruct (retain _ vs) as [|[o f] l] eqn:E; [done|]. destruct (from_hex (script f)); [|done].
  intros [= <-]. cbn [owners]. apply firsts_owners.
Qed.

Lemma entry_for_aligned vs k e : entry_for vs k = Some e ->
  NoDup (owners e) /\ length (statuses e) = length (owners e)
  /\ length (counts e) = length (owners e) /\ length (histories e) = length (owners e).
Proof.
  intros Hk. split; [rewrite (entry_for_owners _ _ _ Hk); apply nub_NoDup|]. revert Hk. unfold entry_for.
  destruct (retain _ vs) as [|[o f] l]; [done|]. destruct (from_hex _); [|done]. intros [= <-]. cbn [owners statuses counts histories].
  by rewrite !List.length_map.
Qed.

Lemma entry_for_share vs v e : entry_for vs (key v) = Some e -> entry_for (vs ++ [v]) (key v) = Some (share v.1 v.2 e).
Proof.
  intros He. pose proof (entry_for_owners _ _ _ He) as Ho. revert He. unfold entry_for. rewrite retain_app. simpl.
  rewrite bool_decide_true by done. destruct (retain _ vs) as [|[o f] l] eqn:E; [done|]. cbn [app].
  destruct (from_hex (script f)) as [s|]; [|done]. intros [= <-]. f_equal.
  rewrite app_comm_cons, firsts_snoc. unfold share. cbn [e_script hex e_scripthash e_lookahead owners statuses counts histories] in *.
  rewrite Ho. set (l' := (o, f) :: l) in *.
  assert (Hall : all (fun w => lookahead w.2) (l' ++ [v]) = all (fun w => lookahead w.2) l' && lookahead v.2).
  { unfold all. rewrite forallb_app. simpl. by rewrite andb_true_r. }
  rewrite Hall. destruct (decide (v.1 ∈ List.map fst l')) as [Hin|Hin].
  - rewrite (bool_decide_true (v.1 ∈ nub [] _)) by (apply nub_elem; split; [done|apply not_elem_of_nil]).
    simpl. by rewrite !app_nil_r, Ho.
  - rewrite (bool_decide_false (v.1 ∈ nub [] _)) by (intros [? _]%nub_elem; done). simpl. by rewrite !List.map_app, Ho.
Qed.

Lemma entry_for_new vs v s : key v ∉ List.map key vs -> from_hex (script v.2) = Some s ->
  entry_for (vs ++ [v]) (key v) = Some (new_entry scripthash v.1 v.2 s).
Proof.
  intros Hn Hs. unfold entry_for. rewrite retain_app. simpl. rewrite bool_decide_true by done.
  replace (retain (fun w => bool_decide (key w = key v)) vs) with (@nil visit).
  - destruct v as [o f]. simpl in *. rewrite Hs. unfold firsts, new_entry. simpl. rewrite bool_decide_true by done. simpl.
    by rewrite andb_true_r.
  - symmetry. destruct (retain _ vs) as [|w l] eqn:E; [done|]. assert (Hw : In w (w :: l)) by by left.
    rewrite <- E in Hw. apply retain_In in Hw as [Hw Hk]. apply bool_decide_eq_true in Hk. destruct Hn. rewrite <- Hk.
    apply list_elem_of_In. by apply in_map.
Qed.

(** The list is what its reference makes of the visits so far. *)
Definition right (limits : WatchLimits) (vs : list visit) (w : Watched Script F) : Prop :=
  Forall2 (fun k e => entry_for vs k = Some e) (kept_keys limits vs) (entries w)
  /\ forall k i, by_hex w !! k = Some i <-> kept_keys limits vs !! i = Some k.

Lemma kept_keys_NoDup limits vs : NoDup (kept_keys limits vs).
Proof. unfold kept_keys. eapply sublist_NoDup; [apply (nub_NoDup [] (List.map key vs))|apply sublist_take]. Qed.

Lemma kept_keys_snoc limits vs v :
  kept_keys limits (vs ++ [v])
  = if decide (key v ∈ List.map key vs) then kept_keys limits vs
    else take (Z.to_nat (total limits)) (nub [] (List.map key vs) ++ [key v]).
Proof. unfold kept_keys. rewrite List.map_app. simpl. rewrite nub_snoc. simpl. destruct (decide _); [by rewrite app_nil_r|done]. Qed.

Lemma right_step limits vs w v : right limits vs w ->
  right limits (if taken v then vs ++ [v] else vs) (take_listed limits w v).
Proof.
  intros [Hf Hb]. destruct v as [owner listed]. unfold taken, take_listed. cbn [snd].
  destruct (watchable from_hex (script listed)) eqn:Ew; simpl; [|done].
  change (lower (script listed)) with (key (owner, listed)). set (v := (owner, listed)). set (k := key v).
  assert (Hlen : length (entries w) = length (kept_keys limits vs)) by (symmetry; by eapply list.Forall2_length).
  destruct (by_hex w !! k) as [i|] eqn:Ei.
  - apply Hb in Ei as Hi. assert (Hk : k ∈ List.map key vs).
    { apply list_elem_of_lookup_2 in Hi. unfold kept_keys in Hi. apply elem_of_take in Hi as (j & Hj & _).
      apply list_elem_of_lookup_2, nub_elem in Hj as [? _]. done. }
    split; cbn [entries by_hex]; rewrite kept_keys_snoc, decide_True by done; [|done].
    apply Forall2_same_length_lookup_2; [by rewrite length_alter|]. intros j k' e' Hk' He'.
    destruct (decide (i = j)) as [->|Hne].
    + rewrite Hi in Hk'. injection Hk' as <-. rewrite list_lookup_alter_eq in He'.
      destruct (entries w !! j) as [e|] eqn:Ee; [|done]. injection He' as <-.
      apply entry_for_share. by eapply (Forall2_lookup_lr _ _ _ _ _ _ Hf Hi Ee).
    + rewrite list_lookup_alter_ne in He' by done. rewrite entry_for_other; [by eapply (Forall2_lookup_lr _ _ _ _ _ _ Hf Hk' He')|].
      intros E. apply Hne. eapply NoDup_lookup; [apply (kept_keys_NoDup limits vs)|exact Hi|]. rewrite Hk'. f_equal. by rewrite <- E.
  - assert (Hk : k ∉ kept_keys limits vs).
    { intros Hk. apply list_elem_of_lookup in Hk as [i Hi]. apply Hb in Hi. congruence. }
    assert (Hkeep : (Z.to_nat (total limits) <= length (entries w))%nat ->
      kept_keys limits (vs ++ [v]) = kept_keys limits vs).
    { intros Hl. rewrite kept_keys_snoc. destruct (decide _); [done|]. rewrite take_app_le; [done|].
      rewrite Hlen in Hl. unfold kept_keys in Hl. rewrite length_take in Hl. lia. }
    assert (Hsame : kept_keys limits (vs ++ [v]) = kept_keys limits vs -> right limits (vs ++ [v]) w).
    { intros E. split; rewrite E; [|done]. eapply Forall2_impl_in; [exact Hf|]. intros k' e' Hk' _ He.
      rewrite entry_for_other; [done|]. intros E'. apply Hk. unfold k. by rewrite E'. }
    destruct (Z.leb_spec (total limits) (Z.of_nat (length (entries w)))) as [Hfull|Hroom]; [apply Hsame, Hkeep; lia|].
    assert (Hnew : k ∉ List.map key vs).
    { intros Hin. apply Hk. unfold kept_keys. rewrite take_ge; [apply nub_elem; split; [done|apply not_elem_of_nil]|].
      rewrite Hlen in Hroom. unfold kept_keys in Hroom. rewrite length_take in Hroom. lia. }
    assert (Hall : kept_keys limits (vs ++ [v]) = kept_keys limits vs ++ [k]).
    { rewrite kept_keys_snoc, decide_False by done. unfold kept_keys in *. rewrite Hlen, length_take in Hroom.
      rewrite !take_ge; [done|lia|]. rewrite length_app. simpl. lia. }
    destruct (from_hex (script listed)) as [sc|] eqn:Es.
    2:{ unfold watchable in Ew. rewrite Es in Ew. by rewrite !andb_false_r in Ew. }
    split; cbn [entries by_hex]; rewrite Hall.
    + apply Forall2_app.
      * eapply Forall2_impl_in; [exact Hf|]. intros k' e' Hk' _ He. rewrite entry_for_other; [done|]. intros E'. apply Hk.
        unfold k. by rewrite E'.
      * constructor; [|constructor]. by apply (entry_for_new vs v sc).
    + intros k' i. rewrite Hlen. destruct (decide (k = k')) as [<-|Hne].
      * rewrite lookup_insert_eq. split.
        -- intros [= <-]. apply list_lookup_middle. done.
        -- intros Hi. f_equal. symmetry. assert (Hlast : (kept_keys limits vs ++ [k]) !! length (kept_keys limits vs) = Some k) by by apply list_lookup_middle.
           eapply NoDup_lookup; [|exact Hi|exact Hlast]. rewrite <- Hall. apply kept_keys_NoDup.
      * rewrite lookup_insert_ne by done. rewrite Hb. rewrite lookup_app_Some. split; [auto|]. intros [?|[? Hi]]; [done|].
        apply list_lookup_singleton_Some in Hi as [_ Hi]. congruence.
Qed.

Lemma right_fold limits vs : forall done w, right limits done w ->
  right limits (done ++ retain taken vs) (foldl (take_listed limits) w vs).
Proof.
  induction vs as [|v vs IH]; intros dn w Hw; simpl; [by rewrite app_nil_r|].
  apply (right_step _ _ _ v) in Hw. destruct (taken v); [|by apply IH].
  replace (dn ++ v :: retain taken vs) with ((dn ++ [v]) ++ retain taken vs) by by rewrite <- app_assoc. by apply IH.
Qed.

(** ** The order of the list *)

(** A place: the wallet and the rank of a script in its list. *)
Definition listed_at (ws : list (WatchedWallet F)) (p : nat * nat) : option visit :=
  match ws !! p.1 with
  | Some wallet => match scripts wallet !! p.2 with Some listed => Some (p.1, listed) | None => None end
  | None => None
  end.

Definition pinned_at (ws : list (WatchedWallet F)) (owner : nat) : bool :=
  match ws !! owner with Some wallet => pinned wallet | None => false end.
Definition coins_at (ws : list (WatchedWallet F)) (owner : nat) : bool :=
  match ws !! owner with Some wallet => holds_coins wallet | None => false end.

(** Pinned wallets first, then the lower rank, then, pinned aside, a
    wallet that holds coins. *)
Definition before (ws : list (WatchedWallet F)) (p q : nat * nat) : Prop :=
  (pinned_at ws p.1 = true /\ pinned_at ws q.1 = false)
  \/ (pinned_at ws p.1 = pinned_at ws q.1
      /\ ((p.2 < q.2)%nat
          \/ p.2 = q.2 /\ (pinned_at ws p.1 = true \/ coins_at ws p.1 = true \/ coins_at ws q.1 = false))).

Definition longest (limits : WatchLimits) (ws : list (WatchedWallet F)) (group : list nat) : nat :=
  foldr Nat.max 0%nat (List.map (fun owner =>
    match ws !! owner with
    | Some wallet => Nat.min (length (scripts wallet)) (Z.to_nat (per_wallet limits))
    | None => 0%nat
    end) group).

Definition group_places limits ws (group : list nat) : list (nat * nat) :=
  List.concat (List.map (fun rank => List.map (fun owner => (owner, rank)) group) (seq 0 (longest limits ws group))).

Definition places limits ws : list (nat * nat) :=
  group_places limits ws (groups ws).1 ++ group_places limits ws (groups ws).2.

Lemma visits_places limits ws : visits limits ws = omap (listed_at ws) (places limits ws).
Proof.
  unfold visits, places. destruct (groups ws) as [g1 g2]. rewrite omap_app. cbn [fst snd].
  assert (Hg : forall g, group_visits limits ws g = omap (listed_at ws) (group_places limits ws g)).
  { intros g. unfold group_visits, group_places. fold (longest limits ws g). induction (seq 0 (longest limits ws g)) as [|r l IH]; [done|].
    cbn [List.map List.concat]. rewrite omap_app, IH. f_equal. unfold rank_visits. clear IH.
    induction g as [|o g IHg]; [done|]. csimpl. rewrite IHg. done. }
  by rewrite !Hg.
Qed.

Lemma StronglySorted_concat {A} (R : A -> A -> Prop) (f : nat -> list A) start n :
  (forall i, StronglySorted R (f i)) ->
  (forall i j x y, (i < j)%nat -> In x (f i) -> In y (f j) -> R x y) ->
  StronglySorted R (List.concat (List.map f (seq start n))).
Proof.
  intros Hs Hc. revert start. induction n as [|n IH]; intros start; simpl; [constructor|].
  apply sorting.StronglySorted_app_2; [|apply Hs|apply IH]. intros x y Hx Hy. apply list_elem_of_In in Hx, Hy.
  apply in_concat in Hy as (l & (i & <- & Hi)%in_map_iff & Hy). apply in_seq in Hi. eapply Hc; [|done|done]. lia.
Qed.

Lemma groups_pinned ws owner : (In owner (groups ws).1 -> pinned_at ws owner = true) /\ (In owner (groups ws).2 -> pinned_at ws owner = false).
Proof.
  unfold groups, pinned_at. cbn [fst snd]. split.
  - intros Hx. apply retain_In in Hx as [_ Hx]. exact Hx.
  - rewrite in_app_iff. intros [Hx|Hx]; apply retain_In in Hx as [Hx _]; apply retain_In in Hx as [_ Hx];
      apply negb_true_iff in Hx; exact Hx.
Qed.

Lemma places_sorted limits ws : StronglySorted (before ws) (places limits ws).
Proof.
  assert (Hgroup : forall g pin, (forall o, In o g -> pinned_at ws o = pin) ->
    StronglySorted (fun a b => pin = true \/ coins_at ws a = true \/ coins_at ws b = false) g ->
    StronglySorted (before ws) (group_places limits ws g)).
  { intros g pin Hp Hs. apply StronglySorted_concat.
    - intros rank. induction Hs as [|o g _ IH Ho]; simpl; [constructor|]. constructor; [apply IH; intros; apply Hp; by right|].
      apply List.Forall_forall. intros x (o' & <- & Hx)%in_map_iff. right. cbn [fst snd].
      rewrite (Hp o), (Hp o') by (simpl; tauto). split; [done|]. right. split; [done|].
      rewrite List.Forall_forall in Ho. exact (Ho o' Hx).
    - intros i j x y Hij (o & <- & Ho)%in_map_iff (o' & <- & Ho')%in_map_iff. right. cbn [fst snd]. rewrite !Hp by done.
      split; [done|]. by left. }
  unfold places. apply sorting.StronglySorted_app_2.
  - intros x y Hx Hy. apply list_elem_of_In in Hx, Hy. left. unfold group_places in *.
    apply in_concat in Hx as (l & (i & <- & _)%in_map_iff & (o & <- & Ho)%in_map_iff).
    apply in_concat in Hy as (l & (i' & <- & _)%in_map_iff & (o' & <- & Ho')%in_map_iff). cbn [fst].
    split; by apply groups_pinned.
  - apply (Hgroup _ true); [apply groups_pinned|]. induction (groups ws).1 as [|o g IH]; constructor; [done|].
    apply List.Forall_forall. auto.
  - apply (Hgroup _ false); [apply groups_pinned|]. unfold groups. cbn [snd]. 
    generalize (retain (fun owner => negb (match ws !! owner with Some wallet => pinned wallet | None => false end)) (seq 0 (length ws))) as others.
    intros others.
    apply sorting.StronglySorted_app_2.
    + intros a b Ha Hb. apply list_elem_of_In in Ha, Hb. apply retain_In in Ha as [_ Ha]. right. by left.
    + assert (Hall : Forall (fun o => coins_at ws o = true) (retain (fun owner => match ws !! owner with Some wallet => holds_coins wallet | None => false end) others)).
      { apply List.Forall_forall. by intros o [_ Ho]%retain_In. }
      induction Hall as [|o l Ho Hl IH]; constructor; [done|]. apply List.Forall_forall. auto.
    + assert (Hall : Forall (fun o => coins_at ws o = false) (retain (fun owner => negb (match ws !! owner with Some wallet => holds_coins wallet | None => false end)) others)).
      { apply List.Forall_forall. by intros o [_ Ho%negb_true_iff]%retain_In. }
      induction Hall as [|o l Ho Hl IH]; constructor; [done|].
      rewrite List.Forall_forall in Hl. apply List.Forall_forall. intros b Hb. right. right. exact (Hl b Hb).
Qed.

(** What a place lists, where a watch takes it. *)
Definition taken_at (ws : list (WatchedWallet F)) (p : nat * nat) : option visit :=
  match listed_at ws p with Some v => if taken v then Some v else None | None => None end.

Lemma taken_visits limits ws : retain taken (visits limits ws) = omap (taken_at ws) (places limits ws).
Proof.
  rewrite visits_places. induction (places limits ws) as [|p ps IH]; [done|]. csimpl. unfold taken_at at 1.
  destruct (listed_at ws p) as [v|]; [|done]. simpl. rewrite IH. by destruct (taken v).
Qed.

Lemma in_groups (ws : list (WatchedWallet F)) owner wallet : ws !! owner = Some wallet ->
  In owner (if pinned wallet then (groups ws).1 else (groups ws).2).
Proof.
  intros Hw. assert (Hin : In owner (seq 0 (length ws))).
  { apply in_seq. apply lookup_lt_Some in Hw. lia. }
  unfold groups. destruct (pinned wallet) eqn:Ep; cbn [fst snd]; [apply retain_In; split; [done|by rewrite Hw]|].
  apply in_app_iff. destruct (holds_coins wallet) eqn:Ec; [left|right];
    (apply retain_In; split; [|rewrite Hw, Ec; done]; apply retain_In; split; [done|by rewrite Hw, Ep]).
Qed.

Lemma in_group_places limits ws group owner rank wallet : In owner group -> ws !! owner = Some wallet ->
  (rank < length (scripts wallet))%nat -> (rank < Z.to_nat (per_wallet limits))%nat ->
  In (owner, rank) (group_places limits ws group).
Proof.
  intros Hin Hw Hl Hp. unfold group_places. apply in_concat. exists (List.map (fun o => (o, rank)) group).
  split; [|apply in_map_iff; by exists owner]. apply in_map_iff. exists rank. split; [done|]. apply in_seq. split; [lia|].
  simpl. unfold longest. induction group as [|o group IH]; [done|]. simpl. destruct Hin as [->|Hin]; [rewrite Hw; lia|].
  specialize (IH Hin). lia.
Qed.

Lemma in_places limits ws owner rank wallet : ws !! owner = Some wallet ->
  (rank < length (scripts wallet))%nat -> (rank < Z.to_nat (per_wallet limits))%nat ->
  In (owner, rank) (places limits ws).
Proof.
  intros Hw Hl Hp. apply in_app_iff. pose proof (in_groups _ _ _ Hw) as Hg.
  destruct (pinned wallet); [left|right]; by eapply in_group_places.
Qed.

Lemma watched_new_right limits ws :
  right limits (retain taken (visits limits ws)) (watched_new from_hex scripthash ws limits).
Proof.
  apply (right_fold limits (visits limits ws) []). split; unfold kept_keys; simpl; rewrite take_nil; [constructor|].
  intros k i. by rewrite lookup_empty, lookup_nil.
Qed.

Lemma omap_split {A B} (f : A -> option B) l l1 b l2 : omap f l = l1 ++ b :: l2 ->
  exists p1 a p2, l = p1 ++ a :: p2 /\ f a = Some b /\ omap f p1 = l1.
Proof.
  revert l1. induction l as [|a l IH]; intros l1; csimpl; [by destruct l1|]. destruct (f a) as [b'|] eqn:Ef.
  - destruct l1 as [|b1 l1]; intros [= -> E]; [by exists [], a, l|]. destruct (IH _ E) as (p1 & a' & p2 & -> & Ha & <-).
    exists (a :: p1), a', p2. csimpl. by rewrite Ef.
  - intros E. destruct (IH _ E) as (p1 & a' & p2 & -> & Ha & <-). exists (a :: p1), a', p2. csimpl. by rewrite Ef.
Qed.

Lemma map_split {A B} (f : A -> B) l l1 b l2 : List.map f l = l1 ++ b :: l2 ->
  exists p1 a p2, l = p1 ++ a :: p2 /\ f a = b /\ List.map f p1 = l1.
Proof.
  revert l1. induction l as [|a l IH]; intros l1; [by destruct l1|].
  destruct l1 as [|b1 l1]; intros [= <- E]; [by exists [], a, l|].
  destruct (IH _ E) as (p1 & a' & p2 & -> & Ha & <-). by exists (a :: p1), a', p2.
Qed.

(** A list of what is watched, in the order of its places: a key seen
    later than another is of a later place. *)
Lemma later_place limits ws k k' i j p v :
  nub [] (List.map key (retain taken (visits limits ws))) !! i = Some k' ->
  nub [] (List.map key (retain taken (visits limits ws))) !! j = Some k -> (i < j)%nat ->
  In p (places limits ws) -> taken_at ws p = Some v -> key v = k ->
  exists q v', In q (places limits ws) /\ taken_at ws q = Some v' /\ key v' = k' /\ before ws q p.
Proof.
  intros Hi Hj Hlt Hp Hv Hk. destruct (nub_before _ _ _ _ _ _ Hi Hj Hlt) as (l1 & l2 & E & Hn).
  rewrite taken_visits in E. apply map_split in E as (vs1 & v' & vs2 & E & Hk' & <-).
  apply omap_split in E as (p1 & q & p2 & E & Hq & <-). exists q, v'. rewrite E.
  assert (Hp2 : In p p2).
  { rewrite E in Hp. assert (Hno : forall x, In x (p1 ++ [q]) -> x <> p).
    { intros x Hx ->. apply Hn. rewrite elem_of_app. apply in_app_iff in Hx as [Hx|[<-|[]]].
      - left. apply list_elem_of_In, in_map_iff. exists v. split; [done|]. apply list_elem_of_In, list_elem_of_omap.
        exists p. split; [by apply list_elem_of_In|done].
      - right. rewrite Hq in Hv. injection Hv as ->. rewrite <- Hk, Hk'. left. }
    rewrite in_app_iff in Hp. destruct Hp as [Hp|[Hp|Hp]]; [|by destruct (Hno q); [apply in_app_iff; right; left|]|done].
    by destruct (Hno p); [apply in_app_iff; left|]. }
  split; [apply in_app_iff; right; by left|]. do 2 (split; [done|]).
  pose proof (places_sorted limits ws) as Hs. rewrite E in Hs. clear - Hs Hp2.
  induction p1 as [|x p1 IH]; inversion_clear Hs as [|?? Hs' Hall]; [|by apply IH].
  rewrite List.Forall_forall in Hall. by apply Hall.
Qed.

(** The list a watch keeps is its reference: of the visits in order,
    the first [total] scripts that differ, each with the owners that list
    it, in the order of their first mention and each with what that
    mention keeps, a look-ahead only where every mention is one; and the
    index by script gives the place of each. *)
Theorem watch_list_reference limits ws :
  let vs := retain taken (visits limits ws) in
  let w := watched_new from_hex scripthash ws limits in
  Forall2 (fun k e => entry_for vs k = Some e) (kept_keys limits vs) (entries w)
  /\ (forall k i, by_hex w !! k = Some i <-> kept_keys limits vs !! i = Some k)
  /\ (forall e, In e (entries w) -> NoDup (owners e) /\ length (statuses e) = length (owners e)
       /\ length (counts e) = length (owners e) /\ length (histories e) = length (owners e)).
Proof.
  destruct (watched_new_right limits ws) as [Hf Hb]. split; [done|]. split; [done|]. intros e He.
  apply list_elem_of_In, list_elem_of_lookup in He as [i He]. destruct (Forall2_lookup_r _ _ _ _ _ Hf He) as (k & _ & Hk).
  by apply (entry_for_aligned _ _ _ Hk).
Qed.

(** No wallet is left out while another has more than its turn: a
    script within its wallet's own limit that a watch can take and leaves
    out means the list is full, and every script listed is so from a
    place that comes before: of a pinned wallet where this one is not, of
    a lower rank, or of the same rank in a wallet no worse. *)
Theorem watch_list_fair limits ws owner rank wallet listed :
  let w := watched_new from_hex scripthash ws limits in
  ws !! owner = Some wallet -> scripts wallet !! rank = Some listed -> (rank < Z.to_nat (per_wallet limits))%nat ->
  watchable from_hex (script listed) = true -> by_hex w !! lower (script listed) = None ->
  (length (entries w) = Z.to_nat (total limits))
  /\ forall k i, by_hex w !! k = Some i ->
       exists q v, taken_at ws q = Some v /\ key v = k /\ before ws q (owner, rank).
Proof.
  intros w Hw Hs Hr Hl Hn. destruct (watched_new_right limits ws) as [Hf Hb]. fold w in Hf, Hb.
  assert (Hp : In (owner, rank) (places limits ws)).
  { eapply in_places; [done|by eapply lookup_lt_Some|done]. }
  assert (Ht : taken_at ws (owner, rank) = Some (owner, listed)).
  { unfold taken_at, listed_at. cbn [fst snd]. rewrite Hw, Hs. unfold taken. cbn [snd]. by rewrite Hl. }
  set (keys := nub [] (List.map key (retain taken (visits limits ws)))).
  assert (Hk : key (owner, listed) ∈ keys).
  { apply nub_elem. split; [|apply not_elem_of_nil]. apply list_elem_of_In, in_map. rewrite taken_visits.
    apply list_elem_of_In, list_elem_of_omap. exists (owner, rank). split; [by apply list_elem_of_In|done]. }
  apply list_elem_of_lookup in Hk as [j Hj].
  assert (Hfull : (Z.to_nat (total limits) <= j)%nat).
  { destruct (decide (Z.to_nat (total limits) <= j)%nat) as [|Hlt]; [done|]. exfalso.
    assert (by_hex w !! lower (script listed) = Some j) as E; [|congruence]. apply Hb. unfold kept_keys.
    rewrite lookup_take_lt by lia. done. }
  split.
  - rewrite <- (list.Forall2_length _ _ _ Hf). unfold kept_keys. fold keys. rewrite length_take.
    apply lookup_lt_Some in Hj. lia.
  - intros k i Hi. apply Hb in Hi. unfold kept_keys in Hi. apply lookup_take_Some in Hi as [Hi Hlt].
    destruct (later_place limits ws _ k i j _ _ Hi Hj ltac:(lia) Hp Ht eq_refl) as (q & v & _ & Hq & Hkq & Hbef). eauto.
Qed.

(** ** What each wallet's part comes to *)

Definition owned (i : nat) (l : list (Entry Script F)) : list (Entry Script F) :=
  retain (fun e => bool_decide (i ∈ owners e)) l.

Lemma counted_owners (os : list nat) (cs : list Z) i c : NoDup os -> cs !! i = Some c ->
  foldl (fun counts owner => alter (fun c => sat_add_u32 c 1) owner counts) cs os !! i
  = Some (if bool_decide (i ∈ os) then sat_add_u32 c 1 else c).
Proof.
  intros Hnd. revert cs c. induction Hnd as [|o os Ho Hnd IH]; intros cs c Hc; simpl; [done|].
  destruct (decide (o = i)) as [->|Hne].
  - rewrite (IH _ (sat_add_u32 c 1)) by by rewrite list_lookup_alter_eq, Hc.
    rewrite (bool_decide_false (i ∈ os)) by done. by rewrite bool_decide_true by left.
  - rewrite (IH _ c) by by rewrite list_lookup_alter_ne.
    rewrite (bool_decide_ext (i ∈ os) (i ∈ o :: os)); [done|]. rewrite elem_of_cons. naive_solver.
Qed.

Lemma per_wallet_counts_at (l : list (Entry Script F)) size i : (forall e, In e l -> NoDup (owners e)) -> (i < size)%nat ->
  per_wallet_counts size l !! i = Some (count (length (owned i l))).
Proof.
  intros Hnd Hi. unfold per_wallet_counts.
  induction l as [|e l IH] using rev_ind; [by apply lookup_replicate_2|].
  rewrite foldl_app. simpl. rewrite (counted_owners _ _ i (count (length (owned i l)))).
  - unfold owned. rewrite retain_app, length_app. simpl. f_equal. unfold count, sat_add_u32. unfold u32_max in *.
    case_bool_decide; simpl; lia.
  - apply Hnd, in_app_iff. right. by left.
  - apply IH. intros e' He'. apply Hnd, in_app_iff. by left.
Qed.

Lemma heard_sublist (w : Watched Script F) r : heard w r `sublist_of` entries w.
Proof.
  unfold heard. destruct r as [[[limit|] ????]|]; try apply retain_sublist.
  etrans; [apply sublist_take|apply retain_sublist].
Qed.

Lemma map_sublist {A B} (f : A -> B) l1 l2 : l1 `sublist_of` l2 -> List.map f l1 `sublist_of` List.map f l2.
Proof. induction 1; simpl; by constructor. Qed.

Lemma owned_sublist i l1 l2 : l1 `sublist_of` l2 -> owned i l1 `sublist_of` owned i l2.
Proof.
  unfold owned. induction 1 as [|e l1 l2 _ IH|e l1 l2 _ IH]; simpl; [done| |]; case_bool_decide; simpl; first [done | by constructor].
Qed.

Lemma visits_In limits (ws : list (WatchedWallet F)) v : In v (visits limits ws) -> exists wallet, ws !! v.1 = Some wallet /\ In v.2 (scripts wallet).
Proof.
  rewrite visits_places. intros Hv. apply list_elem_of_In, list_elem_of_omap in Hv as ([o r] & _ & Hv). revert Hv.
  unfold listed_at. cbn [fst snd]. destruct (ws !! o) as [wallet|] eqn:Ew; [|done].
  destruct (scripts wallet !! r) as [listed|] eqn:El; [|done]. intros [= <-]. exists wallet. split; [done|].
  by eapply list_elem_of_In, list_elem_of_lookup_2.
Qed.

Lemma listed_kept limits ws e : In e (entries (watched_new from_hex scripthash ws limits)) ->
  exists k, entry_for (retain taken (visits limits ws)) k = Some e /\ hex e = k.
Proof.
  intros He. destruct (watched_new_right limits ws) as [Hf _]. apply list_elem_of_In, list_elem_of_lookup in He as [j He].
  destruct (Forall2_lookup_r _ _ _ _ _ Hf He) as (k & _ & Hk). exists k. split; [done|]. revert Hk. unfold entry_for.
  destruct (retain _ (retain _ _)) as [|[o f] l]; [done|]. destruct (from_hex _); [|done]. by intros [= <-].
Qed.

Lemma hexes limits ws : List.map hex (entries (watched_new from_hex scripthash ws limits)) = kept_keys limits (retain taken (visits limits ws)).
Proof.
  destruct (watched_new_right limits ws) as [Hf _]. induction Hf as [|k e ks es Hk _ IH]; [done|]. cbn [List.map]. f_equal; [|done].
  revert Hk. unfold entry_for. destruct (retain _ _) as [|[o f] l]; [done|]. destruct (from_hex _); [|done]. by intros [= <-].
Qed.

Definition keys_of (wallet : WatchedWallet F) : gset string :=
  list_to_set (List.map (fun listed => lower (script listed)) (scripts wallet)).

Lemma owned_key limits ws e (i : nat) wallet : In e (entries (watched_new from_hex scripthash ws limits)) ->
  ws !! i = Some wallet -> i ∈ owners e -> hex e ∈ keys_of wallet.
Proof.
  intros He Hw Hi. destruct (listed_kept _ _ _ He) as (k & Hk & ->). rewrite (entry_for_owners _ _ _ Hk) in Hi.
  apply nub_elem in Hi as [Hi _]. apply list_elem_of_In, in_map_iff in Hi as (v & <- & Hv).
  apply retain_In in Hv as [Hv Hkey]. apply retain_In in Hv as [Hv _]. apply visits_In in Hv as (wallet' & Hw' & Hv).
  rewrite Hw in Hw'. injection Hw' as <-. apply bool_decide_eq_true in Hkey as <-. unfold keys_of.
  apply elem_of_list_to_set, list_elem_of_In, in_map_iff. by exists v.2.
Qed.

Lemma owned_hexes limits ws i wallet l : l `sublist_of` entries (watched_new from_hex scripthash ws limits) ->
  ws !! i = Some wallet ->
  NoDup (List.map hex (owned i l)) /\ (list_to_set (List.map hex (owned i l)) : gset string) ⊆ keys_of wallet.
Proof.
  intros Hl Hw. split.
  - eapply sublist_NoDup; [apply (kept_keys_NoDup limits (retain taken (visits limits ws)))|]. rewrite <- hexes.
    apply map_sublist. etrans; [apply retain_sublist|done].
  - intros k Hk. apply elem_of_list_to_set, list_elem_of_In, in_map_iff in Hk as (e & <- & He).
    apply retain_In in He as [He Hi]. apply bool_decide_eq_true in Hi. eapply owned_key; [|done|done].
    apply list_elem_of_In. eapply sublist_subseteq; [exact Hl|]. by apply list_elem_of_In.
Qed.

Lemma owned_count limits ws i wallet l : l `sublist_of` entries (watched_new from_hex scripthash ws limits) ->
  ws !! i = Some wallet -> (length (owned i l) <= size (keys_of wallet))%nat.
Proof.
  intros Hl Hw. destruct (owned_hexes _ _ _ _ _ Hl Hw) as [Hnd Hsub].
  rewrite <- (List.length_map hex), <- (size_list_to_set (C := gset string)) by done. by apply subseteq_size.
Qed.

Lemma take_listed_about limits (w : Watched Script F) v : wallets (take_listed limits w v) = wallets w /\ worth (take_listed limits w v) = worth w.
Proof.
  destruct v as [owner listed]. unfold take_listed. destruct (negb _); [done|]. destruct (_ !! _); [done|].
  destruct (_ <=? _); [done|]. by destruct (from_hex _).
Qed.

Lemma watched_new_about limits (ws : list (WatchedWallet F)) : wallets (watched_new from_hex scripthash ws limits) = List.map (fun wallet => (wallet_id wallet, has_pending wallet)) ws
  /\ worth (watched_new from_hex scripthash ws limits) = List.map worth_of ws.
Proof.
  unfold watched_new. induction (visits limits ws) as [|v vs IH] using rev_ind; [done|]. rewrite foldl_app. cbn [foldl].
  destruct (take_listed_about limits (foldl (take_listed limits) {| wallets := List.map (fun wallet => (wallet_id wallet, has_pending wallet)) ws;
    entries := []; worth := List.map worth_of ws; by_hex := ∅; by_scripthash := ∅ |} vs) v) as [-> ->]. exact IH.
Qed.

(** What a wallet's part comes to is what the server hears of it: the
    scripts heard and those left out make up all it has, the refused are
    those listed and not heard, and a wallet said to be live has each of
    its scripts heard and none left unlisted. *)
Theorem coverage_right limits ws refusals i wallet :
  let w := watched_new from_hex scripthash ws limits in
  ws !! i = Some wallet -> 0 <= unlisted wallet -> Z.of_nat (size (keys_of wallet)) + unlisted wallet < u32_max ->
  exists c, coverage w refusals !! i = Some c /\ wc_wallet_id c = wallet_id wallet
    /\ watched_scripts c = Z.of_nat (length (owned i (heard w refusals)))
    /\ watched_scripts c + left_out_scripts c = Z.of_nat (size (keys_of wallet)) + unlisted wallet
    /\ watched_scripts c + refused_scripts c = Z.of_nat (length (owned i (entries w)))
    /\ (coverage_ c = SyncOnly <-> owned i (heard w refusals) = [])
    /\ (coverage_ c = Live -> unlisted wallet = 0 /\ forall listed, In listed (scripts wallet) ->
         exists e, In e (heard w refusals) /\ i ∈ owners e /\ hex e = lower (script listed)).
Proof.
  intros w Hw Hu Hsmall. destruct (watched_new_about limits ws) as [Hws Hworth]. fold w in Hws, Hworth.
  assert (Hi : (i < length (wallets w))%nat) by (rewrite Hws, List.length_map; by eapply lookup_lt_Some).
  assert (Hnd : forall e, In e (entries w) -> NoDup (owners e)).
  { intros e He. destruct (listed_kept _ _ _ He) as (k & Hk & _). by apply (entry_for_aligned _ _ _ Hk). }
  pose proof (heard_sublist w refusals) as Hsub.
  pose proof (owned_count limits ws i wallet _ Hsub Hw) as Hc1.
  pose proof (owned_count limits ws i wallet (entries w) ltac:(done) Hw) as Hc2.
  pose proof (sublist_length _ _ (owned_sublist i _ _ Hsub)) as Hle.
  unfold coverage. eexists. split.
  { rewrite list_map_lookup. erewrite (proj2 (combine_lookup _ _ _ _ _)); [reflexivity|split].
    - apply combine_lookup; split; [by rewrite Hws, list_map_lookup, Hw|].
      apply combine_lookup; split; apply per_wallet_counts_at; try done.
      intros e He. apply Hnd, list_elem_of_In. eapply sublist_subseteq; [exact Hsub|]. by apply list_elem_of_In.
    - by rewrite Hworth, list_map_lookup, Hw. }
  assert (Hwo : worth_of wallet = Z.of_nat (size (keys_of wallet)) + unlisted wallet).
  { unfold worth_of. fold (keys_of wallet). unfold count, sat_add_u32, u32_max in *. lia. }
  assert (Hcount : forall l, (length l <= size (keys_of wallet))%nat -> count (length (l : list (Entry Script F))) = Z.of_nat (length l)).
  { intros l Hl. unfold count. lia. }
  rewrite Hwo, !Hcount by done. cbn [wc_wallet_id watched_scripts left_out_scripts refused_scripts coverage_ coverage_of].
  unfold sat_sub. split; [done|]. split; [done|]. split; [lia|]. split; [lia|]. split.
  - destruct (owned i (heard w refusals)) as [|e l]; simpl; [done|].
    by destruct (_ =? 0).
  - destruct (Z.eqb_spec (Z.of_nat (length (owned i (heard w refusals)))) 0) as [|Hne]; [done|].
    case Z.eqb_spec; [|done]. intros E _. split; [lia|]. intros listed Hl.
    destruct (owned_hexes _ _ _ _ _ Hsub Hw) as [Hnd' Hkeys].
    assert (Hin : lower (script listed) ∈ (list_to_set (List.map hex (owned i (heard w refusals))) : gset string)).
    { rewrite (set_subseteq_size_eq _ _ Hkeys).
      - apply elem_of_list_to_set, list_elem_of_In, in_map_iff. by exists listed.
      - rewrite size_list_to_set, List.length_map by done. lia. }
    apply elem_of_list_to_set, list_elem_of_In, in_map_iff in Hin as (e & He & Hin). apply retain_In in Hin as [Hin Ho].
    apply bool_decide_eq_true in Ho. by exists e.
Qed.
End Reference.

(** ** A list of three wallets *)

Module Demo.
Definition listed (s : string) : WatchedScript unit :=
  {| script := s; lookahead := false; ws_status := None; ws_counts := None; history := [] |}.

Definition wallet (id : string) (l : list string) (pinned coins : bool) : WatchedWallet unit :=
  {| wallet_id := id; scripts := List.map listed l; has_pending := false; pinned := pinned; holds_coins := coins; unlisted := 0 |}.

Definition ws : list (WatchedWallet unit) :=
  [wallet "a" ["a0"; "x"; "a2"] false false; wallet "b" ["B0"; "X"] false true; wallet "c" ["c0"; "c1"] true false].

Definition limits : WatchLimits := {| per_wallet := 2; total := 5 |}.
Definition w := watched_new Some id ws limits.

(** The pinned wallet first, then rank by rank, [b] before [a]. *)
Example demo_list : List.map hex (entries w) = ["c0"; "c1"; "b0"; "a0"; "x"]
  /\ List.map owners (entries w) = [[2]; [2]; [1]; [0]; [1; 0]]%nat.
Proof. vm_compute. done. Qed.

Example demo_coverage : List.map (fun c => (wc_wallet_id c, left_out_scripts c)) (coverage w None) = [("a", 1); ("b", 0); ("c", 0)]
  /\ capped w None = ["a"].
Proof. vm_compute. done. Qed.
End Demo.

Lemma watch_list_fair_witness :
  let limits := {| per_wallet := 2; total := 4 |} in
  length (entries (watched_new Some id Demo.ws limits)) = 4%nat.
Proof.
  refine (proj1 (watch_list_fair (F := unit) Some id {| per_wallet := 2; total := 4 |} Demo.ws 0 1
    (Demo.wallet "a" ["a0"; "x"; "a2"] false false) (Demo.listed "x") _ _ _ _ _)); vm_compute; done || lia.
Defined.

Lemma coverage_right_witness : exists c, coverage Demo.w None !! 1%nat = Some c /\ watched_scripts c = 2.
Proof.
  destruct (coverage_right (F := unit) Some id Demo.limits Demo.ws None 1 (Demo.wallet "b" ["B0"; "X"] false true)) as (c & Hc & _ & Hw & _);
    [reflexivity|by vm_compute|by vm_compute|]. exists c. split; [exact Hc|]. rewrite Hw. vm_compute. reflexivity.
Defined.
