(* ===== verification/Syncs.v ===== *)
(** [wallet/meta.rs], the reports of [wallet/snapshot.rs] and the turns of
    [manager/sync.rs]: how far a sync reads, which server it asks first,
    whose result a caller takes, and what it fails with. Instants count
    nanoseconds. *)
From S2P Require Import Prelude Text Errors Network Store News Updates Xpub Connect Endpoints WatchList Faults Addresses.

(** ** Wallets, as the vault keeps them *)

Inductive RecognizedKind := Descriptor | DescriptorPair | MultipathDescriptor | ExtendedKey | Address | WalletExport | Bsms.

Module WalletKind.
Inductive WalletKind :=
| Descriptors (external : string) (internal : option string) (script : ScriptKind)
| SingleAddress (address : string).
End WalletKind.
Export WalletKind (WalletKind).

Record SyncStamp := { ss_at : Z; ss_tip_height : Z; ss_backend : string; ss_server : option string }.
Record CachedTotals := { ct_balance : BalanceSnapshot; ct_tx_count : Z }.
Inductive WalletIcon := KeyIcon | Shield | MapPin | Snowflake | Landmark | PiggyBank | WalletIcon_.

Record WalletMeta := {
  m_id : string;
  m_name : string;
  m_icon : WalletIcon;
  m_network : Network;
  m_kind : WalletKind;
  m_recognized_as : RecognizedKind;
  m_created_at : Z;
  m_gap_limit : Z;
  m_scan_gap : Z;
  m_labels : gmap string string;
  m_last_sync : option SyncStamp;
  m_complete_at : option Z;
  m_cached : CachedTotals;
  m_live_pinned : bool;
}.

Record SyncReport := {
  r_wallet_id : string;
  r_new_tx_count : Z;
  r_new_txs : list NewTx;
  r_confirmed_txs : list NewTx;
  r_balance : BalanceSnapshot;
  r_tip_height : Z;
  r_took_ms : Z;
  r_backend : string;
}.

(** ** How far a sync reads *)

Definition COMPLETE_EVERY_SECS : Z := 24 * 60 * 60.

Definition complete_lately (meta : WalletMeta) (now : Z) : bool :=
  match m_complete_at meta with Some at_ => sat_sub now at_ <? COMPLETE_EVERY_SECS | None => false end.

(** [chain/mod.rs]. *)
Module Reading.
Inductive Reading := Complete | Checked.
End Reading.
Export Reading (Reading).

Module Reach.
Inductive Reach {Script : Type} := Scripts (scripts : list Script) | Pending | Checked | Complete | Full.
Arguments Reach : clear implicits.
End Reach.
Export Reach (Reach).

Section Reaches.
Context {Script : Type} `{EqDecision Script}.

Definition rank (reach : Reach Script) : Z :=
  match reach with Reach.Scripts _ | Reach.Pending => 0 | Reach.Checked => 1 | Reach.Complete => 2 | Reach.Full => 3 end.

Definition covers (read asked : Reach Script) : bool :=
  match read, asked with
  | Reach.Scripts read, Reach.Scripts wanted => all (fun script => bool_decide (script ∈ read)) wanted
  | (Reach.Scripts _ | Reach.Pending), _ => false
  | _, (Reach.Scripts _ | Reach.Pending) => true
  | _, _ => rank asked <=? rank read
  end.

(** What [plan_for] makes of the reach asked for: [known] says whether the
    index of the wallet holds a script, [pending] the scripts of the
    transactions waiting for a block. *)
Definition planned_reach (known : Script -> bool) (pending : list Script) (reach : Reach Script) : Reach Script :=
  match reach with
  | Reach.Scripts scripts => if any (fun script => negb (known script)) scripts then Reach.Full else reach
  | Reach.Pending => match pending with [] => Reach.Checked | scripts => Reach.Scripts scripts end
  | other => other
  end.

(** The reading of that plan. *)
Definition reading_of (reach : Reach Script) : Reading :=
  match reach with Reach.Checked => Reading.Checked | _ => Reading.Complete end.

(** [routine_reach]. *)
Definition routine_reach (done_here : bool) (meta : option WalletMeta) (now : Z) : Reach Script :=
  let recent := match meta with Some meta => complete_lately meta now | None => false end in
  if done_here && recent then Reach.Checked else Reach.Complete.

(** What [sync_descriptor_wallet] makes of it first. *)
Definition descriptor_reach (meta : WalletMeta) (now : Z) (reach : Reach Script) : Reach Script :=
  if negb (is_some (m_last_sync meta)) || (m_scan_gap meta <? m_gap_limit meta) then Reach.Full
  else if (rank reach <? rank Reach.Complete) && negb (complete_lately meta now) then Reach.Complete
  else reach.

(** What a sync that read it whole writes of it, in [apply_synced]: the
    gap limit it scanned, and whether it read every script. *)
Definition scanned_gap (meta : WalletMeta) (reach : Reach Script) (whole : bool) : option Z :=
  match reach with Reach.Full => if whole then Some (m_gap_limit meta) else None | _ => None end.
Definition read_whole (reach : Reach Script) (whole : bool) : bool :=
  match reach with Reach.Full | Reach.Complete => whole | _ => false end.

(** ** One sync of a wallet at a time *)

(** The last sync of a wallet: when it started, what it reported and how
    far it read. *)
Definition SyncSlot : Type := option (Z * SyncReport * Reach Script).

Definition shared (last : SyncSlot) (arrived : Z) (reach : Reach Script) : option SyncReport :=
  match last with
  | Some (started, report, read) =>
    if (arrived <? started) && covers read reach
    then Some {| r_wallet_id := r_wallet_id report; r_new_tx_count := 0; r_new_txs := []; r_confirmed_txs := [];
                 r_balance := r_balance report; r_tip_height := r_tip_height report; r_took_ms := r_took_ms report;
                 r_backend := r_backend report |}
    else None
  | None => None
  end.

(** [sync_wallet_read], the caller holding the turn: [arrived] when it
    came, [started] when it got the turn, [alone] what the sync it would
    run itself comes to. *)
Definition sync_wallet_read (last : SyncSlot) (arrived : Z) (reach : Reach Script) (started : Z)
  (alone : CoreResult (SyncReport * Reach Script * Endpoint)) : SyncSlot * CoreResult (SyncReport * option Endpoint) :=
  match shared last arrived reach with
  | Some report => (last, Ok (report, None))
  | None =>
    match alone with
    | Err e => (last, Err e)
    | Ok (report, read, answered) => (Some (started, report, read), Ok (report, Some answered))
    end
  end.
End Reaches.

(** ** Servers put behind the others *)

Definition RELEGATION_FIRST : Z := secs (5 * 60).
Definition RELEGATION_MAX : Z := secs (60 * 60).

Record Relegation := { until : Z; r_count : Z }.

Abbreviation Relegations := (gmap Endpoint Relegation).

(** [Duration::checked_mul]. *)
Definition DURATION_MAX : Z := secs u64_max + 999999999.
Definition checked_mul (d n : Z) : option Z := if d * n <=? DURATION_MAX then Some (d * n) else None.
Definition sat_pow_u32 (base n : Z) : Z := Z.min u32_max (base ^ n).

Definition relegation_for (before : Z) : Z :=
  match checked_mul RELEGATION_FIRST (sat_pow_u32 2 before) with Some period => Z.min period RELEGATION_MAX | None => RELEGATION_MAX end.

Definition in_turn (r : Relegations) (first : option Endpoint) (now : Z) (endpoint : Endpoint) : bool :=
  bool_decide (Some endpoint = first) || match r !! endpoint with None => true | Some relegation => until relegation <=? now end.

(** [Relegations::order], [Relegations::answered]. *)
Definition order (r : Relegations) (endpoints : list Endpoint) (first : option Endpoint) (now : Z) : list Endpoint :=
  retain (in_turn r first now) endpoints ++ retain (fun endpoint => negb (in_turn r first now endpoint)) endpoints.

Definition relegate (now : Z) (r : Relegations) (endpoint : Endpoint) : Relegations :=
  let relegation := unwrap_or (r !! endpoint) {| until := now; r_count := 0 |} in
  if now <? until relegation then <[endpoint := relegation]> r
  else <[endpoint := {| until := now + relegation_for (r_count relegation); r_count := sat_add_u32 (r_count relegation) 1 |}]> r.

Definition answered (r : Relegations) (answered : Endpoint) (failed : list Endpoint) (now : Z) : Relegations :=
  let r := filter (fun '(_, relegation) => now < until relegation + RELEGATION_MAX) r in
  foldl (relegate now) (delete answered r) failed.

(** ** The servers of a sync *)

Section Order.
Context `{Keys} `{Urls}.

Definition sync_order (endpoints : list Endpoint) (answered : option string) (first : option Endpoint) : list Endpoint :=
  let endpoints :=
    match and_then answered (fun answered => position (fun endpoint => bool_decide (Endpoints.key endpoint = answered)) endpoints) with
    | Some place =>
      match endpoints !! place with
      | Some answered => answered :: take place endpoints ++ drop (S place) endpoints
      | None => endpoints
      end
    | None => endpoints
    end in
  match first with
  | Some first => first :: retain (fun endpoint => negb (bool_decide (endpoint = first))) endpoints
  | None => endpoints
  end.

(** The server of the watch a sync tries first: [prefer], or the one a
    watch talks to ([live]), when a watch of the network of the wallet
    may talk to it. *)
Definition watch_first (network : Network) (config : BackendConfig) (certs : TrustedCerts)
  (prefer live : option (Network * Endpoint)) : option Endpoint :=
  match match prefer with Some prefer => Some prefer | None => live end with
  | Some (its_network, prefer) =>
    if bool_decide (its_network = network)
       && match servers_for config network certs with Ok allowed => bool_decide (prefer ∈ allowed) | Err _ => false end
    then Some prefer else None
  | None => None
  end.

Definition sync_endpoints (meta : WalletMeta) (config : BackendConfig) (certs : TrustedCerts)
  (prefer live : option (Network * Endpoint)) (relegated : Relegations) (now : Z) : CoreResult (list Endpoint) :=
  let first := watch_first (m_network meta) config certs prefer live in
  let answered := and_then (m_last_sync meta) ss_server in
  let? named := endpoints config (m_network meta) certs in
  Ok (order relegated (sync_order named answered first) first now).

(** ** What a sync fails with *)

Record Attempts := { said : list string; down : list Endpoint; a_false_proof : bool }.

Definition no_attempts : Attempts := {| said := []; down := []; a_false_proof := false |}.

Definition failed (attempts : Attempts) (endpoint : Endpoint) (fault : Fault) : Attempts :=
  {| said := said attempts ++ [endpoint_label endpoint +:+ ": " +:+ Faults.detail fault];
     down := match Faults.kind fault with Faults.Outage => down attempts ++ [endpoint] | _ => down attempts end;
     a_false_proof := match Faults.kind fault with Faults.FalseProof => true | _ => a_false_proof attempts end |}.

Definition config_label (endpoints : list Endpoint) : string :=
  unwrap_or (option_map endpoint_label (hd_error endpoints)) "backend".

Definition sync_failure (endpoints : list Endpoint) (attempts : Attempts) : CoreError :=
  let backend := config_label endpoints in
  if a_false_proof attempts then Errors.FalseProof backend (String.concat "; " (said attempts))
  else Sync backend match said attempts with [] => "no backend available" | said => String.concat "; " said end.

(** The loop every sync runs over its servers: the first that answers, and
    what the ones before it came to. *)
Fixpoint first_answer {A} (ask : Endpoint -> result A Fault) (attempts : Attempts) (endpoints : list Endpoint)
  : Attempts * option (Endpoint * A) :=
  match endpoints with
  | [] => (attempts, None)
  | endpoint :: endpoints =>
    match ask endpoint with
    | Err fault => first_answer ask (failed attempts endpoint fault) endpoints
    | Ok answer => (attempts, Some (endpoint, answer))
    end
  end.

(** [SyncFailure], [sync_all]. *)
Record SyncFailure := { sf_wallet_id : string; sf_message : string; sf_kind : ErrorCode }.

Definition failure_of (wallet_id : string) (error : CoreError) : SyncFailure :=
  {| sf_wallet_id := wallet_id; sf_message := Errors.words error; sf_kind := code error |}.

Definition sync_code : ErrorCode := EC_Sync.

Record SyncAllReport := { reports : list SyncReport; failures : list SyncFailure }.

Definition sync_all {S} (sync_wallet : S -> string -> S * CoreResult SyncReport) (s : S) (metas : list WalletMeta) : S * SyncAllReport :=
  foldl (fun '(s, report) meta =>
    match sync_wallet s (m_id meta) with
    | (s, Ok sync) => (s, {| reports := reports report ++ [sync]; failures := failures report |})
    | (s, Err error) => (s, {| reports := reports report; failures := failures report ++ [failure_of (m_id meta) error] |})
    end) (s, {| reports := []; failures := [] |}) metas.
End Order.

(** ** What an Esplora server is asked of a script *)

(** [read_script] of [chain/esplora/sync.rs]: the counters alone, and the
    unconfirmed transactions, or the pages down to what the wallet holds.
    [agrees] says the counters are what the wallet holds, [waiting] how
    many transactions of the script the server counts unconfirmed. *)
Inductive ScriptRead := CountersAlone | MempoolListed | PagesRead.

Definition script_read (agrees reorganised : bool) (reading : Reading) (waiting : Z) : ScriptRead :=
  if agrees && negb reorganised then
    match reading with
    | Reading.Checked => CountersAlone
    | Reading.Complete => if waiting =? 0 then CountersAlone else MempoolListed
    end
  else PagesRead.

(** ** What they promise *)

Section Sharing.
Context {Script : Type} `{EqDecision Script}.
Implicit Types a b c : Reach Script.

Lemma covers_Scripts (read wanted : list Script) :
  covers (Reach.Scripts read) (Reach.Scripts wanted) = true <-> forall script, In script wanted -> In script read.
Proof.
  cbn [covers]. rewrite all_true. split; intros H script Hin.
  - apply H in Hin. by apply bool_decide_eq_true_1, list_elem_of_In in Hin.
  - by apply bool_decide_eq_true_2, list_elem_of_In, H.
Qed.

Lemma covers_refl a : a <> Reach.Pending -> covers a a = true.
Proof. destruct a; try done. intros _. by apply covers_Scripts. Qed.

Lemma covers_trans a b c : covers a b = true -> covers b c = true -> covers a c = true.
Proof.
  destruct a, b, c; try done; rewrite ?covers_Scripts; auto.
Qed.

(** A run of the callers of a wallet, in the order they take the turn:
    when each came, how far it would read, when it got the turn and what
    its own sync would come to. *)
Definition Call : Type := Z * Reach Script * Z * CoreResult (SyncReport * Reach Script * Endpoint).

Definition turn (last : SyncSlot) (call : Call) : SyncSlot * CoreResult (SyncReport * option Endpoint) :=
  let '(arrived, reach, started, alone) := call in sync_wallet_read last arrived reach started alone.

Definition slot_after (calls : list Call) : SyncSlot := foldl (fun last call => (turn last call).1) None calls.

Lemma slot_after_ran (calls : list Call) started report read : slot_after calls = Some (started, report, read) ->
  exists arrived reach server, In (arrived, reach, started, Ok (report, read, server)) calls.
Proof.
  unfold slot_after. induction calls as [|[[[arrived reach] at_] alone] calls IH] using rev_ind; [done|].
  rewrite foldl_app. cbn [foldl]. set (last := foldl _ _ _) in *. unfold turn, sync_wallet_read.
  destruct (shared last arrived reach); cbn [fst].
  - intros (x & y & z & Hin)%IH. exists x, y, z. apply in_or_app. by left.
  - destruct alone as [[[rep rd] server]|e]; cbn [fst].
    + intros [= -> -> ->]. exists arrived, reach, server. apply in_or_app. right. by left.
    + intros (x & y & z & Hin)%IH. exists x, y, z. apply in_or_app. by left.
Qed.

(** A caller that is given the result of another's sync is given one
    that started after it came, that answered, and that read at least as
    far as it would have as the code ranks what syncs read; the balance
    and the tip are that sync's, and nothing is listed as new. Any other
    caller runs its own sync, so no caller is told what was read before
    it came. *)
Theorem shared_sync_started_later (before : list Call) arrived reach started alone report :
  (turn (slot_after before) (arrived, reach, started, alone)).2 = Ok (report, None) ->
  exists arrived' reach' started' report' read server,
    In (arrived', reach', started', Ok (report', read, server)) before
    /\ arrived < started' /\ covers read reach = true
    /\ r_balance report = r_balance report' /\ r_tip_height report = r_tip_height report'
    /\ r_new_tx_count report = 0 /\ r_new_txs report = [] /\ r_confirmed_txs report = [].
Proof.
  unfold turn, sync_wallet_read. destruct (shared _ _ _) as [given|] eqn:Hs; cbn [snd].
  2: { by destruct alone as [[[? ?] ?]|?]. }
  intros [= <-]. unfold shared in Hs. destruct (slot_after before) as [[[started' report'] read]|] eqn:Hl; [|done].
  apply slot_after_ran in Hl as (arrived' & reach' & server & Hin).
  destruct ((arrived <? started') && covers read reach) eqn:E; [|done]. injection Hs as <-.
  apply andb_true_iff in E as [?%Z.ltb_lt ?]. exists arrived', reach', started', report', read, server. done.
Qed.

(** What the ranks miss: the sync of a script a watch saw move lists its
    unconfirmed transactions whatever its counters say, and a sync that
    only checks the counters is taken in its place. *)
Lemma checked_taken_for_moved (known : Script -> bool) pending script waiting : known script = true -> 0 < waiting ->
  let asked := planned_reach known pending (Reach.Scripts [script]) in
  covers Reach.Checked asked = true
  /\ script_read true false (reading_of asked) waiting = MempoolListed
  /\ script_read true false (reading_of (Reach.Checked : Reach Script)) waiting = CountersAlone.
Proof.
  intros Hk Hw. cbn [planned_reach any existsb]. rewrite Hk. cbn. split; [done|]. split; [|done].
  by destruct (Z.eqb_spec waiting 0); [lia|].
Qed.
End Sharing.

(** ** The order of the servers *)

Lemma retain_partition {A} (f : A -> bool) l : retain f l ++ retain (fun x => negb (f x)) l ≡ₚ l.
Proof.
  unfold retain. induction l as [|x l IH]; cbn; [done|]. destruct (f x); cbn; [by f_equiv|].
  by rewrite <- Permutation_middle; f_equiv.
Qed.

Lemma order_perm r l first now : order r l first now ≡ₚ l.
Proof. apply retain_partition. Qed.

Lemma order_head r l first now e : hd_error l = Some e -> in_turn r first now e = true -> hd_error (order r l first now) = Some e.
Proof. destruct l as [|x l]; [done|]. intros [= ->] Ht. unfold order, retain. cbn. by rewrite Ht. Qed.

Lemma order_late_last r l first now : StronglySorted (fun a b => in_turn r first now b = true -> in_turn r first now a = true) (order r l first now).
Proof.
  apply sorting.StronglySorted_app_2; [| |].
  - intros a b Ha _ _. apply list_elem_of_In, retain_In in Ha. by destruct Ha.
  - assert (H : forall a, In a (retain (in_turn r first now) l) -> in_turn r first now a = true) by (intros a [_ ?]%retain_In; done).
    induction (retain _ l) as [|x k IH]; constructor; [apply IH; intros; apply H; by right|].
    apply list.Forall_forall. intros y _ _. apply H. by left.
  - assert (H : forall a, In a (retain (fun e => negb (in_turn r first now e)) l) -> in_turn r first now a = false)
      by (intros a [_ ?%negb_true_iff]%retain_In; done).
    induction (retain _ l) as [|x k IH]; constructor; [apply IH; intros; apply H; by right|].
    apply list.Forall_forall. intros y Hy Ht. apply list_elem_of_In in Hy. rewrite H in Ht by (by right). done.
Qed.

Section Servers.
Context `{Keys} `{Urls}.

Lemma position_taken {A} (f : A -> bool) l place x : position f l = Some place -> l !! place = Some x ->
  l ≡ₚ x :: take place l ++ drop (S place) l /\ f x = true.
Proof.
  revert place. induction l as [|y l IH]; intros place; cbn [position]; [done|]. destruct (f y) eqn:E.
  - intros [= <-] [= ->]. by cbn.
  - destruct (position f l) as [k|]; [|done]. intros [= <-] Hx. cbn in Hx. destruct (IH k eq_refl Hx) as [Hp ?].
    split; [|done]. cbn. rewrite Hp at 1. apply Permutation_swap.
Qed.

Lemma position_lookup {A} (f : A -> bool) l place : position f l = Some place -> exists x, l !! place = Some x.
Proof.
  revert place. induction l as [|y l IH]; intros place; cbn [position]; [done|]. destruct (f y); [intros [= <-]; by exists y|].
  destruct (position f l) as [k|]; [|done]. intros [= <-]. by apply IH.
Qed.

Lemma position_find {A} (f : A -> bool) l x : List.find f l = Some x -> exists place, position f l = Some place /\ l !! place = Some x.
Proof.
  induction l as [|y l IH]; cbn; [done|]. destruct (f y); [intros [= ->]; by exists 0%nat|].
  intros (k & -> & Hk)%IH. by exists (S k).
Qed.

Lemma sync_order_In l answered first e : In e (sync_order l answered first) <-> In e l \/ first = Some e.
Proof.
  unfold sync_order. set (moved := match and_then _ _ with Some place => _ | None => l end).
  assert (Hm : moved ≡ₚ l).
  { subst moved. destruct (and_then answered _) as [place|] eqn:E; [|done]. destruct answered as [k|]; [|done]. cbn [and_then] in E.
    destruct (position_lookup _ _ _ E) as [x Hx]. rewrite Hx. by destruct (position_taken _ _ _ _ E Hx) as [<- _]. }
  clearbody moved. destruct first as [f|].
  - cbn [In]. rewrite retain_In, negb_true_iff, bool_decide_eq_false. rewrite <- !list_elem_of_In, Hm. split.
    + intros [->|[? _]]; [by right|by left].
    + intros [Hin|[= ->]]; [|by left]. destruct (decide (e = f)) as [->|]; [by left|by right].
  - rewrite <- !list_elem_of_In, Hm. split; [by left|by intros [|]].
Qed.

(** The servers a sync asks are those the backend of the wallet names
    on its network, every one of them, and no other than the one a watch
    talks to, which is asked first and only when a watch of that network
    under that backend may talk to it. Otherwise the one that answered
    the last sync comes first, and a server that was down lately comes
    after every other, whatever was found of it, and is still asked. *)
Theorem sync_asks_its_own_servers meta config certs prefer live relegated now l :
  sync_endpoints meta config certs prefer live relegated now = Ok l ->
  let first := watch_first (m_network meta) config certs prefer live in
  exists named, endpoints config (m_network meta) certs = Ok named
  /\ (forall e, In e l <-> In e named \/ first = Some e)
  /\ (forall e, first = Some e -> hd_error l = Some e
        /\ (prefer = Some (m_network meta, e) \/ prefer = None /\ live = Some (m_network meta, e))
        /\ exists allowed, servers_for config (m_network meta) certs = Ok allowed /\ In e allowed)
  /\ (forall server e, first = None -> and_then (m_last_sync meta) ss_server = Some server ->
        List.find (fun endpoint => bool_decide (Endpoints.key endpoint = server)) named = Some e ->
        in_turn relegated None now e = true -> hd_error l = Some e)
  /\ StronglySorted (fun a b => in_turn relegated first now b = true -> in_turn relegated first now a = true) l.
Proof.
  unfold sync_endpoints. set (first := watch_first _ _ _ _ _). destruct (endpoints config _ certs) as [named|] eqn:En; cbn; [|done].
  intros [= <-]. exists named. split; [done|]. split; [|split; [|split]].
  - intros e. rewrite <- list_elem_of_In, order_perm, list_elem_of_In. apply sync_order_In.
  - intros e He. split.
    + apply order_head; [by rewrite He|]. unfold in_turn. by rewrite He, bool_decide_eq_true_2.
    + subst first. unfold watch_first in He. destruct (match prefer with Some p => Some p | None => live end) as [[n p]|] eqn:Ep; [|done].
      destruct (bool_decide (n = m_network meta)) eqn:Hn; [|done]. destruct (servers_for config (m_network meta) certs) as [allowed|]; [|done].
      destruct (bool_decide (p ∈ allowed)) eqn:Ha; [|done]. injection He as ->. apply bool_decide_eq_true_1 in Hn as ->.
      apply bool_decide_eq_true_1, list_elem_of_In in Ha. split; [|by exists allowed].
      destruct prefer; [left|right]; done.
  - intros server e Hf Ha Hfind Ht. rewrite Hf. apply order_head; [|done]. unfold sync_order. rewrite Ha. cbn [and_then].
    destruct (position_find _ _ _ Hfind) as (place & -> & Hx). by rewrite Hx.
  - apply order_late_last.
Qed.
End Servers.

(** ** How long a server stays behind *)

Lemma relegation_for_bounds n : 0 <= n -> RELEGATION_FIRST <= relegation_for n <= RELEGATION_MAX.
Proof.
  intros Hn. unfold relegation_for, checked_mul, sat_pow_u32. set (times := Z.min u32_max (2 ^ n)).
  assert (Ht : 1 <= times <= u32_max) by (pose proof (Z.pow_pos_nonneg 2 n ltac:(lia) Hn); unfold times, u32_max; lia).
  clearbody times. unfold RELEGATION_FIRST, RELEGATION_MAX, DURATION_MAX, secs, u32_max, u64_max in *. destruct (Z.leb_spec (5 * 60 * 1000000000 * times) (18446744073709551615 * 1000000000 + 999999999)); lia.
Qed.

Lemma relegation_doubles n : 0 <= n -> relegation_for (n + 1) = Z.min RELEGATION_MAX (2 * relegation_for n).
Proof.
  intros Hn. unfold relegation_for, checked_mul, sat_pow_u32. rewrite Z.pow_add_r by lia. change (2 ^ 1) with 2.
  pose proof (Z.pow_pos_nonneg 2 n ltac:(lia) Hn). set (t := 2 ^ n) in *. clearbody t.
  unfold RELEGATION_FIRST, RELEGATION_MAX, DURATION_MAX, secs, u32_max, u64_max in *.
  destruct (Z.leb_spec (5 * 60 * 1000000000 * Z.min 4294967295 (t * 2)) (18446744073709551615 * 1000000000 + 999999999)),
    (Z.leb_spec (5 * 60 * 1000000000 * Z.min 4294967295 t) (18446744073709551615 * 1000000000 + 999999999)); lia.
Qed.

(** A run of syncs that found an answer: when, the server that answered
    and the ones that were down before it. *)
Definition after (r : Relegations) (sync : Z * Endpoint * list Endpoint) : Relegations :=
  let '(now, server, failed) := sync in answered r server failed now.
Definition relegated_by (syncs : list (Z * Endpoint * list Endpoint)) : Relegations := foldl after ∅ syncs.

(** Where a relegation comes from. *)
Definition caused (syncs : list (Z * Endpoint * list Endpoint)) (e : Endpoint) (rel : Relegation) : Prop :=
  0 <= r_count rel /\ exists before t server failed later, syncs = before ++ (t, server, failed) :: later
    /\ In e failed /\ until rel <= t + RELEGATION_MAX /\ Forall (fun sync => sync.1.2 <> e) later.

Lemma relegate_caused now server failed r syncs : (forall e rel, r !! e = Some rel -> caused (syncs ++ [(now, server, failed)]) e rel) ->
  forall f, In f failed -> forall e rel, relegate now r f !! e = Some rel -> caused (syncs ++ [(now, server, failed)]) e rel.
Proof.
  intros Hr f Hf e rel. unfold relegate. cbv zeta. destruct (r !! f) as [old|] eqn:Ef; cbn [unwrap_or until r_count].
  - destruct (Z.ltb_spec now (until old)).
    + destruct (decide (f = e)) as [<-|Hne]; [rewrite lookup_insert_eq; intros [= <-]; by apply Hr|rewrite lookup_insert_ne by done; apply Hr].
    + destruct (decide (f = e)) as [<-|Hne]; [|rewrite lookup_insert_ne by done; apply Hr].
      rewrite lookup_insert_eq. intros [= <-]. destruct (Hr f old Ef) as [Hc _]. pose proof (relegation_for_bounds _ Hc). split.
      { cbn [r_count]. unfold sat_add_u32, u32_max. lia. }
      exists syncs, now, server, failed, []. cbn [until]. split; [done|]. split; [done|]. split; [lia|done].
  - rewrite Z.ltb_irrefl. destruct (decide (f = e)) as [<-|Hne]; [|rewrite lookup_insert_ne by done; apply Hr].
    rewrite lookup_insert_eq. intros [= <-]. pose proof (relegation_for_bounds 0 ltac:(lia)). split; [by cbn|].
    exists syncs, now, server, failed, []. cbn [until]. split; [done|]. split; [done|]. split; [lia|done].
Qed.

Lemma relegated_caused syncs e rel : relegated_by syncs !! e = Some rel -> caused syncs e rel.
Proof.
  unfold relegated_by. revert e rel. induction syncs as [|[[now server] failed] syncs IH] using rev_ind; intros e rel; cbn [foldl]; [by rewrite lookup_empty|].
  rewrite foldl_app. cbn [foldl after]. unfold answered. set (old := foldl after ∅ syncs) in *.
  set (start := delete server _).
  assert (Hstart : forall e rel, start !! e = Some rel -> caused (syncs ++ [(now, server, failed)]) e rel).
  { intros x rx Hx. subst start. apply lookup_delete_Some in Hx as [Hne [Hx _]%map_lookup_filter_Some].
    destruct (IH x rx Hx) as (Hc & before & t & s & f & later & -> & Hin & Hu & Hl). split; [done|].
    exists before, t, s, f, (later ++ [(now, server, failed)]). split; [by rewrite <- app_assoc|]. split; [done|]. split; [done|].
    apply list.Forall_app. split; [done|]. by constructor. }
  clearbody start. assert (Hall : forall done todo, failed = done ++ todo -> forall r,
    (forall e rel, r !! e = Some rel -> caused (syncs ++ [(now, server, failed)]) e rel) ->
    forall e rel, foldl (relegate now) r todo !! e = Some rel -> caused (syncs ++ [(now, server, failed)]) e rel).
  { intros done todo. revert done. induction todo as [|f todo IHt]; intros done Hf r Hr x rx; cbn [foldl]; [apply Hr|].
    apply (IHt (done ++ [f])); [by rewrite <- app_assoc|]. intros y ry. apply relegate_caused; [exact Hr|].
    rewrite Hf. apply in_or_app. right. by left. }
  apply (Hall [] failed); done.
Qed.

(** A server a sync puts behind the others was down within the last
    hour, in a sync that another server answered, and has answered none
    since: a server is never put behind for a refusal, when every server
    failed, or past an hour; and one that answers is back in its place at
    once. *)
Theorem relegated_for_an_outage syncs first now e : in_turn (relegated_by syncs) first now e = false ->
  first <> Some e /\ exists before t server failed later,
    syncs = before ++ (t, server, failed) :: later /\ In e failed /\ now < t + RELEGATION_MAX
    /\ Forall (fun sync => sync.1.2 <> e) later.
Proof.
  unfold in_turn. intros [Hf Hr]%orb_false_iff. apply bool_decide_eq_false in Hf. split; [by intros ->|].
  destruct (relegated_by syncs !! e) as [rel|] eqn:E; [|done]. apply Z.leb_gt in Hr.
  destruct (relegated_caused _ _ _ E) as (_ & before & t & server & failed & later & -> & ? & ? & ?).
  exists before, t, server, failed, later. do 2 (split; [done|]). split; [lia|done].
Qed.

Lemma first_answer_down `{Keys} `{Urls} {A} (ask : Endpoint -> result A Fault) attempts endpoints e :
  In e (down (first_answer ask attempts endpoints).1) ->
  In e (down attempts) \/ In e endpoints /\ exists fault, ask e = Err fault /\ Faults.kind fault = Outage.
Proof.
  revert attempts. induction endpoints as [|x l IH]; intros attempts; cbn [first_answer]; [by left|].
  destruct (ask x) as [a|fault] eqn:Ex; [by left|]. intros [Hin|(Hin & Ha)]%IH; [|right; split; [by right|done]].
  unfold failed in Hin. cbn [down] in Hin. destruct (Faults.kind fault) eqn:Ek; [|by left|by left].
  apply in_app_iff in Hin as [Hin|[->|[]]]; [by left|right]. split; [by left|]. by exists fault.
Qed.

Lemma first_answer_asked `{Keys} `{Urls} {A} (ask : Endpoint -> result A Fault) attempts endpoints attempts' e answer :
  first_answer ask attempts endpoints = (attempts', Some (e, answer)) -> In e endpoints /\ ask e = Ok answer.
Proof.
  revert attempts. induction endpoints as [|x l IH]; intros attempts; cbn [first_answer]; [done|].
  destruct (ask x) as [a|fault] eqn:Ex; [intros [= _ <- <-]; split; [by left|done]|]. intros [? ?]%IH. split; [by right|done].
Qed.

(** ** The theorems at work *)

Section Demo.
#[local] Existing Instances Endpoints.catalogue_urls Xpub.Demo.demo_keys.

Definition demo_balance : BalanceSnapshot :=
  {| b_confirmed := 5; trusted_pending := 0; untrusted_pending := 0; immature := 0; b_total := 5; pending_net_sats := None |}.
Definition demo_report : SyncReport :=
  {| r_wallet_id := "w"; r_new_tx_count := 1; r_new_txs := [{| nt_txid := "aa"; nt_net_sats := 5; nt_confirmed := false |}];
     r_confirmed_txs := []; r_balance := demo_balance; r_tip_height := 900; r_took_ms := 12; r_backend := "blockstream.info" |}.
Definition blockstream : Endpoint := Endpoint.Electrum (target_of ∅ "ssl://blockstream.info:700").
Definition demo_meta : WalletMeta :=
  {| m_id := "w"; m_name := "Cold"; m_icon := WalletIcon_; m_network := Mainnet; m_kind := WalletKind.SingleAddress "bc1q";
     m_recognized_as := Address; m_created_at := 1; m_gap_limit := 20; m_scan_gap := 20; m_labels := ∅;
     m_last_sync := Some {| ss_at := 5; ss_tip_height := 899; ss_backend := "mempool.space"; ss_server := Some "esplora mempool.space" |};
     m_complete_at := Some 5; m_cached := {| ct_balance := demo_balance; ct_tx_count := 1 |}; m_live_pinned := false |}.

Definition demo_calls : list (Call (Script:=string)) := [(3, Reach.Complete, 5, Ok (demo_report, Reach.Complete, blockstream))].

Lemma shared_sync_started_later_witness :
  exists report,
    (turn (slot_after demo_calls)
       (4, Reach.Checked, 9, Err (BackendUnavailable ""))).2 = Ok (report, None)
    /\ exists arrived' reach' started' report' (read : Reach string) server,
      In (arrived', reach', started', Ok (report', read, server))
         demo_calls
      /\ 4 < started' /\ covers read Reach.Checked = true
      /\ r_balance report = r_balance report' /\ r_tip_height report = r_tip_height report'
      /\ r_new_tx_count report = 0 /\ r_new_txs report = [] /\ r_confirmed_txs report = [].
Proof.
  eexists. split; [vm_compute; reflexivity|].
  eapply (shared_sync_started_later demo_calls 4 Reach.Checked 9 (Err (BackendUnavailable ""))).
  vm_compute. reflexivity.
Defined.

Example asked_in_order :
  sync_endpoints demo_meta (Public None) ∅ None (Some (Mainnet, blockstream)) ∅ 0
  = Ok (blockstream :: List.map Endpoint.Esplora ["https://mempool.space/api"; "https://blockstream.info/api"; "https://mempool.emzy.de/api"]).
Proof. vm_compute. reflexivity. Qed.

Lemma sync_asks_its_own_servers_witness :
  exists named, endpoints (Public None) Mainnet ∅ = Ok named
  /\ forall e, In e (blockstream :: List.map Endpoint.Esplora ["https://mempool.space/api"; "https://blockstream.info/api"; "https://mempool.emzy.de/api"])
     <-> In e named \/ watch_first Mainnet (Public None) ∅ None (Some (Mainnet, blockstream)) = Some e.
Proof.
  pose proof (sync_asks_its_own_servers demo_meta (Public None) ∅ None (Some (Mainnet, blockstream)) ∅ 0 _ asked_in_order) as H.
  destruct H as (named & Hn & He & _). exists named. split; [exact Hn|exact He].
Defined.

Definition mempool_space : Endpoint := Endpoint.Esplora "https://mempool.space/api".

Lemma relegated_for_an_outage_witness :
  let syncs := [(0, blockstream, []); (secs 10, blockstream, [mempool_space])] in
  in_turn (relegated_by syncs) (Some blockstream) (secs 60) mempool_space = false
  /\ exists before t server failed later,
    syncs = before ++ (t, server, failed) :: later /\ In mempool_space failed /\ secs 60 < t + RELEGATION_MAX
    /\ Forall (fun sync => sync.1.2 <> mempool_space) later.
Proof.
  cbn zeta. split; [vm_compute; reflexivity|].
  pose proof (relegated_for_an_outage [(0, blockstream, []); (secs 10, blockstream, [mempool_space])] (Some blockstream) (secs 60) mempool_space) as H.
  apply H. vm_compute. reflexivity.
Defined.
End Demo.
