(* ===== verification/Bursts.v ===== *)
(** [watch/mod.rs], what a watch says and when: the events, the bursts
    that hold a report back until a wallet is quiet, the queue of the
    events, the backoff between two connections. The clock counts
    nanoseconds. A new configuration starts the bursts over
    ([forget_baselines]), as a list of no wallet does ([keep_none]). *)
From S2P Require Import Prelude Text WatchList.

(** ** Events *)

Module ChangeReason.
Inductive ChangeReason := NewBlock | Activity | Started | Reconnected.

Definition rank (r : ChangeReason) : Z :=
  match r with NewBlock => 0 | Activity => 1 | Started => 2 | Reconnected => 3 end.

Definition max (a b : ChangeReason) : ChangeReason := if rank a <=? rank b then b else a.

Lemma max_l a b : rank a <= rank (max a b).
Proof. unfold max. destruct (Z.leb_spec (rank a) (rank b)); lia. Qed.

Lemma max_r a b : rank b <= rank (max a b).
Proof. unfold max. destruct (Z.leb_spec (rank a) (rank b)); lia. Qed.
End ChangeReason.
Export ChangeReason (ChangeReason).

Inductive WatchState := Off | Connecting | Connected | Reconnecting | Polling.
Inductive WatchTransport := OverElectrum | MempoolWebsocket | EsploraPolling.

Record WatchStatus := {
  st_state : WatchState;
  transport : option WatchTransport;
  server : option string;
  detail : option string;
  st_watched_scripts : Z;
  pushed_scripts : Z;
  st_left_out_scripts : Z;
  left_out_wallets : Z;
  st_wallets : list WalletCoverage;
  server_software : option string;
  left_out : option LeftOut;
}.

Definition default_status : WatchStatus :=
  {| st_state := Off; transport := None; server := None; detail := None; st_watched_scripts := 0;
     pushed_scripts := 0; st_left_out_scripts := 0; left_out_wallets := 0; st_wallets := [];
     server_software := None; left_out := None |}.

Section Bursts.
(** A block header and a server, of other crates and files. *)
Context {Header Endpoint : Type}.

Record Headers := { h_first : Z; chain : list Header }.

(** [Headers::last_height], [Headers::at]. *)
Definition last_height (h : Headers) : Z := sat_sub (sat_add_u32 (h_first h) (Z.min (Z.of_nat (length (chain h))) u32_max)) 1.
Definition at_ (h : Headers) (height : Z) : option Header :=
  if height <? h_first h then None else chain h !! Z.to_nat (height - h_first h).

Record Proven := {
  pv_script : string;
  pv_status : string;
  txids : list string;
  headers : Headers;
  pv_server : Endpoint;
}.

Inductive WatchEvent :=
| WalletChanged (wallet_id : string) (reason : ChangeReason) (rescan : bool) (scripts : list string)
| Confirmed (wallet_id : string) (scripts : list string) (proven : list Proven)
| NewBlock (height : Z)
| Status (status : WatchStatus).

Record Pending := {
  first : Z;
  last : Z;
  p_reason : ChangeReason;
  p_rescan : bool;
  p_scripts : option (gset string);
  p_proven : list Proven;
}.

(** [Pending::event]. *)
Definition event (pending : Pending) (wallet_id : string) : WatchEvent :=
  let proven_scripts : gset string := list_to_set (List.map pv_script (p_proven pending)) in
  if match p_scripts pending with Some scripts => bool_decide (scripts = ∅) | None => false end
     && match p_proven pending with [] => false | _ => true end
  then Confirmed wallet_id (in_order proven_scripts) (p_proven pending)
  else WalletChanged wallet_id (p_reason pending) (p_rescan pending)
         match p_scripts pending with Some scripts => in_order (scripts ∪ proven_scripts) | None => [] end.

(** ** Bursts *)

Record Debouncer := { pending : gmap string Pending; reported : gmap string Z }.

Definition no_bursts : Debouncer := {| pending := ∅; reported := ∅ |}.

Definition mark (d : Debouncer) (wallet_id : string) (reason : ChangeReason) (rescan : bool)
  (script : option string) (now : Z) : Debouncer :=
  {| reported := reported d;
     pending := <[wallet_id :=
       match pending d !! wallet_id with
       | Some p =>
         {| first := first p; last := now; p_reason := ChangeReason.max (p_reason p) reason;
            p_rescan := p_rescan p || rescan;
            p_scripts := match p_scripts p, script with
                         | Some scripts, Some script => Some ({[script]} ∪ scripts)
                         | _, _ => None
                         end;
            p_proven := p_proven p |}
       | None =>
         {| first := now; last := now; p_reason := reason; p_rescan := rescan;
            p_scripts := option_map (fun script => {[script]}) script; p_proven := [] |}
       end]> (pending d) |}.

Definition mark_proven (d : Debouncer) (wallet_id : string) (proven : Proven) (now : Z) : Debouncer :=
  {| reported := reported d;
     pending := <[wallet_id :=
       match pending d !! wallet_id with
       | Some p =>
         {| first := first p; last := now; p_reason := ChangeReason.max (p_reason p) ChangeReason.Activity;
            p_rescan := p_rescan p; p_scripts := p_scripts p; p_proven := p_proven p ++ [proven] |}
       | None =>
         {| first := now; last := now; p_reason := ChangeReason.Activity; p_rescan := false;
            p_scripts := Some ∅; p_proven := [proven] |}
       end]> (pending d) |}.

Definition due_at (d : Debouncer) (wallet_id : string) (p : Pending) (timings : Timings) : Z :=
  let settled := Z.min (last p + quiet timings) (first p + burst timings) in
  match reported d !! wallet_id with
  | Some reported => Z.max settled (reported + gap timings)
  | None => settled
  end.

(** The least of a list, as [Iterator::min]. *)
Definition least (l : list Z) : option Z :=
  match l with [] => None | x :: l => Some (foldl Z.min x l) end.

Definition next_deadline (d : Debouncer) (timings : Timings) : option Z :=
  least (List.map (fun '(id, p) => due_at d id p timings) (entries_in_order (pending d))).

Definition due_now (d : Debouncer) (now : Z) (timings : Timings) : list (string * Pending) :=
  retain (fun '(id, p) => due_at d id p timings <=? now) (entries_in_order (pending d)).

Definition take_due (d : Debouncer) (now : Z) (timings : Timings) : list (string * Pending) * Debouncer :=
  let due := due_now d now timings in
  (due, {| pending := foldl (fun m '(id, _) => delete id m) (pending d) due; reported := reported d |}).

(** The queue of the events: all that was ever sent in it, and when, and
    how many of them were received. *)
Record Channel := { sent : list (Z * WatchEvent); received : nat }.

Definition EVENT_QUEUE : nat := 64.

(** [mpsc::Sender::try_send]. *)
Definition try_send (c : Channel) (now : Z) (e : WatchEvent) : option Channel :=
  if (length (sent c) - received c <? EVENT_QUEUE)%nat
  then Some {| sent := sent c ++ [(now, e)]; received := received c |}
  else None.

Definition flush_one (now : Z) (dc : Debouncer * Channel) (due : string * Pending) : Debouncer * Channel :=
  let '(d, c) := dc in
  let '(id, p) := due in
  match try_send c now (event p id) with
  | Some c => ({| pending := pending d; reported := <[id := now]> (reported d) |}, c)
  | None =>
    ({| pending := <[id := {| first := now; last := now; p_reason := p_reason p; p_rescan := p_rescan p;
                              p_scripts := p_scripts p; p_proven := p_proven p |}]> (pending d);
        reported := reported d |}, c)
  end.

(** [Hub::flush], at one reading of the clock. *)
Definition flush (d : Debouncer) (c : Channel) (timings : Timings) (now : Z) : Debouncer * Channel :=
  let '(due, d) := take_due d now timings in foldl (flush_one now) (d, c) due.

(** What a new list of wallets keeps of the bursts. *)
Definition keep_wallets (d : Debouncer) (kept : gset string) : Debouncer :=
  {| pending := filter (fun w => w.1 ∈ kept) (pending d); reported := filter (fun w => w.1 ∈ kept) (reported d) |}.
End Bursts.
Arguments Headers : clear implicits.
Arguments Proven : clear implicits.
Arguments WatchEvent : clear implicits.
Arguments Pending : clear implicits.
Arguments Debouncer : clear implicits.
Arguments Channel : clear implicits.

(** ** Backoff *)

(** [rand::random::<f64>()]: [draw] of 2^53 parts. *)
Definition parts : Z := 9007199254740992.
Definition drawn (draw : Z) : Prop := 0 <= draw < parts.

(** [d.mul_f64(from + span * draw)], both in parts of [unit], to the
    nanosecond below. *)
Definition scaled (unit d from span draw : Z) : Z := d * (from * parts + span * draw) / (unit * parts).

Lemma scaled_bounds unit d from span draw : 0 < unit -> 0 <= d -> 0 <= span -> drawn draw ->
  unit * scaled unit d from span draw <= d * (from + span) /\ d * from < unit * (scaled unit d from span draw + 1).
Proof.
  unfold drawn, scaled, parts. intros Hu Hd Hs Hdr. set (K := 9007199254740992) in *.
  pose proof (Z.div_mod (d * (from * K + span * draw)) (unit * K) ltac:(lia)) as Hdm.
  pose proof (Z.mod_pos_bound (d * (from * K + span * draw)) (unit * K) ltac:(lia)) as Hm.
  set (q := _ / _) in *. assert (0 <= d * span * draw <= d * span * K) by nia.
  assert (0 < K) by (unfold K; lia). clearbody K. split; nia.
Qed.

(** [Timings::keepalive_wait]. *)
Definition keepalive_wait (timings : Timings) (draw : Z) : Z := scaled 10 (keepalive timings) 7 3 draw.

Module Backoff.
Definition delay (next : Z) (timings : Timings) (draw : Z) : Z * Z :=
  let base := Z.max next (backoff_first timings) in
  (scaled 10 base 5 5 draw, Z.min (base * 2) (backoff_cap timings)).

(** The waits of attempts that fail one after the other. *)
Fixpoint delays (next : Z) (timings : Timings) (draws : list Z) : list Z :=
  match draws with
  | [] => []
  | draw :: draws => let '(wait, next) := delay next timings draw in wait :: delays next timings draws
  end.
End Backoff.

(** ** Runs

    What a watch does to its bursts, one step at a time: a mark, a new
    list, the passing of time, a flush, another event sent, an event
    received. The watch sleeps until the next deadline: time passes it by
    [late] at most, what the watch does meanwhile and the timers' own
    slack. *)
Section Runs.
Context {Header Endpoint : Type} (timings : Timings) (late : Z).
Abbreviation Pending := (Pending Header Endpoint).
Abbreviation Proven := (Proven Header Endpoint).
Abbreviation WatchEvent := (WatchEvent Header Endpoint).
Abbreviation Debouncer := (Debouncer Header Endpoint).
Abbreviation Channel := (Channel Header Endpoint).
Implicit Types (id : string) (d : Debouncer) (c : Channel) (p : Pending) (e : WatchEvent).

Inductive Mark :=
| Moved (reason : ChangeReason) (rescan : bool) (script : option string)
| ProvenOn (proven : Proven).

Definition marked d id (m : Mark) (now : Z) : Debouncer :=
  match m with
  | Moved reason rescan script => mark d id reason rescan script now
  | ProvenOn proven => mark_proven d id proven now
  end.

Record State := { now : Z; bursts : Debouncer; queue : Channel }.

Definition start (now : Z) : State := {| now := now; bursts := no_bursts; queue := {| sent := []; received := 0 |} |}.

(** The wallet an event reports. *)
Definition about e : option string :=
  match e with WalletChanged id _ _ _ | Confirmed id _ _ => Some id | NewBlock _ | Status _ => None end.

Inductive Label :=
| LMark id (m : Mark)
| LKeep (kept : gset string)
| LWait (until : Z)
| LFlush (whole : bool)
| LSend e
| LReceive.

Inductive step : State -> Label -> State -> Prop :=
| step_mark s id m :
    step s (LMark id m) {| now := now s; bursts := marked (bursts s) id m (now s); queue := queue s |}
| step_keep s kept :
    step s (LKeep kept) {| now := now s; bursts := keep_wallets (bursts s) kept; queue := queue s |}
| step_wait s until : now s <= until ->
    (forall deadline, next_deadline (bursts s) timings = Some deadline -> until <= Z.max (now s) (deadline + late)) ->
    step s (LWait until) {| now := until; bursts := bursts s; queue := queue s |}
| step_flush s d c : flush (bursts s) (queue s) timings (now s) = (d, c) ->
    step s (LFlush (length (sent c) =? length (sent (queue s)) + length (due_now (bursts s) (now s) timings))%nat)
      {| now := now s; bursts := d; queue := c |}
| step_send s e : about e = None ->
    step s (LSend e) {| now := now s; bursts := bursts s; queue := unwrap_or (try_send (queue s) (now s) e) (queue s) |}
| step_receive s : (received (queue s) < length (sent (queue s)))%nat ->
    step s LReceive {| now := now s; bursts := bursts s;
                       queue := {| sent := sent (queue s); received := S (received (queue s)) |} |}.

Inductive run : State -> list Label -> State -> Prop :=
| run_nil s : run s [] s
| run_cons s l s' tr s'' : step s l s' -> run s' tr s'' -> run s (l :: tr) s''.

Lemma foldl_min_le (l : list Z) x y : In y (x :: l) -> foldl Z.min x l <= y.
Proof.
  revert x y. induction l as [|z l IH]; intros x y; simpl; [intros [->|[]]; lia|]. intros Hy.
  assert (Hm : foldl Z.min (Z.min x z) l <= Z.min x z) by (apply IH; by left).
  destruct Hy as [->|[->|Hy]]; [lia|lia|]. apply IH. by right.
Qed.

Lemma foldl_min_In (l : list Z) x : In (foldl Z.min x l) (x :: l).
Proof.
  revert x. induction l as [|z l IH]; intros x; simpl; [by left|]. destruct (IH (Z.min x z)) as [E|Hin]; [|auto].
  rewrite <- E. destruct (Z.min_spec x z) as [[_ ->]|[_ ->]]; auto.
Qed.

Lemma least_le l m x : least l = Some m -> In x l -> m <= x.
Proof. destruct l as [|y l]; [done|]. intros [= <-]. apply foldl_min_le. Qed.

Lemma least_In l m : least l = Some m -> In m l.
Proof. destruct l as [|y l]; [done|]. intros [= <-]. apply foldl_min_In. Qed.

Lemma next_deadline_le d id p deadline : next_deadline d timings = Some deadline ->
  pending d !! id = Some p -> deadline <= due_at d id p timings.
Proof.
  intros Hd Hp. eapply least_le; [exact Hd|]. apply in_map_iff. exists (id, p). split; [done|]. by apply entries_in_order_In.
Qed.

Lemma next_deadline_of d deadline : next_deadline d timings = Some deadline ->
  exists id p, pending d !! id = Some p /\ due_at d id p timings = deadline.
Proof.
  intros Hd. apply least_In, in_map_iff in Hd as ([id p] & <- & Hp). exists id, p. split; [|done]. by apply entries_in_order_In.
Qed.

Lemma due_now_In d id p (t : Z) : In (id, p) (due_now d t timings) <-> pending d !! id = Some p /\ due_at d id p timings <= t.
Proof. unfold due_now. rewrite retain_In, entries_in_order_In, Z.leb_le. done. Qed.

Lemma due_now_NoDup d (t : Z) : NoDup (List.map fst (due_now d t timings)).
Proof. eapply sublist_NoDup; [apply (entries_in_order_NoDup (pending d))|apply map_sublist, retain_sublist]. Qed.

(** ** A flush *)

Definition refused (t : Z) p : Pending :=
  {| first := t; last := t; p_reason := p_reason p; p_rescan := p_rescan p; p_scripts := p_scripts p; p_proven := p_proven p |}.

Lemma flush_one_other (t : Z) (dc : Debouncer * Channel) id p id' : id' <> id ->
  pending (flush_one t dc (id, p)).1 !! id' = pending dc.1 !! id' /\ reported (flush_one t dc (id, p)).1 !! id' = reported dc.1 !! id'.
Proof.
  intros Hne. destruct dc as [d c]. simpl. destruct (try_send _ _ _) as [c'|]; simpl; by rewrite ?lookup_insert_ne by done.
Qed.

Lemma flush_fold_other (t : Z) due (dc : Debouncer * Channel) id : id ∉ List.map fst due ->
  pending (foldl (flush_one t) dc due).1 !! id = pending dc.1 !! id
  /\ reported (foldl (flush_one t) dc due).1 !! id = reported dc.1 !! id.
Proof.
  revert dc. induction due as [|[id' p] due IH]; intros dc Hn; simpl; [done|]. apply not_elem_of_cons in Hn as [Hne Hn].
  destruct (IH (flush_one t dc (id', p)) Hn) as [-> ->]. by apply flush_one_other.
Qed.

Definition report (t : Z) (due : string * Pending) : Z * WatchEvent := (t, event due.2 due.1).

(** A flush sends the reports of some of the wallets that are due, in
    their order; the others stay marked. *)
Lemma flush_fold (t : Z) due (dc : Debouncer * Channel) : NoDup (List.map fst due) ->
  let dc' := foldl (flush_one t) dc due in
  exists out, out `sublist_of` due /\ sent dc'.2 = sent dc.2 ++ List.map (report t) out /\ received dc'.2 = received dc.2
    /\ (forall id p, In (id, p) out -> pending dc'.1 !! id = pending dc.1 !! id /\ reported dc'.1 !! id = Some t)
    /\ (forall id p, In (id, p) due -> ~ In (id, p) out ->
         pending dc'.1 !! id = Some (refused t p) /\ reported dc'.1 !! id = reported dc.1 !! id).
Proof.
  revert dc. induction due as [|[id p] due IH]; intros dc Hnd; cbn zeta.
  { exists []. simpl. rewrite app_nil_r. split; [done|]. split; [done|]. split; [done|]. by split. }
  cbn [List.map] in Hnd. apply list.NoDup_cons in Hnd as [Hid Hnd]. cbn [foldl]. destruct (IH (flush_one t dc (id, p)) Hnd) as (out & Hsub & Hs & Hr & Hin & Hout).
  set (dc' := foldl (flush_one t) (flush_one t dc (id, p)) due) in *.
  destruct (flush_fold_other t due (flush_one t dc (id, p)) id Hid) as [Hp' Hr']. fold dc' in Hp', Hr'.
  assert (Hother : forall id' p', In (id', p') due -> id' <> id).
  { intros id' p' Hx ->. apply Hid, list_elem_of_In. by apply (in_map fst _ _ Hx). }
  assert (Hno : forall p', ~ In (id, p') out).
  { intros p' Hx. apply (Hother id p'); [|done]. apply list_elem_of_In. eapply sublist_subseteq; [exact Hsub|]. by apply list_elem_of_In. }
  destruct dc as [d c]. unfold flush_one in Hs, Hr, Hp', Hr'. destruct (try_send c t (event p id)) as [c'|] eqn:Ec.
  - unfold try_send in Ec. destruct (_ <? _)%nat; [|done]. injection Ec as <-. cbn [fst snd sent received pending reported] in *.
    exists ((id, p) :: out). split; [by constructor|]. split; [rewrite Hs, <- app_assoc; done|]. split; [done|]. split.
    + intros id' p' [[= <- <-]|Hx]; [rewrite Hr', lookup_insert_eq; done|]. destruct (Hin _ _ Hx) as [-> ->].
      split; [|done]. apply (flush_one_other t (d, c) id p). intros ->. by destruct (Hno p').
    + intros id' p' [[= <- <-]|Hx] Hn; [by destruct Hn; left|].
      destruct (Hout id' p' Hx) as [-> ->]; [by intros Hx'; apply Hn; right|]. split; [done|].
      apply (flush_one_other t (d, c) id p). by eapply Hother.
  - cbn [fst snd sent received pending reported] in *. exists out. split; [by constructor|]. split; [done|]. split; [done|]. split.
    + intros id' p' Hx. destruct (Hin _ _ Hx) as [-> ->]. split; [|done].
      apply (flush_one_other t (d, c) id p). intros ->. by destruct (Hno p').
    + intros id' p' [[= <- <-]|Hx] Hn; [rewrite Hp', lookup_insert_eq; done|].
      destruct (Hout id' p' Hx) as [-> ->]; [done|]. split; [done|]. apply (flush_one_other t (d, c) id p). by eapply Hother.
Qed.

Lemma deleted_due (due : list (string * Pending)) (m : gmap string Pending) id :
  foldl (fun m '(id, _) => delete id m) m due !! id = if decide (id ∈ List.map fst due) then None else m !! id.
Proof.
  revert m. induction due as [|[id' p] due IH]; intros m; simpl; [done|]. rewrite IH.
  destruct (decide (id ∈ List.map fst due)) as [Hin|Hin].
  - rewrite decide_True; [done|]. by right.
  - destruct (decide (id = id')) as [->|Hne]; [rewrite decide_True by left; apply lookup_delete_eq|].
    rewrite lookup_delete_ne by done. rewrite decide_False; [done|]. by apply not_elem_of_cons.
Qed.

Lemma flush_right d c t : let due := due_now d t timings in
  exists out, out `sublist_of` due /\ sent (flush d c timings t).2 = sent c ++ List.map (report t) out
    /\ received (flush d c timings t).2 = received c
    /\ (forall id p, In (id, p) out -> pending (flush d c timings t).1 !! id = None /\ reported (flush d c timings t).1 !! id = Some t)
    /\ (forall id p, In (id, p) due -> ~ In (id, p) out ->
         pending (flush d c timings t).1 !! id = Some (refused t p) /\ reported (flush d c timings t).1 !! id = reported d !! id)
    /\ (forall id, (forall p, ~ In (id, p) due) ->
         pending (flush d c timings t).1 !! id = pending d !! id /\ reported (flush d c timings t).1 !! id = reported d !! id).
Proof.
  intros due. pose proof (due_now_NoDup d t) as Hnd. fold due in Hnd. unfold flush, take_due. fold due. cbn zeta.
  set (d0 := {| pending := _; reported := reported d |}).
  destruct (flush_fold t due (d0, c) Hnd) as (out & Hsub & Hs & Hr & Hin & Hout). exists out. cbn [fst snd] in *.
  do 3 (split; [done|]). split; [|split].
  - intros id p Hx. destruct (Hin _ _ Hx) as [Hp ?]. split; [|done]. etrans; [exact Hp|]. unfold d0. cbn [pending]. rewrite deleted_due, decide_True; [done|].
    apply list_elem_of_In, in_map_iff. exists (id, p). split; [done|]. apply list_elem_of_In. eapply sublist_subseteq; [exact Hsub|]. by apply list_elem_of_In.
  - intros id p Hx Hn. by apply Hout.
  - intros id Hn. assert (Hid : id ∉ List.map fst due).
    { intros Hx. apply list_elem_of_In, in_map_iff in Hx as ([id' p] & E & Hx). simpl in E. subst id'. by apply (Hn p). }
    destruct (flush_fold_other t due (d0, c) id Hid) as [Hp ?]. split; [|done]. etrans; [exact Hp|]. unfold d0. cbn [fst pending].
    by rewrite deleted_due, decide_False.
Qed.

(** ** What holds in every run *)

Record brisk : Prop := { quiet_pos : 0 < quiet timings; burst_pos : 0 < burst timings; gap_pos : 0 <= gap timings }.

(** No wallet stays marked past its deadline by more than [late]. *)
Record timely (s : State) : Prop := {
  in_order_past : forall id p, pending (bursts s) !! id = Some p ->
    first p <= now s /\ last p <= now s /\ now s <= due_at (bursts s) id p timings + late;
  reported_past : forall id r, reported (bursts s) !! id = Some r -> r <= now s;
}.

Lemma due_at_settled d id p t : t <= last p + quiet timings -> t <= first p + burst timings -> t <= due_at d id p timings.
Proof. unfold due_at. destruct (reported d !! id); lia. Qed.

Lemma due_at_reported d d' id p : reported d' !! id = reported d !! id -> due_at d' id p timings = due_at d id p timings.
Proof. unfold due_at. by intros ->. Qed.

(** A mark leaves the other wallets, and this one with its burst. *)
Lemma marked_other d id m t id' : id' <> id -> pending (marked d id m t) !! id' = pending d !! id'.
Proof. intros Hne. destruct m; simpl; by rewrite lookup_insert_ne. Qed.

Lemma marked_reported d id m t : reported (marked d id m t) = reported d.
Proof. by destruct m. Qed.

Lemma marked_self d id m t : exists p, pending (marked d id m t) !! id = Some p /\ last p = t
  /\ first p = match pending d !! id with Some p0 => first p0 | None => t end.
Proof.
  destruct m; simpl; rewrite lookup_insert_eq; destruct (pending d !! id) as [p0|]; by eexists.
Qed.

Lemma next_deadline_some d id p : pending d !! id = Some p -> exists deadline, next_deadline d timings = Some deadline.
Proof.
  intros Hp. apply entries_in_order_In in Hp. unfold next_deadline. destruct (entries_in_order (pending d)) as [|[id' p'] l]; [done|].
  simpl. eauto.
Qed.

Lemma keep_lookup {A} (m : gmap string A) (kept : gset string) id x :
  filter (fun w : string * A => w.1 ∈ kept) m !! id = Some x <-> m !! id = Some x /\ id ∈ kept.
Proof. by rewrite map_lookup_filter_Some. Qed.

Lemma keep_none (d : Debouncer) : keep_wallets d ∅ = {| pending := ∅; reported := ∅ |}.
Proof.
  unfold keep_wallets. f_equal; apply map_eq; intros id; rewrite lookup_empty;
    (match goal with |- ?x = None => destruct x eqn:E end; [|done]); apply keep_lookup in E as [_ Hin]; set_solver.
Qed.

Lemma out_due (due out : list (string * Pending)) x : out `sublist_of` due -> In x out -> In x due.
Proof. intros Hs Hx. apply list_elem_of_In. eapply sublist_subseteq; [exact Hs|]. by apply list_elem_of_In. Qed.

(** What a flush makes of one wallet. *)
Lemma flush_cases d c t id : let '(d', c') := flush d c timings t in
  (exists p, pending d !! id = Some p /\ due_at d id p timings <= t
    /\ ((pending d' !! id = None /\ reported d' !! id = Some t /\ In (t, event p id) (sent c'))
        \/ (pending d' !! id = Some (refused t p) /\ reported d' !! id = reported d !! id)))
  \/ ((forall p, pending d !! id = Some p -> t < due_at d id p timings)
      /\ pending d' !! id = pending d !! id /\ reported d' !! id = reported d !! id).
Proof.
  pose proof (flush_right d c t) as Hf. cbn zeta in Hf. destruct (flush d c timings t) as [d' c']. cbn [fst snd] in Hf.
  destruct Hf as (out & Hsub & Hs & _ & Hin & Hout & Hother).
  destruct (pending d !! id) as [p|] eqn:Ep.
  - destruct (decide (due_at d id p timings <= t)) as [Hd|Hd].
    + left. exists p. split; [done|]. split; [done|]. assert (Hdue : In (id, p) (due_now d t timings)) by by apply due_now_In.
      destruct (decide (id ∈ List.map fst out)) as [Ho|Ho].
      * left. apply list_elem_of_In, in_map_iff in Ho as ([id' p'] & E & Ho). simpl in E. subst id'.
        pose proof (out_due _ _ _ Hsub Ho) as Hp'. apply due_now_In in Hp' as [Hp' _]. rewrite Ep in Hp'. injection Hp' as <-.
        destruct (Hin _ _ Ho) as [-> ->]. do 2 (split; [done|]). rewrite Hs. apply in_app_iff. right.
        apply in_map_iff. by exists (id, p).
      * right. apply Hout; [done|]. intros Hx. apply Ho, list_elem_of_In, in_map_iff. by exists (id, p).
    + right. split; [intros p' [= <-]; lia|]. rewrite <- Ep. apply Hother. intros p' Hx. apply due_now_In in Hx as [Hx ?]. naive_solver.
  - right. split; [done|]. rewrite <- Ep. apply Hother. intros p' Hx. apply due_now_In in Hx as [Hx ?]. naive_solver.
Qed.

(** ** What a report says *)

(** A wallet still marked holds the mark. *)
Definition holds (m : Mark) p : Prop :=
  match m with
  | Moved reason rescan script =>
    ChangeReason.rank reason <= ChangeReason.rank (p_reason p) /\ (rescan = true -> p_rescan p = true)
    /\ match p_scripts p, script with
       | None, _ => True
       | Some scripts, Some script => script ∈ scripts
       | Some _, None => False
       end
  | ProvenOn proven => In proven (p_proven p)
  end.

(** An event says the mark: a sync of the whole wallet, or of a list
    with the script, for a reason no lesser and with its rescan; or the
    confirmations proven, for those. *)
Definition says (id : string) (m : Mark) e : Prop :=
  match e, m with
  | WalletChanged id' reason' rescan' scripts, Moved reason rescan script =>
    id' = id /\ ChangeReason.rank reason <= ChangeReason.rank reason' /\ (rescan = true -> rescan' = true)
    /\ (scripts = [] \/ exists x, script = Some x /\ In x scripts)
  | WalletChanged id' _ _ scripts, ProvenOn proven => id' = id /\ (scripts = [] \/ In (pv_script proven) scripts)
  | Confirmed id' scripts proven', ProvenOn proven => id' = id /\ In proven proven' /\ In (pv_script proven) scripts
  | _, _ => False
  end.

Lemma event_says id m p : holds m p -> says id m (event p id).
Proof.
  intros Hm. unfold event. set (proven_scripts := list_to_set _).
  assert (Hpv : forall proven, In proven (p_proven p) -> pv_script proven ∈ proven_scripts).
  { intros proven Hx. unfold proven_scripts. apply elem_of_list_to_set, list_elem_of_In. by apply in_map. }
  destruct (p_scripts p) as [scripts|] eqn:Es.
  - case_bool_decide as He; [destruct (p_proven p) as [|pv l] eqn:Ep|]; cbn [andb].
    + destruct m as [r rs [x|]|pv]; simpl in Hm; rewrite ?Es, ?Ep in Hm; [destruct Hm as (_ & _ & Hx); by rewrite He in Hx|by destruct Hm as (_ & _ & [])|done].
    + destruct m as [r rs [x|]|pv']; simpl in Hm; rewrite ?Es, ?Ep in Hm;
        [destruct Hm as (_ & _ & Hx); by rewrite He in Hx|by destruct Hm as (_ & _ & [])|].
      split; [done|]. split; [done|]. by apply in_order_In, Hpv.
    + destruct m as [r rs [x|]|pv]; simpl in Hm; rewrite ?Es in Hm.
      * destruct Hm as (? & ? & Hx). do 3 (split; [done|]). right. exists x. split; [done|]. apply in_order_In. set_solver.
      * by destruct Hm as (_ & _ & []).
      * split; [done|]. right. apply in_order_In. apply Hpv in Hm. set_solver.
  - cbn [andb]. destruct m as [r rs x|pv]; simpl in Hm; [|by split; [|left]]. destruct Hm as (? & ? & _).
    do 3 (split; [done|]). by left.
Qed.

Lemma marked_holds d id m t : exists p, pending (marked d id m t) !! id = Some p /\ holds m p.
Proof.
  destruct m as [r rs x|pv]; simpl; rewrite lookup_insert_eq; destruct (pending d !! id) as [p|]; eexists; (split; [done|]); simpl.
  - split; [apply ChangeReason.max_r|]. split; [intros ->; apply orb_true_r|]. destruct (p_scripts p), x; set_solver.
  - split; [done|]. split; [done|]. destruct x; set_solver.
  - apply in_app_iff. right. by left.
  - by left.
Qed.

(** A later mark keeps the earlier ones. *)
Lemma marked_keeps d id m t p m0 : pending d !! id = Some p -> holds m0 p ->
  exists p', pending (marked d id m t) !! id = Some p' /\ holds m0 p' /\ first p' = first p.
Proof.
  intros Hp Hm. destruct m as [r rs x|pv]; simpl; rewrite lookup_insert_eq, Hp; (eexists; split; [done|]); (split; [|done]);
    destruct m0 as [r0 rs0 x0|pv0]; simpl in *; try done.
  - destruct Hm as (Hr & Hrs & Hx). pose proof (ChangeReason.max_l (p_reason p) r). split; [lia|].
    split; [intros Hy; by rewrite (Hrs Hy)|]. destruct (p_scripts p), x, x0; set_solver.
  - destruct Hm as (Hr & Hrs & Hx). pose proof (ChangeReason.max_l (p_reason p) ChangeReason.Activity). split; [lia|]. by split.
  - apply in_app_iff. by left.
Qed.

(** ** No mark is lost *)

(** The wallet stays in the list. *)
Definition keeps id (l : Label) : Prop := match l with LKeep kept => id ∈ kept | _ => True end.
Definition whole (l : Label) : Prop := match l with LFlush whole => whole = true | _ => True end.

(** Where a mark of [id] made at [t0] stands: said, within [bound] of
    it, or held still, in a burst opened by then. *)
Definition said (bound : Z) id m (t0 : Z) (s : State) : Prop :=
  exists t e, In (t, e) (sent (queue s)) /\ t0 <= t <= t0 + bound /\ says id m e.
Definition waits id m (s : State) : Prop := exists p, pending (bursts s) !! id = Some p /\ holds m p.
Definition waits_since id m (t0 : Z) (s : State) : Prop :=
  (exists p, pending (bursts s) !! id = Some p /\ holds m p /\ first p <= t0)
  /\ (forall r, reported (bursts s) !! id = Some r -> r <= t0).

Lemma sent_grows s l s' x : step s l s' -> In x (sent (queue s)) -> In x (sent (queue s')).
Proof.
  intros Hs Hx. destruct Hs as [| | |s d c Hf|s e He|]; try done; cbn [queue].
  - pose proof (flush_right (bursts s) (queue s) (now s)) as Hr. cbn zeta in Hr. rewrite Hf in Hr.
    destruct Hr as (out & _ & Hs & _). cbn [snd] in Hs. rewrite Hs. apply in_app_iff. by left.
  - unfold try_send. destruct (_ <? _)%nat; simpl; [apply in_app_iff; by left|done].
Qed.

(** A flush whole sends all that is due. *)
Lemma flush_whole s d c id p : flush (bursts s) (queue s) timings (now s) = (d, c) ->
  length (sent c) = (length (sent (queue s)) + length (due_now (bursts s) (now s) timings))%nat ->
  pending (bursts s) !! id = Some p -> due_at (bursts s) id p timings <= now s -> pending d !! id = None.
Proof.
  intros Hf Hl Hp Hd. pose proof (flush_right (bursts s) (queue s) (now s)) as Hr. cbn zeta in Hr. rewrite Hf in Hr.
  cbn [fst snd] in Hr. destruct Hr as (out & Hsub & Hs & _ & Hin & _). rewrite Hs, length_app, List.length_map in Hl.
  assert (E : out ≡ₚ due_now (bursts s) (now s) timings).
  { apply submseteq_length_Permutation; [by apply sublist_submseteq|lia]. }
  apply (Hin id p). apply list_elem_of_In. rewrite E. apply list_elem_of_In. by apply due_now_In.
Qed.

(** One step of one wallet that stays in the list: its mark is held
    still, in the same burst or one reopened by a refusal, or its report
    is sent. *)
Lemma step_held s l s' id m p : step s l s' -> keeps id l -> pending (bursts s) !! id = Some p -> holds m p ->
  (exists p', pending (bursts s') !! id = Some p' /\ holds m p'
    /\ (whole l -> first p' = first p /\ reported (bursts s') !! id = reported (bursts s) !! id))
  \/ (due_at (bursts s) id p timings <= now s /\ In (now s, event p id) (sent (queue s'))).
Proof.
  intros Hs Hk Hp Hm. destruct Hs as [s id' m'|s kept|s t Ht Hd|s d c Hf|s e He|s Hq]; cbn [bursts queue]; try by (left; exists p).
  - left. destruct (decide (id = id')) as [<-|Hne].
    + destruct (marked_keeps _ id m' (now s) _ _ Hp Hm) as (p' & ? & ? & ?). exists p'. rewrite marked_reported. auto.
    + exists p. rewrite marked_other, marked_reported by done. auto.
  - left. exists p. split; [by apply keep_lookup|]. split; [done|]. intros _. split; [done|]. simpl in Hk.
    unfold keep_wallets. cbn [reported]. apply option_eq. intros r. rewrite keep_lookup. naive_solver.
  - pose proof (flush_cases (bursts s) (queue s) (now s) id) as Hc. rewrite Hf in Hc.
    destruct Hc as [(p0 & Hp0 & Hdue & [(_ & _ & Hin)|[E Er]])|(_ & E & Er)].
    + right. rewrite Hp in Hp0. injection Hp0 as <-. auto.
    + left. rewrite Hp in Hp0. injection Hp0 as <-. exists (refused (now s) p). split; [done|]. split; [by destruct m|].
      simpl. intros Hw. apply Nat.eqb_eq in Hw. rewrite (flush_whole _ _ _ _ _ Hf Hw Hp Hdue) in E. done.
    + left. exists p. rewrite E, Er. auto.
Qed.

Lemma step_now s l s' : step s l s' -> now s <= now s'.
Proof. by destruct 1. Qed.

(** C16: no mark of a wallet that stays in the list is lost, whatever the
    marks that follow, however full the queue and however late the
    flushes: from then on, either the wallet is marked still and holds
    it, or an event that says it was sent since. *)
Theorem no_mark_is_lost s id m tr s' : run s (LMark id m :: tr) s' -> (forall l, In l tr -> keeps id l) ->
  waits id m s' \/ exists t e, In (t, e) (sent (queue s')) /\ now s <= t /\ says id m e.
Proof.
  intros Hrun Hk. inversion_clear Hrun as [|? ? s1 ? ? Hmark Htr]. inversion Hmark; subst; clear Hmark.
  assert (Hw : waits id m {| now := now s; bursts := marked (bursts s) id m (now s); queue := queue s |}).
  { apply marked_holds. }
  set (s1 := {| now := now s |}) in *. assert (Hn : now s <= now s1) by done. clearbody s1. revert Hw Hn.
  generalize (now s). intros t0.
  enough (Hgen : forall t0, (waits id m s1 \/ exists t e, In (t, e) (sent (queue s1)) /\ t0 <= t /\ says id m e) -> t0 <= now s1 ->
    waits id m s' \/ exists t e, In (t, e) (sent (queue s')) /\ t0 <= t /\ says id m e) by eauto.
  clear t0. induction Htr as [s1|s1 l s2 tr s' Hl Htr IH]; intros t0 Hw Hn; [done|]. apply IH; [intros; apply Hk; by right| |].
  - destruct Hw as [(p & Hp & Hm)|(t & e & Hin & Ht & Hs)].
    + destruct (step_held _ _ _ _ _ _ Hl (Hk l (or_introl eq_refl)) Hp Hm) as [(p' & ? & ? & _)|[_ Hin]]; [left; by exists p'|].
      right. exists (now s1), (event p id). split; [done|]. split; [done|]. by apply event_says.
    + right. exists t, e. split; [by eapply sent_grows|done].
  - pose proof (step_now _ _ _ Hl). lia.
Qed.

Hypothesis (Hbrisk : brisk).
Hypothesis (Hlate : 0 <= late).

Lemma start_timely t : timely (start t).
Proof. split; simpl; intros id x; by rewrite lookup_empty. Qed.

Lemma step_timely s l s' : timely s -> step s l s' -> timely s'.
Proof.
  intros [Hp Hr] Hs. destruct Hs as [s id m|s kept|s t Ht Hd|s d c Hf|s e He|s Hq]; split; cbn [now bursts]; try done.
  - intros id' p. destruct (marked_self (bursts s) id m (now s)) as (p1 & Hp1 & Hl1 & Hf1). destruct (decide (id' = id)) as [->|Hne].
    + rewrite Hp1. intros [= <-]. rewrite Hl1, Hf1. destruct Hbrisk as [Hq Hb _].
      destruct (pending (bursts s) !! id) as [p0|] eqn:Ep.
      * destruct (Hp id p0 Ep) as (? & ? & Hd). split; [lia|]. split; [lia|]. revert Hd. unfold due_at.
        rewrite marked_reported, Hl1, Hf1. destruct (reported (bursts s) !! id); lia.
      * split; [lia|]. split; [lia|]. etrans; [apply (due_at_settled (marked (bursts s) id m (now s)) id p1); rewrite ?Hl1, ?Hf1; lia|lia].
    + rewrite marked_other by done. intros Hx. destruct (Hp id' p Hx) as (? & ? & ?). split; [done|]. split; [done|].
      by rewrite (due_at_reported (bursts s)) by by rewrite marked_reported.
  - intros id' r. rewrite marked_reported. apply Hr.
  - intros id p [Hx Hk]%keep_lookup. destruct (Hp id p Hx) as (? & ? & Hd). split; [done|]. split; [done|].
    revert Hd. unfold due_at, keep_wallets. cbn [reported].
    destruct (filter _ (reported (bursts s)) !! id) as [r|] eqn:Er.
    + apply keep_lookup in Er as [-> _]. done.
    + destruct (reported (bursts s) !! id) as [r|] eqn:Er'; [|done].
      assert (filter (fun w : string * Z => w.1 ∈ kept) (reported (bursts s)) !! id = Some r) by by apply keep_lookup. congruence.
  - intros id r [Hx _]%keep_lookup. by eapply Hr.
  - intros id p Hx. destruct (Hp id p Hx) as (? & ? & ?). destruct (next_deadline_some _ _ _ Hx) as [deadline Hdl].
    specialize (Hd _ Hdl). pose proof (next_deadline_le _ _ _ _ Hdl Hx). lia.
  - intros id r Hx. specialize (Hr id r Hx). lia.
  - intros id p Hx. pose proof (flush_cases (bursts s) (queue s) (now s) id) as Hc. rewrite Hf in Hc.
    destruct Hc as [(p0 & Hp0 & Hd & [(E & _)|[E Er]])|(Hd & E & Er)]; rewrite E in Hx; [done| |].
    + injection Hx as <-. unfold refused. cbn [first last]. split; [done|]. split; [done|]. destruct Hbrisk.
      etrans; [apply (due_at_settled d id (refused (now s) p0)); simpl; lia|]. unfold refused. lia.
    + destruct (Hp id p Hx) as (? & ? & ?). split; [done|]. split; [done|]. by rewrite (due_at_reported (bursts s)).
  - intros id r Hx. pose proof (flush_cases (bursts s) (queue s) (now s) id) as Hc. rewrite Hf in Hc.
    destruct Hc as [(p0 & Hp0 & Hd & [(_ & E & _)|[_ E]])|(_ & _ & E)]; rewrite E in Hx; [by injection Hx as <-|by eapply Hr..].
Qed.

Lemma run_timely s tr s' : timely s -> run s tr s' -> timely s'.
Proof. intros Hs Hr. induction Hr as [|s l s1 tr s' Hl _ IH]; [done|]. apply IH. by eapply step_timely. Qed.

(** C17: a mark of a wallet that stays in the list is said in time: in a
    run where the queue has room at each flush, once the longest burst
    or the gap has passed, and what the watch is late by, an event that
    says it was sent, within that time of the mark. *)
Theorem marks_said_in_time t_start tr0 s id m tr s' : run (start t_start) tr0 s -> run s (LMark id m :: tr) s' ->
  (forall l, In l tr -> keeps id l /\ whole l) ->
  now s + Z.max (burst timings) (gap timings) + late < now s' ->
  exists t e, In (t, e) (sent (queue s')) /\ now s <= t <= now s + Z.max (burst timings) (gap timings) + late /\ says id m e.
Proof.
  intros Hrun0 Hrun Hk. pose proof (run_timely _ _ _ (start_timely t_start) Hrun0) as Htime.
  inversion_clear Hrun as [|? ? s1 ? ? Hmark Htr]. pose proof (step_timely _ _ _ Htime Hmark) as Htime1.
  inversion Hmark; subst; clear Hmark. set (t0 := now s) in *. set (bound := Z.max (burst timings) (gap timings) + late).
  replace (t0 + _ + late) with (t0 + bound) by (unfold bound; lia). revert Htime1 Htr.
  set (s1 := {| now := t0 |}). intros Htime1 Htr.
  assert (Hw : waits_since id m t0 s1 \/ said bound id m t0 s1).
  { left. split.
    - destruct (marked_holds (bursts s) id m t0) as (p & Hp & Hm). exists p. split; [done|]. split; [done|].
      destruct (in_order_past _ Htime1 id p Hp). done.
    - apply (reported_past _ Htime1). }
  assert (Hn : t0 <= now s1) by done. clearbody s1. clear Htime Hrun0.
  induction Htr as [s1|s1 l s2 tr s' Hl Htr IH].
  - intros Hpast. destruct Hw as [[(p & Hp & Hm & Hf) Hr]|Hs]; [|done]. exfalso.
    destruct (in_order_past _ Htime1 id p Hp) as (_ & _ & Hdue). revert Hdue. unfold due_at, bound in *.
    destruct (reported (bursts s1) !! id) as [r|] eqn:Er; [specialize (Hr r eq_refl)|]; lia.
  - apply IH; [intros; apply Hk; by right|by eapply step_timely| |pose proof (step_now _ _ _ Hl); lia].
    destruct (Hk l (or_introl eq_refl)) as [Hkeep Hwhole].
    destruct Hw as [[(p & Hp & Hm & Hf) Hr]|(t & e & Hin & Ht & Hs)].
    + destruct (step_held _ _ _ _ _ _ Hl Hkeep Hp Hm) as [(p' & Hp' & Hm' & Hfirst)|[Hdue Hin]].
      * left. destruct (Hfirst Hwhole) as [Ef Er]. split; [exists p'; rewrite Ef; auto|]. by rewrite Er.
      * right. exists (now s1), (event p id). split; [done|]. split; [|by apply event_says].
        split; [done|]. destruct (in_order_past _ Htime1 id p Hp) as (_ & _ & Hd). revert Hd. unfold due_at, bound in *.
        destruct (reported (bursts s1) !! id) as [r|] eqn:Er; [specialize (Hr r eq_refl)|]; lia.
    + right. exists t, e. split; [by eapply sent_grows|done].
Qed.

(** ** Reports apart *)

Lemma about_event p id : about (event p id) = Some id.
Proof. unfold event. by destruct (_ && _). Qed.

Lemma StronglySorted_lookup {A} (R : A -> A -> Prop) l i j x y :
  StronglySorted R l -> l !! i = Some x -> l !! j = Some y -> (i < j)%nat -> R x y.
Proof.
  intros Hs. revert i j. induction Hs as [|z l _ IH Hz]; intros i j; [by rewrite lookup_nil|].
  destruct j as [|j]; [lia|]. destruct i as [|i]; simpl; intros Hx Hy Hlt; [|eapply IH; [done..|lia]].
  injection Hx as ->. rewrite List.Forall_forall in Hz. apply Hz. by eapply list_elem_of_In, list_elem_of_lookup_2.
Qed.

(** Two reports of [id], the second after the gap. *)
Definition apart id (x y : Z * WatchEvent) : Prop :=
  about x.2 = Some id -> about y.2 = Some id -> x.1 + gap timings <= y.1.

(** What was sent since [old]: its reports of [id] apart, the last one
    known. *)
Definition apart_since id (old : list (Z * WatchEvent)) (s : State) : Prop :=
  exists new, sent (queue s) = old ++ new /\ StronglySorted (apart id) new
    /\ forall x, In x new -> about x.2 = Some id -> exists r, reported (bursts s) !! id = Some r /\ x.1 <= r.

Lemma reports_once id t (out : list (string * Pending)) : NoDup (List.map fst out) -> StronglySorted (apart id) (List.map (report t) out).
Proof.
  induction out as [|[id' p] out IH]; simpl; intros Hnd; [constructor|]. apply list.NoDup_cons in Hnd as [Hn Hnd].
  constructor; [by apply IH|]. apply List.Forall_forall. intros y (x & <- & Hx)%in_map_iff. unfold apart, report. cbn [fst snd].
  rewrite !about_event. intros [= <-] [= E]. destruct Hn. apply list_elem_of_In. rewrite <- E. by apply in_map.
Qed.

Lemma flush_apart id old s d c : apart_since id old s -> flush (bursts s) (queue s) timings (now s) = (d, c) ->
  (forall r, reported (bursts s) !! id = Some r -> r <= now s) ->
  apart_since id old {| now := now s; bursts := d; queue := c |}.
Proof.
  intros (new & Hnew & Hsorted & Hlast) Hf Hpast. pose proof (flush_right (bursts s) (queue s) (now s)) as Hr. cbn zeta in Hr.
  rewrite Hf in Hr. cbn [fst snd] in Hr. destruct Hr as (out & Hsub & Hs & _ & Hin & Hout & Hother).
  exists (new ++ List.map (report (now s)) out). cbn [queue bursts]. split; [by rewrite Hs, Hnew, app_assoc|].
  assert (Hat : forall x, In x (List.map (report (now s)) out) -> about x.2 = Some id ->
    x.1 = now s /\ exists p, In (id, p) out).
  { intros x ([id' p] & <- & Hx)%in_map_iff. unfold report. cbn [fst snd]. rewrite about_event. intros [= ->]. eauto. }
  split.
  - apply sorting.StronglySorted_app_2; [|done|].
    + intros x y Hx Hy Hax Hay. apply list_elem_of_In in Hx, Hy. destruct (Hlast x Hx Hax) as (r & Hrep & Hle).
      destruct (Hat y Hy Hay) as (-> & p & Hp). apply (out_due _ _ _ Hsub), due_now_In in Hp as [_ Hdue].
      revert Hdue. unfold due_at. rewrite Hrep. lia.
    + apply reports_once. eapply sublist_NoDup; [apply (due_now_NoDup (bursts s) (now s))|by apply map_sublist].
  - intros x Hx Hax. apply in_app_iff in Hx as [Hx|Hx].
    + destruct (Hlast x Hx Hax) as (r & Hrep & Hle).
      pose proof (flush_cases (bursts s) (queue s) (now s) id) as Hc. rewrite Hf in Hc.
      destruct Hc as [(p & _ & _ & [(_ & -> & _)|[_ ->]])|(_ & _ & ->)]; [|by exists r..].
      exists (now s). split; [done|]. specialize (Hpast r Hrep). lia.
    + destruct (Hat x Hx Hax) as (-> & p & Hp). exists (now s). split; [|lia]. by apply (Hin id p).
Qed.

Lemma step_apart id old s l s' : apart_since id old s -> timely s -> keeps id l -> step s l s' -> apart_since id old s'.
Proof.
  intros Hap Htime Hk Hs. pose proof Hap as (new & Hnew & Hsorted & Hlast).
  destruct Hs as [s id' m'|s kept|s t Ht Hd|s d c Hf|s e He|s Hq].
  - exists new. cbn [queue bursts]. rewrite marked_reported. done.
  - exists new. cbn [queue bursts]. do 2 (split; [done|]). intros x Hx Hax. destruct (Hlast x Hx Hax) as (r & Hr & ?).
    exists r. split; [|done]. by apply keep_lookup.
  - by exists new.
  - eapply flush_apart; [done..|]. apply (reported_past _ Htime).
  - unfold try_send. destruct (_ <? _)%nat; simpl; [|done]. exists (new ++ [(now s, e)]). cbn [queue bursts sent].
    split; [by rewrite Hnew, app_assoc|]. split.
    + apply sorting.StronglySorted_app_2; [|done|by repeat constructor]. intros x y _ Hy _ Hay.
      apply list_elem_of_singleton in Hy as ->. simpl in Hay. congruence.
    + intros x Hx Hax. apply in_app_iff in Hx as [Hx|[<-|[]]]; [by apply Hlast|]. simpl in Hax. congruence.
  - by exists new.
Qed.

(** Two reports of a wallet that stays in the list never come closer
    than the gap, whatever happens between them. *)
Theorem reports_are_apart t_start tr0 s id tr s' i j t e t' e' : run (start t_start) tr0 s -> run s tr s' ->
  (forall l, In l tr -> keeps id l) -> (length (sent (queue s)) <= i < j)%nat ->
  sent (queue s') !! i = Some (t, e) -> sent (queue s') !! j = Some (t', e') ->
  about e = Some id -> about e' = Some id -> t + gap timings <= t'.
Proof.
  intros Hrun0 Hrun Hk Hij Hi Hj He He'. pose proof (run_timely _ _ _ (start_timely t_start) Hrun0) as Htime.
  assert (Hap : apart_since id (sent (queue s)) s).
  { exists []. rewrite app_nil_r. split; [done|]. split; [constructor|done]. }
  set (old := sent (queue s)) in *. clearbody old. clear Hrun0.
  induction Hrun as [s|s l s1 tr s' Hl Hrun IH].
  - destruct Hap as (new & Hs & Hsorted & _). rewrite Hs in Hi, Hj. rewrite lookup_app_r in Hi, Hj by lia.
    apply (StronglySorted_lookup _ _ _ _ _ _ Hsorted Hi Hj); [lia|done|done].
  - apply IH; try done; [intros; apply Hk; by right|by eapply step_timely|].
    eapply step_apart; [done..| |done]. apply Hk. by left.
Qed.

(** A flush ends: after it nothing is due, so that the watch sleeps
    until a deadline that is to come, even with the queue full. *)
Theorem flush_rests s l s' deadline : step s l s' -> (exists whole, l = LFlush whole) ->
  next_deadline (bursts s') timings = Some deadline -> now s' < deadline.
Proof.
  intros Hs [w Hl] Hd. destruct Hs as [| | |s d c Hf| |]; try done. cbn [bursts now] in *.
  apply next_deadline_of in Hd as (id & p & Hp & <-).
  pose proof (flush_cases (bursts s) (queue s) (now s) id) as Hc. rewrite Hf in Hc.
  destruct Hc as [(p0 & _ & _ & [(E & _)|[E _]])|(Hlater & E & Er)].
  - congruence.
  - rewrite E in Hp. injection Hp as <-. destruct Hbrisk.
    assert (now s + 1 <= due_at d id (refused (now s) p0) timings) by (apply due_at_settled; simpl; lia). lia.
  - rewrite (due_at_reported (bursts s)) by done. apply Hlater. congruence.
Qed.
End Runs.

(** ** Backoff *)

Module Delays.
Export Backoff.

(** The waits between attempts that fail one after the other double
    from the first up to the cap, each drawn between half of its base and
    all of it. *)
Theorem backoff_doubles timings draws i wait : 0 < backoff_first timings -> backoff_first timings <= backoff_cap timings ->
  Forall drawn draws -> delays 0 timings draws !! i = Some wait ->
  let base := Z.min (backoff_first timings * 2 ^ Z.of_nat i) (backoff_cap timings) in
  base / 2 <= wait <= base.
Proof.
  intros Hf Hc Hd Hi. cbn zeta.
  assert (Hgen : forall k next, 0 <= k -> Z.max next (backoff_first timings) = Z.min (backoff_first timings * 2 ^ k) (backoff_cap timings) ->
    delays next timings draws !! i = Some wait ->
    Z.min (backoff_first timings * 2 ^ (k + Z.of_nat i)) (backoff_cap timings) / 2 <= wait
    <= Z.min (backoff_first timings * 2 ^ (k + Z.of_nat i)) (backoff_cap timings)).
  { clear Hi. revert i. induction Hd as [|draw draws Hdraw _ IH]; intros i k next Hk Hbase; [done|].
    cbn [delays]. unfold delay. rewrite Hbase. set (base := Z.min _ _). destruct i as [|i]; simpl.
    - intros [= <-]. rewrite Z.add_0_r. fold base. assert (0 < base) by (unfold base; nia).
      destruct (scaled_bounds 10 base 5 5 draw ltac:(lia) ltac:(lia) ltac:(lia) Hdraw) as [Hle Hge].
      pose proof (Z.div_mod base 2 ltac:(lia)). pose proof (Z.mod_pos_bound base 2 ltac:(lia)). lia.
    - intros Hi. assert (Hnext : Z.max (Z.min (base * 2) (backoff_cap timings)) (backoff_first timings)
        = Z.min (backoff_first timings * 2 ^ (k + 1)) (backoff_cap timings)).
      { rewrite Z.pow_add_r by lia. assert (0 < 2 ^ k) by lia. unfold base. nia. }
      pose proof (IH i (k + 1) _ ltac:(lia) Hnext Hi) as Hgoal.
      replace (k + Z.of_nat (S i)) with ((k + 1) + Z.of_nat i) by lia. exact Hgoal. }
  apply (Hgen 0 0); [lia|rewrite Z.pow_0_r; lia|done].
Qed.
End Delays.

(** ** A watch of two wallets *)

Module Demo.
Definition timings : Timings := timings_of None.
Abbreviation State := (State (Header := unit) (Endpoint := unit)).

Lemma brisk_timings : brisk timings.
Proof. split; vm_compute; done. Qed.

Definition activity (script : string) : Mark (Header := unit) (Endpoint := unit) := Moved ChangeReason.Activity false (Some script).

(** A payment moves two scripts, a tenth of a second apart; the wallet
    is reported once, three tenths after the second, and what comes next
    waits for the gap. *)
Definition s0 : State := start 0.
Definition s1 : State := {| now := 0; bursts := marked no_bursts "w" (activity "a") 0; queue := queue s0 |}.
Definition s2 : State := {| now := millis 100; bursts := bursts s1; queue := queue s0 |}.
Definition s3 : State := {| now := millis 100; bursts := marked (bursts s1) "w" (activity "b") (millis 100); queue := queue s0 |}.
Definition s4 : State := {| now := millis 400; bursts := bursts s3; queue := queue s0 |}.
Definition s5 : State :=
  let '(d, c) := flush (bursts s4) (queue s4) timings (millis 400) in {| now := millis 400; bursts := d; queue := c |}.
Definition s6 : State := {| now := millis 2500; bursts := bursts s5; queue := queue s5 |}.
Definition s7 : State := {| now := millis 2500; bursts := marked (bursts s6) "w" (activity "a") (millis 2500); queue := queue s6 |}.
Definition s8 : State := {| now := millis 2800; bursts := bursts s7; queue := queue s7 |}.
Definition s9 : State :=
  let '(d, c) := flush (bursts s8) (queue s8) timings (millis 2800) in {| now := millis 2800; bursts := d; queue := c |}.

Definition told (t : Z) (scripts : list string) : Z * WatchEvent unit unit :=
  (t, WalletChanged "w" ChangeReason.Activity false scripts).

Example demo_sent : sent (queue s9) = [told (millis 400) ["a"; "b"]; told (millis 2800) ["a"]].
Proof. vm_compute. reflexivity. Qed.

Ltac waits := intros deadline Hd; vm_compute in Hd; injection Hd as <-; vm_compute; done.
Ltac never := intros deadline Hd; vm_compute in Hd; discriminate.

Lemma marks : step timings 0 s0 (LMark "w" (activity "a")) s1.
Proof. apply step_mark. Defined.

Lemma run_on : run timings 0 s1 [LWait (millis 100); LMark "w" (activity "b"); LWait (millis 400); LFlush true; LWait (millis 2500)] s6.
Proof.
  eapply run_cons; [apply (step_wait timings 0 s1 (millis 100)); [by vm_compute|waits]|].
  eapply run_cons; [apply (step_mark timings 0 s2 "w" (activity "b"))|].
  eapply run_cons; [apply (step_wait timings 0 s3 (millis 400)); [by vm_compute|waits]|].
  eapply run_cons; [apply (step_flush timings 0 s4 (bursts s5) (queue s5)); vm_compute; reflexivity|].
  eapply run_cons; [apply (step_wait timings 0 s5 (millis 2500)); [by vm_compute|never]|]. apply run_nil.
Defined.

Lemma run_more : run timings 0 s6 [LMark "w" (activity "a"); LWait (millis 2800); LFlush true] s9.
Proof.
  eapply run_cons; [apply (step_mark timings 0 s6 "w" (activity "a"))|].
  eapply run_cons; [apply (step_wait timings 0 s7 (millis 2800)); [by vm_compute|waits]|].
  eapply run_cons; [apply (step_flush timings 0 s8 (bursts s9) (queue s9)); vm_compute; reflexivity|]. apply run_nil.
Defined.

Lemma run_app {s tr s' tr' s''} : run timings 0 s tr s' -> run timings 0 s' tr' s'' -> run timings 0 (s : State) (tr ++ tr') s''.
Proof. intros H. induction H as [s|s l s1 tr s' Hl _ IH]; [done|]. intros Hr. eapply run_cons; [exact Hl|]. by apply IH. Qed.
End Demo.

Lemma no_mark_is_lost_witness : exists t e, In (t, e) (sent (queue Demo.s6)) /\ 0 <= t /\ says "w" (Demo.activity "a") e.
Proof.
  destruct (no_mark_is_lost Demo.timings 0 Demo.s0 "w" (Demo.activity "a") _ Demo.s6 (run_cons _ _ _ _ _ _ _ Demo.marks Demo.run_on)) as [(p & Hp & _)|H].
  - intros l Hl. repeat destruct Hl as [<-|Hl]; try done.
  - vm_compute in Hp. discriminate.
  - exact H.
Defined.

Lemma marks_said_in_time_witness : exists t e, In (t, e) (sent (queue Demo.s6)) /\ 0 <= t <= secs 2 /\ says "w" (Demo.activity "a") e.
Proof.
  refine (marks_said_in_time Demo.timings 0 Demo.brisk_timings ltac:(lia) 0 [] Demo.s0 "w" (Demo.activity "a") _ Demo.s6
    (run_nil _ _ _) (run_cons _ _ _ _ _ _ _ Demo.marks Demo.run_on) _ _).
  - intros l Hl. repeat destruct Hl as [<-|Hl]; try done.
  - vm_compute. done.
Defined.

Lemma reports_are_apart_witness : millis 400 + secs 1 <= millis 2800.
Proof.
  refine (reports_are_apart Demo.timings 0 Demo.brisk_timings ltac:(lia) 0 [] Demo.s0 "w" _ Demo.s9 0 1
    (millis 400) (Demo.told (millis 400) ["a"; "b"]).2 (millis 2800) (Demo.told (millis 2800) ["a"]).2 (run_nil _ _ _)
    (run_cons _ _ _ _ _ _ _ Demo.marks (Demo.run_app Demo.run_on Demo.run_more)) _ _ _ _ _ _).
  - intros l Hl. repeat destruct Hl as [<-|Hl]; try done.
  - vm_compute. split; lia.
  - vm_compute. reflexivity.
  - vm_compute. reflexivity.
  - reflexivity.
  - reflexivity.
Defined.

(** A full queue: the report waits, and the watch sleeps. *)
Module Full.
Definition events : list (Z * WatchEvent unit unit) := repeat (0, NewBlock 1) 64.
Definition s : Demo.State := {| now := millis 400; bursts := bursts Demo.s3; queue := {| sent := events; received := 0 |} |}.
Definition s' : Demo.State :=
  let '(d, c) := flush (bursts s) (queue s) Demo.timings (millis 400) in {| now := millis 400; bursts := d; queue := c |}.
End Full.

Lemma flush_rests_witness : next_deadline (bursts Full.s') Demo.timings = Some (millis 700) /\ millis 400 < millis 700.
Proof.
  split; [vm_compute; reflexivity|].
  refine (flush_rests Demo.timings 0 Demo.brisk_timings Full.s (LFlush false) Full.s' (millis 700) _ _ _).
  - apply (step_flush Demo.timings 0 Full.s (bursts Full.s') (queue Full.s')). vm_compute. reflexivity.
  - by exists false.
  - vm_compute. reflexivity.
Defined.

Lemma backoff_doubles_witness : secs 8 / 2 <= secs 8 <= secs 8 /\ Backoff.delays 0 Demo.timings [0; 0; parts - 1] !! 2%nat = Some 7999999999.
Proof.
  split; [|vm_compute; reflexivity].
  assert (H : secs 8 / 2 <= 7999999999 <= secs 8); [|split; vm_compute; done].
  refine (Delays.backoff_doubles Demo.timings [0; 0; parts - 1] 2 7999999999 _ _ _ _);
    [vm_compute; done|vm_compute; done|repeat constructor; vm_compute; done|vm_compute; reflexivity].
Defined.
