(* ===== verification/AddressSyncs.v ===== *)
(** The watched addresses of [manager/sync.rs] and [manager/sync/foretold.rs]:
    what a sync of one writes to the vault, the older rounds a user loads,
    and the confirmations the live watch proved, taken without a sync. A
    vault, the network and a Tor client are parameters: what the servers
    answered, whether the file was saved. *)
From S2P Require Import Prelude Text Errors WatchList Bursts Network Updates Xpub Connect Endpoints Targets Confirm Status Store Faults News Addresses Syncs.

(** ** The wallets of the vault *)

Section Records.
(** The change set of the engine, kept whole. *)
Context {C : Type}.

Record WalletRecord := { meta : WalletMeta; changeset : option C; address_state : option AddressWatchState }.

Abbreviation Payload := (VaultPayload WalletRecord).

Definition set_wallets (p : Payload) (l : list WalletRecord) : Payload := {|
  version := version p; settings := settings p; wallets := l; announced := announced p;
  unclaimed := unclaimed p; vanishing := vanishing p; updates := updates p; broadcasts := broadcasts p |}.

Definition named (id : string) (record : WalletRecord) : bool := bool_decide (m_id (meta record) = id).

Definition find_record (p : Payload) (id : string) : CoreResult WalletRecord :=
  match List.find (named id) (wallets p) with Some record => Ok record | None => Err (WalletNotFound id) end.

(** [find_record_mut]: the first of that id, changed in place. *)
Fixpoint update_first (f : WalletRecord -> bool) (change : WalletRecord -> WalletRecord) (l : list WalletRecord) : list WalletRecord :=
  match l with
  | [] => []
  | record :: l => if f record then change record :: l else record :: update_first f change l
  end.

Definition find_record_mut (p : Payload) (id : string) (change : WalletRecord -> WalletRecord) : CoreResult Payload :=
  let? _ := find_record p id in
  Ok (set_wallets p (update_first (named id) change (wallets p))).

Definition set_address_state (watch : option AddressWatchState) (record : WalletRecord) : WalletRecord :=
  {| meta := meta record; changeset := changeset record; address_state := watch |}.

Definition set_tx_count (count : Z) (meta : WalletMeta) : WalletMeta :=
  {| m_id := m_id meta; m_name := m_name meta; m_icon := m_icon meta; m_network := m_network meta; m_kind := m_kind meta;
     m_recognized_as := m_recognized_as meta; m_created_at := m_created_at meta; m_gap_limit := m_gap_limit meta;
     m_scan_gap := m_scan_gap meta; m_labels := m_labels meta; m_last_sync := m_last_sync meta; m_complete_at := m_complete_at meta;
     m_cached := {| ct_balance := ct_balance (m_cached meta); ct_tx_count := count |}; m_live_pinned := m_live_pinned meta |}.

(** ** What a sync writes *)

Definition finished (report : SyncReport) (server : string) (tx_count : Z) (scanned : option Z) (complete : bool) (now : Z)
  (meta : WalletMeta) : WalletMeta :=
  {| m_id := m_id meta; m_name := m_name meta; m_icon := m_icon meta; m_network := m_network meta; m_kind := m_kind meta;
     m_recognized_as := m_recognized_as meta; m_created_at := m_created_at meta; m_gap_limit := m_gap_limit meta;
     m_scan_gap := unwrap_or scanned (m_scan_gap meta); m_labels := m_labels meta;
     m_last_sync := Some {| ss_at := now; ss_tip_height := r_tip_height report; ss_backend := r_backend report; ss_server := Some server |};
     m_complete_at := if complete then Some now else m_complete_at meta;
     m_cached := {| ct_balance := r_balance report; ct_tx_count := tx_count |}; m_live_pinned := m_live_pinned meta |}.

Context `{Keys} `{Urls}.
(** The write of the vault. *)
Variable save : Payload -> result unit VaultError.

Definition saved (p : Payload) : CoreResult unit := match save p with Ok _ => Ok tt | Err e => Err (Vault e) end.

(** A state and what the call comes to: the state stays as far as it went. *)
Definition finish_sync (p : Payload) (id : string) (report : SyncReport) (answered : Endpoint) (tx_count : Z) (scanned : option Z)
  (complete : bool) (now : Z) : Payload * CoreResult unit :=
  match find_record_mut p id (fun record =>
    {| meta := finished report (Endpoints.key answered) tx_count scanned complete now (meta record);
       changeset := changeset record; address_state := address_state record |}) with
  | Err e => (p, Err e)
  | Ok p => (p, saved p)
  end.

(** [chain_setup] of [manager/mod.rs]. *)
Definition chain_setup (p : Payload) (network : Network) : BackendConfig * TrustedCerts :=
  (backend_for (settings p) network, electrum_certs (settings p)).

Definition nothing_new (id : string) (balance : BalanceSnapshot) (tip_height : Z) (server : Endpoint) (took_ms : Z) : SyncReport :=
  {| r_wallet_id := id; r_new_tx_count := 0; r_new_txs := []; r_confirmed_txs := []; r_balance := balance;
     r_tip_height := tip_height; r_took_ms := took_ms; r_backend := endpoint_label server |}.

Definition apply_address_state (p : Payload) (its_meta : WalletMeta) (watch : AddressWatchState) (endpoint : Endpoint)
  (took_ms : Z) (complete : bool) (now : Z) : Payload * CoreResult SyncReport :=
  let id := m_id its_meta in
  match find_record p id with
  | Err e => (p, Err e)
  | Ok stored =>
    let moves := address_moves (address_state stored) watch in
    let recheck := address_recheck (vanishing_of p id) watch in
    let '(new_txs, confirmed_txs) := lines moves in
    let watch := match address_state stored with Some previous => keep_older_history watch previous | None => watch end in
    let tx_count := wrap_u32 (Z.of_nat (length (txs watch))) in
    let p := record p id (negb (is_some (m_last_sync its_meta))) moves now in
    let p := settle p id recheck now in
    let report := {| r_wallet_id := id; r_new_tx_count := wrap_u32 (Z.of_nat (length new_txs)); r_new_txs := new_txs;
                     r_confirmed_txs := confirmed_txs; r_balance := address_balance watch; r_tip_height := tip_height watch;
                     r_took_ms := took_ms; r_backend := endpoint_label endpoint |} in
    match find_record_mut p id (set_address_state (Some watch)) with
    | Err e => (p, Err e)
    | Ok p =>
      match finish_sync p id report endpoint tx_count None complete now with
      | (p, Err e) => (p, Err e)
      | (p, Ok _) => (p, Ok report)
      end
    end
  end.

Definition NOT_READ : string := "the server's history does not match what it announced: not read".

(** [sync_address_wallet]: [begun] is the vault when it starts, [p] when a
    server has answered. *)
Definition sync_address_wallet (fetch : Endpoint -> list AddressTx -> result (option AddressWatchState) Fault)
  (begun p : Payload) (relegated : Relegations) (its_meta : WalletMeta) (endpoints : list Endpoint) (took_ms now instant : Z)
  : Payload * Relegations * CoreResult (SyncReport * Endpoint) :=
  match find_record begun (m_id its_meta) with
  | Err e => (p, relegated, Err e)
  | Ok stored =>
    let held := match address_state stored with Some watch => txs watch | None => [] end in
    match first_answer (fun endpoint => fetch endpoint held) no_attempts endpoints with
    | (attempts, None) => (p, relegated, Err (sync_failure endpoints attempts))
    | (attempts, Some (endpoint, None)) =>
      (p, answered relegated endpoint (down attempts) instant, Err (Errors.Sync (endpoint_label endpoint) NOT_READ))
    | (attempts, Some (endpoint, Some watch)) =>
      match apply_address_state p its_meta watch endpoint took_ms true now with
      | (p, Err e) => (p, relegated, Err e)
      | (p, Ok report) => (p, answered relegated endpoint (down attempts) instant, Ok (report, endpoint))
      end
    end
  end.

(** [sync_wallet_alone], for a watched address: [tor] is what the Tor
    client says of the servers, [live] the server of the watch. *)
Definition sync_wallet_alone (fetch : Endpoint -> list AddressTx -> result (option AddressWatchState) Fault)
  (tor : list Endpoint -> CoreResult unit) (begun p : Payload) (relegated : Relegations) (id : string)
  (prefer live : option (Network * Endpoint)) (took_ms now instant : Z)
  : Payload * Relegations * CoreResult (SyncReport * Endpoint) :=
  match find_record begun id with
  | Err e => (p, relegated, Err e)
  | Ok stored =>
    let '(config, certs) := chain_setup begun (m_network (meta stored)) in
    match (let? endpoints := sync_endpoints (meta stored) config certs prefer live relegated instant in
           let? _ := tor endpoints in Ok endpoints) with
    | Err e => (p, relegated, Err e)
    | Ok endpoints => sync_address_wallet fetch begun p relegated (meta stored) endpoints took_ms now instant
    end
  end.

(** [load_more_history]: the older transactions the user asks for. *)
Definition load_more_history (fetch : Endpoint -> string -> result (list AddressTx * option string) Fault)
  (tor : list Endpoint -> CoreResult unit) (begun p : Payload) (relegated : Relegations) (id : string)
  (live : option (Network * Endpoint)) (instant : Z) : Payload * Relegations * CoreResult Z :=
  match find_record begun id with
  | Err e => (p, relegated, Err e)
  | Ok stored =>
    match m_kind (meta stored) with
    | WalletKind.Descriptors _ _ _ =>
      (p, relegated, Err (InvalidInput "wallet_kind" "descriptor wallets already carry their full history"))
    | WalletKind.SingleAddress _ =>
      match and_then (address_state stored) history_cursor with
      | None => (p, relegated, Ok 0)
      | Some cursor =>
        let '(config, certs) := chain_setup begun (m_network (meta stored)) in
        match (let? endpoints := sync_endpoints (meta stored) config certs None live relegated instant in let? _ := tor endpoints in Ok endpoints) with
        | Err e => (p, relegated, Err e)
        | Ok endpoints =>
          match first_answer (fun endpoint => fetch endpoint cursor) no_attempts endpoints with
          | (attempts, None) => (p, relegated, Err (sync_failure endpoints attempts))
          | (attempts, Some (endpoint, (round, next))) =>
            match find_record p id with
            | Err e => (p, relegated, Err e)
            | Ok now_stored =>
              match address_state now_stored with
              | None => (p, relegated, Ok 0)
              | Some watch =>
                let '(grown, added) := add_round watch round next in
                let grow record := {| meta := set_tx_count (wrap_u32 (Z.of_nat (length (txs grown)))) (meta record);
                                      changeset := changeset record; address_state := Some grown |} in
                let p := set_wallets p (update_first (named id) grow (wallets p)) in
                match saved p with
                | Err e => (p, relegated, Err e)
                | Ok _ => (p, answered relegated endpoint (down attempts) instant, Ok added)
                end
              end
            end
          end
        end
      end
    end
  end.
End Records.
Arguments WalletRecord : clear implicits.

(** ** Confirmations taken without a sync *)

Section Foretold.
Context `{Bitcoin} `{Keys} `{Urls} {C : Type}.
(** [txid.parse::<Txid>()]; SHA-256; the script of an address of a network,
    in hex; the write of the vault. *)
Variables (parse_txid : string -> option string) (sha256 : string -> string) (address_script : string -> Network -> option string)
  (save : VaultPayload (WalletRecord C) -> result unit VaultError).

Abbreviation Payload := (VaultPayload (WalletRecord C)).
Abbreviation Proven := (@Bursts.Proven Header Endpoint).
Abbreviation Headers := (@Bursts.Headers Header).

(** The server that proved them all, when a sync of the wallet may be sent
    there. [config] and [certs] are the ones of [chain_setup]. *)
Definition server_of (config : BackendConfig) (certs : TrustedCerts) (network : Network) (proven : list Proven) : option Endpoint :=
  match proven with
  | [] => None
  | first :: _ =>
    let server := pv_server first in
    if any (fun proven => negb (bool_decide (pv_server proven = server))) proven then None
    else match servers_for config network certs with
         | Ok allowed => if bool_decide (server ∈ allowed) then Some server else None
         | Err _ => None
         end
  end.

Definition block_of (proven : Proven) : option (Z * Header) :=
  match list.last (chain (headers proven)) with Some header => Some (last_height (headers proven), header) | None => None end.

(** [max_by_key]: of the highest, the last. *)
Definition highest (all : list Headers) : option Headers :=
  foldl (fun best headers => match best with
                             | Some best => if last_height best <=? last_height headers then Some headers else Some best
                             | None => Some headers
                             end) None all.

Definition top_chain (network : Network) (proven : list Proven) : option Headers :=
  match highest (List.map headers proven) with
  | None => None
  | Some top =>
    let holds_all := all (fun proven =>
      match block_of proven with
      | Some (height, header) =>
        match at_ top height with Some held => bool_decide (block_hash held = block_hash header) | None => false end
      | None => false
      end) proven in
    if linked (chain top) && work_from network (h_first top) (chain top) && holds_all
       && match chain top with [] => false | _ => true end
    then Some top else None
  end.

Definition waiting_txids (history : list (string * Z)) : gset string :=
  list_to_set (List.map fst (retain (fun e => e.2 <=? 0) history)).

Definition foretells (held : list (string * Z)) (proven : Proven) : option (list (string * Z)) :=
  match block_of proven with
  | None => None
  | Some (height, _) =>
    match confirmed_at held height with
    | None => None
    | Some guessed =>
      if bool_decide (history_status sha256 guessed = pv_status proven) && bool_decide (waiting_txids held = list_to_set (txids proven))
      then Some guessed else None
    end
  end.

Definition taken_now (confirmed : gset string) (txid : string) : bool :=
  match parse_txid txid with Some txid => bool_decide (txid ∈ confirmed) | None => false end.

Definition confirm_tx (confirmed : gset string) (height time : Z) (tx : AddressTx) : AddressTx :=
  if taken_now confirmed (at_txid tx)
  then {| at_txid := at_txid tx; at_net_sats := at_net_sats tx; at_fee_sats := at_fee_sats tx; at_height := Some height;
          at_timestamp := Some time; at_vsize := at_vsize tx; at_inputs := at_inputs tx; at_outputs := at_outputs tx;
          at_extras := at_extras tx |}
  else tx.

Definition confirm_coin (confirmed : gset string) (height time : Z) (coin : AddressUtxo) : AddressUtxo :=
  if negb (is_some (au_height coin)) && taken_now confirmed (au_txid coin)
  then {| au_txid := au_txid coin; au_vout := au_vout coin; au_value_sats := au_value_sats coin; au_height := Some height;
          au_timestamp := Some time |}
  else coin.

Definition taken_state (watch : AddressWatchState) (confirmed : gset string) (height time top : Z) : AddressWatchState :=
  {| txs := List.map (confirm_tx confirmed height time) (txs watch); utxos := List.map (confirm_coin confirmed height time) (utxos watch);
     tip_height := Z.max (tip_height watch) top; truncated := truncated watch; history_cursor := history_cursor watch |}.

Definition take_address (p : Payload) (its_meta : WalletMeta) (address : string) (proven : list Proven) (top : Headers)
  (server : Endpoint) (took_ms now : Z) : Payload * CoreResult (option SyncReport) :=
  match find_record p (m_id its_meta) with
  | Err e => (p, Err e)
  | Ok stored =>
    match address_state stored, proven with
    | None, _ => (p, Ok None)
    | Some watch, [proven] =>
      if negb (bool_decide (address_script address (m_network its_meta) = Some (pv_script proven))) then (p, Ok None)
      else if bool_decide (address_status parse_txid sha256 watch = Some (pv_status proven))
      then (p, Ok (Some (nothing_new (m_id its_meta) (address_balance watch) (tip_height watch) server took_ms)))
      else
        let held := address_history parse_txid watch in
        match foretells held proven, block_of proven with
        | Some _, Some (height, header) =>
          if height <? tip_height watch then (p, Ok None)
          else
            let taken := taken_state watch (waiting_txids held) height (h_time header) (last_height top) in
            match apply_address_state save p its_meta taken server took_ms false now with
            | (p, Ok report) => (p, Ok (Some report))
            | (p, Err e) => (p, Err e)
            end
        | _, _ => (p, Ok None)
        end
    | Some _, _ => (p, Ok None)
    end
  end.

(** [take], for a watched address; what it does of a descriptor wallet,
    whose state is the engine's, is [descriptor]. *)
Definition take_confirmations
  (descriptor : Payload -> WalletMeta -> list Proven -> Headers -> Endpoint -> Payload * CoreResult (option SyncReport))
  (p : Payload) (id : string) (proven : list Proven) (took_ms now : Z) : Payload * CoreResult (option SyncReport) :=
  match find_record p id with
  | Err e => (p, Err e)
  | Ok stored =>
    let its_meta := meta stored in
    let '(config, certs) := chain_setup p (m_network its_meta) in
    match server_of config certs (m_network its_meta) proven, top_chain (m_network its_meta) proven with
    | Some server, Some top =>
      let early := any (fun proven => match block_of proven with
                                      | Some (height, _) => is_some (checkpoint_for (m_network its_meta) height)
                                      | None => false
                                      end) proven in
      if early then (p, Ok None)
      else match m_kind its_meta with
           | WalletKind.Descriptors _ _ _ => descriptor p its_meta proven top server
           | WalletKind.SingleAddress address => take_address p its_meta address proven top server took_ms now
           end
    | _, _ => (p, Ok None)
    end
  end.
End Foretold.

(** ** What they promise *)

Lemma find_map_first {A} (f : A -> bool) l x : List.find f l = Some x -> In x l /\ f x = true.
Proof. apply List.find_some. Qed.

Section Updates.
Context {C : Type}.
Implicit Types (p : VaultPayload (WalletRecord C)) (l : list (WalletRecord C)).

Definition same_name (change : WalletRecord C -> WalletRecord C) : Prop := forall r, m_id (meta (change r)) = m_id (meta r).

Lemma named_change (change : WalletRecord C -> WalletRecord C) id r : same_name change -> named id (change r) = named id r.
Proof. intros Hs. unfold named. by rewrite Hs. Qed.

Lemma find_updated change id l r : same_name change -> List.find (named id) l = Some r ->
  List.find (named id) (update_first (named id) change l) = Some (change r).
Proof.
  intros Hs. induction l as [|x l IH]; cbn; [done|]. destruct (named id x) eqn:E.
  - intros [= ->]. cbn. by rewrite named_change, E.
  - intros Hr. cbn. rewrite E. by apply IH.
Qed.

Lemma find_others change id other l : same_name change -> other <> id ->
  List.find (named other) (update_first (named id) change l) = List.find (named other) l.
Proof.
  intros Hs Hne. induction l as [|x l IH]; cbn; [done|]. destruct (named id x) eqn:E; cbn; [|by rewrite IH].
  rewrite named_change by done. destruct (named other x) eqn:Eo; [|done].
  apply bool_decide_eq_true_1 in E, Eo. congruence.
Qed.

Lemma updated_In change id l r : In r (update_first (named id) change l) ->
  In r l \/ exists old, List.find (named id) l = Some old /\ r = change old.
Proof.
  induction l as [|x l IH]; cbn; [done|]. destruct (named id x) eqn:E.
  - intros [<-|Hin]; [right; by exists x|left; by right].
  - intros [<-|Hin]; [left; by left|]. destruct (IH Hin) as [?|?]; [left; by right|by right].
Qed.

Lemma update_twice change change' id l : same_name change ->
  update_first (named id) change' (update_first (named id) change l) = update_first (named id) (fun r => change' (change r)) l.
Proof.
  intros Hs. induction l as [|x l IH]; [done|]. cbn. destruct (named id x) eqn:E; cbn; [by rewrite named_change, E|]. by rewrite E, IH.
Qed.

Lemma find_record_Ok p id r : find_record p id = Ok r <-> List.find (named id) (wallets p) = Some r.
Proof. unfold find_record. destruct (List.find _ _) as [x|]; split; by intros [= ->]. Qed.

Lemma find_record_wallets p q id : wallets p = wallets q -> find_record p id = find_record q id.
Proof. unfold find_record. by intros ->. Qed.

Lemma find_record_mut_Ok p id change r : find_record p id = Ok r ->
  find_record_mut p id change = Ok (set_wallets p (update_first (named id) change (wallets p))).
Proof. unfold find_record_mut. by intros ->. Qed.
End Updates.

Lemma wf_wallets {A B} (p : VaultPayload A) (q : VaultPayload B) : announced q = announced p -> unclaimed q = unclaimed p ->
  vanishing q = vanishing p -> News.wf p -> News.wf q.
Proof. intros Ha Hu Hv []. by split; rewrite ?Ha, ?Hu, ?Hv. Qed.

Section Applied.
Context `{Keys} `{Urls} {C : Type}.
Variable save : VaultPayload (WalletRecord C) -> result unit VaultError.
Implicit Types p : VaultPayload (WalletRecord C).

(** The state of an address after a sync read [watch] of it. *)
Definition kept_state (stored : WalletRecord C) (watch : AddressWatchState) : AddressWatchState :=
  match address_state stored with Some previous => keep_older_history watch previous | None => watch end.

(** What a write of one wallet leaves: its record as [now_], the others as
    they were, and the rest of the vault. *)
Record written p p' (id : string) (now_ : WalletRecord C -> Prop) : Prop := {
  w_news : News.wf p';
  w_settings : settings p' = settings p;
  w_broadcasts : broadcasts p' = broadcasts p;
  w_this : exists r, find_record p' id = Ok r /\ now_ r;
  w_others : forall other, other <> id -> find_record p' other = find_record p other;
  w_all : forall r, In r (wallets p') -> In r (wallets p) \/ now_ r;
}.

(** What a sync leaves of a wallet but when it was and what it counted. *)
Definition same_wallet (a b : WalletMeta) : Prop :=
  m_id b = m_id a /\ m_name b = m_name a /\ m_icon b = m_icon a /\ m_network b = m_network a /\ m_kind b = m_kind a
  /\ m_recognized_as b = m_recognized_as a /\ m_created_at b = m_created_at a /\ m_gap_limit b = m_gap_limit a
  /\ m_scan_gap b = m_scan_gap a /\ m_labels b = m_labels a /\ m_live_pinned b = m_live_pinned a.

(** The record of a wallet after a sync that left its address as [kept]. *)
Definition synced_record (stored : WalletRecord C) (kept : AddressWatchState) (endpoint : Endpoint) (complete : bool) (now : Z)
  (r : WalletRecord C) : Prop :=
  address_state r = Some kept /\ changeset r = changeset stored /\ same_wallet (meta stored) (meta r)
  /\ m_last_sync (meta r) = Some {| ss_at := now; ss_tip_height := tip_height kept; ss_backend := endpoint_label endpoint;
                                    ss_server := Some (Endpoints.key endpoint) |}
  /\ m_complete_at (meta r) = (if complete then Some now else m_complete_at (meta stored))
  /\ m_cached (meta r) = {| ct_balance := address_balance kept; ct_tx_count := wrap_u32 (Z.of_nat (length (txs kept))) |}.

Lemma apply_right p its_meta watch endpoint took complete now stored p' res :
  News.wf p -> find_record p (m_id its_meta) = Ok stored ->
  apply_address_state save p its_meta watch endpoint took complete now = (p', res) ->
  written p p' (m_id its_meta) (synced_record stored (kept_state stored watch) endpoint complete now)
  /\ ((exists report, res = Ok report /\ save p' = Ok tt /\ r_balance report = address_balance (kept_state stored watch)
         /\ r_tip_height report = tip_height (kept_state stored watch)
         /\ (r_new_txs report, r_confirmed_txs report) = lines (address_moves (address_state stored) watch))
      \/ exists e, res = Err (Vault e) /\ save p' = Err e).
Proof.
  intros Hwf Hfind. unfold apply_address_state. rewrite Hfind. set (id := m_id its_meta) in *.
  set (moves := address_moves (address_state stored) watch). destruct (lines moves) as [new_txs confirmed_txs] eqn:El.
  fold (kept_state stored watch). set (kept := kept_state stored watch).
  set (p1 := record p id _ moves now). set (p2 := settle p1 id _ now).
  assert (Hk : keeps p p2) by (eapply keeps_trans; [apply keeps_record|apply keeps_settle]).
  destruct (Hk Hwf) as [Hwf2 [_ _ Hset Hw _ Hb]]. clearbody p2. clear p1 Hk.
  assert (Hf2 : find_record p2 id = Ok stored) by (by rewrite (find_record_wallets p2 p)).
  rewrite (find_record_mut_Ok p2 id _ stored Hf2).
  set (p3 := set_wallets p2 _). unfold finish_sync.
  assert (Hsame : same_name (set_address_state (C := C) (Some kept))) by done.
  assert (Hf3 : find_record p3 id = Ok (set_address_state (Some kept) stored)).
  { apply find_record_Ok. subst p3. cbn [wallets set_wallets]. apply find_updated; [done|]. by apply find_record_Ok. }
  rewrite (find_record_mut_Ok p3 id _ _ Hf3). set (change := fun r : WalletRecord C => _). set (p4 := set_wallets p3 _).
  assert (Hsame4 : same_name change) by done.
  assert (Hwritten : written p p4 id (synced_record stored kept endpoint complete now)).
  { split.
    - by apply (wf_wallets p2 p4).
    - exact Hset.
    - exact Hb.
    - eexists. split; [apply find_record_Ok; subst p4; cbn [wallets set_wallets]; apply find_updated; [done|]; by apply find_record_Ok|]. by repeat split.
    - intros other Hne. unfold find_record. subst p4 p3. cbn [wallets set_wallets]. rewrite !find_others by done. by rewrite Hw.
    - intros r Hr. subst p4 p3. cbn [wallets set_wallets] in Hr. rewrite update_twice in Hr by done.
      apply updated_In in Hr as [Hr|(old & Ho & ->)]; [left; by rewrite <- Hw|right].
      apply find_record_Ok in Ho. rewrite Hf2 in Ho. injection Ho as <-. by repeat split. }
  unfold saved. destruct (save p4) as [[]|e] eqn:Es; intros [= <- <-]; (split; [done|]).
  - left. eexists. split; [reflexivity|]. split; [done|]. done.
  - right. by exists e.
Qed.
End Applied.

(** ** The state of an address *)

(** What every operation keeps of it: a list a screen can show, each txid
    as the parser writes it, each confirmation between the first block
    and the tip. *)
Record sound (parse_txid : string -> option string) (s : AddressWatchState) : Prop := {
  s_listed : well_listed (txs s);
  s_tip : 0 < tip_height s;
  s_heights : forall tx h, In tx (txs s) -> at_height tx = Some h -> 0 < h <= tip_height s;
  s_canonical : forall tx, In tx (txs s) -> parse_txid (at_txid tx) = Some (at_txid tx);
}.

Lemma collect_opt_map {A B} (f : A -> option B) l k : collect_opt (List.map f l) = Some k ->
  (forall x, In x l -> exists y, f x = Some y /\ In y k) /\ (forall y, In y k -> exists x, In x l /\ f x = Some y).
Proof.
  revert k. induction l as [|x l IH]; intros k; cbn; [by intros [= <-]|].
  destruct (f x) as [y|] eqn:E; [|done]. destruct (collect_opt _) as [rest|]; [|done]. intros [= <-].
  destruct (IH rest eq_refl) as [H1 H2]. split.
  - intros z [<-|Hz]; [exists y; split; [done|by left]|]. destruct (H1 z Hz) as (w & ? & ?). exists w. split; [done|by right].
  - intros z [<-|Hz]; [exists x; split; [by left|done]|]. destruct (H2 z Hz) as (w & ? & ?). exists w. split; [by right|done].
Qed.

Lemma same_id (l : list AddressTx) a b : NoDup (List.map at_txid l) -> In a l -> In b l -> at_txid a = at_txid b -> a = b.
Proof.
  induction l as [|x l IH]; [done|]. cbn [List.map]. intros [Hx Hn]%list.NoDup_cons [->|Ha] [->|Hb] Heq; [done| | |by apply IH].
  - destruct Hx. rewrite Heq. by apply list_elem_of_In, in_map.
  - destruct Hx. rewrite <- Heq. by apply list_elem_of_In, in_map.
Qed.

Section Sound.
Context (parse_txid : string -> option string).

Lemma keep_sound watch previous : sound parse_txid watch -> sound parse_txid previous -> sound parse_txid (keep_older_history watch previous).
Proof.
  intros Hw Hp. destruct (keep_older_right watch previous (s_listed _ _ Hw) (s_listed _ _ Hp)) as (Hl & _ & Ht & Hin).
  split; [done|rewrite Ht; apply Hw| |].
  - intros tx h Htx Hh. rewrite Ht. apply Hin in Htx as [Htx|(oldest & h' & Ho & Htx & Hh' & Hlt & _)]; [by eapply s_heights|].
    rewrite Hh in Hh'. injection Hh' as <-. destruct (oldest_right _ _ Ho) as [(old & Hold & Hoh) _].
    pose proof (s_heights _ _ Hw old oldest Hold Hoh). pose proof (s_heights _ _ Hp tx h Htx Hh). lia.
  - intros tx Htx. apply Hin in Htx as [Htx|(_ & _ & _ & Htx & _)]; [by apply Hw|by apply Hp].
Qed.

(** Where a history waits, every transaction of it is known by its txid. *)
Lemma waiting_right s : sound parse_txid s -> forall tx, In tx (txs s) ->
  taken_now parse_txid (waiting_txids (address_history parse_txid s)) (at_txid tx) = true <->
  at_height tx = None /\ is_some (address_entries parse_txid s) = true.
Proof.
  intros Hs tx Htx. unfold taken_now. rewrite (s_canonical _ _ Hs tx Htx), bool_decide_eq_true.
  unfold waiting_txids. rewrite elem_of_list_to_set, list_elem_of_In, in_map_iff. setoid_rewrite retain_In.
  unfold address_history, address_entries. destruct (collect_opt _) as [l|] eqn:El; cbn [option_map unwrap_or is_some].
  2: { split; [by intros (? & _ & [] & _)|by intros [_ [=]]]. }
  destruct (collect_opt_map _ _ _ El) as [Hfrom Hto]. unfold Addresses.waiting.
  assert (Hentry : forall x e, In x (txs s) -> address_entry parse_txid x = Some e -> e = (at_txid x, unwrap_or (at_height x) 0)).
  { intros x e Hx. unfold address_entry. rewrite (s_canonical _ _ Hs x Hx). by case_match; intros [= <-]. }
  split.
  - intros ([id h] & Heq & Hin & Hh). cbn in Heq, Hh. subst id. split; [|done].
    assert (Hinl : In (at_txid tx, h) l) by (destruct (any _ _); [|done]; by apply sort_by_In in Hin).
    destruct (Hto _ Hinl) as (x & Hx & Hex). pose proof (Hentry x _ Hx Hex) as [= Hid Hhx].
    assert (x = tx) as -> by (eapply same_id; [apply Hs|done|done|done]).
    destruct (at_height tx) as [hx|] eqn:Eh; [|done]. cbn in Hhx. pose proof (s_heights _ _ Hs tx hx Htx Eh). lia.
  - intros [Hh _]. destruct (Hfrom tx Htx) as (e & He & Hin). pose proof (Hentry tx e Htx He) as ->. rewrite Hh in *. cbn in *.
    exists (at_txid tx, 0). split; [done|]. split; [|done].
    assert (Hs' : In (at_txid tx, 0) (sort_by entry_le l)) by (by apply sort_by_In).
    destruct (any _ _) eqn:Ea; [done|]. rewrite any_false in Ea. by specialize (Ea _ Hs').
Qed.

Lemma confirm_sound s height time top : sound parse_txid s -> tip_height s <= height <= top ->
  sound parse_txid (taken_state parse_txid s (waiting_txids (address_history parse_txid s)) height time top).
Proof.
  intros Hs Hh. set (confirmed := waiting_txids _). set (f := confirm_tx parse_txid confirmed height time).
  assert (Hid : forall tx, at_txid (f tx) = at_txid tx) by (intros tx; unfold f, confirm_tx; by destruct (taken_now _ _ _)).
  assert (Hf : forall tx, In tx (txs s) -> at_height (f tx) =
    if is_some (address_entries parse_txid s) then Some (unwrap_or (at_height tx) height) else at_height tx).
  { pose proof (waiting_right s Hs) as Hw. fold confirmed in Hw. intros tx Htx. unfold f, confirm_tx. destruct (taken_now _ _ _) eqn:Et.
    - apply (Hw tx Htx) in Et as [-> ->]. done.
    - destruct (at_height tx) as [h|] eqn:Eh; [by destruct (is_some _)|]. destruct (is_some _) eqn:Es; [|done].
      by rewrite (proj2 (Hw tx Htx) (conj Eh eq_refl)) in Et. }
  pose proof (s_tip _ _ Hs). split; unfold taken_state; cbn [txs tip_height]; fold f.
  - destruct (s_listed _ _ Hs) as [Hn Hsort]. split.
    + rewrite List.map_map. by rewrite (List.map_ext _ _ Hid).
    + assert (Hle : forall tx h, In tx (txs s) -> at_height tx = Some h -> h <= height)
        by (intros tx h Htx Hth; pose proof (s_heights _ _ Hs tx h Htx Hth); lia).
      revert Hle Hf. clearbody f. clear -Hsort. induction Hsort as [|x l Hl IH Hx]; intros Hle Hf; cbn; constructor.
      * apply IH; intros; [eapply Hle; [by right|done]|apply Hf; by right].
      * apply list.Forall_forall. intros y' Hy'%list_elem_of_In. apply in_map_iff in Hy' as (y & <- & Hy).
        assert (Hxy : newer_first x y) by (apply (proj1 (List.Forall_forall _ _) Hx y Hy)).
        unfold newer_first in *. rewrite (Hf x (or_introl eq_refl)), (Hf y (or_intror Hy)).
        destruct (is_some _); [|done]. cbn. destruct (at_height x) as [hx|] eqn:Ex, (at_height y) as [hy|] eqn:Ey; cbn; try done.
        apply (Hle y hy); [by right|done].
  - lia.
  - intros tx' h (tx & <- & Htx)%in_map_iff. rewrite (Hf tx Htx). destruct (is_some _).
    + intros [= <-]. destruct (at_height tx) as [hx|] eqn:Ex; cbn; [|lia]. pose proof (s_heights _ _ Hs tx hx Htx Ex). lia.
    + intros Hth. pose proof (s_heights _ _ Hs tx h Htx Hth). lia.
  - intros tx' (tx & <- & Htx)%in_map_iff. rewrite Hid. by apply Hs.
Qed.
End Sound.

(** ** Confirmations taken on a proof *)

Section Taken.
Context `{Bitcoin} `{Keys} `{Urls} {C : Type}.
Variables (parse_txid : string -> option string) (sha256 : string -> string) (address_script : string -> Network -> option string)
  (save : VaultPayload (WalletRecord C) -> result unit VaultError).
Implicit Types p : VaultPayload (WalletRecord C).

Abbreviation take_watched := (take_confirmations parse_txid sha256 address_script save).

Lemma worked_at network (top : @Bursts.Headers Header) height header : work_from network (h_first top) (chain top) = true ->
  at_ top height = Some header -> has_proof_of_work network height header = true.
Proof.
  intros Hw. unfold at_. destruct (Z.ltb_spec height (h_first top)) as [|Hle]; [done|].
  destruct top as [first l]. cbn [h_first chain] in *. revert first height Hw Hle. induction l as [|x l IH]; intros first height; cbn [work_from]; [by rewrite lookup_nil|].
  intros [Hx Hw]%andb_true_iff Hle Hat. revert Hat. destruct (decide (height = first)) as [->|Hne].
  - rewrite Z.sub_diag. intros [= <-]. done.
  - replace (Z.to_nat (height - first)) with (S (Z.to_nat (height - (first + 1)))) by lia. cbn [lookup list_lookup]. apply IH; [done|lia].
Qed.

Lemma top_of_one network proven top : top_chain network [proven] = Some top ->
  top = headers proven /\ linked (chain top) = true /\ work_from network (h_first top) (chain top) = true
  /\ exists height header, block_of proven = Some (height, header) /\ height = last_height top
     /\ exists held, at_ top height = Some held /\ block_hash held = block_hash header.
Proof.
  unfold top_chain. cbn [List.map highest foldl]. cbn [all forallb]. destruct (linked _ && _ && _ && _) eqn:E; [|done]. intros [= <-].
  apply andb_true_iff in E as [[[Hl Hw]%andb_true_iff Hb]%andb_true_iff _]. apply andb_true_iff in Hb as [Hb _].
  split; [done|]. split; [done|]. split; [done|]. destruct (block_of proven) as [[height header]|] eqn:Eb; [|done].
  exists height, header. split; [done|]. unfold block_of in Eb. destruct (list.last _); [|done]. injection Eb as <- <-. split; [done|].
  destruct (at_ _ _) as [held|]; [|done]. exists held. split; [done|]. by apply bool_decide_eq_true_1 in Hb.
Qed.

Lemma server_of_allowed config certs network proven server : server_of config certs network proven = Some server ->
  exists allowed, servers_for config network certs = Ok allowed /\ In server allowed /\ forall pv, In pv proven -> pv_server pv = server.
Proof.
  unfold server_of. destruct proven as [|first rest]; [done|]. destruct (any _ _) eqn:Ea; [done|].
  destruct (servers_for _ _ _) as [allowed|]; [|done]. destruct (bool_decide _) eqn:Eb; [|done]. intros [= <-].
  exists allowed. split; [done|]. split; [by apply list_elem_of_In, (bool_decide_eq_true_1 _)|].
  rewrite any_false in Ea. intros pv Hpv. specialize (Ea pv Hpv). by apply negb_false_iff, bool_decide_eq_true_1 in Ea.
Qed.

Lemma keep_same watch previous : (forall tx, In tx (txs previous) -> In (at_txid tx) (List.map at_txid (txs watch))) ->
  keep_older_history watch previous = watch.
Proof.
  intros Hin. unfold keep_older_history. destruct (oldest_of watch) as [oldest|]; [|done].
  set (older := retain _ (retain _ _)). destruct older as [|tx rest] eqn:E; [done|]. exfalso.
  assert (Htx : In tx older) by (rewrite E; by left). apply older_In in Htx as (Htx & _ & Hnot). by apply Hnot, Hin.
Qed.

Lemma taken_ids watch confirmed height time top :
  List.map at_txid (txs (taken_state parse_txid watch confirmed height time top)) = List.map at_txid (txs watch).
Proof.
  cbn [taken_state txs]. rewrite List.map_map. apply List.map_ext. intros tx. unfold confirm_tx. by destruct (taken_now _ _ _).
Qed.

(** What [take_address] comes to, when it takes something. *)
Lemma take_address_right p its_meta address proven top server took now stored watch p' report :
  News.wf p -> find_record p (m_id its_meta) = Ok stored -> address_state stored = Some watch -> sound parse_txid watch ->
  top_chain (m_network its_meta) proven = Some top ->
  take_address parse_txid sha256 address_script save p its_meta address proven top server took now = (p', Ok (Some report)) ->
  (p' = p /\ exists pv, proven = [pv] /\ address_status parse_txid sha256 watch = Some (pv_status pv)) \/ exists pv height header guessed,
    let taken := taken_state parse_txid watch (waiting_txids (address_history parse_txid watch)) height (h_time header) height in
    proven = [pv] /\ block_of pv = Some (height, header) /\ tip_height watch <= height
    /\ address_script address (m_network its_meta) = Some (pv_script pv)
    /\ (exists held, has_proof_of_work (m_network its_meta) height held = true /\ block_hash held = block_hash header)
    /\ confirmed_at (address_history parse_txid watch) height = Some guessed /\ history_status sha256 guessed = pv_status pv
    /\ waiting_txids (address_history parse_txid watch) = list_to_set (txids pv)
    /\ written p p' (m_id its_meta) (synced_record stored taken server false now).
Proof.
  intros Hwf Hfind Hstate Hs Htop. unfold take_address. rewrite Hfind, Hstate.
  destruct proven as [|pv [|? ?]]; [done| |done]. apply top_of_one in Htop as (-> & Hl & Hw & height & header & Hb & Hh & held & Hat & Hhash).
  destruct (bool_decide _) eqn:Escript; cbn [negb]; [|done]. apply bool_decide_eq_true_1 in Escript.
  case_bool_decide; [intros [= <- _]; left; split; [done|]; by exists pv|]. rewrite Hb. unfold foretells. rewrite Hb.
  destruct (confirmed_at _ _) as [guessed|] eqn:Ec; [|done]. destruct (bool_decide _ && bool_decide _) eqn:Eg; [|done].
  apply andb_true_iff in Eg as [Est%bool_decide_eq_true_1 Eid%bool_decide_eq_true_1].
  destruct (Z.ltb_spec height (tip_height watch)); [done|]. rewrite <- Hh.
  destruct (apply_address_state _ _ _ _ _ _ _ _) as [q res] eqn:Ea. destruct res as [rep|e]; [|done]. intros [= <- <-]. right.
  apply apply_right with (stored := stored) in Ea as [Ha _]; [|done|done].
  exists pv, height, header, guessed. cbn zeta. split; [done|]. split; [done|]. split; [lia|]. split; [done|].
  split; [exists held; split; [by eapply worked_at|done]|]. split; [done|]. split; [done|]. split; [done|].
  unfold kept_state in Ha. rewrite Hstate in Ha. rewrite keep_same in Ha; [done|].
  intros tx Htx. rewrite taken_ids. by apply in_map.
Qed.

(** A transaction and a coin put in a block; an address whose waiting
    transactions, and the coins of those proven, are put in one. *)
Definition tx_in_block (height time : Z) (tx : AddressTx) : AddressTx :=
  {| at_txid := at_txid tx; at_net_sats := at_net_sats tx; at_fee_sats := at_fee_sats tx; at_height := Some height;
     at_timestamp := Some time; at_vsize := at_vsize tx; at_inputs := at_inputs tx; at_outputs := at_outputs tx;
     at_extras := at_extras tx |}.
Definition coin_in_block (height time : Z) (coin : AddressUtxo) : AddressUtxo :=
  {| au_txid := au_txid coin; au_vout := au_vout coin; au_value_sats := au_value_sats coin; au_height := Some height; au_timestamp := Some time |}.
Definition paid_by (proven : list string) (coin : AddressUtxo) : bool :=
  match parse_txid (au_txid coin) with Some txid => bool_decide (txid ∈ proven) | None => false end.
Definition address_in_block (proven : list string) (height time : Z) (watch : AddressWatchState) : AddressWatchState :=
  {| txs := List.map (fun tx => match at_height tx with Some _ => tx | None => tx_in_block height time tx end) (txs watch);
     utxos := List.map (fun coin => match au_height coin with
                                    | Some _ => coin
                                    | None => if paid_by proven coin then coin_in_block height time coin else coin
                                    end) (utxos watch);
     tip_height := height; truncated := truncated watch; history_cursor := history_cursor watch |}.

Lemma waiting_ids watch height guessed proven : sound parse_txid watch ->
  confirmed_at (address_history parse_txid watch) height = Some guessed ->
  waiting_txids (address_history parse_txid watch) = list_to_set proven ->
  (forall tx, In tx (txs watch) -> taken_now parse_txid (list_to_set proven) (at_txid tx) = negb (is_some (at_height tx)))
  /\ forall txid, In txid proven <-> exists tx, In tx (txs watch) /\ at_txid tx = txid /\ at_height tx = None.
Proof.
  intros Hs Hc Heq. assert (He : is_some (address_entries parse_txid watch) = true).
  { unfold address_history in Hc. destruct (address_entries parse_txid watch); [done|]. cbn in Hc. unfold confirmed_at in Hc. by destruct (_ >? _). }
  assert (Htaken : forall tx, In tx (txs watch) -> taken_now parse_txid (list_to_set proven) (at_txid tx) = negb (is_some (at_height tx))).
  { intros tx Htx. rewrite <- Heq. apply eq_true_iff_eq. rewrite (waiting_right parse_txid watch Hs tx Htx), He.
    destruct (at_height tx); split; (done || by intros [? _]). }
  split; [done|]. intros txid. split.
  - intros Hin. assert (Hw : txid ∈ waiting_txids (address_history parse_txid watch)) by (rewrite Heq; by apply elem_of_list_to_set, list_elem_of_In).
    unfold waiting_txids in Hw. rewrite elem_of_list_to_set, list_elem_of_In, in_map_iff in Hw. destruct Hw as ([id h] & Hid & [Hw _]%retain_In).
    cbn in Hid. subst id. unfold address_history, address_entries in Hw. destruct (collect_opt _) as [l|] eqn:El; [|done]. cbn in Hw.
    assert (Hl : In (txid, h) l) by (unfold Addresses.waiting in Hw; destruct (any _ _); [|done]; by apply sort_by_In in Hw).
    destruct (proj2 (collect_opt_map _ _ _ El) _ Hl) as (tx & Htx & Hex). unfold address_entry in Hex. rewrite (s_canonical _ _ Hs tx Htx) in Hex.
    assert (Hid : at_txid tx = txid) by (cbn zeta in Hex; destruct (_ <=? _); [by injection Hex as Hid _|done]). exists tx. split; [done|]. split; [done|].
    specialize (Htaken tx Htx). unfold taken_now in Htaken. rewrite (s_canonical _ _ Hs tx Htx), Hid in Htaken.
    rewrite bool_decide_true in Htaken by (by apply elem_of_list_to_set, list_elem_of_In). by destruct (at_height tx).
  - intros (tx & Htx & <- & Hn). specialize (Htaken tx Htx). rewrite Hn in Htaken. unfold taken_now in Htaken.
    rewrite (s_canonical _ _ Hs tx Htx) in Htaken. apply bool_decide_eq_true_1 in Htaken. by apply elem_of_list_to_set, list_elem_of_In in Htaken.
Qed.

Lemma taken_in_block watch proven height time :
  (forall tx, In tx (txs watch) -> taken_now parse_txid (list_to_set proven) (at_txid tx) = negb (is_some (at_height tx))) ->
  tip_height watch <= height ->
  taken_state parse_txid watch (list_to_set proven) height time height = address_in_block proven height time watch.
Proof.
  intros Htaken Htip. unfold taken_state, address_in_block. rewrite Z.max_r by done. f_equal.
  - apply map_ext_in. intros tx Htx. unfold confirm_tx. rewrite Htaken by done. by destruct (at_height tx).
  - apply map_ext. intros coin. unfold confirm_coin, taken_now, paid_by. destruct (au_height coin); [done|]. cbn [is_some negb andb].
    destruct (parse_txid _) as [txid|]; [|done]. by rewrite (bool_decide_ext _ _ (elem_of_list_to_set txid proven)).
Qed.

(** C12: A confirmation the live watch foretold is shown of a watched
    address without a sync only when: the wallet's own backend may name
    the server that proved it; the block it is in has the work its
    network asks for, no lower than the tip held and past the blocks a
    checkpoint is needed for; and what the address held waiting is exactly
    what was proven in that block, and hashes, confirmed there, to the
    status the server announced. Then the transactions that waited, and
    the coins of theirs, and no others, are in that block, the tip is
    that block, the totals go by that, and everything else of the address,
    of its wallet, of the other wallets and of the vault's settings is as
    it was. When nothing changes the address already stood as announced. *)
Theorem foretold_only_on_proof descriptor p id proven took now stored watch address p' report :
  News.wf p -> find_record p id = Ok stored -> m_kind (meta stored) = WalletKind.SingleAddress address ->
  address_state stored = Some watch -> sound parse_txid watch ->
  take_watched descriptor p id proven took now = (p', Ok (Some report)) ->
  (p' = p /\ exists pv, proven = [pv] /\ address_status parse_txid sha256 watch = Some (pv_status pv))
  \/ exists pv height header guessed stored',
    let network := m_network (meta stored) in
    proven = [pv] /\ block_of pv = Some (height, header)
    /\ (exists allowed, servers_for (backend_for (settings p) network) network (electrum_certs (settings p)) = Ok allowed /\ In (pv_server pv) allowed)
    /\ (exists held, has_proof_of_work network height held = true /\ block_hash held = block_hash header)
    /\ checkpoint_for network height = None /\ tip_height watch <= height
    /\ address_script address network = Some (pv_script pv)
    /\ confirmed_at (address_history parse_txid watch) height = Some guessed /\ history_status sha256 guessed = pv_status pv
    /\ (forall txid, In txid (txids pv) <-> exists tx, In tx (txs watch) /\ at_txid tx = txid /\ at_height tx = None)
    /\ find_record p' id = Ok stored'
    /\ synced_record stored (address_in_block (txids pv) height (h_time header) watch) (pv_server pv) false now stored'
    /\ (forall other, other <> id -> find_record p' other = find_record p other) /\ settings p' = settings p
    /\ broadcasts p' = broadcasts p.
Proof.
  intros Hwf Hfind Hkind Hstate Hs. unfold take_confirmations. rewrite Hfind. cbn zeta. cbn [chain_setup].
  assert (Hid : m_id (meta stored) = id) by (apply find_record_Ok, find_map_first in Hfind as [_ Hn]; by apply bool_decide_eq_true_1 in Hn).
  destruct (server_of _ _ _ _) as [server|] eqn:Eserver; [|done]. destruct (top_chain _ _) as [top|] eqn:Etop; [|done].
  destruct (any _ _) eqn:Eearly; [done|]. rewrite Hkind. intros Ht.
  eapply take_address_right in Ht; [|done|by rewrite Hid|done|done|done].
  destruct Ht as [?|(pv & height & header & guessed & -> & Hb & Htip & Hscript & Hwork & Hc & Hstatus & Hids & Hw)]; [by left|right].
  destruct (waiting_ids _ _ _ _ Hs Hc Hids) as [Htaken Hall]. rewrite Hid, Hids, taken_in_block in Hw by done.
  destruct (w_this _ _ _ _ Hw) as (stored' & Hf' & Hst').
  destruct (server_of_allowed _ _ _ _ _ Eserver) as (allowed & Hallowed & Hserver & Hsame).
  pose proof (Hsame pv (or_introl eq_refl)) as <-.
  exists pv, height, header, guessed, stored'. cbn zeta. split; [done|]. split; [done|]. split; [by exists allowed|].
  split; [done|]. split.
  { rewrite any_false in Eearly. specialize (Eearly pv (or_introl eq_refl)). rewrite Hb in Eearly. by destruct (checkpoint_for _ _). }
  split; [lia|]. split_and!; try done; apply Hw.
Qed.
End Taken.

(** ** Whatever happens to a watched address *)

Section Runs.
Context `{Bitcoin} `{Keys} `{Urls} {C : Type}.
Variables (parse_txid : string -> option string) (sha256 : string -> string) (address_script : string -> Network -> option string)
  (save : VaultPayload (WalletRecord C) -> result unit VaultError).
Implicit Types p : VaultPayload (WalletRecord C).

Definition healthy p : Prop :=
  News.wf p /\ forall record state, In record (wallets p) -> address_state record = Some state -> sound parse_txid state.

(** An older round a server answered: it is listed as the first is, and
    what it has that is not held goes on below what is. *)
Record continues (watch : AddressWatchState) (round : list AddressTx) : Prop := {
  c_listed : well_listed round;
  c_heights : forall tx h, In tx round -> at_height tx = Some h -> 0 < h <= tip_height watch;
  c_canonical : forall tx, In tx round -> parse_txid (at_txid tx) = Some (at_txid tx);
  c_below : forall x y, In x (txs watch) -> In y round -> ~ In (at_txid y) (List.map at_txid (txs watch)) -> newer_first x y;
}.

Inductive address_step : VaultPayload (WalletRecord C) -> VaultPayload (WalletRecord C) -> Prop :=
| Synced fetch begun p relegated its_meta endpoints took now instant p' relegated' res :
    (forall endpoint held watch, fetch endpoint held = Ok (Some watch) -> sound parse_txid watch) ->
    sync_address_wallet save fetch begun p relegated its_meta endpoints took now instant = (p', relegated', res) ->
    address_step p p'
| OlderLoaded fetch tor begun p relegated id live instant p' relegated' res :
    (forall endpoint asked cursor round next record watch,
       find_record begun id = Ok asked -> and_then (address_state asked) history_cursor = Some cursor ->
       fetch endpoint cursor = Ok (round, next) ->
       find_record p id = Ok record -> address_state record = Some watch -> continues watch round) ->
    load_more_history save fetch tor begun p relegated id live instant = (p', relegated', res) ->
    address_step p p'
| ForetoldTaken p id proven took now stored address p' res :
    find_record p id = Ok stored -> m_kind (meta stored) = WalletKind.SingleAddress address ->
    take_confirmations parse_txid sha256 address_script save (fun p _ _ _ _ => (p, Ok None)) p id proven took now = (p', res) ->
    address_step p p'.

Lemma healthy_written p p' id state now_ : healthy p -> sound parse_txid state -> (forall r, now_ r -> address_state r = Some state) ->
  written p p' id now_ -> healthy p'.
Proof.
  intros [_ Hall] Hs Hnow Hw. split; [apply Hw|]. intros r s Hr Hst. apply (w_all _ _ _ _ Hw) in Hr as [Hr|Hr%Hnow]; [by eapply Hall|].
  rewrite Hst in Hr. by injection Hr as ->.
Qed.

Lemma find_record_In p id r : find_record p id = Ok r -> In r (wallets p).
Proof. intros Hf. by apply find_record_Ok, find_map_first in Hf as [? _]. Qed.

Lemma healthy_applied p its_meta watch endpoint took complete now : healthy p ->
  (forall stored, find_record p (m_id its_meta) = Ok stored -> sound parse_txid (kept_state stored watch)) ->
  healthy (apply_address_state save p its_meta watch endpoint took complete now).1.
Proof.
  intros Hp Hs. destruct (find_record p (m_id its_meta)) as [stored|e] eqn:Ef.
  - destruct (apply_address_state _ _ _ _ _ _ _ _) as [q res] eqn:Ea. pose proof Ea as [Hw _]%(apply_right _ _ _ _ _ _ _ _ stored); [|apply Hp|done].
    eapply healthy_written; [done| | |exact Hw]; [by apply Hs|by intros r [? _]].
  - unfold apply_address_state. by rewrite Ef.
Qed.

Lemma added_sound watch round cursor : sound parse_txid watch -> continues watch round -> sound parse_txid (add_round watch round cursor).1.
Proof.
  intros Hw Hc. cbn [add_round fst]. set (fresh := retain _ round).
  assert (Hin : forall tx, In tx fresh <-> In tx round /\ ~ In (at_txid tx) (List.map at_txid (txs watch)))
    by (intros tx; unfold fresh; by rewrite retain_In, negb_true_iff, bool_decide_eq_false, ids_In).
  assert (Hsub : sublist fresh round) by apply retain_sublist. destruct (c_listed _ _ Hc) as [Hn Hsort].
  split; cbn [txs tip_height]; [|apply Hw| |].
  - apply well_listed_app; [apply Hw| |].
    + split; [eapply sublist_NoDup; [exact Hn|by apply sublist_map]|by eapply StronglySorted_sublist].
    + intros x y Hx [Hy Hnot]%Hin. assert (Hne : at_txid x <> at_txid y) by (intros Heq; apply Hnot; rewrite <- Heq; by apply in_map).
      split; [by apply (c_below _ _ Hc)|done].
  - intros tx h [Htx|[Htx _]%Hin]%in_app_iff; [by apply Hw|by apply Hc].
  - intros tx [Htx|[Htx _]%Hin]%in_app_iff; [by apply Hw|by apply Hc].
Qed.

Lemma synced_healthy fetch begun p relegated its_meta endpoints took now instant : healthy p ->
  (forall endpoint held watch, fetch endpoint held = Ok (Some watch) -> sound parse_txid watch) ->
  healthy (sync_address_wallet save fetch begun p relegated its_meta endpoints took now instant).1.1.
Proof.
  intros Hp Hfetch. unfold sync_address_wallet. destruct (find_record begun _) as [old|]; [|done].
  destruct (first_answer _ _ _) as [attempts [[endpoint [watch|]]|]] eqn:Ef; [|done..].
  apply first_answer_asked in Ef as [_ Hw%Hfetch]. pose proof (healthy_applied p its_meta watch endpoint took true now Hp) as Ha.
  destruct (apply_address_state _ _ _ _ _ _ _ _) as [q [rep|e]]; apply Ha; intros stored Hst; unfold kept_state.
  all: destruct (address_state stored) as [previous|] eqn:Es; [|done]; apply keep_sound; [done|].
  all: eapply (proj2 Hp); [by eapply find_record_In|done].
Qed.

Lemma loaded_healthy fetch tor begun p relegated id live instant : healthy p ->
  (forall endpoint asked cursor round next record watch,
     find_record begun id = Ok asked -> and_then (address_state asked) history_cursor = Some cursor ->
     fetch endpoint cursor = Ok (round, next) ->
     find_record p id = Ok record -> address_state record = Some watch -> continues watch round) ->
  healthy (load_more_history save fetch tor begun p relegated id live instant).1.1.
Proof.
  intros Hp Hfetch. unfold load_more_history. destruct (find_record begun id) as [old|] eqn:Eold; [|done].
  destruct (m_kind _); [done|]. destruct (and_then _ _) as [cursor|] eqn:Ecursor; [|done].
  destruct (chain_setup _ _) as [config certs]. destruct (result_bind _ _) as [endpoints|]; [|done].
  destruct (first_answer _ _ _) as [attempts [[endpoint [round next]]|]] eqn:Ef; [|done].
  destruct (find_record p id) as [stored|] eqn:Es; [|done]. destruct (address_state stored) as [watch|] eqn:Ew; [|done].
  apply first_answer_asked in Ef as [_ Ef]. pose proof (find_record_In _ _ _ Es) as Hin.
  pose proof (added_sound watch round next (proj2 Hp _ _ Hin Ew) (Hfetch _ _ _ _ _ _ _ eq_refl Ecursor Ef eq_refl Ew)) as Hadd.
  destruct (add_round watch round next) as [grown added]. cbn [fst] in Hadd. set (grow := fun r : WalletRecord C => _).
  assert (Hgrown : healthy (set_wallets p (update_first (named id) grow (wallets p)))).
  { split; [by apply (wf_wallets p), Hp|]. intros r s Hr Hst. apply updated_In in Hr as [Hr|(o & _ & ->)]; [by eapply (proj2 Hp)|].
    cbn in Hst. by injection Hst as <-. }
  by destruct (saved _ _).
Qed.

Lemma taken_healthy p its_meta address proven top server took now stored : healthy p -> find_record p (m_id its_meta) = Ok stored ->
  top_chain (m_network its_meta) proven = Some top ->
  healthy (take_address parse_txid sha256 address_script save p its_meta address proven top server took now).1.
Proof.
  intros Hp Hfind Htop. unfold take_address. rewrite Hfind. destruct (address_state stored) as [watch|] eqn:Ew; [|done].
  destruct proven as [|pv [|? ?]]; [done| |done]. destruct (negb _); [done|]. destruct (bool_decide _); [done|].
  apply top_of_one in Htop as (-> & _ & _ & height & header & Hb & Hh & _). rewrite Hb.
  destruct (foretells _ _ _) as [guessed|]; [|done]. destruct (Z.ltb_spec height (tip_height watch)); [done|].
  pose proof (healthy_applied p its_meta (taken_state parse_txid watch (waiting_txids (address_history parse_txid watch)) height (h_time header) (last_height (headers pv)))
    server took false now Hp) as Ha.
  destruct (apply_address_state _ _ _ _ _ _ _ _) as [q [rep|e]]; apply Ha; rewrite Hfind; intros ? [= <-].
  all: unfold kept_state; rewrite Ew; pose proof (proj2 Hp _ _ (find_record_In _ _ _ Hfind) Ew) as Hs; apply keep_sound; [|done].
  all: apply confirm_sound; [done|lia].
Qed.

Lemma step_healthy p p' : address_step p p' -> healthy p -> healthy p'.
Proof.
  intros Hstep Hp. destruct Hstep as [fetch begun p relegated its_meta endpoints took now instant p' relegated' res Hfetch Hrun
    |fetch tor begun p relegated id live instant p' relegated' res Hfetch Hrun|p id proven took now stored address p' res Hfind Hkind Hrun].
  - pose proof (synced_healthy fetch begun p relegated its_meta endpoints took now instant Hp Hfetch) as Ha. by rewrite Hrun in Ha.
  - pose proof (loaded_healthy fetch tor begun p relegated id live instant Hp Hfetch) as Ha. by rewrite Hrun in Ha.
  - unfold take_confirmations in Hrun. rewrite Hfind in Hrun. cbn zeta in Hrun. cbn [chain_setup] in Hrun.
    destruct (server_of _ _ _ _) as [server|]; [|by injection Hrun as <- _]. destruct (top_chain _ _) as [top|] eqn:Etop; [|by injection Hrun as <- _].
    destruct (any _ _); [by injection Hrun as <- _|]. rewrite Hkind in Hrun.
    assert (Hid : m_id (meta stored) = id) by (apply find_record_Ok, find_map_first in Hfind as [_ Hn]; by apply bool_decide_eq_true_1 in Hn).
    rewrite <- Hid in Hfind. pose proof (taken_healthy p (meta stored) address proven top server took now stored Hp Hfind Etop) as Ha. by rewrite Hrun in Ha.
Qed.

(** C13: Whatever the syncs of watched addresses, the older rounds loaded
    and the confirmations taken from the live watch, in any order, whether
    the vault is saved or not, and whatever the vault became while a
    server was asked: every watched address stays one a screen can show,
    each txid once and the newest first, each confirmation between the
    first block and the tip, as long as what the servers answer is, an
    older round for what the wallet it was asked for holds by then; and
    the news stay within their bounds. *)
Theorem watched_addresses_stay_sound p p' : rtc address_step p p' -> healthy p -> healthy p'.
Proof. induction 1 as [|p q r Hstep _ IH]; [done|]. intros Hp. by apply IH, (step_healthy p q). Qed.
End Runs.

(** ** The theorems at work *)

Section Demo.
#[local] Existing Instances Confirm.demo_bitcoin Endpoints.catalogue_urls Xpub.Demo.demo_keys.

Definition demo_watch : AddressWatchState :=
  {| txs := [paged "aa" None; paged "bb" (Some 100)]; utxos := []; tip_height := 900; truncated := false; history_cursor := None |}.
Definition signet_meta : WalletMeta :=
  {| m_id := "w"; m_name := "Watch"; m_icon := WalletIcon_; m_network := Signet; m_kind := WalletKind.SingleAddress "tb1q";
     m_recognized_as := Address; m_created_at := 1; m_gap_limit := 20; m_scan_gap := 20; m_labels := ∅;
     m_last_sync := Some {| ss_at := 5; ss_tip_height := 900; ss_backend := "mempool.space"; ss_server := None |};
     m_complete_at := Some 5; m_cached := {| ct_balance := demo_balance; ct_tx_count := 2 |}; m_live_pinned := false |}.
Definition demo_payload : VaultPayload (WalletRecord unit) :=
  set_wallets default_payload [{| meta := signet_meta; changeset := None; address_state := Some demo_watch |}].
Definition demo_server : Endpoint := Endpoint.Esplora (nth 0 (rotation Signet) "").
Definition demo_proven : @Bursts.Proven Header Endpoint :=
  {| pv_script := "0014ab"; pv_status := history_status (fun text => text) [("bb", 100); ("aa", 901)]; txids := ["aa"];
     headers := {| h_first := 901; chain := [demo_block 901] |}; pv_server := demo_server |}.

Abbreviation demo_take := (take_confirmations (C := unit) Some (fun text => text) (fun _ _ => Some "0014ab") (fun _ => Ok tt)
  (fun p _ _ _ _ => (p, Ok None)) demo_payload "w" [demo_proven] 3 7).

Definition demo_after : VaultPayload (WalletRecord unit) := Eval vm_compute in demo_take.1.

Lemma demo_healthy : healthy Some demo_payload.
Proof.
  split; [split; simpl; [lia..|done|constructor]|]. intros r s [<-|[]] [= <-]. split; [|cbn; lia| |done].
  - split; [apply (bool_decide_eq_true_1 (NoDup _)); vm_compute; reflexivity|repeat constructor].
  - intros tx h [<-|[<-|[]]] [= <-]. cbn. lia.
Defined.

Lemma foretold_only_on_proof_witness : exists report, demo_take = (demo_after, Ok (Some report))
  /\ exists r, find_record demo_after "w" = Ok r /\ address_state r
    = Some {| txs := [tx_in_block 901 (h_time (demo_block 901)) (paged "aa" None); paged "bb" (Some 100)]; utxos := []; tip_height := 901;
              truncated := false; history_cursor := None |}.
Proof.
  eexists. split; [vm_compute; reflexivity|].
  epose proof (foretold_only_on_proof Some (fun text => text) (fun _ _ => Some "0014ab") (fun _ => Ok tt) (fun p _ _ _ _ => (p, Ok None))
    demo_payload "w" [demo_proven] 3 7 _ demo_watch "tb1q" demo_after _ (proj1 demo_healthy) eq_refl eq_refl eq_refl
    (proj2 demo_healthy _ _ (or_introl eq_refl) eq_refl)) as Hp.
  edestruct Hp as [[Hsame _]|(pv & height & header & guessed & stored' & [= <-] & [= <- <-] & _ & _ & _ & _ & _ & _ & _ & _ & Hf & [Hst _] & _)];
    [vm_compute; reflexivity|discriminate Hsame|].
  exists stored'. exact (conj Hf Hst).
Defined.

(** Two watched addresses, one with older transactions to load. *)
Definition busy_watch : AddressWatchState :=
  {| txs := txs demo_watch; utxos := []; tip_height := 900; truncated := true; history_cursor := Some "bb" |}.
Definition other_meta : WalletMeta :=
  {| m_id := "v"; m_name := "Other"; m_icon := WalletIcon_; m_network := Signet; m_kind := WalletKind.SingleAddress "tb1p";
     m_recognized_as := Address; m_created_at := 1; m_gap_limit := 20; m_scan_gap := 20; m_labels := ∅;
     m_last_sync := None; m_complete_at := None; m_cached := {| ct_balance := demo_balance; ct_tx_count := 1 |}; m_live_pinned := false |}.
Definition other_watch : AddressWatchState :=
  {| txs := [paged "dd" (Some 10)]; utxos := []; tip_height := 20; truncated := false; history_cursor := None |}.
Definition busy_payload : VaultPayload (WalletRecord unit) :=
  set_wallets default_payload [{| meta := signet_meta; changeset := None; address_state := Some busy_watch |};
                               {| meta := other_meta; changeset := None; address_state := Some other_watch |}].
Definition demo_older (endpoint : Endpoint) (cursor : string) : result (list AddressTx * option string) Fault :=
  if bool_decide (cursor = "bb") then Ok ([paged "bb" (Some 100); paged "cc" (Some 50)], None) else Err (other "no such page").
Abbreviation demo_load := (load_more_history (C := unit) (fun _ => Ok tt) demo_older (fun _ => Ok tt) busy_payload busy_payload ∅ "w" None 7).
Definition busy_after : VaultPayload (WalletRecord unit) := Eval vm_compute in demo_load.1.1.

Lemma busy_healthy : healthy Some busy_payload.
Proof.
  split; [split; simpl; [lia..|done|constructor]|]. intros r s [<-|[<-|[]]] [= <-].
  - split; [apply (proj2 demo_healthy _ _ (or_introl eq_refl) eq_refl)|cbn; lia| |done]. intros tx h [<-|[<-|[]]] [= <-]. cbn. lia.
  - split; [|cbn; lia| |done].
    + split; [apply (bool_decide_eq_true_1 (NoDup _)); vm_compute; reflexivity|repeat constructor].
    + intros tx h [<-|[]] [= <-]. cbn. lia.
Qed.

Lemma demo_continues : continues Some busy_watch [paged "bb" (Some 100); paged "cc" (Some 50)].
Proof.
  split; [split; [apply (bool_decide_eq_true_1 (NoDup _)); vm_compute; reflexivity|repeat constructor; cbn; done]| |done|].
  - intros tx h [<-|[<-|[]]] [= <-]; cbn; lia.
  - intros x y [<-|[<-|[]]] [<-|[<-|[]]]; cbn; try done; try lia; intros Hn; destruct Hn; auto.
Qed.

Lemma watched_addresses_stay_sound_witness :
  rtc (address_step (C := unit) Some (fun text => text) (fun _ _ => Some "0014ab") (fun _ => Ok tt)) busy_payload busy_after
  /\ List.map (fun r => option_map (fun s => List.map at_txid (txs s)) (address_state r)) (wallets busy_after) = [Some ["aa"; "bb"; "cc"]; Some ["dd"]]
  /\ healthy Some busy_after.
Proof.
  assert (Hrun : rtc (address_step (C := unit) Some (fun text => text) (fun _ _ => Some "0014ab") (fun _ => Ok tt)) busy_payload busy_after).
  { apply rtc_once. eapply (OlderLoaded _ _ _ _ demo_older (fun _ => Ok tt) busy_payload busy_payload ∅ "w" None 7); [|vm_compute; reflexivity].
    intros endpoint asked cursor round next record watch [= <-] [= <-] [= <- <-] [= <-] [= <-]. exact demo_continues. }
  split; [exact Hrun|]. split; [vm_compute; reflexivity|].
  eapply watched_addresses_stay_sound; [exact Hrun|exact busy_healthy].
Defined.
End Demo.
