(* ===== verification/Engines.v ===== *)
(** [manager/mod.rs], the helpers of the manager: what the vault holds of a
    wallet and the engine it is watched with, what is refused before one
    is built, and the engines kept in memory. The engine is BDK's: a
    parameter, as its change sets are. *)
From S2P Require Import Prelude Utf8 Text Errors Network Xpub PolicyModel Descriptors Store Addresses Syncs AddressSyncs.

(** ** BDK and the addresses of the bitcoin crate *)

Class Bdk `{Miniscript} := {
  Wallet : Type;
  ChangeSet : Type;
  (** [Wallet::create(external, internal)], or of one descriptor, on a
      network; an error without words is
      [DescriptorError::ExternalAndInternalAreTheSame]. *)
  create_wallet : Desc -> option Desc -> BitcoinNetwork -> result Wallet (option string);
  load_wallet : ChangeSet -> BitcoinNetwork -> result (option Wallet) string;
  take_staged : Wallet -> option ChangeSet * Wallet;
  merge : ChangeSet -> ChangeSet -> ChangeSet;
  (** The heights of the blocks of its chain, from the tip; the change set
      that takes those heights out. *)
  checkpoints : Wallet -> list Z;
  without_blocks : list Z -> ChangeSet;
  Addr : Type;
  parse_address : string -> result Addr string;
  is_valid_for_network : Addr -> BitcoinNetwork -> bool;
  address_text : Addr -> string;
}.

#[export] Instance WalletKind_eq_dec : EqDecision WalletKind.
Proof. solve_decision. Defined.

Section Material.
Context `{Keys} `{Bdk}.

Abbreviation WalletRecord := (WalletRecord ChangeSet).
Abbreviation Payload := (VaultPayload WalletRecord).

(** ** What a wallet is made of *)

Definition as_descriptor_error (error : CoreError) : CoreError :=
  match error with InvalidInput _ detail => Errors.Descriptor detail | other => other end.

Definition map_err {A E F} (f : E -> F) (r : result A E) : result A F := match r with Ok a => Ok a | Err e => Err (f e) end.

Definition require_public_descriptor (descriptor : string) : CoreResult Desc :=
  let? _ := reject_private_material descriptor in
  map_err as_descriptor_error (read_descriptor descriptor).

Definition read_pair (external : string) (internal : option string) : CoreResult (Desc * option Desc) :=
  let? external := require_public_descriptor external in
  match internal with
  | None => Ok (external, None)
  | Some internal =>
    let? internal := require_public_descriptor internal in
    let? _ := map_err as_descriptor_error (check_stored_pair external internal) in
    Ok (external, Some internal)
  end.

Definition BARE_REFUSED : string :=
  "a bare descriptor has no address, so it cannot be watched; Gerfaut watches pkh, wpkh, sh, wsh and tr descriptors".
Definition SAME_FIRST_ADDRESS : string := "the two descriptors begin with the same address; change needs a path of its own".

Definition create_engine (external : string) (internal : option string) (network : Network) : CoreResult Wallet :=
  let? both := read_pair external internal in
  if bool_decide (desc_type both.1 = DescriptorType.Bare) then Err (Errors.Descriptor BARE_REFUSED)
  else map_err (fun e => Errors.Descriptor (unwrap_or e SAME_FIRST_ADDRESS)) (create_wallet both.1 both.2 (Network.to_bitcoin network)).

(** The names of the networks, as a person reads them. *)
Definition network_mismatch (expected : Network) (found : list Network) : CoreError :=
  let names := List.map Network.as_str found in
  let found := match rev names with
               | [] => "no network Gerfaut knows"
               | [last] => last
               | last :: rest => join ", " (rev rest) +:+ " or " +:+ last
               end in
  NetworkMismatch (Network.as_str expected) found.

Definition check_address (address : string) (network : Network) : CoreResult unit :=
  match parse_address address with
  | Err e => Err (InvalidInput "address" e)
  | Ok address =>
    if is_valid_for_network address (Network.to_bitcoin network) then Ok tt
    else Err (network_mismatch network (retain (fun candidate => is_valid_for_network address (Network.to_bitcoin candidate)) Network.ALL))
  end.

Definition engine_for (kind : WalletKind) (network : Network) : CoreResult (option Wallet) :=
  match kind with
  | WalletKind.Descriptors external internal _ => let? engine := create_engine external internal network in Ok (Some engine)
  | WalletKind.SingleAddress address => let? _ := check_address address network in Ok None
  end.

Definition check_one (network : Network) (descriptor : Desc) : CoreResult unit :=
  let? networks := map_err as_descriptor_error (descriptor_networks descriptor) in
  if negb (bool_decide (network ∈ networks)) then Err (network_mismatch network networks)
  else if is_multipath descriptor then Err (Errors.Descriptor "a stored descriptor cannot hold both branches in one")
  else map_err Errors.Descriptor (sanity_check descriptor).

Definition check_material (kind : WalletKind) (network : Network) : CoreResult unit :=
  match kind with
  | WalletKind.Descriptors external internal _ =>
    let? both := read_pair external internal in
    let? _ := check_one network both.1 in
    match both.2 with Some internal => check_one network internal | None => Ok tt end
  | WalletKind.SingleAddress address => check_address address network
  end.

(** ** The records *)

Definition same_material (network : Network) (kind : WalletKind) (record : WalletRecord) : bool :=
  bool_decide (m_network (meta record) = network) && bool_decide (m_kind (meta record) = kind).

Definition find_watched (payload : Payload) (network : Network) (kind : WalletKind) : option WalletRecord :=
  List.find (same_material network kind) (wallets payload).

(** A uuid drawn, and the clock. *)
Definition fresh_meta (uuid : string) (now : Z) (name : string) (network : Network) (kind : WalletKind) (recognized_as : RecognizedKind)
  (gap_limit : Z) : WalletMeta :=
  {| m_id := uuid; m_name := name; m_icon := WalletIcon_; m_network := network; m_kind := kind; m_recognized_as := recognized_as;
     m_created_at := now; m_gap_limit := gap_limit; m_scan_gap := 0; m_labels := ∅; m_last_sync := None; m_complete_at := None;
     m_cached := {| ct_balance := {| b_confirmed := 0; trusted_pending := 0; untrusted_pending := 0; immature := 0; b_total := 0; pending_net_sats := None |};
                    ct_tx_count := 0 |};
     m_live_pinned := false |}.

Definition record_with (meta : WalletMeta) (engine : option Wallet) : CoreResult (WalletRecord * option Wallet) :=
  match engine with
  | None => Ok ({| AddressSyncs.meta := meta; changeset := None; address_state := None |}, None)
  | Some engine =>
    match take_staged engine with
    | (Some changeset, engine) => Ok ({| AddressSyncs.meta := meta; changeset := Some changeset; address_state := None |}, Some engine)
    | (None, _) => Err (Errors.Internal "new wallet produced no initial change set")
    end
  end.

Definition build_record (meta : WalletMeta) : CoreResult (WalletRecord * option Wallet) :=
  let? engine := engine_for (m_kind meta) (m_network meta) in record_with meta engine.

(** ** The engines in memory *)

(** [ManagerState]: the vault in memory and the engines loaded so far. *)
Record ManagerState := { payload : Payload; engines : gmap string Wallet }.

Definition put_engine (state : ManagerState) (id : string) (engine : Wallet) : ManagerState :=
  {| payload := payload state; engines := <[id := engine]> (engines state) |}.
Definition set_payload (state : ManagerState) (p : Payload) : ManagerState := {| payload := p; engines := engines state |}.

Definition ensure_engine (state : ManagerState) (id : string) : ManagerState * CoreResult Wallet :=
  match engines state !! id with
  | Some engine => (state, Ok engine)
  | None =>
    let loaded :=
      let? record := find_record (payload state) id in
      match changeset record with
      | None => Err (Errors.Internal ("wallet " +:+ id +:+ " has no stored change set"))
      | Some stored =>
        match load_wallet stored (Network.to_bitcoin (m_network (meta record))) with
        | Err e => Err (Errors.Internal ("vault change set rejected: " +:+ e))
        | Ok None => Err (Errors.Internal ("wallet " +:+ id +:+ " change set holds no wallet"))
        | Ok (Some engine) => Ok engine
        end
      end in
    match loaded with Ok engine => (put_engine state id engine, Ok engine) | Err e => (state, Err e) end
  end.

Definition merge_into (staged : ChangeSet) (record : WalletRecord) : WalletRecord :=
  {| meta := meta record;
     changeset := Some match changeset record with Some aggregate => merge aggregate staged | None => staged end;
     address_state := address_state record |}.

Definition merge_changeset (state : ManagerState) (id : string) (staged : ChangeSet) : CoreResult ManagerState :=
  let? next := find_record_mut (payload state) id (merge_into staged) in Ok (set_payload state next).

(** [take_while] of the heights, from the tip. *)
Fixpoint heights_above (height : Z) (heights : list Z) : list Z :=
  match heights with
  | at_ :: heights => if at_ >? height then at_ :: heights_above height heights else []
  | [] => []
  end.

(** What the engine staged is taken from it before it is merged. *)
Definition drop_blocks_above (state : ManagerState) (id : string) (height : Z) : ManagerState * CoreResult unit :=
  match ensure_engine state id with
  | (state, Err e) => (state, Err e)
  | (state, Ok engine) =>
    match heights_above height (checkpoints engine) with
    | [] => (state, Ok tt)
    | above =>
      let '(staged, engine) := take_staged engine in
      let state := put_engine state id engine in
      match (match staged with Some staged => merge_changeset state id staged | None => Ok state end) with
      | Err e => (state, Err e)
      | Ok state =>
        match merge_changeset state id (without_blocks above) with
        | Err e => (state, Err e)
        | Ok state =>
          match ensure_engine {| payload := payload state; engines := delete id (engines state) |} id with
          | (state, Ok _) => (state, Ok tt)
          | (state, Err e) => (state, Err e)
          end
        end
      end
    end
  end.

(** ** What is watched *)

Lemma map_err_Ok {A E F} (f : E -> F) (r : result A E) a : map_err f r = Ok a -> r = Ok a.
Proof. by destruct r; [intros [= ->]|]. Qed.

Lemma public_read text d : require_public_descriptor text = Ok d -> reject_private_material text = Ok tt /\ read_descriptor text = Ok d.
Proof.
  unfold require_public_descriptor. destruct (reject_private_material text) as [[]|]; [|done]. cbn [result_bind]. intros Hd. split; [done|]. by eapply map_err_Ok.
Qed.

(** What an engine is built of holds no private key; its descriptors read,
    are not bare, and are two branches of one wallet; an address is one of
    the network. *)
Definition watchable (kind : WalletKind) (network : Network) : Prop :=
  match kind with
  | WalletKind.Descriptors external internal _ =>
    reject_private_material external = Ok tt
    /\ exists receive, read_descriptor external = Ok receive /\ desc_type receive <> DescriptorType.Bare
       /\ forall change, internal = Some change -> reject_private_material change = Ok tt
            /\ exists d, read_descriptor change = Ok d /\ check_stored_pair receive d = Ok tt
  | WalletKind.SingleAddress address => exists addr, parse_address address = Ok addr /\ is_valid_for_network addr (Network.to_bitcoin network) = true
  end.

Lemma pair_read external internal both : read_pair external internal = Ok both ->
  reject_private_material external = Ok tt /\ read_descriptor external = Ok both.1
  /\ forall change, internal = Some change -> reject_private_material change = Ok tt
       /\ exists d, both.2 = Some d /\ read_descriptor change = Ok d /\ check_stored_pair both.1 d = Ok tt.
Proof.
  unfold read_pair. destruct (require_public_descriptor external) as [d|] eqn:Ee; [|done]. cbn [result_bind]. apply public_read in Ee as [Pe Re].
  destruct internal as [change|]; [|intros [= <-]; by repeat split].
  destruct (require_public_descriptor change) as [c|] eqn:Ec; [|done]. cbn [result_bind]. apply public_read in Ec as [Pc Rc].
  destruct (map_err as_descriptor_error (check_stored_pair d c)) as [[]|] eqn:Ep; [|done]. cbn [result_bind]. intros [= <-].
  repeat (split; [done|]). intros change' [= <-]. split; [done|]. exists c. apply map_err_Ok in Ep. by repeat split.
Qed.

Lemma watch_only kind network engine : engine_for kind network = Ok engine -> watchable kind network /\ (is_some engine = true <-> exists e i s, kind = WalletKind.Descriptors e i s).
Proof.
  destruct kind as [external internal script|address]; cbn [engine_for watchable].
  - unfold create_engine. destruct (read_pair external internal) as [both|] eqn:Ep; [|done]. cbn [result_bind]. apply pair_read in Ep as (Pe & Re & Hi).
    case_bool_decide as Hb; [done|]. destruct (map_err _ _) as [e|]; [|done]. intros [= <-]. split; [|split; [by eauto|done]]. split; [done|].
    exists both.1. split; [done|]. split; [done|]. intros change Hc. destruct (Hi change Hc) as (Pc & d & _ & Rd & Hp). split; [done|]. by exists d.
  - unfold check_address. destruct (parse_address address) as [addr|]; [|done]. destruct (is_valid_for_network _ _) eqn:Ev; [|done].
    intros [= <-]. split; [by exists addr|]. split; [done|]. by intros (? & ? & ? & ?).
Qed.
End Material.
