(* ===== verification/CryptoOutput.v ===== *)
(** [input/qr.rs], the second half of a UR: the CBOR of a [crypto-output]
    or a [crypto-hdkey] (BCR-2020-010, BCR-2020-007) read as the text of a
    descriptor. CBOR, the points of the curve and the text of an extended
    key are other crates'. *)
From S2P Require Import Prelude Utf8 Text Errors Network Xpub Lock.
From Stdlib Require Import Ascii.

(** ** CBOR *)

(** [ciborium::Value]. *)
Module Value.
Inductive Value :=
| Integer (i : Z)
| Bytes (bytes : list Z)
| Float (text : string)
| Text (text : string)
| Bool (b : bool)
| Null
| Tag (tag : Z) (inner : Value)
| Array (items : list Value)
| Map (entries : list (Value * Value)).
End Value.
Export Value (Value).

(** What the classifier warns of. *)
Inductive InputWarning :=
| AssumedSegwit | Slip132Converted | ChangeNotTracked | MultipleAccountsInFile | NonStandardDerivation | AssumedBranches.

#[export] Instance InputWarning_eq_dec : EqDecision InputWarning.
Proof. solve_decision. Defined.

(** An extended public key, as the bitcoin crate's [Xpub] holds it; of
    its child number, the index and whether it is hardened. *)
Record ExtendedKey {PublicKey : Type} := {
  xk_network : NetworkKind;
  xk_depth : Z;
  xk_parent_fingerprint : Z;
  xk_child : Z * bool;
  xk_public_key : PublicKey;
  xk_chain_code : list Z;
}.
Arguments ExtendedKey : clear implicits.

(** [PublicKey::from_slice], and the text of an extended key. *)
Class Points := {
  PublicKey : Type;
  from_slice : list Z -> result PublicKey string;
  xpub_text : ExtendedKey PublicKey -> string;
}.

Definition qr_error (detail : string) : CoreError := InvalidInput "qr" detail.

(** ** Looking into a value *)

Definition as_u64 (value : Value) : option Z :=
  match value with Value.Integer i => if (0 <=? i) && (i <=? u64_max) then Some i else None | _ => None end.

Definition as_bool (value : Value) : option bool := match value with Value.Bool b => Some b | _ => None end.

Definition tagged (value : Value) : Value := match value with Value.Tag _ inner => inner | other => other end.

Definition map_get (map : Value) (key : Z) : option Value :=
  match map with
  | Value.Map entries => option_map snd (List.find (fun entry => bool_decide (as_u64 entry.1 = Some key)) entries)
  | _ => None
  end.

Definition as_u32 (value : Value) : option Z :=
  match as_u64 value with Some n => if n <=? u32_max then Some n else None | None => None end.

(** ** Paths *)

Module Component.
Inductive Component :=
| Index (index : Z) (hardened : bool)
| Wildcard (hardened : bool)
| Pair (low high : Z) (hardened : bool).
End Component.
Export Component (Component).

Definition child_index (value : Value) : CoreResult Z :=
  match as_u32 value with
  | Some index => if index <? 2 ^ 31 then Ok index else Err (qr_error "key path step out of range")
  | None => Err (qr_error "key path step out of range")
  end.

Definition fingerprint (value : Value) : CoreResult Z :=
  match as_u32 value with Some fp => Ok fp | None => Err (qr_error "key fingerprint out of range") end.

Definition component (item : Value) (hardened : bool) : CoreResult Component :=
  match item with
  | Value.Integer _ => let? index := child_index item in Ok (Component.Index index hardened)
  | Value.Array [] => Ok (Component.Wildcard hardened)
  | Value.Array [low; high] =>
    let? low := child_index low in
    let? high := child_index high in
    Ok (Component.Pair low high hardened)
  | _ => Err (qr_error "unsupported key path component")
  end.

(** By pairs, [chunks(2)]. *)
Fixpoint components_of (items : list Value) : CoreResult (list Component) :=
  match items with
  | [] => Ok []
  | [_] => Err (qr_error "key path with a dangling component")
  | item :: hardened :: items =>
    match as_bool hardened with
    | None => Err (qr_error "key path step without its hardened flag")
    | Some hardened =>
      let? component := component item hardened in
      let? rest := components_of items in
      Ok (component :: rest)
    end
  end.

Definition keypath_components (value : Value) : CoreResult (list Component) :=
  match value with
  | Value.Array items => components_of items
  | _ => Err (qr_error "key path is not an array")
  end.

Definition tick (hardened : bool) : string := if hardened then "'" else "".

Definition render_component (c : Component) : string :=
  match c with
  | Component.Index index hardened => dec index +:+ tick hardened
  | Component.Wildcard hardened => "*" +:+ tick hardened
  | Component.Pair low high hardened => "<" +:+ dec low +:+ tick hardened +:+ ";" +:+ dec high +:+ tick hardened +:+ ">"
  end.

Definition render_components (components : list Component) : string := join "/" (List.map render_component components).

(** ** Keys *)

(** [{fp:08x}]: the four bytes of the integer. *)
Definition be_bytes (n : Z) : list Z := [n / 2 ^ 24 mod 256; n / 2 ^ 16 mod 256; n / 2 ^ 8 mod 256; n mod 256].

(** [map(..).transpose()?]. *)
Definition transposed {A} (o : option Value) (f : Value -> CoreResult A) : CoreResult (option A) :=
  match o with None => Ok None | Some value => let? a := f value in Ok (Some a) end.

Section Keys.
Context `{Points}.

Definition is_private (map : Value) : bool := bool_decide (match map_get map 2 with Some flag => as_bool flag | None => None end = Some true).

Definition network_of (map : Value) : CoreResult NetworkKind :=
  match match map_get map 5 with Some info => map_get (tagged info) 2 | None => None end with
  | None => Ok Main
  | Some code =>
    match as_u64 code with
    | Some 0 => Ok Main
    | Some 1 => Ok Test
    | _ => Err (qr_error "hdkey for a network this format does not name")
    end
  end.

Definition depth_of (origin : option Value) (components : option (list Component)) : CoreResult Z :=
  match (match match origin with Some o => map_get o 3 | None => None end with
         | Some depth => as_u64 depth
         | None => Some match components with Some c => Z.of_nat (length c) | None => 0 end
         end) with
  | Some depth => if depth <=? u8_max then Ok depth else Err (qr_error "hdkey deeper than a key can be")
  | None => Err (qr_error "hdkey deeper than a key can be")
  end.

(** The indexes are below 2^31: [ChildNumber] takes each. *)
Definition child_of (components : option (list Component)) : Z * bool :=
  match match components with Some c => list.last c | None => None end with
  | Some (Component.Index index hardened) => (index, hardened)
  | _ => (0, false)
  end.

Definition hdkey_parts (map : Value) : CoreResult (string * option string) :=
  if is_private map then Err PrivateMaterialRejected
  else
    match map_get map 3 with
    | Some (Value.Bytes key_data) =>
      match map_get map 4 with
      | Some (Value.Bytes chain_code) =>
        match from_slice key_data with
        | Err e => Err (qr_error ("invalid key data: " +:+ e))
        | Ok public_key =>
          if negb (length chain_code =? 32)%nat then Err (qr_error "chain code must be 32 bytes")
          else
            let? network := network_of map in
            let origin := option_map tagged (map_get map 6) in
            let? components := transposed (match origin with Some o => map_get o 1 | None => None end) keypath_components in
            let? source_fingerprint := transposed (match origin with Some o => map_get o 2 | None => None end) fingerprint in
            let? depth := depth_of origin components in
            let? parent := transposed (map_get map 8) fingerprint in
            let xpub := {| xk_network := network; xk_depth := depth; xk_parent_fingerprint := unwrap_or parent 0;
                           xk_child := child_of components; xk_public_key := public_key; xk_chain_code := chain_code |} in
            let origin_text := match source_fingerprint, components with
                               | Some fp, Some ((_ :: _) as components) => "[" +:+ hex (be_bytes fp) +:+ "/" +:+ render_components components +:+ "]"
                               | Some fp, _ => "[" +:+ hex (be_bytes fp) +:+ "]"
                               | None, _ => ""
                               end in
            let? children := match match map_get map 7 with Some c => map_get (tagged c) 1 | None => None end with
                             | Some components =>
                               let? components := keypath_components components in
                               Ok match components with [] => None | _ => Some ("/" +:+ render_components components) end
                             | None => Ok None
                             end in
            Ok (origin_text +:+ xpub_text xpub, children)
        end
      | _ => Err (qr_error "hdkey without chain code")
      end
    | _ => Err (qr_error "hdkey without key data")
    end.

Definition TAG_SH : Z := 400.
Definition TAG_WSH : Z := 401.
Definition TAG_PK : Z := 402.
Definition TAG_PKH : Z := 403.
Definition TAG_WPKH : Z := 404.
Definition TAG_MULTI : Z := 406.
Definition TAG_SORTED_MULTI : Z := 407.
Definition TAG_TR : Z := 409.
Definition TAG_HDKEY : Z := 303.
Definition TAG_ECKEY : Z := 306.

Definition BRANCHES : string := "/<0;1>/*".

(** The warnings noted go along with the text. *)
Definition key_expression (value : Value) (warnings : list InputWarning) : CoreResult (string * list InputWarning) :=
  match value with
  | Value.Tag tag inner =>
    if tag =? TAG_HDKEY then
      let? parts := hdkey_parts inner in
      let '(key, children) := parts in
      match children with
      | Some children => Ok (key +:+ children, warnings)
      | None =>
        Ok (key +:+ BRANCHES, if bool_decide (AssumedBranches ∈ warnings) then warnings else warnings ++ [AssumedBranches])
      end
    else if tag =? TAG_ECKEY then
      if is_private inner then Err PrivateMaterialRejected
      else
        match map_get inner 3 with
        | Some (Value.Bytes data) =>
          if (length data =? 33)%nat || (length data =? 65)%nat then Ok (hex data, warnings)
          else if (length data =? 32)%nat then Err PrivateMaterialRejected
          else Err (qr_error "EC key of a length no public key has")
        | _ => Err (qr_error "EC key without data")
        end
    else Err (qr_error "unsupported key in crypto-output")
  | _ => Err (qr_error "unsupported key in crypto-output")
  end.

Fixpoint key_expressions (keys : list Value) (warnings : list InputWarning) : CoreResult (list string * list InputWarning) :=
  match keys with
  | [] => Ok ([], warnings)
  | key :: keys =>
    let? first := key_expression key warnings in
    let? rest := key_expressions keys first.2 in
    Ok (first.1 :: rest.1, rest.2)
  end.

Definition wrapped_key (name : string) (inner : Value) (warnings : list InputWarning) : CoreResult (string * list InputWarning) :=
  let? key := key_expression inner warnings in Ok (name +:+ "(" +:+ key.1 +:+ ")", key.2).

Fixpoint crypto_output_to_descriptor (value : Value) (warnings : list InputWarning) : CoreResult (string * list InputWarning) :=
  match value with
  | Value.Tag tag inner =>
    if (tag =? TAG_SH) || (tag =? TAG_WSH) then
      let? wrapped := crypto_output_to_descriptor inner warnings in
      Ok ((if tag =? TAG_SH then "sh" else "wsh") +:+ "(" +:+ wrapped.1 +:+ ")", wrapped.2)
    else if tag =? TAG_PK then wrapped_key "pk" inner warnings
    else if tag =? TAG_PKH then wrapped_key "pkh" inner warnings
    else if tag =? TAG_WPKH then wrapped_key "wpkh" inner warnings
    else if tag =? TAG_TR then wrapped_key "tr" inner warnings
    else if (tag =? TAG_MULTI) || (tag =? TAG_SORTED_MULTI) then
      match match map_get inner 1 with Some t => as_u64 t | None => None end with
      | None => Err (qr_error "multisig without a threshold")
      | Some threshold =>
        match map_get inner 2 with
        | Some (Value.Array keys) =>
          let? keys := key_expressions keys warnings in
          Ok ((if tag =? TAG_MULTI then "multi" else "sortedmulti") +:+ "(" +:+ dec threshold +:+ "," +:+ join "," keys.1 +:+ ")", keys.2)
        | _ => Err (qr_error "multisig without keys")
        end
      end
    else Err (qr_error ("unsupported crypto-output tag " +:+ dec tag))
  | _ => Err (qr_error "crypto-output must start with a script tag")
  end.
End Keys.

(** ** Properties *)

(** The keys a [crypto-output] writes, in order. *)
Fixpoint keys_in (value : Value) : list Value :=
  match value with
  | Value.Tag tag inner =>
    if (tag =? TAG_SH) || (tag =? TAG_WSH) then keys_in inner
    else if (tag =? TAG_PK) || (tag =? TAG_PKH) || (tag =? TAG_WPKH) || (tag =? TAG_TR) then [inner]
    else if (tag =? TAG_MULTI) || (tag =? TAG_SORTED_MULTI)
    then match map_get inner 2 with Some (Value.Array keys) => keys | _ => [] end
    else []
  | _ => []
  end.

Section Right.
Context `{Points}.

(** A key nobody can spend with. *)
Definition public_key (key : Value) : Prop :=
  exists map, is_private map = false
  /\ ((key = Value.Tag TAG_HDKEY map /\ exists data point, map_get map 3 = Some (Value.Bytes data) /\ from_slice data = Ok point)
      \/ (key = Value.Tag TAG_ECKEY map /\ exists data, map_get map 3 = Some (Value.Bytes data) /\ (length data = 33 \/ length data = 65)%nat)).

(** Where a key comes from, in brackets: the fingerprint the code gives, and
    the path after it; nothing, without a fingerprint. *)
Definition path_named (map : Value) (path : list Component) : Prop :=
  match match map_get map 6 with Some o => map_get (tagged o) 1 | None => None end with
  | Some value => keypath_components value = Ok path
  | None => path = []
  end.
Definition origin_written (map : Value) (path : list Component) (origin : string) : Prop :=
  match match map_get map 6 with Some o => map_get (tagged o) 2 | None => None end with
  | Some value => exists fp, fingerprint value = Ok fp
      /\ origin = "[" +:+ hex (be_bytes fp) +:+ match path with [] => "" | _ => "/" +:+ render_components path end +:+ "]"
  | None => origin = ""
  end.

(** The children a key names, if it names any. *)
Definition branches_named (map : Value) (branches : option (list Component)) : Prop :=
  match branches with
  | Some components => components <> [] /\ exists c value, map_get map 7 = Some c /\ map_get (tagged c) 1 = Some value
                        /\ keypath_components value = Ok components
  | None => forall c value, map_get map 7 = Some c -> map_get (tagged c) 1 = Some value -> value = Value.Array []
  end.

Definition names_no_branch (key : Value) : Prop := exists map, key = Value.Tag TAG_HDKEY map /\ branches_named map None.

(** How a key is written, and whether its branches are assumed. *)
Inductive key_written : Value -> string -> bool -> Prop :=
| AccountKey map data chain xpub path origin branches :
    is_private map = false -> map_get map 3 = Some (Value.Bytes data) -> from_slice data = Ok (xk_public_key xpub) ->
    map_get map 4 = Some (Value.Bytes chain) -> length chain = 32%nat -> xk_chain_code xpub = chain ->
    network_of map = Ok (xk_network xpub) -> path_named map path -> xk_child xpub = child_of (Some path) ->
    origin_written map path origin -> branches_named map branches ->
    key_written (Value.Tag TAG_HDKEY map)
      (origin +:+ xpub_text xpub +:+ match branches with Some components => "/" +:+ render_components components | None => "/<0;1>/*" end)
      (negb (is_some branches))
| BareKey map data :
    is_private map = false -> map_get map 3 = Some (Value.Bytes data) -> (length data = 33 \/ length data = 65)%nat ->
    key_written (Value.Tag TAG_ECKEY map) (hex data) false.

(** How a script is written, and whether the branches of a key of it are
    assumed. *)
Inductive script_written : Value -> string -> bool -> Prop :=
| WrappedScript tag name inner text assumed :
    In (tag, name) [(TAG_SH, "sh"); (TAG_WSH, "wsh")] -> script_written inner text assumed ->
    script_written (Value.Tag tag inner) (name +:+ "(" +:+ text +:+ ")") assumed
| SingleKey tag name key text assumed :
    In (tag, name) [(TAG_PK, "pk"); (TAG_PKH, "pkh"); (TAG_WPKH, "wpkh"); (TAG_TR, "tr")] -> key_written key text assumed ->
    script_written (Value.Tag tag key) (name +:+ "(" +:+ text +:+ ")") assumed
| SeveralKeys tag name inner t threshold keys written :
    In (tag, name) [(TAG_MULTI, "multi"); (TAG_SORTED_MULTI, "sortedmulti")] ->
    map_get inner 1 = Some t -> as_u64 t = Some threshold -> map_get inner 2 = Some (Value.Array keys) ->
    Forall2 (fun key w => key_written key w.1 w.2) keys written ->
    script_written (Value.Tag tag inner) (name +:+ "(" +:+ dec threshold +:+ "," +:+ join "," (List.map fst written) +:+ ")")
      (any snd written).

(** What is warned of once branches are assumed, or not. *)
Definition warned (assumed : bool) (warnings : list InputWarning) : list InputWarning :=
  if assumed && negb (bool_decide (AssumedBranches ∈ warnings)) then warnings ++ [AssumedBranches] else warnings.

Lemma warned_twice a b warnings : warned b (warned a warnings) = warned (a || b) warnings.
Proof.
  unfold warned. destruct a; cbn [andb orb]; [|done]. destruct b; cbn [andb]; [|done].
  destruct (bool_decide (AssumedBranches ∈ warnings)) eqn:E; cbn [negb]; [by rewrite E|]. by rewrite bool_decide_true by set_solver.
Qed.

Lemma warned_In assumed warnings : In AssumedBranches (warned assumed warnings) <-> In AssumedBranches warnings \/ assumed = true.
Proof.
  unfold warned. destruct assumed; cbn [andb]; [|split; [by left|by intros [?|?]]].
  case_bool_decide as Hin; cbn [negb]; [apply list_elem_of_In in Hin; split; auto|]. rewrite in_app_iff. split; [auto|]. intros _. right. by left.
Qed.

Lemma components_none items : components_of items = Ok [] -> items = [].
Proof.
  destruct items as [|item [|hardened rest]]; cbn [components_of]; [done..|]. destruct (as_bool hardened); [|done].
  destruct (component item b); [|done]. cbn [result_bind]. by destruct (components_of rest).
Qed.

Lemma keypath_none value : keypath_components value = Ok [] -> value = Value.Array [].
Proof. destruct value; try done. cbn [keypath_components]. by intros ->%components_none. Qed.

(** What is read of the account of a key. *)
Lemma hdkey_right map text children : hdkey_parts map = Ok (text, children) ->
  exists data chain xpub path origin branches,
    is_private map = false /\ map_get map 3 = Some (Value.Bytes data) /\ from_slice data = Ok (xk_public_key xpub)
    /\ map_get map 4 = Some (Value.Bytes chain) /\ length chain = 32%nat /\ xk_chain_code xpub = chain
    /\ network_of map = Ok (xk_network xpub) /\ path_named map path /\ xk_child xpub = child_of (Some path)
    /\ origin_written map path origin /\ branches_named map branches /\ text = origin +:+ xpub_text xpub
    /\ children = option_map (fun components => "/" +:+ render_components components) branches.
Proof.
  unfold hdkey_parts. destruct (is_private map); [done|].
  destruct (map_get map 3) as [[]|]; try done. destruct (map_get map 4) as [[]|]; try done.
  destruct (from_slice bytes) as [point|] eqn:Ep; [|done]. destruct (Nat.eqb_spec (length bytes0) 32) as [Hlen|]; [|done]. cbn [negb].
  destruct (network_of map) as [network|] eqn:En; [|done]. cbn [result_bind]. unfold path_named, origin_written.
  set (o := option_map tagged (map_get map 6)).
  assert (Ho : forall k, match map_get map 6 with Some o => map_get (tagged o) k | None => None end = match o with Some o => map_get o k | None => None end)
    by (intros k; unfold o; by destruct (map_get map 6)).
  setoid_rewrite Ho. clear Ho. generalize o. clear o. intros o.
  destruct (transposed (match o with Some o => map_get o 1 | None => None end) keypath_components) as [components|] eqn:Ec; [|done]. cbn [result_bind].
  destruct (transposed (match o with Some o => map_get o 2 | None => None end) fingerprint) as [source|] eqn:Ef; [|done]. cbn [result_bind].
  destruct (depth_of o components) as [depth|]; [|done]. cbn [result_bind]. destruct (transposed (map_get map 8) fingerprint) as [parent|]; [|done].
  cbn [result_bind]. match goal with |- (let? _ := ?e in _) = _ -> _ => destruct e as [cs|] eqn:Eb end; [|done]. cbn [result_bind].
  match goal with |- context [xpub_text ?x] => set (xpub := x) end. intros [= <- <-].
  eexists bytes, bytes0, xpub, (unwrap_or components []), _.
  assert (Hb : exists branches, branches_named map branches /\ cs = option_map (fun components => "/" +:+ render_components components) branches).
  { unfold branches_named. destruct (map_get map 7) as [c|]; [|injection Eb as <-; by exists None].
    destruct (map_get (tagged c) 1) as [value|] eqn:Ev; [|injection Eb as <-; exists None; split; [|done]; intros ? ? [= <-]; congruence].
    destruct (keypath_components value) as [l|] eqn:El; [|done]. cbn [result_bind] in Eb. injection Eb as <-. destruct l as [|x l].
    - exists None. split; [|done]. intros ? ? [= <-]. rewrite Ev. intros [= <-]. by apply keypath_none.
    - exists (Some (x :: l)). split; [|done]. split; [done|]. by exists c, value. }
  destruct Hb as (branches & Hbr & ->). exists branches. split; [done|]. split; [done|]. split; [exact Ep|]. split; [done|]. split; [done|]. split; [reflexivity|].
  split; [done|]. split; [|split; [|split; [|split; [exact Hbr|split; [reflexivity|done]]]]].
  - destruct (match o with Some o => map_get o 1 | None => None end) as [value|]; cbn [transposed] in Ec; [|by injection Ec as <-].
    destruct (keypath_components value); [|done]. by injection Ec as <-.
  - by destruct components.
  - destruct (match o with Some o => map_get o 2 | None => None end) as [value|]; cbn [transposed] in Ef; [|by injection Ef as <-].
    destruct (fingerprint value) as [fp|]; [|done]. injection Ef as <-. exists fp. split; [done|]. by destruct components as [[|]|].
Qed.

Lemma key_expression_right value warnings text warnings' : key_expression value warnings = Ok (text, warnings') ->
  exists assumed, key_written value text assumed /\ warnings' = warned assumed warnings.
Proof.
  unfold key_expression. destruct value as [| | | | | |tag inner| |]; try done.
  destruct (Z.eqb_spec tag TAG_HDKEY) as [->|_]; [|destruct (Z.eqb_spec tag TAG_ECKEY) as [->|_]; [|done]].
  - destruct (hdkey_parts inner) as [[key children]|] eqn:E; [|done]. cbn [result_bind].
    apply hdkey_right in E as (data & chain & xpub & path & origin & branches & H1 & H2 & H3 & H4 & H5 & H6 & H7 & H8 & H9 & H10 & H11 & -> & ->).
    pose proof (AccountKey inner data chain xpub path origin branches H1 H2 H3 H4 H5 H6 H7 H8 H9 H10 H11) as Hk.
    destruct branches as [components|]; cbn [option_map]; intros [= <- <-]; rewrite str_app_assoc; (eexists; split; [exact Hk|]); [done|].
    unfold warned. cbn. by case_bool_decide.
  - destruct (is_private inner) eqn:Ep; [done|]. destruct (map_get inner 3) as [[]|] eqn:Ed; try done.
    destruct ((length bytes =? 33)%nat || (length bytes =? 65)%nat) eqn:El; [|by destruct (length bytes =? 32)%nat].
    intros [= <- <-]. exists false. split; [|done]. apply BareKey; [done..|]. apply orb_true_iff in El as [?%Nat.eqb_eq|?%Nat.eqb_eq]; auto.
Qed.

Lemma key_expressions_right keys : forall warnings texts warnings', key_expressions keys warnings = Ok (texts, warnings') ->
  exists written, Forall2 (fun key w => key_written key w.1 w.2) keys written /\ texts = List.map fst written
    /\ warnings' = warned (any snd written) warnings.
Proof.
  induction keys as [|key keys IH]; intros warnings texts warnings'; cbn [key_expressions].
  { intros [= <- <-]. exists []. split; [constructor|done]. }
  destruct (key_expression key warnings) as [[text w1]|] eqn:E1; [|done]. cbn [result_bind snd fst].
  destruct (key_expressions keys w1) as [[rest w2]|] eqn:E2; [|done]. cbn [result_bind snd fst]. intros [= <- <-].
  apply key_expression_right in E1 as (a & Hk & ->). apply IH in E2 as (written & Hks & -> & ->). exists ((text, a) :: written).
  split; [by constructor|]. split; [done|]. apply warned_twice.
Qed.

Lemma wrapped_key_right name inner warnings text warnings' : wrapped_key name inner warnings = Ok (text, warnings') ->
  exists key assumed, key_written inner key assumed /\ text = name +:+ "(" +:+ key +:+ ")" /\ warnings' = warned assumed warnings.
Proof.
  unfold wrapped_key. destruct (key_expression inner warnings) as [[t w]|] eqn:E; [|done].
  cbn [result_bind fst snd]. intros [= <- <-]. apply key_expression_right in E as (a & Hk & ->). by exists t, a.
Qed.

Lemma output_right value : forall warnings text warnings', crypto_output_to_descriptor value warnings = Ok (text, warnings') ->
  exists assumed, script_written value text assumed /\ warnings' = warned assumed warnings.
Proof.
  assert (Hone : forall tag name inner warnings text warnings', In (tag, name) [(TAG_PK, "pk"); (TAG_PKH, "pkh"); (TAG_WPKH, "wpkh"); (TAG_TR, "tr")] ->
    wrapped_key name inner warnings = Ok (text, warnings') ->
    exists assumed, script_written (Value.Tag tag inner) text assumed /\ warnings' = warned assumed warnings).
  { intros tag name inner warnings text warnings' Hin (key & a & Hk & -> & ->)%wrapped_key_right. exists a. split; [by apply SingleKey|done]. }
  induction value as [| | | | | |tag inner IH| |]; try done. cbn [crypto_output_to_descriptor]. intros warnings text warnings'.
  destruct ((tag =? TAG_SH) || (tag =? TAG_WSH)) eqn:Ew.
  { destruct (crypto_output_to_descriptor inner warnings) as [[t w]|] eqn:E; [|done]. cbn [result_bind fst snd]. intros [= <- <-].
    destruct (IH _ _ _ E) as (a & Ha & ->). exists a. split; [|done]. apply WrappedScript; [|done].
    destruct (Z.eqb_spec tag TAG_SH) as [->|]; [by left|]. destruct (Z.eqb_spec tag TAG_WSH) as [->|]; [|done]. right. by left. }
  destruct (Z.eqb_spec tag TAG_PK) as [->|]; [apply Hone; simpl; auto|]. destruct (Z.eqb_spec tag TAG_PKH) as [->|]; [apply Hone; simpl; auto|].
  destruct (Z.eqb_spec tag TAG_WPKH) as [->|]; [apply Hone; simpl; auto|]. destruct (Z.eqb_spec tag TAG_TR) as [->|]; [apply Hone; simpl; auto|].
  destruct ((tag =? TAG_MULTI) || (tag =? TAG_SORTED_MULTI)) eqn:Em; [|done].
  destruct (map_get inner 1) as [t|] eqn:E1; [|done]. destruct (as_u64 t) as [threshold|] eqn:Et; [|done].
  destruct (map_get inner 2) as [[]|] eqn:E2; try done.
  destruct (key_expressions items warnings) as [[texts w]|] eqn:E; [|done]. cbn [result_bind fst snd]. intros [= <- <-].
  apply key_expressions_right in E as (written & Hks & -> & ->). exists (any snd written). split; [|done].
  eapply SeveralKeys; [|exact E1|exact Et|exact E2|exact Hks].
  destruct (Z.eqb_spec tag TAG_MULTI) as [->|]; [by left|]. destruct (Z.eqb_spec tag TAG_SORTED_MULTI) as [->|]; [|done]. right. by left.
Qed.

Lemma key_public key text assumed : key_written key text assumed -> public_key key /\ (assumed = true <-> names_no_branch key).
Proof.
  destruct 1 as [map data chain xpub path origin branches Hp Hd Hs _ _ _ _ _ _ _ Hb|map data Hp Hd Hl].
  - split; [exists map; split; [done|left; split; [done|]; by exists data, (xk_public_key xpub)]|]. destruct branches as [components|]; cbn.
    + split; [done|]. intros (m & [= <-] & Hn). destruct Hb as (Hne & c & value & Hc & Hv & Hk). rewrite (Hn _ _ Hc Hv) in Hk. by injection Hk as <-.
    + split; [|done]. intros _. by exists map.
  - split; [exists map; split; [done|right; split; [done|]; by exists data]|]. split; [done|]. by intros (m & [=] & _).
Qed.

Lemma script_keys value text assumed : script_written value text assumed ->
  (forall key, In key (keys_in value) -> public_key key) /\ (assumed = true <-> exists key, In key (keys_in value) /\ names_no_branch key).
Proof.
  induction 1 as [tag name inner text a Htag _ IH|tag name key text a Htag Hk|tag name inner t threshold keys written Htag _ _ Hkeys Hw].
  - replace (keys_in (Value.Tag tag inner)) with (keys_in inner) by (by repeat destruct Htag as [[= <- <-]|Htag]). exact IH.
  - replace (keys_in (Value.Tag tag key)) with [key] by (by repeat destruct Htag as [[= <- <-]|Htag]). apply key_public in Hk as [Hp ->].
    split; [by intros x [<-|[]]|]. split; [intros Hn; exists key; split; [by left|done]|by intros (k & [<-|[]] & Hn)].
  - replace (keys_in (Value.Tag tag inner)) with keys
      by (repeat destruct Htag as [[= <- <-]|Htag]; [..|done]; cbn -[map_get]; by rewrite Hkeys).
    clear Htag Hkeys. induction Hw as [|key w keys written Hk _ IH].
    { split; [by intros x []|]. split; [done|by intros (? & [] & _)]. }
    apply key_public in Hk as [Hp Ha]. destruct IH as [Hps Has]. split; [by intros x [<-|]; auto|].
    change (w.2 || any snd written = true <-> exists k, In k (key :: keys) /\ names_no_branch k). rewrite orb_true_iff, Ha, Has. split.
    + intros [Hn|(k & Hin & Hn)]; [exists key|exists k]; simpl; auto.
    + intros (k & [<-|Hin] & Hn); [by left|right; by exists k].
Qed.

(** C26: A script read out of a QR code is written as the code says, and holds
    public keys only. Its text is that of its tags around its keys, in
    order: a bare key in hex, marked as no private key and as long as a
    public one; an account as its origin, its extended key, over a point
    of the curve and the chain code given, and the children it names. An
    account that names none is written with the two branches of a wallet,
    and then, and only then, a warning says so, once, after those there
    were. *)
Theorem only_public_keys_written value : forall warnings text warnings', crypto_output_to_descriptor value warnings = Ok (text, warnings') ->
  (forall key, In key (keys_in value) -> public_key key)
  /\ exists assumed, script_written value text assumed /\ warnings' = warned assumed warnings
    /\ (assumed = true <-> exists key, In key (keys_in value) /\ names_no_branch key)
    /\ (In AssumedBranches warnings' <-> In AssumedBranches warnings \/ exists key, In key (keys_in value) /\ names_no_branch key).
Proof.
  intros warnings text warnings' (assumed & Hs & ->)%output_right. destruct (script_keys _ _ _ Hs) as [Hp Ha]. split; [done|].
  exists assumed. split; [done|]. split; [done|]. split; [done|]. by rewrite warned_In, Ha.
Qed.
End Right.

(** ** The text of a path *)

Definition in_range (c : Component) : Prop :=
  match c with
  | Component.Index index _ => 0 <= index < 2 ^ 31
  | Component.Wildcard _ => True
  | Component.Pair low high _ => 0 <= low < 2 ^ 31 /\ 0 <= high < 2 ^ 31
  end.

Lemma child_index_range value index : child_index value = Ok index -> 0 <= index < 2 ^ 31.
Proof.
  unfold child_index, as_u32, as_u64. destruct value; try done. destruct ((0 <=? i) && _) eqn:E; [|done].
  apply andb_true_iff in E as [E _]. destruct (i <=? u32_max); [|done]. destruct (Z.ltb_spec i (2 ^ 31)); [|done]. intros [= <-]. lia.
Qed.

Lemma component_range item hardened c : component item hardened = Ok c -> in_range c.
Proof.
  destruct item as [| | | | | | |[|low [|high []]]|]; cbn [component]; try done.
  - destruct (child_index _) eqn:E; [|done]. intros [= <-]. by apply child_index_range in E.
  - by intros [= <-].
  - destruct (child_index low) eqn:E1; [|done]. destruct (child_index high) eqn:E2; [|done]. intros [= <-].
    split; by eapply child_index_range.
Qed.

Lemma keypath_range value components : keypath_components value = Ok components -> Forall in_range components.
Proof.
  destruct value as [| | | | | | |items|]; try done. cbn [keypath_components]. revert components.
  induction items as [items IH] using (induction_ltof1 _ (@length Value)). intros components.
  destruct items as [|item [|hardened rest]]; cbn [components_of]; [by intros [= <-]|done|].
  destruct (as_bool hardened) as [h|]; [|done]. destruct (component item h) as [c|] eqn:Ec; [|done].
  destruct (components_of rest) as [cs|] eqn:Er; [|done]. cbn [result_bind]. intros [= <-].
  constructor; [by eapply component_range|]. eapply IH; [|exact Er]. unfold ltof. cbn. lia.
Qed.

Lemma dec_lacks_byte c n : is_digit c = false -> 0 <= n -> lacks c (dec n) = true.
Proof. intros Hc Hn. apply digits_lack; [done|by apply dec_digits]. Qed.

Lemma tick_lacks c h : (c =? "'")%char = false -> lacks c (tick h) = true.
Proof. intros Hc. destruct h; [|done]. unfold lacks, tick. cbn [str_all]. by rewrite Ascii.eqb_sym, Hc. Qed.

Lemma ticked_inj i j h g : 0 <= i -> 0 <= j -> dec i +:+ tick h = dec j +:+ tick g -> i = j /\ h = g.
Proof.
  intros Hi Hj E. assert (h = g) as <-.
  { apply (f_equal (lacks "'")) in E. rewrite !lacks_app, !dec_lacks_byte in E by done. by destruct h, g. }
  apply str_app_inj_r, dec_inj in E; [by split|done..].
Qed.

Lemma render_lacks_slash c : in_range c -> lacks "/" (render_component c) = true.
Proof.
  destruct c as [i h|h|l u h]; cbn [render_component in_range]; intros Hr.
  - by rewrite lacks_app, dec_lacks_byte, tick_lacks by (done || lia).
  - by destruct h.
  - rewrite !lacks_app, !dec_lacks_byte, !tick_lacks by (done || lia). done.
Qed.

Lemma render_component_inj c d : in_range c -> in_range d -> render_component c = render_component d -> c = d.
Proof.
  assert (Hpair : forall l u h, 0 <= l -> 0 <= u -> lacks "<" (render_component (Component.Pair l u h)) = false) by done.
  assert (Hidx : forall i h, 0 <= i -> lacks "<" (render_component (Component.Index i h)) = true /\ lacks "*" (render_component (Component.Index i h)) = true).
  { intros i h Hi. cbn [render_component]. by rewrite !lacks_app, !dec_lacks_byte, !tick_lacks by done. }
  destruct c as [i h|h|l u h], d as [j g|g|m v g]; cbn [in_range]; intros Hc Hd E.
  - cbn [render_component] in E. apply ticked_inj in E as [-> ->]; [done|lia..].
  - destruct (Hidx i h ltac:(lia)) as [_ Hl]. rewrite E in Hl. by destruct g.
  - destruct (Hidx i h ltac:(lia)) as [Hl _]. by rewrite E in Hl.
  - destruct (Hidx j g ltac:(lia)) as [_ Hl]. rewrite <- E in Hl. by destruct h.
  - by destruct h, g.
  - by destruct h.
  - destruct (Hidx j g ltac:(lia)) as [Hl _]. by rewrite <- E in Hl.
  - by destruct g.
  - cbn [render_component] in E. injection E as E. rewrite <- !(str_app_assoc _ (tick _)) in E. cbn [String.append] in E.
    assert (Hs : forall n x, 0 <= n -> lacks ";" (dec n +:+ tick x) = true).
    { intros n x Hn. by rewrite lacks_app, dec_lacks_byte, tick_lacks. }
    apply (f_equal (split_once ";")) in E. rewrite !split_once_app in E by (apply Hs; lia). injection E as E1 E2.
    apply ticked_inj in E1 as [-> ->]; [|lia..]. apply str_app_inj_r in E2. apply ticked_inj in E2 as [-> _]; [done|lia..].
Qed.

Lemma render_nonempty c : in_range c -> render_component c <> "".
Proof.
  destruct c as [i h|h|l u h]; cbn [render_component in_range]; intros Hc; try done.
  pose proof (dec_nonempty i ltac:(lia)) as Hn. by destruct (dec i).
Qed.

(** Two paths of a QR code written alike are one path: no step is lost or
    joined with the next, and every index is one a key can derive. *)
Lemma paths_written_apart value value' components components' :
  keypath_components value = Ok components -> keypath_components value' = Ok components' ->
  render_components components = render_components components' -> components = components'.
Proof.
  intros Hc%keypath_range Hd%keypath_range. unfold render_components. intros E.
  assert (Hmap : List.map render_component components = List.map render_component components').
  { assert (Hl : forall l, Forall in_range l -> Forall (fun s => lacks "/" s = true) (List.map render_component l)).
    { intros l Hall. apply List.Forall_map. eapply List.Forall_impl; [|exact Hall]. apply render_lacks_slash. }
    apply (f_equal (split "/")) in E.
    destruct components as [|c cs], components' as [|d ds]; [done|..].
    - rewrite (split_join "/" (List.map render_component (d :: ds))) in E by (done || by apply Hl). cbn in E. injection E as E _. apply list.Forall_cons in Hd as [Hd _].
      by destruct (render_nonempty d).
    - rewrite (split_join "/" (List.map render_component (c :: cs))) in E by (done || by apply Hl). cbn in E. injection E as E _. apply list.Forall_cons in Hc as [Hc _].
      by destruct (render_nonempty c).
    - by rewrite !split_join in E by (done || by apply Hl). }
  clear E. revert components' Hd Hmap. induction Hc as [|c cs Hc _ IH]; intros [|d ds] Hd Hmap; try done.
  cbn in Hmap. injection Hmap as E1 E2. apply list.Forall_cons in Hd as [Hd Hds].
  f_equal; [by apply render_component_inj|by apply IH].
Qed.

(** ** An example: a native SegWit script over a key of its own bytes *)

Module Demo.
#[global] Instance demo_points : Points := { PublicKey := list Z; from_slice := fun data => Ok data; xpub_text := fun _ => "xpub" }.

Definition account : Value :=
  Value.Tag TAG_HDKEY (Value.Map [(Value.Integer 2, Value.Bool false); (Value.Integer 3, Value.Bytes (repeat 2 33)); (Value.Integer 4, Value.Bytes (repeat 0 32));
                                  (Value.Integer 6, Value.Tag 304 (Value.Map [(Value.Integer 1, Value.Array [Value.Integer 84; Value.Bool true]);
                                                                             (Value.Integer 2, Value.Integer 2597398912)]))]).
Definition script : Value := Value.Tag TAG_WPKH account.
End Demo.

Lemma only_public_keys_written_witness :
  crypto_output_to_descriptor Demo.script [] = Ok ("wpkh([9ad12980/84']xpub/<0;1>/*)", [AssumedBranches])
  /\ (forall key, In key (keys_in Demo.script) -> public_key key)
  /\ exists assumed, script_written Demo.script "wpkh([9ad12980/84']xpub/<0;1>/*)" assumed /\ [AssumedBranches] = warned assumed [].
Proof.
  assert (Hrun : crypto_output_to_descriptor Demo.script [] = Ok ("wpkh([9ad12980/84']xpub/<0;1>/*)", [AssumedBranches])) by (vm_compute; reflexivity).
  split; [exact Hrun|]. destruct (only_public_keys_written _ _ _ _ Hrun) as (Hp & assumed & Hs & Hw & _).
  split; [exact Hp|]. exists assumed. exact (conj Hs Hw).
Defined.
