(* ===== verification/Qr.v ===== *)
(** [input/qr.rs], the scans: the frames of a QR code, in any order, put
    back into the text they carry. The fountain decoder of a UR, deflate
    and the encodings in base 16, 32 and 64 are other crates'; a lock
    taken back from a thread that panicked is left out. *)
From S2P Require Import Prelude Utf8 Text Errors Network Xpub Connect Lock Cipher CryptoOutput.
From Stdlib Require Import Ascii.

(** The other crates: CBOR, whole and field by field; the encodings; at
    most so many bytes of what compressed bytes inflate to; the parts of a
    UR, and the fountain they fill, which keeps what it took even of a
    frame it turns away. *)
Class Envelopes `{Points} := {
  cbor : list Z -> result Value string;
  cbor_array : list Z -> option (option Z * list Z);
  cbor_u32 : list Z -> option (Z * list Z);
  BASE64_encode : list Z -> string;
  HEXUPPER_PERMISSIVE_decode : string -> option (list Z);
  BASE32_NOPAD_decode : string -> option (list Z);
  inflated : nat -> list Z -> option (list Z);
  (** Whether it is a part of several, and its bytes. *)
  ur_decode : string -> option (bool * list Z);
  part_indexes : list Z -> option nat;
  Fountain : Type;
  fountain : Fountain;
  receive : Fountain -> string -> Fountain * bool;
  fountain_complete : Fountain -> bool;
  fountain_message : Fountain -> option (option (list Z));
  fountain_type : Fountain -> option string;
  resolved_fragment_count : Fountain -> option Z;
}.

Inductive QrFormat := Plain | Ur | Bbqr.

Record QrProgress := {
  q_format : QrFormat;
  q_received : Z;
  q_total : Z;
  q_complete : bool;
  q_text : option string;
  q_warnings : list InputWarning;
}.

(** ** Refusals *)

Definition SHOW_INSTEAD : string :=
  "Show the code this screen asks for instead, such as a wallet export or a signed transaction.".

Definition not_read (what : string) : CoreError :=
  qr_error ("This QR code holds " +:+ what +:+ ", which Gerfaut does not read. " +:+ SHOW_INSTEAD).

Definition DAMAGED_FRAME : string := "Part of this QR code could not be read. Hold the camera steady on the code.".
Definition DAMAGED_PASTE : string :=
  "This text starts like a QR code but is cut short or damaged. Paste or open it again in full, or scan the code with the camera.".

Definition damaged_frame : CoreError := InvalidInput DAMAGED_KIND DAMAGED_FRAME.

Definition told_of_paste (error : CoreError) : CoreError :=
  match error with
  | InvalidInput kind _ => if bool_decide (kind = DAMAGED_KIND) then InvalidInput DAMAGED_KIND DAMAGED_PASTE else error
  | other => other
  end.

Definition ur_code (ur_type : string) : string := if bool_decide (ur_type = "bytes") then "UR code" else ur_type +:+ " code".

Definition unreadable (what : string) : CoreError :=
  qr_error ("This " +:+ what +:+ " came through, but what it holds is damaged or in a form Gerfaut does not read. Export it again from the wallet.").

Definition unsupported_ur_type (ur_type : string) : CoreError := not_read ("a " +:+ ur_type +:+ " record").

(** The same answer again. *)
Definition replay (outcome : CoreResult QrProgress) : CoreResult QrProgress :=
  match outcome with
  | Ok _ | Err (InvalidInput _ _) | Err (TooManyParts _) | Err (TooManyFrames _) | Err PrivateMaterialRejected => outcome
  | Err other => Err (qr_error (words other))
  end.

(** ** Envelopes *)

Definition is_ur (frame : string) : bool := starts_with "ur:" (lower (String.substring 0 3 frame)).

Definition is_envelope (frame : string) : bool := let frame := trim frame in is_ur frame || starts_with "B$" frame.

Definition opened_once (text : string) : CoreResult string :=
  if is_envelope text then Err (qr_error "This QR code holds another QR code, which no wallet makes.") else Ok text.

Definition ur_header (frame : string) : CoreResult (string * option Z) :=
  match strip_prefix "ur:" (lower frame) with
  | None => Err damaged_frame
  | Some rest =>
    match split_once "/" rest with
    | None => Err damaged_frame
    | Some (ur_type, rest) =>
      match split_once "/" rest with
      | None => Ok (ur_type, None)
      | Some (seq, _) =>
        match and_then (split_once "-" seq) (fun p => parse_u32 p.2) with
        | Some total => Ok (ur_type, Some total)
        | None => Err damaged_frame
        end
      end
    end
  end.

(** ** BBQr headers *)

Record BbqrHeader := { encoding : ascii; file_type : ascii; b_total : Z; b_index : Z }.

Definition digit36 (a : ascii) : option Z :=
  let n := Z.of_N (byte_of a) in
  if (48 <=? n) && (n <=? 57) then Some (n - 48)
  else if (97 <=? n) && (n <=? 122) then Some (n - 87)
  else if (65 <=? n) && (n <=? 90) then Some (n - 55)
  else None.

(** [u32::from_str_radix] of two characters, base 36: the standard library
    takes one leading plus sign, then digits. *)
Definition base36 (a b : ascii) : option Z :=
  if (a =? "+")%char then digit36 b
  else match digit36 a, digit36 b with Some h, Some l => Some (h * 36 + l) | _, _ => None end.

Definition bbqr_header (frame : string) : CoreResult (BbqrHeader * string) :=
  if negb (str_all is_ascii_byte frame) then Err damaged_frame
  else
    match strip_prefix "B$" frame with
    | Some (String encoding (String file_type (String t1 (String t2 (String i1 (String i2 payload)))))) =>
      match base36 t1 t2, base36 i1 i2 with
      | Some total, Some index =>
        if (total =? 0) || (index >=? total) then Err damaged_frame
        else Ok ({| encoding := encoding; file_type := file_type; b_total := total; b_index := index |}, payload)
      | _, _ => Err damaged_frame
      end
    | _ => Err damaged_frame
    end.

(** The refusal of one frame pasted as text. *)
Definition pasted_part (text : string) (total : Z) : CoreError :=
  let text := trim text in
  let part :=
    if is_ur text
    then and_then (split "/" text !! 1%nat) (fun indices => and_then (split_once "-" indices) (fun p => parse_u32 p.1))
    else match bbqr_header text with Ok (header, _) => Some (b_index header + 1) | Err _ => None end in
  qr_error
    match part with
    | Some part =>
      if (1 <=? part) && (part <=? total)
      then "This is part " +:+ dec part +:+ " of a " +:+ dec total +:+ "-part QR code. Scan the whole code with the camera instead."
      else "This is one frame of a " +:+ dec total +:+ "-part animated QR code. Scan the whole code with the camera instead."
    | None => "This is one frame of a " +:+ dec total +:+ "-part animated QR code. Scan the whole code with the camera instead."
    end.

(** ** Bounds *)

Definition MIN_SCAN_FRAMES : Z := 2000.
Definition MAX_SCAN_FRAMES : Z := 10000.
Definition MAX_UR_PARTS : Z := 5000.
Definition MAX_UR_MIX : Z := 128.
Definition MAX_INFLATED_LEN : nat := Z.to_nat 4000000.
Definition usize_max : Z := u64_max.

(** [(total * 3).clamp(..)], saturating. *)
Definition scan_frame_limit (total : Z) : Z := Z.min (Z.max (Z.min (total * 3) usize_max) MIN_SCAN_FRAMES) MAX_SCAN_FRAMES.

Definition announced_parts (first : string) : Z :=
  if is_ur first then match ur_header first with Ok (_, Some total) => total | _ => 0 end
  else match bbqr_header first with Ok (header, _) => b_total header | Err _ => 0 end.

(** ** URs *)

(** What every part of one code carries. *)
Record UrCode := { uc_type : string; uc_count : Z; uc_checksum : Z }.

#[export] Instance UrCode_eq_dec : EqDecision UrCode.
Proof. solve_decision. Defined.

Record UrPart := { up_type : string; up_count : Z; up_checksum : Z; up_cbor : list Z }.

Definition part_code (part : UrPart) : UrCode := {| uc_type := up_type part; uc_count := up_count part; uc_checksum := up_checksum part |}.

Definition UR_TYPES : list string := ["bytes"; "crypto-output"; "crypto-hdkey"; "crypto-psbt"; "psbt"].
Definition BACKUP_PREFIX : string := "gerfaut-backup:".

Section Scans.
Context `{Envelopes}.

Definition ur_part (frame : string) : option UrPart :=
  match ur_header frame with
  | Ok (ur_type, Some total) =>
    if negb ((1 <=? total) && (total <=? MAX_UR_PARTS)) then None
    else
      match ur_decode frame with
      | Some (true, cbor) =>
        match cbor_array cbor with
        | Some (Some 5, fields) =>
          and_then (cbor_u32 fields) (fun '(sequence, fields) =>
          and_then (cbor_u32 fields) (fun '(count, fields) =>
          and_then (cbor_u32 fields) (fun '(_, fields) =>
          and_then (cbor_u32 fields) (fun '(checksum, _) =>
            if (sequence >? 0) && (count =? total)
            then Some {| up_type := ur_type; up_count := count; up_checksum := checksum; up_cbor := cbor |} else None))))
        | _ => None
        end
      | _ => None
      end
  | _ => None
  end.

Definition mixes (part : UrPart) : Z := match part_indexes (up_cbor part) with Some n => Z.of_nat n | None => usize_max end.

(** [UrCode::holds]. *)
Definition holds (code : UrCode) (frame : string) : bool :=
  match ur_part (trim frame) with Some part => bool_decide (part_code part = code) | None => false end.

Definition ur_message_to_text (ur_type : string) (bytes : list Z) (warnings : list InputWarning) : CoreResult (string * list InputWarning) :=
  if bool_decide (ur_type = "bytes") then
    match cbor bytes with
    | Err e => Err (qr_error ("invalid ur:bytes payload: " +:+ e))
    | Ok (Value.Bytes raw) =>
      if bool_decide (take (length BACKUP_MAGIC) raw = BACKUP_MAGIC) then Ok (BACKUP_PREFIX +:+ BASE64_encode raw, warnings)
      else match from_utf8 raw with Some text => Ok (text, warnings) | None => Err (qr_error "ur:bytes is not text") end
    | Ok _ => Err (qr_error "ur:bytes does not hold a byte string")
    end
  else if bool_decide (ur_type = "crypto-output") then
    match cbor bytes with
    | Err e => Err (qr_error ("invalid crypto-output: " +:+ e))
    | Ok value => crypto_output_to_descriptor value warnings
    end
  else if bool_decide (ur_type = "crypto-hdkey") then
    match cbor bytes with
    | Err e => Err (qr_error ("invalid crypto-hdkey: " +:+ e))
    | Ok value => let? parts := hdkey_parts value in Ok (parts.1, warnings)
    end
  else if bool_decide (ur_type = "crypto-psbt" \/ ur_type = "psbt") then
    match cbor bytes with
    | Err e => Err (qr_error ("invalid crypto-psbt: " +:+ e))
    | Ok (Value.Bytes raw) => Ok (BASE64_encode raw, warnings)
    | Ok _ => Err (qr_error "crypto-psbt does not hold a byte string")
    end
  else Err (unsupported_ur_type ur_type).

Definition ur_progress (ur_type : string) (received total : Z) (message : option (list Z)) : CoreResult QrProgress :=
  if negb (bool_decide (ur_type ∈ UR_TYPES)) then Err (unsupported_ur_type ur_type)
  else
    match message with
    | None => Ok {| q_format := Ur; q_received := received; q_total := total; q_complete := false; q_text := None; q_warnings := [] |}
    | Some bytes =>
      match ur_message_to_text ur_type bytes [] with
      | Ok (text, warnings) =>
        Ok {| q_format := Ur; q_received := received; q_total := total; q_complete := true; q_text := Some text; q_warnings := warnings |}
      | Err (InvalidInput kind detail) => Err (if bool_decide (kind = "qr") then unreadable (ur_code ur_type) else InvalidInput kind detail)
      | Err other => Err other
      end
    end.

Record UrFold := { u_type : string; u_total : Z; decoder : Fountain; u_code : option UrCode; mixed : Z }.

Definition u_received (fold : UrFold) : Z := Z.min (wrap_u32 (unwrap_or (resolved_fragment_count (decoder fold)) 0)) (u_total fold).

Definition finish (fold : UrFold) : CoreResult QrProgress :=
  let ur_type := unwrap_or (fountain_type (decoder fold)) (u_type fold) in
  match fountain_message (decoder fold) with
  | None => Err (unreadable (ur_code ur_type))
  | Some message => ur_progress ur_type (u_received fold) (u_total fold) message
  end.

Definition partial (fold : UrFold) : QrProgress :=
  {| q_format := Ur; q_received := u_received fold; q_total := u_total fold; q_complete := false; q_text := None; q_warnings := [] |}.

(** [UrFold::take]. *)
Definition ur_take (fold : UrFold) (frame : string) : UrFold * option (CoreResult QrProgress) :=
  let fold :=
    match ur_part frame with
    | Some part =>
      if mixes part <=? MAX_UR_MIX then
        let '(decoder, taken) := receive (decoder fold) frame in
        if taken
        then {| u_type := u_type fold; u_total := u_total fold; decoder := decoder;
                u_code := Some (unwrap_or (u_code fold) (part_code part)); mixed := mixed fold + mixes part |}
        else {| u_type := u_type fold; u_total := u_total fold; decoder := decoder; u_code := u_code fold; mixed := mixed fold |}
      else fold
    | None => fold
    end in
  (fold, if fountain_complete (decoder fold) then Some (finish fold) else None).

(** ** BBQrs *)

Record BbqrFold := {
  bf_encoding : ascii;
  bf_file_type : ascii;
  bf_total : Z;
  parts : list (option string);
  bf_received : Z;
  outcome : option (CoreResult QrProgress);
}.

Definition decode_base32 (payload : string) : CoreResult (list Z) :=
  match BASE32_NOPAD_decode (trim_end_matches "=" payload) with
  | Some bytes => Ok bytes
  | None => Err (unreadable "BBQr code")
  end.

Definition UNPACKS_TOO_FAR : string :=
  "This QR code unpacks to far more than any wallet or transaction holds, so Gerfaut stopped reading it.".

(** [BbqrFold::decode]. *)
Definition bbqr_bytes (encoding : ascii) (joined : string) : CoreResult (list Z) :=
  if (encoding =? "H")%char then
    match HEXUPPER_PERMISSIVE_decode joined with Some bytes => Ok bytes | None => Err (unreadable "BBQr code") end
  else if (encoding =? "2")%char then decode_base32 joined
  else if (encoding =? "Z")%char then
    let? compressed := decode_base32 joined in
    match inflated (S MAX_INFLATED_LEN) compressed with
    | None => Err (unreadable "BBQr code")
    | Some text => if (MAX_INFLATED_LEN <? length text)%nat then Err (qr_error UNPACKS_TOO_FAR) else Ok text
    end
  else Err (unreadable "BBQr code").

Definition bbqr_text (file_type : ascii) (bytes : list Z) : CoreResult string :=
  if (file_type =? "P")%char then Ok (BASE64_encode bytes)
  else if (file_type =? "T")%char then Ok (hex bytes)
  else match from_utf8 bytes with Some text => Ok text | None => Err (unreadable "BBQr code") end.

Definition joined (parts : list (option string)) : string := String.concat "" (omap id parts).

Definition bbqr_decode (fold : BbqrFold) : CoreResult QrProgress :=
  let? bytes := bbqr_bytes (bf_encoding fold) (joined (parts fold)) in
  let? text := bbqr_text (bf_file_type fold) bytes in
  Ok {| q_format := Bbqr; q_received := bf_received fold; q_total := bf_total fold; q_complete := true;
        q_text := Some (trim text); q_warnings := [] |}.

Definition TWO_CODES : string := "Two different QR codes were in view at once. Show one code at a time.".

(** The slot a part fills. *)
Definition fill (fold : BbqrFold) (index : nat) (payload : string) : BbqrFold :=
  let filled := {| bf_encoding := bf_encoding fold; bf_file_type := bf_file_type fold; bf_total := bf_total fold;
                   parts := <[index := Some payload]> (parts fold); bf_received := bf_received fold + 1; outcome := outcome fold |} in
  if bf_received filled =? bf_total filled
  then {| bf_encoding := bf_encoding filled; bf_file_type := bf_file_type filled; bf_total := bf_total filled;
          parts := parts filled; bf_received := bf_received filled; outcome := Some (bbqr_decode filled) |}
  else filled.

(** [BbqrFold::take]: an index is below the total. *)
Definition bbqr_take (fold : BbqrFold) (frame : string) : BbqrFold * option (CoreResult QrProgress) :=
  match bbqr_header frame with
  | Err _ => (fold, None)
  | Ok (header, payload) =>
    if negb (b_total header =? bf_total fold) || negb (encoding header =? bf_encoding fold)%char || negb (file_type header =? bf_file_type fold)%char
    then (fold, None)
    else
      match parts fold !! Z.to_nat (b_index header) with
      | Some (Some seen) => if bool_decide (seen = payload) then (fold, None) else (fold, Some (Err (qr_error TWO_CODES)))
      | _ => (fill fold (Z.to_nat (b_index header)) payload, None)
      end
  end.

Definition bbqr_progress (fold : BbqrFold) : CoreResult QrProgress :=
  match outcome fold with
  | Some outcome => replay outcome
  | None => Ok {| q_format := Bbqr; q_received := bf_received fold; q_total := bf_total fold; q_complete := false; q_text := None; q_warnings := [] |}
  end.

(** ** Scans *)

Inductive Fold :=
| Empty
| Settled (answer : CoreResult QrProgress)
| Refused (answer : CoreResult QrProgress) (code : UrCode)
| UrOnItsWay (fold : UrFold)
| BbqrOnItsWay (fold : BbqrFold)
| Over.

(** [UrFold::settle]. *)
Definition settle (fold : UrFold) (answer : CoreResult QrProgress) : Fold :=
  match answer, u_code fold, fountain_message (decoder fold) with
  | Err _, Some code, Some (Some _) => Refused answer code
  | _, _, _ => Settled answer
  end.

Definition named (ur_type : string) : bool :=
  negb (bool_decide (ur_type = "")) && str_all (fun b => is_ascii_alphanumeric b || (b =? "-")%char) ur_type.

Definition ur_open (first : string) : Fold :=
  match ur_header first with
  | Err e => Settled (Err e)
  | Ok (ur_type, None) =>
    Settled match ur_decode first with
            | None => Err damaged_frame
            | Some (_, bytes) => ur_progress ur_type 1 1 (Some bytes)
            end
  | Ok (ur_type, Some total) =>
    if total =? 0 then Settled (Err damaged_frame)
    else if total >? MAX_UR_PARTS then Settled (Err (TooManyParts total))
    else if negb (bool_decide (ur_type ∈ UR_TYPES))
    then Settled (Err (if named ur_type then unsupported_ur_type ur_type else damaged_frame))
    else
      match ur_take {| u_type := ur_type; u_total := total; decoder := fountain; u_code := None; mixed := 0 |} first with
      | (fold, Some answer) => settle fold answer
      | (fold, None) => UrOnItsWay fold
      end
  end.

Definition NOT_DECODED : string :=
  "This BBQr code is encoded in a way Gerfaut does not read. Show it from the wallet as a UR or as plain text instead.".

Definition bbqr_kind (file_type : ascii) : string :=
  if (file_type =? "B")%char then "a binary file"
  else if (file_type =? "C")%char then "CBOR data"
  else if (file_type =? "X")%char then "an executable file"
  else "a file of BBQr type " +:+ String file_type "".

Definition bbqr_open (first : string) : Fold :=
  match bbqr_header first with
  | Err e => Settled (Err e)
  | Ok (header, _) =>
    if negb (one_of "UJPT" (file_type header)) then Settled (Err (not_read (bbqr_kind (file_type header))))
    else if negb (one_of "H2Z" (encoding header)) then Settled (Err (qr_error NOT_DECODED))
    else
      match bbqr_take {| bf_encoding := encoding header; bf_file_type := file_type header; bf_total := b_total header;
                         parts := repeat None (Z.to_nat (b_total header)); bf_received := 0; outcome := None |} first with
      | (_, Some answer) => Settled answer
      | (fold, None) => BbqrOnItsWay fold
      end
  end.

(** [Fold::first]. *)
Definition first_fold (frame : string) : Fold :=
  if is_ur frame then ur_open frame
  else if starts_with "B$" frame then bbqr_open frame
  else Settled (Ok {| q_format := Plain; q_received := 1; q_total := 1; q_complete := true; q_text := Some frame; q_warnings := [] |}).

Record QrScan := { frames : Z; limit : Z; fold : Fold }.

Definition new_scan : QrScan := {| frames := 0; limit := 0; fold := Empty |}.

(** [QrScan::take]. *)
Definition scan_take (scan : QrScan) (frame : string) : QrScan :=
  let frame := trim frame in
  if bool_decide (frame = "") then scan
  else
    let count := frames scan + 1 in
    match fold scan with
    | Empty => {| frames := count; limit := scan_frame_limit (announced_parts frame); fold := first_fold frame |}
    | held =>
      if count >? limit scan then {| frames := count; limit := limit scan; fold := Over |}
      else
        {| frames := count; limit := limit scan;
           fold := match held with
                   | UrOnItsWay ur => match ur_take ur frame with (ur, Some answer) => settle ur answer | (ur, None) => UrOnItsWay ur end
                   | BbqrOnItsWay bbqr => match bbqr_take bbqr frame with (_, Some answer) => Settled answer | (bbqr, None) => BbqrOnItsWay bbqr end
                   | other => other
                   end |}
    end.

Definition NO_FRAME : string := "No frame was scanned yet.".

Definition progress (scan : QrScan) : CoreResult QrProgress :=
  if frames scan =? 0 then Err (qr_error NO_FRAME)
  else if frames scan >? limit scan then Err (TooManyFrames (wrap_u32 (frames scan)))
  else
    match fold scan with
    | Settled answer | Refused answer _ => replay answer
    | UrOnItsWay ur => Ok (partial ur)
    | BbqrOnItsWay bbqr => bbqr_progress bbqr
    | Empty | Over => Err (qr_error NO_FRAME)
    end.

Definition scan_push (scan : QrScan) (frame : string) : QrScan * CoreResult QrProgress :=
  let scan := scan_take scan frame in (scan, progress scan).

Definition refused_code (scan : QrScan) : option UrCode := match fold scan with Refused _ code => Some code | _ => None end.

Definition assemble (frames : list string) : CoreResult QrProgress := progress (foldl scan_take new_scan frames).

Definition open_pasted (text : string) : CoreResult QrProgress :=
  match assemble [text] with Ok progress => Ok progress | Err e => Err (told_of_paste e) end.

(** ** The scans an app holds *)

Definition MAX_OPEN_SCANS : nat := 4.
Definition MAX_FRAME_LEN : Z := 7089.
Definition MAX_SCAN_BYTES : Z := Z.shiftl 16 20.
Definition MAX_REFUSED_CODES : nat := 4.

Record HeldScan := { scan : QrScan; scan_bytes : Z }.

Definition new_held : HeldScan := {| scan := new_scan; scan_bytes := 0 |}.

Definition frame_length (frame : string) : Z := Z.of_nat (String.length (trim frame)).

(** [HeldScan::push]. *)
Definition held_push (held : HeldScan) (frame : string) : HeldScan * CoreResult QrProgress :=
  let taken := frame_length frame in
  if taken >? MAX_FRAME_LEN then (held, Err damaged_frame)
  else
    let bytes := scan_bytes held + taken in
    if bytes >? MAX_SCAN_BYTES
    then ({| scan := scan held; scan_bytes := bytes |}, Err (TooManyFrames (wrap_u32 (frames (scan held)) + 1)))
    else let '(scan, answer) := scan_push (scan held) frame in ({| scan := scan; scan_bytes := bytes |}, answer).

Record RefusedCode := { rc_code : UrCode; rc_answer : CoreResult QrProgress }.

Record OpenScans := { last : Z; scans : list (Z * HeldScan); refused : list RefusedCode }.

Definition no_scans : OpenScans := {| last := 0; scans := []; refused := [] |}.

(** [QrScans::open]. *)
Definition scans_open (open : OpenScans) : OpenScans * Z :=
  let id := wrap_u32 (last open + 1) in
  ({| last := id; scans := keep_last (Nat.pred MAX_OPEN_SCANS) (scans open) ++ [(id, new_held)]; refused := refused open |}, id).

Definition put_scan (id : Z) (held : HeldScan) (l : list (Z * HeldScan)) : list (Z * HeldScan) :=
  match position (fun entry => entry.1 =? id) l with Some place => <[place := (id, held)]> l | None => l end.

Definition remember_refused (l : list RefusedCode) (code : UrCode) (answer : CoreResult QrProgress) : list RefusedCode :=
  keep_last (Nat.pred MAX_REFUSED_CODES) (retain (fun r => negb (bool_decide (rc_code r = code))) l) ++ [{| rc_code := code; rc_answer := replay answer |}].

Definition CLOSED : string := "This scan was closed. Open the scanner again.".

(** [QrScans::push]. *)
Definition scans_push (open : OpenScans) (id : Z) (frame : string) : OpenScans * CoreResult QrProgress :=
  match List.find (fun entry => entry.1 =? id) (scans open) with
  | None => (open, Err (qr_error CLOSED))
  | Some (_, held) =>
    let known := List.find (fun refused =>
      (frames (scan held) =? 0) && (frame_length frame <=? MAX_FRAME_LEN) && holds (rc_code refused) frame) (refused open) in
    let '(held, answer) := match known with Some refused => (held, replay (rc_answer refused)) | None => held_push held frame end in
    let newly_refused := match answer, known with Err _, None => refused_code (scan held) | _, _ => None end in
    let kept := match answer with Ok progress => if q_complete progress then new_held else held | Err _ => new_held end in
    ({| last := last open; scans := put_scan id kept (scans open);
        refused := match newly_refused with Some code => remember_refused (refused open) code answer | None => refused open end |},
     answer)
  end.

Definition scans_close (open : OpenScans) (id : Z) : OpenScans :=
  {| last := last open; scans := retain (fun entry => negb (entry.1 =? id)) (scans open); refused := refused open |}.
End Scans.

(** ** A BBQr, frame by frame *)

Section Bbqr.
Context `{Envelopes}.

Lemma bbqr_header_right frame header payload : bbqr_header frame = Ok (header, payload) ->
  frame <> "" /\ is_ur frame = false /\ starts_with "B$" frame = true /\ 0 <= b_index header < b_total header.
Proof.
  unfold bbqr_header. destruct (negb _); [done|]. destruct frame as [|a frame]; [done|]. cbn [strip_prefix].
  destruct (Ascii.eqb_spec "B" a) as [<-|]; [|done]. destruct frame as [|b frame]; [done|]. cbn [strip_prefix].
  destruct (Ascii.eqb_spec "$" b) as [<-|]; [|done].
  destruct frame as [|e [|t [|t1 [|t2 [|i1 [|i2 frame]]]]]]; try done.
  destruct (base36 t1 t2) as [total|] eqn:Et; [|done]. destruct (base36 i1 i2) as [index|] eqn:Ei; [|done].
  destruct (Z.eqb_spec total 0), (Z.geb_spec index total); cbn [orb]; try done. intros [= <- <-]. cbn [b_index b_total].
  split; [done|]. split; [done|]. split; [done|]. split; [|lia].
  assert (Hd : forall x v, digit36 x = Some v -> 0 <= v).
  { intros x v. unfold digit36. split_ifs; intros [= <-]; lia. }
  unfold base36 in Ei. destruct (_ =? _)%char; [by eapply Hd|].
  destruct (digit36 i1) eqn:E1; [|done]. destruct (digit36 i2) eqn:E2; [|done]. injection Ei as <-.
  apply Hd in E1, E2. lia.
Qed.

Definition same_code (header h : BbqrHeader) : bool :=
  (b_total h =? b_total header) && (encoding h =? encoding header)%char && (file_type h =? file_type header)%char.

(** The part a frame is of the code of a header, and its payload. *)
Definition part_of (header : BbqrHeader) (frame : string) : option (nat * string) :=
  match bbqr_header (trim frame) with
  | Ok (h, payload) => if same_code header h then Some (Z.to_nat (b_index h), payload) else None
  | Err _ => None
  end.

Definition brings (header : BbqrHeader) (i : nat) (frame : string) : bool :=
  match part_of header frame with Some (j, _) => (j =? i)%nat | None => false end.

Definition slots (total : nat) (seen : nat -> bool) (payload : nat -> string) : list (option string) :=
  List.map (fun i => if seen i then Some (payload i) else None) (seq 0 total).

Lemma slots_lookup total seen payload i : (i < total)%nat -> slots total seen payload !! i = Some (if seen i then Some (payload i) else None).
Proof. intros Hi. unfold slots. rewrite list_map_lookup, lookup_seq_lt by done. done. Qed.

Lemma slots_fill total seen seen' payload i : (i < total)%nat -> (forall j, seen' j = seen j || (j =? i)%nat) ->
  <[i := Some (payload i)]> (slots total seen payload) = slots total seen' payload.
Proof.
  intros Hi Hs. apply list_eq. intros j. destruct (Nat.lt_ge_cases j total) as [Hj|Hj].
  - rewrite (slots_lookup total seen' payload j Hj), Hs. destruct (Nat.eqb_spec j i) as [->|Hne].
    + rewrite list_lookup_insert_eq by (unfold slots; rewrite length_map, length_seq; done). by rewrite orb_true_r.
    + rewrite list_lookup_insert_ne by done. by rewrite slots_lookup, orb_false_r.
  - rewrite (lookup_ge_None_2 (<[i:=_]> _)), (lookup_ge_None_2 (slots _ _ _)); [done| |rewrite length_insert]; unfold slots; rewrite length_map, length_seq; lia.
Qed.

Definition tally (total : nat) (seen : nat -> bool) : nat := length (retain seen (seq 0 total)).

Lemma tally_more total seen seen' i : (i < total)%nat -> seen i = false -> (forall j, seen' j = seen j || (j =? i)%nat) ->
  tally total seen' = S (tally total seen).
Proof.
  intros Hi Hs Hs'. unfold tally. pose proof (seq_app i (total - i) 0) as E. replace (i + (total - i))%nat with total in E by lia. rewrite E.
  replace (total - i)%nat with (S (total - S i)) by lia. cbn [seq Nat.add]. rewrite !retain_app, !length_app.
  assert (Hsame : forall l, ~ In i l -> retain seen' l = retain seen l).
  { intros l Hl. unfold retain. apply List.filter_ext_in. intros j Hj. rewrite Hs'. destruct (Nat.eqb_spec j i) as [->|]; [done|by rewrite orb_false_r]. }
  rewrite (Hsame (seq 0 i)) by (rewrite in_seq; lia). unfold retain at 2 4. cbn [List.filter].
  rewrite Hs', Nat.eqb_refl, orb_true_r, Hs. cbn [length].
  change (List.filter ?f ?l) with (retain f l). rewrite (Hsame (seq (S i) (total - S i))) by (rewrite in_seq; lia). lia.
Qed.

Lemma retain_none_left {A} (f : A -> bool) l : length (retain f l) = length l -> forall x, In x l -> f x = true.
Proof.
  induction l as [|y l IH]; [by intros _ ? []|]. unfold retain in *. cbn [List.filter]. destruct (f y) eqn:E.
  - cbn [length]. intros [= Hl] x [->|Hx]; [done|by apply IH].
  - intros Hl. pose proof (retain_length f l) as H1. unfold retain in H1. cbn [length] in Hl. lia.
Qed.

Lemma tally_all total seen : (tally total seen =? total)%nat = all seen (seq 0 total).
Proof.
  unfold tally. pose proof (retain_length seen (seq 0 total)) as Hl. rewrite length_seq in Hl.
  destruct (all seen (seq 0 total)) eqn:E.
  - rewrite retain_all by (by apply all_true). rewrite length_seq. apply Nat.eqb_refl.
  - apply Nat.eqb_neq. intros Hn. assert (Hf : all seen (seq 0 total) = true); [|congruence]. apply all_true. intros j Hj.
    apply (retain_none_left seen (seq 0 total)); [by rewrite length_seq|done].
Qed.

Lemma slots_none total payload : slots total (fun _ => false) payload = repeat None total.
Proof. unfold slots. generalize 0%nat. induction total as [|n IH]; intros k; cbn; [done|]. f_equal. apply IH. Qed.

Lemma tally_none total : tally total (fun _ => false) = 0%nat.
Proof. unfold tally. generalize (seq 0 total). intros l. unfold retain. by induction l. Qed.

Lemma joined_slots total (seen : nat -> bool) payload : (forall i, In i (seq 0 total) -> seen i = true) ->
  joined (slots total seen payload) = String.concat "" (List.map payload (seq 0 total)).
Proof.
  intros Hall. unfold joined, slots. f_equal. induction (seq 0 total) as [|i l IH]; [done|].
  cbn [List.map omap list_omap]. rewrite (Hall i) by by left. cbn [id]. f_equal. apply IH. intros j Hj. apply Hall. by right.
Qed.

(** What a BBQr holds once it took the frames that bring [seen]. *)
Definition code_fold (header : BbqrHeader) (seen : nat -> bool) (payload : nat -> string) : BbqrFold :=
  let total := Z.to_nat (b_total header) in
  let held := {| bf_encoding := encoding header; bf_file_type := file_type header; bf_total := b_total header;
                 parts := slots total seen payload; bf_received := Z.of_nat (tally total seen); outcome := None |} in
  if all seen (seq 0 total)
  then {| bf_encoding := encoding header; bf_file_type := file_type header; bf_total := b_total header;
          parts := slots total seen payload; bf_received := Z.of_nat (tally total seen); outcome := Some (bbqr_decode held) |}
  else held.

Lemma decode_outcome e t n p r o o' :
  bbqr_decode {| bf_encoding := e; bf_file_type := t; bf_total := n; parts := p; bf_received := r; outcome := o |}
  = bbqr_decode {| bf_encoding := e; bf_file_type := t; bf_total := n; parts := p; bf_received := r; outcome := o' |}.
Proof. done. Qed.

Lemma all_more total (seen : nat -> bool) i : (i < total)%nat -> seen i = false -> all seen (seq 0 total) = false.
Proof.
  intros Hi Hs. destruct (all seen (seq 0 total)) eqn:E; [|done]. apply all_true with (x := i) in E; [congruence|]. apply in_seq. lia.
Qed.

Lemma all_same {A} (f g : A -> bool) l : (forall x, f x = g x) -> all f l = all g l.
Proof. intros E. unfold all. induction l as [|x l IH]; cbn; [done|]. by rewrite E, IH. Qed.

Lemma code_fold_same header seen seen' payload : (forall i, seen i = seen' i) -> code_fold header seen payload = code_fold header seen' payload.
Proof.
  intros E. unfold code_fold, slots, tally.
  rewrite (List.map_ext _ (fun i => if seen' i then Some (payload i) else None)) by (intros; by rewrite E).
  unfold retain. rewrite (List.filter_ext seen seen') by done. by rewrite (all_same seen seen') by done.
Qed.

Section Taking.
Variables (header : BbqrHeader) (payload : nat -> string).
Let total := Z.to_nat (b_total header).

(** A frame given to a BBQr on its way: what it brings is one more slot,
    and a frame of another code, or damaged, nothing. *)
Lemma take_brings seen frame :
  (forall i p, part_of header frame = Some (i, p) -> p = payload i) ->
  bbqr_take (code_fold header seen payload) (trim frame) = (code_fold header (fun i => seen i || brings header i frame) payload, None).
Proof.
  intros Hone. unfold bbqr_take, brings, part_of in *.
  assert (Hparams : bf_total (code_fold header seen payload) = b_total header
    /\ bf_encoding (code_fold header seen payload) = encoding header /\ bf_file_type (code_fold header seen payload) = file_type header
    /\ parts (code_fold header seen payload) = slots total seen payload).
  { unfold code_fold. by destruct (all seen _). }
  destruct Hparams as (Ht & He & Hf & Hp).
  assert (Hnone : code_fold header (fun i => seen i || false) payload = code_fold header seen payload) by (apply code_fold_same; intros; apply orb_false_r).
  destruct (bbqr_header (trim frame)) as [[h p]|e] eqn:Eh; [|by rewrite Hnone].
  rewrite Ht, He, Hf. unfold same_code in *.
  destruct (Z.eqb_spec (b_total h) (b_total header)) as [Et|]; cbn [negb orb andb] in *; [|by rewrite Hnone].
  destruct (Ascii.eqb_spec (encoding h) (encoding header)) as [|]; cbn [negb orb andb] in *; [|by rewrite Hnone].
  destruct (Ascii.eqb_spec (file_type h) (file_type header)) as [|]; cbn [negb orb andb] in *; [|by rewrite Hnone].
  destruct (bbqr_header_right _ _ _ Eh) as (_ & _ & _ & Hi). specialize (Hone _ _ eq_refl). set (i := Z.to_nat (b_index h)) in *.
  assert (Hlt : (i < total)%nat) by (unfold i, total; lia).
  rewrite Hp, slots_lookup by done. destruct (seen i) eqn:Es.
  - rewrite bool_decide_eq_true_2 by done. f_equal. apply code_fold_same. intros j.
    destruct (Nat.eqb_spec i j) as [<-|]; [by rewrite Es|by rewrite orb_false_r].
  - f_equal. unfold fill. assert (Hs : forall j, seen j || (i =? j)%nat = seen j || (j =? i)%nat) by (intros; by rewrite Nat.eqb_sym).
    unfold code_fold. cbv zeta. fold total. rewrite (all_more total seen i Hlt Es). cbn [parts bf_received bf_encoding bf_file_type bf_total outcome].
    rewrite Hone, (slots_fill total seen (fun j => seen j || (i =? j)%nat) payload i Hlt Hs).
    rewrite (tally_more total seen (fun j => seen j || (i =? j)%nat) i Hlt Es Hs).
    replace (Z.of_nat (tally total seen) + 1) with (Z.of_nat (S (tally total seen))) by lia.
    assert (Hall : (Z.of_nat (S (tally total seen)) =? b_total header) = all (fun j => seen j || (i =? j)%nat) (seq 0 total)).
    { rewrite <- tally_all, (tally_more total seen (fun j => seen j || (i =? j)%nat) i Hlt Es Hs). unfold total in *.
      destruct (Z.eqb_spec (Z.of_nat (S (tally (Z.to_nat (b_total header)) seen))) (b_total header)),
        (Nat.eqb_spec (S (tally (Z.to_nat (b_total header)) seen)) (Z.to_nat (b_total header))); lia || done. }
    rewrite Hall. by destruct (all _ _).
Qed.
End Taking.

Definition not_blank (frame : string) : bool := negb (bool_decide (trim frame = "")).
Definition shown (l : list string) : Z := Z.of_nat (length (retain not_blank l)).

Lemma blank_brings header i frame : not_blank frame = false -> brings header i frame = false.
Proof. unfold not_blank, brings, part_of. intros E%negb_false_iff%bool_decide_eq_true_1. by rewrite E. Qed.

(** A scan that took [taken] of the frames of one BBQr. *)
Definition on_its_way (header : BbqrHeader) (payload : nat -> string) (taken : list string) : QrScan :=
  {| frames := shown taken; limit := scan_frame_limit (b_total header);
     fold := BbqrOnItsWay (code_fold header (fun i => any (brings header i) taken) payload) |}.

Lemma scan_goes_on header payload taken : forall rest, shown taken <> 0 ->
  (forall frame i p, In frame rest -> part_of header frame = Some (i, p) -> p = payload i) ->
  shown (taken ++ rest) <= scan_frame_limit (b_total header) ->
  foldl scan_take (on_its_way header payload taken) rest = on_its_way header payload (taken ++ rest).
Proof.
  intros rest. revert taken. induction rest as [|frame rest IH]; intros taken Hne Hone Hl; cbn [foldl]; [by rewrite app_nil_r|].
  assert (Hgrow : forall l, shown (taken ++ l) = shown taken + shown l).
  { intros l. unfold shown. rewrite retain_app, length_app. lia. }
  assert (Hstep : scan_take (on_its_way header payload taken) frame = on_its_way header payload (taken ++ [frame])).
  { assert (Hone_more : forall b, any (fun f => b f) [frame] = b frame) by (intros; unfold any; cbn; apply orb_false_r).
    unfold scan_take. case_bool_decide as Hb.
    - assert (Hnb : not_blank frame = false) by (unfold not_blank; by rewrite bool_decide_eq_true_2).
      assert (Hs : shown (taken ++ [frame]) = shown taken) by (rewrite Hgrow; unfold shown at 2, retain; cbn [List.filter]; rewrite Hnb; cbn; lia).
      unfold on_its_way. rewrite Hs. f_equal. f_equal. apply code_fold_same. intros i.
      by rewrite any_app, Hone_more, blank_brings, orb_false_r.
    - assert (Hnb : not_blank frame = true) by (unfold not_blank; by rewrite bool_decide_eq_false_2).
      assert (Hs : shown (taken ++ [frame]) = shown taken + 1) by (rewrite Hgrow; unfold shown at 2, retain; cbn [List.filter]; rewrite Hnb; cbn; lia).
      assert (Hsh : shown (taken ++ frame :: rest) = shown taken + 1 + shown rest).
      { rewrite Hgrow. unfold shown at 2, retain. cbn [List.filter]. rewrite Hnb. cbn [length]. unfold shown, retain. lia. }
      assert (0 <= shown rest) by (unfold shown; lia).
      unfold on_its_way. rewrite Hs. cbn [frames limit fold]. destruct (Z.gtb_spec (shown taken + 1) (scan_frame_limit (b_total header))); [lia|].
      rewrite take_brings by (intros i p Hp; eapply Hone; [by left|exact Hp]). f_equal. f_equal. apply code_fold_same. intros i.
      by rewrite any_app, Hone_more. }
  rewrite Hstep, IH.
  - by rewrite <- app_assoc.
  - rewrite Hgrow. unfold shown in *. lia.
  - intros f i p Hf Hp. eapply Hone; [by right|exact Hp].
  - by rewrite <- app_assoc.
Qed.

(** What the whole of a BBQr comes to: its parts in their order, decoded. *)
Definition whole_code (header : BbqrHeader) (payloads : list string) : CoreResult QrProgress :=
  let? bytes := bbqr_bytes (encoding header) (String.concat "" payloads) in
  let? text := bbqr_text (file_type header) bytes in
  Ok {| q_format := Bbqr; q_received := b_total header; q_total := b_total header; q_complete := true;
        q_text := Some (trim text); q_warnings := [] |}.

Lemma replay_whole header payloads : replay (whole_code header payloads) = whole_code header payloads.
Proof.
  unfold whole_code, bbqr_bytes, bbqr_text, decode_base32.
  destruct (_ =? _)%char; [destruct (HEXUPPER_PERMISSIVE_decode _); [|done]|
    destruct (_ =? _)%char; [destruct (BASE32_NOPAD_decode _); [|done]|
      destruct (_ =? _)%char; [destruct (BASE32_NOPAD_decode _); [cbn [result_bind]; destruct (inflated _ _); [destruct (_ <? _)%nat; [done|]|done]|done]|done]]];
  cbn [result_bind]; (destruct (_ =? _)%char; [done|]); (destruct (_ =? _)%char; [done|]); by destruct (from_utf8 _).
Qed.

(** C24: The frames of a BBQr, scanned: its parts may come in any order, as
    many times as they will, with damaged frames and frames of other codes
    among them, within the frames a scan may bring. The scan answers with
    the parts it has seen until it has seen them all, and then with what
    the parts hold, one after the other in their order. *)
Theorem bbqr_in_any_order first rest header p payload :
  bbqr_header (trim first) = Ok (header, p) -> one_of "UJPT" (file_type header) = true -> one_of "H2Z" (encoding header) = true ->
  (forall frame i q, In frame (first :: rest) -> part_of header frame = Some (i, q) -> q = payload i) ->
  shown (first :: rest) <= scan_frame_limit (b_total header) ->
  let total := Z.to_nat (b_total header) in
  let seen i := any (brings header i) (first :: rest) in
  assemble (first :: rest) =
    if all seen (seq 0 total) then whole_code header (List.map payload (seq 0 total))
    else Ok {| q_format := Bbqr; q_received := Z.of_nat (tally total seen); q_total := b_total header; q_complete := false;
               q_text := None; q_warnings := [] |}.
Proof.
  intros Hh Hf He Hone Hl total seen. destruct (bbqr_header_right _ _ _ Hh) as (Hb & Hu & Hs & Hi).
  assert (Hnb : not_blank first = true) by (unfold not_blank; by rewrite bool_decide_eq_false_2).
  assert (Hfirst : scan_take new_scan first = on_its_way header payload [first]).
  { unfold scan_take, new_scan. cbn [frames fold]. rewrite bool_decide_eq_false_2 by done. unfold on_its_way.
    assert (Hsh : shown [first] = 1) by (unfold shown, retain; cbn [List.filter]; by rewrite Hnb).
    rewrite Hsh. f_equal; [unfold announced_parts; by rewrite Hu, Hh|]. unfold first_fold. rewrite Hu, Hs. unfold bbqr_open. rewrite Hh, Hf, He. cbn [negb].
    assert (Hempty : {| bf_encoding := encoding header; bf_file_type := file_type header; bf_total := b_total header;
                        parts := repeat None (Z.to_nat (b_total header)); bf_received := 0; outcome := None |}
                     = code_fold header (fun _ => false) payload).
    { unfold code_fold. cbv zeta. fold total. rewrite (all_more total (fun _ => false) 0) by (done || unfold total; lia).
      by rewrite slots_none, tally_none. }
    rewrite Hempty, (take_brings header payload); [|intros i q Hq; eapply Hone; [by left|exact Hq]]. f_equal. apply code_fold_same. intros i. unfold any. cbn. by rewrite orb_false_r. }
  unfold assemble. cbn [foldl]. rewrite Hfirst, (scan_goes_on header payload [first] rest).
  - change ([first] ++ rest) with (first :: rest). unfold progress. cbn [frames on_its_way limit fold].
    assert (Hpos : 0 < shown (first :: rest)) by (unfold shown, retain; cbn [List.filter]; rewrite Hnb; cbn [length]; lia).
    destruct (Z.eqb_spec (shown (first :: rest)) 0); [lia|]. destruct (Z.gtb_spec (shown (first :: rest)) (scan_frame_limit (b_total header))); [lia|].
    unfold bbqr_progress, code_fold. fold total. fold seen. destruct (all seen (seq 0 total)) eqn:Ea; cbn [outcome bf_received bf_total]; [|done].
    unfold bbqr_decode. cbn [bf_encoding bf_file_type bf_received bf_total parts].
    assert (Hj : joined (slots total seen payload) = String.concat "" (List.map payload (seq 0 total))) by (apply joined_slots, all_true, Ea).
    assert (Ht : Z.of_nat (tally total seen) = b_total header).
    { pose proof (tally_all total seen) as E. rewrite Ea in E. apply Nat.eqb_eq in E. rewrite E. unfold total. lia. }
    rewrite Hj, Ht. apply replay_whole.
  - unfold shown, retain. cbn [List.filter]. by rewrite Hnb.
  - intros f i q Hin Hq. eapply Hone; [by right|exact Hq].
  - done.
Qed.
End Bbqr.

(** ** What the scans keep *)

Section Bounds.
Context `{Envelopes}.

(** The bytes of the parts a BBQr holds. *)
Definition stored (parts : list (option string)) : Z :=
  foldr (fun part n => match part with Some payload => Z.of_nat (String.length payload) | None => 0 end + n) 0 parts.

(** A fold that holds no more than so many frames and bytes brought. *)
Definition light (frames bytes : Z) (f : Fold) : Prop :=
  match f with
  | UrOnItsWay ur => 0 <= mixed ur <= MAX_UR_MIX * frames
  | BbqrOnItsWay bbqr => (length (parts bbqr) <= 36 * 36 - 1)%nat /\ stored (parts bbqr) <= bytes
  | _ => True
  end.

Definition light_scan (held : HeldScan) : Prop :=
  let scan := scan held in
  0 <= frames scan /\ 0 <= scan_bytes held
  /\ (fold scan = Empty <-> frames scan = 0)
  /\ (frames scan <> 0 -> MIN_SCAN_FRAMES <= limit scan <= MAX_SCAN_FRAMES)
  /\ light (frames scan) (scan_bytes held) (fold scan).

Lemma stored_app l k : stored (l ++ k) = stored l + stored k.
Proof. unfold stored. induction l as [|x l IH]; cbn; [done|]. rewrite IH. lia. Qed.

Lemma stored_cons x l : stored (x :: l) = match x with Some payload => Z.of_nat (String.length payload) | None => 0 end + stored l.
Proof. done. Qed.

Lemma stored_fill l i payload : stored (<[i := Some payload]> l) <= stored l + Z.of_nat (String.length payload).
Proof.
  revert i. induction l as [|x l IH]; intros [|i]; [cbn; lia..| |].
  - change (<[0%nat:=Some payload]> (x :: l)) with (Some payload :: l). rewrite !stored_cons. destruct x; lia.
  - change (<[S i:=Some payload]> (x :: l)) with (x :: <[i:=Some payload]> l). rewrite !stored_cons. specialize (IH i). lia.
Qed.

Lemma mixes_nonneg part : 0 <= mixes part.
Proof. unfold mixes. destruct (part_indexes _); [lia|]. unfold usize_max, u64_max. lia. Qed.

Lemma ur_take_mixed ur frame : mixed ur <= mixed (ur_take ur frame).1 <= mixed ur + MAX_UR_MIX.
Proof.
  unfold ur_take. cbn [fst]. destruct (ur_part frame) as [part|]; [|unfold MAX_UR_MIX; lia].
  pose proof (mixes_nonneg part). destruct (Z.leb_spec (mixes part) MAX_UR_MIX); [|unfold MAX_UR_MIX; lia].
  destruct (receive (decoder ur) frame) as [d []]; cbn [mixed]; unfold MAX_UR_MIX in *; lia.
Qed.

Lemma digit36_range a v : digit36 a = Some v -> 0 <= v <= 35.
Proof. unfold digit36. split_ifs; intros [= <-]; lia. Qed.

Lemma bbqr_header_sizes frame header payload : bbqr_header frame = Ok (header, payload) ->
  0 < b_total header <= 36 * 36 - 1 /\ (String.length payload <= String.length frame)%nat.
Proof.
  intros Hh. destruct (bbqr_header_right _ _ _ Hh) as (_ & _ & _ & Hi). unfold bbqr_header in Hh. destruct (negb _); [done|].
  destruct frame as [|a frame]; [done|]. cbn [strip_prefix] in Hh. destruct (_ =? _)%char; [|done].
  destruct frame as [|b frame]; [done|]. cbn [strip_prefix] in Hh. destruct (_ =? _)%char; [|done].
  destruct frame as [|e [|t [|t1 [|t2 [|i1 [|i2 frame]]]]]]; try done.
  destruct (base36 t1 t2) as [total|] eqn:Et; [|done]. destruct (base36 i1 i2) as [index|]; [|done]. destruct (_ || _); [done|].
  injection Hh as <- <-. cbn [b_total b_index String.length] in *. split; [|lia]. split; [lia|].
  unfold base36 in Et. destruct (_ =? _)%char; [apply digit36_range in Et; lia|].
  destruct (digit36 t1) eqn:E1; [|done]. destruct (digit36 t2) eqn:E2; [|done]. injection Et as <-. apply digit36_range in E1, E2. lia.
Qed.

Lemma bbqr_take_stored bbqr frame : length (parts (bbqr_take bbqr frame).1) = length (parts bbqr)
  /\ stored (parts (bbqr_take bbqr frame).1) <= stored (parts bbqr) + Z.of_nat (String.length frame).
Proof.
  unfold bbqr_take. destruct (bbqr_header frame) as [[header payload]|] eqn:Eh; [|cbn [fst]; split; [done|lia]]. apply bbqr_header_sizes in Eh as [_ Hl].
  destruct (_ || _); [cbn [fst]; split; [done|lia]|].
  assert (Hfill : forall i, length (parts (fill bbqr i payload)) = length (parts bbqr)
    /\ stored (parts (fill bbqr i payload)) <= stored (parts bbqr) + Z.of_nat (String.length frame)).
  { intros i. pose proof (stored_fill (parts bbqr) i payload). unfold fill. cbn [bf_received bf_total parts].
    destruct (_ =? _); cbn [parts]; rewrite length_insert; split; done || lia. }
  destruct (parts bbqr !! Z.to_nat (b_index header)) as [[seen|]|]; [|apply Hfill..]. destruct (bool_decide _); cbn [fst]; (split; [done|lia]).
Qed.

Lemma scan_limit_range total : MIN_SCAN_FRAMES <= scan_frame_limit total <= MAX_SCAN_FRAMES.
Proof. unfold scan_frame_limit, MIN_SCAN_FRAMES, MAX_SCAN_FRAMES. lia. Qed.

Lemma first_light frame bytes : light 1 (bytes + Z.of_nat (String.length frame)) (first_fold frame) \/ bytes < 0.
Proof.
  destruct (Z.ltb_spec bytes 0) as [|Hb]; [by right|left]. unfold first_fold. destruct (is_ur frame).
  - unfold ur_open. destruct (ur_header frame) as [[ur_type [total|]]|]; try exact I.
    destruct (total =? 0); [done|]. destruct (total >? MAX_UR_PARTS); [done|]. destruct (negb _); [done|].
    match goal with |- context [ur_take ?u frame] => pose proof (ur_take_mixed u frame) as Hm end.
    destruct (ur_take _ frame) as [ur [answer|]]; cbn [fst mixed] in Hm; [|cbn [light]; lia].
    unfold settle. destruct answer; [done|]. destruct (u_code ur); [|done]. by destruct (fountain_message _) as [[]|].
  - destruct (starts_with "B$" frame); [|done]. unfold bbqr_open. destruct (bbqr_header frame) as [[header payload]|] eqn:Eh; [|done].
    destruct (negb _); [done|]. destruct (negb _); [done|]. apply bbqr_header_sizes in Eh as [Ht _].
    match goal with |- context [bbqr_take ?b frame] => pose proof (bbqr_take_stored b frame) as Hm end.
    destruct (bbqr_take _ frame) as [bbqr [answer|]]; [done|]. cbn [fst parts light] in *. rewrite repeat_length in Hm.
    destruct Hm as [-> Hm]. split; [lia|]. assert (Hz : forall n, stored (repeat None n) = 0) by (induction n; cbn in *; done).
    rewrite Hz in Hm. lia.
Qed.

Lemma settle_light frames bytes ur answer : light frames bytes (settle ur answer).
Proof. unfold settle. destruct answer; [done|]. destruct (u_code ur); [|done]. by destruct (fountain_message _) as [[]|]. Qed.

Lemma first_not_empty frame : first_fold frame <> Empty.
Proof.
  unfold first_fold. destruct (is_ur frame).
  - unfold ur_open. destruct (ur_header frame) as [[ur_type [total|]]|]; try done. destruct (total =? 0); [done|]. destruct (_ >? _); [done|].
    destruct (negb _); [done|]. destruct (ur_take _ frame) as [ur [answer|]]; [|done]. unfold settle. destruct answer; [done|].
    destruct (u_code ur); [|done]. by destruct (fountain_message _) as [[]|].
  - destruct (starts_with _ frame); [|done]. unfold bbqr_open. destruct (bbqr_header frame) as [[]|]; [|done].
    destruct (negb _); [done|]. destruct (negb _); [done|]. by destruct (bbqr_take _ frame) as [? []].
Qed.

Lemma light_more frames frames' bytes more f : frames <= frames' -> 0 <= more -> light frames bytes f -> light frames' (bytes + more) f.
Proof. intros Hf Hm. destruct f; cbn; try done; unfold MAX_UR_MIX; lia. Qed.

(** The fold of a scan on its way after one more frame. *)
Lemma fold_light (f : Fold) frame frames bytes : 0 <= bytes -> f <> Empty -> light frames bytes f ->
  let f' := match f with
            | UrOnItsWay ur => match ur_take ur frame with (ur, Some answer) => settle ur answer | (ur, None) => UrOnItsWay ur end
            | BbqrOnItsWay bbqr => match bbqr_take bbqr frame with (_, Some answer) => Settled answer | (bbqr, None) => BbqrOnItsWay bbqr end
            | other => other
            end in
  f' <> Empty /\ light (frames + 1) (bytes + Z.of_nat (String.length frame)) f'.
Proof.
  intros Hb Hne Hl. destruct f as [|a|a c|ur|bbqr|]; try done; cbn zeta.
  - pose proof (ur_take_mixed ur frame) as Hm. destruct (ur_take ur frame) as [u [answer|]].
    + split; [|apply settle_light]. unfold settle. destruct answer; [done|]. destruct (u_code u); [|done]. by destruct (fountain_message _) as [[]|].
    + split; [done|]. cbn [fst light] in *. unfold MAX_UR_MIX in *. lia.
  - pose proof (bbqr_take_stored bbqr frame) as [Hn Hm]. destruct (bbqr_take bbqr frame) as [b [answer|]]; [done|].
    split; [done|]. cbn [fst light] in *. split; [lia|]. lia.
Qed.

Lemma take_light held frame : light_scan held ->
  light_scan {| scan := scan_take (scan held) frame; scan_bytes := scan_bytes held + frame_length frame |}.
Proof.
  intros (Hf & Hb & He & Hlim & Hl). unfold light_scan. cbn [scan scan_bytes].
  assert (Hlen : 0 <= frame_length frame) by (unfold frame_length; lia). unfold scan_take. case_bool_decide as Hblank.
  { split_and!; try done; [lia|]. by apply (light_more (frames (scan held))). }
  assert (Hd : fold (scan held) = Empty \/ fold (scan held) <> Empty) by (destruct (fold (scan held)); [by left|by right..]).
  destruct Hd as [Ee|Ene].
  - rewrite Ee. cbn [frames fold limit]. apply He in Ee as E0. rewrite E0. split; [lia|]. split; [lia|].
    split; [split; [intros E; by destruct (first_not_empty (trim frame))|lia]|]. split; [intros _; apply scan_limit_range|].
    destruct (first_light (trim frame) (scan_bytes held)) as [|]; [done|lia].
  - assert (Hne : frames (scan held) <> 0) by (intros E; by apply Ene, He). specialize (Hlim Hne).
    destruct (fold_light _ (trim frame) _ _ Hb Ene Hl) as [Hn Hlight].
    assert (Hcase : forall f, f <> Empty -> light (frames (scan held) + 1) (scan_bytes held + frame_length frame) f ->
      let s := {| frames := frames (scan held) + 1; limit := limit (scan held); fold := f |} in
      0 <= frames s /\ 0 <= scan_bytes held + frame_length frame /\ (fold s = Empty <-> frames s = 0)
      /\ (frames s <> 0 -> MIN_SCAN_FRAMES <= limit s <= MAX_SCAN_FRAMES) /\ light (frames s) (scan_bytes held + frame_length frame) (fold s)).
    { intros f Hfe Hfl. cbn [frames fold limit]. split; [lia|]. split; [lia|]. split; [split; [done|lia]|]. by split. }
    destruct (fold (scan held)) as [|a|a c|ur|bbqr|]; [done|..]; (destruct (_ >? _); [by apply Hcase|]); by apply Hcase.
Qed.

(** A frame taken by a scan whose answer lets it go on. *)
Lemma push_light held frame : light_scan held -> light_scan (held_push held frame).1 /\
  forall answer, (held_push held frame).2 = Ok answer ->
    frames (scan (held_push held frame).1) <= MAX_SCAN_FRAMES /\ scan_bytes (held_push held frame).1 <= MAX_SCAN_BYTES.
Proof.
  intros Hheld. pose proof (take_light _ frame Hheld) as Htake. unfold held_push.
  destruct (_ >? MAX_FRAME_LEN); [done|]. destruct (Z.gtb_spec (scan_bytes held + frame_length frame) MAX_SCAN_BYTES) as [|Hbytes].
  - split; [|done]. destruct Hheld as (Hf & Hb & He & Hlim & Hl). assert (0 <= frame_length frame) by (unfold frame_length; lia).
    cbn [fst]. unfold light_scan. cbn [scan scan_bytes]. split_and!; try done; [lia|]. by apply (light_more (frames (scan held))).
  - cbn [scan_push fst snd]. split; [done|]. intros answer. cbn [scan scan_bytes]. unfold progress.
    destruct Htake as (_ & _ & _ & Hlim & _). cbn [scan] in Hlim.
    destruct (Z.eqb_spec (frames (scan_take (scan held) frame)) 0) as [|Hne]; [done|].
    destruct (Z.gtb_spec (frames (scan_take (scan held) frame)) (limit (scan_take (scan held) frame))); [done|]. intros _.
    specialize (Hlim Hne). lia.
Qed.

(** What an app asks of its scans. *)
Inductive ScanCall := OpenScan | PushFrame (id : Z) (frame : string) | CloseScan (id : Z).

Definition scan_call (open : OpenScans) (call : ScanCall) : OpenScans :=
  match call with
  | OpenScan => (scans_open open).1
  | PushFrame id frame => (scans_push open id frame).1
  | CloseScan id => scans_close open id
  end.

Definition kept (held : HeldScan) : Prop :=
  light_scan held /\ frames (scan held) <= MAX_SCAN_FRAMES /\ scan_bytes held <= MAX_SCAN_BYTES.

Definition bounded (open : OpenScans) : Prop :=
  (length (scans open) <= MAX_OPEN_SCANS)%nat /\ (length (refused open) <= MAX_REFUSED_CODES)%nat
  /\ Forall (fun entry => kept entry.2) (scans open).

Lemma new_kept : kept new_held.
Proof. unfold kept, light_scan, new_held, new_scan, MAX_SCAN_FRAMES, MAX_SCAN_BYTES. cbn. split_and!; done || lia. Qed.

Lemma remember_refused_length l code answer : (length (remember_refused l code answer) <= MAX_REFUSED_CODES)%nat.
Proof.
  unfold remember_refused. rewrite length_app. cbn [length]. pose proof (keep_last_length (Nat.pred MAX_REFUSED_CODES)
    (retain (fun r => negb (bool_decide (rc_code r = code))) l)). unfold MAX_REFUSED_CODES in *. lia.
Qed.

Lemma call_bounded open call : bounded open -> bounded (scan_call open call).
Proof.
  intros (Ho & Hr & Hs). destruct call as [|id frame|id]; cbn [scan_call].
  - unfold scans_open, bounded. cbn [fst scans refused]. rewrite length_app. cbn [length].
    pose proof (keep_last_length (Nat.pred MAX_OPEN_SCANS) (scans open)). unfold MAX_OPEN_SCANS in *. split; [lia|]. split; [done|].
    apply list.Forall_app. split; [|constructor; [apply new_kept|done]].
    apply List.Forall_forall. intros e He. rewrite List.Forall_forall in Hs. eapply Hs, keep_last_In, He.
  - unfold scans_push. destruct (List.find _ (scans open)) as [[id' held]|] eqn:Ef; [|done].
    assert (Hheld : kept held). { apply List.find_some in Ef as [Hin _]. rewrite List.Forall_forall in Hs. by apply (Hs (id', held)). }
    set (known := List.find _ (refused open)).
    assert (Hnext : exists next answer, match known with Some refused => (held, replay (rc_answer refused)) | None => held_push held frame end = (next, answer)
      /\ (forall p, answer = Ok p -> kept next)).
    { destruct known as [r|]; [by exists held, (replay (rc_answer r))|]. destruct Hheld as (Hl & _). destruct (push_light held frame Hl) as [Hpl Hpk].
      destruct (held_push held frame) as [next answer]. exists next, answer. split; [done|]. intros p ->. split; [done|]. by apply (Hpk p). }
    destruct Hnext as (next & answer & -> & Hnext). unfold bounded. cbn [fst scans refused].
    assert (Hkept : kept match answer with Ok progress => if q_complete progress then new_held else next | Err _ => new_held end).
    { destruct answer as [p|]; [destruct (q_complete p); [apply new_kept|by apply (Hnext p)]|apply new_kept]. }
    split; [|split].
    + unfold put_scan. destruct (position _ _); [by rewrite length_insert|done].
    + destruct answer; destruct known; try done. destruct (refused_code _); [apply remember_refused_length|done].
    + unfold put_scan. destruct (position _ _) as [place|]; [|done]. by apply list.Forall_insert.
  - unfold scans_close, bounded. cbn [scans refused]. pose proof (retain_length (fun e => negb (e.1 =? id)) (scans open)).
    split; [lia|]. split; [done|]. apply List.Forall_forall. intros e [He _]%retain_In. rewrite List.Forall_forall in Hs. by apply Hs.
Qed.

(** C25: Whatever an app shows to its camera, opens and leaves open, and
    whatever the codes announce: four scans at most are held, and four
    codes refused; a scan keeps no more than ten thousand frames, sixteen
    mebibytes of them, a fountain no more than a hundred and twenty-eight
    fragments a frame, a BBQr no more parts than its header can count. *)
Theorem scans_are_bounded calls :
  let open := foldl scan_call no_scans calls in
  (length (scans open) <= 4)%nat /\ (length (refused open) <= 4)%nat
  /\ forall id held, In (id, held) (scans open) ->
      0 <= frames (scan held) <= 10000 /\ 0 <= scan_bytes held <= 16 * 1024 * 1024
      /\ match fold (scan held) with
         | UrOnItsWay ur => 0 <= mixed ur <= 128 * frames (scan held)
         | BbqrOnItsWay bbqr => (length (parts bbqr) <= 1295)%nat /\ stored (parts bbqr) <= scan_bytes held
         | _ => True
         end.
Proof.
  intros open. assert (Hb : bounded open).
  { unfold open. assert (Hstart : bounded no_scans) by (unfold bounded, no_scans; cbn [scans refused length]; split; [lia|split; [lia|constructor]]). revert Hstart. generalize no_scans.
    induction calls as [|c calls IH]; intros o Ho; cbn [foldl]; [done|]. by apply IH, call_bounded. }
  destruct Hb as (Ho & Hr & Hs). split; [exact Ho|]. split; [exact Hr|]. intros id held Hin.
  rewrite List.Forall_forall in Hs. destruct (Hs _ Hin) as ((Hf & Hb & _ & _ & Hl) & Hmax & Hbytes). cbn [snd] in *.
  split; [split; [done|exact Hmax]|]. split; [split; [done|exact Hbytes]|].
  by destruct (fold (scan held)).
Qed.

(** A scan that takes the frames one after the other answers, after each,
    what the frames so far assemble to. *)
Lemma push_assembles taken frame : (scan_push (foldl scan_take new_scan taken) frame).2 = assemble (taken ++ [frame]).
Proof. unfold assemble. by rewrite foldl_app. Qed.
End Bounds.

(** ** An example: a text of five letters in two parts *)

Module Demo.
#[global] Existing Instance CryptoOutput.Demo.demo_points.

#[global] Instance demo_envelopes : Envelopes := {
  cbor := fun _ => Err "no CBOR"; cbor_array := fun _ => None; cbor_u32 := fun _ => None; BASE64_encode := fun _ => "";
  HEXUPPER_PERMISSIVE_decode := unhex; BASE32_NOPAD_decode := fun _ => None; inflated := fun _ bytes => Some bytes;
  ur_decode := fun _ => None; part_indexes := fun _ => None; Fountain := unit; fountain := tt;
  receive := fun f _ => (f, false); fountain_complete := fun _ => false; fountain_message := fun _ => None; fountain_type := fun _ => None;
  resolved_fragment_count := fun _ => None;
}.

Definition FIRST : string := " B$HU020068656C ".
Definition SECOND : string := "B$HU02016C6F".
Definition payload (i : nat) : string := match i with 0%nat => "68656C" | _ => "6C6F" end.
Definition header : BbqrHeader := {| encoding := "H"; file_type := "U"; b_total := 2; b_index := 1 |}.
End Demo.

Lemma bbqr_in_any_order_witness :
  bbqr_header (trim Demo.SECOND) = Ok (Demo.header, "6C6F")
  /\ assemble [Demo.SECOND; ""; "not a part"; Demo.SECOND; Demo.FIRST]
     = Ok {| q_format := Bbqr; q_received := 2; q_total := 2; q_complete := true; q_text := Some "hello"; q_warnings := [] |}.
Proof.
  assert (Hh : bbqr_header (trim Demo.SECOND) = Ok (Demo.header, "6C6F")) by (vm_compute; reflexivity).
  split; [exact Hh|].
  rewrite (bbqr_in_any_order Demo.SECOND [""; "not a part"; Demo.SECOND; Demo.FIRST] Demo.header "6C6F" Demo.payload Hh).
  - vm_compute. reflexivity.
  - vm_compute. reflexivity.
  - vm_compute. reflexivity.
  - intros frame i q [<-|[<-|[<-|[<-|[<-|[]]]]]]; vm_compute; by intros [= <- <-].
  - vm_compute. discriminate.
Defined.
