(* ===== verification/Bsms.v ===== *)
(** [input/bsms.rs]: the descriptor record of a multisig coordinator
    (BIP-129, round 2), read into a descriptor and the first address it
    promises. *)
From S2P Require Import Prelude Utf8 Text Errors Network Xpub Connect Faults Paths.
From Stdlib Require Import Ascii.

(** ** Texts *)

Definition eq_ignore_ascii_case (s t : string) : bool := bool_decide (lower s = lower t).

(** [str::lines]: a line ends with a line feed, which a carriage return
    may precede; nothing after the last one is no line. *)
Definition without_return (line : string) : string := unwrap_or (strip_suffix "013" line) line.
Definition lines (text : string) : list string :=
  let cut := split "010" text in
  List.map without_return (if bool_decide (list.last cut = Some "") then removelast cut else cut).

(** The lines of a text trimmed, blank ones out. *)
Definition trimmed_lines (text : string) : list string := retain (fun line => negb (bool_decide (line = ""))) (List.map trim (lines text)).

(** [str::replace]; [skip] bytes are of the match just replaced. *)
Fixpoint replace_from (skip : nat) (pat new s : string) : string :=
  match s with
  | "" => ""
  | String a rest =>
    match skip with
    | S skip => replace_from skip pat new rest
    | O => if starts_with pat s then new +:+ replace_from (Nat.pred (String.length pat)) pat new rest else String a (replace_from 0 pat new rest)
    end
  end.

Definition replace_all (pat new s : string) : string := replace_from 0 pat new s.

(** ** Records *)

Definition HEADER : string := "BSMS 1.0".

Definition bsms_error (detail : string) : CoreError := InvalidInput "bsms" detail.

Definition is_bsms (text : string) : bool := starts_with HEADER (trim_start text).

Record BsmsRecord := { b_descriptor : string; b_first_address : string }.

Definition is_encrypted (line : string) : bool := (32 <=? String.length line)%nat && str_all is_ascii_hexdigit line.

(** The index of a restriction to one branch. *)
Definition restricted (path : string) : option Z :=
  and_then (strip_prefix "/" (trim path)) (fun rest =>
  and_then (and_then (strip_suffix "*" rest) (strip_suffix "/")) parse_u32).

Definition branches (restrictions : string) : CoreResult (Z * Z) :=
  if eq_ignore_ascii_case restrictions "No path restrictions" then Ok (0, 1)
  else
    let refused := Err (bsms_error ("unsupported path restrictions `" +:+ restrictions +:+ "`; expected `/0/*,/1/*`")) in
    match List.map restricted (split "," restrictions) with
    | [Some receive; Some change] => if receive =? change then refused else Ok (receive, change)
    | _ => refused
    end.

Definition ENCRYPTED : string := "this BSMS file is encrypted; export the plain descriptor record from the coordinator instead".
Definition FOUR_LINES : string := "a BSMS record needs four lines: version, descriptor, path restrictions, first address".

Definition parse_bsms (text : string) : CoreResult BsmsRecord :=
  let lines := trimmed_lines text in
  if negb (bool_decide (hd_error lines = Some HEADER)) then Err (bsms_error "not a BSMS 1.0 record")
  else
    match lines with
    | [_; template; restrictions; first_address] =>
      if lacks "(" template
      then Err (bsms_error (if is_encrypted template then ENCRYPTED else "line 2 of the record is not a descriptor"))
      else
        let? both := branches restrictions in
        Ok {| b_descriptor := replace_all "/**" ("/<" +:+ dec both.1 +:+ ";" +:+ dec both.2 +:+ ">/*") template; b_first_address := first_address |}
    | [_; second] => Err (bsms_error (if is_encrypted second then ENCRYPTED else FOUR_LINES))
    | _ => Err (bsms_error FOUR_LINES)
    end.

(** ** Replacing *)

(** A character the replaced text does not have is in what is replaced
    into when it was in what was replaced from. *)
Lemma replace_keeps c pat new s : lacks c pat = true -> pat <> "" -> forall skip, lacks c (String.substring 0 skip s) = true ->
  lacks c (replace_from skip pat new s) = true -> lacks c s = true.
Proof.
  intros Hp Hne. induction s as [|a s IH]; intros skip Hk Hl; [done|]. cbn [replace_from] in Hl. destruct skip as [|skip].
  - destruct (starts_with pat (String a s)) eqn:Es.
    + apply starts_with_app in Es as [r Hr]. destruct pat as [|b pat]; [done|]. injection Hr as -> Hs. rewrite lacks_app in Hl. apply andb_true_iff in Hl as [_ Hl].
      unfold lacks in Hp |- *. cbn [str_all] in Hp |- *. apply andb_true_iff in Hp as [-> Hp]. cbn [andb].
      apply (IH (String.length pat)); [|done]. by rewrite Hs, substring_head.
    + unfold lacks in Hl |- *. cbn [str_all] in Hl |- *. apply andb_true_iff in Hl as [-> Hl]. cbn [andb]. apply (IH 0%nat); [by destruct s|done].
  - unfold lacks in Hk |- *. cbn [String.substring str_all] in Hk |- *. apply andb_true_iff in Hk as [-> Hk]. cbn [andb]. by apply (IH skip).
Qed.

(** A descriptor read out of a record has a parenthesis. *)
Lemma record_has_script text record : parse_bsms text = Ok record -> lacks "(" (b_descriptor record) = false.
Proof.
  unfold parse_bsms. destruct (negb _); [done|]. destruct (trimmed_lines text) as [|h [|template [|restrictions [|first [|]]]]]; try done.
  destruct (lacks "(" template) eqn:El; [done|]. destruct (branches restrictions) as [both|]; [|done]. cbn [result_bind]. intros [= <-]. cbn [b_descriptor].
  apply not_true_iff_false. intros Hl. apply (replace_keeps "(" "/**") in Hl; [by rewrite El in Hl|done|done|]. by destruct template.
Qed.

(** ** Texts of characters

    A text the source holds is made of characters; a trimmed text, a line
    of one and what is replaced in one are. *)
Definition wide (c : code_point) : Prop := (c < 2097152)%N.
Definition written (s : string) : Prop := exists l, Forall wide l /\ s = of_chars l.

Lemma chars_encode_wide c rest : wide c -> chars (encode_char c rest) = c :: chars rest.
Proof.
  unfold wide. intros Hc. unfold encode_char.
  repeat case_match; cbn [chars]; rewrite ?byte_of_cont, ?cont_low, ?byte_of_ascii_of_N;
    try (Z.div_mod_to_equations; lia);
    repeat case_match; try (exfalso; Z.div_mod_to_equations; lia);
    f_equal; Z.div_mod_to_equations; lia.
Qed.

Lemma chars_written l : Forall wide l -> chars (of_chars l) = l.
Proof.
  induction 1 as [|c l Hc Hl IH]; [done|]. change (of_chars (c :: l)) with (encode_char c (of_chars l)). by rewrite chars_encode_wide, IH.
Qed.

Lemma chars_wide n : forall s, (String.length s <= n)%nat -> Forall wide (chars s).
Proof.
  induction n as [|n IH]; intros s Hs; [destruct s; [constructor|simpl in Hs; lia]|]. destruct s as [|a s]; [constructor|].
  assert (Hshort : forall t, (String.length t <= n)%nat -> Forall wide (chars t)) by exact IH. simpl in Hs. pose proof (N_ascii_bounded a) as Ha.
  assert (Hmod : forall x m, (m <> 0 -> x mod m < m)%N) by (intros; by apply N.mod_lt).
  cbn [chars]. unfold wide in *. fold (byte_of a) in Ha.
  repeat case_match; subst; simpl in Hs; repeat (constructor; [|try (apply Hshort; lia)]); try constructor; unfold byte_of in *;
    pose proof (Hmod (N_of_ascii a) 32%N); pose proof (Hmod (N_of_ascii a) 16%N); pose proof (Hmod (N_of_ascii a) 8%N);
    repeat match goal with |- context [(N_of_ascii ?b mod 64)%N] => pose proof (Hmod (N_of_ascii b) 64%N); generalize dependent (N_of_ascii b mod 64)%N; intros end;
    try lia.
Qed.

Lemma lacks_encode c x rest : (byte_of c < 128)%N -> wide x -> lacks c (encode_char x rest) = negb (x =? byte_of c)%N && lacks c rest.
Proof.
  unfold wide. intros Hc Hx. assert (Hne : forall n, (128 <= n < 256)%N -> (ascii_of_N n =? c)%char = false).
  { intros n Hn. apply Ascii.eqb_neq. intros <-. rewrite byte_of_ascii_of_N in Hc; lia. }
  assert (Hcont : forall n, (cont n =? c)%char = false).
  { intros n. unfold cont. pose proof (N.mod_lt n 64). apply Hne. lia. }
  assert (Hge : (128 <= x)%N -> (x =? byte_of c)%N = false) by (intros; apply N.eqb_neq; lia).
  unfold encode_char, lacks. destruct (N.ltb_spec x 128).
  - cbn [str_all]. f_equal. f_equal. destruct (Ascii.eqb_spec (ascii_of_N x) c) as [<-|Hd]; symmetry.
    + apply N.eqb_eq. by rewrite byte_of_ascii_of_N by lia.
    + apply N.eqb_neq. intros ->. apply Hd. unfold byte_of. apply ascii_N_embedding.
  - rewrite Hge by done. repeat case_match; cbn [str_all]; rewrite ?Hcont; rewrite ?Hne by (Z.div_mod_to_equations; lia); done.
Qed.

Lemma lacks_written c l : (byte_of c < 128)%N -> Forall wide l -> lacks c (of_chars l) = true <-> ~ In (byte_of c) l.
Proof.
  intros Hc. induction 1 as [|x l Hx Hl IH]; [by cbn; split; [intros _ []|]|].
  change (of_chars (x :: l)) with (encode_char x (of_chars l)). rewrite lacks_encode, andb_true_iff, IH, negb_true_iff, N.eqb_neq by done. simpl. intuition.
Qed.

Lemma drop_blank_suffix l : exists k, l = k ++ drop_blank l /\ Forall (fun c => is_whitespace c = true) k.
Proof.
  induction l as [|c l [k [Hk Hb]]]; [by exists []|]. cbn [drop_blank]. destruct (is_whitespace c) eqn:E; [|by exists []].
  exists (c :: k). split; [by rewrite Hk at 1|by constructor].
Qed.

Lemma drop_blank_In c l : is_whitespace c = false -> In c (drop_blank l) <-> In c l.
Proof.
  intros Hc. destruct (drop_blank_suffix l) as (k & Hk & Hb). rewrite Hk at 2. rewrite in_app_iff. split; [by right|]. intros [Hin|Hin]; [|done].
  rewrite List.Forall_forall in Hb. by rewrite (Hb c Hin) in Hc.
Qed.

Lemma drop_blank_wide l : Forall wide l -> Forall wide (drop_blank l).
Proof. destruct (drop_blank_suffix l) as (k & Hk & _). rewrite Hk at 1. by intros [_ ?]%list.Forall_app. Qed.

Lemma trimmed_wide l : Forall wide l -> Forall wide (rev (drop_blank (rev (drop_blank l)))).
Proof. intros Hl. by apply Forall_rev, drop_blank_wide, Forall_rev, drop_blank_wide. Qed.

(** A trimmed text is made of characters, and has every character of its
    text that is not blank. *)
Lemma trim_written s : written (trim s).
Proof. eexists. split; [|reflexivity]. by eapply trimmed_wide, chars_wide. Qed.

Lemma trim_lacks c s : (byte_of c < 128)%N -> is_whitespace (byte_of c) = false -> written s -> lacks c (trim s) = lacks c s.
Proof.
  intros Hc Hw (l & Hl & ->). apply eq_true_iff_eq. unfold trim. rewrite chars_written by done. rewrite !lacks_written by (done || by apply trimmed_wide).
  by rewrite <- in_rev, drop_blank_In, <- in_rev, drop_blank_In by done.
Qed.

Lemma drop_blank_twice l : drop_blank (drop_blank l) = drop_blank l.
Proof. induction l as [|c l IH]; [done|]. cbn [drop_blank]. destruct (is_whitespace c) eqn:E; [done|]. cbn [drop_blank]. by rewrite E. Qed.

Lemma drop_blank_front k : drop_blank k = k -> drop_blank (rev (drop_blank (rev k))) = rev (drop_blank (rev k)).
Proof.
  intros Hk. destruct (drop_blank_suffix (rev k)) as (b & Hb & Hall). set (j := drop_blank (rev k)) in *.
  assert (Hkj : k = rev j ++ rev b) by (rewrite <- rev_app_distr, <- Hb; by rewrite rev_involutive). destruct (rev j) as [|c t]; [done|].
  cbn [drop_blank]. destruct (is_whitespace c) eqn:Ec; [|done]. exfalso. rewrite Hkj in Hk. cbn [drop_blank app] in Hk. rewrite Ec in Hk.
  destruct (drop_blank_suffix (t ++ rev b)) as (u & Hu & _). rewrite Hk in Hu. apply (f_equal length) in Hu. rewrite !length_app in Hu. simpl in Hu. rewrite ?length_app in Hu. lia.
Qed.

Lemma trim_twice s : trim (trim s) = trim s.
Proof.
  assert (Hc : chars (trim s) = rev (drop_blank (rev (drop_blank (chars s))))) by (apply chars_written; by eapply trimmed_wide, chars_wide).
  change (trim (trim s)) with (of_chars (rev (drop_blank (rev (drop_blank (chars (trim s))))))). rewrite Hc, (drop_blank_front (drop_blank (chars s)) (drop_blank_twice _)).
  rewrite rev_involutive, drop_blank_twice. done.
Qed.

Lemma written_app s t : written s -> written t -> written (s +:+ t).
Proof. intros (l & Hl & ->) (k & Hk & ->). exists (l ++ k). split; [by apply list.Forall_app|by rewrite of_chars_app]. Qed.

Lemma encode_app c s : encode_char c s = encode_char c "" +:+ s.
Proof. by rewrite <- encode_char_app. Qed.

Lemma written_cons c s : wide c -> written s -> written (encode_char c s).
Proof. intros Hc (l & Hl & ->). exists (c :: l). split; [by constructor|done]. Qed.

(** A text of ASCII is made of characters. *)
Lemma ascii_written s : str_all is_ascii_byte s = true -> written s.
Proof.
  intros Hs. exists (bytes s). split; [|by rewrite of_chars_bytes]. induction s as [|a s IH]; [constructor|]. cbn [str_all] in Hs. apply andb_true_iff in Hs as [Ha Hs].
  constructor; [|by apply IH]. unfold wide, is_ascii_byte in *. apply N.ltb_lt in Ha. lia.
Qed.

(** The text before which a character of ASCII was taken off. *)
Lemma written_tail a s : (byte_of a < 128)%N -> written (String a s) -> written s.
Proof.
  intros Ha (l & Hl & He). destruct Hl as [|c l Hc Hl]; [done|]. exists l. split; [done|]. change (of_chars (c :: l)) with (encode_char c (of_chars l)) in He.
  unfold encode_char in He. unfold wide in Hc. destruct (c <? 128)%N; [by injection He|]. exfalso.
  repeat case_match; injection He as -> _; rewrite byte_of_ascii_of_N in Ha; Z.div_mod_to_equations; lia.
Qed.

Definition BOTH : string := "/**".

(** No byte of a character past ASCII begins the shorthand. *)
Lemma replace_past c rest new : wide c -> (128 <= c)%N -> replace_from 0 BOTH new (encode_char c rest) = encode_char c (replace_from 0 BOTH new rest).
Proof.
  intros Hc Hge. assert (Hbyte : forall n s, (128 <= n < 256)%N -> replace_from 0 BOTH new (String (ascii_of_N n) s) = String (ascii_of_N n) (replace_from 0 BOTH new s)).
  { intros n s Hn. cbn [replace_from]. replace (starts_with BOTH (String (ascii_of_N n) s)) with false; [done|]. unfold starts_with, BOTH. cbn [strip_prefix].
    destruct (Ascii.eqb_spec "/" (ascii_of_N n)) as [E|]; [|done]. exfalso. apply (f_equal byte_of) in E. rewrite byte_of_ascii_of_N in E by lia. cbn in E. lia. }
  assert (Hcont : forall n s, replace_from 0 BOTH new (String (cont n) s) = String (cont n) (replace_from 0 BOTH new s)).
  { intros n s. unfold cont. pose proof (N.mod_lt n 64). apply Hbyte. lia. }
  unfold wide in Hc. unfold encode_char. destruct (N.ltb_spec c 128); [lia|]. repeat case_match; rewrite Hbyte by (Z.div_mod_to_equations; lia); by rewrite ?Hcont.
Qed.

Lemma replace_written new s : written new -> written s -> written (replace_all BOTH new s).
Proof.
  intros Hnew (l & Hl & ->). unfold replace_all. remember (length l) as n eqn:Hn. assert (Hle : (length l <= n)%nat) by lia. clear Hn.
  revert l Hl Hle. induction n as [|n IH]; intros l Hl Hle; destruct Hl as [|c l Hc Hl]; try (by exists []); [simpl in Hle; lia|].
  change (of_chars (c :: l)) with (encode_char c (of_chars l)). simpl in Hle. destruct (N.ltb_spec c 128) as [Ha|Ha].
  - unfold encode_char. destruct (N.ltb_spec c 128); [|lia]. cbn [replace_from]. destruct (starts_with BOTH _) eqn:Es.
    + apply starts_with_app in Es as [r Hr]. unfold BOTH in Hr. cbn [String.append] in Hr. injection Hr as _ Hr. apply written_app; [done|].
      change (Nat.pred (String.length BOTH)) with 2%nat. rewrite Hr. cbn [replace_from].
      assert (Hw : written r). { apply (written_tail "*"); [vm_compute; done|]. apply (written_tail "*"); [vm_compute; done|]. exists l. by rewrite Hr. }
      destruct Hw as (k & Hk & ->). apply IH; [done|]. assert (Hlk : l = 42%N :: 42%N :: k).
      { assert (Hk' : Forall wide (42%N :: 42%N :: k)) by (repeat (constructor; [unfold wide; lia|]); done).
        rewrite <- (chars_written l), <- (chars_written _ Hk') by done. by rewrite Hr. }
      rewrite Hlk in Hle. simpl in Hle. lia.
    + assert (Hr : written (replace_from 0 BOTH new (of_chars l))) by (apply IH; [done|lia]). apply (written_cons c) in Hr; [|done]. unfold encode_char in Hr.
      by destruct (N.ltb_spec c 128); [|lia].
  - rewrite replace_past by done. apply written_cons; [done|]. apply IH; [done|lia].
Qed.

Lemma restricted_nonneg path n : restricted path = Some n -> 0 <= n.
Proof.
  unfold restricted. destruct (strip_prefix "/" (trim path)) as [rest|]; [|done]. cbn [and_then]. destruct (and_then (strip_suffix "*" rest) _) as [t|]; [|done].
  cbn [and_then]. unfold parse_u32. destruct (negb _ && str_all is_digit (without_plus t)) eqn:E; [|done]. apply andb_true_iff in E as [_ Hdig].
  destruct (_ <=? _); [|done]. cbn [andb]. intros [= <-]. by apply dec_value_bound.
Qed.

Lemma branches_nonneg restrictions receive change : branches restrictions = Ok (receive, change) -> 0 <= receive /\ 0 <= change.
Proof.
  unfold branches. destruct (eq_ignore_ascii_case _ _); [by intros [= <- <-]|]. destruct (split "," restrictions) as [|p [|q [|]]]; cbn [List.map]; try (repeat case_match; done).
  destruct (restricted p) as [r|] eqn:Ep; [|done]. destruct (restricted q) as [c|] eqn:Eq; [|done]. destruct (r =? c); [done|]. intros [= <- <-].
  split; by eapply restricted_nonneg.
Qed.

(** The descriptor of a record is made of characters. *)
Lemma record_written text record : parse_bsms text = Ok record -> written (b_descriptor record).
Proof.
  unfold parse_bsms. destruct (negb _); [done|]. destruct (trimmed_lines text) as [|h [|template [|restrictions [|first [|]]]]] eqn:El; try done.
  destruct (lacks "(" template); [done|]. destruct (branches restrictions) as [[receive change]|] eqn:Eb; [|done]. cbn [result_bind]. intros [= <-]. cbn [b_descriptor fst snd].
  apply branches_nonneg in Eb as [Hr Hc]. apply replace_written.
  - assert (Hd : forall n, 0 <= n -> written (dec n)). { intros n Hn. apply ascii_written. eapply str_all_impl; [apply is_digit_ascii|by apply dec_digits]. }
    change (written ("/<" +:+ dec receive +:+ ";" +:+ dec change +:+ ">/*")).
    repeat (apply written_app; [first [by apply ascii_written|by apply Hd]|]). by apply ascii_written.
  - assert (Hin : In template (trimmed_lines text)) by (rewrite El; right; by left). unfold trimmed_lines in Hin. apply retain_In in Hin as [Hin _].
    apply in_map_iff in Hin as (line & <- & _). apply trim_written.
Qed.
