(* ===== verification/Import.v ===== *)
(** [input/mod.rs], the classifier: what a pasted, scanned or opened text
    is, read into descriptors or an address, with what the person is to
    confirm; and the reading of a transaction in the same texts, of
    [broadcast.rs]. JSON is read by another crate. *)
From S2P Require Import Prelude Utf8 Text Errors Network Xpub Connect PolicyModel Paths Descriptors Lock TxExtras Signing Decode.
From S2P Require Import Store Faults Addresses Syncs AddressSyncs Engines CryptoOutput Qr Bsms.
From Stdlib Require Import Ascii.

(** ** What is read *)

Module ParsedPayload.
Inductive ParsedPayload :=
| Descriptors (external : string) (internal : option string) (script : ScriptKind)
| Address (address : string).
End ParsedPayload.
Export ParsedPayload (ParsedPayload).

#[export] Instance ParsedPayload_eq_dec : EqDecision ParsedPayload.
Proof. solve_decision. Defined.
#[export] Instance RecognizedKind_eq_dec : EqDecision RecognizedKind.
Proof. solve_decision. Defined.

Record ParsedInput := {
  pi_kind : RecognizedKind;
  pi_networks : list Network;
  pi_payload : ParsedPayload;
  pi_warnings : list InputWarning;
  pi_script_options : list ScriptKind;
  pi_derivation : option DerivationChoice;
  pi_derivation_editable : bool;
  pi_preview_address : option string;
}.

Record ImportOptions := { io_script : option ScriptKind; io_derivation : option DerivationChoice; io_network : option Network }.

Definition default_options : ImportOptions := {| io_script := None; io_derivation := None; io_network := None |}.

Definition SINGLE_KEY_SCRIPTS : list ScriptKind := [Legacy; NestedSegwit; Segwit; Taproot].
Definition MAX_TEXT_LEN : nat := Z.to_nat (64 * 1024).

(** The name [Debug] prints of a script type. *)
Definition script_name (script : ScriptKind) : string :=
  match script with
  | Legacy => "Legacy" | NestedSegwit => "NestedSegwit" | Segwit => "Segwit" | Taproot => "Taproot"
  | WitnessScript => "WitnessScript" | LegacyScript => "LegacyScript" | Bare => "Bare"
  end.

(** A text that spells out its own script and paths. *)
Definition fixed_input (kind : RecognizedKind) (networks : list Network) (payload : ParsedPayload) (warnings : list InputWarning) : ParsedInput :=
  {| pi_kind := kind; pi_networks := networks; pi_payload := payload; pi_warnings := warnings; pi_script_options := [];
     pi_derivation := None; pi_derivation_editable := false; pi_preview_address := None |}.

Definition with_kind (kind : RecognizedKind) (p : ParsedInput) : ParsedInput :=
  {| pi_kind := kind; pi_networks := pi_networks p; pi_payload := pi_payload p; pi_warnings := pi_warnings p; pi_script_options := pi_script_options p;
     pi_derivation := pi_derivation p; pi_derivation_editable := pi_derivation_editable p; pi_preview_address := pi_preview_address p |}.
Definition with_warnings (warnings : list InputWarning) (p : ParsedInput) : ParsedInput :=
  {| pi_kind := pi_kind p; pi_networks := pi_networks p; pi_payload := pi_payload p; pi_warnings := warnings; pi_script_options := pi_script_options p;
     pi_derivation := pi_derivation p; pi_derivation_editable := pi_derivation_editable p; pi_preview_address := pi_preview_address p |}.
Definition with_networks (networks : list Network) (p : ParsedInput) : ParsedInput :=
  {| pi_kind := pi_kind p; pi_networks := networks; pi_payload := pi_payload p; pi_warnings := pi_warnings p; pi_script_options := pi_script_options p;
     pi_derivation := pi_derivation p; pi_derivation_editable := pi_derivation_editable p; pi_preview_address := pi_preview_address p |}.
Definition with_preview (preview : option string) (p : ParsedInput) : ParsedInput :=
  {| pi_kind := pi_kind p; pi_networks := pi_networks p; pi_payload := pi_payload p; pi_warnings := pi_warnings p; pi_script_options := pi_script_options p;
     pi_derivation := pi_derivation p; pi_derivation_editable := pi_derivation_editable p; pi_preview_address := preview |}.

(** [serde_json::Value]; the names of an object are distinct. *)
Module JsonValue.
Inductive JsonValue :=
| Null
| Bool (b : bool)
| Number (text : string)
| String (text : string)
| Array (items : list JsonValue)
| Object (fields : list (string * JsonValue)).
End JsonValue.
Export JsonValue (JsonValue).

Class SerdeJson := { json_from_str : string -> result JsonValue string }.

Definition get (value : JsonValue) (name : string) : option JsonValue :=
  match value with
  | JsonValue.Object fields => option_map snd (List.find (fun field => bool_decide (fst field = name)) fields)
  | _ => None
  end.
Definition as_text (value : JsonValue) : option string := match value with JsonValue.String text => Some text | _ => None end.
Definition is_object (value : JsonValue) : bool := match value with JsonValue.Object _ => true | _ => false end.
Definition get_text (value : JsonValue) (name : string) : option string := and_then (get value name) as_text.

Section Classifier.
Context `{Keys} `{Bdk} `{Envelopes} `{Transactions} `{Psbts} `{SerdeJson}.

(** ** A transaction, in text *)

Definition decode_transaction (input : string) : CoreResult DecodedTx :=
  let? text := squeezed input in
  let? text :=
    if is_envelope text then
      let? progress := open_pasted text in
      match q_text progress with
      | None => Err (pasted_part text (q_total progress))
      | Some inner => let? inner := squeezed inner in opened_once inner
      end
    else Ok text in
  let? bytes := decode_bytes text in
  decode_bytes_as_transaction bytes.

Definition looks_like_transaction (input : string) : bool := is_ok (decode_transaction input).

(** ** Descriptors *)

Definition slip132_warning (converted : bool) : list InputWarning := if converted then [Slip132Converted] else [].

Definition any_hint (hints : list Slip132Hint) : bool := match hints with [] => false | _ => true end.

Definition parse_single_descriptor (s : string) : CoreResult ParsedInput :=
  let? (s, hints) := normalize_descriptor_keys s in
  let? descriptor := read_descriptor s in
  let? _ := check_slip132_hints hints descriptor in
  let warnings := slip132_warning (any_hint hints) in
  if is_multipath descriptor then
    match into_single_descriptors descriptor with
    | Err e => Err (descriptor_error ("invalid multipath descriptor: " +:+ e))
    | Ok [receive; change] =>
      let? networks := descriptor_networks receive in
      Ok (fixed_input MultipathDescriptor networks
            (ParsedPayload.Descriptors (to_text receive) (Some (to_text change)) (script_kind_of receive)) warnings)
    | Ok paths => Err (descriptor_error ("multipath descriptors must have exactly 2 paths, found " +:+ dec (Z.of_nat (length paths))))
    end
  else
    let? networks := descriptor_networks descriptor in
    Ok (fixed_input Syncs.Descriptor networks (ParsedPayload.Descriptors (to_text descriptor) None (script_kind_of descriptor))
          (warnings ++ if has_wildcard descriptor then [ChangeNotTracked] else [])).

Definition parse_descriptor_pair (first second : string) : CoreResult ParsedInput :=
  let? (first, first_hints) := normalize_descriptor_keys first in
  let? (second, second_hints) := normalize_descriptor_keys second in
  let? external := read_descriptor first in
  let? internal := read_descriptor second in
  let? _ := check_slip132_hints first_hints external in
  let? _ := check_slip132_hints second_hints internal in
  if is_multipath external || is_multipath internal
  then Err (descriptor_error "cannot combine a multipath descriptor with a second descriptor")
  else
    let? external_networks := descriptor_networks external in
    let? internal_networks := descriptor_networks internal in
    if negb (bool_decide (external_networks = internal_networks))
    then Err (descriptor_error "the two descriptors belong to different networks")
    else
      let? _ := pair_holds external internal true in
      Ok (fixed_input DescriptorPair external_networks
            (ParsedPayload.Descriptors (to_text external) (Some (to_text internal)) (script_kind_of external))
            (slip132_warning (any_hint first_hints || any_hint second_hints))).

(** The indices [f] takes. *)
Definition indices {A} (f : A -> bool) (l : list A) : list nat := retain (fun i => match l !! i with Some x => f x | None => false end) (seq 0 (length l)).

Definition parse_descriptor_file (lines : list string) : CoreResult ParsedInput :=
  let? parsed := collect (List.map parse_single_descriptor lines) in
  match indices (fun p => bool_decide (pi_kind p = MultipathDescriptor)) parsed with
  | [whole] =>
    match parsed !! whole, retain (fun i => negb (i =? whole)%nat) (seq 0 (length lines)) with
    | Some wallet, [i; j] =>
      let describes receive change := let? pair_read := parse_descriptor_pair receive change in Ok (bool_decide (pi_payload pair_read = pi_payload wallet)) in
      let a := nth i lines "" in
      let b := nth j lines "" in
      let? same := describes a b in
      let? same := if (same : bool) then Ok true else describes b a in
      if (same : bool) then Ok wallet
      else Err (descriptor_error "the descriptors in this file do not describe the same wallet")
    | _, _ => Err (Errors.Internal "three lines, one of them whole")
    end
  | _ => Err (descriptor_error "expected one multipath descriptor beside its receive and change descriptors")
  end.

(** ** Extended keys *)

(** The text of a single key under its script. *)
Definition key_script (script : ScriptKind) (key : string) : CoreResult string :=
  match script with
  | Legacy => Ok ("pkh(" +:+ key +:+ ")")
  | NestedSegwit => Ok ("sh(wpkh(" +:+ key +:+ "))")
  | Segwit => Ok ("wpkh(" +:+ key +:+ ")")
  | Taproot => Ok ("tr(" +:+ key +:+ ")")
  | other => Err (Errors.Internal ("no single-key descriptor template for " +:+ script_name other))
  end.

Definition build_branch (key : string) (script : ScriptKind) (origin branch : string) : CoreResult string :=
  let? text := key_script script (origin +:+ key +:+ "/" +:+ branch) in
  let? descriptor := read_descriptor text in Ok (to_text descriptor).

Definition descriptors_for_xpub (key : string) (script : ScriptKind) (derivation : DerivationChoice) : CoreResult (string * option string) :=
  let origin := unwrap_or (dc_origin derivation) "" in
  let? external := build_branch key script origin (dc_receive derivation) in
  let? internal := optionally (build_branch key script origin) (dc_change derivation) in
  Ok (external, internal).

Definition cosigner (what : string) : CoreError :=
  InvalidInput "extended key" ("this " +:+ what +:+ " marks a multisig cosigner key; import the full multisig descriptor instead").

Definition check_choice (choice : option ScriptKind) : CoreResult unit :=
  match choice with
  | Some choice =>
    if bool_decide (choice ∈ SINGLE_KEY_SCRIPTS) then Ok tt
    else Err (InvalidInput "script type" (script_name choice +:+ " cannot be built from a single key"))
  | None => Ok tt
  end.

Definition check_purpose (derivation : DerivationChoice) : CoreResult unit :=
  match and_then (dc_origin derivation) origin_purpose with
  | Some purpose => if (purpose =? 45) || (purpose =? 48) then Err (cosigner "origin") else Ok tt
  | None => Ok tt
  end.

(** The script of a lone key, and whether nothing said it. *)
Definition script_of_key (prefix choice : option ScriptKind) (derivation : DerivationChoice) : ScriptKind * bool :=
  match prefix, choice, and_then (dc_origin derivation) script_from_origin with
  | Some prefix, _, _ => (prefix, false)
  | None, Some choice, _ | None, None, Some choice => (choice, false)
  | None, None, None => (Segwit, true)
  end.

Definition parse_extended_key (token : string) (origin : option string) (options : ImportOptions) : CoreResult ParsedInput :=
  let? decoded := decode_extended_key token in
  if multisig_only decoded then Err (cosigner "prefix")
  else
    let? _ := check_choice (io_script options) in
    let? derivation := effective_derivation origin (io_derivation options) in
    let? _ := check_purpose derivation in
    let '(script, assumed) := script_of_key (script_hint decoded) (io_script options) derivation in
    let? both := descriptors_for_xpub (normalized decoded) script derivation in
    Ok {| pi_kind := Syncs.ExtendedKey;
          pi_networks := networks_for_kind (Some (network_kind decoded));
          pi_payload := ParsedPayload.Descriptors both.1 both.2 script;
          pi_warnings :=
            slip132_warning (converted decoded) ++ (if assumed then [AssumedSegwit] else [])
            ++ (if negb (bool_decide (dc_receive derivation = RECEIVE_BRANCH)) || negb (bool_decide (dc_change derivation = Some CHANGE_BRANCH))
                then [NonStandardDerivation] else [])
            ++ (if is_some both.2 then [] else [ChangeNotTracked]);
          pi_script_options := if is_some (script_hint decoded) then [] else SINGLE_KEY_SCRIPTS;
          pi_derivation := Some derivation;
          pi_derivation_editable := true;
          pi_preview_address := None |}.

(** ** Addresses *)

(** The first receive address of descriptors on a network. *)
Definition first_address (payload : ParsedPayload) (network : Network) : option string :=
  match payload with
  | ParsedPayload.Descriptors external _ _ =>
    match read_descriptor external with Ok descriptor => address_at descriptor 0 network | Err _ => None end
  | ParsedPayload.Address _ => None
  end.

Definition preview_address (parsed : ParsedInput) (chosen : option Network) : option string :=
  let chosen := match chosen with Some network => if bool_decide (network ∈ pi_networks parsed) then Some network else None | None => None end in
  and_then (match chosen with Some network => Some network | None => hd_error (pi_networks parsed) end) (first_address (pi_payload parsed)).

Definition payment_address (token : string) : string :=
  if eq_ignore_ascii_case (String.substring 0 8 token) "bitcoin:"
  then let rest := String.substring 8 (String.length token - 8) token in
       match split_once "?" rest with Some (address, _) => address | None => rest end
  else token.

Definition classify_address (address : Addr) : CoreResult ParsedInput :=
  match retain (fun network => is_valid_for_network address (Network.to_bitcoin network)) Network.ALL with
  | [] => Err (InvalidInput "address" "address does not belong to any supported network")
  | networks => Ok (fixed_input Syncs.Address networks (ParsedPayload.Address (address_text address)) [])
  end.

(** ** Wallet exports *)

Fixpoint reject_private_in_json (value : JsonValue) : CoreResult unit :=
  match value with
  | JsonValue.String text => reject_private_material text
  | JsonValue.Array items =>
    (fix each items := match items with
                       | [] => Ok tt
                       | item :: items => let? _ := reject_private_in_json item in each items
                       end) items
  | JsonValue.Object fields =>
    (fix each fields := match fields with
                        | [] => Ok tt
                        | (name, value) :: fields =>
                          let? _ := reject_private_material name in
                          let? _ := reject_private_in_json value in
                          each fields
                        end) fields
  | JsonValue.Null | JsonValue.Bool _ | JsonValue.Number _ => Ok tt
  end.

Definition export_error (detail : string) : CoreError := InvalidInput "wallet export" detail.

Definition coldcard_account (file account : JsonValue) (account_key : string) (script : ScriptKind) : CoreResult ParsedInput :=
  match get_text account "xpub" with
  | None => Err (export_error ("`" +:+ account_key +:+ "` entry has no xpub"))
  | Some key =>
    let? decoded := decode_extended_key key in
    if multisig_only decoded
    then Err (export_error ("`" +:+ account_key +:+ "` holds a multisig cosigner key; import the full multisig descriptor instead"))
    else if match script_hint decoded with Some hint => negb (bool_decide (hint = script)) | None => false end
    then Err (export_error ("`" +:+ account_key +:+ "` holds a key whose prefix is for another script type"))
    else
      let path := option_map (fun deriv => trim_start_matches "/" (trim_start_matches "m" deriv)) (get_text account "deriv") in
      let? origin :=
        match get_text file "xfp", path with
        | Some fingerprint, Some "" => let? origin := canonical_origin fingerprint File in Ok (Some origin)
        | Some fingerprint, Some path => let? origin := canonical_origin ("[" +:+ fingerprint +:+ "/" +:+ path +:+ "]") File in Ok (Some origin)
        | _, _ => Ok None
        end in
      let derivation := {| dc_receive := dc_receive default_derivation; dc_change := dc_change default_derivation; dc_origin := origin |} in
      let? both := descriptors_for_xpub (normalized decoded) script derivation in
      Ok (fixed_input WalletExport (networks_for_kind (Some (network_kind decoded))) (ParsedPayload.Descriptors both.1 both.2 script)
            (slip132_warning (converted decoded)))
  end.

Definition derives_first (parsed : ParsedInput) (first : string) : bool :=
  any (fun network => match first_address (pi_payload parsed) network with
                      | Some address => eq_ignore_ascii_case address (trim first)
                      | None => false
                      end) (pi_networks parsed).

(** [ACCOUNTS]: the accounts of a Coldcard-style export, the modern ones
    first. *)
Definition ACCOUNTS : list (string * ScriptKind) := [("bip84", Segwit); ("bip86", Taproot); ("bip49", NestedSegwit); ("bip44", Legacy)].

Definition present_accounts (value : JsonValue) : list (string * ScriptKind) :=
  retain (fun account => match get value account.1 with Some entry => is_object entry | None => false end) ACCOUNTS.

Definition payload_script (payload : ParsedPayload) : option ScriptKind :=
  match payload with ParsedPayload.Descriptors _ _ script => Some script | ParsedPayload.Address _ => None end.

(** One account of a Coldcard-style export. *)
Definition parse_account (file account : JsonValue) (account_key : string) (script : ScriptKind) (several : bool) : CoreResult ParsedInput :=
  let? parsed :=
    match get_text account "desc" with
    | Some desc =>
      let? parsed := parse_single_descriptor desc in
      if bool_decide (payload_script (pi_payload parsed) = Some script) then Ok parsed
      else Err (export_error ("`" +:+ account_key +:+ "` holds a descriptor for another script type"))
    | None => coldcard_account file account account_key script
    end in
  let? _ :=
    match get_text account "first" with
    | Some first =>
      if derives_first parsed first then Ok tt
      else Err (export_error ("the first address of `" +:+ account_key +:+ "` (" +:+ first
             +:+ ") is not the one its key derives; the file may be altered"))
    | None => Ok tt
    end in
  Ok (with_kind WalletExport (with_warnings (pi_warnings parsed ++ if several then [MultipleAccountsInFile] else []) parsed)).

Definition parse_json_export (input : string) : CoreResult ParsedInput :=
  match json_from_str input with
  | Err e => Err (InvalidInput "json" e)
  | Ok value =>
    let? _ := reject_private_in_json value in
    match get_text value "descriptor" with
    | Some descriptor =>
      let? parsed := match get_text value "change_descriptor" with
                     | Some change => parse_descriptor_pair descriptor change
                     | None => parse_single_descriptor descriptor
                     end in
      Ok (with_kind WalletExport parsed)
    | None =>
      match present_accounts value with
      | (account_key, script) :: others =>
        parse_account value (unwrap_or (get value account_key) JsonValue.Null) account_key script (match others with [] => false | _ => true end)
      | [] => Err (UnrecognizedInput "JSON file is not a recognized wallet export")
      end
    end
  end.

(** ** BSMS records *)

(** The networks on which a record's descriptor derives an address, with it. *)
Definition derived_addresses (parsed : ParsedInput) : list (Network * string) :=
  omap (fun network => option_map (pair network) (first_address (pi_payload parsed) network)) (pi_networks parsed).

Definition promised (record : BsmsRecord) (parsed : ParsedInput) : CoreResult ParsedInput :=
  let derived := derived_addresses parsed in
  match retain (fun p => eq_ignore_ascii_case p.2 (b_first_address record)) derived, derived with
  | (network, address) :: more, _ =>
    Ok (with_kind Syncs.Bsms (with_networks (List.map fst ((network, address) :: more)) (with_preview (Some address) parsed)))
  | [], (_, address) :: _ =>
    Err (bsms_error ("the first address in the record (" +:+ b_first_address record +:+ ") is not the one this descriptor derives (" +:+ address
      +:+ "); the file may be altered or belong to another network"))
  | [], [] => Err (bsms_error "the descriptor in the record derives no address")
  end.

(** [parse_bsms_record], its descriptor classified by [classify]. *)
Definition parse_bsms_record (classify : string -> CoreResult ParsedInput) (input : string) : CoreResult ParsedInput :=
  if (MAX_TEXT_LEN <? String.length (trim input))%nat then Err (UnrecognizedInput "input too large")
  else
    let? _ := reject_private_material (trim input) in
    let? record := parse_bsms input in
    let? parsed := classify (b_descriptor record) in
    promised record parsed.

(** ** The classifier *)

Definition BACKUP_PASTED : string := "this is a Gerfaut backup, not a wallet to watch: restore it from Settings".
Definition TRANSACTION_PASTED : string := "this is a transaction, not a wallet to watch: the Broadcast page sends it".
Definition MATCHES_NOTHING : string := "not a descriptor, extended public key, address, or wallet export".

Definition add_warning (warnings : list InputWarning) (warning : InputWarning) : list InputWarning :=
  if bool_decide (warning ∈ warnings) then warnings else warnings ++ [warning].

(** The lines of a text that say something: neither blank nor a comment. *)
Definition said_lines (text : string) : list string := retain (fun line => negb (starts_with "#" line)) (trimmed_lines text).

Definition has_parenthesis (line : string) : bool := negb (lacks "(" line).

Definition classify_token (token : string) (options : ImportOptions) : CoreResult ParsedInput :=
  if has_parenthesis token then parse_single_descriptor token
  else
    match split_key_origin token with
    | Some (origin, key) => parse_extended_key key (Some origin) options
    | None =>
      if looks_like_extended_key token then parse_extended_key token None options
      else match parse_address (payment_address token) with
           | Ok address => classify_address address
           | Err _ => Err (UnrecognizedInput MATCHES_NOTHING)
           end
    end.

Definition classify_lines (lines : list string) (options : ImportOptions) : CoreResult ParsedInput :=
  match lines with
  | [first; second] =>
    if has_parenthesis first && has_parenthesis second then parse_descriptor_pair first second
    else Err (UnrecognizedInput "expected a single value, or two descriptors on two lines")
  | [_; _; _] =>
    if all has_parenthesis lines then parse_descriptor_file lines
    else Err (UnrecognizedInput "expected a single value, or two descriptors on two lines")
  | [token] => classify_token token options
  | _ => Err (UnrecognizedInput "expected a single value, or two descriptors on two lines")
  end.

(** What is not in an envelope. *)
Definition classify_bare (trimmed : string) (options : ImportOptions) : CoreResult ParsedInput :=
  if starts_with "{" trimmed then parse_json_export trimmed
  else if looks_like_transaction trimmed then Err (InvalidInput "transaction" TRANSACTION_PASTED)
  else classify_lines (said_lines trimmed) options.

(** An envelope is opened, and what it holds classified; [fuel] counts the
    texts inside texts. *)
Fixpoint classify (fuel : nat) (input : string) (options : ImportOptions) : CoreResult ParsedInput :=
  let trimmed := trim input in
  if bool_decide (trimmed = "") then Err (UnrecognizedInput "empty input")
  else if (MAX_TEXT_LEN <? String.length trimmed)%nat then Err (UnrecognizedInput "input too large")
  else
    let? _ := reject_private_material trimmed in
    if starts_with BACKUP_PREFIX trimmed then Err (InvalidInput "backup" BACKUP_PASTED)
    else if is_envelope trimmed then
      let? progress := open_pasted trimmed in
      match q_text progress with
      | None => Err (pasted_part trimmed (q_total progress))
      | Some text =>
        let? text := opened_once text in
        match fuel with
        | O => Err (Errors.Internal "a text inside too many others")
        | S fuel =>
          let? parsed := if is_bsms text then parse_bsms_record (fun text => classify fuel text default_options) text
                         else classify fuel text options in
          Ok (with_warnings (foldl add_warning (pi_warnings parsed) (q_warnings progress)) parsed)
        end
      end
    else classify_bare trimmed options.

(** How deep texts are inside texts: see [classify_settles]. *)
Definition DEEPEST : nat := 1.

Definition as_kind (payload : ParsedPayload) : WalletKind :=
  match payload with
  | ParsedPayload.Descriptors external internal script => WalletKind.Descriptors external internal script
  | ParsedPayload.Address address => WalletKind.SingleAddress address
  end.

Definition engine_takes (parsed : ParsedInput) : CoreResult unit :=
  match pi_payload parsed, hd_error (pi_networks parsed) with
  | ParsedPayload.Descriptors _ _ _, Some network =>
    match engine_for (as_kind (pi_payload parsed)) network with
    | Ok _ => Ok tt
    | Err (Errors.Descriptor detail) => Err (descriptor_error detail)
    | Err other => Err other
    end
  | _, _ => Ok tt
  end.

Definition parse_input_with_options (input : string) (options : ImportOptions) : CoreResult ParsedInput :=
  if is_bsms input then
    let? parsed := parse_bsms_record (fun text => classify DEEPEST text default_options) input in
    let? _ := engine_takes parsed in Ok parsed
  else
    let? parsed := classify DEEPEST input options in
    let? _ := engine_takes parsed in
    Ok (if is_some (pi_preview_address parsed) then parsed else with_preview (preview_address parsed (io_network options)) parsed).

Definition parse_input_with (input : string) (script : option ScriptKind) : CoreResult ParsedInput :=
  parse_input_with_options input {| io_script := script; io_derivation := None; io_network := None |}.

Definition parse_input (input : string) : CoreResult ParsedInput := parse_input_with_options input default_options.
End Classifier.

(** ** Wallets read *)

Section Read.
Context `{Keys} `{Bdk} `{Envelopes} `{Transactions} `{Psbts} `{SerdeJson}.

(** Descriptors, on at least one network. *)
Definition is_wallet (p : ParsedInput) : Prop := pi_networks p <> [] /\ exists e i s, pi_payload p = ParsedPayload.Descriptors e i s.

(** An address, on the networks it is of, one at least. *)
Definition is_address (p : ParsedInput) : Prop :=
  exists address, pi_payload p = ParsedPayload.Address (address_text address)
    /\ pi_networks p = retain (fun network => is_valid_for_network address (Network.to_bitcoin network)) Network.ALL /\ pi_networks p <> [].

Lemma bind_Ok {A B E} (r : result A E) (k : A -> result B E) b : result_bind r k = Ok b -> exists a, r = Ok a /\ k a = Ok b.
Proof. destruct r as [a|]; [|done]. intros Hk. by exists a. Qed.

Lemma networks_some kind : networks_for_kind kind <> [].
Proof. by destruct kind as [[]|]. Qed.

Lemma descriptor_networks_some d networks : descriptor_networks d = Ok networks -> networks <> [].
Proof. unfold descriptor_networks. destruct (_ <? _)%nat; [done|]. intros [= <-]. apply networks_some. Qed.

Lemma single_wallet s p : parse_single_descriptor s = Ok p -> is_wallet p.
Proof.
  unfold parse_single_descriptor. intros ([text hints] & _ & (d & _ & ([] & _ & Hd)%bind_Ok)%bind_Ok)%bind_Ok. destruct (is_multipath d).
  - destruct (into_single_descriptors d) as [[|receive [|change [|]]]|]; try done. apply bind_Ok in Hd as (networks & Hn & [= <-]).
    split; [by eapply descriptor_networks_some|]. cbn. by eauto.
  - apply bind_Ok in Hd as (networks & Hn & [= <-]). split; [by eapply descriptor_networks_some|]. cbn. by eauto.
Qed.

Lemma pair_wallet first second p : parse_descriptor_pair first second = Ok p -> is_wallet p.
Proof.
  unfold parse_descriptor_pair. intros ([? ?] & _ & ([? ?] & _ & (e & _ & (i & _ & ([] & _ & ([] & _ & Hp)%bind_Ok)%bind_Ok)%bind_Ok)%bind_Ok)%bind_Ok)%bind_Ok.
  destruct (_ || _); [done|]. apply bind_Ok in Hp as (networks & Hn & (others & _ & Hp)%bind_Ok). destruct (negb _); [done|].
  apply bind_Ok in Hp as ([] & _ & [= <-]). split; [by eapply descriptor_networks_some|]. cbn. by eauto.
Qed.

Lemma collect_In {A E} (l : list (result A E)) k x : collect l = Ok k -> In x k -> In (Ok x) l.
Proof.
  revert k. induction l as [|r l IH]; intros k; cbn [collect]; [by intros [= <-]|].
  intros (a & -> & (rest & Hr & [= <-])%bind_Ok)%bind_Ok [->|Hx]; [by left|]. right. by apply (IH rest).
Qed.

Lemma file_wallet lines p : parse_descriptor_file lines = Ok p -> is_wallet p /\ exists line, In line lines /\ parse_single_descriptor line = Ok p.
Proof.
  unfold parse_descriptor_file. intros (parsed & Hc & Hp)%bind_Ok. destruct (indices _ parsed) as [|whole [|]]; try done.
  destruct (parsed !! whole) as [wallet|] eqn:Ew; [|done]. destruct (retain _ _) as [|i [|j [|]]]; try done.
  apply bind_Ok in Hp as (same & _ & (same' & _ & Hp)%bind_Ok). destruct same'; [|done]. injection Hp as <-.
  apply list_elem_of_lookup_2, list_elem_of_In in Ew. pose proof (collect_In _ _ _ Hc Ew) as Hin. apply in_map_iff in Hin as (line & Hl & Hin).
  split; [by eapply single_wallet|]. by exists line.
Qed.

Lemma key_wallet token origin options p : parse_extended_key token origin options = Ok p -> is_wallet p.
Proof.
  unfold parse_extended_key. intros (decoded & _ & Hp)%bind_Ok. destruct (multisig_only decoded); [done|].
  apply bind_Ok in Hp as ([] & _ & (derivation & _ & ([] & _ & Hp)%bind_Ok)%bind_Ok). destruct (script_of_key _ _ _) as [script assumed].
  apply bind_Ok in Hp as (both & _ & [= <-]). split; [cbn; by destruct (network_kind decoded)|]. cbn. by eauto.
Qed.

Lemma coldcard_wallet file account key script p : coldcard_account file account key script = Ok p -> is_wallet p.
Proof.
  unfold coldcard_account. destruct (get_text account "xpub"); [|done]. intros (decoded & _ & Hp)%bind_Ok. destruct (multisig_only decoded); [done|].
  destruct (match script_hint decoded with Some hint => _ | None => _ end); [done|]. apply bind_Ok in Hp as (origin & _ & (both & _ & [= <-])%bind_Ok).
  split; [cbn; by destruct (network_kind decoded)|]. cbn. by eauto.
Qed.

Lemma export_wallet text p : parse_json_export text = Ok p -> is_wallet p.
Proof.
  assert (Hk : forall p, is_wallet p -> is_wallet (with_kind WalletExport p)) by (by intros q).
  unfold parse_json_export. destruct (json_from_str text) as [value|]; [|done]. intros ([] & _ & Hp)%bind_Ok. destruct (get_text value "descriptor").
  - apply bind_Ok in Hp as (q & Hq & [= <-]). apply Hk. destruct (get_text value "change_descriptor"); [by eapply pair_wallet|by eapply single_wallet].
  - destruct (present_accounts value) as [|[key script] others]; [done|]. apply bind_Ok in Hp as (q & Hq & ([] & _ & [= <-])%bind_Ok).
    assert (Hw : is_wallet q); [|done]. destruct (get_text _ "desc") as [desc|]; [|by eapply coldcard_wallet].
    apply bind_Ok in Hq as (r & Hr & Hq). case_bool_decide; [|done]. injection Hq as <-. by eapply single_wallet.
Qed.

Lemma bare_reads text options p : classify_bare text options = Ok p -> is_wallet p \/ is_address p.
Proof.
  unfold classify_bare. destruct (starts_with "{" text); [left; by eapply export_wallet|]. destruct (looks_like_transaction text); [done|].
  unfold classify_lines. destruct (said_lines text) as [|a [|b [|c [|]]]]; try done.
  - unfold classify_token. destruct (has_parenthesis a); [left; by eapply single_wallet|].
    destruct (split_key_origin a) as [[origin key]|]; [left; by eapply key_wallet|]. destruct (looks_like_extended_key a); [left; by eapply key_wallet|].
    destruct (parse_address _) as [address|]; [|done]. unfold classify_address. destruct (retain _ _) as [|n l] eqn:Er; [done|]. intros [= <-]. right.
    exists address. by rewrite Er.
  - destruct (_ && _); [|done]. left. by eapply pair_wallet.
  - destruct (all _ _); [|done]. intros Hp. left. by apply file_wallet in Hp as [? _].
Qed.

(** ** Records *)

Lemma derived_In parsed network address : In (network, address) (derived_addresses parsed) <->
  In network (pi_networks parsed) /\ first_address (pi_payload parsed) network = Some address.
Proof.
  unfold derived_addresses. rewrite <- !list_elem_of_In, list_elem_of_omap. split.
  - intros (n & Hn & Hf). destruct (first_address _ n) as [a|] eqn:Ea; [|done]. by injection Hf as -> ->.
  - intros [Hn Hf]. exists network. split; [done|]. by rewrite Hf.
Qed.

(** A record read: its descriptor, on exactly the networks where the first
    address is the one it promises, and there is one. *)
Lemma promise_kept record parsed p : promised record parsed = Ok p ->
  pi_payload p = pi_payload parsed /\ pi_networks p <> []
  /\ (forall network, In network (pi_networks p) <-> In network (pi_networks parsed)
        /\ exists address, first_address (pi_payload p) network = Some address /\ eq_ignore_ascii_case address (b_first_address record) = true)
  /\ exists address, pi_preview_address p = Some address /\ eq_ignore_ascii_case address (b_first_address record) = true.
Proof.
  unfold promised. set (matching := retain _ _).
  assert (Hm : forall n a, In (n, a) matching <-> In (n, a) (derived_addresses parsed) /\ eq_ignore_ascii_case a (b_first_address record) = true).
  { intros n a. unfold matching. by rewrite retain_In. }
  clearbody matching. destruct matching as [|[n a] more]; [by destruct (derived_addresses parsed) as [|[]]|]. intros [= <-].
  cbn [pi_payload pi_networks pi_preview_address with_kind with_networks with_preview]. split; [done|]. split; [done|]. split.
  - intros network.
    change (In network (List.map fst ((n, a) :: more)) <-> In network (pi_networks parsed)
      /\ exists address, first_address (pi_payload parsed) network = Some address /\ eq_ignore_ascii_case address (b_first_address record) = true).
    rewrite in_map_iff. split.
    + intros ([n' a'] & <- & Hin). apply Hm in Hin as [Hd He]. apply derived_In in Hd as [Hn Hf]. split; [done|]. by exists a'.
    + intros (Hn & a' & Hf & He). exists (network, a'). split; [done|]. apply Hm. split; [|done]. by apply derived_In.
  - exists a. split; [done|]. by apply (Hm n a); left.
Qed.

Lemma record_read classify_ input p : parse_bsms_record classify_ input = Ok p ->
  reject_private_material (trim input) = Ok tt
  /\ exists record parsed, parse_bsms input = Ok record /\ classify_ (b_descriptor record) = Ok parsed /\ promised record parsed = Ok p.
Proof.
  unfold parse_bsms_record. destruct (_ <? _)%nat; [done|]. intros ([] & Hr & (record & Hp & (parsed & Hc & Hk)%bind_Ok)%bind_Ok)%bind_Ok.
  split; [done|]. by exists record, parsed.
Qed.

Lemma promised_wallet record parsed p : promised record parsed = Ok p -> is_wallet parsed \/ is_address parsed -> is_wallet p.
Proof.
  intros Hp Hk. apply promise_kept in Hp as (Hpay & Hn & Hin & _). split; [done|]. rewrite Hpay. destruct Hk as [(_ & Hk)|(address & Hpa & _)]; [done|].
  exfalso. destruct (pi_networks p) as [|n l]; [done|]. destruct (proj1 (Hin n) (or_introl eq_refl)) as (_ & a & Hf & _). by rewrite Hpay, Hpa in Hf.
Qed.

(** ** The classifier *)

Lemma classify_reads fuel : forall input options p, classify fuel input options = Ok p -> is_wallet p \/ is_address p.
Proof.
  induction fuel as [|fuel IH]; intros input options p; cbn [classify]; (case_bool_decide; [done|]); (destruct (_ <? _)%nat; [done|]);
    intros ([] & _ & Hp)%bind_Ok; (destruct (starts_with BACKUP_PREFIX (trim input)); [done|]);
    (destruct (is_envelope (trim input)); [|by eapply bare_reads]); apply bind_Ok in Hp as (progress & _ & Hp);
    (destruct (q_text progress) as [text|]; [|done]); apply bind_Ok in Hp as (text' & _ & Hp); [done|].
  apply bind_Ok in Hp as (q & Hq & [= <-]).
  assert (Hw : is_wallet q \/ is_address q); [|destruct Hw as [Hw|Hw]; [by left|by right]].
  destruct (is_bsms text'); [|by eapply IH]. left. apply record_read in Hq as (_ & record & parsed & _ & Hc & Hk). by eapply promised_wallet, IH.
Qed.

Lemma parsed_classified input options p : parse_input_with_options input options = Ok p ->
  engine_takes p = Ok tt /\ (is_wallet p \/ is_address p).
Proof.
  unfold parse_input_with_options. destruct (is_bsms input).
  - intros (q & Hq & ([] & He & [= <-])%bind_Ok)%bind_Ok. split; [done|]. left. apply record_read in Hq as (_ & record & parsed & _ & Hc & Hk).
    by eapply promised_wallet, classify_reads.
  - intros (q & Hq & ([] & He & [= <-])%bind_Ok)%bind_Ok. apply classify_reads in Hq. by destruct (is_some _).
Qed.

(** C18: Whatever text is read - pasted, scanned, opened from a file, in an
    envelope, a record or an export -, what it is read into has a network,
    and can be watched on the first of them: its descriptors hold no
    private key, read, give addresses, and are two branches of one wallet,
    an address is one of every network offered. *)
Theorem what_is_read_can_be_watched input options p : parse_input_with_options input options = Ok p ->
  match pi_networks p with
  | [] => False
  | network :: _ => watchable (as_kind (pi_payload p)) network \/ is_address p
  end.
Proof.
  intros (He & Hk)%parsed_classified. destruct Hk as [(Hn & e & i & s & Hpay)|Ha].
  - unfold engine_takes in He. destruct (pi_networks p) as [|network l]; [done|]. left. rewrite Hpay in *. cbn [hd_error as_kind] in *.
    destruct (engine_for (WalletKind.Descriptors e i s) network) as [engine|err] eqn:Eg; [|by destruct err]. by apply watch_only in Eg as [? _].
  - destruct (pi_networks p) as [|network l] eqn:En; [|by right]. destruct Ha as (? & _ & _ & Hne). by rewrite En in Hne.
Qed.

(** A BSMS record is read into the wallet of its descriptor on exactly the
    networks, among those its keys allow, where the first address is the
    one the coordinator wrote; there is one, and that address is shown. *)
Theorem record_is_what_it_promises input options p : is_bsms input = true -> parse_input_with_options input options = Ok p ->
  exists record read, parse_bsms input = Ok record /\ classify DEEPEST (b_descriptor record) default_options = Ok read
    /\ pi_payload p = pi_payload read /\ pi_networks p <> []
    /\ (forall network, In network (pi_networks p) <-> In network (pi_networks read)
          /\ exists address, first_address (pi_payload p) network = Some address /\ eq_ignore_ascii_case address (b_first_address record) = true)
    /\ exists address, pi_preview_address p = Some address /\ eq_ignore_ascii_case address (b_first_address record) = true.
Proof.
  intros Hb. unfold parse_input_with_options. rewrite Hb. intros (q & Hq & ([] & _ & [= <-])%bind_Ok)%bind_Ok.
  apply record_read in Hq as (_ & record & read & Hr & Hc & Hk). exists record, read. split; [done|]. split; [done|]. by apply promise_kept.
Qed.

(** ** Nothing private is read *)

Fixpoint json_texts (value : JsonValue) : list string :=
  match value with
  | JsonValue.String text => [text]
  | JsonValue.Array items => List.concat (List.map json_texts items)
  | JsonValue.Object fields => List.concat (List.map (fun field => match field with (name, value) => name :: json_texts value end) fields)
  | JsonValue.Null | JsonValue.Bool _ | JsonValue.Number _ => []
  end.

(** The texts the classifier goes through: the one pasted, what an
    envelope opens to, the descriptor of a record, the names and texts of
    an export. *)
Inductive Sees : string -> string -> Prop :=
| SeesItself input : Sees input (trim input)
| SeesOpened input progress text seen : is_envelope (trim input) = true -> open_pasted (trim input) = Ok progress -> q_text progress = Some text ->
    is_bsms text = false -> Sees text seen -> Sees input seen
| SeesRecordItself input progress text : is_envelope (trim input) = true -> open_pasted (trim input) = Ok progress -> q_text progress = Some text ->
    is_bsms text = true -> Sees input (trim text)
| SeesRecord input progress text record seen : is_envelope (trim input) = true -> open_pasted (trim input) = Ok progress -> q_text progress = Some text ->
    is_bsms text = true -> parse_bsms text = Ok record -> Sees (b_descriptor record) seen -> Sees input seen
| SeesExport input value seen : is_envelope (trim input) = false -> starts_with "{" (trim input) = true -> json_from_str (trim input) = Ok value ->
    In seen (json_texts value) -> Sees input seen.

Section JsonInd.
Variable P : JsonValue -> Prop.
Hypothesis Hscalar : forall value, match value with JsonValue.Array _ | JsonValue.Object _ => True | _ => P value end.
Hypothesis Harray : forall items, Forall P items -> P (JsonValue.Array items).
Hypothesis Hobject : forall fields, Forall (fun field => P (snd field)) fields -> P (JsonValue.Object fields).

Fixpoint json_induction (value : JsonValue) : P value :=
  match value with
  | JsonValue.Array items => Harray items ((fix each l : Forall P l := match l with [] => List.Forall_nil _ | x :: l => @List.Forall_cons _ P x l (json_induction x) (each l) end) items)
  | JsonValue.Object fields =>
    Hobject fields ((fix each l : Forall (fun field => P (snd field)) l := match l with [] => List.Forall_nil _ | x :: l => @List.Forall_cons _ _ x l (json_induction (snd x)) (each l) end) fields)
  | other => Hscalar other
  end.
End JsonInd.

Lemma json_not_private value : reject_private_in_json value = Ok tt -> forall text, In text (json_texts value) -> reject_private_material text = Ok tt.
Proof.
  revert value. refine (json_induction (fun value => reject_private_in_json value = Ok tt -> forall text, In text (json_texts value) -> reject_private_material text = Ok tt) _ _ _);
    [intros value|intros items IH|intros fields IH].
  - destruct value; try done. by intros Hr seen [<-|[]].
  - cbn [json_texts]. induction IH as [|x items Hx IH Hall]; [done|]. intros ([] & Hr & Hrest)%bind_Ok text [Ht|Ht]%in_app_iff; [by apply Hx|by apply Hall].
  - cbn [json_texts]. induction IH as [|[name x] fields Hx IH Hall]; [done|]. intros ([] & Hn & ([] & Hr & Hrest)%bind_Ok)%bind_Ok text.
    cbn [List.map List.concat]. intros [[<-|Ht]|Ht]%in_app_iff; [done|by apply Hx|by apply Hall].
Qed.

Lemma bare_not_private text options p : classify_bare text options = Ok p -> starts_with "{" text = true ->
  forall value seen, json_from_str text = Ok value -> In seen (json_texts value) -> reject_private_material seen = Ok tt.
Proof.
  unfold classify_bare, parse_json_export. intros Hp Hs value seen Hj. rewrite Hs, Hj in Hp. apply bind_Ok in Hp as ([] & Hr & _). by apply json_not_private.
Qed.

Lemma classify_opens fuel input options p : classify fuel input options = Ok p ->
  reject_private_material (trim input) = Ok tt
  /\ if is_envelope (trim input)
     then exists fuel' progress text q, fuel = S fuel' /\ open_pasted (trim input) = Ok progress /\ q_text progress = Some text
       /\ (if is_bsms text then parse_bsms_record (fun text => classify fuel' text default_options) text else classify fuel' text options) = Ok q
     else classify_bare (trim input) options = Ok p.
Proof.
  destruct fuel as [|fuel]; cbn [classify]; (case_bool_decide; [done|]); (destruct (_ <? _)%nat; [done|]); intros ([] & Hr & Hp)%bind_Ok; (split; [done|]);
    (destruct (starts_with BACKUP_PREFIX (trim input)); [done|]); (destruct (is_envelope (trim input)); [|done]); apply bind_Ok in Hp as (progress & Ho & Hp);
    (destruct (q_text progress) as [text|] eqn:Et; [|done]); apply bind_Ok in Hp as (text' & Hone & Hp); [done|].
  assert (text' = text) as ->. { unfold opened_once in Hone. destruct (is_envelope text); [done|]. by injection Hone. }
  apply bind_Ok in Hp as (q & Hq & _). by exists fuel, progress, text, q.
Qed.

Lemma opened_right fuel input options p progress text : classify fuel input options = Ok p -> is_envelope (trim input) = true ->
  open_pasted (trim input) = Ok progress -> q_text progress = Some text ->
  exists fuel' q, fuel = S fuel'
    /\ (if is_bsms text then parse_bsms_record (fun text => classify fuel' text default_options) text else classify fuel' text options) = Ok q.
Proof.
  intros Hp He Ho Ht. apply classify_opens in Hp as [_ Hp]. rewrite He in Hp. destruct Hp as (fuel' & progress' & text' & q & -> & Ho' & Ht' & Hq).
  rewrite Ho in Ho'. injection Ho' as <-. rewrite Ht in Ht'. injection Ht' as <-. by exists fuel', q.
Qed.

Lemma classified_not_private input seen : Sees input seen -> forall fuel options p, classify fuel input options = Ok p -> reject_private_material seen = Ok tt.
Proof.
  induction 1 as [input|input progress text seen He Ho Ht Hb Hs IH|input progress text He Ho Ht Hb|input progress text record seen He Ho Ht Hb Hr Hs IH
    |input value seen He Hb Hj Hin]; intros fuel options p Hp.
  - by apply classify_opens in Hp as [Hp _].
  - destruct (opened_right _ _ _ _ _ _ Hp He Ho Ht) as (fuel' & q & _ & Hq). rewrite Hb in Hq. by eapply IH.
  - destruct (opened_right _ _ _ _ _ _ Hp He Ho Ht) as (fuel' & q & _ & Hq). rewrite Hb in Hq. by apply record_read in Hq as [? _].
  - destruct (opened_right _ _ _ _ _ _ Hp He Ho Ht) as (fuel' & q & _ & Hq). rewrite Hb in Hq.
    apply record_read in Hq as (_ & record' & parsed & Hrec & Hc & _). rewrite Hr in Hrec. injection Hrec as <-. by eapply IH.
  - apply classify_opens in Hp as [_ Hp]. rewrite He in Hp. by eapply bare_not_private.
Qed.

(** C22: An input is read only when no text the classifier goes through carries
    private material: not the one pasted, nor what its envelope opens to,
    nor the descriptor of a record, nor a name or a text of an export as
    decoded. *)
Theorem nothing_private_is_read input options p : parse_input_with_options input options = Ok p ->
  reject_private_material (trim input) = Ok tt
  /\ if is_bsms input then forall record, parse_bsms input = Ok record -> forall seen, Sees (b_descriptor record) seen -> reject_private_material seen = Ok tt
     else forall seen, Sees input seen -> reject_private_material seen = Ok tt.
Proof.
  unfold parse_input_with_options. destruct (is_bsms input); intros (q & Hq & _)%bind_Ok.
  - apply record_read in Hq as (Hr & record & parsed & Hrec & Hc & _). split; [done|]. intros record' Hrec'. rewrite Hrec in Hrec'. injection Hrec' as <-.
    intros seen Hs. by eapply classified_not_private.
  - split; [by eapply classified_not_private; [constructor|exact Hq]|intros seen Hs; by eapply classified_not_private].
Qed.
End Read.

(** ** Texts inside texts

    What the other crates document: base 16 and 32 and the words of a UR
    have no parenthesis, and an empty fountain is not complete. *)
Class EnvelopesLaws `{Envelopes} : Prop := {
  base16_alphabet : forall s bytes, HEXUPPER_PERMISSIVE_decode s = Some bytes -> lacks "(" s = true;
  base32_alphabet : forall s bytes, BASE32_NOPAD_decode s = Some bytes -> lacks "(" s = true;
  ur_alphabet : forall s part, ur_decode s = Some part -> lacks "(" s = true;
  fountain_empty : fountain_complete fountain = false;
}.

Section Depth.
Context `{EnvelopesLaws}.

Lemma digit36_no_parenthesis a v : digit36 a = Some v -> (a =? "(")%char = false.
Proof. intros Hd. apply Ascii.eqb_neq. by intros ->. Qed.

Lemma base36_no_parenthesis a b v : base36 a b = Some v -> (a =? "(")%char = false /\ (b =? "(")%char = false.
Proof.
  unfold base36. destruct (Ascii.eqb_spec a "+") as [->|]; [intros Hb; split; [done|by eapply digit36_no_parenthesis]|].
  destruct (digit36 a) eqn:Ea; [|done]. destruct (digit36 b) eqn:Eb; [|done]. intros _. split; by eapply digit36_no_parenthesis.
Qed.

(** A part of a BBQr with a parenthesis has it in its payload. *)
Lemma bbqr_parenthesis frame header payload : bbqr_header frame = Ok (header, payload) -> lacks "(" frame = false ->
  one_of "UJPT" (file_type header) = true -> one_of "H2Z" (encoding header) = true -> lacks "(" payload = false.
Proof.
  unfold bbqr_header. destruct (negb _); [done|]. destruct (strip_prefix "B$" frame) as [rest|] eqn:Ep; [|done].
  assert (frame = "B$" +:+ rest) as ->. { assert (Hs : starts_with "B$" frame = true) by (unfold starts_with; by rewrite Ep). apply starts_with_app in Hs as [r ->]. rewrite strip_prefix_app in Ep. by injection Ep as ->. }
  destruct rest as [|e [|f [|t1 [|t2 [|i1 [|i2 rest]]]]]]; try done. destruct (base36 t1 t2) as [total|] eqn:Et; [|done]. destruct (base36 i1 i2) as [index|] eqn:Ei; [|done].
  destruct (_ || _); [done|]. intros [= <- <-]. cbn [file_type encoding]. apply base36_no_parenthesis in Et as [Hc1 Hc2], Ei as [Hc3 Hc4].
  unfold lacks. cbn [str_all String.append]. rewrite Hc1, Hc2, Hc3, Hc4. cbn [negb andb].
  destruct (Ascii.eqb_spec e "(") as [->|]; [by intros _ _ ?|]. destruct (Ascii.eqb_spec f "(") as [->|]; [by intros _ ?|]. done.
Qed.

Lemma trim_end_lacks_other c d s : (d =? c)%char = false -> lacks c (trim_end_matches d s) = true -> lacks c s = true.
Proof.
  intros Hd. induction s as [|a s IH]; [done|]. cbn [trim_end_matches]. unfold lacks in *. cbn [str_all]. destruct (trim_end_matches d s) as [|b t].
  - destruct (Ascii.eqb_spec a d) as [->|]; cbn [str_all]; [rewrite Hd|]; intros Ha; [by apply IH|]. apply andb_true_iff in Ha as [-> _]. by apply IH.
  - cbn [str_all] in *. intros [-> Ha]%andb_true_iff. by apply IH.
Qed.

Lemma bbqr_bytes_alphabet encoding text bytes : bbqr_bytes encoding text = Ok bytes -> lacks "(" text = true.
Proof.
  assert (H32 : forall bytes, decode_base32 text = Ok bytes -> lacks "(" text = true).
  { intros b. unfold decode_base32. destruct (BASE32_NOPAD_decode _) eqn:E; [|done]. intros _. apply base32_alphabet in E. by apply (trim_end_lacks_other "(" "=") in E. }
  unfold bbqr_bytes. destruct (_ =? "H")%char; [destruct (HEXUPPER_PERMISSIVE_decode text) eqn:E; [intros _; by eapply base16_alphabet|done]|].
  destruct (_ =? "2")%char; [apply H32|]. destruct (_ =? "Z")%char; [|done]. intros (compressed & Hc & _)%bind_Ok. by eapply H32.
Qed.

Lemma scanned_once frame : frame <> "" -> trim frame = frame ->
  assemble [frame] = progress {| frames := 1; limit := scan_frame_limit (announced_parts frame); fold := first_fold frame |}.
Proof. intros Hne Ht. unfold assemble. cbn [foldl]. unfold scan_take. rewrite Ht. by rewrite bool_decide_false. Qed.

Lemma replay_no_text answer p : replay answer = Ok p -> (forall p, answer = Ok p -> q_text p = None) -> q_text p = None.
Proof. unfold replay. destruct answer as [q|[]]; try done. intros [= <-] Ha. by apply Ha. Qed.

(** An envelope with a parenthesis in it opens to no text. *)
Lemma nothing_opens frame p : lacks "(" frame = false -> trim frame = frame -> is_envelope frame = true -> open_pasted frame = Ok p -> q_text p = None.
Proof.
  intros Hl Ht He. assert (Hne : frame <> "") by (by intros ->). unfold open_pasted. rewrite scanned_once by done. unfold is_envelope in He. rewrite Ht in He.
  destruct (progress _) as [p'|] eqn:Ep; [|done]. intros [= <-]. revert Ep. unfold progress. cbn [frames limit fold]. destruct (1 =? 0); [done|]. destruct (1 >? _); [done|].
  unfold first_fold. destruct (is_ur frame).
  - assert (Hd : ur_decode frame = None). { destruct (ur_decode frame) as [part|] eqn:E; [|done]. apply ur_alphabet in E. congruence. }
    unfold ur_open. destruct (ur_header frame) as [[ur_type [total|]]|e]; [|rewrite Hd; done|by intros ?%replay_no_text].
    destruct (total =? 0); [done|]. destruct (total >? _); [done|]. destruct (negb _); [by destruct (named ur_type)|]. unfold ur_take.
    assert (Hp : ur_part frame = None). { unfold ur_part. rewrite Hd. by destruct (ur_header frame) as [[? [?|]]|]; try done; destruct (negb _). }
    rewrite Hp. cbn [decoder]. rewrite fountain_empty. by intros [= <-].
  - cbn [orb] in He. rewrite He. unfold bbqr_open. destruct (bbqr_header frame) as [[header payload]|e] eqn:Eh; [|by intros ?%replay_no_text].
    destruct (negb (one_of "UJPT" (file_type header))) eqn:Ef; [by intros ?%replay_no_text|]. destruct (negb (one_of "H2Z" (encoding header))) eqn:Ee; [by intros ?%replay_no_text|].
    apply negb_false_iff in Ef, Ee. pose proof (bbqr_parenthesis _ _ _ Eh Hl Ef Ee) as Hpay. pose proof (bbqr_header_right _ _ _ Eh) as Hright.
    unfold bbqr_take. rewrite Eh. cbn [bf_total bf_encoding bf_file_type parts]. rewrite Z.eqb_refl, !Ascii.eqb_refl. cbn [negb orb].
    destruct (repeat None (Z.to_nat (b_total header)) !! Z.to_nat (b_index header)) as [[seen|]|] eqn:El.
    { apply list_elem_of_lookup_2, list_elem_of_In, repeat_spec in El. done. }
    all: unfold fill; cbn [bf_received bf_total bf_encoding bf_file_type parts outcome]; change (0 + 1) with 1.
    all: destruct (Z.eqb_spec 1 (b_total header)) as [E1|]; unfold bbqr_progress; cbn [outcome]; [|by intros [= <-]].
    all: destruct Hright as (_ & _ & _ & Hix); rewrite <- E1 in *; replace (b_index header) with 0 by lia; unfold bbqr_decode; cbn [bf_encoding parts];
      change (joined (<[Z.to_nat 0:=Some payload]> (repeat None (Z.to_nat 1)))) with payload.
    all: destruct (bbqr_bytes (encoding header) payload) as [bytes|e] eqn:Eb; [apply bbqr_bytes_alphabet in Eb; congruence|].
    all: cbn [result_bind]; by intros ?%replay_no_text.
Qed.

Context `{Keys} `{Bdk} `{Transactions} `{Psbts} `{SerdeJson}.

(** A text with a parenthesis in it is classified without opening another. *)
Lemma classify_flat input options n m : lacks "(" input = false -> written input ->
  classify n input options = classify m input options.
Proof.
  intros Hl Hw. assert (Hlt : lacks "(" (trim input) = false) by (rewrite trim_lacks by done; done).
  assert (Hone : forall k, classify k input options = classify 0 input options); [|by rewrite (Hone n), (Hone m)].
  intros [|k]; [done|]. cbn [classify]. destruct (bool_decide _); [done|]. destruct (_ <? _)%nat; [done|]. destruct (reject_private_material _) as [[]|]; [|done]. cbn [result_bind].
  destruct (starts_with _ _); [done|]. destruct (is_envelope (trim input)) eqn:Ee; [|done]. destruct (open_pasted (trim input)) as [progress|] eqn:Eo; [|done]. cbn [result_bind].
  by rewrite (nothing_opens _ _ Hlt (trim_twice input) Ee Eo).
Qed.

(** A text that is no envelope is classified without opening another. *)
Lemma classify_plain input options n m : is_envelope input = false -> classify n input options = classify m input options.
Proof.
  intros He. assert (Het : is_envelope (trim input) = false) by (unfold is_envelope in *; by rewrite trim_twice).
  assert (Hone : forall k, classify k input options = classify 0 input options); [|by rewrite (Hone n), (Hone m)].
  intros [|k]; [done|]. cbn [classify]. by rewrite Het.
Qed.

Lemma record_flat n m input :
  parse_bsms_record (fun text => classify n text default_options) input = parse_bsms_record (fun text => classify m text default_options) input.
Proof.
  unfold parse_bsms_record. destruct (_ <? _)%nat; [done|]. destruct (reject_private_material _) as [[]|]; [|done]. cbn [result_bind].
  destruct (parse_bsms input) as [record|] eqn:Er; [|done]. cbn [result_bind].
  by rewrite (classify_flat (b_descriptor record) default_options n m (record_has_script _ _ Er) (record_written _ _ Er)).
Qed.

(** C27: One text inside another is as deep as they go: an envelope opens to no
    envelope, and the descriptor of a record is none either, so more depth
    than the one allowed changes nothing of what is read. *)
Theorem classify_settles n input options :
  classify (DEEPEST + n) input options = classify DEEPEST input options
  /\ parse_bsms_record (fun text => classify (DEEPEST + n) text default_options) input
     = parse_bsms_record (fun text => classify DEEPEST text default_options) input.
Proof.
  split; [|apply record_flat]. change (DEEPEST + n)%nat with (S n). change DEEPEST with 1%nat. cbn [classify].
  destruct (bool_decide _); [done|]. destruct (_ <? _)%nat; [done|]. destruct (reject_private_material _) as [[]|]; [|done]. cbn [result_bind].
  destruct (starts_with _ _); [done|]. destruct (is_envelope _); [|done]. destruct (open_pasted _) as [progress|]; [|done]. cbn [result_bind].
  destruct (q_text progress) as [text|]; [|done]. unfold opened_once. destruct (is_envelope text) eqn:Et; [done|]. cbn [result_bind].
  f_equal. destruct (is_bsms text); [exact (record_flat n 0 text)|exact (classify_plain text options n 0 Et)].
Qed.
End Depth.

(** ** An example: a two-of-two as two lines, in an envelope, in a record *)

Module Demo.
#[global] Instance demo_bdk : @Bdk Descriptors.Demo.demo_miniscript := {
  Wallet := unit; ChangeSet := unit; create_wallet := fun _ _ _ => Ok tt; load_wallet := fun _ _ => Ok (Some tt); take_staged := fun w => (Some tt, w);
  merge := fun _ _ => tt; checkpoints := fun _ => []; without_blocks := fun _ => tt;
  Addr := string; parse_address := fun s => Err "no address"; is_valid_for_network := fun _ _ => true; address_text := fun s => s;
}.

#[global] Instance demo_serde : SerdeJson := { json_from_str := fun _ => Err "not JSON" }.
#[global] Existing Instances Xpub.Demo.demo_keys Decode.Demo.transactions Decode.Demo.scripts Decode.Demo.psbts.

Lemma unhex_lacks n : forall s bytes, (String.length s <= n)%nat -> Nat.even (String.length s) = true -> unhex_pairs s = Some bytes -> lacks "(" s = true.
Proof.
  induction n as [|n IH]; intros [|a [|b s]] bytes Hle He Hb; try done; [simpl in Hle; lia|]. cbn [unhex_pairs] in Hb.
  destruct (from_str_radix_16 a b) as [byte|] eqn:Er; [|done]. destruct (unhex_pairs s) as [rest|] eqn:Es; [|done].
  unfold lacks. cbn [str_all]. assert (Ha : (a =? "(")%char = false /\ (b =? "(")%char = false).
  { split; apply Ascii.eqb_neq; intros ->; revert Er; unfold from_str_radix_16; [done|]. destruct (_ =? _)%char; [done|]. by destruct (hex_value a). }
  destruct Ha as [-> ->]. cbn [negb andb]. apply (IH s rest); [simpl in Hle; lia|exact He|done].
Qed.

#[global] Instance demo_envelopes_laws : @EnvelopesLaws CryptoOutput.Demo.demo_points Qr.Demo.demo_envelopes.
Proof.
  split; [|done|done|done]. intros s bytes. cbn. unfold unhex. destruct (negb (Nat.even (String.length s))) eqn:Ee; [done|]. apply negb_false_iff in Ee.
  destruct (negb _); [done|]. cbn [orb]. by apply (unhex_lacks (String.length s)).
Qed.

Definition line_feed : string := String "010" "".
Definition two_lines : string := Descriptors.Demo.RECEIVE +:+ line_feed +:+ Descriptors.Demo.CHANGE.
Definition enveloped : string := "B$HU0100" +:+ hex (to_bytes two_lines).
Definition record_text : string :=
  "BSMS 1.0" +:+ line_feed +:+ Descriptors.Demo.RECEIVE +:+ line_feed +:+ "no path restrictions" +:+ line_feed
  +:+ "MAINNET " +:+ Descriptors.Demo.RECEIVE +:+ " 0" +:+ line_feed.
Definition payload : ParsedPayload := ParsedPayload.Descriptors Descriptors.Demo.RECEIVE (Some Descriptors.Demo.CHANGE) WitnessScript.
Definition wallet_read : ParsedInput := with_preview (Some ("mainnet " +:+ Descriptors.Demo.RECEIVE +:+ " 0")) (fixed_input DescriptorPair [Mainnet] payload []).
Definition record_wallet : ParsedInput :=
  with_kind Syncs.Bsms (with_preview (Some ("mainnet " +:+ Descriptors.Demo.RECEIVE +:+ " 0"))
    (fixed_input Syncs.Descriptor [Mainnet] (ParsedPayload.Descriptors Descriptors.Demo.RECEIVE None WitnessScript) [ChangeNotTracked])).
End Demo.

Lemma what_is_read_can_be_watched_witness :
  parse_input_with_options Demo.two_lines default_options = Ok Demo.wallet_read /\ watchable (as_kind Demo.payload) Mainnet.
Proof.
  assert (Hr : parse_input_with_options Demo.two_lines default_options = Ok Demo.wallet_read) by (vm_compute; reflexivity). split; [exact Hr|].
  destruct (what_is_read_can_be_watched _ _ _ Hr) as [Hw|(address & Ha & _)]; [exact Hw|]. vm_compute in Ha. discriminate.
Defined.

Lemma record_is_what_it_promises_witness :
  parse_input_with_options Demo.record_text default_options = Ok Demo.record_wallet
  /\ exists record address, parse_bsms Demo.record_text = Ok record /\ first_address (pi_payload Demo.record_wallet) Mainnet = Some address
       /\ eq_ignore_ascii_case address (b_first_address record) = true.
Proof.
  assert (Hb : is_bsms Demo.record_text = true) by (vm_compute; reflexivity).
  assert (Hr : parse_input_with_options Demo.record_text default_options = Ok Demo.record_wallet) by (vm_compute; reflexivity). split; [exact Hr|].
  destruct (record_is_what_it_promises _ _ _ Hb Hr) as (record & read & Hrec & _ & _ & _ & Hin & _).
  destruct (proj1 (Hin Mainnet) (or_introl eq_refl)) as (_ & address & Ha & He). exists record, address. split; [exact Hrec|]. split; [exact Ha|exact He].
Defined.

Lemma nothing_private_is_read_witness :
  parse_input_with_options Demo.enveloped default_options = Ok Demo.wallet_read
  /\ Sees Demo.enveloped Demo.two_lines /\ reject_private_material Demo.two_lines = Ok tt.
Proof.
  assert (Hr : parse_input_with_options Demo.enveloped default_options = Ok Demo.wallet_read) by (vm_compute; reflexivity). split; [exact Hr|].
  assert (Hs : Sees Demo.enveloped Demo.two_lines).
  { eapply SeesOpened; [vm_compute; reflexivity|vm_compute; reflexivity|reflexivity|vm_compute; reflexivity|].
    replace Demo.two_lines with (trim Demo.two_lines) at 2 by (vm_compute; reflexivity). apply SeesItself. }
  split; [exact Hs|]. destruct (nothing_private_is_read _ _ _ Hr) as [_ Hall].
  replace (is_bsms Demo.enveloped) with false in Hall by (vm_compute; reflexivity). exact (Hall _ Hs).
Defined.

Lemma classify_settles_witness : exists p, classify 9 Demo.enveloped default_options = Ok p /\ pi_payload p = Demo.payload.
Proof.
  eexists. split; [|].
  - change 9%nat with (DEEPEST + 8)%nat. rewrite (proj1 (classify_settles 8 Demo.enveloped default_options)). vm_compute. reflexivity.
  - reflexivity.
Defined.
