(* ===== verification/Wallets.v ===== *)
(** [manager/wallets.rs]: the wallets of the vault, listed, added, named,
    ordered and removed. The refresh of the live watch that follows an
    operation is [WatchList]'s and [Bursts]'s. *)
From S2P Require Import Prelude Utf8 Text Errors Network Xpub Descriptors Store Addresses Syncs AddressSyncs Engines Bsms Import.
From Stdlib Require Import Ascii.

Definition wallet_name_error : CoreError := InvalidInput "wallet name" "a wallet needs a name".

(** Assignment to one field of a wallet's meta. *)
Definition set_name (name : string) (m : WalletMeta) : WalletMeta :=
  {| m_id := m_id m; m_name := name; m_icon := m_icon m; m_network := m_network m; m_kind := m_kind m; m_recognized_as := m_recognized_as m;
     m_created_at := m_created_at m; m_gap_limit := m_gap_limit m; m_scan_gap := m_scan_gap m; m_labels := m_labels m; m_last_sync := m_last_sync m;
     m_complete_at := m_complete_at m; m_cached := m_cached m; m_live_pinned := m_live_pinned m |}.
Definition set_icon (icon : WalletIcon) (m : WalletMeta) : WalletMeta :=
  {| m_id := m_id m; m_name := m_name m; m_icon := icon; m_network := m_network m; m_kind := m_kind m; m_recognized_as := m_recognized_as m;
     m_created_at := m_created_at m; m_gap_limit := m_gap_limit m; m_scan_gap := m_scan_gap m; m_labels := m_labels m; m_last_sync := m_last_sync m;
     m_complete_at := m_complete_at m; m_cached := m_cached m; m_live_pinned := m_live_pinned m |}.
Definition set_pinned (pinned : bool) (m : WalletMeta) : WalletMeta :=
  {| m_id := m_id m; m_name := m_name m; m_icon := m_icon m; m_network := m_network m; m_kind := m_kind m; m_recognized_as := m_recognized_as m;
     m_created_at := m_created_at m; m_gap_limit := m_gap_limit m; m_scan_gap := m_scan_gap m; m_labels := m_labels m; m_last_sync := m_last_sync m;
     m_complete_at := m_complete_at m; m_cached := m_cached m; m_live_pinned := pinned |}.
Definition set_gap (gap_limit : Z) (m : WalletMeta) : WalletMeta :=
  {| m_id := m_id m; m_name := m_name m; m_icon := m_icon m; m_network := m_network m; m_kind := m_kind m; m_recognized_as := m_recognized_as m;
     m_created_at := m_created_at m; m_gap_limit := gap_limit; m_scan_gap := m_scan_gap m; m_labels := m_labels m; m_last_sync := m_last_sync m;
     m_complete_at := m_complete_at m; m_cached := m_cached m; m_live_pinned := m_live_pinned m |}.

Section Wallets.
Context `{Keys} `{Bdk}.

Abbreviation WalletRecord := (WalletRecord ChangeSet).
Abbreviation Payload := (VaultPayload WalletRecord).

(** [ManagerState::commit]; [save] is what the write of the vault answers. *)
Definition commit_state {T} (state : ManagerState) (save : result unit VaultError) (change : Payload -> CoreResult (T * Payload))
  : ManagerState * CoreResult T :=
  let '(next, answer) := commit (payload state) save change in (set_payload state next, answer).

Definition record_id (record : WalletRecord) : string := m_id (meta record).

Definition list_wallets (p : Payload) (network : option Network) : list WalletMeta :=
  retain (fun m => match network with Some n => bool_decide (m_network m = n) | None => true end)
    (List.map (fun record => set_gap (gap_limit (settings p)) (meta record)) (wallets p)).

(** ** Adding *)

Definition push_wallet (record : WalletRecord) (p : Payload) : CoreResult (unit * Payload) := Ok (tt, set_wallets p (wallets p ++ [record])).

(** [uuid] is the identifier drawn, [now] the clock. *)
Definition add_wallet (state : ManagerState) (name : string) (parsed : ParsedInput) (network : Network) (uuid : string) (now : Z)
  (save : result unit VaultError) : ManagerState * CoreResult WalletMeta :=
  if negb (bool_decide (network ∈ pi_networks parsed)) then (state, Err (network_mismatch network (pi_networks parsed)))
  else
    let name := trim name in
    if bool_decide (name = "") then (state, Err wallet_name_error)
    else
      let kind := as_kind (pi_payload parsed) in
      match find_watched (payload state) network kind with
      | Some existing => (state, Err (DuplicateWallet (m_name (meta existing))))
      | None =>
        let its_meta := fresh_meta uuid now name network kind (pi_kind parsed) (gap_limit (settings (payload state))) in
        match build_record its_meta with
        | Err e => (state, Err e)
        | Ok (record, engine) =>
          match commit_state state save (push_wallet record) with
          | (state, Err e) => (state, Err e)
          | (state, Ok _) => (match engine with Some engine => put_engine state (m_id its_meta) engine | None => state end, Ok its_meta)
          end
        end
      end.

(** ** Changing one wallet *)

Definition change_meta (id : string) (f : WalletMeta -> WalletMeta) (p : Payload) : CoreResult (unit * Payload) :=
  let? p := find_record_mut p id (fun record => {| meta := f (meta record); changeset := changeset record; address_state := address_state record |}) in
  Ok (tt, p).

Definition rename_wallet (state : ManagerState) (id name : string) (save : result unit VaultError) : ManagerState * CoreResult unit :=
  let name := trim name in
  if bool_decide (name = "") then (state, Err wallet_name_error) else commit_state state save (change_meta id (set_name name)).

Definition set_wallet_icon (state : ManagerState) (id : string) (icon : WalletIcon) (save : result unit VaultError) : ManagerState * CoreResult unit :=
  commit_state state save (change_meta id (set_icon icon)).

Definition set_wallet_live_pinned (state : ManagerState) (id : string) (pinned : bool) (save : result unit VaultError) : ManagerState * CoreResult unit :=
  commit_state state save (change_meta id (set_pinned pinned)).

(** ** Ordering *)

(** Every id names a wallet, and none repeats. *)
Fixpoint check_order (p : Payload) (seen : list string) (ids : list string) : CoreResult unit :=
  match ids with
  | [] => Ok tt
  | id :: ids =>
    if bool_decide (id ∈ seen) then Err (InvalidInput "wallet order" ("wallet " +:+ id +:+ " is listed twice"))
    else if any (named id) (wallets p) then check_order p (id :: seen) ids
    else Err (WalletNotFound id)
  end.

(** The slots of the movers, and the movers poured into them. *)
Definition moves (ids : list string) (record : WalletRecord) : bool := bool_decide (record_id record ∈ ids).
Definition movers (p : Payload) (ids : list string) : list WalletRecord := omap (fun id => List.find (named id) (wallets p)) ids.
Definition pour (l : list WalletRecord) (poured : list (nat * WalletRecord)) : list WalletRecord :=
  foldl (fun l slot => <[slot.1 := slot.2]> l) l poured.

Definition reorder (ids : list string) (p : Payload) : CoreResult (unit * Payload) :=
  let? _ := check_order p [] ids in
  Ok (tt, set_wallets p (pour (wallets p) (zip (indices (moves ids) (wallets p)) (movers p ids)))).

Definition reorder_wallets (state : ManagerState) (ids : list string) (save : result unit VaultError) : ManagerState * CoreResult unit :=
  commit_state state save (reorder ids).

(** ** Removing *)

Definition remove (id : string) (p : Payload) : CoreResult (unit * Payload) :=
  let kept := retain (fun record => negb (named id record)) (wallets p) in
  if (length kept =? length (wallets p))%nat then Err (WalletNotFound id)
  else
    let p := set_wallets p kept in
    let p := set_unclaimed p (retain (fun news => negb (bool_decide (un_wallet_id news = id))) (unclaimed p)) in
    let p := set_announced p (retain (fun told => negb (bool_decide (an_wallet_id told = id))) (announced p)) in
    let p := set_vanishing p (retain (fun missed => negb (bool_decide (va_wallet_id missed = id))) (vanishing p)) in
    Ok (tt, p).

Definition remove_wallet (state : ManagerState) (id : string) (save : result unit VaultError) : ManagerState * CoreResult unit :=
  match commit_state state save (remove id) with
  | (state, Err e) => (state, Err e)
  | (state, Ok _) => ({| payload := payload state; engines := delete id (engines state) |}, Ok tt)
  end.
End Wallets.

(** ** The order asked for *)

Section Order.
Context `{Keys} `{Bdk}.

Abbreviation WalletRecord := (WalletRecord ChangeSet).
Abbreviation Payload := (VaultPayload WalletRecord).

(** What pouring does, wallet by wallet: a mover takes the place of each
    wallet that moves. *)
Fixpoint refilled (f : WalletRecord -> bool) (l ms : list WalletRecord) : list WalletRecord :=
  match l with
  | [] => []
  | x :: l =>
    if f x then match ms with m :: ms => m :: refilled f l ms | [] => x :: refilled f l [] end
    else x :: refilled f l ms
  end.

Lemma indices_cons {A} (f : A -> bool) x l : indices f (x :: l) = (if f x then [0%nat] else []) ++ List.map S (indices f l).
Proof.
  unfold indices. cbn [length seq retain List.filter]. change (@List.filter nat) with (@retain nat).
  assert (Hs : retain (fun i => match (x :: l) !! i with Some y => f y | None => false end) (seq 1 (length l)) = List.map S (retain (fun i => match l !! i with Some y => f y | None => false end) (seq 0 (length l)))).
  { rewrite <- seq_shift. unfold retain. induction (seq 0 (length l)) as [|i k IH]; [done|]. cbn [List.map List.filter]. change ((x :: l) !! S i) with (l !! i).
    destruct (match l !! i with Some y => f y | None => false end); cbn [List.map]; by rewrite IH. }
  cbn [List.filter] in *. unfold retain in Hs |- *. cbn [lookup list_lookup]. destruct (f x); cbn [app]; by rewrite Hs.
Qed.

Lemma pour_later x l (slots : list nat) ms : pour (x :: l) (zip (List.map S slots) ms) = x :: pour l (zip slots ms).
Proof.
  revert l ms. induction slots as [|i slots IH]; intros l [|m ms]; try done. cbn [List.map zip zip_with pour foldl fst snd].
  change (<[S i := m]> (x :: l)) with (x :: <[i := m]> l). apply IH.
Qed.

Lemma pour_refills f l : forall ms, pour l (zip (indices f l) ms) = refilled f l ms.
Proof.
  induction l as [|x l IH]; intros ms; [done|]. rewrite indices_cons. cbn [refilled]. destruct (f x); cbn [app].
  - destruct ms as [|m ms]; cbn [zip zip_with].
    + rewrite <- (IH []). unfold pour. by destruct (List.map S (indices f l)), (indices f l).
    + cbn [pour foldl fst snd]. change (<[0%nat := m]> (x :: l)) with (m :: l). change (foldl _ ?a ?b) with (pour a b). by rewrite pour_later, IH.
  - by rewrite pour_later, IH.
Qed.

Lemma refilled_right f l : forall ms, length ms = length (retain f l) -> all f ms = true ->
  retain f (refilled f l ms) = ms /\ length (refilled f l ms) = length l
  /\ (forall i x, l !! i = Some x -> f x = false -> refilled f l ms !! i = Some x)
  /\ (forall y, In y (refilled f l ms) -> In y ms \/ In y l /\ f y = false).
Proof.
  induction l as [|x l IH]; intros ms Hl Hall.
  { destruct ms; [|done]. repeat split; [done|]. by intros y []. }
  unfold retain in Hl. cbn [refilled List.filter] in *. change (@List.filter WalletRecord) with (@retain WalletRecord) in *. destruct (f x) eqn:Ex.
  - destruct ms as [|m ms]; [done|]. cbn [all forallb length] in *. apply andb_true_iff in Hall as [Hm Hall]. destruct (IH ms) as (Hr & Hlen & Hi & Hin); [lia|done|].
    unfold retain. cbn [List.filter]. rewrite Hm. change (@List.filter WalletRecord) with (@retain WalletRecord). rewrite Hr. cbn [length]. rewrite Hlen. repeat split.
    + intros [|i] y Hy Hf; [injection Hy as <-; congruence|]. by apply Hi.
    + intros y [<-|Hy]; [left; by left|]. destruct (Hin y Hy) as [?|[? ?]]; [left; by right|right; split; [by right|done]].
  - destruct (IH ms) as (Hr & Hlen & Hi & Hin); [done|done|]. unfold retain. cbn [List.filter]. rewrite Ex. change (@List.filter WalletRecord) with (@retain WalletRecord).
    rewrite Hr. cbn [length]. rewrite Hlen. repeat split.
    + intros [|i] y Hy Hf; [done|]. by apply Hi.
    + intros y [<-|Hy]; [right; split; [by left|done]|]. destruct (Hin y Hy) as [?|[? ?]]; [by left|right; split; [by right|done]].
Qed.

Definition ids_of (l : list WalletRecord) : list string := List.map record_id l.

Lemma check_order_right p ids : forall seen, check_order p seen ids = Ok tt ->
  NoDup ids /\ (forall id, In id ids -> ~ In id seen /\ In id (ids_of (wallets p))).
Proof.
  induction ids as [|id ids IH]; intros seen; cbn [check_order]; [intros _; split; [constructor|by intros ? []]|].
  case_bool_decide as Hs; [done|]. destruct (any (named id) (wallets p)) eqn:Ea; [|done]. intros Hc. destruct (IH _ Hc) as [Hn Hin]. split.
  - constructor; [|done]. rewrite list_elem_of_In. intros Hi. destruct (Hin id Hi) as [Hns _]. apply Hns. by left.
  - intros x [<-|Hx].
    + split; [by rewrite <- list_elem_of_In|]. apply any_true in Ea as (record & Hr & Hm). unfold named in Hm. apply bool_decide_eq_true_1 in Hm as <-.
      by apply (in_map record_id).
    + destruct (Hin x Hx) as [Hns Hi]. split; [|done]. intros Hxs. apply Hns. by right.
Qed.

Lemma found_of (l : list WalletRecord) id : In id (ids_of l) -> exists record, List.find (named id) l = Some record /\ In record l /\ record_id record = id.
Proof.
  intros Hin. destruct (List.find (named id) l) as [record|] eqn:Ef.
  - apply List.find_some in Ef as [Hr Hn]. unfold named in Hn. apply bool_decide_eq_true_1 in Hn. by exists record.
  - exfalso. apply in_map_iff in Hin as (record & <- & Hr). pose proof (List.find_none _ _ Ef _ Hr) as Hn. unfold named in Hn. by apply bool_decide_eq_false_1 in Hn.
Qed.

Lemma movers_right p ids : (forall id, In id ids -> In id (ids_of (wallets p))) ->
  ids_of (movers p ids) = ids /\ forall record, In record (movers p ids) -> In record (wallets p).
Proof.
  induction ids as [|id ids IH]; intros Hin; [done|]. destruct (found_of (wallets p) id (Hin id (or_introl eq_refl))) as (record & Hf & Hr & Hid).
  destruct IH as [Hids Hall]; [intros x Hx; apply Hin; by right|]. unfold movers in *. cbn [omap list_omap]. rewrite Hf. cbn [ids_of List.map]. split.
  - unfold ids_of in Hids. by rewrite Hid, Hids.
  - intros x [<-|Hx]; [done|by apply Hall].
Qed.

Lemma ids_inj (l : list WalletRecord) a b : NoDup (ids_of l) -> In a l -> In b l -> record_id a = record_id b -> a = b.
Proof.
  induction l as [|x l IH]; [by intros _ []|]. cbn [ids_of List.map]. intros [Hx Hn]%list.NoDup_cons Ha Hb He.
  assert (Hno : forall r, In r l -> record_id r <> record_id x). { intros r Hr Hrx. apply Hx, list_elem_of_In. rewrite <- Hrx. by apply in_map. }
  destruct Ha as [<-|Ha], Hb as [<-|Hb]; [done|exfalso; by apply (Hno b Hb)|exfalso; by apply (Hno a Ha)|by apply IH].
Qed.

Lemma NoDup_ids (l : list WalletRecord) : NoDup (ids_of l) -> NoDup l.
Proof. apply NoDup_fmap_1. Qed.

(** The movers are the wallets that move, in another order. *)
Lemma movers_perm p ids : NoDup (ids_of (wallets p)) -> NoDup ids -> (forall id, In id ids -> In id (ids_of (wallets p))) ->
  movers p ids ≡ₚ retain (moves ids) (wallets p) /\ all (moves ids) (movers p ids) = true.
Proof.
  intros Hn Hi Hin. destruct (movers_right p ids Hin) as [Hids Hall].
  assert (Hm : forall r, In r (movers p ids) -> moves ids r = true).
  { intros r Hr. unfold moves. apply bool_decide_eq_true_2, list_elem_of_In. rewrite <- Hids. by apply in_map. }
  split; [|by apply all_true]. apply NoDup_Permutation.
  - apply NoDup_ids. by rewrite Hids.
  - eapply NoDup_sublist; [apply retain_sublist|by apply NoDup_ids].
  - intros r. rewrite !list_elem_of_In, retain_In. split; [by intros Hr; split; [apply Hall|apply Hm]|]. intros [Hr Hmv].
    unfold moves in Hmv. apply bool_decide_eq_true_1, list_elem_of_In in Hmv. rewrite <- Hids in Hmv. apply in_map_iff in Hmv as (r' & He & Hr').
    by rewrite <- (ids_inj _ _ _ Hn (Hall r' Hr') Hr He).
Qed.

Lemma refilled_others f l : forall ms, length ms = length (retain f l) -> all f ms = true ->
  retain (fun x => negb (f x)) (refilled f l ms) = retain (fun x => negb (f x)) l.
Proof.
  induction l as [|x l IH]; intros ms Hl Hall; [done|]. unfold retain in *. cbn [refilled List.filter] in *. destruct (f x) eqn:Ex.
  - destruct ms as [|m ms]; [done|]. cbn [all forallb length List.filter] in *. apply andb_true_iff in Hall as [-> Hall]. cbn [negb]. apply IH; [lia|done].
  - cbn [List.filter]. rewrite Ex. cbn [negb]. by rewrite IH.
Qed.

Lemma reorder_shape p ids p' : NoDup (ids_of (wallets p)) -> reorder ids p = Ok (tt, p') ->
  length (movers p ids) = length (retain (moves ids) (wallets p)) /\ movers p ids ≡ₚ retain (moves ids) (wallets p) /\ all (moves ids) (movers p ids) = true
  /\ ids_of (movers p ids) = ids /\ p' = set_wallets p (refilled (moves ids) (wallets p) (movers p ids)).
Proof.
  unfold reorder. intros Hn Hr. destruct (check_order p [] ids) as [[]|] eqn:Ec; [|done]. injection Hr as <-.
  apply check_order_right in Ec as [Hi Hin]. assert (Hids : forall id, In id ids -> In id (ids_of (wallets p))) by (intros id Hid; by apply Hin).
  destruct (movers_perm p ids Hn Hi Hids) as [Hperm Hall]. rewrite pour_refills. split; [by rewrite Hperm|]. split; [done|]. split; [done|]. split; [by apply movers_right|done].
Qed.

Lemma reorder_perm p ids p' : NoDup (ids_of (wallets p)) -> reorder ids p = Ok (tt, p') -> wallets p' ≡ₚ wallets p.
Proof.
  intros Hn Hr. destruct (reorder_shape _ _ _ Hn Hr) as (Hl & Hperm & Hall & _ & ->). cbn [wallets set_wallets].
  destruct (refilled_right (moves ids) (wallets p) (movers p ids) Hl Hall) as (Hre & _).
  rewrite (retain_either (moves ids) (refilled _ _ _)), Hre, refilled_others by done. rewrite Hperm. symmetry. apply retain_either.
Qed.

(** The wallets asked for come in the order asked for, in the places they
    had between them; every other wallet stays where it was, and none is
    lost or made. *)
Theorem reorder_keeps_the_others p ids p' : NoDup (ids_of (wallets p)) -> reorder ids p = Ok (tt, p') ->
  ids_of (retain (moves ids) (wallets p')) = ids
  /\ wallets p' ≡ₚ wallets p
  /\ (forall i record, wallets p !! i = Some record -> ~ In (record_id record) ids -> wallets p' !! i = Some record)
  /\ set_wallets p' [] = set_wallets p [].
Proof.
  intros Hn Hr. split; [|split; [by eapply reorder_perm|]]; destruct (reorder_shape _ _ _ Hn Hr) as (Hl & _ & Hall & Hids & ->); cbn [wallets set_wallets];
    destruct (refilled_right (moves ids) (wallets p) (movers p ids) Hl Hall) as (Hre & _ & Hst & _).
  - by rewrite Hre.
  - split; [|done]. intros i record Hi Hno. apply Hst; [done|]. unfold moves. apply bool_decide_eq_false_2. by rewrite list_elem_of_In.
Qed.
End Order.

(** ** What the wallets of a vault are *)

Section Sound.
Context `{Keys} `{Bdk}.

Abbreviation WalletRecord := (WalletRecord ChangeSet).
Abbreviation Payload := (VaultPayload WalletRecord).

Definition material_of (record : WalletRecord) : Network * WalletKind := (m_network (meta record), m_kind (meta record)).

(** A wallet with a name, that can be watched on its network. *)
Definition good_wallet (record : WalletRecord) : Prop :=
  m_name (meta record) <> "" /\ trim (m_name (meta record)) = m_name (meta record) /\ watchable (m_kind (meta record)) (m_network (meta record)).

Definition sound_wallets (l : list WalletRecord) : Prop := NoDup (ids_of l) /\ NoDup (List.map material_of l) /\ Forall good_wallet l.

(** The engines in memory are of wallets the vault holds. *)
Definition sound (state : ManagerState) : Prop :=
  sound_wallets (wallets (payload state)) /\ forall id, is_some (engines state !! id) = true -> In id (ids_of (wallets (payload state))).

Inductive WalletCall :=
| AddWallet (name : string) (parsed : ParsedInput) (network : Network) (uuid : string) (now : Z)
| RenameWallet (id name : string)
| SetWalletIcon (id : string) (icon : WalletIcon)
| SetWalletLivePinned (id : string) (pinned : bool)
| ReorderWallets (ids : list string)
| RemoveWallet (id : string).

(** A call, and what the write of the vault answers it. *)
Definition wallet_call (state : ManagerState) (call : WalletCall * result unit VaultError) : ManagerState :=
  match call.1 with
  | AddWallet name parsed network uuid now => (add_wallet state name parsed network uuid now call.2).1
  | RenameWallet id name => (rename_wallet state id name call.2).1
  | SetWalletIcon id icon => (set_wallet_icon state id icon call.2).1
  | SetWalletLivePinned id pinned => (set_wallet_live_pinned state id pinned call.2).1
  | ReorderWallets ids => (reorder_wallets state ids call.2).1
  | RemoveWallet id => (remove_wallet state id call.2).1
  end.

Definition drawn (call : WalletCall * result unit VaultError) : list string := match call.1 with AddWallet _ _ _ uuid _ => [uuid] | _ => [] end.

(** A change that is refused, or not written, leaves the vault as it was. *)
Lemma commit_state_cases {T} state save (change : Payload -> CoreResult (T * Payload)) :
  (commit_state state save change).1 = state
  \/ exists value next, change (payload state) = Ok (value, next) /\ save = Ok tt /\ commit_state state save change = (set_payload state next, Ok value).
Proof.
  unfold commit_state, commit. destruct (change (payload state)) as [[value next]|e]; [|left; by destruct state].
  destruct save as [[]|e]; [right; by exists value, next|left; by destruct state].
Qed.

Lemma Permutation_sound l k : l ≡ₚ k -> sound_wallets k -> sound_wallets l.
Proof. intros Hp (Hi & Hm & Hg). unfold sound_wallets, ids_of. rewrite Hp. by repeat split. Qed.

Lemma sublist_sound l k : sublist l k -> sound_wallets k -> sound_wallets l.
Proof.
  intros Hs (Hi & Hm & Hg). split; [|split].
  - eapply NoDup_sublist; [by apply sublist_map|done].
  - eapply NoDup_sublist; [by apply sublist_map|done].
  - apply List.Forall_forall. intros r Hr. rewrite List.Forall_forall in Hg. apply Hg, list_elem_of_In. eapply elem_of_sublist; [by apply list_elem_of_In|done].
Qed.

(** A change to one wallet that keeps its identifier and what it is made
    of, and leaves it a name. *)
Lemma change_sound id f p p' : change_meta id f p = Ok (tt, p') ->
  (forall m, m_id (f m) = m_id m /\ m_network (f m) = m_network m /\ m_kind (f m) = m_kind m /\ (m_name (f m) = m_name m \/ m_name (f m) <> "" /\ trim (m_name (f m)) = m_name (f m))) ->
  sound_wallets (wallets p) -> sound_wallets (wallets p') /\ ids_of (wallets p') = ids_of (wallets p).
Proof.
  unfold change_meta, find_record_mut. intros Hc Hf. destruct (find_record p id); [|done]. injection Hc as <-. cbn [wallets set_wallets].
  set (change := fun r : WalletRecord => _).
  assert (Heq : forall l, ids_of (update_first (named id) change l) = ids_of l /\ List.map material_of (update_first (named id) change l) = List.map material_of l
    /\ (Forall good_wallet l -> Forall good_wallet (update_first (named id) change l))).
  { induction l as [|x l (Hi & Hm & Hg)]; [done|]. cbn [update_first]. destruct (named id x).
    - destruct (Hf (meta x)) as (E1 & E2 & E3 & E4). unfold ids_of, record_id, material_of, change. cbn [List.map meta]. rewrite E1, E2, E3. repeat split; try done.
      intros [Hx Hl]%list.Forall_cons. constructor; [|done]. unfold good_wallet in *. cbn [meta]. rewrite E2, E3. destruct Hx as (Hx1 & Hx2 & Hx3).
      destruct E4 as [->|[Hn1 Hn2]]; done.
    - unfold ids_of in *. cbn [List.map]. rewrite Hi, Hm. repeat split; try done. intros [Hx Hl]%list.Forall_cons. constructor; [done|by apply Hg]. }
  intros (Hi & Hm & Hg). destruct (Heq (wallets p)) as (E1 & E2 & E3). split; [|done]. unfold sound_wallets. rewrite E1, E2. split; [done|]. split; [done|by apply E3].
Qed.

Lemma change_call_sound state save id f :
  (forall m, m_id (f m) = m_id m /\ m_network (f m) = m_network m /\ m_kind (f m) = m_kind m /\ (m_name (f m) = m_name m \/ m_name (f m) <> "" /\ trim (m_name (f m)) = m_name (f m))) ->
  sound state -> sound (commit_state state save (change_meta id f)).1 /\ ids_of (wallets (payload (commit_state state save (change_meta id f)).1)) = ids_of (wallets (payload state)).
Proof.
  intros Hf [Hw He]. destruct (commit_state_cases state save (change_meta id f)) as [->|([] & next & Hc & _ & ->)]; [done|].
  destruct (change_sound _ _ _ _ Hc Hf Hw) as [Hs Hi]. cbn [fst payload set_payload]. split; [|done]. split; [done|]. cbn [payload set_payload engines]. by rewrite Hi.
Qed.

Lemma material_new (p : Payload) network kind : find_watched p network kind = None -> (network, kind) ∉ List.map material_of (wallets p).
Proof.
  intros Hf. rewrite list_elem_of_In. intros Hin. apply in_map_iff in Hin as (record & He & Hr). pose proof (List.find_none _ _ Hf _ Hr) as Hs.
  unfold same_material in Hs. injection He as <- <-. by rewrite !bool_decide_eq_true_2 in Hs.
Qed.

Lemma build_record_right m record engine : build_record m = Ok (record, engine) -> meta record = m /\ watchable (m_kind m) (m_network m).
Proof.
  unfold build_record. destruct (engine_for (m_kind m) (m_network m)) as [e|] eqn:E; [|done]. cbn [result_bind]. apply watch_only in E as [Hw _].
  unfold record_with. destruct e as [e|]; [|by intros [= <- _]]. destruct (take_staged e) as [[c|] w]; [|done]. by intros [= <- _].
Qed.

(** A wallet held by no other identifier and no other material. *)
Lemma push_sound l record : sound_wallets l -> good_wallet record -> ~ In (record_id record) (ids_of l) -> material_of record ∉ List.map material_of l ->
  sound_wallets (l ++ [record]).
Proof.
  intros (Hi & Hm & Hg) Hgood Hid Hmat. split; [|split].
  - unfold ids_of. rewrite List.map_app. apply list.NoDup_app. split; [done|]. split; [|apply NoDup_singleton]. intros x Hx ->%list_elem_of_singleton. by apply Hid, list_elem_of_In.
  - rewrite List.map_app. apply list.NoDup_app. split; [done|]. split; [|apply NoDup_singleton]. by intros x Hx ->%list_elem_of_singleton.
  - apply list.Forall_app. split; [done|]. by constructor.
Qed.

Lemma add_sound state name parsed network uuid now save : sound state -> ~ In uuid (ids_of (wallets (payload state))) ->
  let next := (add_wallet state name parsed network uuid now save).1 in
  sound next /\ (forall id, In id (ids_of (wallets (payload next))) -> id = uuid \/ In id (ids_of (wallets (payload state)))).
Proof.
  intros Hs Hu. assert (Hsame : sound state /\ forall id, In id (ids_of (wallets (payload state))) -> id = uuid \/ In id (ids_of (wallets (payload state)))) by (split; [done|by right]).
  unfold add_wallet. destruct (negb _); [done|]. case_bool_decide as Hne; [done|]. destruct (find_watched _ _ _) as [existing|] eqn:Ef; [done|].
  set (m := fresh_meta _ _ _ _ _ _ _). destruct (build_record m) as [[record engine]|] eqn:Eb; [|done]. apply build_record_right in Eb as [Hmeta Hw].
  destruct (commit_state_cases state save (push_wallet record)) as [Hsame'|([] & p & Hp & _ & Hrun)].
  { destruct (commit_state state save (push_wallet record)) as [state' [v|e]] eqn:Erun; cbn [fst] in Hsame'; subst state'; [|done]. exfalso.
    revert Erun. unfold commit_state, commit, push_wallet. destruct save as [[]|]; intros [= Hst _]. apply (f_equal (fun s => length (wallets (payload s)))) in Hst.
    destruct state as [held loaded]. cbn [payload set_payload set_wallets wallets] in Hst. rewrite length_app in Hst. cbn in Hst. lia. }
  rewrite Hrun. injection Hp as <-. cbn [fst]. destruct Hs as [(Hi & Hm & Hg) He].
  assert (Hids : ids_of (wallets (payload state) ++ [record]) = ids_of (wallets (payload state)) ++ [uuid]).
  { unfold ids_of. rewrite List.map_app. cbn [List.map]. unfold record_id at 2. by rewrite Hmeta. }
  assert (Hsound : sound_wallets (wallets (payload state) ++ [record])).
  { apply push_sound; [done|unfold good_wallet; rewrite Hmeta; split; [done|split; [apply trim_twice|done]]|unfold record_id; by rewrite Hmeta|].
    unfold material_of at 1. rewrite Hmeta. by apply material_new. }
  assert (Hin : forall id, In id (ids_of (wallets (payload state) ++ [record])) -> id = uuid \/ In id (ids_of (wallets (payload state)))).
  { intros id. rewrite Hids. intros [?|[<-|[]]]%in_app_iff; [by right|by left]. }
  destruct engine as [engine|].
  - split; [|exact Hin]. split; [exact Hsound|]. intros id Hid. cbn [payload put_engine set_payload wallets set_wallets engines] in *. rewrite Hids. apply in_app_iff.
    destruct (decide (id = uuid)) as [->|Hneq]; [right; by left|]. left. apply He. rewrite lookup_insert_ne in Hid; [done|]. by intros <-.
  - split; [|exact Hin]. split; [exact Hsound|]. intros id Hid. cbn [payload set_payload wallets set_wallets engines] in *. rewrite Hids. apply in_app_iff. left. by apply He.
Qed.

Lemma remove_sound state id save : sound state ->
  sound (remove_wallet state id save).1 /\ incl (ids_of (wallets (payload (remove_wallet state id save).1))) (ids_of (wallets (payload state))).
Proof.
  intros Hs. unfold remove_wallet. destruct (commit_state_cases state save (remove id)) as [Hsame|([] & p & Hp & _ & Hrun)].
  { destruct (commit_state state save (remove id)) as [state' [v|e]] eqn:Erun; cbn [fst] in Hsame; subst state'; [|split; [done|apply incl_refl]]. exfalso.
    revert Erun. unfold commit_state, commit, remove. destruct (_ =? _)%nat eqn:El; [done|]. destruct save as [[]|]; [|done]. intros [= Hst _].
    apply (f_equal (fun s => length (wallets (payload s)))) in Hst. destruct state as [held loaded]. cbn in Hst. apply Nat.eqb_neq in El. done. }
  rewrite Hrun. cbn [fst payload set_payload engines]. unfold remove in Hp. destruct (_ =? _)%nat; [done|]. injection Hp as <-.
  cbn [wallets set_wallets set_unclaimed set_announced set_vanishing]. destruct Hs as [Hw He].
  assert (Hsub : sublist (retain (fun record => negb (named id record)) (wallets (payload state))) (wallets (payload state))) by apply retain_sublist.
  split; [split; [by eapply sublist_sound|]|].
  - intros other Ho. cbn [payload engines wallets set_wallets set_unclaimed set_announced set_vanishing] in *. assert (Hne : other <> id) by (intros ->; by rewrite lookup_delete_eq in Ho).
    rewrite lookup_delete_ne in Ho by (by intros <-). specialize (He other Ho). apply in_map_iff in He as (record & Hid & Hr). apply in_map_iff. exists record. split; [done|].
    apply retain_In. split; [done|]. unfold named. fold (record_id record). rewrite Hid. by rewrite bool_decide_eq_false_2.
  - intros x Hx. apply list_elem_of_In in Hx. apply list_elem_of_In. eapply elem_of_sublist; [exact Hx|]. by apply sublist_map.
Qed.

Lemma call_sound state call : sound state -> (forall id, In id (drawn call) -> ~ In id (ids_of (wallets (payload state)))) ->
  sound (wallet_call state call) /\ forall id, In id (ids_of (wallets (payload (wallet_call state call)))) -> In id (drawn call) \/ In id (ids_of (wallets (payload state))).
Proof.
  intros Hs Hd. destruct call as [call save]. unfold wallet_call, drawn in *. cbn [fst snd] in *. destruct call as [name parsed network uuid now|id name|id icon|id pinned|ids|id].
  - destruct (add_sound state name parsed network uuid now save Hs) as [Hn Hin]; [apply Hd; by left|]. split; [done|]. intros id Hid. destruct (Hin id Hid) as [->|?]; [left; by left|by right].
  - unfold rename_wallet. case_bool_decide as Hne; [split; [done|by right]|]. cbn [fst].
    destruct (change_call_sound state save id (set_name (trim name))) as [Hn Hi]; [|done|split; [done|]; rewrite Hi; by right].
    intros m. repeat split. right. split; [done|apply trim_twice].
  - destruct (change_call_sound state save id (set_icon icon)) as [Hn Hi]; [intros m; repeat split; by left|done|]. split; [done|]. unfold set_wallet_icon. rewrite Hi. by right.
  - destruct (change_call_sound state save id (set_pinned pinned)) as [Hn Hi]; [intros m; repeat split; by left|done|]. split; [done|]. unfold set_wallet_live_pinned. rewrite Hi. by right.
  - unfold reorder_wallets. destruct (commit_state_cases state save (reorder ids)) as [->|([] & p & Hp & _ & ->)]; [split; [done|by right]|]. cbn [fst]. destruct Hs as [Hw He].
    assert (Hperm : wallets p ≡ₚ wallets (payload state)) by (by eapply reorder_perm; [apply Hw|]).
    assert (Hids : forall x, In x (ids_of (wallets p)) <-> In x (ids_of (wallets (payload state)))).
    { intros x. unfold ids_of. rewrite <- !list_elem_of_In. by rewrite Hperm. }
    split; [split; [by eapply Permutation_sound|]|]; cbn [payload set_payload engines]; intros x Hx; [by apply Hids, He|right; by apply Hids].
  - destruct (remove_sound state id save Hs) as [Hn Hi]. split; [done|]. intros x Hx. right. by apply Hi.
Qed.

(** C19: Whatever is asked of the wallets of a vault, in whatever order, and
    whether or not the vault could be written: no two wallets have one
    identifier, nor watch one material on one network; each has a name and
    can be watched, so none holds a private key; and no engine outlives
    its wallet. An identifier drawn is one no wallet had. *)
Theorem wallets_stay_sound calls : forall state, sound state -> NoDup (List.concat (List.map drawn calls)) ->
  (forall id, In id (List.concat (List.map drawn calls)) -> ~ In id (ids_of (wallets (payload state)))) ->
  sound (foldl wallet_call state calls).
Proof.
  induction calls as [|call calls IH]; intros state Hs Hn Hd; [done|]. cbn [List.map List.concat foldl] in *. apply list.NoDup_app in Hn as (_ & Hdis & Hn).
  destruct (call_sound state call Hs) as [Hs' Hin]; [intros id Hid; apply Hd, in_app_iff; by left|]. apply IH; [done|done|].
  intros id Hid Hold. destruct (Hin id Hold) as [Hd'|Hi].
  - by apply (Hdis id); apply list_elem_of_In.
  - apply (Hd id); [apply in_app_iff; by right|done].
Qed.

(** A wallet removed leaves nothing to announce, no record and no engine;
    what is of the others stays, in its order. *)
Theorem removed_leaves_nothing state id save state' : remove_wallet state id save = (state', Ok tt) ->
  ~ In id (ids_of (wallets (payload state'))) /\ engines state' !! id = None
  /\ Forall (fun news => un_wallet_id news <> id) (unclaimed (payload state')) /\ Forall (fun told => an_wallet_id told <> id) (announced (payload state'))
  /\ Forall (fun missed => va_wallet_id missed <> id) (vanishing (payload state'))
  /\ wallets (payload state') = retain (fun record => negb (named id record)) (wallets (payload state))
  /\ wallets (payload state') <> wallets (payload state)
  /\ (forall other, other <> id -> engines state' !! other = engines state !! other)
  /\ settings (payload state') = settings (payload state) /\ broadcasts (payload state') = broadcasts (payload state).
Proof.
  unfold remove_wallet. destruct (commit_state state save (remove id)) as [state1 [[]|]] eqn:Erun; [|done]. intros [= <-]. cbn [payload engines].
  revert Erun. unfold commit_state, commit, remove. destruct (_ =? _)%nat eqn:El; [done|]. destruct save as [[]|]; [|done]. intros [= <-].
  cbn [payload set_payload wallets set_wallets set_unclaimed set_announced set_vanishing unclaimed announced vanishing engines settings broadcasts].
  assert (Hret : forall (A : Type) (f : A -> string) l, Forall (fun x => f x <> id) (retain (fun x => negb (bool_decide (f x = id))) l)).
  { intros A f l. apply List.Forall_forall. intros x [_ Hx]%retain_In. by apply negb_true_iff, bool_decide_eq_false_1 in Hx. }
  split; [|split; [by rewrite lookup_delete_eq|split; [apply Hret|split; [apply Hret|split; [apply Hret|split; [done|split; [|split; [|done]]]]]]]].
  - intros Hin. apply in_map_iff in Hin as (record & Hid & Hr). apply retain_In in Hr as [_ Hn]. unfold named in Hn. fold (record_id record) in Hn. rewrite Hid in Hn. by rewrite bool_decide_eq_true_2 in Hn.
  - intros Hsame. apply Nat.eqb_neq in El. apply El. by rewrite Hsame.
  - intros other Hne. by rewrite lookup_delete_ne.
Qed.
End Sound.

(** ** An example: a two-of-two added twice, renamed, removed; three wallets
    put in order *)

Module Demo.
#[global] Existing Instances Xpub.Demo.demo_keys Descriptors.Demo.demo_miniscript Import.Demo.demo_bdk.

Definition empty : ManagerState := {| payload := default_payload; engines := ∅ |}.
Definition add (uuid : string) : WalletCall * result unit VaultError := (AddWallet " Cold " Import.Demo.wallet_read Mainnet uuid 7, Ok tt).
Definition calls : list (WalletCall * result unit VaultError) :=
  [add "u1"; add "u2"; (RenameWallet "u1" " Vault ", Err AlreadyOpen); (RenameWallet "u1" " Vault ", Ok tt); (ReorderWallets ["u1"], Ok tt)].
Definition watching : ManagerState := foldl wallet_call empty calls.

Definition a_wallet (id : string) : WalletRecord ChangeSet :=
  {| meta := fresh_meta id 7 id Mainnet (WalletKind.SingleAddress id) Syncs.Address 20; changeset := None; address_state := None |}.
Definition three : VaultPayload (WalletRecord ChangeSet) := set_wallets default_payload [a_wallet "a"; a_wallet "b"; a_wallet "c"].
Definition ordered : VaultPayload (WalletRecord ChangeSet) := set_wallets default_payload [a_wallet "c"; a_wallet "b"; a_wallet "a"].
End Demo.

Lemma reorder_keeps_the_others_witness :
  NoDup (ids_of (wallets Demo.three)) /\ reorder ["c"; "a"] Demo.three = Ok (tt, Demo.ordered)
  /\ ids_of (retain (moves ["c"; "a"]) (wallets Demo.ordered)) = ["c"; "a"].
Proof.
  assert (Hn : NoDup (ids_of (wallets Demo.three))) by (apply (bool_decide_unpack _); vm_compute; exact I).
  assert (Hr : reorder ["c"; "a"] Demo.three = Ok (tt, Demo.ordered)) by (vm_compute; reflexivity).
  split; [exact Hn|]. split; [exact Hr|]. apply (reorder_keeps_the_others _ _ _ Hn Hr).
Defined.

Lemma wallets_stay_sound_witness : sound Demo.watching /\ List.map (fun r => m_name (meta r)) (wallets (payload Demo.watching)) = ["Vault"].
Proof.
  split; [|vm_compute; reflexivity]. apply (wallets_stay_sound Demo.calls Demo.empty).
  - split; [split; [constructor|split; constructor]|]. intros id Hid. vm_compute in Hid. discriminate.
  - apply (bool_decide_unpack _). vm_compute. exact I.
  - intros id _ [].
Defined.

Lemma removed_leaves_nothing_witness :
  exists state', remove_wallet Demo.watching "u1" (Ok tt) = (state', Ok tt) /\ ~ In "u1" (ids_of (wallets (payload state'))).
Proof.
  destruct (remove_wallet Demo.watching "u1" (Ok tt)) as [state' answer] eqn:Hr. exists state'.
  assert (Ha : answer = Ok tt) by (change answer with ((state', answer).2); rewrite <- Hr; vm_compute; reflexivity). rewrite Ha in *.
  split; [reflexivity|]. apply (removed_leaves_nothing _ _ _ _ Hr).
Defined.
