(* ===== verification/Backup.v ===== *)
(** [backup.rs]: the backup of the wallets, sealed under a password of its
    own; the text it travels as and the frames that show it. The JSON of a
    backup, the compression, base 64 and the encoder of the frames are
    parameters (the class [Packing]). *)
From S2P Require Import Prelude Utf8 Text Errors Network Store Cipher Endpoints Connect Addresses Syncs Engines Qr.
From Stdlib Require Import Ascii.

Definition BACKUP_VERSION : Z := 1.
Definition MAX_BACKUP_TEXT : Z := 8 * 1024 * 1024.
Definition MAX_BACKUP_PAYLOAD : Z := 16 * 1024 * 1024.
Definition MIN_PASSWORD_CHARS : nat := 8.
Definition MAX_FRAGMENT_LEN : nat := 160.

Record BackupWallet := {
  bw_name : string;
  bw_network : Network;
  bw_kind : WalletKind;
  bw_gap_limit : Z;
  bw_labels : gmap string string;
  bw_created_at : Z;
  bw_live_pinned : bool;
}.

Record BackupPayload := {
  bp_version : Z;
  bp_created_at : Z;
  bp_wallets : list BackupWallet;
  bp_backends : option (list (Network * BackendConfig));
  bp_electrum_certs : option (gmap string string);
  bp_gap_limit : option Z;
}.

Definition has_settings (payload : BackupPayload) : bool :=
  match bp_backends payload, bp_electrum_certs payload, bp_gap_limit payload with None, None, None => false | _, _, _ => true end.

(** serde_json, whole and the version alone; zlib, as far as so many bytes;
    base 64; CBOR and the parts of a UR. *)
Class Packing := {
  to_json : BackupPayload -> result (list Z) string;
  json_version : list Z -> result Z string;
  from_json : list Z -> result BackupPayload string;
  compress : list Z -> result (list Z) string;
  decompress : Z -> list Z -> result (list Z) string;
  base64_encode : list Z -> string;
  base64_decode : string -> option (list Z);
  cbor_bytes : list Z -> list Z;
  ur_encode : list Z -> string;
  ur_parts : list Z -> nat -> list string;
}.

#[export] Instance BackupWallet_eq_dec : EqDecision BackupWallet.
Proof. solve_decision. Defined.
#[export] Instance BackupPayload_eq_dec : EqDecision BackupPayload.
Proof. solve_decision. Defined.

Definition unreadable_backup (detail : string) : CoreError := UnreadableBackup detail.

Section Backup.
Context `{Aead} `{Packing}.

Definition password_key (password : string) : VaultKey := Password (trim password).

Definition sealing_key (password : string) : CoreResult VaultKey :=
  if (length (chars (trim password)) <? MIN_PASSWORD_CHARS)%nat
  then Err (InvalidInput "backup password" ("at least " +:+ dec (Z.of_nat MIN_PASSWORD_CHARS) +:+ " characters"))
  else Ok (password_key password).

(** [salt] and [nonce] are the random bytes drawn. *)
Definition seal_backup (payload : BackupPayload) (password : string) (salt nonce : list Z) : CoreResult (list Z) :=
  let? key := sealing_key password in
  match to_json payload with
  | Err e => Err (Errors.Internal ("backup serialization failed: " +:+ e))
  | Ok json =>
    match compress json with
    | Err e => Err (Errors.Internal ("backup compression failed: " +:+ e))
    | Ok compressed => match seal_with BACKUP_MAGIC compressed key salt nonce with Ok bytes => Ok bytes | Err e => Err (Vault e) end
    end
  end.

Definition newer_gerfaut (unknown : string) : CoreError :=
  NewerBackup ("this backup was written by a newer Gerfaut (" +:+ unknown +:+ "); update Gerfaut to open it").

Definition damaged (e : string) : CoreError := unreadable_backup ("this backup is damaged: " +:+ e).

(** Past the seal. *)
Definition read_backup (compressed : list Z) : CoreResult BackupPayload :=
  match decompress (MAX_BACKUP_PAYLOAD + 1) compressed with
  | Err e => Err (damaged e)
  | Ok json =>
    if Z.of_nat (length json) >? MAX_BACKUP_PAYLOAD then Err (unreadable_backup "this backup expands to far more than any wallet list")
    else
      match json_version json with
      | Err e => Err (damaged e)
      | Ok version =>
        if version >? BACKUP_VERSION then Err (newer_gerfaut ("backup version " +:+ dec version))
        else match from_json json with Ok payload => Ok payload | Err e => Err (damaged e) end
      end
  end.

Definition open_backup (bytes : list Z) (password : string) : CoreResult BackupPayload :=
  match unseal_with BACKUP_MAGIC bytes (password_key password) with
  | Err (UnsupportedVersion version) => Err (newer_gerfaut ("file version " +:+ dec version))
  | Err (UnsupportedKdf kdf) => Err (newer_gerfaut ("key profile " +:+ dec kdf))
  | Err NotAVault => Err (unreadable_backup "this is not a Gerfaut backup")
  | Err other => Err (Vault other)
  | Ok compressed => read_backup compressed
  end.

(** [chars().filter(..)], the blanks out. *)
Definition compacted (source : string) : string := of_chars (retain (fun c => negb (is_whitespace c)) (chars source)).

(** What follows the prefix, whatever its case. *)
Definition body_of (compact : string) : string :=
  let n := String.length BACKUP_PREFIX in
  if bool_decide (lower (String.substring 0 n compact) = BACKUP_PREFIX)
  then String.substring n (String.length compact - n) compact else compact.

Definition padded (body : string) : string :=
  match (String.length body mod 4)%nat with
  | O => body
  | rem => body +:+ String.concat "" (repeat "=" (4 - rem))
  end.

Definition decode_source (source : string) : CoreResult (list Z) :=
  if Z.of_nat (String.length source) >? MAX_BACKUP_TEXT then Err (unreadable_backup "this file is far too large to be a Gerfaut backup")
  else
    let body := body_of (compacted source) in
    if bool_decide (body = "") then Err (unreadable_backup "nothing to restore")
    else
      match base64_decode (padded body) with
      | None => Err (unreadable_backup "expected the text of a backup file or a scanned backup")
      | Some bytes =>
        if bool_decide (take (length BACKUP_MAGIC) bytes = BACKUP_MAGIC) then Ok bytes
        else Err (unreadable_backup "this is not a Gerfaut backup")
      end.

(** The encoder holds one part a fragment. *)
Definition backup_frames (bytes : list Z) : list string :=
  let message := cbor_bytes bytes in
  if (length message <=? MAX_FRAGMENT_LEN)%nat then [ur_encode message] else ur_parts message MAX_FRAGMENT_LEN.

(** A backup in both forms. *)
Record BackupBundle := { bb_data : string; bb_frames : list string; bb_wallet_count : Z; bb_size_bytes : Z }.

Definition bundle (payload : BackupPayload) (password : string) (salt nonce : list Z) : CoreResult BackupBundle :=
  let? sealed := seal_backup payload password salt nonce in
  Ok {| bb_data := base64_encode sealed; bb_frames := backup_frames sealed;
        bb_wallet_count := wrap_u32 (Z.of_nat (length (bp_wallets payload))); bb_size_bytes := wrap_u32 (Z.of_nat (length sealed)) |}.
End Backup.

(** ** What comes back *)

(** A character of base 64. *)
Definition base64_char (a : ascii) : bool := graph a && negb (a =? ":")%char.

(** What was written is read back, as far as one looks; base 64 is whole
    groups of four characters. *)
Class PackingLaws `{Packing} : Prop := {
  json_back payload json : to_json payload = Ok json -> json_version json = Ok (bp_version payload) /\ from_json json = Ok payload;
  compress_back json compressed n : compress json = Ok compressed -> decompress n compressed = Ok (take (Z.to_nat n) json);
  base64_back bytes : Forall in_u8 bytes -> base64_decode (base64_encode bytes) = Some bytes;
  base64_text bytes : str_all base64_char (base64_encode bytes) = true;
  base64_groups bytes : (String.length (base64_encode bytes) mod 4 = 0)%nat;
  base64_something bytes : bytes <> [] -> base64_encode bytes <> "";
}.

Section Back.
Context `{AeadLaws} `{PackingLaws}.

Definition pads (n : nat) : string := String.concat "" (repeat "=" n).

Lemma pads_length n : String.length (pads n) = n.
Proof.
  unfold pads. induction n as [|n IH]; [done|]. destruct n as [|n]; [done|]. change (String.concat "" (repeat "=" (S (S n)))) with (String "=" (String.concat "" (repeat "=" (S n)))).
  cbn [String.length]. by rewrite IH.
Qed.

Lemma padded_back body n : (n <= 3)%nat -> (String.length (body +:+ pads n) mod 4 = 0)%nat -> padded body = body +:+ pads n.
Proof.
  intros Hn Hmod. rewrite str_length_app, pads_length in Hmod. unfold padded. change (String.concat "" (repeat "=" ?k)) with (pads k).
  pose proof (Nat.div_mod_eq (String.length body) 4) as Hb. pose proof (Nat.div_mod_eq (String.length body + n) 4) as Hs.
  pose proof (Nat.mod_upper_bound (String.length body) 4 ltac:(done)) as Hr. rewrite Hmod in Hs. destruct (String.length body mod 4)%nat as [|r] eqn:Er.
  - assert (n = 0%nat) as -> by lia. unfold pads. simpl. by rewrite str_app_nil_r.
  - by replace (4 - S r)%nat with n by lia.
Qed.

(** Past a prefix in any case, or of a text that has none. *)
Lemma body_past prefix body : lower prefix = BACKUP_PREFIX -> body_of (prefix +:+ body) = body.
Proof.
  intros Hp. assert (Hl : String.length prefix = String.length BACKUP_PREFIX) by (rewrite <- Hp; clear; induction prefix; simpl; auto).
  unfold body_of. rewrite <- Hl, substring_head, Hp, bool_decide_eq_true_2 by done. clear Hp Hl.
  rewrite str_length_app. replace (_ + _ - _)%nat with (String.length body) by lia.
  induction prefix as [|a prefix IH]; [simpl; apply substring_whole|exact IH].
Qed.

Lemma body_bare body : lacks ":" body = true -> body_of body = body.
Proof.
  intros Hl. unfold body_of. rewrite bool_decide_eq_false_2; [done|]. intros Hp.
  assert (Hlow : forall n s, lacks ":" s = true -> lacks ":" (lower (String.substring 0 n s)) = true).
  { clear. unfold lacks. induction n as [|n IH]; intros [|a s]; try done. cbn [String.substring lower str_all]. intros [Ha Hs]%andb_true_iff.
    rewrite (IH s Hs), andb_true_r. unfold lower_byte. destruct (_ && _) eqn:Eu; [|done]. apply andb_true_iff in Eu as [El Eh].
    apply negb_true_iff, Ascii.eqb_neq. intros E. apply (f_equal N_of_ascii) in E. rewrite N_ascii_embedding in E; cbn in E; unfold byte_of in *; lia. }
  specialize (Hlow (String.length BACKUP_PREFIX) body Hl). rewrite Hp in Hlow. discriminate Hlow.
Qed.

Lemma compacted_graph s : str_all graph s = true -> compacted s = s.
Proof.
  intros Hs. assert (Ha : str_all is_ascii_byte s = true) by (eapply str_all_impl; [apply graph_ascii|done]).
  unfold compacted. rewrite chars_ascii by done. rewrite retain_all; [by apply of_chars_bytes|]. clear Ha. induction s as [|a s IH]; [by intros c []|].
  simpl in Hs. apply andb_true_iff in Hs as [Hg Hs]. intros c [<-|Hc]; [change (bytes (String a s)) with (byte_of a :: bytes s); by rewrite graph_not_blank|by apply IH].
Qed.

Lemma decode_body source body n sealed : Forall in_u8 sealed -> take (length BACKUP_MAGIC) sealed = BACKUP_MAGIC ->
  Z.of_nat (String.length source) <= MAX_BACKUP_TEXT -> body_of (compacted source) = body -> body +:+ pads n = base64_encode sealed -> (n <= 3)%nat ->
  decode_source source = Ok sealed.
Proof.
  intros Hu Hmagic Hl Hb He Hn. assert (Hne : base64_encode sealed <> "") by (apply base64_something; intros ->; done).
  pose proof (base64_groups sealed) as Hg. unfold decode_source. replace (_ >? _) with false by lia. rewrite Hb. cbv zeta. rewrite bool_decide_eq_false_2.
  2:{ intros ->. rewrite <- He in Hg, Hne. rewrite str_length_app, pads_length in Hg. cbn [String.length Nat.add] in Hg. rewrite Nat.mod_small in Hg by lia. by subst n. }
  rewrite (padded_back body n Hn), He by (by rewrite He). rewrite base64_back by done. by rewrite bool_decide_eq_true_2.
Qed.

(** C6: A backup sealed opens, on any device, under the password it was
    sealed with, whatever blanks are typed around it, as what was put in
    it, when it is not larger than what is read back. Its text gives the
    same bytes bare or as a scan yields it, the prefix in any case, with
    blanks and line breaks anywhere and the padding dropped. None is
    sealed under less than eight characters. *)
Theorem backup_comes_back payload password salt nonce sealed :
  sizes BACKUP_MAGIC salt nonce -> Forall in_u8 sealed -> bp_version payload <= BACKUP_VERSION ->
  (forall json, to_json payload = Ok json -> Z.of_nat (length json) <= MAX_BACKUP_PAYLOAD) ->
  seal_backup payload password salt nonce = Ok sealed ->
  (MIN_PASSWORD_CHARS <= length (chars (trim password)))%nat
  /\ (forall again, trim again = trim password -> open_backup sealed again = Ok payload)
  /\ (forall source prefix body n, Z.of_nat (String.length source) <= MAX_BACKUP_TEXT -> prefix = "" \/ lower prefix = BACKUP_PREFIX ->
      compacted source = prefix +:+ body -> body +:+ pads n = base64_encode sealed -> (n <= 3)%nat -> decode_source source = Ok sealed)
  /\ compacted (base64_encode sealed) = base64_encode sealed.
Proof.
  intros Hz Hu Hv Hlen. unfold seal_backup, sealing_key. destruct (Nat.ltb_spec (length (chars (trim password))) MIN_PASSWORD_CHARS) as [|Hmin]; [done|]. cbn [result_bind].
  destruct (to_json payload) as [json|] eqn:Ej; [|done]. destruct (compress json) as [c|] eqn:Ec; [|done].
  destruct (seal_with _ _ _ _ _) as [bytes|] eqn:Es; [|done]. intros [= ->]. destruct (seal_unseal _ _ _ _ _ _ Hz Es) as (Ho & Hm & _ & _).
  split; [done|]. split; [|split].
  - intros again Ha. unfold open_backup, password_key in *. rewrite Ha, Ho. unfold read_backup. rewrite (compress_back _ _ _ Ec).
    specialize (Hlen json eq_refl). rewrite take_ge by lia. replace (_ >? _) with false by lia. destruct (json_back _ _ Ej) as [-> ->]. by replace (_ >? _) with false by lia.
  - intros source prefix body n Hl Hp Hs He Hn. eapply (decode_body source body n); [done| |done| |done|done].
    { unfold slice in Hm. by rewrite drop_0 in Hm. }
    rewrite Hs. destruct Hp as [->|Hp]; [|by apply body_past]. apply body_bare.
    pose proof (base64_text sealed) as Ht. rewrite <- He, str_all_app in Ht. apply andb_true_iff in Ht as [Ht _]. eapply str_all_impl; [|exact Ht].
    intros a. unfold base64_char. by rewrite andb_true_iff; intros [_ ?].
  - apply compacted_graph. eapply str_all_impl; [|apply base64_text]. intros a. unfold base64_char. by rewrite andb_true_iff; intros [? _].
Qed.
End Back.

(** ** An example: one wallet, sealed by a cipher that keeps the text, written
    four characters a byte *)

Module Demo.
Definition payload : BackupPayload :=
  {| bp_version := BACKUP_VERSION; bp_created_at := 7;
     bp_wallets := [{| bw_name := "Cold"; bw_network := Mainnet; bw_kind := WalletKind.SingleAddress "bc1q"; bw_gap_limit := 20; bw_labels := ∅;
                       bw_created_at := 7; bw_live_pinned := false |}];
     bp_backends := None; bp_electrum_certs := None; bp_gap_limit := Some 20 |}.
Definition json : list Z := [123; 125].

Definition nibble (n : Z) : ascii := ascii_of_N (Z.to_N (65 + n)).
Definition nibble_of (a : ascii) : Z := Z.of_N (byte_of a) - 65.
Fixpoint spelled (bytes : list Z) : string :=
  match bytes with [] => "" | b :: bytes => String "A" (String "A" (String (nibble ((b / 16) mod 16)) (String (nibble (b mod 16)) (spelled bytes)))) end.
Fixpoint unspelled (s : string) : option (list Z) :=
  match s with
  | "" => Some []
  | String _ (String _ (String h (String l s))) => option_map (cons (nibble_of h * 16 + nibble_of l)) (unspelled s)
  | _ => None
  end.

#[export] Instance demo_aead : Aead := {|
  argon2id := fun _ password _ => Ok (List.map Z.of_N (bytes password));
  encrypt := fun _ _ msg _ => Some msg;
  decrypt := fun _ _ ciphertext _ => Some ciphertext;
|}.
(** Of one backup. *)
Definition packing_of (payload : BackupPayload) : Packing := {|
  to_json := fun p => if bool_decide (p = payload) then Ok json else Err "none";
  json_version := fun j => if bool_decide (j = json) then Ok BACKUP_VERSION else Err "none";
  from_json := fun j => if bool_decide (j = json) then Ok payload else Err "none";
  compress := Ok;
  decompress := fun n j => Ok (take (Z.to_nat n) j);
  base64_encode := spelled;
  base64_decode := unspelled;
  cbor_bytes := fun bytes => bytes;
  ur_encode := spelled;
  ur_parts := fun bytes _ => [spelled bytes];
|}.
#[export] Instance demo_packing : Packing := packing_of payload.

#[export] Instance demo_aead_laws : AeadLaws.
Proof. intros key nonce c aad msg. cbn. naive_solver. Qed.

Lemma nibble_back n : 0 <= n < 16 -> nibble_of (nibble n) = n.
Proof. intros Hn. unfold nibble_of, nibble, byte_of. rewrite N_ascii_embedding by lia. lia. Qed.

Lemma nibble_char b : base64_char (nibble (b mod 16)) = true.
Proof.
  pose proof (Z.mod_pos_bound b 16 ltac:(lia)) as Hb. generalize dependent (b mod 16). intros n Hn.
  assert (Hall : forallb (fun k => base64_char (nibble (Z.of_nat k))) (seq 0 16) = true) by (vm_compute; done).
  rewrite forallb_forall in Hall. rewrite <- (Z2Nat.id n) by lia. apply Hall, in_seq. lia.
Qed.

#[export] Instance demo_packing_laws : PackingLaws.
Proof.
  split; cbn -[Nat.modulo].
  - intros p j. case_bool_decide as Hp; [|done]. intros [= <-]. by rewrite !bool_decide_eq_true_2, Hp by done.
  - by intros j c n [= <-].
  - intros bytes Hu. induction Hu as [|b bytes Hb Hu IH]; [done|]. cbn [spelled unspelled]. rewrite IH. cbn [option_map]. f_equal. f_equal.
    pose proof (Z.mod_pos_bound b 16 ltac:(lia)). pose proof (Z.mod_pos_bound (b / 16) 16 ltac:(lia)). rewrite !nibble_back by lia.
    unfold in_u8, u8_max in Hb. rewrite (Z.mod_small (b / 16)) by (split; [apply Z.div_pos; lia|apply Z.div_lt_upper_bound; lia]). rewrite Z.mul_comm. symmetry. apply Z.div_mod. lia.
  - induction bytes as [|b bytes IH]; [done|]. cbn [spelled str_all]. by rewrite !nibble_char, IH.
  - induction bytes as [|b bytes IH]; [done|]. cbn [spelled String.length]. replace (S (S (S (S (String.length (spelled bytes)))))) with (String.length (spelled bytes) + 1 * 4)%nat by lia. by rewrite Nat.Div0.mod_add.
  - by intros [|b bytes].
Qed.

Definition password : string := "correct horse".
Definition sealed : list Z := BACKUP_MAGIC ++ [VERSION; KDF_ARGON2ID_64M] ++ repeat 1 16 ++ repeat 2 24 ++ json.
End Demo.

#[local] Existing Instances Demo.demo_aead Demo.demo_packing Demo.demo_aead_laws Demo.demo_packing_laws.

Lemma backup_comes_back_witness :
  seal_backup Demo.payload Demo.password (repeat 1 16) (repeat 2 24) = Ok Demo.sealed
  /\ open_backup Demo.sealed " correct horse " = Ok Demo.payload
  /\ decode_source ("Gerfaut-Backup: " +:+ base64_encode Demo.sealed) = Ok Demo.sealed.
Proof.
  assert (Hs : seal_backup Demo.payload Demo.password (repeat 1 16) (repeat 2 24) = Ok Demo.sealed) by (vm_compute; reflexivity).
  split; [exact Hs|].
  destruct (backup_comes_back Demo.payload Demo.password (repeat 1 16) (repeat 2 24) Demo.sealed) as (_ & Ho & Hd & _).
  - split; [reflexivity|split; reflexivity].
  - apply List.Forall_forall. intros b Hb. vm_compute in Hb. unfold in_u8, u8_max. repeat (destruct Hb as [<-|Hb]; [lia|]). destruct Hb.
  - vm_compute. discriminate.
  - intros j Hj. change (to_json Demo.payload) with (if bool_decide (Demo.payload = Demo.payload) then Ok Demo.json else Err "none" : result (list Z) string) in Hj.
    rewrite bool_decide_eq_true_2 in Hj by reflexivity. injection Hj as <-. vm_compute. discriminate.
  - exact Hs.
  - split; [apply Ho; vm_compute; reflexivity|].
    apply (Hd _ "Gerfaut-Backup:" (base64_encode Demo.sealed) 0%nat); [vm_compute; discriminate|right; vm_compute; reflexivity|vm_compute; reflexivity|apply str_app_nil_r|lia].
Defined.
