(* ===== verification/Restores.v ===== *)
(** [manager/backup.rs]: the wallets and the settings put in a backup, a
    backup looked at, and what of it is restored. What a restore does is
    one plan, which the preview shows and the restore carries out. *)
From S2P Require Import Prelude Utf8 Text Errors Network Xpub Store Connect Endpoints Certs Descriptors Routes ManagerSettings Addresses Syncs AddressSyncs Engines Cipher Backup Bsms Import Wallets.
From Stdlib Require Import Ascii.

(** ** Refusals *)

Definition quoted_name (name : string) : string := String (ascii_of_N 34) (name +:+ String (ascii_of_N 34) "").

(** [name] is trimmed here as it is where it is used. *)
Definition wallet_called (index : nat) (name : string) : string :=
  let name := trim name in
  if bool_decide (name = "") then "Wallet " +:+ dec (Z.of_nat index + 1) +:+ " of the backup" else name.

Definition refused_wallet (index : nat) (name : string) (error : CoreError) : CoreError :=
  let called := wallet_called index name in
  let its_name := if bool_decide (trim name = "") then called else quoted_name called in
  let cannot detail := its_name +:+ " cannot be restored: " +:+ detail in
  match error with
  | Errors.Descriptor detail => Errors.Descriptor (cannot detail)
  | InvalidInput kind detail => InvalidInput kind (cannot detail)
  | NetworkMismatch _ _ | PrivateMaterialRejected => InvalidInput "backup" (cannot (Errors.words error))
  | other => other
  end.

Definition is_refusal (error : CoreError) : bool :=
  match error with Errors.Descriptor _ | InvalidInput _ _ | PrivateMaterialRejected | NetworkMismatch _ _ => true | _ => false end.

Definition check_name (name : string) : CoreResult unit := if bool_decide (trim name = "") then Err wallet_name_error else Ok tt.

Definition recognized_kind (kind : WalletKind) : RecognizedKind :=
  match kind with
  | WalletKind.Descriptors _ (Some _) _ => DescriptorPair
  | WalletKind.Descriptors _ None _ => Syncs.Descriptor
  | WalletKind.SingleAddress _ => Syncs.Address
  end.

(** ** The records of a screen *)

(** [backup.rs]. *)
Record BackupOptions := { wallet_ids : option (list string); include_settings : bool }.
Record ImportChoices := { indexes : option (list Z); apply_settings : bool }.
Record BackupWalletPreview := {
  wp_index : nat; wp_name : string; wp_network : Network; wp_kind : WalletKind; already_watched : bool; wp_refused : option string;
}.
Record BackupPreview := {
  pv_created_at : Z; pv_wallets : list BackupWalletPreview; pv_has_settings : bool;
  pv_backends : list (Network * string); electrum_hosts : list string;
}.
Record RefusedWallet := { rw_index : nat; rw_name : string; rw_reason : string }.
Record ImportReport := { added : list WalletMeta; skipped : Z; settings_applied : bool; refused : list RefusedWallet }.

(** ** The certificates *)

(** [extend] of an ordered map. *)
Definition extend_backends (l more : list (Network * BackendConfig)) : list (Network * BackendConfig) :=
  foldl (fun l entry => insert_backend entry.1 entry.2 l) l more.

Section Certificates.
Context `{Keys} `{Urls}.

(** The Electrum addresses a backend in service names. *)
Definition served_by (entry : Network * BackendConfig) : list string :=
  match endpoints entry.2 entry.1 ∅ with
  | Ok asked => omap (fun e => match e with Endpoint.Electrum target => Some (t_url target) | Endpoint.Esplora _ => None end) asked
  | Err _ => []
  end.

Definition catalogue : list string :=
  List.map e_url (retain (fun server => self_signed server && bool_decide (protocol server = ServerProtocol.Electrum)) (List.flat_map public_servers Network.ALL)).

Definition named_hosts (vault : Settings) (backends : list (Network * BackendConfig)) : list string :=
  List.map certificate_key (List.flat_map served_by (extend_backends (Store.backends vault) backends) ++ catalogue).

(** One entry of the backup, among those met. *)
Definition agree (agreed : gmap string (option string)) (entry : string * string) : gmap string (option string) :=
  if negb (is_fingerprint entry.2) then agreed
  else
    let fingerprint := upper entry.2 in
    let host := certificate_key entry.1 in
    <[host := match agreed !! host with
              | None => Some fingerprint
              | Some seen => if bool_decide (seen = Some fingerprint) then seen else None
              end]> agreed.

Definition restorable_certs (vault : Settings) (backends : list (Network * BackendConfig)) (payload : BackupPayload) : gmap string string :=
  let named := named_hosts vault backends in
  let agreed := foldl agree ∅ (entries_in_order (unwrap_or (bp_electrum_certs payload) ∅)) in
  filter (fun kept => kept.1 ∈ named /\ electrum_certs vault !! kept.1 = None) (omap (fun fingerprint => fingerprint) agreed).
End Certificates.

(** ** The plan *)

Section Restores.
Context `{Aead} `{Packing} `{Keys} `{Urls} `{Bdk}.

Abbreviation WalletRecord := (WalletRecord ChangeSet).
Abbreviation Payload := (VaultPayload WalletRecord).

Inductive Fate := Watched | Refused (error : CoreError) | Restored (engine : option Wallet).

Definition restorable (wallet : BackupWallet) : CoreResult (option Wallet) :=
  let? _ := check_name (bw_name wallet) in
  let? _ := check_material (bw_kind wallet) (bw_network wallet) in
  engine_for (bw_kind wallet) (bw_network wallet).

Definition same_wallet (wallet earlier : BackupWallet) : bool :=
  bool_decide (bw_network earlier = bw_network wallet) && bool_decide (bw_kind earlier = bw_kind wallet).

(** What becomes of one wallet, given those restored before it. *)
Definition fate_of (vault : Payload) (before : list BackupWallet) (wallet : BackupWallet) : Fate :=
  if is_some (find_watched vault (bw_network wallet) (bw_kind wallet)) || any (same_wallet wallet) before then Watched
  else match restorable wallet with Ok engine => Restored engine | Err error => Refused error end.

Fixpoint fates (vault : Payload) (before : list BackupWallet) (chosen : list (nat * BackupWallet)) : list (nat * Fate) :=
  match chosen with
  | [] => []
  | (index, wallet) :: chosen =>
    let fate := fate_of vault before wallet in
    (index, fate) :: fates vault (match fate with Restored _ => before ++ [wallet] | _ => before end) chosen
  end.

Record RestorePlan := { rp_wallets : list (nat * Fate); rp_backends : list (Network * BackendConfig); rp_certs : gmap string string }.

(** A backend that cannot be read is left out. *)
Definition plan_backends (payload : BackupPayload) : list (Network * BackendConfig) :=
  omap (fun entry => match canonical entry.2 with Ok config => Some (entry.1, config) | Err _ => None end) (unwrap_or (bp_backends payload) []).

(** The wallets of a backup at some of its places. *)
Definition at_places (payload : BackupPayload) (chosen : list nat) : list (nat * BackupWallet) :=
  omap (fun index => option_map (pair index) (bp_wallets payload !! index)) chosen.

Definition plan_restore (vault : Payload) (payload : BackupPayload) (chosen : list nat) : RestorePlan :=
  let backends := plan_backends payload in
  {| rp_wallets := fates vault [] (at_places payload chosen);
     rp_backends := backends;
     rp_certs := restorable_certs (settings vault) backends payload |}.

(** ** Exporting *)

Fixpoint check_ids (p : Payload) (ids : list string) : CoreResult unit :=
  match ids with [] => Ok tt | id :: ids => let? _ := find_record p id in check_ids p ids end.

Definition backup_wallet (gap : Z) (record : WalletRecord) : BackupWallet :=
  let m := meta record in
  {| bw_name := m_name m; bw_network := m_network m; bw_kind := m_kind m; bw_gap_limit := gap; bw_labels := m_labels m;
     bw_created_at := m_created_at m; bw_live_pinned := m_live_pinned m |}.

Definition backup_payload (p : Payload) (options : BackupOptions) (now : Z) : CoreResult BackupPayload :=
  let? _ := match wallet_ids options with Some ids => check_ids p ids | None => Ok tt end in
  let s := settings p in
  let chosen record := match wallet_ids options with Some ids => bool_decide (record_id record ∈ ids) | None => true end in
  let asked {A} (a : A) := if include_settings options then Some a else None in
  Ok {| bp_version := BACKUP_VERSION; bp_created_at := now; bp_wallets := List.map (backup_wallet (gap_limit s)) (retain chosen (wallets p));
        bp_backends := asked (backends s); bp_electrum_certs := asked (electrum_certs s); bp_gap_limit := asked (gap_limit s) |}.

Definition export_backup (p : Payload) (options : BackupOptions) (password : string) (now : Z) (salt nonce : list Z) : CoreResult BackupBundle :=
  let? payload := backup_payload p options now in bundle payload password salt nonce.

(** ** Looking *)

Definition opened (source password : string) : CoreResult BackupPayload :=
  let? bytes := decode_source source in open_backup bytes password.

Definition wallet_preview (payload : BackupPayload) (planned : nat * Fate) : option BackupWalletPreview :=
  option_map (fun wallet =>
    {| wp_index := planned.1; wp_name := bw_name wallet; wp_network := bw_network wallet; wp_kind := bw_kind wallet;
       already_watched := match planned.2 with Watched => true | _ => false end;
       wp_refused := match planned.2 with Refused error => Some (Errors.words error) | _ => None end |})
    (bp_wallets payload !! planned.1).

Definition all_of (payload : BackupPayload) : list nat := seq 0 (length (bp_wallets payload)).

Definition preview_of (vault : Payload) (payload : BackupPayload) : BackupPreview :=
  let plan := plan_restore vault payload (all_of payload) in
  {| pv_created_at := bp_created_at payload; pv_has_settings := has_settings payload;
     pv_backends := List.map (fun entry => (entry.1, backend_label entry.2 entry.1)) (rp_backends plan);
     electrum_hosts := List.map fst (entries_in_order (rp_certs plan));
     pv_wallets := omap (wallet_preview payload) (rp_wallets plan) |}.

Definition preview_backup (p : Payload) (source password : string) : CoreResult BackupPreview :=
  let? payload := opened source password in Ok (preview_of p payload).

(** ** Restoring *)

Definition clamp (low high n : Z) : Z := Z.max low (Z.min high n).

Fixpoint check_indexes (count : nat) (indexes : list Z) : CoreResult unit :=
  match indexes with
  | [] => Ok tt
  | index :: indexes =>
    if index <? Z.of_nat count then check_indexes count indexes
    else Err (InvalidInput "backup" ("this backup has no wallet at index " +:+ dec index))
  end.

(** The places asked for, each once and in the order of the backup. *)
Definition chosen_places (payload : BackupPayload) (indexes : option (list Z)) : CoreResult (list nat) :=
  match indexes with
  | None => Ok (all_of payload)
  | Some indexes =>
    let? _ := check_indexes (length (bp_wallets payload)) indexes in
    Ok (retain (fun index => bool_decide (Z.of_nat index ∈ indexes)) (all_of payload))
  end.

(** What a restore makes of the wallets before the vault changes. *)
Record Gathered := { pending : list (WalletRecord * option Wallet); left_out : Z; turned_away : list RefusedWallet }.

Definition set_labels (labels : gmap string string) (m : WalletMeta) : WalletMeta :=
  {| m_id := m_id m; m_name := m_name m; m_icon := m_icon m; m_network := m_network m; m_kind := m_kind m; m_recognized_as := m_recognized_as m;
     m_created_at := m_created_at m; m_gap_limit := m_gap_limit m; m_scan_gap := m_scan_gap m; m_labels := labels; m_last_sync := m_last_sync m;
     m_complete_at := m_complete_at m; m_cached := m_cached m; m_live_pinned := m_live_pinned m |}.

(** [drawn] is the identifier and the instant of each new record. *)
Definition restored_meta (wallet : BackupWallet) (gap : Z) (drawn : string * Z) : WalletMeta :=
  set_pinned (bw_live_pinned wallet) (set_labels (bw_labels wallet)
    (fresh_meta drawn.1 drawn.2 (trim (bw_name wallet)) (bw_network wallet) (bw_kind wallet) (recognized_kind (bw_kind wallet)) gap)).

Definition gather_one (payload : BackupPayload) (by_index : bool) (gap : Z) (drawn : nat -> string * Z) (gathered : Gathered) (planned : nat * Fate)
  : CoreResult Gathered :=
  let '(index, fate) := planned in
  match bp_wallets payload !! index with
  | None => Ok gathered
  | Some wallet =>
    let name := trim (bw_name wallet) in
    match fate with
    | Watched => Ok {| pending := pending gathered; left_out := left_out gathered + 1; turned_away := turned_away gathered |}
    | Restored engine =>
      let? record := record_with (restored_meta wallet gap (drawn index)) engine in
      Ok {| pending := pending gathered ++ [record]; left_out := left_out gathered; turned_away := turned_away gathered |}
    | Refused error =>
      if negb by_index && is_refusal error
      then Ok {| pending := pending gathered; left_out := left_out gathered;
                 turned_away := turned_away gathered ++ [{| rw_index := index; rw_name := wallet_called index name; rw_reason := Errors.words error |}] |}
      else Err (refused_wallet index name error)
    end
  end.

Fixpoint gather (payload : BackupPayload) (by_index : bool) (gap : Z) (drawn : nat -> string * Z) (gathered : Gathered) (planned : list (nat * Fate))
  : CoreResult Gathered :=
  match planned with
  | [] => Ok gathered
  | p :: planned => let? gathered := gather_one payload by_index gap drawn gathered p in gather payload by_index gap drawn gathered planned
  end.

Definition plan_settings (plan : RestorePlan) (gap : Z) (s : Settings) : Settings :=
  ManagerSettings.set_gap gap (set_certs (rp_certs plan ∪ electrum_certs s) (set_backends (extend_backends (backends s) (rp_backends plan)) s)).

Definition restore_into (plan : RestorePlan) (applied : bool) (gap : Z) (records : list WalletRecord) (p : Payload) : CoreResult (unit * Payload) :=
  let p := if applied then set_settings p (plan_settings plan gap (settings p)) else p in
  Ok (tt, set_wallets p (wallets p ++ records)).

Definition put_engines (state : ManagerState) (restored : list (WalletRecord * option Wallet)) : ManagerState :=
  foldl (fun state r => match r.2 with Some engine => put_engine state (record_id r.1) engine | None => state end) state restored.

(** [import_backup], of a backup opened; [save] is what the write of the
    vault answers. *)
Definition import_payload (state : ManagerState) (payload : BackupPayload) (choices : ImportChoices) (drawn : nat -> string * Z) (save : result unit VaultError)
  : ManagerState * CoreResult ImportReport :=
  match chosen_places payload (indexes choices) with
  | Err e => (state, Err e)
  | Ok chosen =>
    let applied := apply_settings choices && has_settings payload in
    let gap := match bp_gap_limit payload, applied with Some gap, true => clamp 1 500 gap | _, _ => gap_limit (settings (Engines.payload state)) end in
    let plan := plan_restore (Engines.payload state) payload chosen in
    let nothing := {| pending := []; left_out := Z.of_nat (length (bp_wallets payload)) - Z.of_nat (length chosen); turned_away := [] |} in
    match gather payload (is_some (indexes choices)) gap drawn nothing (rp_wallets plan) with
    | Err e => (state, Err e)
    | Ok gathered =>
      match commit_state state save (restore_into plan applied gap (List.map fst (pending gathered))) with
      | (state, Err e) => (state, Err e)
      | (state, Ok _) =>
        (put_engines state (pending gathered),
         Ok {| added := List.map (fun r => meta r.1) (pending gathered); skipped := left_out gathered; settings_applied := applied;
               refused := turned_away gathered |})
      end
    end
  end.

Definition import_backup (state : ManagerState) (source password : string) (choices : ImportChoices) (drawn : nat -> string * Z) (save : result unit VaultError)
  : ManagerState * CoreResult ImportReport :=
  match opened source password with
  | Err e => (state, Err e)
  | Ok payload => import_payload state payload choices drawn save
  end.
End Restores.

(** ** The certificates restored *)

Section Pins.
Context `{Keys} `{Urls}.

(** The fingerprints a backup gives a host, under any spelling of it. *)
Definition prints (host : string) (entries : list (string * string)) : list string :=
  omap (fun entry => if is_fingerprint entry.2 && bool_decide (certificate_key entry.1 = host) then Some (upper entry.2) else None) entries.

Lemma prints_In host entries fp : In fp (prints host entries) <->
  exists typed f, In (typed, f) entries /\ is_fingerprint f = true /\ certificate_key typed = host /\ upper f = fp.
Proof.
  unfold prints. rewrite <- list_elem_of_In, list_elem_of_omap. split.
  - intros ([typed f] & Hin & He). cbn [fst snd] in He. destruct (is_fingerprint f) eqn:Ef; [|done]. cbn [andb] in He. case_bool_decide as Hk; [|done]. injection He as <-.
    exists typed, f. by rewrite <- list_elem_of_In.
  - intros (typed & f & Hin & Hf & Hk & Hu). exists (typed, f). rewrite list_elem_of_In. split; [done|]. cbn [fst snd]. rewrite Hf. cbn [andb]. by rewrite bool_decide_eq_true_2, Hu.
Qed.

Lemma agreed_right host entries : foldl agree ∅ entries !! host =
  match prints host entries with [] => None | f :: fs => Some (if all (fun g => bool_decide (g = f)) fs then Some f else None) end.
Proof.
  induction entries as [|entry entries IH] using rev_ind; [done|]. rewrite foldl_app. cbn [foldl]. set (m := foldl agree ∅ entries) in *. clearbody m.
  unfold prints. rewrite omap_app. fold (prints host entries). cbn [omap list_omap]. unfold agree. destruct (is_fingerprint entry.2) eqn:Ef; cbn [negb andb].
  2:{ by rewrite app_nil_r. }
  case_bool_decide as Hk.
  - subst host. rewrite lookup_insert_eq, IH. destruct (prints _ entries) as [|f fs]; [done|]. cbn [app]. unfold all. rewrite forallb_app. cbn [forallb]. rewrite andb_true_r.
    destruct (forallb _ fs); cbn [andb]; [|by rewrite bool_decide_eq_false_2]. repeat case_bool_decide; congruence.
  - rewrite lookup_insert_ne, app_nil_r by done. exact IH.
Qed.

Lemma insert_backend_other n c network l : n <> network ->
  List.find (fun e : Network * BackendConfig => bool_decide (e.1 = network)) (insert_backend n c l) = List.find (fun e => bool_decide (e.1 = network)) l.
Proof.
  intros Hn. induction l as [|[m d] l IH]; cbn [insert_backend List.find fst]; [by rewrite bool_decide_eq_false_2|]. case_bool_decide as Em.
  - subst m. cbn [List.find fst]. by rewrite !bool_decide_eq_false_2.
  - destruct (_ <? _); cbn [List.find fst]; [by rewrite (bool_decide_eq_false_2 (n = network))|]. by rewrite IH.
Qed.

Lemma extend_backends_lookup more network : in_order more -> forall l,
  List.find (fun e => bool_decide (e.1 = network)) (extend_backends l more)
  = match List.find (fun e => bool_decide (e.1 = network)) more with Some e => Some e | None => List.find (fun e => bool_decide (e.1 = network)) l end.
Proof.
  unfold in_order. induction more as [|[n c] more IH]; intros Hs l; [done|]. apply StronglySorted_inv in Hs as [Hs Hall]. cbn [extend_backends foldl List.find fst snd].
  change (foldl _ ?a ?b) with (extend_backends a b). rewrite (IH Hs). case_bool_decide as En; [|by rewrite insert_backend_other].
  subst n. rewrite insert_backend_found. destruct (List.find _ more) as [[m d]|] eqn:Ef; [|done]. exfalso. apply List.find_some in Ef as [Hin Hm].
  apply bool_decide_eq_true_1 in Hm. cbn [fst] in Hm. subst m. rewrite List.Forall_forall in Hall. specialize (Hall _ Hin). cbn [fst] in Hall. lia.
Qed.

(** In order, a network is there once. *)
Lemma in_order_find l network config : in_order l -> In (network, config) l <-> List.find (fun e => bool_decide (e.1 = network)) l = Some (network, config).
Proof.
  unfold in_order. intros Ho. split; [|intros Hf; by apply List.find_some in Hf as [? _]].
  induction Ho as [|[m d] l Ho IH Hall]; intros Hin; [done|]. cbn [List.find fst]. destruct Hin as [[= -> ->]|Hin]; [by rewrite bool_decide_eq_true_2|].
  rewrite List.Forall_forall in Hall. specialize (Hall _ Hin). cbn [fst] in Hall. rewrite bool_decide_eq_false_2 by (intros ->; lia). by apply IH.
Qed.

Lemma extend_backends_in_order more : forall l, in_order l -> in_order (extend_backends l more).
Proof. induction more as [|[n c] more IH]; intros l Hl; [done|]. apply (IH (insert_backend n c l)). by apply insert_backend_in_order. Qed.

(** The backend of a network once the settings are in place: the
    backup's, else the vault's. *)
Definition in_service (l more : list (Network * BackendConfig)) (network : Network) (config : BackendConfig) : Prop :=
  In (network, config) more \/ (forall other, ~ In (network, other) more) /\ In (network, config) l.

Lemma extend_backends_In l more network config : in_order l -> in_order more -> In (network, config) (extend_backends l more) <-> in_service l more network config.
Proof.
  intros Hl Hm. rewrite (in_order_find _ _ _ (extend_backends_in_order more l Hl)), extend_backends_lookup by done. unfold in_service. rewrite (in_order_find more), (in_order_find l) by done.
  destruct (List.find _ more) as [[n c]|] eqn:Ef.
  - split; [by left|]. intros [?|[Hno _]]; [done|]. apply List.find_some in Ef as [Hin Hn]. apply bool_decide_eq_true_1 in Hn. cbn [fst] in Hn. subst n. by destruct (Hno c).
  - split; [|by intros [?|[_ ?]]]. intros Hf. right. split; [|done]. intros other Hin. apply (List.find_none _ _ Ef) in Hin. cbn [fst] in Hin. by rewrite bool_decide_eq_true_2 in Hin.
Qed.

(** An Electrum server a backend in service names. *)
Definition served_in (vault : Settings) (more : list (Network * BackendConfig)) (host : string) : Prop :=
  exists network config asked target, in_service (Store.backends vault) more network config /\ endpoints config network ∅ = Ok asked
  /\ In (Endpoint.Electrum target) asked /\ certificate_key (t_url target) = host.

(** A public Electrum server that signs its own certificate. *)
Definition self_signed_public (host : string) : Prop :=
  exists network server, In server (public_servers network) /\ self_signed server = true /\ protocol server = ServerProtocol.Electrum /\ certificate_key (e_url server) = host.

Lemma named_right vault more host : in_order (Store.backends vault) -> in_order more -> In host (named_hosts vault more) <-> served_in vault more host \/ self_signed_public host.
Proof.
  intros Hl Hm. unfold named_hosts. rewrite in_map_iff. split.
  - intros (url & Hk & [Hin|Hin]%in_app_iff); [left|right].
    + apply in_flat_map in Hin as ([network config] & Hin & Hs). apply extend_backends_In in Hin; [|done..]. unfold served_by in Hs. cbn [fst snd] in Hs.
      destruct (endpoints config network ∅) as [asked|] eqn:Ee; [|done]. apply list_elem_of_In, list_elem_of_omap in Hs as ([u|target] & Ht%list_elem_of_In & [= <-]).
      by exists network, config, asked, target.
    + unfold catalogue in Hin. apply in_map_iff in Hin as (server & <- & [Hin Hs]%retain_In). apply in_flat_map in Hin as (network & _ & Hin). apply andb_true_iff in Hs as [Hs Hp].
      apply bool_decide_eq_true_1 in Hp. by exists network, server.
  - intros [(network & config & asked & target & Hin & Ee & Ht & Hk)|(network & server & Hin & Hs & Hp & Hk)].
    + exists (t_url target). split; [done|]. apply in_app_iff. left. apply in_flat_map. exists (network, config). split; [by apply extend_backends_In|]. unfold served_by. cbn [fst snd]. rewrite Ee.
      apply list_elem_of_In, list_elem_of_omap. exists (Endpoint.Electrum target). by rewrite list_elem_of_In.
    + exists (e_url server). split; [done|]. apply in_app_iff. right. unfold catalogue. apply in_map. apply retain_In. split; [|by rewrite Hs, bool_decide_eq_true_2].
      apply in_flat_map. exists network. split; [|done]. destruct network; cbn; tauto.
Qed.

(** C34: A restore pins a host exactly when this vault does not pin it yet,
    when the host is an Electrum server of a backend in service after the
    restore, or a public server that signs its own certificate, and when
    the entries of the backup for that host, under every spelling of it,
    that are fingerprints at all, agree on one. *)
Theorem pins_restored_exactly (vault : Settings) backends payload host fingerprint :
  let certs := unwrap_or (bp_electrum_certs payload) ∅ in
  in_order (Store.backends vault) -> in_order backends ->
  restorable_certs vault backends payload !! host = Some fingerprint <->
  electrum_certs vault !! host = None
  /\ (served_in vault backends host \/ self_signed_public host)
  /\ (exists typed f, certs !! typed = Some f /\ is_fingerprint f = true /\ certificate_key typed = host)
  /\ (forall typed f, certs !! typed = Some f -> is_fingerprint f = true -> certificate_key typed = host -> upper f = fingerprint).
Proof.
  intros certs Hl Hm. rewrite <- named_right by done. unfold restorable_certs. rewrite map_lookup_filter_Some, lookup_omap. cbn [fst]. fold certs. rewrite agreed_right, list_elem_of_In.
  assert (Hp : forall fp, In fp (prints host (entries_in_order certs)) <-> exists typed f, certs !! typed = Some f /\ is_fingerprint f = true /\ certificate_key typed = host /\ upper f = fp).
  { intros fp. rewrite prints_In. split; intros (typed & f & Hin & Hr); exists typed, f; (split; [by apply entries_in_order_In|done]). }
  destruct (prints host (entries_in_order certs)) as [|f fs].
  { split; [by intros [? _]|]. intros (_ & _ & (typed & f & Hc & Hf & Hk) & _). exfalso. apply (proj2 (Hp (upper f))). by exists typed, f. }
  cbn [mbind option_bind]. destruct (proj1 (Hp f) (or_introl eq_refl)) as (typed & g & Hc & Hf & Hk & <-). split.
  - destruct (all _ fs) eqn:Ea; [|by intros [? _]]. intros [[= <-] [Hn Hv]]. split; [done|]. split; [done|]. split; [by exists typed, g|].
    intros typed' g' Hc' Hf' Hk'. destruct (proj2 (Hp (upper g'))) as [->|Hin]; [by exists typed', g'|done|].
    unfold all in Ea. rewrite forallb_forall in Ea. specialize (Ea _ Hin). by apply bool_decide_eq_true_1 in Ea.
  - intros (Hv & Hn & _ & Hall). assert (Ha : all (fun x => bool_decide (x = upper g)) fs = true).
    { apply all_true. intros x Hx. destruct (proj1 (Hp x) (or_intror Hx)) as (t' & g' & Hc' & Hf' & Hk' & <-). apply bool_decide_eq_true_2. by rewrite (Hall _ _ Hc' Hf' Hk'), (Hall _ _ Hc Hf Hk). }
    rewrite Ha, (Hall _ _ Hc Hf Hk). done.
Qed.
End Pins.

(** ** What a restore comes to *)

Section Kept.
Context `{Aead} `{Packing} `{Keys} `{Urls} `{Bdk}.

Abbreviation WalletRecord := (WalletRecord ChangeSet).
Abbreviation Payload := (VaultPayload WalletRecord).

(** The records to come of a plan, the refusals and the wallets passed over. *)
Definition new_meta (payload : BackupPayload) (gap : Z) (drawn : nat -> string * Z) (planned : nat * Fate) : option WalletMeta :=
  match planned.2, bp_wallets payload !! planned.1 with
  | Restored _, Some wallet => Some (restored_meta wallet gap (drawn planned.1))
  | _, _ => None
  end.
Definition new_refusal (payload : BackupPayload) (planned : nat * Fate) : option RefusedWallet :=
  match planned.2, bp_wallets payload !! planned.1 with
  | Refused error, Some wallet =>
    Some {| rw_index := planned.1; rw_name := wallet_called planned.1 (trim (bw_name wallet)); rw_reason := Errors.words error |}
  | _, _ => None
  end.
Definition passed_over (payload : BackupPayload) (planned : nat * Fate) : bool :=
  match planned.2, bp_wallets payload !! planned.1 with Watched, Some _ => true | _, _ => false end.

Lemma record_with_meta m engine record engine' : record_with m engine = Ok (record, engine') -> meta record = m.
Proof. unfold record_with. destruct engine as [e|]; [|by intros [= <- _]]. destruct (take_staged e) as [[c|] w]; [|done]. by intros [= <- _]. Qed.

Lemma gather_right payload by_index gap drawn planned : forall gathered gathered', gather payload by_index gap drawn gathered planned = Ok gathered' ->
  List.map (fun r => meta r.1) (pending gathered') = List.map (fun r => meta r.1) (pending gathered) ++ omap (new_meta payload gap drawn) planned
  /\ turned_away gathered' = turned_away gathered ++ omap (new_refusal payload) planned
  /\ left_out gathered' = left_out gathered + Z.of_nat (length (retain (passed_over payload) planned)).
Proof.
  induction planned as [|[index fate] planned IH]; intros g g'; cbn [gather]; [intros [= <-]; cbn; rewrite !app_nil_r; split; [done|split; [done|lia]]|].
  destruct (gather_one _ _ _ _ g (index, fate)) as [g1|] eqn:Eg; [|done]. cbn [result_bind]. intros Hg. destruct (IH _ _ Hg) as (-> & -> & ->). clear IH Hg.
  unfold retain. cbn [omap list_omap List.filter]. unfold gather_one in Eg. unfold new_meta at 2, new_refusal at 2, passed_over at 2. cbn [fst snd].
  destruct (bp_wallets payload !! index) as [wallet|]; [|injection Eg as <-; by destruct fate].
  destruct fate as [|error|engine]; cbn [length].
  - injection Eg as <-. cbn [pending turned_away left_out]. split; [done|split; [done|lia]].
  - destruct (negb by_index && is_refusal error); [|done]. injection Eg as <-. cbn [pending turned_away left_out]. by rewrite <- app_assoc.
  - destruct (record_with _ _) as [[record e']|] eqn:Er; [|done]. injection Eg as <-. cbn [pending turned_away left_out]. apply record_with_meta in Er.
    rewrite List.map_app. cbn [List.map fst]. rewrite Er. by rewrite <- app_assoc.
Qed.

Definition material (wallet : BackupWallet) : Network * WalletKind := (bw_network wallet, bw_kind wallet).

Lemma unwatched (vault : Payload) before wallet engine l : fate_of vault before wallet = Restored engine ->
  List.map material_of l = List.map material_of (wallets vault) ++ List.map material before ->
  (material wallet ∉ List.map material_of l) /\ trim (bw_name wallet) <> "" /\ watchable (bw_kind wallet) (bw_network wallet).
Proof.
  unfold fate_of. destruct (is_some _) eqn:Ew; [done|]. destruct (any (same_wallet wallet) before) eqn:Eb; [done|]. cbn [orb].
  destruct (restorable wallet) as [e|] eqn:Er; [|done]. intros [= ->] ->. split.
  - intros [Hin|Hin]%elem_of_app.
    + revert Hin. apply material_new. by destruct (find_watched _ _ _).
    + apply not_true_iff_false in Eb. apply Eb. unfold any. apply existsb_exists. apply list_elem_of_In, in_map_iff in Hin as (earlier & He & Hi). exists earlier. split; [done|].
      unfold same_wallet. injection He as <- <-. by rewrite !bool_decide_eq_true_2.
  - unfold restorable, check_name in Er. case_bool_decide as Hn; [done|]. cbn [result_bind] in Er. destruct (check_material _ _); [|done]. cbn [result_bind] in Er.
    split; [done|]. by apply watch_only in Er as [? _].
Qed.

Lemma restored_sound (vault : Payload) payload gap drawn : (forall i j, (drawn i).1 = (drawn j).1 -> i = j) ->
  forall chosen before (l news : list WalletRecord), NoDup (List.map fst chosen) -> Forall (fun c => bp_wallets payload !! c.1 = Some c.2) chosen ->
  sound_wallets l -> List.map material_of l = List.map material_of (wallets vault) ++ List.map material before ->
  (forall c, In c chosen -> ~ In (drawn c.1).1 (ids_of l)) ->
  List.map meta news = omap (new_meta payload gap drawn) (fates vault before chosen) -> sound_wallets (l ++ news).
Proof.
  intros Hinj. induction chosen as [|[index wallet] chosen IH]; intros before l news Hnd Hall Hs Hm Hu Hnews.
  { by destruct news; [rewrite app_nil_r|]. }
  cbn [List.map fst] in Hnd. apply list.NoDup_cons in Hnd as [Hfresh Hnd]. apply list.Forall_cons in Hall as [Hw Hall]. cbn [fst snd] in Hw.
  cbn [fates omap list_omap] in Hnews. unfold new_meta at 1 in Hnews. cbn [fst snd] in Hnews. rewrite Hw in Hnews.
  assert (Hrest : forall c, In c chosen -> ~ In (drawn c.1).1 (ids_of l)) by (intros c Hc; apply Hu; by right).
  destruct (fate_of vault before wallet) as [|e|engine] eqn:Ef; [by eapply IH|by eapply IH|].
  destruct news as [|record news]; [done|]. cbn [List.map] in Hnews. apply cons_eq_inj in Hnews as [Hr Hnews].
  destruct (unwatched _ _ _ _ l Ef Hm) as (Hmat & Hname & Hwatch).
  replace (l ++ record :: news) with ((l ++ [record]) ++ news) by by rewrite <- app_assoc.
  apply (IH (before ++ [wallet])); [done|done| | | |done].
  - apply push_sound; [done| | |].
    + unfold good_wallet. rewrite Hr. cbn. split; [done|]. split; [apply trim_twice|done].
    + unfold record_id. rewrite Hr. by apply (Hu (index, wallet)); left.
    + unfold material_of at 1. rewrite Hr. exact Hmat.
  - rewrite !List.map_app, Hm. cbn [List.map]. rewrite <- app_assoc. f_equal. f_equal. unfold material_of. by rewrite Hr.
  - intros c Hc. unfold ids_of. rewrite List.map_app. intros [Hin|[Hin|[]]]%in_app_iff; [by apply (Hrest c)|].
    unfold record_id in Hin. rewrite Hr in Hin. apply (Hinj index c.1) in Hin. apply Hfresh, list_elem_of_In, in_map_iff. by exists c.
Qed.

Lemma put_engines_right restored : forall state, payload (put_engines state restored) = payload state
  /\ forall id, is_some (engines (put_engines state restored) !! id) = true -> is_some (engines state !! id) = true \/ In id (ids_of (List.map fst restored)).
Proof.
  induction restored as [|[record engine] restored IH]; intros state; [split; [done|by left]|]. cbn [put_engines foldl List.map fst snd ids_of].
  change (foldl _ ?a ?b) with (put_engines a b). destruct engine as [engine|]; [|destruct (IH state) as [Hp He]; split; [done|]; intros id Hid; destruct (He id Hid); [by left|by right; right]].
  destruct (IH (put_engine state (record_id record) engine)) as [Hp He]. split; [done|]. intros id Hid. destruct (He id Hid) as [Hs|?]; [|by right; right].
  cbn [engines put_engine] in Hs. destruct (decide (id = record_id record)) as [->|Hne]; [by right; left|]. left. by rewrite lookup_insert_ne in Hs.
Qed.

Lemma at_places_right payload places : NoDup places ->
  NoDup (List.map fst (at_places payload places)) /\ Forall (fun c => bp_wallets payload !! c.1 = Some c.2) (at_places payload places).
Proof.
  intros Hn. assert (Hin : forall c, In c (at_places payload places) -> bp_wallets payload !! c.1 = Some c.2 /\ In c.1 places).
  { intros c Hc. unfold at_places in Hc. apply list_elem_of_In, list_elem_of_omap in Hc as (index & Hi & Hc). destruct (bp_wallets payload !! index) eqn:Ew; [|done].
    injection Hc as <-. cbn [fst snd]. split; [done|by apply list_elem_of_In]. }
  split; [|apply List.Forall_forall; intros c Hc; by apply Hin]. clear Hin. induction Hn as [|index places Hi Hn IH]; [constructor|]. unfold at_places. cbn [omap list_omap].
  fold (at_places payload places). destruct (bp_wallets payload !! index) as [w|]; [|exact IH]. cbn [option_map List.map fst]. constructor; [|exact IH].
  intros Hc. apply Hi. apply list_elem_of_In, in_map_iff in Hc as (c & <- & Hc). unfold at_places in Hc. apply list_elem_of_In, list_elem_of_omap in Hc as (j & Hj & Hc).
  destruct (bp_wallets payload !! j); [|done]. injection Hc as <-. done.
Qed.

Lemma chosen_NoDup payload indexes places : chosen_places payload indexes = Ok places -> NoDup places.
Proof.
  unfold chosen_places, all_of. destruct indexes as [l|]; [|intros [= <-]; apply NoDup_ListNoDup, seq_NoDup].
  destruct (check_indexes _ _) as [[]|]; [|done]. intros [= <-]. eapply NoDup_sublist; [apply retain_sublist|apply NoDup_ListNoDup, seq_NoDup].
Qed.

(** The settings of a backup put in place. *)
Lemma extend_backends_well more : forall s, Forall (fun entry => exists typed, canonical typed = Ok entry.2) more -> well_set s ->
  well_set (set_backends (extend_backends (backends s) more) s).
Proof.
  induction more as [|[n c] more IH]; intros s Hm Hw; [by destruct s|]. apply list.Forall_cons in Hm as [Hc Hm].
  exact (IH (keep_backend n c s) Hm (keep_backend_well n c s Hc Hw)).
Qed.

Lemma plan_backends_canonical payload : Forall (fun entry : Network * BackendConfig => exists typed, canonical typed = Ok entry.2) (plan_backends payload).
Proof.
  apply List.Forall_forall. intros entry Hin. apply list_elem_of_In, list_elem_of_omap in Hin as ([n c] & _ & Hc). cbn [fst snd] in Hc.
  destruct (canonical c) as [config|] eqn:E; [|done]. injection Hc as <-. by exists c.
Qed.

Lemma plan_certs_lookup vault backends payload host fp : restorable_certs vault backends payload !! host = Some fp ->
  electrum_certs vault !! host = None /\ a_fingerprint fp.
Proof.
  unfold restorable_certs. rewrite map_lookup_filter_Some, lookup_omap. cbn [fst]. rewrite agreed_right. intros [He [_ Hv]]. split; [done|].
  destruct (prints _ _) as [|f fs] eqn:Ep; [done|]. cbn [mbind option_bind] in He. destruct (all _ fs); [|done]. injection He as <-.
  assert (Hin : In f (prints host (entries_in_order (unwrap_or (bp_electrum_certs payload) ∅)))) by (rewrite Ep; by left).
  apply prints_In in Hin as (typed & g & _ & Hg & _ & <-). by apply upper_fingerprint.
Qed.

Lemma plan_settings_well (vault : Payload) payload chosen gap s : 1 <= gap <= 500 -> well_set s -> electrum_certs s = electrum_certs (settings vault) ->
  well_set (plan_settings (plan_restore vault payload chosen) gap s)
  /\ forall host fp, electrum_certs s !! host = Some fp -> electrum_certs (plan_settings (plan_restore vault payload chosen) gap s) !! host = Some fp.
Proof.
  intros Hg Hw He. pose proof (extend_backends_well (plan_backends payload) s (plan_backends_canonical payload) Hw) as [Ho Hb _ Hf Hl Hq Hp]. split.
  - split; try done. cbn [electrum_certs plan_settings set_gap set_certs]. intros host fp [Hpl|[_ Hold]]%lookup_union_Some_raw; [|by apply (Hf host)].
    by apply plan_certs_lookup in Hpl as [_ ?].
  - intros host fp Hold. cbn [electrum_certs plan_settings set_gap set_certs plan_restore rp_certs]. apply lookup_union_Some_raw. right. split; [|done].
    destruct (restorable_certs (settings vault) (plan_backends payload) payload !! host) as [fp'|] eqn:Er; [|done]. apply plan_certs_lookup in Er as [Hn _]. congruence.
Qed.

(** A restore, refused, or of a backup opened and saved. *)
Lemma import_cases state payload choices drawn save :
  (exists e, import_payload state payload choices drawn save = (state, Err e))
  \/ exists places gathered, let applied := apply_settings choices && has_settings payload in
     let gap := match bp_gap_limit payload, applied with Some gap, true => clamp 1 500 gap | _, _ => gap_limit (settings (Engines.payload state)) end in
     let plan := plan_restore (Engines.payload state) payload places in
     chosen_places payload (indexes choices) = Ok places /\ save = Ok tt
     /\ gather payload (is_some (indexes choices)) gap drawn
          {| pending := []; left_out := Z.of_nat (length (bp_wallets payload)) - Z.of_nat (length places); turned_away := [] |} (rp_wallets plan) = Ok gathered
     /\ import_payload state payload choices drawn save =
        (put_engines (set_payload state (let p := Engines.payload state in
             let p := if applied then set_settings p (plan_settings plan gap (settings p)) else p in set_wallets p (wallets p ++ List.map fst (pending gathered)))) (pending gathered),
         Ok {| added := List.map (fun r => meta r.1) (pending gathered); skipped := left_out gathered; settings_applied := applied; refused := turned_away gathered |}).
Proof.
  unfold import_payload. destruct (chosen_places payload (indexes choices)) as [places|e]; [|left; by exists e].
  set (gap := match bp_gap_limit payload with Some _ => _ | None => _ end). destruct (gather _ _ _ _ _ _) as [gathered|e] eqn:Eg; [|left; by exists e].
  unfold commit_state, commit, restore_into. destruct save as [[]|e]; [|left; exists (Vault e); by destruct state]. right. by exists places, gathered.
Qed.

(** C7: A restore adds wallets after those of the vault, or changes nothing: it
    is refused, or the vault not written, as a whole. What the vault holds
    stays sound: no two wallets of one identifier or one material, each
    with a name and watchable, so none with a private key; the settings
    stay well set, the gap limit within its bounds; the wallets, the lock,
    and the certificates already accepted are never replaced; and the
    settings change only when that was asked. *)
Theorem restore_keeps_the_vault state source password choices drawn save :
  sound state -> well_set (settings (payload state)) ->
  (forall i j, (drawn i).1 = (drawn j).1 -> i = j) -> (forall i, ~ In (drawn i).1 (ids_of (wallets (payload state)))) ->
  let '(next, answer) := import_backup state source password choices drawn save in
  sound next /\ well_set (settings (payload next))
  /\ (forall e, answer = Err e -> next = state)
  /\ (exists records, payload next = set_wallets (set_settings (payload state) (settings (payload next))) (wallets (payload state) ++ records))
  /\ (apply_settings choices = false -> settings (payload next) = settings (payload state))
  /\ Store.app_lock (settings (payload next)) = Store.app_lock (settings (payload state))
  /\ forall host fp, electrum_certs (settings (payload state)) !! host = Some fp -> electrum_certs (settings (payload next)) !! host = Some fp.
Proof.
  intros Hs Hw Hinj Hfresh. assert (Hsame : forall A (answer : A), (exists records, payload state = set_wallets (set_settings (payload state) (settings (payload state))) (wallets (payload state) ++ records))).
  { intros A _. exists []. rewrite app_nil_r. by destruct state as [[] ?]. }
  unfold import_backup. destruct (opened source password) as [p|e]; [|repeat (split; [done|]); split; [by apply (Hsame unit)|done]].
  destruct (import_cases state p choices drawn save) as [[e ->]|(places & gathered & Hc & _ & Hg & ->)]; [repeat (split; [done|]); split; [by apply (Hsame unit)|done]|].
  apply chosen_NoDup in Hc. apply gather_right in Hg as (Hmetas & _ & _). cbn [pending List.map app] in Hmetas.
  set (applied := apply_settings choices && has_settings p) in *. set (gap := match bp_gap_limit p with Some _ => _ | None => _ end) in *.
  assert (Hgap : 1 <= gap <= 500). { pose proof (gap_in_range _ Hw). unfold gap, clamp. destruct (bp_gap_limit p); [destruct applied; lia|done]. }
  destruct (plan_settings_well (payload state) p places gap (settings (payload state)) Hgap Hw eq_refl) as [Hplan Hpins].
  destruct (at_places_right p places Hc) as [Hnd Hall]. destruct Hs as [Hs He].
  rewrite <- (List.map_map fst meta) in Hmetas. pose proof (restored_sound (payload state) p gap drawn Hinj (at_places p places) [] (wallets (payload state)) (List.map fst (pending gathered))
    Hnd Hall Hs ltac:(by rewrite app_nil_r) ltac:(intros c _; apply Hfresh) Hmetas) as Hsound.
  set (next := set_payload _ _). destruct (put_engines_right (pending gathered) next) as [Hp Hengines].
  assert (Hwallets : wallets (payload next) = wallets (payload state) ++ List.map fst (pending gathered)) by (unfold next; by destruct applied).
  assert (Hset : settings (payload next) = if applied then plan_settings (plan_restore (payload state) p places) gap (settings (payload state)) else settings (payload state)) by (unfold next; by destruct applied).
  rewrite Hp. split; [split; [by rewrite Hp, Hwallets|]|].
  { rewrite Hp, Hwallets. intros id Hid. unfold ids_of. rewrite List.map_app. apply in_app_iff. destruct (Hengines id Hid) as [Hold|?]; [left; by apply He|by right]. }
  split; [rewrite Hset; by destruct applied|]. split; [done|]. split; [exists (List.map fst (pending gathered)); unfold next; destruct applied; by destruct state as [[] ?]|].
  split; [intros Ha; rewrite Hset; unfold applied; by rewrite Ha|]. split; [rewrite Hset; by destruct applied|]. rewrite Hset. by destruct applied.
Qed.

(** ** What is shown, and what is done *)

(** What a preview says of a wallet, against what a restore does of it. *)
Lemma shown_and_done payload gap drawn planned :
  let shown := omap (wallet_preview payload) planned in
  List.map (fun m => (m_name m, m_network m, m_kind m)) (omap (new_meta payload gap drawn) planned)
    = List.map (fun w => (trim (wp_name w), wp_network w, wp_kind w)) (retain (fun w => negb (already_watched w) && negb (is_some (wp_refused w))) shown)
  /\ List.map (fun r => (rw_index r, Some (rw_reason r))) (omap (new_refusal payload) planned)
    = List.map (fun w => (wp_index w, wp_refused w)) (retain (fun w => is_some (wp_refused w)) shown)
  /\ length (retain (passed_over payload) planned) = length (retain already_watched shown).
Proof.
  unfold wallet_preview, new_meta, new_refusal, passed_over, retain. induction planned as [|[index fate] planned (IH1 & IH2 & IH3)]; [done|].
  cbn zeta in *. cbn [omap list_omap List.filter fst snd]. destruct (bp_wallets payload !! index) as [wallet|]; cbn [option_map].
  2:{ destruct fate; (split; [exact IH1|split; [exact IH2|exact IH3]]). }
  destruct fate as [|error|engine]; cbn [List.filter List.map already_watched wp_refused wp_name wp_network wp_kind wp_index is_some negb andb length rw_index rw_reason].
  - split; [exact IH1|]. split; [exact IH2|]. by f_equal.
  - split; [exact IH1|]. split; [by f_equal|exact IH3].
  - split; [by f_equal|]. split; [exact IH2|exact IH3].
Qed.

(** A wallet of the backup, and the record a restore makes of it. *)
Definition restored_as (wallet : BackupWallet) (gap : Z) (m : WalletMeta) : Prop :=
  m_name m = trim (bw_name wallet) /\ m_network m = bw_network wallet /\ m_kind m = bw_kind wallet /\ m_labels m = bw_labels wallet
  /\ m_live_pinned m = bw_live_pinned wallet /\ m_gap_limit m = gap.

Lemma shown_in_full payload gap drawn planned :
  Forall2 (fun w m => exists wallet, bp_wallets payload !! wp_index w = Some wallet /\ restored_as wallet gap m)
    (retain (fun w => negb (already_watched w) && negb (is_some (wp_refused w))) (omap (wallet_preview payload) planned)) (omap (new_meta payload gap drawn) planned).
Proof.
  unfold wallet_preview, new_meta, retain. induction planned as [|[index fate] planned IH]; [constructor|].
  cbn [omap list_omap List.filter fst snd]. destruct (bp_wallets payload !! index) as [wallet|] eqn:Ew; cbn [option_map]; [|by destruct fate].
  destruct fate as [|error|engine]; cbn [List.filter already_watched wp_refused is_some negb andb]; [exact IH..|]. constructor; [|exact IH]. by exists wallet.
Qed.

Lemma plan_backends_in_order payload : in_order (unwrap_or (bp_backends payload) []) -> in_order (plan_backends payload).
Proof.
  unfold in_order, plan_backends. induction (unwrap_or (bp_backends payload) []) as [|[n c] l IH]; intros Hs; [constructor|]. apply StronglySorted_inv in Hs as [Hs Hall]. cbn [omap list_omap fst snd].
  destruct (canonical c) as [config|]; [|by apply IH]. constructor; [by apply IH|]. apply List.Forall_forall. intros e Hin.
  apply list_elem_of_In, list_elem_of_omap in Hin as ([m d] & Hin & Hd). cbn [fst snd] in Hd. destruct (canonical d); [|done]. injection Hd as <-. cbn [fst].
  rewrite List.Forall_forall in Hall. apply (Hall (m, d)). by apply list_elem_of_In.
Qed.

Lemma plan_settings_shown (vault : Payload) payload places gap : in_order (unwrap_or (bp_backends payload) []) ->
  let plan := plan_restore vault payload places in let s := settings vault in let next := plan_settings plan gap s in
  (forall host, In host (List.map fst (entries_in_order (rp_certs plan))) <-> electrum_certs s !! host = None /\ is_some (electrum_certs next !! host) = true)
  /\ forall network shown, In (network, shown) (List.map (fun entry => (entry.1, backend_label entry.2 entry.1)) (rp_backends plan)) ->
     backend_label (backend_for next network) network = shown.
Proof.
  intros Hord plan s next. split.
  - intros host. change (electrum_certs next) with (rp_certs plan ∪ electrum_certs s). split.
    + intros ([h fp] & <- & Hin%entries_in_order_In)%in_map_iff. cbn [fst]. split; [by apply plan_certs_lookup in Hin as [? _]|]. exact (f_equal is_some (lookup_union_Some_l (rp_certs plan) (electrum_certs s) h fp Hin)).
    + intros [Hn Hs]. destruct ((rp_certs plan ∪ electrum_certs s) !! host) as [fp|] eqn:El; [|done].
      apply lookup_union_Some_raw in El as [Hin|[_ Hin]]; [|congruence]. apply in_map_iff. exists (host, fp). split; [done|]. by apply entries_in_order_In.
  - intros network shown. intros ([n c] & Heq & Hin)%in_map_iff. cbn [fst snd] in Heq. injection Heq as <- <-.
    change (In (n, c) (plan_backends payload)) in Hin. unfold backend_for. change (backends next) with (extend_backends (backends s) (plan_backends payload)).
    pose proof (plan_backends_in_order payload Hord) as Ho. rewrite (extend_backends_lookup _ n Ho).
    by rewrite (proj1 (in_order_find _ _ _ Ho) Hin).
Qed.

Lemma plan_backends_others (vault : Payload) payload places gap network : (forall c, ~ In (network, c) (rp_backends (plan_restore vault payload places))) ->
  backend_for (plan_settings (plan_restore vault payload places) gap (settings vault)) network = backend_for (settings vault) network.
Proof.
  intros Hno. unfold backend_for. change (backends (plan_settings _ _ _)) with (extend_backends (backends (settings vault)) (plan_backends payload)).
  change (forall c, ~ In (network, c) (plan_backends payload)) in Hno. revert Hno. generalize (plan_backends payload) (backends (settings vault)). intros more.
  induction more as [|[n c] more IH]; intros l Hno; [done|]. cbn [extend_backends foldl fst snd]. change (foldl _ ?a ?b) with (extend_backends a b).
  rewrite IH by (intros c' Hc; apply (Hno c'); by right). rewrite insert_backend_other; [done|]. intros ->. apply (Hno c). by left.
Qed.

(** C8: What a preview promises is what a restore of every wallet does, on the
    same vault: the vault then holds, after its own wallets, one record for
    each wallet shown neither watched already nor refused, in the order
    shown, with the name, the material, the labels and the pin the backup
    has for it, and nothing else; the report lists these, names each one
    shown refused, with the reason shown, and counts each one shown
    watched. When the settings are applied, the hosts newly pinned are the
    ones listed, each backend listed is the one its network then has, and
    every other network keeps its own; when they are not, no setting
    changes. *)
Theorem restore_does_what_was_shown state source password apply drawn save backup preview next report :
  opened source password = Ok backup -> in_order (unwrap_or (bp_backends backup) []) ->
  preview_backup (payload state) source password = Ok preview ->
  import_backup state source password {| indexes := None; apply_settings := apply |} drawn save = (next, Ok report) ->
  (exists records, wallets (payload next) = wallets (payload state) ++ records /\ List.map meta records = added report)
  /\ Forall2 (fun w m => exists wallet, bp_wallets backup !! wp_index w = Some wallet /\ restored_as wallet (gap_limit (settings (payload next))) m
                         /\ m_name m = trim (wp_name w) /\ m_network m = wp_network w /\ m_kind m = wp_kind w)
       (retain (fun w => negb (already_watched w) && negb (is_some (wp_refused w))) (pv_wallets preview)) (added report)
  /\ List.map (fun r => (rw_index r, Some (rw_reason r))) (refused report)
    = List.map (fun w => (wp_index w, wp_refused w)) (retain (fun w => is_some (wp_refused w)) (pv_wallets preview))
  /\ skipped report = Z.of_nat (length (retain already_watched (pv_wallets preview)))
  /\ settings_applied report = apply && pv_has_settings preview
  /\ (settings_applied report = false -> settings (payload next) = settings (payload state))
  /\ (settings_applied report = true ->
      (forall host, In host (electrum_hosts preview)
        <-> electrum_certs (settings (payload state)) !! host = None /\ is_some (electrum_certs (settings (payload next)) !! host) = true)
      /\ (forall network shown, In (network, shown) (pv_backends preview) -> backend_label (backend_for (settings (payload next)) network) network = shown)
      /\ forall network, ~ In network (List.map fst (pv_backends preview)) -> backend_for (settings (payload next)) network = backend_for (settings (payload state)) network).
Proof.
  intros Hopened Hord Hprev. unfold preview_backup, import_backup in *. rewrite Hopened in *. cbn [result_bind] in Hprev. injection Hprev as <-.
  destruct (import_cases state backup {| indexes := None; apply_settings := apply |} drawn save) as [[e ->]|(places & gathered & Hc & _ & Hg & ->)]; [done|].
  cbn [chosen_places indexes] in Hc. injection Hc as <-. cbn [is_some indexes apply_settings] in *. set (gap := match bp_gap_limit backup with Some _ => _ | None => _ end) in *.
  apply gather_right in Hg as (Hmetas & Hrefused & Hleft). cbn [pending turned_away left_out List.map app] in *.
  intros [= <- <-]. cbn [added skipped settings_applied refused preview_of pv_wallets pv_has_settings electrum_hosts pv_backends].
  rewrite !(proj1 (put_engines_right (pending gathered) _)). set (plan := plan_restore (payload state) backup (all_of backup)) in *.
  assert (Hgap : gap_limit (settings (payload (set_payload state
     (set_wallets (if apply && has_settings backup then set_settings (payload state) (plan_settings plan gap (settings (payload state))) else payload state)
        (wallets (if apply && has_settings backup then set_settings (payload state) (plan_settings plan gap (settings (payload state))) else payload state) ++ List.map fst (pending gathered)))))) = gap)
    by (unfold gap; destruct (apply && has_settings backup); [done|by destruct (bp_gap_limit backup)]).
  destruct (shown_and_done backup gap drawn (rp_wallets plan)) as (Sh1 & Sh2 & Sh3). rewrite Hmetas, Hrefused, Hleft, Hgap.
  split; [exists (List.map fst (pending gathered)); rewrite <- Hmetas, List.map_map; by destruct (apply && has_settings backup)|]. split.
  { pose proof (shown_in_full backup gap drawn (rp_wallets plan)) as Hfull. clear Hmetas. revert Sh1. induction Hfull as [|w m ws ms (wallet & Hw & Hr) _ IH]; [constructor|]. cbn [List.map]. intros [= Hn Hnet Hk Hrest].
    constructor; [by exists wallet|by apply IH]. }
  split; [exact Sh2|]. split; [rewrite Sh3; unfold all_of at 1; rewrite length_seq; lia|]. split; [done|]. split; [by intros ->|]. intros ->.
  destruct (plan_settings_shown (payload state) backup (all_of backup) gap Hord) as [Hhosts Hback]. split; [exact Hhosts|]. split; [exact Hback|].
  intros network Hno. apply plan_backends_others. intros c Hin. apply Hno. rewrite List.map_map. apply in_map_iff. by exists (network, c).
Qed.
End Kept.

(** ** An example: a wallet twice, one without a name, a server of one's own,
    and a certificate nobody asked for *)

#[local] Existing Instances Xpub.Demo.demo_keys Descriptors.Demo.demo_miniscript Import.Demo.demo_bdk Connect.DemoUrls.demo_urls Backup.Demo.demo_aead.

Module Demo.
Definition wallet (name : string) : BackupWallet :=
  {| bw_name := name; bw_network := Mainnet; bw_kind := WalletKind.Descriptors Descriptors.Demo.RECEIVE (Some Descriptors.Demo.CHANGE) WitnessScript;
     bw_gap_limit := 20; bw_labels := ∅; bw_created_at := 7; bw_live_pinned := true |}.
Definition unnamed : BackupWallet :=
  {| bw_name := " "; bw_network := Mainnet; bw_kind := WalletKind.SingleAddress "bc1q"; bw_gap_limit := 20; bw_labels := ∅; bw_created_at := 7; bw_live_pinned := false |}.
Definition carried : BackupPayload :=
  {| bp_version := BACKUP_VERSION; bp_created_at := 7; bp_wallets := [wallet " Cold "; unnamed; wallet "Again"];
     bp_backends := Some [(Mainnet, ManagerSettings.Demo.backend)];
     bp_electrum_certs := Some {["Node.Example:50002" := ManagerSettings.Demo.typed; "stray.example:50002" := ManagerSettings.Demo.typed]};
     bp_gap_limit := Some 900 |}.

#[export] Instance packing : Packing := Backup.Demo.packing_of carried.
Definition source : string := base64_encode Backup.Demo.sealed.
Definition password : string := Backup.Demo.password.
Definition vault : ManagerState := {| payload := default_payload; engines := ∅ |}.
Definition drawn (index : nat) : string * Z := (dec (Z.of_nat index), 8).
Definition choices : ImportChoices := {| indexes := None; apply_settings := true |}.
End Demo.

#[local] Existing Instances Demo.packing.

Lemma drawn_apart i j : (Demo.drawn i).1 = (Demo.drawn j).1 -> i = j.
Proof. cbn [Demo.drawn fst]. intros E. apply dec_inj in E; lia. Qed.

Lemma pins_restored_exactly_witness :
  restorable_certs (settings (payload Demo.vault)) [(Mainnet, ManagerSettings.Demo.backend)] Demo.carried !! "node.example:50002" = Some (upper ManagerSettings.Demo.typed)
  /\ (served_in (settings (payload Demo.vault)) [(Mainnet, ManagerSettings.Demo.backend)] "node.example:50002" \/ self_signed_public "node.example:50002").
Proof.
  assert (Hpin : restorable_certs (settings (payload Demo.vault)) [(Mainnet, ManagerSettings.Demo.backend)] Demo.carried !! "node.example:50002" = Some (upper ManagerSettings.Demo.typed))
    by (vm_compute; reflexivity).
  split; [exact Hpin|]. apply (pins_restored_exactly (settings (payload Demo.vault)) [(Mainnet, ManagerSettings.Demo.backend)] Demo.carried "node.example:50002" (upper ManagerSettings.Demo.typed)).
  - repeat constructor.
  - repeat constructor.
  - exact Hpin.
Defined.

Lemma restore_keeps_the_vault_witness :
  exists next report, import_backup Demo.vault Demo.source Demo.password Demo.choices Demo.drawn (Ok tt) = (next, Ok report) /\ sound next
  /\ gap_limit (settings (payload next)) = 500 /\ List.map m_name (added report) = ["Cold"].
Proof.
  pose proof (restore_keeps_the_vault Demo.vault Demo.source Demo.password Demo.choices Demo.drawn (Ok tt)) as Hk.
  assert (Hout : match import_backup Demo.vault Demo.source Demo.password Demo.choices Demo.drawn (Ok tt) with
                 | (next, Ok report) => gap_limit (settings (payload next)) = 500 /\ List.map m_name (added report) = ["Cold"] | _ => False end)
    by (vm_compute; split; reflexivity).
  destruct (import_backup _ _ _ _ _ _) as [next [report|e]]; [|destruct Hout]. destruct Hout as [Hg Hn]. destruct Hk as (Hs & _).
  - split; [split; [constructor|split; constructor]|]. intros id Hid. vm_compute in Hid. discriminate.
  - split; cbn; try done; try lia; by repeat constructor.
  - exact drawn_apart.
  - intros i [].
  - exists next, report. by split.
Defined.

Lemma restore_does_what_was_shown_witness :
  exists preview next report, preview_backup (payload Demo.vault) Demo.source Demo.password = Ok preview
  /\ import_backup Demo.vault Demo.source Demo.password Demo.choices Demo.drawn (Ok tt) = (next, Ok report)
  /\ skipped report = 1 /\ settings_applied report = true /\ electrum_hosts preview = ["node.example:50002"]
  /\ skipped report = Z.of_nat (length (retain already_watched (pv_wallets preview))).
Proof.
  pose proof (restore_does_what_was_shown Demo.vault Demo.source Demo.password true Demo.drawn (Ok tt)) as Hk.
  change {| indexes := None; apply_settings := true |} with Demo.choices in Hk.
  assert (Hp : match preview_backup (payload Demo.vault) Demo.source Demo.password with Ok preview => electrum_hosts preview = ["node.example:50002"] | _ => False end) by (vm_compute; reflexivity).
  assert (Hr : match import_backup Demo.vault Demo.source Demo.password Demo.choices Demo.drawn (Ok tt) with (_, Ok report) => skipped report = 1 /\ settings_applied report = true | _ => False end)
    by (vm_compute; split; reflexivity).
  assert (Hopened : opened Demo.source Demo.password = Ok Demo.carried) by (vm_compute; reflexivity).
  destruct (preview_backup _ _ _) as [preview|e]; [|destruct Hp]. destruct (import_backup _ _ _ _ _ _) as [next [report|e]]; [|destruct Hr]. destruct Hr as [Hs Ha].
  destruct (Hk Demo.carried preview next report) as (_ & _ & _ & Hskip & _).
  - exact Hopened.
  - repeat constructor.
  - reflexivity.
  - reflexivity.
  - exists preview, next, report. repeat (split; [done|]). exact Hskip.
Defined.
