(* ===== verification/Sending.v ===== *)
(** [manager/broadcast.rs]: a transaction before it leaves, sent, and
    after. What the wallets hold of its coins, what the servers say of
    them, the preview they make; the broadcast, over the servers of the
    backend; the last ones sent, and where each stands. The engine of a
    wallet is the record of what it answers, as a server is ([Lookups]). *)
From S2P Require Import Prelude Text Errors Network Updates Confirm Store Syncs AddressSyncs Xpub Connect TxExtras F64 Signing Endpoints.
From S2P Require Import Faults Addresses Decode Preview Lookups.
From Stdlib Require Import Ascii.

(** ** What an engine holds *)

Section Engines.
Context `{Transactions} `{Scripts}.

(** What the source calls of a wallet of the [bdk] crate: its tip, the
    transactions of its graph, those that spend an output, the ones it
    holds canonical and whether they are in a block, its scripts. *)
Record Engine := {
  e_tip : Z;
  get_tx : string -> option Transaction;
  outspends : OutPoint -> list string;
  canonical_txs : list (string * (Transaction * bool));
  is_mine_script : list Z -> bool;
  derivation_of_spk : list Z -> option (Keychain * Z);
  public_descriptor : Keychain -> Descriptor;
}.

(** Transactions are kept under their ids, and an output's spenders are
    transactions that spend it. *)
Record EngineLaws (e : Engine) : Prop := {
  canonical_ids : forall txid tx confirmed, In (txid, (tx, confirmed)) (canonical_txs e) -> compute_txid tx = txid;
  outspends_spend : forall outpoint txid tx confirmed, In txid (outspends e outpoint) ->
    In (txid, (tx, confirmed)) (canonical_txs e) -> In outpoint (List.map previous_output (input tx));
}.

Definition canonical_at (e : Engine) (wanted : list string) (txid : string) : option (Transaction * bool) :=
  option_map snd (List.find (fun entry => bool_decide (fst entry = txid))
    (retain (fun entry => bool_decide (fst entry ∈ wanted)) (canonical_txs e))).

Definition wallet_coins (e : Engine) (outpoints : list OutPoint) : list (option (TxOut * option SpentBy)) :=
  if all (fun outpoint => negb (is_some (get_tx e (op_txid outpoint)))) outpoints then List.map (fun _ => None) outpoints
  else
    let spends := List.map (outspends e) outpoints in
    let wanted := List.map op_txid outpoints ++ List.concat spends in
    List.map (fun '(outpoint, spenders) =>
      match canonical_at e wanted (op_txid outpoint) with
      | None => None
      | Some (funding, _) =>
        match output funding !! Z.to_nat (vout outpoint) with
        | None => None
        | Some txout =>
          if negb (is_mine_script e (script_pubkey txout)) then None
          else
            let spender := find_map (fun txid =>
              match canonical_at e wanted txid with
              | Some (_, confirmed) => Some {| sb_txid := txid; sb_confirmed := confirmed; sb_verified := true |}
              | None => None
              end) spenders in
            Some (txout, spender)
        end
      end) (combine outpoints spends).
End Engines.

(** ** What the wallets say *)

Section Preview.
Context `{Transactions} `{Scripts} `{Psbts} `{EqDecision XOnly} `{Bitcoin} `{Keys} `{Urls} {C : Type}.
(** [ensure_engine]: the engine of a wallet; the script of an address of a
    network. *)
Variables (ensure_engine : string -> CoreResult Engine) (address_script : string -> Network -> option (list Z)).

Record Gathered := { inputs_known : list InputFacts; outputs_known : list OutputFacts; tip_known : option Z }.

Definition max_tip (a : option Z) (b : Z) : option Z := match a with Some a => Some (Z.max a b) | None => Some b end.

Definition own_coin (e : Engine) (wallet : WalletRef) (facts : InputFacts) (coin : option (TxOut * option SpentBy)) : InputFacts :=
  match coin with
  | None => facts
  | Some (txout, spender) =>
    {| f_satisfaction := match derivation_of_spk e (script_pubkey txout) with
                         | Some (keychain, _) => of_descriptor (public_descriptor e keychain)
                         | None => None
                         end;
       f_prevout := Some txout; f_wallet := Some wallet; f_spent := Some (is_some spender); f_spent_by := spender;
       f_listed := f_listed facts; f_contradicted_listing := f_contradicted_listing facts; f_unknown := f_unknown facts;
       f_unchecked := f_unchecked facts |}
  end.

Definition own_output (e : Engine) (wallet : WalletRef) (facts : OutputFacts) (output : TxOut) : OutputFacts :=
  if is_mine_script e (script_pubkey output)
  then {| o_wallet := Some wallet;
          o_change := match derivation_of_spk e (script_pubkey output) with Some (Internal, _) => true | _ => false end |}
  else facts.

Definition listed_coin (watch : AddressWatchState) (script : list Z) (wallet : WalletRef) (facts : InputFacts) (outpoint : OutPoint)
  : InputFacts :=
  match List.find (fun u => bool_decide (au_txid u = op_txid outpoint) && (au_vout u =? vout outpoint)) (utxos watch) with
  | None => facts
  | Some utxo =>
    {| f_prevout := Some {| value := au_value_sats utxo; script_pubkey := script |}; f_wallet := Some wallet; f_listed := true;
       f_spent := f_spent facts; f_spent_by := f_spent_by facts; f_contradicted_listing := f_contradicted_listing facts;
       f_unknown := f_unknown facts; f_unchecked := f_unchecked facts; f_satisfaction := f_satisfaction facts |}
  end.

Definition zip_with {A B} (f : A -> B -> A) (l : list A) (k : list B) : list A := List.map (fun '(a, b) => f a b) (combine l k).

Definition gather_one (decoded : DecodedTx) (outs : list OutPoint) (network : Network) (g : Gathered) (record : WalletRecord C) : CoreResult Gathered :=
  let wallet := {| wr_id := m_id (meta record); wr_name := m_name (meta record) |} in
  match m_kind (meta record) with
  | WalletKind.Descriptors _ _ _ =>
    let? e := ensure_engine (m_id (meta record)) in
    Ok {| tip_known := max_tip (tip_known g) (e_tip e);
          inputs_known := zip_with (own_coin e wallet) (inputs_known g) (wallet_coins e outs);
          outputs_known := zip_with (own_output e wallet) (outputs_known g) (output (d_tx decoded)) |}
  | WalletKind.SingleAddress address =>
    match address_script address network with
    | None => Ok g
    | Some script =>
      let watch := unwrap_or (address_state record)
                     {| txs := []; utxos := []; Addresses.tip_height := 0; truncated := false; history_cursor := None |} in
      Ok {| tip_known := tip_known g;
            inputs_known := zip_with (listed_coin watch script wallet) (inputs_known g) outs;
            outputs_known := zip_with (fun facts out => if bool_decide (script_pubkey out = script)
              then {| o_wallet := Some wallet; o_change := o_change facts |} else facts) (outputs_known g) (output (d_tx decoded)) |}
    end
  end.

Fixpoint gather (decoded : DecodedTx) (outs : list OutPoint) (network : Network) (g : Gathered) (records : list (WalletRecord C)) : CoreResult Gathered :=
  match records with
  | [] => Ok g
  | record :: records => let? g := gather_one decoded outs network g record in gather decoded outs network g records
  end.

Definition wallets_say (decoded : DecodedTx) (network : Network) (p : VaultPayload (WalletRecord C)) : CoreResult Gathered :=
  gather decoded (outpoints decoded) network
    {| inputs_known := List.map (fun _ => no_facts) (outpoints decoded);
       outputs_known := List.map (fun _ => no_output_facts) (output (d_tx decoded)); tip_known := None |}
    (retain (fun record => bool_decide (m_network (meta record) = network)) (wallets p)).

(** A listing that the previous transaction a PSBT carries contradicts. *)
Definition set_aside (facts : InputFacts) (described : DecodedInput) : InputFacts :=
  match f_listed facts, f_prevout facts, (if prevout_proven described then prevout described else None) with
  | true, Some listed, Some proof =>
    if negb (bool_decide (listed = proof))
    then {| f_prevout := None; f_wallet := None; f_spent := None; f_spent_by := None; f_listed := false;
            f_contradicted_listing := option_map (fun wallet => (wallet, listed)) (f_wallet facts);
            f_unknown := false; f_unchecked := false; f_satisfaction := None |}
    else facts
  | _, _, _ => facts
  end.

(** ** What the servers say *)

Definition backed (facts : InputFacts) (txout : TxOut) : InputFacts :=
  let '(wallet, contradicted) :=
    if f_listed facts then
      match f_prevout facts with
      | Some listed =>
        if bool_decide (listed = txout) then (f_wallet facts, f_contradicted_listing facts)
        else
          (if bool_decide (script_pubkey listed = script_pubkey txout) then f_wallet facts else None,
           option_map (fun wallet => (wallet, listed)) (f_wallet facts))
      | None => (f_wallet facts, f_contradicted_listing facts)
      end
    else (f_wallet facts, f_contradicted_listing facts) in
  {| f_prevout := Some txout; f_wallet := wallet; f_spent := f_spent facts; f_spent_by := f_spent_by facts; f_listed := false;
     f_contradicted_listing := contradicted; f_unknown := f_unknown facts; f_unchecked := f_unchecked facts;
     f_satisfaction := f_satisfaction facts |}.

Definition set_unknown (facts : InputFacts) : InputFacts :=
  {| f_prevout := f_prevout facts; f_wallet := f_wallet facts; f_spent := f_spent facts; f_spent_by := f_spent_by facts;
     f_listed := f_listed facts; f_contradicted_listing := f_contradicted_listing facts; f_unknown := true;
     f_unchecked := f_unchecked facts; f_satisfaction := f_satisfaction facts |}.

Definition set_unchecked (facts : InputFacts) : InputFacts :=
  {| f_prevout := f_prevout facts; f_wallet := f_wallet facts; f_spent := f_spent facts; f_spent_by := f_spent_by facts;
     f_listed := f_listed facts; f_contradicted_listing := f_contradicted_listing facts; f_unknown := f_unknown facts;
     f_unchecked := true; f_satisfaction := f_satisfaction facts |}.

Definition set_spent (spent : option bool) (spent_by : option SpentBy) (facts : InputFacts) : InputFacts :=
  {| f_prevout := f_prevout facts; f_wallet := f_wallet facts; f_spent := spent; f_spent_by := spent_by;
     f_listed := f_listed facts; f_contradicted_listing := f_contradicted_listing facts; f_unknown := f_unknown facts;
     f_unchecked := f_unchecked facts; f_satisfaction := f_satisfaction facts |}.

Definition unproven (facts : InputFacts) : bool := negb (is_some (f_prevout facts)) || f_listed facts.

(** What an answer about a coin makes of what is known of it. *)
Definition answered_about (facts : InputFacts) (said : PrevoutFacts) : InputFacts :=
  let facts := if unproven facts then match txout said with Some coin => backed facts coin | None => set_unknown facts end else facts in
  if is_some (f_spent facts) then facts else set_spent (pf_spent said) (pf_spent_by said) facts.
End Preview.

Section Asking.
Context `{Transactions} `{Psbts} `{EqDecision XOnly} `{Bitcoin} `{Keys} `{Urls}.
(** What the servers answer; whether the Tor route of some can be opened. *)
Variables (servers : Servers) (tor : list Endpoint -> CoreResult unit).

(** [live_endpoint], [send_endpoints], [note_send]: [live] is the server of
    the watch and its network. *)
Definition live_endpoint (network : Network) (config : BackendConfig) (certs : TrustedCerts) (live : option (Network * Endpoint)) : option Endpoint :=
  match live with
  | Some (on, server) =>
    if bool_decide (on = network)
       && match servers_for config network certs with Ok allowed => bool_decide (server ∈ allowed) | Err _ => false end
    then Some server else None
  | None => None
  end.

Definition send_endpoints (network : Network) (config : BackendConfig) (certs : TrustedCerts) (live : option (Network * Endpoint))
  (relegated : Relegations) (instant : Z) (purpose : Purpose) : CoreResult (list Endpoint) :=
  let live := live_endpoint network config certs live in
  let? named := endpoints config network certs in
  Ok (order relegated (send_order named live purpose) live instant).

Definition note_send (relegated : Relegations) (server : Endpoint) (failures : list (Endpoint * Failure)) (instant : Z) : Relegations :=
  answered relegated server
    (List.map fst (retain (fun '(_, failure) => match failure with Transport fault => is_outage fault | Refused _ => false end) failures))
    instant.

(** Each server in turn, told of the coins left open: what is known, which
    coins are settled, the servers that stopped answering. *)
Record Asking := {
  a_facts : list InputFacts;
  settled : list bool;
  a_down : list bool;
  a_failures : list (Endpoint * Failure);
  a_relegated : Relegations;
}.

Definition open_coins (settled : list bool) : list nat :=
  retain (fun i => negb (unwrap_or (settled !! i) true)) (seq 0 (length settled)).

Definition take_answers (facts : list InputFacts) (settled : list bool) (answers : list (nat * PrevoutFacts)) : list InputFacts * list bool :=
  foldl (fun '(facts, settled) '(i, said) =>
    (match facts !! i with Some f => <[i := answered_about f said]> facts | None => facts end, <[i := true]> settled))
    (facts, settled) answers.

Definition coins_of (outs : list OutPoint) (asked : list nat) : list OutPoint := omap (fun i => outs !! i) asked.

Definition ask_one (outs : list OutPoint) (instant : Z) (a : Asking) (e : nat) (endpoint : Endpoint) (asked : list nat) : Asking :=
  let '(answers, failed) := fetch_prevouts servers endpoint (coins_of outs asked) in
  let relegated := match answers with [] => a_relegated a | _ => note_send (a_relegated a) endpoint (a_failures a) instant end in
  let '(facts, settled) := take_answers (a_facts a) (settled a) (combine asked answers) in
  match failed with
  | Some failure =>
    {| a_facts := facts; settled := settled; a_down := <[e := true]> (a_down a); a_failures := a_failures a ++ [(endpoint, failure)];
       a_relegated := relegated |}
  | None => {| a_facts := facts; settled := settled; a_down := a_down a; a_failures := a_failures a; a_relegated := relegated |}
  end.

Fixpoint ask_all (outs : list OutPoint) (instant : Z) (a : Asking) (e : nat) (endpoints : list Endpoint) : Asking :=
  match endpoints with
  | [] => a
  | endpoint :: endpoints =>
    match open_coins (settled a) with
    | [] => a
    | asked => ask_all outs instant (ask_one outs instant a e endpoint asked) (S e) endpoints
    end
  end.

(** The tip, of the first server that has not stopped answering. *)
Fixpoint ask_tip (instant : Z) (a : Asking) (tip : option Z) (e : nat) (endpoints : list Endpoint) : option Z * Relegations :=
  match endpoints with
  | [] => (tip, a_relegated a)
  | endpoint :: endpoints =>
    if unwrap_or (a_down a !! e) false then ask_tip instant a tip (S e) endpoints
    else match tip_height servers endpoint with
         | Ok height => (Some height, note_send (a_relegated a) endpoint (a_failures a) instant)
         | Err failure =>
           ask_tip instant {| a_facts := a_facts a; settled := settled a; a_down := <[e := true]> (a_down a);
                              a_failures := a_failures a ++ [(endpoint, failure)]; a_relegated := a_relegated a |} tip (S e) endpoints
         end
  end.

Definition needs_chain (facts : list InputFacts) : bool :=
  any (fun f => negb (is_some (f_prevout f)) || negb (is_some (f_spent f)) || f_listed f) facts.

Definition needs_tip (tx : Transaction) (tip : option Z) : bool :=
  is_lock_time_enabled tx && is_block_height (lock_time tx) && (0 <? lock_time tx)
  && match tip with Some tip => tip <? lock_time tx | None => true end.

Definition settled_at_first (f : InputFacts) : bool :=
  (is_some (f_prevout f) && is_some (f_spent f) && negb (f_listed f)) || f_unknown f.

(** The servers of a route: the coins, then the tip where a lock needs it. *)
Definition through (outs : list OutPoint) (instant : Z) (lock : bool) (facts : list InputFacts) (tip : option Z) (relegated : Relegations)
  (route : option (list Endpoint)) : list InputFacts * option Z * Relegations :=
  match route with
  | None => (facts, tip, relegated)
  | Some endpoints =>
    let a := ask_all outs instant
      {| a_facts := facts; settled := List.map settled_at_first facts; a_down := List.map (fun _ => false) endpoints; a_failures := [];
         a_relegated := relegated |} 0 endpoints in
    if lock then let '(tip, relegated) := ask_tip instant a tip 0 endpoints in (a_facts a, tip, relegated)
    else (a_facts a, tip, a_relegated a)
  end.

(** What [preview_transaction] knows once the servers were asked: of the
    coins, and the tip. *)
Definition confronted (outs : list OutPoint) (network : Network) (config : BackendConfig) (certs : TrustedCerts)
  (live : option (Network * Endpoint)) (relegated : Relegations) (instant : Z) (tx : Transaction) (facts : list InputFacts) (tip : option Z)
  : list InputFacts * option Z * Relegations :=
  let chain := needs_chain facts in
  let lock := needs_tip tx tip in
  let route := if chain || lock
               then match send_endpoints network config certs live relegated instant Preview with
                    | Ok endpoints => match tor endpoints with Ok _ => Some endpoints | Err _ => None end
                    | Err _ => None
                    end
               else None in
  let '(facts, tip, relegated) := through outs instant lock facts tip relegated route in
  (if chain then List.map (fun f => if unproven f && negb (f_unknown f) then set_unchecked f else f) facts else facts, tip, relegated).

Context {C : Type}.
Variables (ensure_engine : string -> CoreResult Engine) (address_script : string -> Network -> option (list Z)).

(** [preview_transaction], the transaction decoded. *)
Definition preview_transaction (p : VaultPayload (WalletRecord C)) (network : Network) (live : option (Network * Endpoint)) (relegated : Relegations)
  (instant now : Z) (decoded : CoreResult DecodedTx) : Relegations * CoreResult TxPreview :=
  match decoded with
  | Err e => (relegated, Err e)
  | Ok decoded =>
    match wallets_say ensure_engine address_script decoded network p with
    | Err e => (relegated, Err e)
    | Ok gathered =>
      let '(config, certs) := chain_setup p network in
      let facts := zip_with set_aside (inputs_known gathered) (d_inputs decoded) in
      let '(facts, tip, relegated) :=
        confronted (outpoints decoded) network config certs live relegated instant (d_tx decoded) facts (tip_known gathered) in
      (relegated, Ok (build_preview decoded network facts (outputs_known gathered) tip now))
    end
  end.
End Asking.

(** ** What is sent *)

Record BroadcastReport := { br_txid : string; br_backend : string; br_at : Z }.

Definition broadcast_failure (refusals : list (string * string)) : CoreError :=
  match refusals with
  | [] => Errors.Broadcast "backend" "no backend available"
  | (first_host, first_detail) :: _ =>
    if all (fun '(_, detail) => bool_decide (detail = first_detail)) refusals then Errors.Broadcast first_host first_detail
    else Errors.Broadcast (String.concat ", " (List.map fst refusals))
           (String.concat "; " (List.map (fun '(host, detail) => host +:+ ": " +:+ detail) refusals))
  end.

Section Sent.
Context `{Transactions} `{Psbts} `{Bitcoin} `{Keys} `{Urls} {C : Type}.
Variables (json_error : string -> option (option Z * option string)) (parse_txid : string -> option string)
  (servers : Servers) (tor : list Endpoint -> CoreResult unit) (save : VaultPayload (WalletRecord C) -> result unit VaultError).

(** The loop over the servers: the one that took it, with the failures
    before, or the words of each. *)
Fixpoint send_each (tx : Transaction) (refusals : list (string * string)) (failures : list (Endpoint * Failure)) (endpoints : list Endpoint)
  : result (Endpoint * list (Endpoint * Failure)) (list (string * string)) :=
  match endpoints with
  | [] => Err refusals
  | endpoint :: endpoints =>
    match Lookups.broadcast json_error parse_txid servers endpoint tx with
    | Ok _ => Ok (endpoint, failures)
    | Err (Transport fault) =>
      send_each tx (refusals ++ [(endpoint_label endpoint, Faults.detail fault)]) (failures ++ [(endpoint, Transport fault)]) endpoints
    | Err (Refused words) => Err (refusals ++ [(endpoint_label endpoint, words)])
    end
  end.

(** [broadcast_transaction], the transaction decoded. The record of what
    was sent stays in the vault whether it is saved or not. *)
Definition broadcast_transaction (p : VaultPayload (WalletRecord C)) (network : Network) (live : option (Network * Endpoint))
  (relegated : Relegations) (instant now : Z) (decoded : CoreResult DecodedTx)
  : VaultPayload (WalletRecord C) * Relegations * CoreResult BroadcastReport :=
  match decoded with
  | Err e => (p, relegated, Err e)
  | Ok decoded =>
    if negb (d_ready decoded) then (p, relegated, Err (InvalidInput "transaction" "the transaction is not fully signed"))
    else
      let '(config, certs) := chain_setup p network in
      match (let? endpoints := send_endpoints network config certs live relegated instant Broadcast in
             let? _ := tor endpoints in Ok endpoints) with
      | Err e => (p, relegated, Err e)
      | Ok endpoints =>
        match send_each (d_tx decoded) [] [] endpoints with
        | Err refusals => (p, relegated, Err (broadcast_failure refusals))
        | Ok (endpoint, failures) =>
          let report := {| br_txid := compute_txid (d_tx decoded); br_backend := endpoint_label endpoint; br_at := now |} in
          let sent := {| rb_txid := br_txid report; rb_network := network; rb_hex := serialize_hex (d_tx decoded);
                         rb_backend := br_backend report; rb_at := br_at report |} in
          (remember_broadcast p sent, note_send relegated endpoint failures instant, Ok report)
        end
      end
  end.

Definition recent_broadcasts (p : VaultPayload (WalletRecord C)) (network : Network) : list RecentBroadcast :=
  retain (fun sent => bool_decide (rb_network sent = network)) (broadcasts p).

Definition forget_broadcast (p : VaultPayload (WalletRecord C)) (txid : string) : VaultPayload (WalletRecord C) * CoreResult unit :=
  if negb (any (fun sent => bool_decide (rb_txid sent = txid)) (broadcasts p)) then (p, Ok tt)
  else
    let forgotten := set_broadcasts p (retain (fun sent => negb (bool_decide (rb_txid sent = txid))) (broadcasts p)) in
    commit p (save forgotten) (fun _ => Ok (tt, forgotten)).

(** ** Where it stands *)

Record TxStanding := { found : bool; ts_block_height : option Z; ts_tip_height : Z }.
Record BroadcastStatus := {
  bs_txid : string;
  bs_found : bool;
  bs_confirmed : bool;
  bs_block_height : option Z;
  bs_confirmations : Z;
  bs_backend : string;
  bs_at : Z;
}.

Fixpoint standing_each (tx_standing : Endpoint -> result TxStanding Fault) (attempts : Attempts) (failures : list (Endpoint * Failure))
  (endpoints : list Endpoint) : result (Endpoint * TxStanding * list (Endpoint * Failure)) Attempts :=
  match endpoints with
  | [] => Err attempts
  | endpoint :: endpoints =>
    match tx_standing endpoint with
    | Ok standing => Ok (endpoint, standing, failures)
    | Err fault => standing_each tx_standing (failed attempts endpoint fault) (failures ++ [(endpoint, Transport fault)]) endpoints
    end
  end.

(** [transaction_status]: [tx_standing] is what [chain::tx_standing] comes
    to, over Electrum [electrum_tx_standing]. *)
Definition transaction_status (tx_standing : Endpoint -> string -> list (list Z) -> result TxStanding Fault)
  (p : VaultPayload (WalletRecord C)) (network : Network) (live : option (Network * Endpoint)) (relegated : Relegations) (instant now : Z)
  (decoded : CoreResult DecodedTx) : Relegations * CoreResult BroadcastStatus :=
  match decoded with
  | Err e => (relegated, Err e)
  | Ok decoded =>
    let txid := compute_txid (d_tx decoded) in
    match lookup_scripts (d_tx decoded) with
    | [] => (relegated, Err (InvalidInput "transaction" "the transaction creates nothing"))
    | scripts =>
      let '(config, certs) := chain_setup p network in
      match (let? endpoints := send_endpoints network config certs live relegated instant Broadcast in
             let? _ := tor endpoints in Ok endpoints) with
      | Err e => (relegated, Err e)
      | Ok endpoints =>
        match standing_each (fun endpoint => tx_standing endpoint txid scripts) no_attempts [] endpoints with
        | Err attempts => (relegated, Err (sync_failure endpoints attempts))
        | Ok (endpoint, standing, failures) =>
          (note_send relegated endpoint failures instant,
           Ok {| bs_txid := txid; bs_found := found standing; bs_confirmed := is_some (ts_block_height standing);
                 bs_block_height := ts_block_height standing;
                 bs_confirmations := match ts_block_height standing with
                                     | Some height => wrap_u32 (sat_sub (ts_tip_height standing) height + 1)
                                     | None => 0
                                     end;
                 bs_backend := endpoint_label endpoint; bs_at := now |})
        end
      end
    end
  end.
End Sent.

(** ** What the preview believes *)

Section Promises.
Context `{Transactions} `{Psbts} `{EqDecision XOnly} `{Bitcoin} `{Keys} `{Urls}.

(** The coins of a transaction a wallet's engine holds, that are the
    wallet's; the spends it holds, in a block or not. *)
Definition engine_coin (e : Engine) (o : OutPoint) (coin : TxOut) : Prop :=
  exists tx confirmed, In (op_txid o, (tx, confirmed)) (canonical_txs e) /\ compute_txid tx = op_txid o
    /\ output tx !! Z.to_nat (vout o) = Some coin /\ is_mine_script e (script_pubkey coin) = true.
Definition engine_spend (e : Engine) (o : OutPoint) (by_ : SpentBy) : Prop :=
  exists tx, In (sb_txid by_, (tx, sb_confirmed by_)) (canonical_txs e) /\ compute_txid tx = sb_txid by_
    /\ In o (List.map previous_output (input tx)).

Section Believed.
(** Which coins are seen paid, and which spends are seen. *)
Variables (paid : OutPoint -> TxOut -> Prop) (seen : OutPoint -> SpentBy -> Prop).

(** What is known of a coin is seen: a coin that is not a listing is seen
    paid, and a spend taken for seen is seen. *)
Definition believed (o : OutPoint) (f : InputFacts) : Prop :=
  (f_listed f = false -> forall coin, f_prevout f = Some coin -> paid o coin)
  /\ (forall by_, f_spent_by f = Some by_ -> f_spent f = Some true /\ (sb_verified by_ = true -> seen o by_)).

Lemma zip_with_Forall2 {A B T} (P : T -> A -> Prop) (Q : T -> B -> Prop) (f : A -> B -> A) outs l k :
  (forall o a b, P o a -> Q o b -> P o (f a b)) -> Forall2 P outs l -> Forall2 Q outs k -> Forall2 P outs (zip_with f l k).
Proof.
  intros Hf Hl. revert k. induction Hl as [|o a outs l Ha Hl IH]; intros k Hk; inversion Hk; subst; [by constructor|].
  unfold zip_with. cbn. constructor; [by apply Hf|by apply IH].
Qed.

Lemma canonical_at_In e wanted txid tx confirmed : canonical_at e wanted txid = Some (tx, confirmed) -> In (txid, (tx, confirmed)) (canonical_txs e).
Proof.
  unfold canonical_at. destruct (List.find _ _) as [[id [t c]]|] eqn:Ef; [|done]. intros [= <- <-].
  apply List.find_some in Ef as [Hin Hid]. apply bool_decide_eq_true_1 in Hid. cbn in Hid. subst id. by apply retain_In in Hin as [? _].
Qed.

Lemma find_map_found {A B} (f : A -> option B) l b : find_map f l = Some b -> exists a, In a l /\ f a = Some b.
Proof.
  induction l as [|a l IH]; cbn; [done|]. destruct (f a) eqn:E; [intros [= <-]; exists a; split; [by left|done]|].
  intros (a' & ? & ?)%IH. exists a'. split; [by right|done].
Qed.

Lemma wallet_coins_right e outs : EngineLaws e ->
  Forall2 (fun o coin => forall txout spender, coin = Some (txout, spender) -> engine_coin e o txout
    /\ forall by_, spender = Some by_ -> engine_spend e o by_) outs (wallet_coins e outs).
Proof.
  intros Hlaws. unfold wallet_coins. destruct (all _ _).
  { apply Forall2_fmap_r, Forall_Forall2_diag, list.Forall_forall. unfold compose. by intros o _ txout spender. }
  set (wanted := _ ++ _). clearbody wanted. induction outs as [|o outs IH]; cbn; [by constructor|]. constructor; [|exact IH].
  intros txout spender. destruct (canonical_at e wanted (op_txid o)) as [[funding c]|] eqn:Ef; [|done].
  destruct (output funding !! _) as [out|] eqn:Eo; [|done]. destruct (is_mine_script e _) eqn:Em; cbn [negb]; [|done]. intros [= <- <-]. split.
  - apply canonical_at_In in Ef. exists funding, c. split; [done|]. split; [by apply (canonical_ids _ Hlaws) in Ef|done].
  - intros by_ (txid & Hin & Hfound)%find_map_found. destruct (canonical_at e wanted txid) as [[tx confirmed]|] eqn:Et; [|done].
    injection Hfound as <-. apply canonical_at_In in Et. exists tx. cbn [sb_txid sb_confirmed]. split; [done|].
    split; [by apply (canonical_ids _ Hlaws) in Et|]. by eapply (outspends_spend _ Hlaws).
Qed.

Lemma own_coin_believed e wallet o f coin : believed o f ->
  (forall txout spender, coin = Some (txout, spender) -> paid o txout /\ forall by_, spender = Some by_ -> seen o by_) ->
  believed o (own_coin e wallet f coin).
Proof.
  intros Hf Hc. destruct coin as [[txout spender]|]; [|done]. destruct (Hc _ _ eq_refl) as [Hr Hs]. split; cbn.
  - by intros _ coin [= <-].
  - intros by_ ->. split; [done|]. intros _. by apply Hs.
Qed.

Lemma listed_coin_believed watch script wallet o f : believed o f -> believed o (listed_coin watch script wallet f o).
Proof. intros [Hr Hs]. unfold listed_coin. destruct (List.find _ _); [|by split]. by split. Qed.

Lemma set_aside_believed o f described : believed o f -> believed o (set_aside f described).
Proof. intros Hf. unfold set_aside. repeat case_match; try done. Qed.

Lemma backed_believed o f coin : believed o f -> paid o coin -> believed o (backed f coin).
Proof. intros [_ Hs] Hc. unfold backed. destruct (if f_listed f then _ else _) as [w c]. split; cbn; [by intros _ ? [= <-]|done]. Qed.

Definition answer_seen (o : OutPoint) (fact : PrevoutFacts) : Prop :=
  (forall coin, txout fact = Some coin -> paid o coin)
  /\ (forall by_, pf_spent_by fact = Some by_ -> pf_spent fact = Some true /\ (sb_verified by_ = true -> seen o by_)).

Lemma answered_believed o f said : believed o f -> answer_seen o said -> believed o (answered_about f said).
Proof.
  intros Hf [Hc Hb]. unfold answered_about. set (g := if unproven f then _ else f).
  assert (Hg : believed o g).
  { subst g. destruct (unproven f); [|done]. destruct (txout said) as [coin|]; [apply backed_believed; [done|by apply Hc]|done]. }
  clearbody g. destruct (is_some (f_spent g)); [done|]. split; [apply Hg|]. cbn. apply Hb.
Qed.

Lemma Forall2_insert_r {A B} (P : A -> B -> Prop) l k i x y : Forall2 P l k -> l !! i = Some x -> P x y -> Forall2 P l (<[i := y]> k).
Proof.
  intros Hlk Hx Hy. revert i Hx. induction Hlk as [|a b l k Hab Hlk IH]; intros [|i] Hx; cbn in *; [done|done| |].
  - injection Hx as ->. by constructor.
  - constructor; [done|by apply IH].
Qed.

Lemma take_answers_believed outs facts settled answers : Forall2 believed outs facts ->
  (forall i said o, In (i, said) answers -> outs !! i = Some o -> answer_seen o said) ->
  Forall2 believed outs (take_answers facts settled answers).1 /\ length (take_answers facts settled answers).2 = length settled.
Proof.
  unfold take_answers. revert facts settled. induction answers as [|[i said] answers IH]; intros facts settled Hf Ha; cbn [foldl]; [done|].
  specialize (IH (match facts !! i with Some f => <[i := answered_about f said]> facts | None => facts end) (<[i := true]> settled)).
  rewrite length_insert in IH. apply IH; [|intros; eapply Ha; [by right|done]].
  destruct (facts !! i) as [f|] eqn:Ef; [|done]. destruct (Forall2_lookup_r _ _ _ _ _ Hf Ef) as (o & Ho & Hfo).
  eapply Forall2_insert_r; [done|exact Ho|]. apply answered_believed; [done|]. eapply Ha; [by left|done].
Qed.

Lemma coins_of_lookup outs asked j i : (forall i, In i asked -> (i < length outs)%nat) -> asked !! j = Some i -> coins_of outs asked !! j = outs !! i.
Proof.
  unfold coins_of. revert j. induction asked as [|a asked IH]; intros j Hin; [done|]. csimpl.
  destruct (lookup_lt_is_Some_2 outs a) as [o Ho]; [apply Hin; by left|]. rewrite Ho. destruct j as [|j]; cbn; [by intros [= <-]|].
  intros Hj. apply IH; [intros; apply Hin; by right|done].
Qed.

Definition asking_right (outs : list OutPoint) (a : Asking) : Prop := Forall2 believed outs (a_facts a) /\ length (settled a) = length outs.

(** Servers whose word is one of those seen. *)
Definition vouches (servers : Servers) (endpoint : Endpoint) : Prop :=
  (forall o coin, paid_coin (hands_over servers endpoint) o coin -> paid o coin)
  /\ (forall o by_, Lookups.seen_spend (hands_over servers endpoint) (says_mined servers endpoint) o by_ -> seen o by_).

Lemma ask_one_right servers outs instant a e endpoint : vouches servers endpoint -> asking_right outs a ->
  asking_right outs (ask_one servers outs instant a e endpoint (open_coins (settled a))).
Proof.
  intros [Hp Hv] [Hf Hl]. unfold ask_one. set (asked := open_coins (settled a)).
  assert (Hasked : forall i, In i asked -> (i < length outs)%nat).
  { intros i [Hi _]%retain_In. apply in_seq in Hi. lia. }
  pose proof (lookups_are_believable servers endpoint (coins_of outs asked)) as Hb.
  destruct (fetch_prevouts servers endpoint (coins_of outs asked)) as [answers failed]. destruct Hb as [Hb _].
  assert (Hin : forall i said o, In (i, said) (combine asked answers) -> outs !! i = Some o -> answer_seen o said).
  { intros i said o (j & [Hj Hs]%combine_lookup)%list_elem_of_In%list_elem_of_lookup Ho. destruct (Hb j o said) as [Hc Hby]; [by rewrite (coins_of_lookup outs asked j i)|done|].
    split; [auto|]. intros by_ [? ?]%Hby. split; auto. }
  destruct (take_answers_believed outs (a_facts a) (settled a) _ Hf Hin) as [Ha Hb'].
  destruct (take_answers (a_facts a) (settled a) (combine asked answers)) as [facts settled']. cbn in Ha, Hb'.
  destruct failed; split; cbn; congruence.
Qed.

Lemma ask_all_right servers outs instant a e endpoints : Forall (vouches servers) endpoints -> asking_right outs a -> asking_right outs (ask_all servers outs instant a e endpoints).
Proof.
  intros Hall. revert a e. induction Hall as [|endpoint l Hv _ IH]; intros a e Ha; cbn [ask_all]; [done|].
  pose proof (ask_one_right servers outs instant a e endpoint Hv Ha) as Ho. destruct (open_coins (settled a)) as [|i asked]; [done|]. by apply IH.
Qed.

(** What is left once the servers were asked: a coin no caution marks is
    no listing, and its output is known. *)
Definition marked (f : InputFacts) : Prop := unproven f = true -> f_unknown f = true \/ f_unchecked f = true.

Lemma Forall2_both {A B} (P : A -> B -> Prop) (Q : B -> Prop) l k : Forall2 P l k -> (forall y, In y k -> Q y) -> Forall2 (fun x y => P x y /\ Q y) l k.
Proof. induction 1; intros Hq; constructor; [split; [done|apply Hq; by left]|]. apply IHForall2. intros; apply Hq; by right. Qed.

Lemma all_settled (settled : list bool) : (forall s, In s settled -> s = true) -> open_coins settled = [].
Proof.
  intros Hall. unfold open_coins. generalize (seq 0 (length settled)). intros l.
  induction l as [|i l IH]; [done|]. unfold retain in *. cbn. destruct (settled !! i) as [s|] eqn:E; cbn; [|done].
  by rewrite (Hall s) by (by eapply list_elem_of_In, list_elem_of_lookup_2).
Qed.

Lemma through_right servers outs instant lock facts tip relegated route facts' tip' relegated' : Forall2 believed outs facts ->
  (forall endpoints, route = Some endpoints -> Forall (vouches servers) endpoints) ->
  through servers outs instant lock facts tip relegated route = (facts', tip', relegated') ->
  Forall2 believed outs facts' /\ (needs_chain facts = false -> facts' = facts).
Proof.
  intros Hf Hroute. unfold through. destruct route as [endpoints|]; [|by intros [= <- _ _]]. specialize (Hroute _ eq_refl).
  set (start := {| a_facts := facts |}). intros Ea. assert (Hs : asking_right outs start).
  { split; [done|]. cbn. rewrite List.length_map. symmetry. by eapply Forall2_length. }
  assert (Hfacts : facts' = a_facts (ask_all servers outs instant start 0 endpoints))
    by (destruct lock; [destruct (ask_tip _ _ _ _ _ _)|]; by injection Ea as <- _ _).
  rewrite Hfacts. split; [by apply ask_all_right|]. intros Hn.
  assert (Hopen : open_coins (settled start) = []).
  { apply all_settled. intros s (f & <- & Hin)%in_map_iff. unfold needs_chain in Hn. rewrite any_false in Hn. specialize (Hn f Hin).
    unfold settled_at_first. by destruct (f_prevout f), (f_spent f), (f_listed f). }
  destruct endpoints as [|endpoint l]; [done|]. cbn [ask_all]. by rewrite Hopen.
Qed.

Lemma confronted_right servers tor outs network config certs live relegated instant tx facts tip facts' tip' relegated' :
  Forall2 believed outs facts ->
  (forall endpoints, send_endpoints network config certs live relegated instant Preview = Ok endpoints -> tor endpoints = Ok tt ->
     Forall (vouches servers) endpoints) ->
  confronted servers tor outs network config certs live relegated instant tx facts tip = (facts', tip', relegated') ->
  Forall2 (fun o f => believed o f /\ marked f) outs facts'.
Proof.
  intros Hf Hv. unfold confronted. destruct (through _ _ _ _ _ _ _ _) as [[facts1 tip1] relegated1] eqn:Ea.
  apply through_right in Ea as [Hb Hsame]; [|done|].
  2: { intros endpoints. destruct (_ || _); [|done]. destruct (send_endpoints _ _ _ _ _ _ _) as [l|]; [|done]. destruct (tor l) as [[]|] eqn:Et; [|done]. intros [= <-]. auto. }
  intros [= <- _ _]. destruct (needs_chain facts) eqn:En.
  - apply Forall2_fmap_r. eapply Forall2_impl; [|exact Hb]. intros o f Hof. unfold compose, marked.
    destruct (unproven f && negb (f_unknown f)) eqn:Eu; [split; [exact Hof|by right]|]. split; [done|].
    intros Hu. rewrite Hu in Eu. left. by apply negb_false_iff.
  - rewrite (Hsame eq_refl) in *. unfold needs_chain in En. rewrite any_false in En.
    apply Forall2_both; [exact Hb|]. intros f Hin Hu.
    specialize (En f Hin). unfold unproven in Hu. destruct (f_prevout f), (f_listed f); cbn in *; try done. by rewrite orb_true_r in En.
Qed.

(** A value shown and proven is that of a coin the PSBT proves, or of one
    seen paid. *)
Lemma proven_seen outs facts i o d coin : Forall2 believed outs facts -> outs !! i = Some o ->
  proven_coin d (facts !! i) = true -> spent_coin d (facts !! i) = Some coin ->
  (prevout_proven d = true /\ prevout d = Some coin) \/ paid o coin.
Proof.
  intros Hb Ho. destruct (Forall2_lookup_l _ _ _ _ _ Hb Ho) as (f & -> & Hp & _). unfold proven_coin, spent_coin.
  destruct (prevout_proven d); [by left|]. destruct (f_prevout f) as [known|]; [|done]. cbn.
  rewrite orb_false_r. intros Hl [= <-]. right. apply Hp; [|done]. by apply negb_true_iff.
Qed.

End Believed.

Section Whole.
Context {C : Type}.
Variables (servers : Servers) (tor : list Endpoint -> CoreResult unit)
  (ensure_engine : string -> CoreResult Engine) (address_script : string -> Network -> option (list Z)).
Hypothesis engines : forall id e, ensure_engine id = Ok e -> EngineLaws e.
Variables (p : VaultPayload (WalletRecord C)) (network : Network) (live : option (Network * Endpoint)) (relegated : Relegations) (instant now : Z).

(** The engines of the wallets of the network, and the servers a preview
    may ask. *)
Definition engine_of (e : Engine) : Prop :=
  exists record, In record (wallets p) /\ m_network (meta record) = network
    /\ (exists external internal root, m_kind (meta record) = WalletKind.Descriptors external internal root)
    /\ ensure_engine (m_id (meta record)) = Ok e.
Definition may_ask (endpoint : Endpoint) : Prop :=
  exists endpoints, send_endpoints network (backend_for (settings p) network) (electrum_certs (settings p)) live relegated instant Preview = Ok endpoints
    /\ tor endpoints = Ok tt /\ In endpoint endpoints.

(** A coin seen paid, and a spend seen, by a wallet or at a server. *)
Definition coin_seen (o : OutPoint) (coin : TxOut) : Prop :=
  (exists e, engine_of e /\ engine_coin e o coin) \/ (exists endpoint, may_ask endpoint /\ paid_coin (hands_over servers endpoint) o coin).
Definition spend_seen (o : OutPoint) (by_ : SpentBy) : Prop :=
  (exists e, engine_of e /\ engine_spend e o by_)
  \/ (exists endpoint, may_ask endpoint /\ Lookups.seen_spend (hands_over servers endpoint) (says_mined servers endpoint) o by_).

(** What the preview shows of an input is a coin: one the PSBT carries the
    transaction of, or one seen. *)
Definition input_seen (decoded : DecodedTx) (i : nat) (ip : TxInputPreview) : Prop :=
  exists o d coin, outpoints decoded !! i = Some o /\ d_inputs decoded !! i = Some d
    /\ ip_txid ip = op_txid o /\ ip_vout ip = vout o
    /\ value_sats ip = Some (value coin) /\ Preview.address ip = from_script network (script_pubkey coin)
    /\ ((prevout_proven d = true /\ prevout d = Some coin) \/ coin_seen o coin).

Lemma gather_one_believed decoded g record g' :
  In record (wallets p) -> m_network (meta record) = network ->
  Forall2 (believed coin_seen spend_seen) (outpoints decoded) (inputs_known g) ->
  gather_one ensure_engine address_script decoded (outpoints decoded) network g record = Ok g' ->
  Forall2 (believed coin_seen spend_seen) (outpoints decoded) (inputs_known g').
Proof.
  intros Hin Hnet Hg. unfold gather_one. destruct (m_kind (meta record)) eqn:Ek.
  - destruct (ensure_engine _) as [e|] eqn:Ee; cbn [result_bind]; [|done]. intros [= <-]. cbn [inputs_known].
    assert (He : engine_of e) by (exists record; split_and!; eauto).
    eapply zip_with_Forall2; [|exact Hg|by apply wallet_coins_right, (engines _ _ Ee)]. intros o f coin Hf Hc. apply own_coin_believed; [done|].
    intros txout spender Hs. destruct (Hc _ _ Hs) as [? Hby]. split; [left; by exists e|]. intros by_ ?. left. exists e. auto.
  - destruct (address_script _ _) as [script|]; [|by intros [= <-]]. intros [= <-]. cbn [inputs_known].
    eapply (zip_with_Forall2 _ eq); [|exact Hg|by apply Forall2_same_length_lookup_2; [|intros ? ? ? ? ?; congruence]].
    intros o f o' Hf <-. by apply listed_coin_believed.
Qed.

Lemma wallets_say_believed decoded g : wallets_say ensure_engine address_script decoded network p = Ok g ->
  Forall2 (believed coin_seen spend_seen) (outpoints decoded) (inputs_known g).
Proof.
  unfold wallets_say. set (start := {| inputs_known := _ |}).
  assert (Hs : Forall2 (believed coin_seen spend_seen) (outpoints decoded) (inputs_known start)).
  { cbn. apply Forall2_fmap_r, Forall_Forall2_diag, list.Forall_forall. done. }
  clearbody start. assert (Hrec : forall record, In record (retain (fun record => bool_decide (m_network (meta record) = network)) (wallets p)) ->
    In record (wallets p) /\ m_network (meta record) = network) by (intros r [? ?%bool_decide_eq_true_1]%retain_In; done).
  revert start Hs Hrec. induction (retain _ (wallets p)) as [|record records IH]; intros start Hs Hrec; cbn [gather]; [by intros [= <-]|].
  destruct (gather_one _ _ _ _ _ start record) as [next|] eqn:En; cbn [result_bind]; [|done]. apply IH.
  - destruct (Hrec record ltac:(by left)). by eapply gather_one_believed.
  - intros r Hr. apply Hrec. by right.
Qed.

(** What the preview is built of. *)
Lemma preview_built decoded relegated' preview : decoded_wf decoded ->
  preview_transaction servers tor ensure_engine address_script p network live relegated instant now (Ok decoded) = (relegated', Ok preview) ->
  exists facts output_facts tip, preview = build_preview decoded network facts output_facts tip now
    /\ Forall2 (fun o f => believed coin_seen spend_seen o f /\ marked f) (outpoints decoded) facts.
Proof.
  intros Hwf. unfold preview_transaction. destruct (wallets_say _ _ _ _ _) as [g|] eqn:Eg; [|done]. cbn [chain_setup].
  destruct (confronted _ _ _ _ _ _ _ _ _ _ _ _) as [[facts tip] relegated1] eqn:Ec. intros [= <- <-].
  apply wallets_say_believed in Eg. exists facts, (outputs_known g), tip. split; [done|].
  eapply confronted_right; [| |exact Ec].
  - eapply (zip_with_Forall2 _ (fun _ _ => True)); [intros o f d Hf _; by apply set_aside_believed|exact Eg|].
    apply Forall2_same_length_lookup_2; [|done]. unfold outpoints. rewrite List.length_map. symmetry. apply Hwf.
  - intros endpoints He Ht. apply list.Forall_forall. intros endpoint Hin%list_elem_of_In.
    assert (Hm : may_ask endpoint) by (by exists endpoints). split; intros; right; by exists endpoint.
Qed.

Lemma shown_seen decoded facts output_facts tip i ip d : decoded_wf decoded ->
  Forall2 (believed coin_seen spend_seen) (outpoints decoded) facts ->
  p_inputs (build_preview decoded network facts output_facts tip now) !! i = Some ip -> d_inputs decoded !! i = Some d ->
  proven_coin d (facts !! i) = true -> value_sats ip <> None -> input_seen decoded i ip.
Proof.
  intros Hwf Hb Hip Hd Hproven Hv. apply inputs_lookup in Hip as (spend & d' & Hs & Hd' & ->); [|done].
  rewrite Hd in Hd'. injection Hd' as <-. cbn [input_preview value_sats] in Hv.
  destruct (spent_coin d (facts !! i)) as [coin|] eqn:Ec; [|done].
  assert (Ho : outpoints decoded !! i = Some (previous_output spend)) by (unfold outpoints; by rewrite list_lookup_fmap, Hs).
  exists (previous_output spend), d, coin. split_and!; try done. by eapply proven_seen.
Qed.

(** C11: What the preview of a transaction shows as known of its coins was
    seen. When it does not say that some amount is only declared, or when
    no caution says that a coin is unknown, each value and address shown
    of an input is that of the coin it spends: an output of the previous
    transaction the PSBT carries, or of a transaction of its id that the
    engine of a wallet of the network holds and calls its own, or that a
    server it may ask handed over. And when, past the signatures, the transaction is held back, then
    a coin of it is spent by a transaction an engine holds as confirmed,
    or that a server handed over and says is in a block; or its outputs
    pay more than there can be; or more than its inputs, every one of
    which so shows its coin. Whatever the servers answer, and whichever
    fail. *)
Theorem preview_believes_what_was_seen decoded relegated' preview : decoded_wf decoded ->
  preview_transaction servers tor ensure_engine address_script p network live relegated instant now (Ok decoded) = (relegated', Ok preview) ->
  let outputs := List.map op_value_sats (p_outputs preview) in
  (forall i ip, p_inputs preview !! i = Some ip ->
     value_sats ip <> None ->
     amounts_declared preview = false \/ (forall w, In w (warnings preview) -> kind w <> TxWarningKind.InputUnknown) ->
     input_seen decoded i ip)
  /\ ((forall x, In x outputs -> 0 <= x) -> unsigned_values (values_shown preview) -> readiness preview = TxReadiness.Refused ->
       (exists o by_, In o (outpoints decoded) /\ sb_confirmed by_ = true /\ spend_seen o by_)
       \/ MAX_MONEY < sum outputs
       \/ (total (values_shown preview) < sum outputs /\ forall i ip, p_inputs preview !! i = Some ip -> input_seen decoded i ip)).
Proof.
  intros Hwf Hp. destruct (preview_built _ _ _ Hwf Hp) as (facts & output_facts & tip & -> & Hb). clear Hp. cbn zeta.
  set (preview := build_preview _ _ _ _ _ _).
  assert (Hbel : Forall2 (believed coin_seen spend_seen) (outpoints decoded) facts) by (eapply Forall2_impl; [|exact Hb]; by intros ? ? [? _]).
  assert (Hd : forall i ip, p_inputs preview !! i = Some ip -> exists o d f, outpoints decoded !! i = Some o /\ d_inputs decoded !! i = Some d
    /\ facts !! i = Some f /\ marked f /\ value_sats ip = option_map value (spent_coin d (Some f))).
  { intros i ip (spend & d & Hs & Hd & ->)%inputs_lookup; [|done].
    assert (Ho : outpoints decoded !! i = Some (previous_output spend)) by (unfold outpoints; by rewrite list_lookup_fmap, Hs).
    destruct (Forall2_lookup_l _ _ _ _ _ Hb Ho) as (f & Hf & _ & Hm). rewrite Hf. by exists (previous_output spend), d, f. }
  split.
  - intros i ip Hip Hv Hwhy. destruct (Hd i ip Hip) as (o & d & f & Ho & Hdi & Hf & Hm & Hval). eapply shown_seen; [done..| |done].
    destruct Hwhy as [Hno|Hw]; [destruct (value_sats ip) as [v|] eqn:Ev; [|done]; by eapply undeclared_proven|].
    destruct (unwarned_known _ _ _ _ _ _ _ _ Hw Hf) as [Hu Hk]. unfold marked, unproven in Hm. rewrite Hf. unfold proven_coin.
    destruct (f_prevout f) as [coin|]; cbn in Hm |- *; [|destruct (Hm eq_refl); congruence].
    destruct (f_listed f); [destruct (Hm eq_refl); congruence|done].
  - intros Hpos Hvals Hread. apply held_back_right in Hread as [(f & by_ & Hin & Hby & _ & Hc & Hv & _)|[?|(Hall & _ & Hlt & Hpr)]]; [|by right; left| |done..].
    + left. apply list_elem_of_In, list_elem_of_lookup in Hin as (i & Hi). destruct (Forall2_lookup_r _ _ _ _ _ Hb Hi) as (o & Ho & [_ Hs] & _).
      exists o, by_. split; [by eapply list_elem_of_In, list_elem_of_lookup_2|]. split; [done|]. by apply Hs.
    + right. right. split; [done|]. intros i ip Hip. destruct (Hd i ip Hip) as (o & d & f & Ho & Hdi & Hf & Hm & Hval).
      eapply shown_seen; [done..|by apply Hpr|]. apply Hall. unfold values_shown. eapply in_map, list_elem_of_In, list_elem_of_lookup_2. exact Hip.
Qed.
End Whole.
End Promises.

(** ** What a broadcast comes to *)

Section SentRight.
Context `{Transactions} `{Psbts} `{Bitcoin} `{Keys} `{Urls} {C : Type}.
Variables (json_error : string -> option (option Z * option string)) (parse_txid : string -> option string)
  (servers : Servers) (tor : list Endpoint -> CoreResult unit).
Implicit Types p : VaultPayload (WalletRecord C).

Abbreviation sending endpoint tx := (Lookups.broadcast json_error parse_txid servers endpoint tx).

Definition unreached (tx : Transaction) (endpoint : Endpoint) : Prop := exists fault, sending endpoint tx = Err (Transport fault).

Lemma send_each_right tx refusals failures endpoints :
  match send_each json_error parse_txid servers tx refusals failures endpoints with
  | Ok (endpoint, _) => exists before after, endpoints = before ++ endpoint :: after /\ Forall (unreached tx) before /\ sending endpoint tx = Ok tt
  | Err _ => Forall (unreached tx) endpoints
      \/ exists before endpoint after words, endpoints = before ++ endpoint :: after /\ Forall (unreached tx) before /\ sending endpoint tx = Err (Refused words)
  end.
Proof.
  revert refusals failures. induction endpoints as [|e l IH]; intros refusals failures; cbn [send_each]; [by left|].
  destruct (sending e tx) as [[]|[fault|words]] eqn:Ee.
  - by exists [], l.
  - assert (He : unreached tx e) by (by exists fault).
    specialize (IH (refusals ++ [(endpoint_label e, Faults.detail fault)]) (failures ++ [(e, Transport fault)])).
    destruct (send_each _ _ _ _ _ _ l) as [[endpoint fs]|rs].
    + destruct IH as (before & after & -> & Hb & Hs). exists (e :: before), after. split; [done|]. split; [by constructor|done].
    + destruct IH as [Hl|(before & endpoint & after & words & -> & Hb & Hs)]; [left; by constructor|right].
      exists (e :: before), endpoint, after, words. split; [done|]. split; [by constructor|done].
  - right. exists [], e, l, words. done.
Qed.

(** A transaction is said sent when a server of the wallet's backend
    took it and every one asked before could not be reached, and is then
    the first of those remembered; it is given to no server before it is
    signed in full, to no other once one took it, and to no other once a
    node turned it down, whose words are the answer. Not sent, it leaves
    nothing behind: no record in the vault, no server put behind. *)
Theorem sent_when_a_server_took_it p network live relegated instant now decoded p' relegated' res :
  broadcast_transaction json_error parse_txid servers tor p network live relegated instant now (Ok decoded) = (p', relegated', res) ->
  let tx := d_tx decoded in
  match res with
  | Ok report => d_ready decoded = true /\ br_txid report = compute_txid tx
      /\ hd_error (broadcasts p') = Some {| rb_txid := compute_txid tx; rb_network := network; rb_hex := serialize_hex tx;
                                            rb_backend := br_backend report; rb_at := now |}
      /\ exists before endpoint after,
           send_endpoints network (backend_for (settings p) network) (electrum_certs (settings p)) live relegated instant Broadcast = Ok (before ++ endpoint :: after)
           /\ Forall (unreached tx) before /\ sending endpoint tx = Ok tt /\ br_backend report = endpoint_label endpoint
  | Err e => p' = p /\ relegated' = relegated
      /\ (d_ready decoded = true -> forall endpoints,
           send_endpoints network (backend_for (settings p) network) (electrum_certs (settings p)) live relegated instant Broadcast = Ok endpoints ->
           tor endpoints = Ok tt ->
           Forall (unreached tx) endpoints
           \/ exists before endpoint after words, endpoints = before ++ endpoint :: after /\ Forall (unreached tx) before /\ sending endpoint tx = Err (Refused words))
  end.
Proof.
  unfold broadcast_transaction. destruct (d_ready decoded) eqn:Er; cbn [negb]; [|by intros [= <- <- <-]]. cbn [chain_setup].
  destruct (send_endpoints _ _ _ _ _ _ _) as [endpoints|e] eqn:Ee; cbn [result_bind]; [|by intros [= <- <- <-]].
  destruct (tor endpoints) as [[]|e] eqn:Et; cbn [result_bind].
  2: { intros [= <- <- <-]. split; [done|]. split; [done|]. intros _ l [= <-]. by rewrite Et. }
  pose proof (send_each_right (d_tx decoded) [] [] endpoints) as Hs. destruct (send_each _ _ _ _ _ _ endpoints) as [[endpoint fs]|rs]; intros [= <- <- <-].
  - destruct Hs as (before & after & -> & Hb & Hok). split; [done|]. split; [done|]. split; [done|]. by exists before, endpoint, after.
  - split; [done|]. split; [done|]. intros _ l [= <-] _. exact Hs.
Qed.
End SentRight.

(** ** The theorems at work *)

Section Demo.
#[local] Existing Instances Decode.Demo.transactions Decode.Demo.scripts Decode.Demo.psbts Decode.Demo.psbt_laws PreviewDemo.xonly_eq_dec
  Confirm.demo_bitcoin Endpoints.catalogue_urls Xpub.Demo.demo_keys.

(** A server that has the coin, and the block that spent it. *)
Definition spender : Transaction := {| tx_version := 2; lock_time := 9; input := [Decode.Demo.spend]; output := [] |}.
Definition demo_esplora : EsploraServer :=
  {| es_tx := fun txid => Ok (if bool_decide (txid = "7") then Some Decode.Demo.funding else if bool_decide (txid = "9") then Some spender else None);
     es_output_status := fun _ _ => Ok (Some {| os_spent := true; os_txid := Some "9"; os_confirmed := Some true |});
     es_height := Ok 900; es_post := fun _ => Ok (200, "0") |}.
Definition demo_servers : Servers := {| esplora := fun _ => Ok demo_esplora; electrum := fun _ => demo_electrum |}.
Definition no_wallets : VaultPayload (WalletRecord unit) := default_payload.

Abbreviation demo_preview := (preview_transaction (C := unit) demo_servers (fun _ => Ok tt) (fun _ => Err (Errors.Internal "")) (fun _ _ => None)
  no_wallets Mainnet None ∅ 0 0 (Ok PreviewDemo.decoded)).

Definition demo_shown : TxPreview := Eval vm_compute in
  match demo_preview.2 with Ok preview => preview | Err _ => build_preview PreviewDemo.decoded Mainnet [] [] None 0 end.
Abbreviation demo_seen := (input_seen (C := unit) demo_servers (fun _ => Ok tt) (fun _ => Err (Errors.Internal "")) no_wallets Mainnet None ∅ 0
  PreviewDemo.decoded).
Abbreviation demo_spend_seen := (spend_seen (C := unit) demo_servers (fun _ => Ok tt) (fun _ => Err (Errors.Internal "")) no_wallets Mainnet None ∅ 0).

Lemma preview_believes_what_was_seen_witness : readiness demo_shown = TxReadiness.Refused
  /\ (exists ip, p_inputs demo_shown !! 0%nat = Some ip /\ value_sats ip = Some 100000 /\ demo_seen 0 ip)
  /\ ((exists o by_, In o (outpoints PreviewDemo.decoded) /\ sb_confirmed by_ = true /\ demo_spend_seen o by_)
      \/ MAX_MONEY < sum (List.map op_value_sats (p_outputs demo_shown))
      \/ (total (values_shown demo_shown) < sum (List.map op_value_sats (p_outputs demo_shown))
          /\ forall i ip, p_inputs demo_shown !! i = Some ip -> demo_seen i ip)).
Proof.
  assert (Hrun : demo_preview = (∅, Ok demo_shown)) by (vm_compute; reflexivity).
  destruct (preview_believes_what_was_seen demo_servers (fun _ => Ok tt) (fun _ => Err (Errors.Internal "")) (fun _ _ => None)
    (fun _ _ Hno => match Hno with end) no_wallets Mainnet None ∅ 0 0 PreviewDemo.decoded ∅ demo_shown
    (Build_decoded_wf PreviewDemo.decoded eq_refl eq_refl) Hrun) as [Hseen Hheld].
  split; [reflexivity|]. split.
  - eexists. split; [reflexivity|]. split; [reflexivity|]. apply Hseen; [reflexivity|discriminate|left; reflexivity].
  - apply Hheld; [| |reflexivity].
    + intros x [<-|[]]. discriminate.
    + intros v [[= <-]|[]]. discriminate.
Defined.

Abbreviation demo_sent := (broadcast_transaction (C := unit) (fun _ => None) Some demo_servers (fun _ => Ok tt)
  no_wallets Mainnet None ∅ 0 5 (Ok PreviewDemo.decoded)).
Definition sent_payload : VaultPayload (WalletRecord unit) := Eval vm_compute in demo_sent.1.1.

Definition demo_report : BroadcastReport := {| br_txid := "0"; br_backend := "mempool.space"; br_at := 5 |}.

Lemma sent_when_a_server_took_it_witness : demo_sent = (sent_payload, ∅, Ok demo_report)
  /\ option_map rb_txid (hd_error (broadcasts sent_payload)) = Some "0"
  /\ exists endpoint, Lookups.broadcast (fun _ => None) Some demo_servers endpoint (d_tx PreviewDemo.decoded) = Ok tt /\ endpoint_label endpoint = "mempool.space".
Proof.
  assert (Hrun : demo_sent = (sent_payload, ∅, Ok demo_report)) by (vm_compute; reflexivity). split; [exact Hrun|].
  destruct (sent_when_a_server_took_it (fun _ => None) Some demo_servers (fun _ => Ok tt) no_wallets Mainnet None ∅ 0 5 PreviewDemo.decoded
    sent_payload ∅ (Ok demo_report) Hrun) as (_ & _ & Hh & before & endpoint & after & _ & _ & Hs & Hl).
  split; [exact (f_equal (option_map rb_txid) Hh)|]. exists endpoint. exact (conj Hs (eq_sym Hl)).
Defined.
End Demo.
