(* ===== verification/Polls.v ===== *)
(** [watch/poll.rs]: the pace of the rounds that read an Esplora server,
    and the scripts each round looks up. The clock counts nanoseconds. *)
From S2P Require Import Prelude Text WatchList Bursts.

Definition ROUND_BUDGET : nat := 3.
Definition OWN_NODE_ROUND_BUDGET : nat := 30.
Definition OWN_NODE_AT_ONCE : nat := 4.
Definition HOT : nat := 2.
Definition SLOWEST : Z := secs (10 * 60).
Definition SLOWED_FOR : Z := secs (30 * 60).

(** ** The pace *)

Record Pace := { slowed : Z; limited_at : option Z; not_before : option Z; pace_due : option Z }.

Definition default_pace : Pace := {| slowed := 0; limited_at := None; not_before := None; pace_due := None |}.

Definition limited (p : Pace) (pause now : Z) : Pace :=
  {| slowed := Z.min (sat_add_u32 (slowed p) 1) 16; limited_at := Some now; not_before := Some (now + pause);
     pace_due := pace_due p |}.

(** [Option<Instant>::max], and [saturating_duration_since]. *)
Definition later (a b : option Z) : option Z :=
  match a, b with
  | Some a, Some b => Some (Z.max a b)
  | Some a, None => Some a
  | None, b => b
  end.
Definition until (at_ : option Z) (now : Z) : Z := match at_ with Some at_ => sat_sub at_ now | None => 0 end.

Definition first_wait (p : Pace) (now : Z) : Z := until (later (pace_due p) (not_before p)) now.

Definition wait (p : Pace) (every now draw : Z) : Z * Pace :=
  let over := match limited_at p with Some at_ => SLOWED_FOR <=? sat_sub now at_ | None => false end in
  let slowed := if over then 0 else slowed p in
  let limited_at := if over then None else limited_at p in
  let usual := Z.min (every * 2 ^ slowed) (Z.max SLOWEST every) in
  let wait := Z.max (scaled 100 usual 85 30 draw) (until (not_before p) now) in
  (wait, {| slowed := slowed; limited_at := limited_at; not_before := not_before p; pace_due := Some (now + wait) |}).

(** ** The turns *)

Section Turns.
Context {Script F : Type}.
Abbreviation Entry := (Entry Script F).

Record Turns := { next : option string; at_ : nat }.

Definition default_turns : Turns := {| next := None; at_ := 0 |}.

Definition turns_first (turns : Turns) (rest : list Entry) : nat :=
  match match next turns with
        | Some next => position (fun entry => bool_decide (hex entry = next)) rest
        | None => None
        end with
  | Some place => place
  | None => if (at_ turns <? length rest)%nat then at_ turns else 0%nat
  end.

(** [Poller::new]: the lookups of a round, and those that go out at
    once. *)
Definition poller (own_node : bool) : nat * nat :=
  if own_node then (OWN_NODE_ROUND_BUDGET, OWN_NODE_AT_ONCE) else (ROUND_BUDGET, 1%nat).

(** [Poller::plan]: the entries of a round. *)
Definition plan (budget : nat) (watched : list Entry) (turns : Turns) (skip hot : nat) : list Entry * Turns :=
  let pool := drop skip watched in
  let hot := Nat.min (Nat.min hot (length pool)) budget in
  let rest := drop hot pool in
  match rest with
  | [] => (take hot pool, turns)
  | _ =>
    let first := turns_first turns rest in
    let count := Nat.min (budget - hot) (length rest) in
    let turned := omap (fun turn => rest !! ((first + turn) mod length rest)%nat) (seq 0 count) in
    let place := ((first + count) mod length rest)%nat in
    (take hot pool ++ turned, {| next := option_map hex (rest !! place); at_ := place |})
  end.
End Turns.
Arguments Turns : clear implicits.

(** ** What the rounds read *)

Section Fair.
Context {Script F : Type}.
Abbreviation Entry := (Entry Script F).
Implicit Types (watched rest : list Entry) (turns : Turns).

(** So many rounds, one after the other, over a list that stays. *)
Fixpoint rounds (budget : nat) watched turns (skip hot k : nat) : list (list Entry) :=
  match k with
  | O => []
  | S k => let '(read, turns) := plan budget watched turns skip hot in read :: rounds budget watched turns skip hot k
  end.

Lemma position_at rest i e : NoDup (List.map hex rest) -> rest !! i = Some e ->
  position (fun entry => bool_decide (hex entry = hex e)) rest = Some i.
Proof.
  revert i. induction rest as [|x rest IH]; intros i Hnd Hi; [by rewrite lookup_nil in Hi|].
  cbn [List.map] in Hnd. apply list.NoDup_cons in Hnd as [Hx Hnd]. simpl. destruct i as [|i]; simpl in Hi.
  - injection Hi as ->. by rewrite bool_decide_true.
  - rewrite bool_decide_false; [by rewrite (IH i)|]. intros E. apply Hx. rewrite E. apply list_elem_of_In, in_map.
    by eapply list_elem_of_In, list_elem_of_lookup_2.
Qed.

Lemma position_lt {A} (f : A -> bool) l i : position f l = Some i -> (i < length l)%nat.
Proof.
  revert i. induction l as [|x l IH]; intros i; simpl; [done|]. destruct (f x); [intros [= <-]; lia|].
  destruct (position f l) as [j|]; [|done]. intros [= <-]. specialize (IH j eq_refl). lia.
Qed.

Lemma turns_first_lt turns rest : (0 < length rest)%nat -> (turns_first turns rest < length rest)%nat.
Proof.
  intros Hlen. unfold turns_first. destruct (next turns) as [h|]; [destruct (position _ rest) as [i|] eqn:Ep|].
  - by eapply position_lt.
  - destruct (Nat.ltb_spec (at_ turns) (length rest)); lia.
  - destruct (Nat.ltb_spec (at_ turns) (length rest)); lia.
Qed.

(** The scripts that take turns, and how many of them a round reads. *)
Definition hot_of budget watched skip hot : nat := Nat.min (Nat.min hot (length (drop skip watched))) budget.
Definition in_turn budget watched skip hot : list Entry := drop (hot_of budget watched skip hot) (drop skip watched).
Definition share_of budget watched skip hot : nat :=
  Nat.min (budget - hot_of budget watched skip hot) (length (in_turn budget watched skip hot)).

Lemma plan_hot budget watched turns skip hot e :
  In e (take (hot_of budget watched skip hot) (drop skip watched)) -> In e (plan budget watched turns skip hot).1.
Proof.
  unfold plan. fold (hot_of budget watched skip hot). intros He.
  destruct (drop (hot_of budget watched skip hot) (drop skip watched)); [done|]. apply in_app_iff. by left.
Qed.

Lemma plan_turned budget watched turns skip hot i e : let rest := in_turn budget watched skip hot in
  (i < share_of budget watched skip hot)%nat -> rest !! ((turns_first turns rest + i) mod length rest)%nat = Some e ->
  In e (plan budget watched turns skip hot).1.
Proof.
  intros rest Hi He. unfold plan. fold (hot_of budget watched skip hot). fold (in_turn budget watched skip hot). fold rest.
  destruct rest as [|x l] eqn:Er; [by rewrite lookup_nil in He|]. rewrite <- Er in *. apply in_app_iff. right.
  apply list_elem_of_In, list_elem_of_omap. exists i. split; [|done]. apply elem_of_seq. unfold share_of in Hi. fold rest in Hi. lia.
Qed.

Lemma plan_next budget watched turns skip hot : NoDup (List.map hex watched) -> let rest := in_turn budget watched skip hot in
  (0 < length rest)%nat ->
  turns_first (plan budget watched turns skip hot).2 rest
  = ((turns_first turns rest + share_of budget watched skip hot) mod length rest)%nat.
Proof.
  intros Hnd rest Hlen. unfold plan. fold (hot_of budget watched skip hot). fold (in_turn budget watched skip hot). fold rest.
  change (Nat.min (budget - hot_of budget watched skip hot) (length rest)) with (share_of budget watched skip hot).
  destruct rest as [|x l] eqn:Er; [simpl in Hlen; lia|]. rewrite <- Er in *. cbn [snd]. set (place := (_ mod _)%nat).
  assert (Hp : (place < length rest)%nat) by (apply Nat.mod_upper_bound; lia).
  destruct (lookup_lt_is_Some_2 rest place Hp) as [e He]. unfold turns_first. cbn [next]. rewrite He. cbn [option_map].
  rewrite (position_at rest place e); [done| |done]. eapply sublist_NoDup; [exact Hnd|]. apply map_sublist.
  unfold rest, in_turn. etrans; [apply sublist_drop|apply sublist_drop].
Qed.

Lemma rounds_turned budget watched skip hot i e k turns : NoDup (List.map hex watched) -> let rest := in_turn budget watched skip hot in
  let share := share_of budget watched skip hot in
  (0 < share)%nat -> (i < k * share)%nat -> rest !! ((turns_first turns rest + i) mod length rest)%nat = Some e ->
  exists read, In read (rounds budget watched turns skip hot k) /\ In e read.
Proof.
  intros Hnd rest share Hs. revert i turns. induction k as [|k IH]; intros i turns Hi He; [lia|]. simpl.
  pose proof (plan_next budget watched turns skip hot Hnd) as Hn. cbn zeta in Hn. fold rest share in Hn.
  pose proof (plan_turned budget watched turns skip hot i e) as Ht. cbn zeta in Ht. fold rest share in Ht.
  destruct (plan budget watched turns skip hot) as [read turns'] eqn:Eplan. cbn [fst snd] in *.
  assert (Hlen : (0 < length rest)%nat) by (unfold share, share_of in Hs; fold rest in Hs; lia).
  destruct (decide (i < share)%nat) as [Hlt|Hge]; [exists read; split; [by left|by apply Ht]|].
  destruct (IH (i - share)%nat turns') as (read' & Hin & He').
  - simpl in Hi. lia.
  - rewrite (Hn Hlen), Nat.Div0.add_mod_idemp_l. rewrite <- He. f_equal. f_equal. lia.
  - exists read'. split; [by right|done].
Qed.

Lemma plan_length budget watched turns skip hot : (length (plan budget watched turns skip hot).1 <= budget)%nat.
Proof.
  unfold plan. fold (hot_of budget watched skip hot). assert (hot_of budget watched skip hot <= budget)%nat by (unfold hot_of; lia).
  destruct (drop _ _) as [|x l] eqn:Er; cbn [fst]; [rewrite length_take; lia|]. rewrite <- Er. rewrite length_app, length_take.
  match goal with |- context [omap ?f (seq 0 ?m)] => assert (length (omap f (seq 0 m)) <= m)%nat end; [|lia].
  clear. generalize 0%nat as a. induction (Nat.min _ _) as [|m IH]; intros a; csimpl; [done|].
  destruct (_ !! _); simpl; specialize (IH (S a)); lia.
Qed.

(** However long the list, a round asks no more of a server than its
    budget, and every script is read within so many rounds that the
    scripts in turn fit: the head of the list in each of them, the others
    in their turn, wherever the turns stood when they began. *)
Theorem every_script_is_read budget watched turns skip hot k e : NoDup (List.map hex watched) -> (hot < budget)%nat ->
  (0 < k)%nat -> (length watched - skip - hot <= k * (budget - hot))%nat -> In e (drop skip watched) ->
  (exists read, In read (rounds budget watched turns skip hot k) /\ In e read)
  /\ (In e (take hot (drop skip watched)) -> forall read, In read (rounds budget watched turns skip hot k) -> In e read)
  /\ (forall read, In read (rounds budget watched turns skip hot k) -> (length read <= budget)%nat).
Proof.
  intros Hnd Hb Hk Hl He. assert (Hplans : forall read, In read (rounds budget watched turns skip hot k) ->
    exists turns, read = (plan budget watched turns skip hot).1).
  { clear. revert turns. induction k as [|k IH]; intros turns read; simpl; [done|].
    destruct (plan budget watched turns skip hot) as [r t] eqn:E. intros [<-|Hr]; [exists turns; by rewrite E|by eapply IH]. }
  set (rest := in_turn budget watched skip hot) in *.
  assert (Hhot : forall read, In e (take hot (drop skip watched)) -> In read (rounds budget watched turns skip hot k) -> In e read).
  { intros read Hin (t & ->)%Hplans. apply plan_hot. replace (take (hot_of budget watched skip hot) _) with (take hot (drop skip watched)); [done|].
    unfold hot_of. destruct (decide (hot <= length (drop skip watched))%nat); [f_equal; lia|]. rewrite !take_ge; [done|lia|lia]. }
  split; [|split; [auto|intros read (t & ->)%Hplans; apply plan_length]].
  rewrite <- (take_drop hot (drop skip watched)) in He. apply in_app_iff in He as [He|He].
  - destruct k as [|k]; [lia|]. simpl in *. destruct (plan budget watched turns skip hot) as [r t]. exists r. split; [by left|].
    apply Hhot; [done|by left].
  - apply list_elem_of_In, list_elem_of_lookup in He as [m Hm].
    assert (Hh : hot_of budget watched skip hot = hot).
    { unfold hot_of. apply lookup_lt_Some in Hm. rewrite length_drop in Hm. lia. }
    assert (Erest : rest = drop hot (drop skip watched)) by (unfold rest, in_turn; by rewrite Hh). rewrite <- Erest in Hm.
    assert (Hlen : (length rest <= k * (budget - hot))%nat) by (rewrite Erest, !length_drop; lia).
    pose proof (lookup_lt_Some _ _ _ Hm) as Hmlt. pose proof (turns_first_lt turns rest ltac:(lia)) as Hf.
    set (i := ((m + length rest - turns_first turns rest) mod length rest)%nat).
    assert (Hi : (i < length rest)%nat) by (apply Nat.mod_upper_bound; lia).
    eapply (rounds_turned _ _ _ _ i); [done| | |].
    + unfold share_of. fold rest. rewrite Hh. lia.
    + unfold share_of. fold rest. rewrite Hh. destruct (Nat.min_spec (budget - hot) (length rest)) as [[_ ->]|[_ ->]]; [lia|]. nia.
    + fold rest. unfold i. rewrite Nat.Div0.add_mod_idemp_r.
      replace (turns_first turns rest + (m + length rest - turns_first turns rest))%nat with (m + 1 * length rest)%nat by lia.
      rewrite Nat.Div0.mod_add, Nat.mod_small by lia. done.
Qed.

(** A list that changes between two rounds keeps the turns: the next
    round starts its turns at the script the last one left them on, if it
    still takes turns there, wherever the change put it. *)
Theorem turns_go_on budget watched watched' turns skip hot skip' hot' e :
  NoDup (List.map hex watched') ->
  next (plan budget watched turns skip hot).2 = Some (hex e) -> In e (in_turn budget watched' skip' hot') ->
  (hot' < budget)%nat ->
  nth_error (plan budget watched' (plan budget watched turns skip hot).2 skip' hot').1 (hot_of budget watched' skip' hot') = Some e.
Proof.
  intros Hnd Hn He Hb. set (turns' := (plan budget watched turns skip hot).2) in *.
  apply list_elem_of_In, list_elem_of_lookup in He as [place He]. set (rest := in_turn budget watched' skip' hot') in *.
  assert (Hfirst : turns_first turns' rest = place).
  { unfold turns_first. rewrite Hn, (position_at rest place e); [done| |done]. eapply sublist_NoDup; [exact Hnd|]. apply map_sublist.
    unfold rest, in_turn. etrans; [apply sublist_drop|apply sublist_drop]. }
  pose proof (lookup_lt_Some _ _ _ He) as Hlt.
  unfold plan. fold (hot_of budget watched' skip' hot'). fold (in_turn budget watched' skip' hot'). fold rest.
  assert (Hh : (hot_of budget watched' skip' hot' < budget)%nat) by (unfold hot_of; lia).
  destruct rest as [|x l] eqn:Er; [simpl in Hlt; lia|]. rewrite <- Er in *. cbn [fst].
  rewrite nth_error_app2; rewrite length_take_le by (unfold hot_of; lia); [|lia]. rewrite Nat.sub_diag.
  destruct (Nat.min (budget - hot_of budget watched' skip' hot') (length rest)) as [|m] eqn:Em; [lia|].
  csimpl. rewrite Hfirst, Nat.add_0_r, Nat.mod_small, He by done. done.
Qed.
End Fair.

(** ** What the pace keeps to *)

Definition wf_pace (p : Pace) : Prop := 0 <= slowed p <= 16.

Lemma limited_wf p pause now : wf_pace p -> wf_pace (limited p pause now).
Proof. unfold wf_pace, limited, sat_add_u32, u32_max. cbn [slowed]. lia. Qed.

(** The usual wait, doubled each time the server limited the rate in the
    last half hour, ten minutes at most. *)
Definition usual (p : Pace) (every now : Z) : Z :=
  let over := match limited_at p with Some at_ => SLOWED_FOR <=? sat_sub now at_ | None => false end in
  Z.min (every * 2 ^ (if over then 0 else slowed p)) (Z.max SLOWEST every).

(** The wait between two rounds is the usual one, doubled for each
    limit the server set in the last half hour and ten minutes at most,
    give or take fifteen hundredths, and never shorter than the wait the
    server named; a session that opens meanwhile waits for the same
    round. *)
Theorem pace_right p every now draw : wf_pace p -> 0 <= every -> drawn draw ->
  let '(w, p') := wait p every now draw in
  wf_pace p'
  /\ (forall at_, not_before p = Some at_ -> at_ <= now + w)
  /\ 85 * usual p every now < 100 * (w + 1)
  /\ 100 * w <= Z.max (115 * usual p every now) (100 * until (not_before p) now)
  /\ (every <= usual p every now <= Z.max SLOWEST every)
  /\ (forall now', now + w <= now' + first_wait p' now').
Proof.
  intros Hwf He Hd. unfold wait. fold (usual p every now). set (over := match limited_at p with Some _ => _ | None => _ end).
  assert (Hp : 0 < 2 ^ (if over then 0 else slowed p)) by (apply Z.pow_pos_nonneg; [lia|]; unfold wf_pace in Hwf; destruct over; lia).
  assert (Hu : every <= usual p every now <= Z.max SLOWEST every).
  { unfold usual. fold over. nia. }
  destruct (scaled_bounds 100 (usual p every now) 85 30 draw ltac:(lia) ltac:(lia) ltac:(lia) Hd) as [H1 H2].
  set (s := scaled _ _ _ _ _) in *. unfold until, sat_sub. cbn [not_before]. split; [|split; [|split; [|split; [|split]]]].
  - unfold wf_pace in *. cbn [slowed]. destruct over; lia.
  - intros at_ ->. lia.
  - destruct (not_before p); lia.
  - destruct (not_before p); lia.
  - done.
  - intros now'. unfold first_wait, until, later, sat_sub. cbn [pace_due not_before]. destruct (not_before p); lia.
Qed.

(** ** A list of five scripts *)

Module Demo.
Definition entry (h : string) : Entry string unit :=
  {| e_script := h; hex := h; e_scripthash := h; e_lookahead := false; owners := []; statuses := []; counts := []; histories := [] |}.
Definition watched : list (Entry string unit) := List.map entry ["a"; "b"; "c"; "d"; "e"].

Example demo_rounds : List.map (List.map hex) (rounds ROUND_BUDGET watched default_turns 0 HOT 4)
  = [["a"; "b"; "c"]; ["a"; "b"; "d"]; ["a"; "b"; "e"]; ["a"; "b"; "c"]].
Proof. vm_compute. reflexivity. Qed.
End Demo.

Lemma every_script_is_read_witness :
  exists read, In read (rounds ROUND_BUDGET Demo.watched default_turns 0 HOT 3) /\ In (Demo.entry "e") read.
Proof.
  refine (proj1 (every_script_is_read ROUND_BUDGET Demo.watched default_turns 0 HOT 3 (Demo.entry "e") _ _ _ _ _)).
  - apply (bool_decide_unpack _). vm_compute. done.
  - vm_compute. lia.
  - lia.
  - vm_compute. lia.
  - vm_compute. tauto.
Defined.

Lemma turns_go_on_witness :
  nth_error (plan ROUND_BUDGET (Demo.entry "z" :: Demo.watched) (plan ROUND_BUDGET Demo.watched default_turns 0 HOT).2 0 HOT).1 2
  = Some (Demo.entry "d").
Proof.
  refine (turns_go_on ROUND_BUDGET Demo.watched (Demo.entry "z" :: Demo.watched) default_turns 0 HOT 0 HOT (Demo.entry "d") _ _ _ _).
  - apply (bool_decide_unpack _). vm_compute. done.
  - vm_compute. reflexivity.
  - vm_compute. tauto.
  - vm_compute. lia.
Defined.

Lemma pace_right_witness : secs 90 <= secs 1 + (wait (limited default_pace (secs 90) 0) (secs 60) (secs 1) 0).1.
Proof.
  assert (H := pace_right (limited default_pace (secs 90) 0) (secs 60) (secs 1) 0).
  unfold wf_pace in H. specialize (H ltac:(split; vm_compute; done) ltac:(vm_compute; done) ltac:(split; vm_compute; done)).
  destruct (wait (limited default_pace (secs 90) 0) (secs 60) (secs 1) 0) as [w p']. exact (proj1 (proj2 H) _ eq_refl).
Defined.
